(* ===== verification/_CoqProject ===== *)
-Q . S2P
Prelude.v
JsNum.v
JsDate.v
JsValue.v
Text.v
Types.v
Normalizer.v
Presentation.v
Schedule.v
DataRules.v
Merge.v
Collection.v
Policy.v
Connection.v
Json.v
JsonText.v
ReadBack.v
Documents.v
Sha256.v
Activity.v
Files.v
Store.v
Lease.v
Identity.v
Cadence.v
Coordination.v
Attempt.v
Transport.v
CodexServer.v
Providers.v
Connector.v
ClaudePayload.v
CodexPayload.v
QuotaPayloads.v
AccountPayloads.v
AntigravityPayload.v
Contract.v
Wire.v
Surfaces.v
Notify.v
Config.v
ConfigLaws.v
Spool.v
SpoolLaws.v
HookEvent.v
HookLaws.v
HookCommand.v
HookCommandLaws.v
HookInstall.v
HookViews.v
HookInstallLaws.v
HookChange.v
HookTheorems.v
QrField.v
Qr.v
QrLayout.v
QrRead.v
QrScan.v
QrTerminal.v
Runner.v
