(* ===== verification/Prelude.v ===== *)
(** * OpenLimiter: the core of the quota monitor, modelled and verified

    OpenLimiter shows how much of each AI provider's quota is used. Its
    programs, a command line tool, a status line, a desktop and a phone
    application, share two packages, [packages/core] and the parsers of
    [packages/connectors], and meet in documents in one state directory: each
    may read a provider, and all of them show what any of them read. This
    library models those packages and parts of the command line.

    ** The program's parts and their files

    What a reading is.
    - [Types] ([types.ts]): the closed unions and records of a reading.
    - [Normalizer] ([normalizer.ts]): untrusted data to readings; every reading
      the rest of the program handles came through [normalizeMeter].
    - [Presentation] ([provider-presentation.ts] and its contract document):
      the wording and the order of every meter.
    - [Schedule] ([schedule.ts], [freshness.ts], [forecast.ts]).

    What becomes of readings.
    - [DataRules] ([data-rules.ts]): how long a reading counts, what is shown.
    - [Merge] ([merge.ts]), [Collection] ([collection.ts]): how readings of
      several sources become one cache, and what a failed read withdraws.
    - [Store], [Files] ([cache.ts]): the two documents that hold readings and
      every transaction on them.
    - [Policy] ([policy.ts]): the advice computed from the rows.
    - [Connection] ([connection-state.ts], [failures.ts]): the life of a
      connection as a state machine and the catalogue of providers.

    How readings are obtained.
    - [Lease] ([cache.ts]): which process of the machine may ask a provider.
    - [Identity] ([acquire/identity.ts]): the account a reading belongs to.
    - [Cadence] ([acquire/cadence.ts]): when a provider is asked again.
    - [Coordination] ([acquire/coordination.ts]): one refresh at a time.
    - [Transport] ([acquire/transport.ts], [bounded-stream.ts]): the requests that
      may be made, the check at the boundary, the reply.
    - [CodexServer] ([acquire/codex-app-server.ts]): the conversation with
      Codex's own app server, a state machine over what the child does.
    - [Providers] ([acquire/providers.ts]): how each provider is asked.
    - [Attempt], [Runner] ([acquire/runner.ts]): one read, and a round of them.

    What agents do.
    - [Activity], [Sha256] ([activity/contract.ts]): sessions of coding agents
      and the pseudonymous record that may leave the machine.
    - [Spool], [SpoolLaws] ([core/activity/spool.ts]): the queue of recent events
      the hooks of agents leave for the desktop.
    - [HookEvent], [HookLaws] ([cli/src/activity/event.ts]): a hook's input to an
      event, dropping everything an agent or a person wrote.
    - [HookCommand], [HookInstall] ([adapters/src/hook-installation.ts] and the
      gates of [stubs.ts]): the command lines of hooks, and the configurations
      of agents into which hooks are installed. [HookCommandLaws],
      [HookViews] (a configuration seen as settings, events and handlers),
      [HookInstallLaws], [HookChange] and [HookTheorems] prove what they do.

    What providers answer ([packages/connectors/src]).
    - [Connector] ([shared.ts]): guarded reads of numbers and instants, the
      meter every parser builds, and the class [SoundParser], what a parser
      promises to the code that runs it.
    - [ClaudePayload] ([claude.ts]), [CodexPayload] ([codex.ts]),
      [QuotaPayloads] ([kimi.ts], [grok.ts], [opencode.ts], [gemini-cli.ts],
      [manual.ts]), [AccountPayloads] ([openrouter.ts], [cursor.ts]),
      [AntigravityPayload] ([antigravity.ts] and the core's
      [acquire/antigravity-meters.ts]): one parser per provider.
    - [Contract] ([contract-gate.ts], [acquisitionSpecs] of [cli.ts]): the gate
      in front of the parsers, and the specifications of [Providers] with the
      parsers they run; here a read is followed from its request to its rows.

    What leaves the machine, and what is shown.
    - [Wire], [Surfaces], [Notify] ([contracts/wire.ts], [contracts/surfaces.ts],
      [contracts/notify.ts]): the samples between devices, the account rows of
      every surface with the tray's one number, the notifications.
    - [QrField], [Qr] ([cli/src/qr.ts]): the QR encoder of the command line.
      Its specification is [QrLayout], a reader written from the published
      layout, with tables and arithmetic of its own, and [QrTerminal], a
      terminal. [QrRead]
      shows what the encoder draws, [QrScan] that the reader finds its bytes in
      it: a wrong mask, finder or format code is caught, not shared.

    What a person chooses.
    - [Config], [ConfigLaws] ([cli/src/config.ts], the config command of
      [cli.ts], [terminalVisibility] of [terminal.ts]): the configuration
      document and the command that prints and changes it.

    Underneath lie [Prelude] (notations, tactics, list lemmas), [JsNum]
    (binary64 numbers), [JsDate] (instants and their texts), [JsValue] (parsed
    JSON), [Text] (splitting, replacing and decimal numerals), [Json] (the text
    of a value), [JsonText] (the language's [JSON.parse]), [ReadBack] (that
    what one writes the other reads) and [Documents] (the values that are
    documents, and their canonical text).

    ** How the code is represented

    A function of the source is a function here, of the same name; a record
    has the source's fields with a prefix; a union of texts is an enumeration
    whose texts [name_of] gives. [undefined] and [null] are [None] where the
    code tells them apart from a value and from nothing else; a function that
    can throw returns [option] or a sum, with [None] for the throw. A Map or
    an object used as one is an association list in insertion order.

    Numbers are binary64: [Fin k] is the number k * 2^-1074, besides NaN and
    the infinities, and each operation rounds to even; integers that the code
    keeps whole are [Z]. A text is a sequence of UTF-16 code units, of which
    the model covers those below 256; lengths are counted in units where the
    code reads [length] and in UTF-8 bytes where it asks for bytes.
    [Date.parse] reads the ISO texts the program
    writes as the language defines it; on any other text it is a parameter
    ([DateHost]), of which only the valid range is assumed. The digest of
    [node:crypto] is a parameter ([CryptoHost]) whose digests have 64
    hexadecimal digits. Both classes have an instance, used by the witnesses.

    Where processes interleave, the model is a sequence of steps each of which
    the code performs atomically: transactions under the cache lock for [Store]
    and [Lease], single file operations for [Coordination]. A round of
    acquisition is a function of what the world answers ([ReadWorld],
    [TurnWorld]): credentials, clocks, leases, replies and failing writes are
    arbitrary, so a theorem holds for every answer.

    ** What the theorems show

    - Readings: whatever is accepted satisfies every bound ([Normalizer]), a
      soft field never costs a reading, and the canonical form reads back.
    - Cache: a document implements the pure state under every transaction
      ([Store] refines [Collection] and [Merge]), a merge refines insertion into
      a finite map, keeps the newest when it has to cut and never goes back in
      time, drift hides what was read before it until a later reading, and a
      surface reads trusted rows alone. One transaction leaves a document that
      no longer opens: recording a failure in a full cache.
    - Screen: a value shown is of a connected account and current, by the rule
      of its kind, and every row is accounted for.
    - Lease and round: a live lease is exclusive, a lost one writes and
      publishes nothing, deadlines are honoured; a successful attempt was
      earned, a report is a believed read filed under the login that was sent,
      the one read again after a refusal included, every request earns a wait,
      and every provider gets its answer.
    - Refresh: one owner of the lock in every interleaving, which gains it only
      by making the file and loses it only by its own release or as silent too
      long, one start per window; a live lock can nevertheless be reclaimed.
    - Activity: histories project to valid records, an event counts once, and
      notifications come exactly when they should.
    - Network: every request the builders make passes the boundary and nothing
      else does; a login goes only to addresses of its own provider; a body is
      read whole or not at all; a conversation with the app server believes at
      most one answer, a line of its output, and within the limit on that
      output the chunks it arrives in make no difference. What a Gemini plan
      says decides the read, and a project it names is asked for its quota.
    - Texts: parsing the canonical text of a value gives the value back
      ([ReadBack]), numbers to the last bit.
    - Payloads: whatever a provider sends, what its parser answers is meters the
      normalizer believes, of distinct names, in range, with a reset ahead; for
      the providers of which this holds without exception the gate never gives
      its last reason and a successful read keeps every row. The exceptions are
      stated: names the normalizer refuses (Claude, Codex), one name for two
      limits (Codex), a billing cycle of 366 days (Cursor). A Claude document
      that counts as complete states every weekly it names, and the order of
      its keys is immaterial; no two Antigravity pools share a meter.
    - Contracts: every believed reading whose unit the wire can state travels
      and arrives as it was sent, and a sample survives the trip there and back;
      the tray shows the highest fresh quota with its row's own band; a
      notification's key names one event and passes the boundary; quiet hours
      are an interval of the day's cycle.
    - QR: whatever text has a symbol (106 bytes at most, in the smallest version
      with room), a reader of the terminal's picture has its bytes; the error
      correction is a Reed-Solomon code; the mask is the best of the eight.
    - Configuration: the document implements what the commands that exited with
      0 mean, as long as it stays within its reader's size limit, a switch of
      the poll whose copy failed being the one exit with 0 that leaves it; what
      [set] prints [get] prints again, [hosts] up to its order; the last choice
      on a key stands whatever is chosen on the others.
    - Hooks and spool: every hook the agents send and the program knows makes an
      event; of the payload an event holds the session identifier alone; the
      spool stays in its bounds through every history, of killed writers too,
      an event written is read back last, and a day later no record of a writer
      stands in the way of the next one.
    - Installation: a command line reads back as its arguments on the platform
      that wrote it; the program knows its own handlers and takes no other for
      one; a change of a JSON configuration keeps everything of others and settles
      after one application; a change of any file is made of what two looks
      found in it, whoever else writes it; a block in Kimi's file leaves no trace. Two habits that surprise are Examples of
      [HookTheorems]: a removal from a file without hooks writes an empty
      section, and an installation replaces hooks that are no object.

    ** Bounds and fuel

    Recursion is structural throughout, and where the code loops the model
    folds over the same list. Fuel appears where a number is printed: a decimal
    integer has at most 40 digits here (the code prints none beyond 2^64), the
    parser of a JSON text of n units takes 2n+2 steps at most, since each one
    reads a unit or descends from one that did, the largest double has 309 digits before the point and the smallest 324 zeros
    after it (310 and 330 steps), and 17 significant digits always identify a
    double. SHA-256 is computed on its blocks, so witnesses evaluate it. Dates
    are computed from the era of 400 years, exactly, over the range a Date can
    hold.

    ** Not modelled, and why

    File system mechanics (symbolic links, the lock directory, atomic rename),
    network, child processes and credential stores are input and output: their
    answers are parameters. The pages, the drawing of the terminal and the
    desktop's Rust program are outside the core; [apps/web/app/app/engine/]
    is a generated copy of files modelled here.

    A document is an object of distinct keys in insertion order; the language
    enumerates keys that are array indices first, which no document of the
    program has and the payloads of providers do not use. The order of
    [localeCompare] is a parameter ([LocaleHost]), of which only that it is a
    total preorder is assumed. Upper and lower case are those of ASCII letters, and
    in [Config] of Latin-1.
    Of a connector object, [detect] looks at one environment variable and [read]
    only calls the parser; the fixtures of the connectors' tests are data.
    Of the spool, the checks of its directory, the wait for its lock and the
    deadline of a write are fates ([Fate], [WriteFate]): a write may come to
    nothing at any of them, and the theorems hold for each. The stamp
    [.acl-verified] that the preparation leaves in a Windows directory is read
    over ([readActivitySpool]) but not put there.
    The size limit of [readJsonFileSafely] is part of [Config]; of the other
    documents, which are of bounded parts, it is not modelled. In [Store] a
    document behind a path that is no ordinary file ([unsafe]) is never written
    to; whether the file system would replace it is left open. [Lease] keeps
    none of the unknown fields of a policy document. [fetchTransport] is
    modelled for web requests; redirects and the deadline end it in a throw,
    which is its answer [None].
    Of the installation of hooks, the checks of paths and executables, the
    writes, and what others write between two steps are an [AttemptWorld] per
    attempt; the search for an agent's executable and the probe of its version
    are file system and child process work, and their answer is an argument.
    Not modelled either: the hosted
    context, the drawing of the status line and the terminal, the hub, sessions
    and terminal configuration files of the command line, and the printing of
    amounts ([format.ts]).
*)
From Stdlib Require Export Ascii.
From stdpp Require Export prelude strings list option sorting.
From Stdlib Require Export ZArith Lia.

#[export] Set Warnings "-clear-no-such-hyp,-register-all".

(** ** Scope and notations *)

Declare Scope js_scope.
Delimit Scope js_scope with js.

(** A guard written as an early [return null]: [check b ;; k] continues with
    [k] only when [b] holds. *)
Notation "'check' b ;; k" := (if b then k else None)
  (at level 100, b at level 99, k at level 200, right associativity,
   format "'[v' 'check'  b  ;; '/' k ']'") : js_scope.

(** Reading a value that may be refused: [let? x := e in k]. *)
Notation "'let?' x := e 'in' k" :=
  (match e with Some x => k | None => None end)
  (at level 10, x pattern, e at level 150, k at level 200,
   format "'[v' 'let?'  x  :=  e  'in' '/' k ']'") : js_scope.

(** ** Tactics and hints *)

Create HintDb js discriminated.
Create Rewrite HintDb js_rw.

(** Case analysis on every [match] and [if] of the goal or of a hypothesis,
    closing the branches that contradict each other. *)
Ltac split_match :=
  match goal with
  | |- context [match ?x with _ => _ end] => destruct x eqn:?
  | H : context [match ?x with _ => _ end] |- _ => destruct x eqn:?
  end; simplify_eq/=.

Ltac split_matches := repeat split_match.

(** The same, for hypotheses that read a value out of nested guards. *)
Ltac split_hyp H :=
  repeat (match type of H with
          | context [match ?x with _ => _ end] =>
              let E := fresh "E" in destruct x eqn:E; simplify_eq/=; try done
          end).

(** The same for the outermost guard alone, kept whole. *)
Tactic Notation "guard_hyp" hyp(H) "as" ident(E) :=
  match type of H with
  | (if ?b then _ else _) = _ => destruct b eqn:E; [|discriminate H]
  end.

(** Boolean hypotheses and goals turned into propositions. *)
Ltac bools :=
  repeat match goal with
  | H : _ && _ = true |- _ => apply andb_true_iff in H as [? ?]
  | H : _ || _ = false |- _ => apply orb_false_iff in H as [? ?]
  | H : negb _ = true |- _ => apply negb_true_iff in H
  | H : negb _ = false |- _ => apply negb_false_iff in H
  | H : (_ =? _)%Z = true |- _ => apply Z.eqb_eq in H
  | H : (_ =? _)%Z = false |- _ => apply Z.eqb_neq in H
  | H : (_ <? _)%Z = true |- _ => apply Z.ltb_lt in H
  | H : (_ <? _)%Z = false |- _ => apply Z.ltb_ge in H
  | H : (_ <=? _)%Z = true |- _ => apply Z.leb_le in H
  | H : (_ <=? _)%Z = false |- _ => apply Z.leb_gt in H
  | H : bool_decide _ = true |- _ => apply bool_decide_eq_true in H
  | H : bool_decide _ = false |- _ => apply bool_decide_eq_false in H
  end.

(** ** Strings *)

(** A JavaScript string is a sequence of code units; the model covers the
    strings whose units fit one byte. [s1 < s2] compares code units. *)
Fixpoint str_compare (s1 s2 : string) : comparison :=
  match s1, s2 with
  | EmptyString, EmptyString => Eq
  | EmptyString, String _ _ => Lt
  | String _ _, EmptyString => Gt
  | String a s1', String b s2' =>
      match N.compare (Ascii.N_of_ascii a) (Ascii.N_of_ascii b) with
      | Eq => str_compare s1' s2'
      | c => c
      end
  end.

Definition str_ltb (s1 s2 : string) : bool :=
  match str_compare s1 s2 with Lt => true | _ => false end.

Definition str_eqb (s1 s2 : string) : bool := bool_decide (s1 = s2).

Fixpoint str_forall (p : Ascii.ascii -> bool) (s : string) : bool :=
  match s with
  | EmptyString => true
  | String c s' => p c && str_forall p s'
  end.

Definition code (c : Ascii.ascii) : Z := Z.of_N (Ascii.N_of_ascii c).

Definition in_range (lo hi : Z) (c : Ascii.ascii) : bool :=
  (lo <=? code c)%Z && (code c <=? hi)%Z.

Definition is_digit : Ascii.ascii -> bool := in_range 48 57.
Definition is_upper : Ascii.ascii -> bool := in_range 65 90.
Definition is_lower : Ascii.ascii -> bool := in_range 97 122.

Fixpoint str_length (s : string) : Z :=
  match s with
  | EmptyString => 0
  | String _ s' => 1 + str_length s'
  end.

Fixpoint starts_with (pre s : string) : bool :=
  match pre, s with
  | EmptyString, _ => true
  | String a pre', String b s' => Ascii.eqb a b && starts_with pre' s'
  | _, _ => false
  end.

Lemma str_compare_refl s : str_compare s s = Eq.
Proof. induction s; simpl; [done|]. by rewrite N.compare_refl. Qed.

Lemma str_compare_eq s1 s2 : str_compare s1 s2 = Eq <-> s1 = s2.
Proof.
  split; [|intros ->; apply str_compare_refl].
  revert s2. induction s1 as [|a s1 IH]; intros [|b s2]; simpl; try done.
  destruct (N.compare_spec (N_of_ascii a) (N_of_ascii b)) as [E| |]; try done.
  intros ->%IH. f_equal. by rewrite <- (ascii_N_embedding a), E, ascii_N_embedding.
Qed.

Lemma str_compare_antisym s1 s2 : str_compare s2 s1 = CompOpp (str_compare s1 s2).
Proof.
  revert s2. induction s1 as [|a s1 IH]; intros [|b s2]; simpl; try done.
  rewrite N.compare_antisym. destruct (N.compare (N_of_ascii a) (N_of_ascii b)); simpl; auto.
Qed.

Lemma str_compare_trans s1 s2 s3 :
  str_compare s1 s2 <> Gt -> str_compare s2 s3 <> Gt -> str_compare s1 s3 <> Gt.
Proof.
  revert s2 s3. induction s1 as [|a s1 IH]; intros [|b s2] [|c s3]; simpl; try done.
  destruct (N.compare_spec (N_of_ascii a) (N_of_ascii b)),
    (N.compare_spec (N_of_ascii b) (N_of_ascii c)),
    (N.compare_spec (N_of_ascii a) (N_of_ascii c)); try done; try lia.
  apply IH.
Qed.

(** ** Maps with insertion order

    A JavaScript [Map]: the first [set] of a key decides its place, a later
    [set] replaces the value there. *)
Section Assoc.
Context {K V : Type} `{EqDecision K}.

Fixpoint assoc_get (k : K) (m : list (K * V)) : option V :=
  match m with
  | [] => None
  | (k', v) :: m' => if decide (k = k') then Some v else assoc_get k m'
  end.

Fixpoint assoc_set (k : K) (v : V) (m : list (K * V)) : list (K * V) :=
  match m with
  | [] => [(k, v)]
  | (k', v') :: m' =>
      if decide (k = k') then (k, v) :: m' else (k', v') :: assoc_set k v m'
  end.

Lemma assoc_get_set k k' v m :
  assoc_get k (assoc_set k' v m) =
  if decide (k = k') then Some v else assoc_get k m.
Proof.
  induction m as [|[k0 v0] m IH]; simpl; [by repeat case_decide|].
  destruct (decide (k' = k0)) as [->|]; simpl.
  - by destruct (decide (k = k0)).
  - rewrite IH. by repeat case_decide; simplify_eq.
Qed.

Lemma assoc_set_keys_in k v m : k ∈ m.*1 -> (assoc_set k v m).*1 = m.*1.
Proof.
  induction m as [|[k0 v0] m IH]; csimpl; [by intros ?%elem_of_nil|].
  rewrite elem_of_cons. case_decide; csimpl; [by subst|].
  intros [?|?]; [done|]. by rewrite IH.
Qed.

Lemma assoc_set_keys_notin k v m : k ∉ m.*1 -> (assoc_set k v m).*1 = m.*1 ++ [k].
Proof.
  induction m as [|[k0 v0] m IH]; csimpl; [done|].
  rewrite elem_of_cons. intros Hk. case_decide; csimpl; [naive_solver|].
  rewrite IH; naive_solver.
Qed.

Lemma elem_of_assoc_set_keys k k' v m :
  k ∈ (assoc_set k' v m).*1 <-> k = k' \/ k ∈ m.*1.
Proof.
  destruct (decide (k' ∈ m.*1)).
  - rewrite assoc_set_keys_in by done. naive_solver.
  - rewrite assoc_set_keys_notin, elem_of_app, list_elem_of_singleton by done. naive_solver.
Qed.

Lemma assoc_set_NoDup k v m : NoDup m.*1 -> NoDup (assoc_set k v m).*1.
Proof.
  intros Hm. destruct (decide (k ∈ m.*1)).
  - by rewrite assoc_set_keys_in.
  - rewrite assoc_set_keys_notin by done. apply NoDup_app.
    split_and!; [done| |apply NoDup_singleton]. by intros x ? ->%list_elem_of_singleton.
Qed.

Lemma assoc_get_elem k v m : NoDup m.*1 -> assoc_get k m = Some v <-> (k, v) ∈ m.
Proof.
  induction m as [|[k0 v0] m IH]; csimpl; [intros; split; [done|by intros ?%elem_of_nil]|].
  intros [Hk Hm]%NoDup_cons. specialize (IH Hm).
  rewrite elem_of_cons. case_decide; simplify_eq.
  - split; [by intros [= ->]; left|]. intros [[= ->]|Hin]; [done|].
    destruct Hk. apply list_elem_of_fmap. by exists (k0, v).
  - rewrite IH. split; [by right|]. by intros [[= -> ->]|].
Qed.

Lemma assoc_get_None k m : assoc_get k m = None <-> k ∉ m.*1.
Proof.
  induction m as [|[k0 v0] m IH]; csimpl.
  - split; [by intros _ ?%elem_of_nil|done].
  - rewrite elem_of_cons. case_decide; [naive_solver|]. rewrite IH. naive_solver.
Qed.
End Assoc.

(** ** Stable sorting

    [Array.prototype.sort] is stable: elements the comparator calls equal keep
    their order. Insertion from the right gives exactly that order. *)
Class TotalPreorder {A} (cmp : A -> A -> comparison) : Prop := {
  cmp_antisym x y : cmp y x = CompOpp (cmp x y);
  cmp_trans x y z : cmp x y <> Gt -> cmp y z <> Gt -> cmp x z <> Gt
}.

Section Sorting.
Context {A : Type} (cmp : A -> A -> comparison).

Fixpoint insert_by (x : A) (l : list A) : list A :=
  match l with
  | [] => [x]
  | y :: l' => match cmp x y with Gt => y :: insert_by x l' | _ => x :: l end
  end.

Definition sort_by (l : list A) : list A := foldr insert_by [] l.

Lemma insert_by_perm x l : insert_by x l ≡ₚ x :: l.
Proof.
  induction l as [|y l IH]; simpl; [done|]. destruct (cmp x y); try done.
  rewrite IH. constructor.
Qed.

Lemma sort_by_perm l : sort_by l ≡ₚ l.
Proof. induction l as [|x l IH]; simpl; [done|]. by rewrite insert_by_perm, IH. Qed.

Lemma elem_of_sort_by x l : x ∈ sort_by l <-> x ∈ l.
Proof. by rewrite sort_by_perm. Qed.

Lemma length_sort_by l : length (sort_by l) = length l.
Proof. by rewrite sort_by_perm. Qed.

Context `{!TotalPreorder cmp}.

Definition le_by (x y : A) : Prop := cmp x y <> Gt.

Lemma le_by_total x y : le_by x y \/ le_by y x.
Proof. unfold le_by. rewrite (cmp_antisym (cmp:=cmp) x y). destruct (cmp x y); naive_solver. Qed.

#[export] Instance le_by_trans : Transitive le_by.
Proof. intros x y z. apply cmp_trans. Qed.

Lemma insert_by_sorted x l : StronglySorted le_by l -> StronglySorted le_by (insert_by x l).
Proof.
  induction 1 as [|y l Hs IH Hy]; simpl; [by repeat constructor|].
  destruct (cmp x y) eqn:E.
  1,2: constructor; [by constructor|]; constructor; [unfold le_by; congruence|];
    eapply Forall_impl; [exact Hy|]; intros z Hz; trans y; [unfold le_by; congruence|done].
  constructor; [done|]. rewrite insert_by_perm. constructor; [|done].
  unfold le_by. rewrite (cmp_antisym (cmp:=cmp) x y), E. done.
Qed.

Lemma sort_by_sorted l : StronglySorted le_by (sort_by l).
Proof. induction l; simpl; [constructor|by apply insert_by_sorted]. Qed.

(** A list already in order is left alone. *)
Lemma sort_by_id l : StronglySorted le_by l -> sort_by l = l.
Proof.
  induction 1 as [|x l Hs IH Hx]; simpl; [done|]. rewrite IH.
  destruct l as [|y l]; simpl; [done|].
  apply Forall_cons in Hx as [Hxy _]. unfold le_by in Hxy. by destruct (cmp x y).
Qed.
End Sorting.

#[export] Hint Resolve sort_by_sorted : js.

(** The code unit order on keys extracted by [key]. *)
#[export] Instance str_compare_preorder {A} (key : A -> string) :
  TotalPreorder (fun x y => str_compare (key x) (key y)).
Proof. split; [intros; apply str_compare_antisym|intros x y z; apply str_compare_trans]. Qed.

(** ** Filters *)

Lemma filter_id {A} (P : A -> Prop) `{!forall x, Decision (P x)} (l : list A) :
  (forall x, x ∈ l -> P x) -> filter P l = l.
Proof.
  induction l as [|x l IH]; intros Hall; [done|]. rewrite filter_cons_True by (apply Hall; left).
  f_equal. apply IH. intros y Hy. apply Hall. by right.
Qed.

(** Sorting depends on the comparator only where it is applied. *)
Lemma insert_by_ext {A} (cmp cmp' : A -> A -> comparison) x l :
  (forall y, y ∈ l -> cmp x y = cmp' x y) -> insert_by cmp x l = insert_by cmp' x l.
Proof.
  induction l as [|y l IH]; simpl; intros Hext; [done|]. rewrite Hext by left.
  destruct (cmp' x y); [done..|]. f_equal. apply IH. intros z Hz. apply Hext. by right.
Qed.

Lemma sort_by_ext {A} (cmp cmp' : A -> A -> comparison) l :
  (forall x y, x ∈ l -> y ∈ l -> cmp x y = cmp' x y) -> sort_by cmp l = sort_by cmp' l.
Proof.
  induction l as [|x l IH]; simpl; intros Hext; [done|].
  rewrite IH by (intros; apply Hext; by right). apply insert_by_ext.
  intros y Hy%elem_of_sort_by. apply Hext; [left|by right].
Qed.

(** The head of a sorted list is below everything in it. *)
Lemma sort_by_head {A} (cmp : A -> A -> comparison) `{!TotalPreorder cmp} l x y :
  head (sort_by cmp l) = Some x -> y ∈ l -> x ∈ l /\ cmp x y <> Gt.
Proof.
  intros Hx Hy. pose proof (sort_by_sorted cmp l) as Hs.
  assert (Hp := sort_by_perm cmp l). destruct (sort_by cmp l) as [|z l'] eqn:E; [done|].
  injection Hx as ->. split; [rewrite <- Hp; left|].
  rewrite <- Hp in Hy. apply elem_of_cons in Hy as [->|Hy].
  - intros Hg. pose proof (cmp_antisym (cmp:=cmp) x x) as Ha. rewrite Hg in Ha. done.
  - inversion Hs as [|? ? _ Hall]; subst. rewrite Forall_forall in Hall. by apply Hall.
Qed.

Lemma filter_none {A} (P : A -> Prop) `{!forall x, Decision (P x)} (l : list A) :
  (forall x, x ∈ l -> ~ P x) -> filter P l = [].
Proof.
  induction l as [|x l IH]; intros Hall; [done|]. rewrite filter_cons_False by (apply Hall; left).
  apply IH. intros y Hy. apply Hall. by right.
Qed.

Lemma filter_split {A} (P : A -> Prop) `{!forall x, Decision (P x)} (l a b : list A) x :
  filter P l = a ++ x :: b ->
  exists l1 l2, l = l1 ++ x :: l2 /\ filter P l1 = a /\ filter P l2 = b.
Proof.
  revert a. induction l as [|y l IH]; intros a E; [by destruct a|].
  rewrite filter_cons in E. destruct (decide (P y)) as [Hy|Hy].
  - destruct a as [|z a]; injection E as -> E.
    + by exists [], l.
    + destruct (IH a E) as (l1 & l2 & -> & <- & <-). exists (z :: l1), l2.
      split; [done|]. by rewrite filter_cons_True.
  - destruct (IH a E) as (l1 & l2 & -> & <- & <-). exists (y :: l1), l2.
    split; [done|]. by rewrite filter_cons_False.
Qed.

Lemma filter_key_unique {A K} `{EqDecision K} (f : A -> K) p (l : list A) g more :
  NoDup (f <$> l) -> filter (fun x => f x = p) l = g :: more -> more = [].
Proof.
  intros Hn E. destruct (filter_split _ l [] more g E) as (l1 & l2 & -> & _ & <-).
  apply filter_none. intros x Hx Ep.
  assert (Hg : f g = p).
  { assert (Hin : g ∈ filter (fun x => f x = p) (l1 ++ g :: l2)) by (rewrite E; left).
    by apply list_elem_of_filter in Hin as [? _]. }
  rewrite fmap_app in Hn. csimpl in Hn. apply NoDup_app in Hn as (_ & _ & [Hnot _]%NoDup_cons).
  apply Hnot. rewrite Hg, <- Ep. apply list_elem_of_fmap. by exists x.
Qed.
