(* ===== verification/JsNum.v ===== *)
(** * JavaScript numbers

    A number is an IEEE 754 binary64 value. Every finite double is a whole
    multiple of [2^-1074], so a finite number is stored as that multiple, an
    integer; comparison is exact integer comparison and every arithmetic
    operation computes the exact result and rounds it once, to nearest with
    ties to even ([round_ratio]). The two zeros are one value: no modelled
    function tells them apart. *)
From S2P Require Import Prelude.
Local Open Scope Z_scope.
Local Open Scope js_scope.

Inductive num : Type :=
| NaN
| Inf (negative : bool)
| Fin (units : Z).

#[export] Instance num_eq_dec : EqDecision num.
Proof. solve_decision. Defined.

(** The number one, counted in units of [2^-1074]. *)
Definition one : Z := 2 ^ 1074.

(** The first magnitude, in the same units, that no double reaches. *)
Definition overflow_bound : Z := 2 ^ 2098.

(** A literal whole number; exact up to [2^53]. *)
Definition int (n : Z) : num := Fin (n * one).

(** ** Rounding *)

(** [a / b] rounded to a whole number, ties to even. *)
Definition half_even (a b : Z) : Z :=
  let q := a / b in
  let r := a mod b in
  if 2 * r <? b then q
  else if b <? 2 * r then q + 1
  else q + q mod 2.

(** The spacing of doubles at the magnitude [n / d]: one unit up to 53 bits,
    doubling with every further bit. *)
Definition grid (n d : Z) : Z := 2 ^ Z.max 0 (Z.log2 (n / d) - 52).

Definition round_magnitude (n d : Z) : Z := half_even n (d * grid n d) * grid n d.

(** The double nearest to [n / d] units, for [0 < d]. *)
Definition round_ratio (n d : Z) : num :=
  let m := round_magnitude (Z.abs n) d in
  if overflow_bound <=? m then Inf (n <? 0) else Fin (Z.sgn n * m).

(** A decimal literal [p / q], read as the nearest double. *)
Definition lit (p q : Z) : num := round_ratio (p * one) q.

(** ** Comparison *)

Definition num_compare (x y : num) : option comparison :=
  match x, y with
  | NaN, _ | _, NaN => None
  | Fin a, Fin b => Some (a ?= b)
  | Inf true, Inf true | Inf false, Inf false => Some Eq
  | Inf true, _ | _, Inf false => Some Lt
  | Inf false, _ | _, Inf true => Some Gt
  end.

(** The four relational operators and strict equality: all false on [NaN]. *)
Definition nlt (x y : num) : bool :=
  match num_compare x y with Some Lt => true | _ => false end.
Definition nle (x y : num) : bool :=
  match num_compare x y with Some Lt | Some Eq => true | _ => false end.
Definition neq (x y : num) : bool :=
  match num_compare x y with Some Eq => true | _ => false end.

Infix "<#" := nlt (at level 70, no associativity) : js_scope.
Infix "<=#" := nle (at level 70, no associativity) : js_scope.
Infix "==#" := neq (at level 70, no associativity) : js_scope.

Definition is_finite (x : num) : bool :=
  match x with Fin _ => true | _ => false end.

(** [Number.isInteger], with the integer it holds. *)
Definition to_int (x : num) : option Z :=
  match x with
  | Fin z => if z mod one =? 0 then Some (z / one) else None
  | _ => None
  end.

(** [Number.isSafeInteger], with the integer it holds. *)
Definition to_safe_int (x : num) : option Z :=
  let? n := to_int x in
  check Z.abs n <? 2 ^ 53;; Some n.

(** ** Arithmetic *)

Definition nneg (x : num) : num :=
  match x with NaN => NaN | Inf b => Inf (negb b) | Fin z => Fin (- z) end.

Definition nadd (x y : num) : num :=
  match x, y with
  | NaN, _ | _, NaN => NaN
  | Fin a, Fin b => round_ratio (a + b) 1
  | Inf a, Inf b => if Bool.eqb a b then Inf a else NaN
  | Inf a, Fin _ | Fin _, Inf a => Inf a
  end.

Definition nsub (x y : num) : num := nadd x (nneg y).

Definition nmul (x y : num) : num :=
  match x, y with
  | NaN, _ | _, NaN => NaN
  | Fin a, Fin b => round_ratio (a * b) one
  | Inf a, Inf b => Inf (xorb a b)
  | Inf a, Fin z | Fin z, Inf a => if z =? 0 then NaN else Inf (xorb a (z <? 0))
  end.

Definition ndiv (x y : num) : num :=
  match x, y with
  | NaN, _ | _, NaN | Inf _, Inf _ => NaN
  | Fin a, Fin b =>
      if b =? 0 then (if a =? 0 then NaN else Inf (a <? 0))
      else round_ratio (a * one * Z.sgn b) (Z.abs b)
  | Inf a, Fin z => Inf (xorb a (z <? 0))
  | Fin _, Inf _ => Fin 0
  end.

Infix "⊕" := nadd (at level 50, left associativity) : js_scope.
Infix "⊖" := nsub (at level 50, left associativity) : js_scope.
Infix "⊗" := nmul (at level 40, left associativity) : js_scope.
Infix "⊘" := ndiv (at level 40, left associativity) : js_scope.

(** [Math.min] and [Math.max]: [NaN] wins. *)
Definition nmin (x y : num) : num :=
  match num_compare x y with None => NaN | Some Gt => y | Some _ => x end.
Definition nmax (x y : num) : num :=
  match num_compare x y with None => NaN | Some Lt => y | Some _ => x end.

(** [Math.floor] and [Math.round] (halves towards plus infinity). *)
Definition nfloor (x : num) : num :=
  match x with Fin z => Fin (z / one * one) | _ => x end.
Definition nround (x : num) : num :=
  match x with Fin z => Fin ((2 * z + one) / (2 * one) * one) | _ => x end.

#[global] Arguments one : simpl never.
#[global] Arguments overflow_bound : simpl never.
#[global] Arguments round_ratio : simpl never.
#[global] Arguments int : simpl never.
#[global] Arguments to_int : simpl never.
#[global] Arguments lit : simpl never.
#[global] Arguments nadd : simpl nomatch.

(** ** Laws *)

Lemma one_pos : 0 < one.
Proof. reflexivity. Qed.

#[global] Opaque one overflow_bound.

Lemma nle_Fin a b : (Fin a <=# Fin b) = (a <=? b).
Proof. unfold nle, Z.leb; simpl. by destruct (a ?= b). Qed.

Lemma nlt_Fin a b : (Fin a <# Fin b) = (a <? b).
Proof. unfold nlt, Z.ltb; simpl. by destruct (a ?= b). Qed.

Lemma neq_Fin a b : (Fin a ==# Fin b) = (a =? b).
Proof. unfold neq; simpl. by rewrite Z.eqb_compare. Qed.

Lemma int_le a b : (int a <=# int b) = (a <=? b).
Proof.
  unfold int. rewrite nle_Fin. pose proof one_pos.
  apply eq_iff_eq_true. rewrite !Z.leb_le. nia.
Qed.

Lemma int_lt a b : (int a <# int b) = (a <? b).
Proof.
  unfold int. rewrite nlt_Fin. pose proof one_pos.
  apply eq_iff_eq_true. rewrite !Z.ltb_lt. nia.
Qed.

Lemma int_eq a b : (int a ==# int b) = (a =? b).
Proof.
  unfold int. rewrite neq_Fin. pose proof one_pos.
  apply eq_iff_eq_true. rewrite !Z.eqb_eq. nia.
Qed.

Lemma to_int_int n : to_int (int n) = Some n.
Proof.
  unfold to_int, int. pose proof one_pos.
  by rewrite Z.mod_mul, Z.eqb_refl, Z.div_mul by lia.
Qed.

Lemma to_int_Some x n : to_int x = Some n -> x = int n.
Proof.
  unfold to_int. destruct x as [| |z]; try done. pose proof one_pos.
  destruct (z mod one =? 0) eqn:E; intros [= <-]. apply Z.eqb_eq in E.
  unfold int. f_equal. apply Z.div_exact in E; lia.
Qed.

Lemma to_safe_int_int n : Z.abs n <= 2 ^ 53 - 1 -> to_safe_int (int n) = Some n.
Proof.
  intros Hn. unfold to_safe_int. rewrite to_int_int. by rewrite (proj2 (Z.ltb_lt _ _)) by lia.
Qed.

Lemma to_safe_int_int_Some n k : to_safe_int (int n) = Some k -> k = n.
Proof. unfold to_safe_int. rewrite to_int_int. by case_match; intros [=]. Qed.

Lemma half_even_bounds a b : 0 < b -> a / b <= half_even a b <= a / b + 1.
Proof.
  intros Hb. unfold half_even.
  pose proof (Z.mod_pos_bound (a / b) 2 eq_refl). repeat case_match; lia.
Qed.

Lemma half_even_exact q b : 0 < b -> half_even (q * b) b = q.
Proof.
  intros Hb. unfold half_even. rewrite Z.mod_mul, Z.div_mul by lia. by case_match; bools; lia.
Qed.

(** Rounding respects order, first on one grid. *)
Lemma half_even_mono a b a' b' :
  0 < b -> 0 < b' -> a * b' <= a' * b -> half_even a b <= half_even a' b'.
Proof.
  intros Hb Hb' H. unfold half_even.
  pose proof (Z.div_mod a b ltac:(lia)). pose proof (Z.div_mod a' b' ltac:(lia)).
  pose proof (Z.mod_pos_bound a b Hb). pose proof (Z.mod_pos_bound a' b' Hb').
  pose proof (Z.mod_pos_bound (a / b) 2 eq_refl). pose proof (Z.mod_pos_bound (a' / b') 2 eq_refl).
  set (q := a / b) in *. set (q' := a' / b') in *.
  set (r := a mod b) in *. set (r' := a' mod b') in *.
  assert (q <= q').
  { apply Z.div_le_lower_bound; [lia|]. apply (Z.mul_le_mono_pos_l _ _ b); nia. }
  destruct (Z.eq_dec q q') as [<-|]; [|repeat case_match; lia].
  assert (r * b' <= r' * b) by nia.
  repeat case_match; bools; try lia; nia.
Qed.

Lemma grid_pos n d : 0 < grid n d.
Proof. apply Z.pow_pos_nonneg; lia. Qed.

Lemma round_magnitude_nonneg n d : 0 <= n -> 0 < d -> 0 <= round_magnitude n d.
Proof.
  intros Hn Hd. unfold round_magnitude. pose proof (grid_pos n d).
  pose proof (half_even_bounds n (d * grid n d)).
  assert (0 <= n / (d * grid n d)) by (apply Z.div_pos; nia). nia.
Qed.

(** Every result stays inside the binade of its input. *)
Lemma round_magnitude_upper n d k :
  0 <= n -> 0 < d -> 0 <= k -> Z.max 0 (Z.log2 (n / d) - 52) = k ->
  round_magnitude n d <= 2 ^ (53 + k).
Proof.
  intros Hn Hd Hk E. unfold round_magnitude, grid. rewrite E.
  assert (Hg : 0 < 2 ^ k) by (apply Z.pow_pos_nonneg; lia).
  assert (Hlt : n / d < 2 ^ (53 + k)).
  { destruct (Z.eq_dec (n / d) 0) as [->|]; [apply Z.pow_pos_nonneg; lia|].
    assert (0 <= n / d) by (apply Z.div_pos; lia).
    apply Z.log2_lt_pow2; lia. }
  assert (n < d * 2 ^ (53 + k)).
  { pose proof (Z.mul_succ_div_gt n d Hd). nia. }
  rewrite Z.pow_add_r in * by lia.
  apply Z.mul_le_mono_nonneg_r; [lia|].
  rewrite <- (half_even_exact (2 ^ 53) (d * 2 ^ k)) by nia.
  apply half_even_mono; nia.
Qed.

Lemma round_magnitude_lower n d k :
  0 < d -> 0 < k -> Z.max 0 (Z.log2 (n / d) - 52) = k ->
  2 ^ (52 + k) <= round_magnitude n d.
Proof.
  intros Hd Hk E. unfold round_magnitude, grid. rewrite E.
  assert (Hg : 0 < 2 ^ k) by (apply Z.pow_pos_nonneg; lia).
  assert (Hge : 2 ^ (52 + k) <= n / d).
  { replace (52 + k) with (Z.log2 (n / d)) by lia. apply Z.log2_spec.
    destruct (Z.lt_ge_cases 0 (n / d)); [done|]. rewrite Z.log2_nonpos in E; lia. }
  assert (d * 2 ^ (52 + k) <= n).
  { pose proof (Z.mul_div_le n d Hd). nia. }
  rewrite Z.pow_add_r in * by lia.
  apply Z.mul_le_mono_nonneg_r; [lia|].
  rewrite <- (half_even_exact (2 ^ 52) (d * 2 ^ k)) at 1 by nia.
  apply half_even_mono; nia.
Qed.

Lemma round_magnitude_mono n d n' d' :
  0 <= n -> 0 < d -> 0 < d' -> n * d' <= n' * d ->
  round_magnitude n d <= round_magnitude n' d'.
Proof.
  intros Hn Hd Hd' H.
  assert (Hq : n / d <= n' / d').
  { apply Z.div_le_lower_bound; [lia|]. pose proof (Z.mul_div_le n d Hd).
    apply (Z.mul_le_mono_pos_l _ _ d); nia. }
  pose proof (Z.log2_le_mono _ _ Hq).
  remember (Z.max 0 (Z.log2 (n / d) - 52)) as k eqn:E.
  remember (Z.max 0 (Z.log2 (n' / d') - 52)) as k' eqn:E'.
  destruct (Z.eq_dec k k') as [<-|].
  - unfold round_magnitude, grid. rewrite <- E, <- E'.
    assert (0 < 2 ^ k) by (apply Z.pow_pos_nonneg; lia).
    apply Z.mul_le_mono_nonneg_r; [lia|]. apply half_even_mono; nia.
  - trans (2 ^ (53 + k)); [by apply round_magnitude_upper; lia|].
    trans (2 ^ (52 + k')); [apply Z.pow_le_mono_r; lia|].
    by apply round_magnitude_lower; lia.
Qed.

(** Rounding is monotone. *)
Lemma round_ratio_mono n d n' d' :
  0 < d -> 0 < d' -> n * d' <= n' * d ->
  (round_ratio n d <=# round_ratio n' d') = true.
Proof.
  intros Hd Hd' H. unfold round_ratio.
  pose proof (round_magnitude_nonneg (Z.abs n) d ltac:(lia) Hd).
  pose proof (round_magnitude_nonneg (Z.abs n') d' ltac:(lia) Hd').
  destruct (Z.lt_ge_cases n 0) as [Hn|Hn], (Z.lt_ge_cases n' 0) as [Hn'|Hn'].
  - pose proof (round_magnitude_mono (Z.abs n') d' (Z.abs n) d ltac:(lia) Hd' Hd ltac:(nia)).
    rewrite (proj2 (Z.ltb_lt n 0)), (proj2 (Z.ltb_lt n' 0)) by done.
    rewrite (Z.sgn_neg n), (Z.sgn_neg n') by done.
    repeat case_match; bools; rewrite ?nle_Fin, ?Z.leb_le; try done; lia.
  - rewrite (proj2 (Z.ltb_lt n 0)), (proj2 (Z.ltb_ge n' 0)) by done.
    assert (0 <= Z.sgn n') by lia. rewrite (Z.sgn_neg n) by done.
    repeat case_match; bools; rewrite ?nle_Fin, ?Z.leb_le; try done; nia.
  - exfalso. nia.
  - pose proof (round_magnitude_mono (Z.abs n) d (Z.abs n') d' ltac:(lia) Hd Hd' ltac:(nia)).
    rewrite (proj2 (Z.ltb_ge n 0)), (proj2 (Z.ltb_ge n' 0)) by done.
    repeat case_match; bools; rewrite ?nle_Fin, ?Z.leb_le; try done; try lia.
Qed.

(** A count of units a double holds exactly. *)
Definition representable (z : Z) : Prop :=
  Z.abs z < overflow_bound /\
  exists m j, 0 <= j /\ 0 <= m < 2 ^ 53 /\ Z.abs z = m * 2 ^ j.

Lemma round_exact z d : 0 < d -> representable z -> round_ratio (z * d) d = Fin z.
Proof.
  intros Hd (Hb & m & j & Hj & Hm & E). unfold round_ratio.
  assert (Ea : Z.abs (z * d) = Z.abs z * d) by (rewrite Z.abs_mul; lia).
  assert (Hrm : round_magnitude (Z.abs (z * d)) d = Z.abs z).
  { unfold round_magnitude, grid. rewrite Ea, Z.div_mul by lia.
    set (k := Z.max 0 (Z.log2 (Z.abs z) - 52)).
    assert (Hk : k <= j).
    { unfold k. destruct (Z.eq_dec m 0) as [->|]; [rewrite E; simpl; lia|].
      rewrite E, Z.log2_mul_pow2 by lia.
      assert (Z.log2 m < 53) by (apply Z.log2_lt_pow2; lia). lia. }
    assert (Hs : 2 ^ j = 2 ^ (j - k) * 2 ^ k).
    { rewrite <- Z.pow_add_r by lia. f_equal. lia. }
    assert (0 < 2 ^ k) by (apply Z.pow_pos_nonneg; lia).
    replace (Z.abs z * d) with ((m * 2 ^ (j - k)) * (d * 2 ^ k)) by (rewrite E, Hs; ring).
    rewrite half_even_exact by nia. rewrite E, Hs. ring. }
  rewrite Hrm. case_match; bools; [lia|]. f_equal.
  rewrite Z.sgn_mul, (Z.sgn_pos d), Z.mul_1_r by done. lia.
Qed.

Lemma representable_int n : Z.abs n < 2 ^ 53 -> representable (n * one).
Proof.
  intros Hn. pose proof one_pos. split.
  - rewrite Z.abs_mul, (Z.abs_eq one) by lia.
    trans (2 ^ 53 * one); [nia|]. by vm_compute.
  - exists (Z.abs n), 1074. split_and!; try lia. by rewrite Z.abs_mul.
Qed.

(** Whole numbers below [2^53] compute exactly. *)
Lemma nadd_int a b : Z.abs (a + b) < 2 ^ 53 -> int a ⊕ int b = int (a + b).
Proof.
  intros H. unfold int, nadd. rewrite <- Z.mul_add_distr_r.
  rewrite <- (Z.mul_1_r ((a + b) * one)) at 1. by apply round_exact; [lia|apply representable_int].
Qed.

Lemma nmul_int a b : Z.abs (a * b) < 2 ^ 53 -> int a ⊗ int b = int (a * b).
Proof.
  intros H. unfold int, nmul. replace (a * one * (b * one)) with (a * b * one * one) by ring.
  by apply round_exact; [apply one_pos|apply representable_int].
Qed.

Lemma nle_trans x y z : (x <=# y) = true -> (y <=# z) = true -> (x <=# z) = true.
Proof.
  destruct x as [|[]|a], y as [|[]|b], z as [|[]|c]; try done.
  rewrite !nle_Fin, !Z.leb_le. lia.
Qed.

Lemma nle_refl_fin z : (Fin z <=# Fin z) = true.
Proof. rewrite nle_Fin. apply Z.leb_refl. Qed.

Lemma nlt_nle x y : (x <# y) = true -> (x <=# y) = true.
Proof. unfold nlt, nle. by destruct (num_compare x y) as [[]|]. Qed.

Lemma nle_not_lt x y : (x <=# y) = true -> (y <# x) = false.
Proof.
  destruct x as [|[]|a], y as [|[]|b]; try done.
  rewrite nle_Fin, nlt_Fin, Z.leb_le, Z.ltb_ge. lia.
Qed.

(** A number that is a value, not [NaN]. *)
Definition is_value (x : num) : Prop := x <> NaN.

Lemma nlt_false_nle x y : is_value x -> is_value y -> (x <# y) = false -> (y <=# x) = true.
Proof.
  unfold is_value. destruct x as [|[]|a], y as [|[]|b]; try done.
  rewrite nle_Fin, nlt_Fin, Z.leb_le, Z.ltb_ge. lia.
Qed.

Lemma nmul_mono a b c : 0 <= c -> a <= b -> (Fin a ⊗ Fin c <=# Fin b ⊗ Fin c) = true.
Proof.
  intros Hc Hab. pose proof one_pos. simpl. apply round_ratio_mono; [lia..|].
  apply Z.mul_le_mono_nonneg_r; [lia|]. by apply Z.mul_le_mono_nonneg_r.
Qed.

Lemma nadd_mono a b c : a <= b -> (Fin c ⊕ Fin a <=# Fin c ⊕ Fin b) = true.
Proof. intros. simpl. apply round_ratio_mono; lia. Qed.

#[export] Hint Rewrite nle_Fin nlt_Fin neq_Fin to_int_int : js_rw.

Lemma nle_between a y b :
  (Fin a <=# y) = true -> (y <=# Fin b) = true -> exists w, y = Fin w /\ a <= w <= b.
Proof.
  destruct y as [|[]|w]; try done. rewrite !nle_Fin, !Z.leb_le. intros. by exists w.
Qed.

Lemma nmul_comm x y : x ⊗ y = y ⊗ x.
Proof.
  destruct x as [|a|a], y as [|b|b]; simpl; try done.
  - by rewrite xorb_comm.
  - by rewrite Z.mul_comm.
Qed.

Lemma nmul_mono2 a b c d :
  0 <= a <= b -> 0 <= c <= d -> (Fin a ⊗ Fin c <=# Fin b ⊗ Fin d) = true.
Proof.
  intros. apply nle_trans with (Fin b ⊗ Fin c); [by apply nmul_mono; lia|].
  rewrite (nmul_comm (Fin b) (Fin c)), (nmul_comm (Fin b) (Fin d)). apply nmul_mono; lia.
Qed.

Lemma nmin_Fin a b : nmin (Fin a) (Fin b) = Fin (Z.min a b).
Proof. unfold nmin, Z.min; simpl. by destruct (a ?= b) eqn:E; [apply Z.compare_eq in E as ->| |]. Qed.

Lemma nmax_Fin a b : nmax (Fin a) (Fin b) = Fin (Z.max a b).
Proof. unfold nmax, Z.max; simpl. by destruct (a ?= b) eqn:E; [apply Z.compare_eq in E as ->| |]. Qed.

Lemma nmin_int a b : nmin (int a) (int b) = int (Z.min a b).
Proof.
  pose proof one_pos. unfold int. by rewrite nmin_Fin, Z.mul_min_distr_nonneg_r by lia.
Qed.

Lemma nmax_int a b : nmax (int a) (int b) = int (Z.max a b).
Proof.
  pose proof one_pos. unfold int. by rewrite nmax_Fin, Z.mul_max_distr_nonneg_r by lia.
Qed.

Lemma nmin_Inf_l b : nmin (Inf false) (Fin b) = Fin b.
Proof. done. Qed.

(** An instant as a number; [NaN] when it could not be read. *)
Definition time_num (t : option Z) : num :=
  match t with Some ms => int ms | None => NaN end.

(** [new Date(x).getTime()]: truncated, [NaN] outside the range of dates. *)
Definition time_clip (x : num) : option Z :=
  match x with
  | Fin z =>
      let t := Z.quot z one in
      check Z.abs t <=? 8640000000000000;; Some t
  | _ => None
  end.

Lemma time_clip_int t : Z.abs t <= 8640000000000000 -> time_clip (int t) = Some t.
Proof.
  intros Ht. pose proof one_pos. unfold time_clip, int. rewrite Z.quot_mul by lia.
  by rewrite (proj2 (Z.leb_le _ _) Ht).
Qed.

(** *** Signs

    A rounded result has the sign of the exact one. *)
Lemma finite_Fin x : is_finite x = true -> exists z, x = Fin z.
Proof. destruct x; try done. eauto. Qed.

Lemma Fin_le a b : a <= b -> (Fin a <=# Fin b) = true.
Proof. by rewrite nle_Fin, Z.leb_le. Qed.

Lemma round_ratio_0 d : 0 < d -> round_ratio 0 d = Fin 0.
Proof.
  intros Hd. rewrite <- (Z.mul_0_l d) at 1. apply round_exact; [done|].
  by apply (representable_int 0).
Qed.

Lemma round_ratio_sign n d : 0 < d -> (round_ratio n d <=# int 0) = false -> 0 < n.
Proof.
  intros Hd H. destruct (Z.lt_trichotomy 0 n) as [?|Hn]; [done|exfalso].
  enough (T : (round_ratio n d <=# round_ratio 0 d) = true).
  { rewrite (round_ratio_0 d Hd) in T. change (int 0) with (Fin 0) in H. congruence. }
  apply round_ratio_mono; lia.
Qed.

Lemma round_ratio_nonneg n d : 0 < d -> 0 <= n -> (int 0 <=# round_ratio n d) = true.
Proof.
  intros Hd Hn. change (int 0) with (Fin 0). rewrite <- (round_ratio_0 d Hd).
  apply round_ratio_mono; lia.
Qed.

Lemma nsub_sign a b : (Fin a ⊖ Fin b <=# int 0) = false -> b < a.
Proof. intros H. apply (round_ratio_sign (a + - b) 1) in H; lia. Qed.

Lemma ndiv_sign x b :
  0 < b -> is_finite (x ⊘ Fin b) = true -> (x ⊘ Fin b <=# int 0) = false ->
  (x <=# int 0) = false.
Proof.
  intros Hb Hf. pose proof one_pos. destruct x as [|a|a]; [done|done|].
  clear Hf. simpl. rewrite (proj2 (Z.eqb_neq b 0)) by lia.
  intros E%round_ratio_sign; [|lia]. rewrite Z.sgn_pos in E by done.
  change (int 0) with (Fin 0). rewrite nle_Fin, Z.leb_gt. nia.
Qed.

Lemma ndiv_nonneg a b : 0 <= a -> 0 < b -> (int 0 <=# Fin a ⊘ Fin b) = true.
Proof.
  intros Ha Hb. pose proof one_pos. simpl. rewrite (proj2 (Z.eqb_neq b 0)) by lia.
  apply round_ratio_nonneg; [lia|]. rewrite Z.sgn_pos by done. nia.
Qed.

Lemma positive_finite x : is_finite x = true -> (x <=# int 0) = false -> exists z, x = Fin z /\ 0 < z.
Proof.
  intros [z ->]%finite_Fin Hz. exists z. split; [done|].
  change (int 0) with (Fin 0) in Hz. rewrite nle_Fin, Z.leb_gt in Hz. done.
Qed.

Lemma smallest_exact : round_ratio 1 1 = Fin 1.
Proof. by vm_compute. Qed.

(** A difference is positive exactly when the operands are in that order:
    subtraction never rounds to zero. *)
Lemma nsub_positive a b : (int 0 <# Fin a ⊖ Fin b) = (b <? a).
Proof.
  change (int 0) with (Fin 0). apply eq_iff_eq_true. rewrite Z.ltb_lt. split.
  - intros Hlt. apply nsub_sign. change (int 0) with (Fin 0).
    destruct (Fin a ⊖ Fin b) as [|[]|z]; try done.
    rewrite nlt_Fin, Z.ltb_lt in Hlt. rewrite nle_Fin. apply Z.leb_gt. lia.
  - intros Hlt. change (Fin a ⊖ Fin b) with (round_ratio (a + - b) 1).
    assert (H1 : (round_ratio 1 1 <=# round_ratio (a + - b) 1) = true)
      by (apply round_ratio_mono; lia).
    rewrite smallest_exact in H1. destruct (round_ratio (a + - b) 1) as [|[]|z]; try done.
    rewrite nle_Fin, Z.leb_le in H1. rewrite nlt_Fin, Z.ltb_lt. lia.
Qed.

Lemma round_ratio_neg n : round_ratio (- n) 1 = nneg (round_ratio n 1).
Proof.
  unfold round_ratio. rewrite Z.abs_opp, Z.sgn_opp.
  destruct (overflow_bound <=? round_magnitude (Z.abs n) 1) eqn:E; simpl.
  - f_equal. apply Z.leb_le in E. assert (n <> 0).
    { intros ->. change (round_magnitude (Z.abs 0) 1) with 0 in E. by vm_compute in E. }
    destruct (Z.ltb_spec (- n) 0), (Z.ltb_spec n 0); try done; lia.
  - f_equal. lia.
Qed.

Lemma nsub_negative a b : (Fin a ⊖ Fin b <# int 0) = (a <? b).
Proof.
  rewrite <- nsub_positive. change (int 0) with (Fin 0).
  change (Fin a ⊖ Fin b) with (round_ratio (a + - b) 1).
  change (Fin b ⊖ Fin a) with (round_ratio (b + - a) 1).
  replace (b + - a) with (- (a + - b)) by lia. rewrite round_ratio_neg.
  destruct (round_ratio (a + - b) 1) as [|[]|z]; try done. simpl nneg. rewrite !nlt_Fin.
  apply eq_iff_eq_true. rewrite !Z.ltb_lt. lia.
Qed.
