(* ===== verification/JsDate.v ===== *)
(** * JavaScript dates

    An instant is a whole number of milliseconds since the epoch. [to_iso] is
    [Date.prototype.toISOString], over the proleptic Gregorian calendar;
    [parse_iso] reads exactly the strings it prints. [Date.parse] of any other
    text depends on the engine and on the machine's time zone, so it is an
    interface, [DateHost], and every function over instants is stated for any
    host. *)
From S2P Require Import Prelude.
Local Open Scope Z_scope.
Local Open Scope js_scope.

(** ** The calendar *)

(** Year, month (1 to 12) and day (1 to 31) of a day count from 1970-01-01. *)
Definition civil (day : Z) : Z * Z * Z :=
  let z := day + 719468 in
  let era := z / 146097 in
  let doe := z mod 146097 in
  let yoe := (doe - doe / 1460 + doe / 36524 - doe / 146096) / 365 in
  let doy := doe - (365 * yoe + yoe / 4 - yoe / 100) in
  let mp := (5 * doy + 2) / 153 in
  let d := doy - (153 * mp + 2) / 5 + 1 in
  let m := if mp <? 10 then mp + 3 else mp - 9 in
  (yoe + era * 400 + (if m <=? 2 then 1 else 0), m, d).

Definition day_of (y m d : Z) : Z :=
  let y' := if m <=? 2 then y - 1 else y in
  let era := y' / 400 in
  let yoe := y' mod 400 in
  let mp := if m <=? 2 then m + 9 else m - 3 in
  let doy := (153 * mp + 2) / 5 + d - 1 in
  era * 146097 + (yoe * 365 + yoe / 4 - yoe / 100 + doy) - 719468.

Definition day_ms : Z := 86400000.

(** ** Printing *)

Definition digit (n : Z) : Ascii.ascii := Ascii.ascii_of_N (Z.to_N (48 + n)).

(** The [w] low decimal digits of [n]. *)
Fixpoint digits (w : nat) (n : Z) : string :=
  match w with
  | O => ""
  | S w' => String (digit (n / 10 ^ Z.of_nat w' mod 10)) (digits w' n)
  end.

Definition year_text (y : Z) : string :=
  if (0 <=? y) && (y <=? 9999) then digits 4 y
  else String (if y <? 0 then "-"%char else "+"%char) (digits 6 (Z.abs y)).

Definition to_iso (t : Z) : string :=
  let '(y, m, d) := civil (t / day_ms) in
  let ms := t mod day_ms in
  year_text y +:+ String "-" (digits 2 m +:+ String "-" (digits 2 d +:+
  String "T" (digits 2 (ms / 3600000) +:+ String ":" (digits 2 (ms / 60000 mod 60) +:+
  String ":" (digits 2 (ms / 1000 mod 60) +:+ String "." (digits 3 (ms mod 1000) +:+ "Z")))))).

(** ** Reading *)

Fixpoint take_digits (w : nat) (acc : Z) (s : string) : option (Z * string) :=
  match w with
  | O => Some (acc, s)
  | S w' =>
      match s with
      | String c s' =>
          check is_digit c;; take_digits w' (acc * 10 + (code c - 48)) s'
      | EmptyString => None
      end
  end.

Definition expect (c : Ascii.ascii) (s : string) : option string :=
  match s with
  | String c' s' => check Ascii.eqb c c';; Some s'
  | EmptyString => None
  end.

Definition take_year (s : string) : option (Z * string) :=
  match s with
  | String c s' =>
      if Ascii.eqb c "+" then take_digits 6 0 s'
      else if Ascii.eqb c "-" then
        let? (y, r) := take_digits 6 0 s' in Some (- y, r)
      else take_digits 4 0 s
  | EmptyString => None
  end.

(** The instant the fields of an ISO text name, before any range check. *)
Definition iso_fields (s : string) : option Z :=
  let? (y, s) := take_year s in
  let? s := expect "-" s in
  let? (m, s) := take_digits 2 0 s in
  let? s := expect "-" s in
  let? (d, s) := take_digits 2 0 s in
  let? s := expect "T" s in
  let? (h, s) := take_digits 2 0 s in
  let? s := expect ":" s in
  let? (mi, s) := take_digits 2 0 s in
  let? s := expect ":" s in
  let? (sec, s) := take_digits 2 0 s in
  let? s := expect "." s in
  let? (ms, s) := take_digits 3 0 s in
  check str_eqb s "Z";;
  Some (day_of y m d * day_ms + h * 3600000 + mi * 60000 + sec * 1000 + ms).

(** The largest instant a date may hold, either side of the epoch. *)
Definition max_time : Z := 8640000000000000.
Definition valid_time (t : Z) : bool := Z.abs t <=? max_time.

(** Exactly the texts [toISOString] prints. *)
Definition parse_iso (s : string) : option Z :=
  let? t := iso_fields s in
  check valid_time t && str_eqb (to_iso t) s;; Some t.

(** [Date.parse] of a text that is not canonical: the engine's answer, which
    the language bounds by the range of time values; the empty text is no date. *)
Class DateHost := {
  host_date_parse : string -> option Z;
  host_date_range s t : host_date_parse s = Some t -> valid_time t = true;
  host_date_empty : host_date_parse "" = None
}.

(** A host that reads canonical texts alone. *)
#[export, refine] Instance strict_host : DateHost | 100 :=
  {| host_date_parse _ := None |}.
Proof. all: done. Defined.

Section Host.
Context `{DateHost}.

(** [Date.parse]: [None] is [NaN]. *)
Definition date_parse (s : string) : option Z :=
  match parse_iso s with
  | Some t => Some t
  | None => host_date_parse s
  end.

(** [new Date(parsed).toISOString() === value]. *)
Definition is_iso_instant (s : string) : bool :=
  match date_parse s with
  | Some t => str_eqb (to_iso t) s
  | None => false
  end.
End Host.

(** Comparison of two parsed instants: false when either is [NaN]. *)
Definition tlt (a b : option Z) : bool :=
  match a, b with Some x, Some y => x <? y | _, _ => false end.
Definition tle (a b : option Z) : bool :=
  match a, b with Some x, Some y => x <=? y | _, _ => false end.
Infix "<t" := tlt (at level 70, no associativity) : js_scope.
Infix "<=t" := tle (at level 70, no associativity) : js_scope.

(** The sum of a parsed instant and a whole number of milliseconds. *)
Definition tadd (a : option Z) (ms : Z) : option Z := (fun t => t + ms) <$> a.

(** ** The calendar inverts *)

Definition yoe_of (doe : Z) : Z := (doe - doe / 1460 + doe / 36524 - doe / 146096) / 365.
Definition doy_of (doe : Z) : Z :=
  doe - (365 * yoe_of doe + yoe_of doe / 4 - yoe_of doe / 100).

Lemma yoe_bounds doe : 0 <= doe < 146097 -> 0 <= yoe_of doe < 400.
Proof. unfold yoe_of. intros. Z.div_mod_to_equations; lia. Qed.

Lemma doy_bounds doe : 0 <= doe < 146097 -> 0 <= doy_of doe <= 365.
Proof. unfold doy_of, yoe_of. intros. Z.div_mod_to_equations; lia. Qed.

Lemma civil_bounds z :
  let '(y, m, d) := civil z in 1 <= m <= 12 /\ 1 <= d <= 31.
Proof.
  unfold civil. set (doe := (z + 719468) mod 146097).
  pose proof (Z.mod_pos_bound (z + 719468) 146097 eq_refl) as Hdoe. fold doe in Hdoe.
  pose proof (doy_bounds doe Hdoe) as Hdoy. unfold doy_of, yoe_of in Hdoy.
  set (doy := doe - _) in *.
  split; [case_match; bools|]; Z.div_mod_to_equations; lia.
Qed.

Lemma day_of_civil z : let '(y, m, d) := civil z in day_of y m d = z.
Proof.
  unfold civil, day_of.
  set (era := (z + 719468) / 146097). set (doe := (z + 719468) mod 146097).
  pose proof (Z.div_mod (z + 719468) 146097 ltac:(lia)) as Hz. fold era doe in Hz.
  pose proof (Z.mod_pos_bound (z + 719468) 146097 eq_refl) as Hdoe. fold doe in Hdoe.
  pose proof (yoe_bounds doe Hdoe) as Hyoe. pose proof (doy_bounds doe Hdoe) as Hdoy.
  fold (yoe_of doe). fold (doy_of doe).
  set (yoe := yoe_of doe) in *. set (doy := doy_of doe) in *.
  assert (Hd : doe = 365 * yoe + yoe / 4 - yoe / 100 + doy) by (unfold doy, doy_of; fold yoe; lia).
  set (mp := (5 * doy + 2) / 153).
  assert (0 <= mp <= 11) by (unfold mp; Z.div_mod_to_equations; lia).
  set (m := if mp <? 10 then mp + 3 else mp - 9).
  assert (Hm : (if m <=? 2 then m + 9 else m - 3) = mp).
  { unfold m. repeat case_match; bools; lia. }
  assert (Hy : (if m <=? 2 then yoe + era * 400 + (if m <=? 2 then 1 else 0) - 1
                else yoe + era * 400 + (if m <=? 2 then 1 else 0)) = yoe + era * 400).
  { case_match; lia. }
  rewrite Hm, Hy, Z.div_add, Z.mod_add, Z.div_small, Z.mod_small by lia. lia.
Qed.

(** ** Printing and reading invert *)

Lemma code_digit n : 0 <= n < 10 -> code (digit n) = 48 + n.
Proof. intros. unfold code, digit. rewrite N_ascii_embedding; lia. Qed.

Lemma is_digit_digit n : 0 <= n < 10 -> is_digit (digit n) = true.
Proof.
  intros. unfold is_digit, in_range. rewrite code_digit by done.
  by rewrite andb_true_iff, !Z.leb_le; lia.
Qed.

Lemma take_digits_digits w acc n rest :
  take_digits w acc (digits w n +:+ rest) =
  Some (acc * 10 ^ Z.of_nat w + n mod 10 ^ Z.of_nat w, rest).
Proof.
  revert acc. induction w as [|w IH]; intros acc; simpl.
  - by rewrite Z.mod_1_r, Z.mul_1_r, Z.add_0_r.
  - pose proof (Z.mod_pos_bound (n / 10 ^ Z.of_nat w) 10 eq_refl).
    rewrite is_digit_digit, code_digit, IH by done. do 2 f_equal.
    assert (0 < 10 ^ Z.of_nat w) by (apply Z.pow_pos_nonneg; lia).
    replace (Z.of_nat (S w)) with (Z.of_nat w + 1) by lia.
    rewrite Z.pow_add_r, Z.pow_1_r, Z.rem_mul_r by lia. lia.
Qed.

Lemma take_digits_small w n rest :
  0 <= n < 10 ^ Z.of_nat w -> take_digits w 0 (digits w n +:+ rest) = Some (n, rest).
Proof. intros. rewrite take_digits_digits, Z.mod_small by done. done. Qed.

Lemma take_year_text y rest :
  Z.abs y < 1000000 -> take_year (year_text y +:+ rest) = Some (y, rest).
Proof.
  intros Hy. unfold year_text. destruct ((0 <=? y) && (y <=? 9999)) eqn:E.
  - bools. unfold take_year.
    destruct (digits 4 y +:+ rest) as [|c s] eqn:Ed; [done|].
    assert (c = digit (y / 1000 mod 10)) as ->.
    { change (digits 4 y) with (String (digit (y / 10 ^ Z.of_nat 3 mod 10)) (digits 3 y)) in Ed.
      by injection Ed as <- <-. }
    pose proof (Z.mod_pos_bound (y / 1000) 10 eq_refl).
    assert (Hc : forall c', code c' < 48 -> Ascii.eqb (digit (y / 1000 mod 10)) c' = false).
    { intros c' Hc'. apply Ascii.eqb_neq. intros E. apply (f_equal code) in E.
      rewrite code_digit in E; lia. }
    rewrite !Hc by done. rewrite <- Ed. apply take_digits_small. simpl; lia.
  - assert (~ (0 <= y <= 9999)) by (intros ?; rewrite andb_false_iff, !Z.leb_gt in E; lia).
    assert (Hs : take_digits 6 0 (digits 6 (Z.abs y) +:+ rest) = Some (Z.abs y, rest))
      by (apply take_digits_small; simpl; lia).
    destruct (y <? 0) eqn:Ey; bools;
      [trans (let? (y', r) := take_digits 6 0 (digits 6 (Z.abs y) +:+ rest) in Some (- y', r))
      |trans (take_digits 6 0 (digits 6 (Z.abs y) +:+ rest))];
      [done|rewrite Hs; do 2 f_equal; lia|done|rewrite Hs; do 2 f_equal; lia].
Qed.

Lemma str_eqb_refl s : str_eqb s s = true.
Proof. by apply bool_decide_eq_true. Qed.

Lemma str_eqb_eq s1 s2 : str_eqb s1 s2 = true <-> s1 = s2.
Proof. apply bool_decide_eq_true. Qed.

(** The year of every time value has at most six digits. *)
Lemma civil_year_bound z : Z.abs z <= 100000000 -> Z.abs (fst (fst (civil z))) < 1000000.
Proof.
  intros Hz. unfold civil. set (doe := (z + 719468) mod 146097).
  pose proof (Z.mod_pos_bound (z + 719468) 146097 eq_refl) as Hdoe. fold doe in Hdoe.
  pose proof (yoe_bounds doe Hdoe). fold (yoe_of doe). simpl.
  assert (-685 <= (z + 719468) / 146097 <= 690) by (Z.div_mod_to_equations; lia).
  case_match; lia.
Qed.

Lemma iso_fields_to_iso t : valid_time t = true -> iso_fields (to_iso t) = Some t.
Proof.
  unfold valid_time, max_time. intros Ht; bools. unfold to_iso.
  assert (Hyear := civil_year_bound (t / day_ms)).
  assert (Hb := civil_bounds (t / day_ms)). assert (Hd := day_of_civil (t / day_ms)).
  destruct (civil (t / day_ms)) as [[y m] d]; simpl in Hyear.
  assert (Z.abs y < 1000000) by (apply Hyear; unfold day_ms; Z.div_mod_to_equations; lia).
  set (ms := t mod day_ms). assert (Hms : 0 <= ms < day_ms) by (by apply Z.mod_pos_bound).
  assert (Et : t = t / day_ms * day_ms + ms) by (unfold ms, day_ms; Z.div_mod_to_equations; lia).
  unfold day_ms in Hms. unfold iso_fields. rewrite take_year_text by done.
  repeat first
    [ rewrite take_digits_small by (simpl; Z.div_mod_to_equations; lia)
    | progress (cbn -[take_digits digits day_of day_ms]) ].
  f_equal. rewrite Hd. rewrite Et at 2. Z.div_mod_to_equations; lia.
Qed.

Lemma parse_iso_to_iso t : valid_time t = true -> parse_iso (to_iso t) = Some t.
Proof. intros Ht. unfold parse_iso. by rewrite iso_fields_to_iso, Ht, str_eqb_refl by done. Qed.

Lemma parse_iso_Some s t : parse_iso s = Some t <-> valid_time t = true /\ s = to_iso t.
Proof.
  split.
  - unfold parse_iso. intros H. split_hyp H. bools. by apply str_eqb_eq in H0 as <-.
  - by intros [? ->]; apply parse_iso_to_iso.
Qed.

Section HostLaws.
Context `{DateHost}.

Lemma date_parse_to_iso t : valid_time t = true -> date_parse (to_iso t) = Some t.
Proof. intros. unfold date_parse. by rewrite parse_iso_to_iso. Qed.

Lemma date_parse_valid s t : date_parse s = Some t -> valid_time t = true.
Proof.
  unfold date_parse. destruct (parse_iso s) eqn:E; [|apply host_date_range].
  intros [= <-]. by apply parse_iso_Some in E as [? _].
Qed.

Lemma date_parse_empty : date_parse "" = None.
Proof. unfold date_parse. apply host_date_empty. Qed.

(** The canonical instants are exactly the printed ones, whatever the host. *)
Lemma is_iso_instant_iff s :
  is_iso_instant s = true <-> exists t, valid_time t = true /\ s = to_iso t.
Proof.
  unfold is_iso_instant. split.
  - destruct (date_parse s) as [t|] eqn:E; [|done]. intros <-%str_eqb_eq.
    exists t. eauto using date_parse_valid.
  - intros (t & Ht & ->). by rewrite date_parse_to_iso, str_eqb_refl.
Qed.

Lemma is_iso_instant_parse s :
  is_iso_instant s = true -> exists t, date_parse s = Some t /\ to_iso t = s.
Proof.
  intros (t & Ht & ->)%is_iso_instant_iff. exists t. eauto using date_parse_to_iso.
Qed.

Lemma is_iso_instant_to_iso t : valid_time t = true -> is_iso_instant (to_iso t) = true.
Proof. intros. apply is_iso_instant_iff. eauto. Qed.
End HostLaws.

#[export] Hint Resolve date_parse_to_iso is_iso_instant_to_iso date_parse_valid : js.
#[export] Hint Rewrite @date_parse_to_iso @parse_iso_to_iso using done : js_rw.
#[global] Opaque to_iso.
