(* ===== verification/JsValue.v ===== *)
(** * Untrusted values

    What [JSON.parse] returns, and what the code calls [unknown]: the data a
    validator inspects field by field. Objects keep their keys in order; a
    missing key reads as [JUndef]. Also here: the closed vocabularies (string
    literal unions) with the one interface that reads and prints them, and the
    key-sorted normal form behind [canonicalJson]. *)
From S2P Require Import Prelude JsNum JsDate.
Local Open Scope js_scope.

Inductive jsval : Type :=
| JUndef
| JNull
| JBool (b : bool)
| JNum (n : num)
| JStr (s : string)
| JArr (items : list jsval)
| JObj (fields : list (string * jsval)).

(** The fields of a plain object; arrays and [null] are not records. *)
Definition record_of (v : jsval) : option (list (string * jsval)) :=
  match v with JObj fs => Some fs | _ => None end.

Definition isRecord (v : jsval) : bool :=
  match v with JObj _ => true | _ => false end.

Definition get (fs : list (string * jsval)) (k : string) : jsval :=
  default JUndef (assoc_get k fs).
#[global] Arguments get : simpl never.

Definition is_undef (v : jsval) : bool :=
  match v with JUndef => true | _ => false end.

Definition as_string (v : jsval) : option string :=
  match v with JStr s => Some s | _ => None end.

Definition as_num (v : jsval) : option num :=
  match v with JNum n => Some n | _ => None end.

(** A field the code tests with [Number.isSafeInteger]. *)
Definition as_safe_int (v : jsval) : option Z := let? n := as_num v in to_safe_int n.

Definition is_string (v : jsval) (s : string) : bool :=
  match v with JStr s' => str_eqb s' s | _ => false end.

(** ** Closed vocabularies

    A union of string literals: its members, in the source's order, and the
    text of each. *)
Class Closed (A : Type) := { all_of : list A; name_of : A -> string }.

Class ClosedLaws (A : Type) `{Closed A} : Prop := {
  all_complete : forall a : A, a ∈ all_of;
  names_distinct : NoDup (name_of <$> (all_of : list A))
}.

Definition of_name {A} `{Closed A} (s : string) : option A :=
  List.find (fun a => str_eqb (name_of a) s) all_of.
#[global] Arguments of_name : simpl never.
#[global] Arguments name_of : simpl never.

Definition read_name {A} `{Closed A} (v : jsval) : option A :=
  match v with JStr s => of_name s | _ => None end.
#[global] Arguments read_name : simpl never.

Ltac solve_closed :=
  constructor; [intros []; apply (bool_decide_unpack _); vm_compute; exact I
               |apply (bool_decide_unpack _); vm_compute; exact I].

Section Closed.
Context {A} `{ClosedLaws A}.

Lemma of_name_Some s (a : A) : of_name s = Some a <-> name_of a = s.
Proof.
  unfold of_name. split.
  - intros [_ E]%find_some. by apply str_eqb_eq.
  - intros <-. destruct (List.find _ all_of) as [b|] eqn:E.
    + apply find_some in E as [Hb E]. apply str_eqb_eq in E.
      f_equal. apply list_elem_of_In in Hb. pose proof (all_complete a) as Ha.
      apply list_elem_of_lookup in Ha as [i Hi], Hb as [j Hj].
      assert (i = j) as ->; [|congruence].
      eapply NoDup_lookup; [apply (names_distinct (A:=A))| |];
        rewrite list_lookup_fmap; [by rewrite Hi|rewrite Hj; simpl; congruence].
    + eapply find_none in E; [|apply list_elem_of_In, (all_complete a)].
      by rewrite str_eqb_refl in E.
Qed.

Lemma of_name_of (a : A) : of_name (name_of a) = Some a.
Proof. by apply of_name_Some. Qed.

Lemma read_name_Some v (a : A) : read_name v = Some a <-> v = JStr (name_of a).
Proof.
  destruct v; unfold read_name; try (split; [done|by intros [=]]).
  rewrite of_name_Some. split; [by intros <-|by intros [=]].
Qed.

Lemma read_name_of (a : A) : read_name (JStr (name_of a)) = Some a.
Proof. by apply read_name_Some. Qed.

Lemma name_of_inj (a b : A) : name_of a = name_of b -> a = b.
Proof. intros E. apply of_name_Some in E. rewrite of_name_of in E. by injection E. Qed.
End Closed.

#[export] Hint Rewrite @of_name_of @read_name_of using done : js_rw.

(** ** Text patterns *)

(** [/^[A-Z][A-Z0-9_]{0,31}$/] *)
Definition safeMeter (s : string) : bool :=
  match s with
  | String c s' =>
      is_upper c && str_forall (fun c => is_upper c || is_digit c || Ascii.eqb c "_") s' &&
      (str_length s' <=? 31)%Z
  | EmptyString => false
  end.

(** [/^[a-z0-9][a-z0-9-]{0,63}$/] *)
Definition account_id_pattern (s : string) : bool :=
  match s with
  | String c s' =>
      (is_lower c || is_digit c) &&
      str_forall (fun c => is_lower c || is_digit c || Ascii.eqb c "-") s' &&
      (str_length s' <=? 63)%Z
  | EmptyString => false
  end.

(** Neither identifier holds a space, which the identities rely on. *)
Definition no_space (s : string) : bool := str_forall (fun c => negb (Ascii.eqb c " ")) s.

(** [s.trim() !== ""]: some unit is not white space. *)
Definition is_space (c : Ascii.ascii) : bool :=
  in_range 9 13 c || (code c =? 32)%Z || (code c =? 160)%Z.
Definition not_blank (s : string) : bool := negb (str_forall is_space s).

(** [String.prototype.trim] *)
Fixpoint trim_start (s : string) : string :=
  match s with String c s' => if is_space c then trim_start s' else s | EmptyString => s end.
Fixpoint trim_end (s : string) : string :=
  match s with
  | String c s' => if str_forall is_space s then EmptyString else String c (trim_end s')
  | EmptyString => s
  end.
Definition trim (s : string) : string := trim_end (trim_start s).

(** ** Canonical form *)

(** [sortDeep]: every object with its keys in code unit order. *)
Definition key_compare (a b : string * jsval) : comparison := str_compare a.1 b.1.

Fixpoint sortDeep (v : jsval) : jsval :=
  match v with
  | JArr l => JArr (map sortDeep l)
  | JObj fs => JObj (sort_by key_compare (map (fun kv => (kv.1, sortDeep kv.2)) fs))
  | _ => v
  end.

(** Every object has distinct keys, as every parsed document does. *)
Fixpoint unique_keys (v : jsval) : Prop :=
  match v with
  | JArr l => foldr (fun x P => unique_keys x /\ P) True l
  | JObj fs =>
      NoDup fs.*1 /\ foldr (fun kv P => unique_keys kv.2 /\ P) True fs
  | _ => True
  end.

#[export] Instance key_compare_preorder : TotalPreorder key_compare.
Proof. apply (str_compare_preorder (fst : string * jsval -> string)). Qed.

Lemma get_set k k' v fs : get (assoc_set k' v fs) k = if decide (k = k') then v else get fs k.
Proof. unfold get. rewrite assoc_get_set. by case_decide. Qed.

Lemma get_perm fs fs' k : fs ≡ₚ fs' -> NoDup fs.*1 -> get fs k = get fs' k.
Proof.
  intros Hp Hn. unfold get. f_equal.
  assert (Hn' : NoDup fs'.*1) by (by rewrite <- Hp).
  apply option_eq. intros v. by rewrite !assoc_get_elem, Hp.
Qed.

Definition sort_fields (fs : list (string * jsval)) : list (string * jsval) :=
  sort_by key_compare (map (fun kv => (kv.1, sortDeep kv.2)) fs).

Lemma sorted_keys fs : (map (fun kv : string * jsval => (kv.1, sortDeep kv.2)) fs).*1 = fs.*1.
Proof. induction fs as [|[k v] fs IH]; csimpl; [done|]. by f_equal. Qed.

(** Reading a field of the sorted object is sorting the field read. *)
Lemma get_sort_fields fs k : NoDup fs.*1 -> get (sort_fields fs) k = sortDeep (get fs k).
Proof.
  intros Hn. unfold sort_fields.
  rewrite <- (get_perm (map (fun kv => (kv.1, sortDeep kv.2)) fs)).
  - clear Hn. unfold get. induction fs as [|[k' v] fs IH]; simpl; [done|]. by case_decide.
  - symmetry. apply sort_by_perm.
  - by rewrite sorted_keys.
Qed.

Lemma record_of_sortDeep v : record_of (sortDeep v) = sort_fields <$> record_of v.
Proof. by destruct v. Qed.

Lemma as_string_sortDeep v : as_string (sortDeep v) = as_string v.
Proof. by destruct v. Qed.

Lemma as_num_sortDeep v : as_num (sortDeep v) = as_num v.
Proof. by destruct v. Qed.

Lemma read_name_sortDeep {A} `{Closed A} v : read_name (sortDeep v) = read_name v.
Proof. by destruct v. Qed.

Lemma unique_keys_record v fs : unique_keys v -> record_of v = Some fs -> NoDup fs.*1.
Proof. destruct v; try done. intros [Hn _] [= <-]. done. Qed.

Lemma unique_keys_get v fs k : unique_keys v -> record_of v = Some fs -> unique_keys (get fs k).
Proof.
  destruct v; try done. intros [_ Hf] [= <-]. unfold get.
  induction fields as [|[k' v] fs IH]; simpl in *; [done|]. destruct Hf. case_decide; auto.
Qed.

#[export] Hint Rewrite as_string_sortDeep as_num_sortDeep @read_name_sortDeep : js_rw.
