(* ===== verification/Text.v ===== *)
(** * Text operations

    The string methods and the patterns the components use: case mapping,
    splitting, decimal numbers, replacement. *)
From S2P Require Import Prelude.
Local Open Scope Z_scope.
Local Open Scope js_scope.

Definition chr (n : Z) : ascii := ascii_of_N (Z.to_N n).

(** [toUpperCase] and [toLowerCase] on ASCII letters; other units unchanged. *)
Definition upper_char (c : ascii) : ascii := if is_lower c then chr (code c - 32) else c.
Definition lower_char (c : ascii) : ascii := if is_upper c then chr (code c + 32) else c.

Fixpoint str_map (f : ascii -> ascii) (s : string) : string :=
  match s with EmptyString => EmptyString | String c s' => String (f c) (str_map f s') end.

Definition toUpperCase : string -> string := str_map upper_char.
Definition toLowerCase : string -> string := str_map lower_char.

(** [s.slice(pre.length)] when [s] starts with [pre]. *)
Fixpoint after_prefix (pre s : string) : option string :=
  match pre, s with
  | EmptyString, _ => Some s
  | String a pre', String b s' => if Ascii.eqb a b then after_prefix pre' s' else None
  | _, _ => None
  end.

(** [words.join(sep)] *)
Fixpoint join (sep : string) (l : list string) : string :=
  match l with
  | [] => ""
  | [x] => x
  | x :: l' => x +:+ sep +:+ join sep l'
  end.

(** [s.split(/[sep]+/).filter(Boolean)]: the runs free of separators. *)
Fixpoint runs (sep : ascii -> bool) (s acc : string) : list string :=
  match s with
  | EmptyString => if str_eqb acc "" then [] else [acc]
  | String c s' =>
      if sep c then (if str_eqb acc "" then [] else [acc]) ++ runs sep s' ""
      else runs sep s' (acc +:+ String c "")
  end.

(** [s.split(sep)] on one character, empty parts kept. *)
Fixpoint split_on (sep : ascii) (s acc : string) : list string :=
  match s with
  | EmptyString => [acc]
  | String c s' =>
      if Ascii.eqb c sep then acc :: split_on sep s' "" else split_on sep s' (acc +:+ String c "")
  end.

(** The text before the first occurrence of [sub]; all of it when absent. *)
Fixpoint before_first (sub s : string) : string :=
  match after_prefix sub s with
  | Some _ => ""
  | None => match s with EmptyString => "" | String c s' => String c (before_first sub s') end
  end.

(** The longest run of units that satisfy [p], and the rest. *)
Fixpoint take_run (p : ascii -> bool) (s : string) : string * string :=
  match s with
  | String c s' => if p c then let '(run, rest) := take_run p s' in (String c run, rest) else ("", s)
  | EmptyString => ("", "")
  end.

(** The number decimal digits denote. *)
Fixpoint digits_value (acc : Z) (s : string) : Z :=
  match s with EmptyString => acc | String c s' => digits_value (acc * 10 + (code c - 48)) s' end.

(** [[1-9]\d*] at the head of a text. *)
Definition take_positive (s : string) : option (string * string) :=
  let '(run, rest) := take_run is_digit s in
  match run with
  | String c _ => check negb (code c =? 48);; Some (run, rest)
  | EmptyString => None
  end.

(** The decimal text of a whole number, [String(n)] below [10^21]. *)
Fixpoint decimal_fuel (fuel : nat) (n : Z) (acc : string) : string :=
  match fuel with
  | O => acc
  | S fuel =>
      let acc := String (chr (48 + n mod 10)) acc in
      if n <? 10 then acc else decimal_fuel fuel (n / 10) acc
  end.

Definition decimal (n : Z) : string :=
  if n <? 0 then String "-" (decimal_fuel 40 (- n) "") else decimal_fuel 40 n "".

(** [s.slice(0, n)] *)
Fixpoint str_prefix (n : nat) (s : string) : string :=
  match n, s with S n, String c s' => String c (str_prefix n s') | _, _ => "" end.

Definition is_upper_or_digit (c : ascii) : bool := is_upper c || is_digit c.

(** [s.replace(/[^...]+/g, "_")]: every run of units not kept becomes one
    underscore; [inside] tells that a run has begun. *)
Fixpoint squeeze (keep : ascii -> bool) (inside : bool) (s : string) : string :=
  match s with
  | EmptyString => ""
  | String c s' =>
      if keep c then String c (squeeze keep false s')
      else if inside then squeeze keep true s' else String "_" (squeeze keep true s')
  end.

Definition is_underscore (c : ascii) : bool := code c =? 95.

(** [s.replace(/^_+/, "")] and [s.replace(/_+$/, "")] *)
Fixpoint strip_leading (s : string) : string :=
  match s with String c s' => if is_underscore c then strip_leading s' else s | _ => s end.
Fixpoint strip_trailing (s : string) : string :=
  match s with
  | String c s' => if str_forall is_underscore s then "" else String c (strip_trailing s')
  | EmptyString => ""
  end.
Definition strip_underscores (s : string) : string := strip_trailing (strip_leading s).

(** [GetSubstitution] for a text pattern: the escapes [$$], [$&], [$`] and
    [$'] of a replacement text. *)
Fixpoint substitution (matched before after rep : string) : string :=
  match rep with
  | EmptyString => EmptyString
  | String c rep' =>
      let plain := String c (substitution matched before after rep') in
      match rep' with
      | String d rep'' =>
          let continue := substitution matched before after rep'' in
          if negb (Ascii.eqb c "$") then plain
          else if Ascii.eqb d "$" then String "$" continue
          else if Ascii.eqb d "&" then matched +:+ continue
          else if Ascii.eqb d "`" then before +:+ continue
          else if Ascii.eqb d "'" then after +:+ continue
          else plain
      | EmptyString => plain
      end
  end.

(** [s.replaceAll(pat, rep)] for a non-empty [pat]; [skip] counts the units of
    a match still to be passed over. *)
Fixpoint replace_all_at (pat rep before s : string) (skip : nat) : string :=
  match s with
  | EmptyString => EmptyString
  | String c s' =>
      let before' := before +:+ String c "" in
      match skip with
      | S skip => replace_all_at pat rep before' s' skip
      | O =>
          match after_prefix pat s with
          | Some after =>
              substitution pat before after rep +:+
              replace_all_at pat rep before' s' (String.length pat - 1)
          | None => String c (replace_all_at pat rep before' s' 0)
          end
      end
  end.

Definition replaceAll (pat rep s : string) : string := replace_all_at pat rep "" s 0.

Example replaceAll_escapes : replaceAll "{m}" "$&$$x" "a{m}b{m}" = "a{m}$xb{m}$x".
Proof. reflexivity. Qed.

Example runs_example : runs (fun c => Ascii.eqb c "_") "A__B_" "" = ["A"; "B"].
Proof. reflexivity. Qed.

(** ** Laws *)

Lemma upper_char_idem c : upper_char (upper_char c) = upper_char c.
Proof. by destruct c as [[] [] [] [] [] [] [] []]. Qed.

Lemma toUpperCase_idem s : toUpperCase (toUpperCase s) = toUpperCase s.
Proof.
  unfold toUpperCase. induction s as [|c s IH]; simpl; [done|]. by rewrite upper_char_idem, IH.
Qed.

(** A text without lower case letters is its own upper case. *)
Lemma toUpperCase_id s : str_forall (fun c => negb (is_lower c)) s = true -> toUpperCase s = s.
Proof.
  unfold toUpperCase. induction s as [|c s IH]; simpl; [done|].
  intros [Hc Hs]%andb_true_iff. rewrite IH by done. unfold upper_char.
  apply negb_true_iff in Hc. by rewrite Hc.
Qed.

Lemma str_forall_impl (p q : ascii -> bool) s :
  (forall c, p c = true -> q c = true) -> str_forall p s = true -> str_forall q s = true.
Proof.
  intros Hpq. induction s as [|c s IH]; simpl; [done|]. rewrite !andb_true_iff. naive_solver.
Qed.

Lemma after_prefix_Some pre s r : after_prefix pre s = Some r <-> s = pre +:+ r.
Proof.
  revert s. induction pre as [|a pre IH]; intros s; simpl; [naive_solver|].
  destruct s as [|b s]; [naive_solver|].
  destruct (Ascii.eqb_spec a b) as [->|Hne].
  - rewrite IH. split; [by intros ->|]. intros E. by injection E.
  - split; [done|]. intros E. injection E. congruence.
Qed.

Lemma after_prefix_app pre r : after_prefix pre (pre +:+ r) = Some r.
Proof. by apply after_prefix_Some. Qed.

Lemma starts_with_iff pre s : starts_with pre s = true <-> exists r, s = pre +:+ r.
Proof.
  revert s. induction pre as [|a pre IH]; intros s; simpl.
  - split; [by exists s|done].
  - destruct s as [|b s]; [split; [done|by intros [? E]]|].
    rewrite andb_true_iff, IH, Ascii.eqb_eq. split.
    + intros [-> [r ->]]. by exists r.
    + intros [r E]. injection E as -> ->. split; [done|]. by exists r.
Qed.

(** A text split at its first occurrence of a separator is split one way. *)
Lemma split_first_inj (c : ascii) x y r r' :
  str_forall (fun d => negb (Ascii.eqb d c)) x = true ->
  str_forall (fun d => negb (Ascii.eqb d c)) y = true ->
  x +:+ String c r = y +:+ String c r' -> x = y /\ r = r'.
Proof.
  revert y. induction x as [|a x IH]; intros [|b y]; simpl.
  - intros _ _ E. by injection E.
  - intros _ Hy E. injection E as <- _. by rewrite Ascii.eqb_refl in Hy.
  - intros Hx _ E. injection E as -> _. by rewrite Ascii.eqb_refl in Hx.
  - intros [_ Hx]%andb_true_iff [_ Hy]%andb_true_iff E. injection E as -> E.
    destruct (IH y Hx Hy E) as [-> ->]. done.
Qed.

Lemma no_first (c : ascii) x y r :
  str_forall (fun d => negb (Ascii.eqb d c)) x = true -> x <> y +:+ String c r.
Proof.
  revert x. induction y as [|b y IH]; intros x Hx E; subst x; simpl in Hx.
  - by rewrite Ascii.eqb_refl in Hx.
  - apply andb_true_iff in Hx as [_ Hx]. by apply (IH _ Hx).
Qed.

Lemma str_app_assoc x y z : x +:+ (y +:+ z) = (x +:+ y) +:+ z.
Proof.
  induction x as [|c x IH]; [done|].
  change (String c (x +:+ (y +:+ z)) = String c ((x +:+ y) +:+ z)). by f_equal.
Qed.

Lemma str_app_nil_r x : x +:+ "" = x.
Proof.
  induction x as [|c x IH]; [done|]. change (String c (x +:+ "") = String c x). by f_equal.
Qed.

Lemma str_app_inj_l x y z : x +:+ y = x +:+ z -> y = z.
Proof. induction x as [|c x IH]; [done|]. intros E. apply IH. by injection E. Qed.

Lemma str_length_app x y : str_length (x +:+ y) = str_length x + str_length y.
Proof.
  induction x as [|c x IH]; [done|].
  change (1 + str_length (x +:+ y) = 1 + str_length x + str_length y). lia.
Qed.

Lemma str_forall_app p x y : str_forall p (x +:+ y) = str_forall p x && str_forall p y.
Proof.
  induction x as [|c x IH]; [done|].
  change (p c && str_forall p (x +:+ y) = p c && str_forall p x && str_forall p y).
  by rewrite IH, andb_assoc.
Qed.

Lemma join_cons_nil x l : join "" (x :: l) = x +:+ join "" l.
Proof. destruct l as [|y l]; [by rewrite str_app_nil_r|done]. Qed.

(** ** Decimal numerals *)

Lemma code_chr n : 0 <= n < 256 -> code (chr n) = n.
Proof.
  intros Hn. unfold code, chr. rewrite N_ascii_embedding by lia. lia.
Qed.

Lemma decimal_fuel_value fuel n s :
  0 <= n < 10 ^ Z.of_nat fuel -> (0 < fuel)%nat ->
  digits_value 0 (decimal_fuel fuel n s) = digits_value n s.
Proof.
  revert n s. induction fuel as [|fuel IH]; [lia|]. intros n s Hn _. cbn [decimal_fuel].
  assert (Hc : code (chr (48 + n mod 10)) - 48 = n mod 10).
  { pose proof (Z.mod_pos_bound n 10). rewrite code_chr; lia. }
  destruct (Z.ltb_spec n 10) as [Hlt|Hge].
  - cbn [digits_value]. rewrite Hc, Z.mod_small by lia. f_equal; lia.
  - destruct fuel as [|fuel]; [simpl in Hn; lia|]. rewrite IH.
    + cbn [digits_value]. rewrite Hc. f_equal. pose proof (Z.div_mod n 10). lia.
    + rewrite Nat2Z.inj_succ, Z.pow_succ_r in Hn by lia.
      split; [apply Z.div_pos; lia|apply Z.div_lt_upper_bound; lia].
    + lia.
Qed.

Lemma decimal_fuel_digits fuel n s :
  0 <= n -> str_forall is_digit s = true -> str_forall is_digit (decimal_fuel fuel n s) = true.
Proof.
  revert n s. induction fuel as [|fuel IH]; intros n s Hn Hs; [done|]. cbn [decimal_fuel].
  pose proof (Z.mod_pos_bound n 10) as Hm.
  assert (Hd : str_forall is_digit (String (chr (48 + n mod 10)) s) = true).
  { cbn [str_forall]. unfold is_digit, in_range. rewrite code_chr by lia.
    rewrite !(proj2 (Z.leb_le _ _)) by lia. done. }
  destruct (n <? 10); [done|]. apply IH; [apply Z.div_pos; lia|done].
Qed.

Lemma decimal_fuel_nonempty fuel n s : (0 < fuel)%nat \/ s <> "" -> decimal_fuel fuel n s <> "".
Proof.
  revert n s. induction fuel as [|fuel IH]; intros n s Hs; [by destruct Hs as [?|?]; [lia|]|].
  cbn [decimal_fuel]. destruct (n <? 10); [done|]. apply IH. by right.
Qed.

Lemma decimal_plain n :
  0 <= n < 10 ^ 40 ->
  decimal n <> "" /\ str_forall is_digit (decimal n) = true /\ digits_value 0 (decimal n) = n.
Proof.
  intros Hn. unfold decimal. rewrite (proj2 (Z.ltb_ge _ _)) by lia. split_and!.
  - apply decimal_fuel_nonempty. left. lia.
  - by apply decimal_fuel_digits; [lia|].
  - rewrite decimal_fuel_value by (simpl; lia). done.
Qed.

Lemma take_run_app p x c y :
  str_forall p x = true -> p c = false -> take_run p (x +:+ String c y) = (x, String c y).
Proof.
  induction x as [|a x IH]; cbn [str_forall].
  - intros _ Hc. change ("" +:+ String c y) with (String c y). cbn [take_run]. by rewrite Hc.
  - intros [Ha Hx]%andb_true_iff Hc. change (String a x +:+ String c y) with (String a (x +:+ String c y)).
    cbn [take_run]. by rewrite Ha, IH.
Qed.

Lemma take_run_all p x : str_forall p x = true -> take_run p x = (x, "").
Proof.
  induction x as [|c x IH]; [done|]. cbn [str_forall take_run].
  intros [-> Hx]%andb_true_iff. by rewrite IH.
Qed.

Lemma digits_value_app n x y : digits_value n (x +:+ y) = digits_value (digits_value n x) y.
Proof. revert n. induction x as [|c x IH]; intros n; [done|]. apply (IH (n * 10 + (code c - 48))). Qed.

(** ** Cut, stripped and squeezed texts *)

Lemma str_length_nonneg x : 0 <= str_length x.
Proof. induction x as [|c x IH]; simpl; lia. Qed.

Lemma str_app_inj_r x y z : x +:+ z = y +:+ z -> x = y.
Proof.
  revert y. induction x as [|c x IH]; intros [|d y] E; [done| | |].
  - exfalso. apply (f_equal str_length) in E. change ("" +:+ z) with z in E.
    rewrite str_length_app in E. simpl in E. pose proof (str_length_nonneg y). lia.
  - exfalso. apply (f_equal str_length) in E. change ("" +:+ z) with z in E.
    rewrite str_length_app in E. simpl in E. pose proof (str_length_nonneg x). lia.
  - injection E as -> E. f_equal. by apply IH.
Qed.

Fixpoint last_unit (s : string) : option ascii :=
  match s with
  | EmptyString => None
  | String c s' => match last_unit s' with Some d => Some d | None => Some c end
  end.

Lemma last_unit_app x c y : last_unit (x +:+ String c y) = last_unit (String c y).
Proof.
  induction x as [|d x IH]; [done|]. change (String d x +:+ String c y) with (String d (x +:+ String c y)).
  cbn [last_unit] in *. rewrite IH. by destruct (last_unit y).
Qed.

Lemma squeeze_chars keep inside s :
  str_forall (fun c => keep c || is_underscore c) (squeeze keep inside s) = true.
Proof.
  revert inside. induction s as [|c s IH]; intros inside; simpl; [done|].
  destruct (keep c) eqn:Hk; simpl; [by rewrite Hk, IH|].
  destruct inside; simpl; [done|]. by rewrite IH, orb_true_r.
Qed.

Lemma strip_leading_forall p s : str_forall p s = true -> str_forall p (strip_leading s) = true.
Proof.
  induction s as [|c s IH]; simpl; [done|]. intros [Hc Hs]%andb_true_iff.
  destruct (is_underscore c); [by apply IH|]. simpl. by rewrite Hc.
Qed.

Lemma strip_trailing_forall p s : str_forall p s = true -> str_forall p (strip_trailing s) = true.
Proof.
  induction s as [|c s IH]; simpl; [done|]. intros [Hc Hs]%andb_true_iff.
  destruct (is_underscore c && _); [done|]. simpl. by rewrite Hc, IH.
Qed.

Lemma str_prefix_forall p n s : str_forall p s = true -> str_forall p (str_prefix n s) = true.
Proof.
  revert n. induction s as [|c s IH]; intros [|n]; simpl; try done.
  intros [Hc Hs]%andb_true_iff. by rewrite Hc, IH.
Qed.

Lemma strip_trailing_length s : str_length (strip_trailing s) <= str_length s.
Proof.
  induction s as [|c s IH]; simpl; [done|]. pose proof (str_length_nonneg s).
  destruct (is_underscore c && _); simpl; lia.
Qed.

Lemma str_prefix_length n s : str_length (str_prefix n s) <= Z.of_nat n.
Proof. revert n. induction s as [|c s IH]; intros [|n]; simpl; try lia. specialize (IH n). lia. Qed.

Lemma strip_trailing_first c s :
  is_underscore c = false -> exists s', strip_trailing (String c s) = String c s'.
Proof. intros Hc. simpl. rewrite Hc. eauto. Qed.

Lemma strip_leading_first s : strip_leading s = "" \/ exists c s', strip_leading s = String c s' /\ is_underscore c = false.
Proof.
  induction s as [|c s IH]; simpl; [by left|]. destruct (is_underscore c) eqn:Hc; [done|]. right. eauto.
Qed.

Lemma toUpperCase_forall (p q : ascii -> bool) s :
  (forall c, p c = true -> q (upper_char c) = true) ->
  str_forall p s = true -> str_forall q (toUpperCase s) = true.
Proof.
  intros Hpq. unfold toUpperCase. induction s as [|c s IH]; simpl; [done|].
  intros [Hc Hs]%andb_true_iff. by rewrite (Hpq _ Hc), IH.
Qed.

Lemma underscore_code c : is_underscore c = true -> c = "_"%char.
Proof.
  unfold is_underscore, code. rewrite Z.eqb_eq. intros Hc.
  rewrite <- (ascii_N_embedding c), <- (ascii_N_embedding "_"). f_equal. apply N2Z.inj. by rewrite Hc.
Qed.
