(* ===== verification/Types.v ===== *)
(** * Snapshots and their vocabularies

    The data model of [packages/core/src/types.ts]: the closed enumerations
    with the text of every member, the [Snapshot] record a reading becomes
    once it is believed, and its rendering as an object ([raw_of_snapshot]),
    which is what the cache file holds and the validators read back. *)
From S2P Require Import Prelude JsNum JsDate JsValue.
Local Open Scope js_scope.

Inductive ProviderCode :=
| CLAUDE | OPENROUTER | CODEX | ANTIGRAVITY | GEMINI_CLI | OPENCODE | GROK | KIMI
| CURSOR | MANUAL.

Inductive SnapshotUnit := PERCENT | CREDITS | TOKENS | REQUESTS.

Inductive SnapshotPrecision := p_exact | p_estimated | p_manual.

Inductive SnapshotSource :=
| native_payload | documented_api | internal_payload | authenticated_page | manual_entry.

Inductive WindowKind := w_rolling | w_fixed | w_lifetime | w_unknown.

Inductive SnapshotCurrency := USD | CNY.

Inductive SnapshotKind := quota_percent | money_balance | spend | token_count | runtime_info.

Inductive Verification := UNVERIFIED | VERIFIED_FIXTURES | VERIFIED_LIVE.

Inductive SnapshotSourceKind :=
| statusline_payload | explicit_ingest | manual_document | remote_api | sk_unknown.

Inductive SnapshotObservedVia :=
| claude_code_statusline | antigravity_cli_statusline | ingest_command | manual_json
| local_event | local_file | local_command | remote_http | user_entry | via_unknown.

Inductive SnapshotWriter := desktop | cli.

Inductive CredentialOrigin := official_local_tool | user_key | browser_session | user_entered.

Inductive DataInterfaceStatus :=
| native_statusline_payload | documented_api_status | internal_endpoint
| authenticated_scrape | manual_status.

Inductive AutomationRisk := risk_low | risk_high.

(** [SNAPSHOT_AVAILABILITIES] of connection-state.ts. *)
Inductive SnapshotAvailability :=
| missing_credentials | expired_credentials | access_denied | missing_subscription
| unlimited | quota_unavailable | rate_limited | network_failure | schema_drift.

Inductive SnapshotState := st_fresh | st_stale | st_unknown.

#[export] Instance ProviderCode_eq : EqDecision ProviderCode. Proof. solve_decision. Defined.
#[export] Instance SnapshotUnit_eq : EqDecision SnapshotUnit. Proof. solve_decision. Defined.
#[export] Instance Precision_eq : EqDecision SnapshotPrecision. Proof. solve_decision. Defined.
#[export] Instance Source_eq : EqDecision SnapshotSource. Proof. solve_decision. Defined.
#[export] Instance WindowKind_eq : EqDecision WindowKind. Proof. solve_decision. Defined.
#[export] Instance Currency_eq : EqDecision SnapshotCurrency. Proof. solve_decision. Defined.
#[export] Instance Kind_eq : EqDecision SnapshotKind. Proof. solve_decision. Defined.
#[export] Instance Verification_eq : EqDecision Verification. Proof. solve_decision. Defined.
#[export] Instance SourceKind_eq : EqDecision SnapshotSourceKind. Proof. solve_decision. Defined.
#[export] Instance Via_eq : EqDecision SnapshotObservedVia. Proof. solve_decision. Defined.
#[export] Instance Writer_eq : EqDecision SnapshotWriter. Proof. solve_decision. Defined.
#[export] Instance Origin_eq : EqDecision CredentialOrigin. Proof. solve_decision. Defined.
#[export] Instance Interface_eq : EqDecision DataInterfaceStatus. Proof. solve_decision. Defined.
#[export] Instance Risk_eq : EqDecision AutomationRisk. Proof. solve_decision. Defined.
#[export] Instance Availability_eq : EqDecision SnapshotAvailability.
Proof. solve_decision. Defined.
#[export] Instance State_eq : EqDecision SnapshotState. Proof. solve_decision. Defined.

#[export] Instance PROVIDER_CODES : Closed ProviderCode := {
  all_of := [CLAUDE; OPENROUTER; CODEX; ANTIGRAVITY; GEMINI_CLI; OPENCODE; GROK; KIMI;
             CURSOR; MANUAL];
  name_of p :=
    match p with
    | CLAUDE => "CLAUDE" | OPENROUTER => "OPENROUTER" | CODEX => "CODEX"
    | ANTIGRAVITY => "ANTIGRAVITY" | GEMINI_CLI => "GEMINI_CLI" | OPENCODE => "OPENCODE"
    | GROK => "GROK" | KIMI => "KIMI" | CURSOR => "CURSOR" | MANUAL => "MANUAL"
    end }.

#[export] Instance units : Closed SnapshotUnit := {
  all_of := [PERCENT; CREDITS; TOKENS; REQUESTS];
  name_of u :=
    match u with
    | PERCENT => "PERCENT" | CREDITS => "CREDITS" | TOKENS => "TOKENS" | REQUESTS => "REQUESTS"
    end }.

#[export] Instance sources : Closed SnapshotSource := {
  all_of := [native_payload; documented_api; internal_payload; authenticated_page; manual_entry];
  name_of s :=
    match s with
    | native_payload => "native_payload" | documented_api => "documented_api"
    | internal_payload => "internal_payload" | authenticated_page => "authenticated_page"
    | manual_entry => "manual_entry"
    end }.

#[export] Instance precisions : Closed SnapshotPrecision := {
  all_of := [p_exact; p_estimated; p_manual];
  name_of p :=
    match p with p_exact => "exact" | p_estimated => "estimated" | p_manual => "manual" end }.

#[export] Instance window_kinds : Closed WindowKind := {
  all_of := [w_rolling; w_fixed; w_lifetime; w_unknown];
  name_of k :=
    match k with
    | w_rolling => "rolling" | w_fixed => "fixed" | w_lifetime => "lifetime"
    | w_unknown => "unknown"
    end }.

#[export] Instance currencies : Closed SnapshotCurrency := {
  all_of := [USD; CNY]; name_of c := match c with USD => "USD" | CNY => "CNY" end }.

#[export] Instance SNAPSHOT_KINDS : Closed SnapshotKind := {
  all_of := [quota_percent; money_balance; spend; token_count; runtime_info];
  name_of k :=
    match k with
    | quota_percent => "quota_percent" | money_balance => "money_balance" | spend => "spend"
    | token_count => "token_count" | runtime_info => "runtime_info"
    end }.

#[export] Instance CONNECTOR_VERIFICATIONS : Closed Verification := {
  all_of := [UNVERIFIED; VERIFIED_FIXTURES; VERIFIED_LIVE];
  name_of v :=
    match v with
    | UNVERIFIED => "UNVERIFIED" | VERIFIED_FIXTURES => "VERIFIED_FIXTURES"
    | VERIFIED_LIVE => "VERIFIED_LIVE"
    end }.

#[export] Instance SNAPSHOT_SOURCE_KINDS : Closed SnapshotSourceKind := {
  all_of := [statusline_payload; explicit_ingest; manual_document; remote_api; sk_unknown];
  name_of k :=
    match k with
    | statusline_payload => "statusline_payload" | explicit_ingest => "explicit_ingest"
    | manual_document => "manual_document" | remote_api => "remote_api"
    | sk_unknown => "unknown"
    end }.

#[export] Instance SNAPSHOT_OBSERVED_VIA : Closed SnapshotObservedVia := {
  all_of := [claude_code_statusline; antigravity_cli_statusline; ingest_command; manual_json;
             local_event; local_file; local_command; remote_http; user_entry; via_unknown];
  name_of v :=
    match v with
    | claude_code_statusline => "claude_code_statusline"
    | antigravity_cli_statusline => "antigravity_cli_statusline"
    | ingest_command => "ingest_command" | manual_json => "manual_json"
    | local_event => "local_event" | local_file => "local_file"
    | local_command => "local_command" | remote_http => "remote_http"
    | user_entry => "user_entry" | via_unknown => "unknown"
    end }.

#[export] Instance SNAPSHOT_WRITERS : Closed SnapshotWriter := {
  all_of := [desktop; cli]; name_of w := match w with desktop => "desktop" | cli => "cli" end }.

#[export] Instance credential_origins : Closed CredentialOrigin := {
  all_of := [official_local_tool; user_key; browser_session; user_entered];
  name_of o :=
    match o with
    | official_local_tool => "official-local-tool" | user_key => "user-key"
    | browser_session => "browser-session" | user_entered => "user-entered"
    end }.

#[export] Instance interface_statuses : Closed DataInterfaceStatus := {
  all_of := [native_statusline_payload; documented_api_status; internal_endpoint;
             authenticated_scrape; manual_status];
  name_of s :=
    match s with
    | native_statusline_payload => "native-statusline-payload"
    | documented_api_status => "documented-api" | internal_endpoint => "internal-endpoint"
    | authenticated_scrape => "authenticated-scrape" | manual_status => "manual"
    end }.

#[export] Instance automation_risks : Closed AutomationRisk := {
  all_of := [risk_low; risk_high];
  name_of r := match r with risk_low => "low" | risk_high => "high" end }.

#[export] Instance SNAPSHOT_AVAILABILITIES : Closed SnapshotAvailability := {
  all_of := [missing_credentials; expired_credentials; access_denied; missing_subscription;
             unlimited; quota_unavailable; rate_limited; network_failure; schema_drift];
  name_of a :=
    match a with
    | missing_credentials => "missing_credentials" | expired_credentials => "expired_credentials"
    | access_denied => "access_denied" | missing_subscription => "missing_subscription"
    | unlimited => "unlimited" | quota_unavailable => "quota_unavailable"
    | rate_limited => "rate_limited" | network_failure => "network_failure"
    | schema_drift => "schema_drift"
    end }.

#[export] Instance PROVIDER_CODES_laws : ClosedLaws ProviderCode. Proof. solve_closed. Qed.
#[export] Instance units_laws : ClosedLaws SnapshotUnit. Proof. solve_closed. Qed.
#[export] Instance sources_laws : ClosedLaws SnapshotSource. Proof. solve_closed. Qed.
#[export] Instance precisions_laws : ClosedLaws SnapshotPrecision. Proof. solve_closed. Qed.
#[export] Instance window_kinds_laws : ClosedLaws WindowKind. Proof. solve_closed. Qed.
#[export] Instance currencies_laws : ClosedLaws SnapshotCurrency. Proof. solve_closed. Qed.
#[export] Instance kinds_laws : ClosedLaws SnapshotKind. Proof. solve_closed. Qed.
#[export] Instance verifications_laws : ClosedLaws Verification. Proof. solve_closed. Qed.
#[export] Instance source_kinds_laws : ClosedLaws SnapshotSourceKind. Proof. solve_closed. Qed.
#[export] Instance observed_via_laws : ClosedLaws SnapshotObservedVia. Proof. solve_closed. Qed.
#[export] Instance writers_laws : ClosedLaws SnapshotWriter. Proof. solve_closed. Qed.
#[export] Instance origins_laws : ClosedLaws CredentialOrigin. Proof. solve_closed. Qed.
#[export] Instance interfaces_laws : ClosedLaws DataInterfaceStatus. Proof. solve_closed. Qed.
#[export] Instance risks_laws : ClosedLaws AutomationRisk. Proof. solve_closed. Qed.
#[export] Instance availabilities_laws : ClosedLaws SnapshotAvailability.
Proof. solve_closed. Qed.

(** ** Records *)

Record SnapshotWindow := { w_kind : WindowKind; w_durationSeconds : option Z }.

Record VerificationEvidence := {
  ev_providerVersion : string; ev_accountShape : string; ev_os : string; ev_date : string }.

Record SnapshotAmounts := {
  am_usedAmount : num; am_limitAmount : num; am_currency : SnapshotCurrency }.

Record SnapshotProvenance := {
  pv_sourceKind : SnapshotSourceKind; pv_observedVia : SnapshotObservedVia }.

Definition UNKNOWN_PROVENANCE : SnapshotProvenance :=
  {| pv_sourceKind := sk_unknown; pv_observedVia := via_unknown |}.

Record ConnectorLabels := {
  lb_credentialOrigin : CredentialOrigin;
  lb_dataInterfaceStatus : DataInterfaceStatus;
  lb_automationRisk : AutomationRisk;
  lb_verification : Verification;
  lb_verificationEvidence : option VerificationEvidence }.

Record Snapshot := {
  s_provider : ProviderCode;
  s_meter : string;
  s_value : num;
  s_unit : SnapshotUnit;
  s_window : SnapshotWindow;
  s_resetAt : option string;
  s_source : SnapshotSource;
  s_precision : SnapshotPrecision;
  s_observedAt : string;
  s_expiresAt : string;
  s_labels : ConnectorLabels;
  s_usedAmount : option num;
  s_limitAmount : option num;
  s_currency : option SnapshotCurrency;
  s_accountId : option string;
  s_accountLabel : option string;
  s_provenance : option SnapshotProvenance;
  s_writer : option SnapshotWriter;
  s_kind : option SnapshotKind;
  s_availability : option SnapshotAvailability;
  s_retryAt : option string }.

#[export] Instance Window_eq : EqDecision SnapshotWindow. Proof. solve_decision. Defined.
#[export] Instance Evidence_eq : EqDecision VerificationEvidence. Proof. solve_decision. Defined.
#[export] Instance Provenance_eq : EqDecision SnapshotProvenance. Proof. solve_decision. Defined.
#[export] Instance Labels_eq : EqDecision ConnectorLabels. Proof. solve_decision. Defined.
#[export] Instance Snapshot_eq : EqDecision Snapshot. Proof. solve_decision. Defined.

(** The object spread [{ ...row, field: value }], for the fields the code
    overwrites. *)
Definition with_expiresAt (v : string) (s : Snapshot) : Snapshot :=
  {| s_provider := s_provider s; s_meter := s_meter s; s_value := s_value s;
     s_unit := s_unit s; s_window := s_window s; s_resetAt := s_resetAt s;
     s_source := s_source s; s_precision := s_precision s; s_observedAt := s_observedAt s;
     s_expiresAt := v; s_labels := s_labels s; s_usedAmount := s_usedAmount s;
     s_limitAmount := s_limitAmount s; s_currency := s_currency s;
     s_accountId := s_accountId s; s_accountLabel := s_accountLabel s;
     s_provenance := s_provenance s; s_writer := s_writer s; s_kind := s_kind s;
     s_availability := s_availability s; s_retryAt := s_retryAt s |}.

Definition with_writer (v : SnapshotWriter) (s : Snapshot) : Snapshot :=
  {| s_provider := s_provider s; s_meter := s_meter s; s_value := s_value s;
     s_unit := s_unit s; s_window := s_window s; s_resetAt := s_resetAt s;
     s_source := s_source s; s_precision := s_precision s; s_observedAt := s_observedAt s;
     s_expiresAt := s_expiresAt s; s_labels := s_labels s; s_usedAmount := s_usedAmount s;
     s_limitAmount := s_limitAmount s; s_currency := s_currency s;
     s_accountId := s_accountId s; s_accountLabel := s_accountLabel s;
     s_provenance := s_provenance s; s_writer := Some v; s_kind := s_kind s;
     s_availability := s_availability s; s_retryAt := s_retryAt s |}.

Definition with_availability (a : SnapshotAvailability) (r : option string) (s : Snapshot) :
    Snapshot :=
  {| s_provider := s_provider s; s_meter := s_meter s; s_value := s_value s;
     s_unit := s_unit s; s_window := s_window s; s_resetAt := s_resetAt s;
     s_source := s_source s; s_precision := s_precision s; s_observedAt := s_observedAt s;
     s_expiresAt := s_expiresAt s; s_labels := s_labels s; s_usedAmount := s_usedAmount s;
     s_limitAmount := s_limitAmount s; s_currency := s_currency s;
     s_accountId := s_accountId s; s_accountLabel := s_accountLabel s;
     s_provenance := s_provenance s; s_writer := s_writer s; s_kind := s_kind s;
     s_availability := Some a; s_retryAt := r |}.

(** ** A snapshot as an object *)

Definition name {A} `{Closed A} (a : A) : jsval := JStr (name_of a).
#[global] Arguments name : simpl never.

Lemma read_name_name {A} `{ClosedLaws A} (a : A) : read_name (name a) = Some a.
Proof. apply read_name_of. Qed.

(** An optional field: present only when it has a value. *)
Definition opt {A} (k : string) (f : A -> jsval) (o : option A) : list (string * jsval) :=
  match o with Some a => [(k, f a)] | None => [] end.

Definition raw_of_window (w : SnapshotWindow) : jsval :=
  JObj (("kind", name (w_kind w)) ::
        opt "durationSeconds" (fun n => JNum (int n)) (w_durationSeconds w)).

Definition raw_of_evidence (e : VerificationEvidence) : jsval :=
  JObj [("providerVersion", JStr (ev_providerVersion e));
        ("accountShape", JStr (ev_accountShape e));
        ("os", JStr (ev_os e)); ("date", JStr (ev_date e))].

Definition raw_of_labels (l : ConnectorLabels) : jsval :=
  JObj ([("credentialOrigin", name (lb_credentialOrigin l));
         ("dataInterfaceStatus", name (lb_dataInterfaceStatus l));
         ("automationRisk", name (lb_automationRisk l));
         ("verification", name (lb_verification l))] ++
        opt "verificationEvidence" raw_of_evidence (lb_verificationEvidence l)).

Definition raw_of_provenance (p : SnapshotProvenance) : jsval :=
  JObj [("sourceKind", name (pv_sourceKind p)); ("observedVia", name (pv_observedVia p))].

Definition raw_of_snapshot (s : Snapshot) : jsval :=
  JObj ([("provider", name (s_provider s)); ("meter", JStr (s_meter s));
         ("value", JNum (s_value s)); ("unit", name (s_unit s));
         ("window", raw_of_window (s_window s));
         ("resetAt", match s_resetAt s with Some r => JStr r | None => JNull end);
         ("source", name (s_source s)); ("precision", name (s_precision s));
         ("observedAt", JStr (s_observedAt s)); ("expiresAt", JStr (s_expiresAt s));
         ("labels", raw_of_labels (s_labels s))] ++
        opt "usedAmount" JNum (s_usedAmount s) ++
        opt "limitAmount" JNum (s_limitAmount s) ++
        opt "currency" name (s_currency s) ++
        opt "accountId" JStr (s_accountId s) ++
        opt "accountLabel" JStr (s_accountLabel s) ++
        opt "provenance" raw_of_provenance (s_provenance s) ++
        opt "writer" name (s_writer s) ++
        opt "kind" name (s_kind s) ++
        opt "availability" name (s_availability s) ++
        opt "retryAt" JStr (s_retryAt s)).

(** Every field of the object reads back. *)
Definition opt_val {A} (f : A -> jsval) (o : option A) : jsval :=
  match o with Some a => f a | None => JUndef end.

Lemma get_cons_eq k v fs : get ((k, v) :: fs) k = v.
Proof. unfold get; simpl. by rewrite decide_True. Qed.

Lemma get_cons_ne k k' v fs : k <> k' -> get ((k', v) :: fs) k = get fs k.
Proof. intros. unfold get; simpl. by rewrite decide_False. Qed.

Lemma get_opt_ne {A} k k' (f : A -> jsval) o fs :
  k <> k' -> get (opt k' f o ++ fs) k = get fs k.
Proof. intros. destruct o; simpl; [by apply get_cons_ne|done]. Qed.

Lemma get_opt_eq {A} k (f : A -> jsval) o fs :
  get fs k = JUndef -> get (opt k f o ++ fs) k = opt_val f o.
Proof. intros. destruct o; simpl; [by apply get_cons_eq|done]. Qed.

Lemma get_opt_last {A} k (f : A -> jsval) o : get (opt k f o) k = opt_val f o.
Proof. rewrite <- (app_nil_r (opt k f o)). by apply get_opt_eq. Qed.

Lemma get_opt_ne_last {A} k k' (f : A -> jsval) o : k <> k' -> get (opt k' f o) k = JUndef.
Proof. intros. rewrite <- (app_nil_r (opt k' f o)). by rewrite get_opt_ne. Qed.

(** Compute [get fs k] on an explicit object. *)
Ltac solve_get :=
  repeat first
    [ rewrite get_cons_eq
    | rewrite get_cons_ne by discriminate
    | rewrite get_opt_ne by discriminate
    | rewrite get_opt_last
    | rewrite get_opt_ne_last by discriminate
    | rewrite get_opt_eq by solve_get ];
  cbn [opt_val]; rewrite ?read_name_name; try reflexivity.

Definition snapshot_fields (s : Snapshot) : list (string * jsval) :=
  match raw_of_snapshot s with JObj fs => fs | _ => [] end.

Lemma raw_of_snapshot_fields s : raw_of_snapshot s = JObj (snapshot_fields s).
Proof. done. Qed.

Lemma raw_fields s :
  get (snapshot_fields s) "usedAmount" = opt_val JNum (s_usedAmount s) /\
  get (snapshot_fields s) "limitAmount" = opt_val JNum (s_limitAmount s) /\
  get (snapshot_fields s) "currency" = opt_val name (s_currency s) /\
  get (snapshot_fields s) "accountId" = opt_val JStr (s_accountId s) /\
  get (snapshot_fields s) "accountLabel" = opt_val JStr (s_accountLabel s) /\
  get (snapshot_fields s) "provenance" = opt_val raw_of_provenance (s_provenance s) /\
  get (snapshot_fields s) "writer" = opt_val name (s_writer s) /\
  get (snapshot_fields s) "kind" = opt_val name (s_kind s) /\
  get (snapshot_fields s) "availability" = opt_val name (s_availability s) /\
  get (snapshot_fields s) "retryAt" = opt_val JStr (s_retryAt s).
Proof.
  unfold snapshot_fields, raw_of_snapshot. cbn [app].
  split_and!; solve_get.
Qed.

(** The object has distinct keys at every level. *)
Lemma all_unique_app (fs fs' : list (string * jsval)) :
  foldr (fun kv P => unique_keys kv.2 /\ P) True fs ->
  foldr (fun kv P => unique_keys kv.2 /\ P) True fs' ->
  foldr (fun kv P => unique_keys kv.2 /\ P) True (fs ++ fs').
Proof. induction fs; simpl; [done|]. intros [? ?]; split; auto. Qed.

Lemma all_unique_opt {A} k (f : A -> jsval) o :
  (forall a, unique_keys (f a)) ->
  foldr (fun kv P => unique_keys kv.2 /\ P) True (opt k f o).
Proof. intros. by destruct o; simpl. Qed.

Lemma keys_opt_sublist {A} k (f : A -> jsval) o : (opt k f o).*1 `sublist_of` [k].
Proof. destruct o; simpl; repeat constructor. Qed.

Lemma unique_fields fs ks :
  fs.*1 `sublist_of` ks -> NoDup ks ->
  foldr (fun kv P => unique_keys kv.2 /\ P) True fs -> unique_keys (JObj fs).
Proof. intros Hs Hk Hf. split; [|done]. by eapply sublist_NoDup. Qed.

(** The keys of a snapshot object, in the order they are written. *)
Definition snapshot_keys : list string :=
  ["provider"; "meter"; "value"; "unit"; "window"; "resetAt"; "source"; "precision";
   "observedAt"; "expiresAt"; "labels"; "usedAmount"; "limitAmount"; "currency"; "accountId";
   "accountLabel"; "provenance"; "writer"; "kind"; "availability"; "retryAt"].

Ltac solve_sublist :=
  rewrite ?fmap_app; repeat (apply sublist_skip); repeat first
    [ apply keys_opt_sublist
    | apply (sublist_app _ [_]); [apply keys_opt_sublist|] | reflexivity ].

Ltac solve_all_unique :=
  repeat first
    [ apply all_unique_app | apply all_unique_opt; intros ? | split | exact I
    | progress simpl ].

Lemma raw_of_window_unique w : unique_keys (raw_of_window w).
Proof.
  apply (unique_fields _ ["kind"; "durationSeconds"]);
    [csimpl; solve_sublist|by apply (bool_decide_unpack _)|solve_all_unique].
Qed.

Lemma raw_of_labels_unique l : unique_keys (raw_of_labels l).
Proof.
  apply (unique_fields _ ["credentialOrigin"; "dataInterfaceStatus"; "automationRisk";
    "verification"; "verificationEvidence"]);
    [csimpl; solve_sublist|by apply (bool_decide_unpack _)|].
  solve_all_unique. by apply (bool_decide_unpack _).
Qed.

Lemma raw_of_provenance_unique p : unique_keys (raw_of_provenance p).
Proof. split; [by apply (bool_decide_unpack _)|done]. Qed.

Lemma raw_of_snapshot_unique s : unique_keys (raw_of_snapshot s).
Proof.
  apply (unique_fields _ snapshot_keys);
    [csimpl; solve_sublist|by apply (bool_decide_unpack _)|].
  solve_all_unique;
    first [ apply raw_of_window_unique | apply raw_of_labels_unique
          | by destruct (s_resetAt s) | by apply (bool_decide_unpack _) ].
Qed.

(** ** A concrete reading, for the examples of the other files *)

Definition sample_snapshot (provider : ProviderCode) (meter : string) (value : num)
    (observedAt expiresAt : string) : Snapshot :=
  {| s_provider := provider; s_meter := meter; s_value := value; s_unit := PERCENT;
     s_window := {| w_kind := w_rolling; w_durationSeconds := Some 18000%Z |};
     s_resetAt := Some "2026-01-01T04:00:00.000Z"; s_source := internal_payload;
     s_precision := p_exact; s_observedAt := observedAt; s_expiresAt := expiresAt;
     s_labels := {| lb_credentialOrigin := official_local_tool;
                    lb_dataInterfaceStatus := internal_endpoint;
                    lb_automationRisk := risk_low; lb_verification := VERIFIED_FIXTURES;
                    lb_verificationEvidence := None |};
     s_usedAmount := None; s_limitAmount := None; s_currency := None;
     s_accountId := None; s_accountLabel := None;
     s_provenance := Some {| pv_sourceKind := remote_api; pv_observedVia := remote_http |};
     s_writer := Some cli; s_kind := Some quota_percent; s_availability := None;
     s_retryAt := None |}.
