(* ===== verification/Normalizer.v ===== *)
(** * The normalizer

    [packages/core/src/normalizer.ts]: what an untrusted reading must satisfy
    before any surface may believe it. Each validator is the source's, guard by
    guard; [None] is its [null]. The contract is [well_formed]: a snapshot is
    well formed exactly when it is the normalizer's answer to some document,
    and it is then the answer to its own rendering, in any key order. *)
From S2P Require Import Prelude JsNum JsDate JsValue Types.
Local Open Scope js_scope.

Definition MAX_SNAPSHOT_AMOUNT : num := int 1000000.
Definition MAX_ACCOUNT_LABEL_CHARS : Z := 64.

Section Normalizer.
Context `{DateHost}.

(** [isIsoInstant] of an untrusted value. *)
Definition isIsoInstant (v : jsval) : bool :=
  match v with JStr s => is_iso_instant s | _ => false end.

Definition normalizeWindow (v : jsval) : option SnapshotWindow :=
  let? fs := record_of v in
  let? kind := read_name (get fs "kind") in
  match get fs "durationSeconds" with
  | JUndef => Some {| w_kind := kind; w_durationSeconds := None |}
  | JNum d =>
      let? n := to_int d in
      check (0 <? n)%Z && (n <=? 31536000)%Z;;
      Some {| w_kind := kind; w_durationSeconds := Some n |}
  | _ => None
  end.

(** A nonblank text field of the evidence. *)
Definition evidence_text (v : jsval) : option string :=
  let? s := as_string v in check not_blank s;; Some s.

Definition read_evidence (v : jsval) : option VerificationEvidence :=
  let? fs := record_of v in
  let? pv := evidence_text (get fs "providerVersion") in
  let? sh := evidence_text (get fs "accountShape") in
  let? os := evidence_text (get fs "os") in
  let? date := as_string (get fs "date") in
  check is_iso_instant date;;
  Some {| ev_providerVersion := pv; ev_accountShape := sh; ev_os := os; ev_date := date |}.

(** Evidence may accompany a live verification and nothing else. *)
Definition normalizeEvidence (verification : Verification) (v : jsval) :
    option (option VerificationEvidence) :=
  match v with
  | JUndef => Some None
  | _ => check bool_decide (verification = VERIFIED_LIVE);; Some <$> read_evidence v
  end.

Definition normalizeLabels (v : jsval) : option ConnectorLabels :=
  let? fs := record_of v in
  let? verification := read_name (get fs "verification") in
  let? evidence := normalizeEvidence verification (get fs "verificationEvidence") in
  let? origin := read_name (get fs "credentialOrigin") in
  let? status := read_name (get fs "dataInterfaceStatus") in
  let? risk := read_name (get fs "automationRisk") in
  Some {| lb_credentialOrigin := origin; lb_dataInterfaceStatus := status;
          lb_automationRisk := risk; lb_verification := verification;
          lb_verificationEvidence := evidence |}.

Definition normalizeAmounts (raw : list (string * jsval)) : option SnapshotAmounts :=
  let? used := as_num (get raw "usedAmount") in
  let? limit := as_num (get raw "limitAmount") in
  let? currency := read_name (get raw "currency") in
  check is_finite used && is_finite limit;;
  check negb (used <# int 0) && negb (limit <# int 0);;
  check negb (MAX_SNAPSHOT_AMOUNT <# used) && negb (MAX_SNAPSHOT_AMOUNT <# limit);;
  Some {| am_usedAmount := used; am_limitAmount := limit; am_currency := currency |}.

(** [None] is [ok: false]. *)
Definition readAccountId (v : jsval) : option (option string) :=
  match v with
  | JUndef => Some None
  | JStr s => check account_id_pattern s;; Some (Some s)
  | _ => None
  end.

(** [/^[\x20-\x7E]+$/] *)
Definition printable (s : string) : bool := str_forall (in_range 32 126) s.

Definition readAccountLabel (v : jsval) : option string :=
  let? s := as_string v in
  check negb (str_length s =? 0)%Z && (str_length s <=? MAX_ACCOUNT_LABEL_CHARS)%Z;;
  check printable s;; Some s.

Definition readProvenance (v : jsval) : option SnapshotProvenance :=
  match v with
  | JUndef => None
  | JObj fs =>
      match read_name (get fs "sourceKind"), read_name (get fs "observedVia") with
      | Some kind, Some via => Some {| pv_sourceKind := kind; pv_observedVia := via |}
      | _, _ => Some UNKNOWN_PROVENANCE
      end
  | _ => Some UNKNOWN_PROVENANCE
  end.

Definition readWriter (v : jsval) : option SnapshotWriter := read_name v.

(** An optional member of a closed set: refused when present and unknown. *)
Definition read_optional {A} `{Closed A} (v : jsval) : option (option A) :=
  match v with JUndef => Some None | _ => Some <$> read_name v end.

Definition read_retryAt (availability : option SnapshotAvailability) (v : jsval) :
    option (option string) :=
  match v with
  | JUndef => Some None
  | JStr s =>
      check bool_decide (availability = Some rate_limited) && is_iso_instant s;;
      Some (Some s)
  | _ => None
  end.

Definition read_resetAt (v : jsval) : option (option string) :=
  match v with
  | JNull => Some None
  | JStr s => check is_iso_instant s;; Some (Some s)
  | _ => None
  end.

Definition read_value (u : SnapshotUnit) (v : jsval) : option num :=
  let? n := as_num v in
  check is_finite n && negb (n <# int 0);;
  check negb (bool_decide (u = PERCENT) && (int 100 <# n));;
  check negb (int 1000000000000 <# n);; Some n.

Definition normalizeMeter (input : jsval) : option Snapshot :=
  let? raw := record_of input in
  let? kind := read_optional (get raw "kind") in
  let? availability := read_optional (get raw "availability") in
  let? retryAt := read_retryAt availability (get raw "retryAt") in
  let? provider := read_name (get raw "provider") in
  let? meter := as_string (get raw "meter") in
  check safeMeter meter;;
  let? unit := read_name (get raw "unit") in
  let? value := read_value unit (get raw "value") in
  let? window := normalizeWindow (get raw "window") in
  let? labels := normalizeLabels (get raw "labels") in
  let? resetAt := read_resetAt (get raw "resetAt") in
  let? source := read_name (get raw "source") in
  let? precision := read_name (get raw "precision") in
  let? observedAt := as_string (get raw "observedAt") in
  let? expiresAt := as_string (get raw "expiresAt") in
  check is_iso_instant observedAt && is_iso_instant expiresAt;;
  check negb (date_parse expiresAt <t date_parse observedAt);;
  let? accountId := readAccountId (get raw "accountId") in
  let amounts := normalizeAmounts raw in
  Some {| s_provider := provider; s_meter := meter; s_value := value; s_unit := unit;
          s_window := window; s_resetAt := resetAt; s_source := source;
          s_precision := precision; s_observedAt := observedAt; s_expiresAt := expiresAt;
          s_labels := labels;
          s_usedAmount := am_usedAmount <$> amounts;
          s_limitAmount := am_limitAmount <$> amounts;
          s_currency := am_currency <$> amounts;
          s_accountId := accountId;
          s_accountLabel := (let? _ := accountId in readAccountLabel (get raw "accountLabel"));
          s_provenance := readProvenance (get raw "provenance");
          s_writer := readWriter (get raw "writer");
          s_kind := kind; s_availability := availability; s_retryAt := retryAt |}.

Definition normalizeMeters (rawMeters : list jsval) : list Snapshot :=
  omap normalizeMeter rawMeters.

Record NormalizeReport := {
  nr_snapshots : list Snapshot;
  nr_rejected : list ProviderCode;
  nr_dropped : Z }.

(** One turn of the loop; [rejected] is a [Set], so a provider joins once. *)
Definition report_step (r : NormalizeReport) (raw : jsval) : NormalizeReport :=
  match normalizeMeter raw with
  | Some s =>
      {| nr_snapshots := nr_snapshots r ++ [s]; nr_rejected := nr_rejected r;
         nr_dropped := nr_dropped r |}
  | None =>
      {| nr_snapshots := nr_snapshots r;
         nr_rejected :=
           match (let? fs := record_of raw in read_name (get fs "provider")) with
           | Some p => if decide (p ∈ nr_rejected r) then nr_rejected r else nr_rejected r ++ [p]
           | None => nr_rejected r
           end;
         nr_dropped := nr_dropped r + 1 |}
  end.

Definition normalizeMetersReport (rawMeters : list jsval) : NormalizeReport :=
  foldl report_step {| nr_snapshots := []; nr_rejected := []; nr_dropped := 0 |} rawMeters.

(** ** The contract *)

Definition iso (s : string) : Prop := is_iso_instant s = true.

Definition window_ok (w : SnapshotWindow) : Prop :=
  from_option (fun n => 0 < n <= 31536000)%Z True (w_durationSeconds w).

Definition evidence_ok (e : VerificationEvidence) : Prop :=
  not_blank (ev_providerVersion e) = true /\ not_blank (ev_accountShape e) = true /\
  not_blank (ev_os e) = true /\ iso (ev_date e).

Definition labels_ok (l : ConnectorLabels) : Prop :=
  from_option (fun e => lb_verification l = VERIFIED_LIVE /\ evidence_ok e) True
    (lb_verificationEvidence l).

(** A finite number from zero to [hi]. *)
Definition bounded (hi : Z) (n : num) : Prop :=
  exists z, n = Fin z /\ (0 <= z <= hi * one)%Z.

Definition amounts_ok (s : Snapshot) : Prop :=
  match s_usedAmount s, s_limitAmount s, s_currency s with
  | None, None, None => True
  | Some u, Some l, Some _ => bounded 1000000 u /\ bounded 1000000 l
  | _, _, _ => False
  end.

Record well_formed (s : Snapshot) : Prop := {
  wf_meter : safeMeter (s_meter s) = true;
  wf_value : bounded (if decide (s_unit s = PERCENT) then 100 else 1000000000000) (s_value s);
  wf_window : window_ok (s_window s);
  wf_reset : from_option iso True (s_resetAt s);
  wf_observed : iso (s_observedAt s);
  wf_expires : iso (s_expiresAt s);
  wf_order : (date_parse (s_observedAt s) <=t date_parse (s_expiresAt s)) = true;
  wf_labels : labels_ok (s_labels s);
  wf_amounts : amounts_ok s;
  wf_account : from_option (fun a => account_id_pattern a = true) True (s_accountId s);
  wf_account_label :
    from_option (fun l => s_accountId s <> None /\ readAccountLabel (JStr l) = Some l)
      True (s_accountLabel s);
  wf_retry :
    from_option (fun r => s_availability s = Some rate_limited /\ iso r) True (s_retryAt s)
}.
End Normalizer.

Section Lemmas.
Context `{DateHost}.

Lemma read_value_Some u v n :
  read_value u v = Some n <->
  v = JNum n /\ bounded (if decide (u = PERCENT) then 100 else 1000000000000) n.
Proof.
  pose proof one_pos. unfold read_value, bounded, int. split.
  - intros E. split_hyp E. bools. destruct v; simplify_eq/=. split; [done|].
    destruct n as [| |z]; try done. exists z. rewrite !nlt_Fin in *. bools.
    case_decide; subst; simpl in *; split; try done; lia.
  - intros [-> (z & -> & Hz)]. simpl. rewrite !nlt_Fin.
    rewrite (proj2 (Z.ltb_ge z (0 * one))) by lia. simpl.
    case_decide as Hu.
    + rewrite (bool_decide_eq_true_2 (u = PERCENT)) by done.
      by rewrite !(proj2 (Z.ltb_ge _ z)) by lia.
    + rewrite (bool_decide_eq_false_2 (u = PERCENT)) by done.
      simpl. by rewrite (proj2 (Z.ltb_ge _ z)) by lia.
Qed.

Lemma normalizeWindow_ok v w : normalizeWindow v = Some w -> window_ok w.
Proof. unfold normalizeWindow, window_ok. intros E. split_hyp E; bools; simpl; lia. Qed.

Lemma normalizeWindow_raw w : window_ok w -> normalizeWindow (raw_of_window w) = Some w.
Proof.
  destruct w as [k d]. unfold window_ok, raw_of_window, normalizeWindow; simpl. intros Hd.
  solve_get. destruct d as [n|]; simpl in *; [|done].
  rewrite to_int_int, (proj2 (Z.ltb_lt 0 n)), (proj2 (Z.leb_le n 31536000)) by lia. done.
Qed.

Lemma evidence_text_Some v s : evidence_text v = Some s <-> v = JStr s /\ not_blank s = true.
Proof.
  unfold evidence_text. split; [|by intros [-> Hs]; simpl; rewrite Hs].
  intros E. split_hyp E. by destruct v; simplify_eq/=.
Qed.

Lemma read_evidence_ok v e : read_evidence v = Some e -> evidence_ok e.
Proof.
  unfold read_evidence, evidence_ok, iso. intros E.
  split_hyp E. repeat match goal with H : evidence_text _ = Some _ |- _ =>
    apply evidence_text_Some in H as [_ ?] end. done.
Qed.

Lemma read_evidence_raw e : evidence_ok e -> read_evidence (raw_of_evidence e) = Some e.
Proof.
  destruct e as [a b c d]. unfold evidence_ok, iso, raw_of_evidence, read_evidence; simpl.
  intros (Ha & Hb & Hc & Hd).
  solve_get. unfold evidence_text; simpl. by rewrite Ha, Hb, Hc, Hd.
Qed.

Lemma normalizeEvidence_ok ver v o :
  normalizeEvidence ver v = Some o ->
  from_option (fun e => ver = VERIFIED_LIVE /\ evidence_ok e) True o.
Proof.
  unfold normalizeEvidence. intros E. assert (E' :
    o = None \/ exists e, ver = VERIFIED_LIVE /\ read_evidence v = Some e /\ o = Some e).
  { destruct v; simplify_eq; auto; case_match; bools; try done;
      destruct (read_evidence _) eqn:R; simplify_eq/=; eauto. }
  destruct E' as [->|(e & -> & R & ->)]; simpl; eauto using read_evidence_ok.
Qed.

Lemma normalizeEvidence_raw ver o :
  from_option (fun e => ver = VERIFIED_LIVE /\ evidence_ok e) True o ->
  normalizeEvidence ver (opt_val raw_of_evidence o) = Some o.
Proof.
  destruct o as [e|]; [|done]. intros [-> He]. cbn -[read_evidence].
  by rewrite read_evidence_raw.
Qed.

Lemma normalizeLabels_ok v l : normalizeLabels v = Some l -> labels_ok l.
Proof.
  unfold normalizeLabels, labels_ok. intros E. split_hyp E.
  by eapply normalizeEvidence_ok.
Qed.

Lemma normalizeLabels_raw l : labels_ok l -> normalizeLabels (raw_of_labels l) = Some l.
Proof.
  destruct l as [o s r v e]. unfold labels_ok, raw_of_labels, normalizeLabels. simpl.
  intros He. solve_get. by rewrite normalizeEvidence_raw.
Qed.

Lemma bounded_guards hi n :
  bounded hi n <->
  is_finite n = true /\ (n <# int 0) = false /\ (int hi <# n) = false.
Proof.
  unfold bounded. split.
  - intros (z & -> & Hz). unfold int. rewrite !nlt_Fin, !Z.ltb_ge. simpl. lia.
  - destruct n as [| |z]; try (by intros [? _]). unfold int. rewrite !nlt_Fin, !Z.ltb_ge.
    intros (_ & ? & ?). exists z. split; [done|lia].
Qed.

Lemma normalizeAmounts_Some raw a :
  normalizeAmounts raw = Some a <->
  get raw "usedAmount" = JNum (am_usedAmount a) /\
  get raw "limitAmount" = JNum (am_limitAmount a) /\
  get raw "currency" = JStr (name_of (am_currency a)) /\
  bounded 1000000 (am_usedAmount a) /\ bounded 1000000 (am_limitAmount a).
Proof.
  unfold normalizeAmounts. rewrite !bounded_guards. split.
  - intros E. split_hyp E. bools. destruct (get raw "usedAmount"), (get raw "limitAmount");
      simplify_eq/=. apply read_name_Some in E2. split_and!; done.
  - intros (-> & -> & -> & (F1 & G1 & E1) & (F2 & G2 & E2)). simpl.
    unfold MAX_SNAPSHOT_AMOUNT.
    rewrite read_name_of. simpl. rewrite F1, F2, G1, G2, E1, E2. by destruct a.
Qed.

Lemma readAccountId_Some v o :
  readAccountId v = Some o <->
  v = opt_val JStr o /\ from_option (fun a => account_id_pattern a = true) True o.
Proof.
  split.
  - destruct v; simpl; try done; [by intros [= <-]|].
    destruct (account_id_pattern s) eqn:E; [|done]. by intros [= <-].
  - intros [-> Ho]. destruct o as [a|]; simpl in *; [|done]. by rewrite Ho.
Qed.

Lemma readAccountLabel_Some v l :
  readAccountLabel v = Some l -> v = JStr l /\ readAccountLabel (JStr l) = Some l.
Proof.
  intros E. destruct v as [| | | |s| |]; try done.
  assert (s = l) as ->; [|done]. unfold readAccountLabel in E. split_hyp E.
Qed.

Lemma readProvenance_raw p : readProvenance (opt_val raw_of_provenance p) = p.
Proof.
  destruct p as [[k v]|]; [|done]. simpl.
  by solve_get.
Qed.

Lemma read_optional_Some {A} `{ClosedLaws A} v (o : option A) :
  read_optional v = Some o <-> v = opt_val name o.
Proof.
  split.
  - unfold read_optional. destruct v eqn:Ev; try (by intros [= <-]);
      destruct (read_name _) as [a|] eqn:E; try done; apply read_name_Some in E;
      intros [= <-]; by rewrite E.
  - intros ->. destruct o as [a|]; [|done]. simpl. unfold read_optional.
    unfold name at 1. by rewrite read_name_of.
Qed.

Lemma read_retryAt_Some a v o :
  read_retryAt a v = Some o <->
  v = opt_val JStr o /\ from_option (fun r => a = Some rate_limited /\ iso r) True o.
Proof.
  unfold iso. split.
  - destruct v; simpl; try done; [by intros [= <-]|].
    case_match eqn:E; [|done]. bools. by intros [= <-].
  - intros [-> Ho]. destruct o as [r|]; simpl in *; [|done]. destruct Ho as [-> ->].
    by rewrite bool_decide_eq_true_2.
Qed.

Lemma read_resetAt_Some v o :
  read_resetAt v = Some o <->
  v = match o with Some r => JStr r | None => JNull end /\ from_option iso True o.
Proof.
  unfold iso. split.
  - destruct v; simpl; try done; [by intros [= <-]|].
    case_match eqn:E; [|done]. by intros [= <-].
  - intros [-> Ho]. destruct o as [r|]; simpl in *; [|done]. by rewrite Ho.
Qed.

Lemma readWriter_raw w : readWriter (opt_val name w) = w.
Proof. destruct w; simpl; [apply read_name_name|done]. Qed.

Lemma instants_ordered o e :
  iso o -> iso e -> (date_parse e <t date_parse o) = false ->
  (date_parse o <=t date_parse e) = true.
Proof.
  intros (to & Eo & _)%is_iso_instant_parse (te & Ee & _)%is_iso_instant_parse.
  rewrite Eo, Ee. simpl. rewrite Z.ltb_ge, Z.leb_le. done.
Qed.

Lemma normalizeMeter_wf v s : normalizeMeter v = Some s -> well_formed s.
Proof.
  unfold normalizeMeter. intros E. split_hyp E. bools.
  rename select (read_value _ _ = Some _) into Hv. apply read_value_Some in Hv as [_ Hv].
  rename select (read_retryAt _ _ = Some _) into Hr. apply read_retryAt_Some in Hr as [_ Hr].
  rename select (read_resetAt _ = Some _) into Hz. apply read_resetAt_Some in Hz as [_ Hz].
  rename select (readAccountId _ = Some _) into Ha. apply readAccountId_Some in Ha as [_ Ha].
  constructor; simpl; try done; eauto using normalizeWindow_ok, normalizeLabels_ok.
  - by apply instants_ordered.
  - unfold amounts_ok; simpl. destruct (normalizeAmounts _) as [am|] eqn:E; simpl; [|done].
    by apply normalizeAmounts_Some in E as (_ & _ & _ & ? & ?).
  - match goal with |- from_option _ _ (match ?o with _ => _ end) => destruct o end; [|done].
    destruct (readAccountLabel _) as [lb|] eqn:E; simpl; [|done].
    by apply readAccountLabel_Some in E as [_ ?].
Qed.

Lemma ordered_not_before o e :
  (date_parse o <=t date_parse e) = true -> (date_parse e <t date_parse o) = false.
Proof.
  destruct (date_parse o), (date_parse e); simpl; try done.
  rewrite Z.ltb_ge, Z.leb_le. done.
Qed.

Lemma amounts_raw s :
  amounts_ok s ->
  let a := normalizeAmounts (snapshot_fields s) in
  am_usedAmount <$> a = s_usedAmount s /\ am_limitAmount <$> a = s_limitAmount s /\
  am_currency <$> a = s_currency s.
Proof.
  intros Ha a. unfold a. pose proof (raw_fields s) as (Eu & El & Ec & _).
  unfold amounts_ok in Ha.
  destruct (s_usedAmount s) as [u|] eqn:Hu, (s_limitAmount s) as [l|] eqn:Hl,
    (s_currency s) as [c|] eqn:Hc; try done.
  - destruct Ha as [Hbu Hbl].
    assert (normalizeAmounts (snapshot_fields s) = Some
      {| am_usedAmount := u; am_limitAmount := l; am_currency := c |}) as ->; [|done].
    apply normalizeAmounts_Some; simpl. rewrite Eu, El, Ec. done.
  - unfold normalizeAmounts. rewrite Eu. done.
Qed.

Lemma normalizeMeter_raw s : well_formed s -> normalizeMeter (raw_of_snapshot s) = Some s.
Proof.
  intros []. rewrite raw_of_snapshot_fields.
  pose proof (raw_fields s) as (_ & _ & _ & Eacc & Elab & Eprov & Ewr & Ek & Eav & Ert).
  destruct (amounts_raw s wf_amounts0) as (Au & Al & Ac).
  unfold normalizeMeter. simpl record_of. cbv iota.
  rewrite Ek, Eav, Ert, Eacc, Elab, Eprov, Ewr, readProvenance_raw, readWriter_raw.
  rewrite (proj2 (read_optional_Some _ (s_kind s))) by done.
  rewrite (proj2 (read_optional_Some _ (s_availability s))) by done.
  rewrite (proj2 (read_retryAt_Some _ _ (s_retryAt s))) by done.
  rewrite (proj2 (readAccountId_Some _ (s_accountId s))) by done.
  assert (Elabel : (let? _ := s_accountId s in readAccountLabel (opt_val JStr (s_accountLabel s)))
    = s_accountLabel s).
  { destruct (s_accountLabel s); simpl in *; [|by destruct (s_accountId s)].
    destruct wf_account_label0 as [Hne Hl]. by destruct (s_accountId s). }
  rewrite Elabel, Au, Al, Ac. unfold snapshot_fields, raw_of_snapshot. cbn [app].
  solve_get. simpl. unfold iso in *.
  rewrite (proj2 (read_value_Some _ _ _)) by done.
  rewrite normalizeWindow_raw, normalizeLabels_raw by done.
  rewrite (proj2 (read_resetAt_Some _ (s_resetAt s))) by done.
  rewrite wf_meter0, wf_observed0, wf_expires0, ordered_not_before by done. by destruct s.
Qed.

Lemma well_formed_iff s : well_formed s <-> normalizeMeter (raw_of_snapshot s) = Some s.
Proof. split; [apply normalizeMeter_raw|apply normalizeMeter_wf]. Qed.

(** ** Key order is immaterial *)

Lemma normalizeWindow_sortDeep v :
  unique_keys v -> normalizeWindow (sortDeep v) = normalizeWindow v.
Proof.
  intros Hv. unfold normalizeWindow. rewrite record_of_sortDeep.
  destruct (record_of v) as [fs|] eqn:E; simpl; [|done].
  pose proof (unique_keys_record _ _ Hv E) as Hn. rewrite !get_sort_fields by done.
  autorewrite with js_rw. by destruct (get fs "durationSeconds").
Qed.

Lemma read_evidence_sortDeep v : unique_keys v -> read_evidence (sortDeep v) = read_evidence v.
Proof.
  intros Hv. unfold read_evidence, evidence_text. rewrite record_of_sortDeep.
  destruct (record_of v) as [fs|] eqn:E; simpl; [|done].
  pose proof (unique_keys_record _ _ Hv E) as Hn. rewrite !get_sort_fields by done.
  by autorewrite with js_rw.
Qed.

Lemma normalizeLabels_sortDeep v :
  unique_keys v -> normalizeLabels (sortDeep v) = normalizeLabels v.
Proof.
  intros Hv. unfold normalizeLabels. rewrite record_of_sortDeep.
  destruct (record_of v) as [fs|] eqn:E; simpl; [|done].
  pose proof (unique_keys_record _ _ Hv E) as Hn. rewrite !get_sort_fields by done.
  autorewrite with js_rw. pose proof (unique_keys_get _ _ "verificationEvidence" Hv E) as He.
  enough (forall ver, normalizeEvidence ver (sortDeep (get fs "verificationEvidence")) =
    normalizeEvidence ver (get fs "verificationEvidence")) as Hs.
  { destruct (read_name (get fs "verification")); [|done]. by rewrite Hs. }
  intros ver. pose proof (read_evidence_sortDeep _ He) as Hr. unfold normalizeEvidence.
  rewrite Hr. by destruct (get fs "verificationEvidence").
Qed.

Lemma readProvenance_sortDeep v :
  unique_keys v -> readProvenance (sortDeep v) = readProvenance v.
Proof.
  intros Hv. destruct v as [| | | | | |fs]; try done.
  change (sortDeep (JObj fs)) with (JObj (sort_fields fs)). simpl. destruct Hv as [Hn _].
  rewrite !get_sort_fields by done. by autorewrite with js_rw.
Qed.

Lemma normalizeMeter_sortDeep v :
  unique_keys v -> normalizeMeter (sortDeep v) = normalizeMeter v.
Proof.
  intros Hv. unfold normalizeMeter. rewrite record_of_sortDeep.
  destruct (record_of v) as [fs|] eqn:E; simpl; [|done].
  pose proof (unique_keys_record _ _ Hv E) as Hn.
  pose proof (fun k => unique_keys_get _ _ k Hv E) as Hk.
  unfold normalizeAmounts, read_value, readAccountLabel. rewrite !get_sort_fields by done.
  autorewrite with js_rw.
  rewrite normalizeWindow_sortDeep, normalizeLabels_sortDeep, readProvenance_sortDeep by done.
  assert (Ho : forall A (HA : Closed A) w,
    @read_optional A HA (sortDeep w) = read_optional w) by (by intros ? ? []).
  assert (Hr : forall a w, read_retryAt a (sortDeep w) = read_retryAt a w) by (by intros ? []).
  assert (Hz : forall w, read_resetAt (sortDeep w) = read_resetAt w) by (by intros []).
  assert (Ha : forall w, readAccountId (sortDeep w) = readAccountId w) by (by intros []).
  unfold readWriter. autorewrite with js_rw. rewrite !Ho, Hz, Ha.
  destruct (read_optional (get fs "kind")); [|done].
  destruct (read_optional (get fs "availability")); [|done]. by rewrite Hr.
Qed.
End Lemmas.

(** ** Properties *)

(** The part of a reading that money, label, provenance and writer never touch. *)
Definition hard_part (s : Snapshot) : Snapshot :=
  {| s_provider := s_provider s; s_meter := s_meter s; s_value := s_value s;
     s_unit := s_unit s; s_window := s_window s; s_resetAt := s_resetAt s;
     s_source := s_source s; s_precision := s_precision s; s_observedAt := s_observedAt s;
     s_expiresAt := s_expiresAt s; s_labels := s_labels s; s_usedAmount := None;
     s_limitAmount := None; s_currency := None; s_accountId := s_accountId s;
     s_accountLabel := None; s_provenance := None; s_writer := None; s_kind := s_kind s;
     s_availability := s_availability s; s_retryAt := s_retryAt s |}.

Definition soft_keys : list string :=
  ["usedAmount"; "limitAmount"; "currency"; "accountLabel"; "provenance"; "writer"].

(** The provider a refused reading is attributed to. *)
Definition blamed (raw : jsval) : option ProviderCode :=
  let? fs := record_of raw in read_name (get fs "provider").

Section Properties.
Context `{DateHost}.

(** Objects that agree but for soft fields read alike but for those. *)
Lemma normalizeMeter_hard fs fs' :
  (forall k, k ∉ soft_keys -> get fs k = get fs' k) ->
  hard_part <$> normalizeMeter (JObj fs) = hard_part <$> normalizeMeter (JObj fs').
Proof.
  intros Hg. unfold normalizeMeter. simpl record_of. cbv iota.
  rewrite !Hg by (by apply (bool_decide_unpack _)).
  repeat case_match; done.
Qed.

Lemma report_step_fold raws : forall r,
  let r' := foldl report_step r raws in
  nr_snapshots r' = nr_snapshots r ++ normalizeMeters raws /\
  nr_dropped r' = (nr_dropped r + (Z.of_nat (length raws) -
                   Z.of_nat (length (normalizeMeters raws))))%Z /\
  (NoDup (nr_rejected r) -> NoDup (nr_rejected r')) /\
  forall p, p ∈ nr_rejected r' <-> p ∈ nr_rejected r \/
    exists raw, raw ∈ raws /\ normalizeMeter raw = None /\ blamed raw = Some p.
Proof.
  induction raws as [|raw raws IH]; intros r; simpl.
  { rewrite app_nil_r. split_and!; [done|simpl; lia|done|]. intros p. split; [by left|].
    by intros [?|(? & ?%elem_of_nil & _)]. }
  destruct (IH (report_step r raw)) as (E1 & E2 & E3 & E4). rewrite E1, E2.
  unfold report_step at 1 2. unfold normalizeMeters at 2 3. simpl.
  destruct (normalizeMeter raw) as [s|] eqn:En; simpl.
  - split_and!; [by rewrite <- app_assoc|unfold normalizeMeters; lia| |].
    + intros Hr. apply E3. unfold report_step. by rewrite En.
    + intros p. rewrite E4. unfold report_step. rewrite En. simpl.
      setoid_rewrite elem_of_cons. naive_solver.
  - fold (blamed raw). split_and!; [done|unfold normalizeMeters; lia| |].
    + intros Hr. apply E3. unfold report_step. rewrite En. simpl. fold (blamed raw).
      destruct (blamed raw); [|done]. case_decide; [done|].
      apply NoDup_app. split_and!; [done| |apply NoDup_singleton].
      by intros x ? ->%list_elem_of_singleton.
    + intros p. rewrite E4. unfold report_step. rewrite En. simpl. fold (blamed raw).
      setoid_rewrite elem_of_cons.
      destruct (blamed raw) as [q|] eqn:Eb; [|naive_solver].
      case_decide; rewrite ?elem_of_app, ?list_elem_of_singleton; naive_solver.
Qed.

(** C7: whatever document arrives, an accepted reading is well formed: a
    closed provider, unit and source, a bounded finite value (at most 100
    when it is a percentage), a window of at most a year, canonical instants
    with expiry not before observation, evidence only beside a live
    verification, money all together and in range or absent, a valid account
    and a retry instant only for a rate limited meter. *)
Theorem normalizeMeter_accepts_only_well_formed v s :
  normalizeMeter v = Some s -> well_formed s.
Proof. apply normalizeMeter_wf. Qed.

(** Round trip. A well formed snapshot written as canonical JSON, keys
    sorted, is read back as exactly itself, and nothing else is: the
    normalizer accepts the rendering of a snapshot only when it is well
    formed. *)
Theorem normalizeMeter_round_trip s :
  normalizeMeter (sortDeep (raw_of_snapshot s)) = Some s <-> well_formed s.
Proof.
  rewrite normalizeMeter_sortDeep by apply raw_of_snapshot_unique.
  symmetry. apply well_formed_iff.
Qed.

(** Bad money, a bad label, provenance nobody can read or an unknown
    writer never cost a reading: replacing any of those fields by any value
    neither refuses nor admits it, nor changes the rest of it. *)
Theorem soft_fields_never_cost_the_reading fs k x :
  k ∈ soft_keys ->
  hard_part <$> normalizeMeter (JObj (assoc_set k x fs)) =
  hard_part <$> normalizeMeter (JObj fs).
Proof.
  intros Hk. apply normalizeMeter_hard. intros k' Hk'.
  rewrite get_set, decide_False by (by intros ->). done.
Qed.

(** The report counts every refused reading, keeps exactly the accepted
    ones in order, and blames a provider, once, exactly when a refused
    reading named it by its own valid code. *)
Theorem normalizeMetersReport_exact raws :
  let r := normalizeMetersReport raws in
  nr_snapshots r = normalizeMeters raws /\
  (nr_dropped r + Z.of_nat (length (nr_snapshots r)) = Z.of_nat (length raws))%Z /\
  NoDup (nr_rejected r) /\
  forall p, p ∈ nr_rejected r <->
    exists raw, raw ∈ raws /\ normalizeMeter raw = None /\ blamed raw = Some p.
Proof.
  destruct (report_step_fold raws
    {| nr_snapshots := []; nr_rejected := []; nr_dropped := 0 |}) as (E1 & E2 & E3 & E4).
  simpl in *. unfold normalizeMetersReport. split_and!; [done|rewrite E1; lia| |].
  - apply E3. constructor.
  - intros p. rewrite E4. split; [|by right]. by intros [?%elem_of_nil|].
Qed.
End Properties.

Definition sample_row : Snapshot :=
  sample_snapshot CODEX "FIVE_HOUR" (int 42) "2026-01-01T00:00:00.000Z" "2026-01-01T01:00:00.000Z".

Lemma normalizeMeter_accepts_only_well_formed_witness :
  normalizeMeter (H:=strict_host) (raw_of_snapshot sample_row) = Some sample_row /\
  well_formed (H:=strict_host) sample_row.
Proof.
  assert (E : normalizeMeter (H:=strict_host) (raw_of_snapshot sample_row) = Some sample_row)
    by (by vm_compute).
  split; [exact E|]. exact (normalizeMeter_accepts_only_well_formed (H:=strict_host) _ _ E).
Defined.

Lemma soft_fields_never_cost_the_reading_witness :
  hard_part <$> normalizeMeter (H:=strict_host)
    (JObj (assoc_set "accountLabel" (JNum NaN) (default [] (record_of (raw_of_snapshot sample_row))))) =
  hard_part <$> normalizeMeter (H:=strict_host) (JObj (default [] (record_of (raw_of_snapshot sample_row)))).
Proof.
  apply (soft_fields_never_cost_the_reading (H:=strict_host)). by apply (bool_decide_unpack _).
Defined.
