(* ===== verification/Presentation.v ===== *)
(** * How a meter is named

    [provider-presentation.ts] and the contract document it imports,
    [contracts/claude-presentation.json]: the meter codes each provider may
    report, with their labels, order, value semantics and visibility. Codes
    and provider names are upper-cased as the code does; case mapping is
    ASCII. The localised wording ([copy]) is an argument. *)
From S2P Require Import Prelude JsNum Text.
Local Open Scope string_scope.
Local Open Scope Z_scope.
Local Open Scope js_scope.

Inductive ProviderMeterLabelKey :=
| claudeCurrentSession | claudeWeeklyAllModels | claudeWeeklyOAuthApps
| claudeWeeklyFable | claudeWeeklyModel | claudeExtraUsage
| antigravityFiveHourQuota | antigravityWeeklyQuota
| antigravityThirdPartySession | antigravityThirdPartyWeekly
| codexMonthlyCreditLimit | codexCredits
| openrouterKeyAllowance | openrouterAccountBalance
| kimiWeeklyUsed | kimiFiveHourUsed | kimiFiveMinuteUsed | kimiDailyUsed
| kimiSevenDayUsed | kimiUsageUsed
| opencodeFiveHour | opencodeWeekly | opencodeMonthly
| cursorLegacyHidden.

#[export] Instance LabelKey_eq : EqDecision ProviderMeterLabelKey.
Proof. solve_decision. Defined.

(** ** The contract document *)

(** [copy] of claude-presentation.json. *)
Definition CLAUDE_METER_ENGLISH (k : ProviderMeterLabelKey) : string :=
  match k with
  | claudeCurrentSession => "Current session"
  | claudeWeeklyAllModels => "Weekly, all models"
  | claudeWeeklyOAuthApps => "Weekly, OAuth Apps"
  | claudeWeeklyFable => "Weekly, Fable"
  | claudeWeeklyModel => "Weekly, {model}"
  | claudeExtraUsage => "Extra usage"
  | _ => ""
  end.

Definition MODEL_WEEKLY_PREFIX : string := "SEVEN_DAY_".
Definition fablePrefix : string := "Fable".
Definition families : list string := ["Fable"; "Opus"; "Sonnet"; "Haiku"].

Definition session_meters : list string := ["FIVE_HOUR"; "SESSION"].
Definition weekly_meters : list string := ["SEVEN_DAY"].
Definition oauthApps_meters : list string := ["SEVEN_DAY_OAUTH_APPS"].
Definition extra_meters : list string := ["EXTRA_USAGE"].

Definition includes (l : list string) (s : string) : bool := bool_decide (s ∈ l).

(** ** Claude *)

Record ClaudeMeterPresentation := {
  cp_labelKey : ProviderMeterLabelKey;
  cp_defaultLabel : string;
  cp_compactLabel : string;
  cp_order : num;
  cp_model : option string;
  cp_modelScoped : bool }.

Definition is_separator (c : ascii) : bool :=
  Ascii.eqb c "_" || Ascii.eqb c "-" || in_range 9 13 c || (code c =? 32)%Z || (code c =? 160)%Z.

Fixpoint last_char (s : string) : option ascii :=
  match s with
  | EmptyString => None
  | String c EmptyString => Some c
  | String _ s' => last_char s'
  end.

(** [/^\d+$/.test(part)] for a part that is never empty. *)
Definition all_digits (part : string) : bool := str_forall is_digit part.
Definition ends_in_digit (s : string) : bool :=
  match last_char s with Some c => is_digit c | None => false end.

Definition capitalised (part : string) : string :=
  let lower := toLowerCase part in
  if str_eqb lower "oauth" then "OAuth"
  else if str_eqb lower "api" then "API"
  else match lower with
       | String c rest => String (upper_char c) rest
       | EmptyString => ""
       end.

(** One turn of the loop of [modelName]; the words so far, last one first. *)
Definition add_word (words : list string) (part : string) : list string :=
  match words with
  | previous :: before =>
      if all_digits part && ends_in_digit previous then (previous +:+ "." +:+ part) :: before
      else capitalised part :: words
  | [] => [capitalised part]
  end.

Definition modelName (code : string) : option string :=
  let? rest := after_prefix MODEL_WEEKLY_PREFIX code in
  let parts := runs is_separator rest "" in
  check negb (bool_decide (parts = []));;
  let model := join " " (rev (fold_left add_word parts [])) in
  check existsb (fun family => str_eqb model family || starts_with (family +:+ " ") model) families;;
  Some model.

(** A localised text for a label, where the surface has one. *)
Definition Copy := ProviderMeterLabelKey -> option string.
Definition no_copy : Copy := fun _ => None.

Definition labelOf (key : ProviderMeterLabelKey) (model : option string) (copy : Copy) : string :=
  replaceAll "{model}" (default "" model) (default (CLAUDE_METER_ENGLISH key) (copy key)).

Definition first_word (s : string) : string := default "" (head (split_on " " s "")).

Definition compactModelLabel (model : string) (familyCodes : list string) : string :=
  let familyModels :=
    filter (fun m => starts_with fablePrefix m = true)
      (omap (fun code => modelName (toUpperCase code)) familyCodes) in
  if (length (remove_dups familyModels) <=? 1)%nat then "fable7d"
  else first_word (toLowerCase model) +:+ "7d".

Definition isClaudeModelScopedMeter (code : string) : bool :=
  match modelName (toUpperCase code) with Some _ => true | None => false end.

Definition fixed_claude (key : ProviderMeterLabelKey) (compact : string) (order : Z) :
    ClaudeMeterPresentation :=
  {| cp_labelKey := key; cp_defaultLabel := CLAUDE_METER_ENGLISH key;
     cp_compactLabel := compact; cp_order := int order; cp_model := None;
     cp_modelScoped := false |}.

Definition isFable (model : string) : bool :=
  str_eqb model fablePrefix || starts_with (fablePrefix +:+ " ") model.

Definition model_order (model : string) : Z :=
  if isFable model then 30
  else if str_eqb model "Opus" then 40
  else if str_eqb model "Sonnet" then 41
  else 42.

Definition claudeMeterPresentation (code : string) (familyCodes : list string) :
    option ClaudeMeterPresentation :=
  let meter := toUpperCase code in
  if includes session_meters meter then Some (fixed_claude claudeCurrentSession "5h" 10)
  else if includes weekly_meters meter then Some (fixed_claude claudeWeeklyAllModels "7d" 20)
  else if includes oauthApps_meters meter then
    Some (fixed_claude claudeWeeklyOAuthApps "oauth7d" 21)
  else
    match modelName meter with
    | Some model =>
        let key := if isFable model then claudeWeeklyFable else claudeWeeklyModel in
        Some {| cp_labelKey := key;
                cp_defaultLabel := labelOf key (Some model) no_copy;
                cp_compactLabel :=
                  if isFable model then compactModelLabel model familyCodes
                  else first_word (toLowerCase model) +:+ "7d";
                cp_order := int (model_order model);
                cp_model := Some model;
                cp_modelScoped := true |}
    | None =>
        if includes extra_meters meter then Some (fixed_claude claudeExtraUsage "extra" 50)
        else None
    end.

Definition claudeMeterLabel (code : string) (copy : Copy) : option string :=
  (fun p => labelOf (cp_labelKey p) (cp_model p) copy) <$> claudeMeterPresentation code [].

Definition claudeMeterRank (code : string) : option num :=
  cp_order <$> claudeMeterPresentation code [].

Definition claudeMeterCompactLabel (code : string) : option string :=
  cp_compactLabel <$> claudeMeterPresentation code [].

(** ** Antigravity *)

Record AntigravityMeterPresentation := {
  ap_labelKey : ProviderMeterLabelKey;
  ap_defaultLabel : string;
  ap_compactLabel : string;
  ap_order : num }.

Definition antigravity_entry (key : ProviderMeterLabelKey) (label compact : string) (order : Z) :=
  {| ap_labelKey := key; ap_defaultLabel := label; ap_compactLabel := compact;
     ap_order := int order |}.

Definition ANTIGRAVITY_PRESENTATION : list (string * AntigravityMeterPresentation) :=
  [("FIVE_HOUR", antigravity_entry antigravityFiveHourQuota "5 hour quota" "5h" 10);
   ("SEVEN_DAY", antigravity_entry antigravityWeeklyQuota "Weekly quota" "7d" 20);
   ("THIRD_PARTY_SESSION",
     antigravity_entry antigravityThirdPartySession "Third party 5 hour quota" "3p5h" 30);
   ("THIRD_PARTY_WEEKLY",
     antigravity_entry antigravityThirdPartyWeekly "Third party weekly quota" "3p7d" 40)].

Definition antigravityMeterPresentation (code : string) : option AntigravityMeterPresentation :=
  assoc_get (toUpperCase code) ANTIGRAVITY_PRESENTATION.

Definition antigravityMeterLabel (code : string) : option string :=
  ap_defaultLabel <$> antigravityMeterPresentation code.

Definition antigravityMeterRank (code : string) : option num :=
  ap_order <$> antigravityMeterPresentation code.

Definition antigravityMeterCompactLabel (code : string) : option string :=
  ap_compactLabel <$> antigravityMeterPresentation code.

(** ** Every provider *)

Inductive ProviderMeterValueSemantics := used | balance.

#[export] Instance Semantics_eq : EqDecision ProviderMeterValueSemantics.
Proof. solve_decision. Defined.

Record ProviderMeterPresentation := {
  pp_labelKey : ProviderMeterLabelKey;
  pp_defaultLabel : string;
  pp_compactLabel : string;
  pp_order : num;
  pp_valueSemantics : ProviderMeterValueSemantics;
  pp_visible : bool;
  pp_displayAvailability : bool }.

Definition presentation_with (semantics : ProviderMeterValueSemantics) (visible avail : bool)
    (key : ProviderMeterLabelKey) (label compact : string) (order : num) :
    ProviderMeterPresentation :=
  {| pp_labelKey := key; pp_defaultLabel := label; pp_compactLabel := compact;
     pp_order := order; pp_valueSemantics := semantics; pp_visible := visible;
     pp_displayAvailability := avail |}.

(** [presentation] with its defaults: used, visible, availability not shown. *)
Definition presentation := presentation_with used true false.

Definition FIXED_PRESENTATION : list (string * ProviderMeterPresentation) :=
  [("CODEX:MONTHLY_CREDIT_LIMIT",
     presentation codexMonthlyCreditLimit "Monthly credit limit" "Monthly" (int 40));
   ("CODEX:CREDITS",
     presentation_with balance true true codexCredits "Credits" "Credits" (int 100));
   ("OPENROUTER:KEY_LIMIT",
     presentation_with used true true openrouterKeyAllowance "Key allowance" "key" (int 10));
   ("OPENROUTER:ACCOUNT_BALANCE",
     presentation_with balance true true openrouterAccountBalance "Account balance" "Balance"
       (int 100));
   ("KIMI:WEEKLY", presentation kimiWeeklyUsed "Weekly limit" "Weekly used" (int 10));
   ("KIMI:FIVE_HOUR", presentation kimiFiveHourUsed "5 hour limit" "5h used" (int 20));
   ("KIMI:FIVE_MINUTE", presentation kimiFiveMinuteUsed "5 minute limit" "5m used" (int 24));
   ("KIMI:DAILY", presentation kimiDailyUsed "Daily limit" "1d used" (int 25));
   ("KIMI:SEVEN_DAY", presentation kimiSevenDayUsed "7 day limit" "7d used" (int 30));
   ("OPENCODE:FIVE_HOUR", presentation opencodeFiveHour "5 hour limit" "5h" (int 10));
   ("OPENCODE:SEVEN_DAY", presentation opencodeWeekly "Weekly limit" "7d" (int 20));
   ("OPENCODE:MONTHLY", presentation opencodeMonthly "Monthly limit" "Monthly" (int 30));
   ("CURSOR:AUTO", presentation_with used false false cursorLegacyHidden "" "" (int 90));
   ("CURSOR:API", presentation_with used false false cursorLegacyHidden "" "" (int 90));
   ("CURSOR:INCLUDED", presentation_with used false false cursorLegacyHidden "" "" (int 90))].

Definition claudeProviderPresentation (code : string) (familyCodes : list string) :
    option ProviderMeterPresentation :=
  let? found := claudeMeterPresentation code familyCodes in
  Some (presentation (cp_labelKey found) (cp_defaultLabel found) (cp_compactLabel found)
          (cp_order found)).

Definition antigravityProviderPresentation (code : string) : option ProviderMeterPresentation :=
  let? found := antigravityMeterPresentation code in
  Some (presentation (ap_labelKey found) (ap_defaultLabel found) (ap_compactLabel found)
          (ap_order found)).

(** A whole number read from digits, when [Number.isSafeInteger] accepts it:
    the digits of [2^53] and above round to at least [2^53]. *)
Definition safe_number (digits : string) : option Z :=
  let n := digits_value 0 digits in check n <? 2 ^ 53;; Some n.

(** A named limit, an underscore and a positive number: the limit and the
    digits. *)
Definition match_repeated (meter : string) : option (string * string) :=
  let try base rest :=
    match after_prefix (base +:+ "_") meter with
    | Some s =>
        match take_positive s with Some (d, "") => Some (base, d) | _ => rest end
    | None => rest
    end in
  try "WEEKLY" (try "FIVE_HOUR" (try "FIVE_MINUTE" (try "DAILY" (try "SEVEN_DAY" None)))).

(** [WINDOW_] and one positive number, or two with an underscore between. *)
Definition match_dynamic (meter : string) : option (string * option string) :=
  let? s := after_prefix "WINDOW_" meter in
  let? (seconds, rest) := take_positive s in
  match rest with
  | EmptyString => Some (seconds, None)
  | String "_" rest =>
      match take_positive rest with Some (d, "") => Some (seconds, Some d) | _ => None end
  | _ => None
  end.

Definition window_unit (seconds : Z) : Z * string * string :=
  if seconds mod 86400 =? 0 then (seconds / 86400, "day", "d")
  else if seconds mod 3600 =? 0 then (seconds / 3600, "hour", "h")
  else if seconds mod 60 =? 0 then (seconds / 60, "minute", "m")
  else (seconds, "second", "s").

Definition kimi_repeated (meter : string) : option ProviderMeterPresentation :=
  let? (name, digits) := match_repeated meter in
  let? base := assoc_get ("KIMI:" +:+ name) FIXED_PRESENTATION in
  let? ordinal := safe_number digits in
  check 2 <=? ordinal;;
  Some {| pp_labelKey := pp_labelKey base;
          pp_defaultLabel := pp_defaultLabel base +:+ " " +:+ decimal ordinal;
          pp_compactLabel := pp_compactLabel base +:+ " " +:+ decimal ordinal;
          pp_order := pp_order base ⊕ int ordinal ⊖ int 1;
          pp_valueSemantics := pp_valueSemantics base;
          pp_visible := pp_visible base;
          pp_displayAvailability := pp_displayAvailability base |}.

Definition kimi_dynamic (meter : string) : option ProviderMeterPresentation :=
  let? (digits, second) := match_dynamic meter in
  let? seconds := safe_number digits in
  let? ordinal := match second with None => Some 1 | Some d => safe_number d end in
  check 1 <=? ordinal;;
  let '(count, unit_name, compact) := window_unit seconds in
  let suffix := if ordinal =? 1 then "" else " " +:+ decimal ordinal in
  Some (presentation kimiUsageUsed
          (decimal count +:+ " " +:+ unit_name +:+ " limit" +:+ suffix)
          (decimal count +:+ compact +:+ " used" +:+ suffix)
          (int 40 ⊕ int ordinal ⊖ int 1)).

Definition providerMeterPresentation (provider code : string) (familyCodes : list string) :
    option ProviderMeterPresentation :=
  let normalizedProvider := toUpperCase provider in
  let meter := toUpperCase code in
  if str_eqb normalizedProvider "CLAUDE" then claudeProviderPresentation meter familyCodes
  else if str_eqb normalizedProvider "ANTIGRAVITY" then antigravityProviderPresentation meter
  else
    match assoc_get (normalizedProvider +:+ ":" +:+ meter) FIXED_PRESENTATION with
    | Some fixed => Some fixed
    | None =>
        if str_eqb normalizedProvider "KIMI" then
          match kimi_repeated meter with
          | Some p => Some p
          | None =>
              match kimi_dynamic meter with
              | Some p => Some p
              | None => Some (presentation kimiUsageUsed "Usage limit" "Used" (int 40))
              end
          end
        else None
    end.

(** The wording a surface shows: the provider's own label, localised where the
    surface has a text, with the ordinal of a repeated Kimi limit and the
    duration of an unnamed one. *)
Definition providerMeterLabel (provider code : string) (copy : Copy) : option string :=
  if str_eqb (toUpperCase provider) "CLAUDE" then claudeMeterLabel code copy
  else
    let? found := providerMeterPresentation provider code [] in
    let kimi := str_eqb (toUpperCase provider) "KIMI" in
    match copy (pp_labelKey found) with
    | None => Some (pp_defaultLabel found)
    | Some localized =>
        match (if kimi then match_repeated (toUpperCase code) else None) with
        | Some (_, ordinal) => Some (localized +:+ " " +:+ ordinal)
        | None =>
            match (if kimi then match_dynamic (toUpperCase code) else None) with
            | Some (_, second) =>
                Some (localized +:+ " (" +:+ before_first " used" (pp_compactLabel found) +:+ ")" +:+
                      match second with Some d => " " +:+ d | None => "" end)
            | None => Some localized
            end
        end
    end.

Definition providerMeterRank (provider code : string) : option num :=
  pp_order <$> providerMeterPresentation provider code [].

Definition providerMeterCompactLabel (provider code : string) : option string :=
  pp_compactLabel <$> providerMeterPresentation provider code [].

Definition providerMeterVisible (provider code : string) : bool :=
  from_option pp_visible true (providerMeterPresentation provider code []).

(** ** Examples from the code's own vocabulary *)

Example fable_model : modelName "SEVEN_DAY_FABLE_5_1" = Some "Fable 5.1".
Proof. reflexivity. Qed.

Example unknown_family : modelName "SEVEN_DAY_ATLAS" = None.
Proof. reflexivity. Qed.

Example kimi_window :
  pp_defaultLabel <$> providerMeterPresentation "KIMI" "WINDOW_7200_2" [] = Some "2 hour limit 2".
Proof. reflexivity. Qed.

Example kimi_label :
  providerMeterLabel "kimi" "window_7200_2" (fun _ => Some "Uso") = Some "Uso (2h) 2".
Proof. reflexivity. Qed.

(** ** Laws *)

(** Codes are read without regard to case. *)
Lemma providerMeterPresentation_upper provider code fams :
  providerMeterPresentation (toUpperCase provider) (toUpperCase code) fams =
  providerMeterPresentation provider code fams.
Proof. unfold providerMeterPresentation. by rewrite !toUpperCase_idem. Qed.

(** A Kimi meter always has a presentation: no reading of it is dropped for
    want of a name. *)
Lemma kimi_total code fams : is_Some (providerMeterPresentation "KIMI" code fams).
Proof.
  unfold providerMeterPresentation. simpl str_eqb.
  replace (toUpperCase "KIMI") with "KIMI" by reflexivity. simpl str_eqb.
  destruct (assoc_get _ _); [done|].
  change (str_eqb "KIMI" "CLAUDE") with false. change (str_eqb "KIMI" "ANTIGRAVITY") with false.
  change (str_eqb "KIMI" "KIMI") with true. simpl.
  destruct (kimi_repeated _); [done|]. by destruct (kimi_dynamic _).
Qed.
