(* ===== verification/Schedule.v ===== *)
(** * Freshness, schedules and forecasts

    [freshness.ts], [schedule.ts] and [forecast.ts] of packages/core/src: how a
    reading ages, when a connection may next ask its provider, and when a
    meter runs out. The clock and the random source are arguments, as in the
    code; arithmetic is binary64 throughout. *)
From S2P Require Import Prelude JsNum JsDate JsValue Types.
Local Open Scope Z_scope.
Local Open Scope js_scope.

Definition REFRESH_BACKOFF_CEILING_SECONDS : num := int 3600.
Definition REFRESH_RETRY_AFTER_CEILING_SECONDS : num := int 86400.
Definition REFRESH_JITTER_RATIO : num := lit 2 10.
Definition SCHEDULE_EXEMPT_BASE_SECONDS : num := int 0.
Definition REFRESH_FALLBACK_BASE_SECONDS : num := int 300.
Definition SCHEDULE_EXEMPT_INSTANT : string := "9999-12-31T23:59:59.999Z".

Section Freshness.
Context `{DateHost}.

Definition freshness (observedAt expiresAt now : string) : SnapshotState :=
  match date_parse observedAt, date_parse expiresAt, date_parse now with
  | Some observed, Some expires, Some current =>
      if (expires <? observed) || (current <? observed) then st_unknown
      else if current <=? expires then st_fresh else st_stale
  | _, _, _ => st_unknown
  end.
End Freshness.

(** ** The refresh schedule *)

Record RefreshInput := {
  ri_attempt : num;
  ri_baseSeconds : num;
  ri_retryAfterSeconds : option num;   (** [None]: absent or [null] *)
  ri_random : option num               (** [None]: the source threw *)
}.

Definition usableRandom (random : option num) : num :=
  match random with
  | Some value => if is_finite value then nmin (nmax value (int 0)) (int 1) else lit 1 2
  | None => lit 1 2
  end.

Definition usableBase (baseSeconds : num) : num :=
  if negb (is_finite baseSeconds) || (baseSeconds <# int 0) then REFRESH_FALLBACK_BASE_SECONDS
  else if baseSeconds ==# SCHEDULE_EXEMPT_BASE_SECONDS then Inf false
  else nmin baseSeconds REFRESH_BACKOFF_CEILING_SECONDS.

Definition usableAttempt (attempt : num) : num :=
  if negb (is_finite attempt) || (attempt <=# int 0) then int 0
  else nmin (nfloor attempt) (int 32).

Definition usableRetryAfter (value : option num) : option num :=
  let? value := value in
  check is_finite value && negb (value <=# int 0);;
  Some (nmin value REFRESH_RETRY_AFTER_CEILING_SECONDS).

(** [Math.pow(2, n)] for the whole [n] from 0 to 32 [usableAttempt] returns. *)
Definition pow2 (n : num) : num :=
  match to_int n with Some k => int (2 ^ k) | None => NaN end.

(** Our own delay before jitter. *)
Definition backoff_of (input : RefreshInput) : num :=
  nmin (usableBase (ri_baseSeconds input) ⊗ pow2 (usableAttempt (ri_attempt input)))
    REFRESH_BACKOFF_CEILING_SECONDS.

Definition jitter_of (random : option num) : num :=
  int 1 ⊕ (usableRandom random ⊗ int 2 ⊖ int 1) ⊗ REFRESH_JITTER_RATIO.

Definition refreshDelaySeconds (input : RefreshInput) : num :=
  let base := usableBase (ri_baseSeconds input) in
  if base ==# Inf false then base
  else
    let jittered := backoff_of input ⊗ jitter_of (ri_random input) in
    match usableRetryAfter (ri_retryAfterSeconds input) with
    | None => jittered
    | Some retryAfter => nmax jittered retryAfter
    end.

Section Schedule.
Context `{DateHost}.

Definition nextRefreshAt (now : string) (input : RefreshInput) : option string :=
  let? current := date_parse now in
  if ri_baseSeconds input ==# SCHEDULE_EXEMPT_BASE_SECONDS then Some SCHEDULE_EXEMPT_INSTANT
  else
    let milliseconds := int current ⊕ nround (refreshDelaySeconds input ⊗ int 1000) in
    check is_finite milliseconds;;
    to_iso <$> time_clip milliseconds.

Definition isDue (nextAt : option string) (now : string) : bool :=
  match date_parse now with
  | None => false
  | Some current =>
      match nextAt with
      | None => true
      | Some nextAt =>
          match date_parse nextAt with
          | None => true
          | Some scheduled => scheduled <=? current
          end
      end
  end.
End Schedule.

(** ** Forecast *)

Record Forecast := { fc_burnRatePerHour : num; fc_hoursToExhaustion : num }.

Section Forecasting.
Context `{DateHost}.

Definition forecast (previous current : Snapshot) : option Forecast :=
  check bool_decide (s_provider previous = s_provider current) &&
        str_eqb (s_meter previous) (s_meter current) &&
        bool_decide (s_unit previous = PERCENT) && bool_decide (s_unit current = PERCENT) &&
        is_finite (s_value previous) && is_finite (s_value current) &&
        negb (s_value previous <# int 0) && negb (int 100 <# s_value previous) &&
        negb (s_value current <# int 0) && negb (int 100 <# s_value current);;
  let elapsedHours :=
    (time_num (date_parse (s_observedAt current)) ⊖
     time_num (date_parse (s_observedAt previous))) ⊘ int 3600000 in
  check is_finite elapsedHours && negb (elapsedHours <=# int 0);;
  let burnRatePerHour := (s_value current ⊖ s_value previous) ⊘ elapsedHours in
  check is_finite burnRatePerHour && negb (burnRatePerHour <=# int 0);;
  let remaining := nmax (int 0) (int 100 ⊖ s_value current) in
  Some {| fc_burnRatePerHour := burnRatePerHour;
          fc_hoursToExhaustion :=
            if remaining ==# int 0 then int 0 else remaining ⊘ burnRatePerHour |}.
End Forecasting.

(** ** Lemmas *)

Lemma half_is : lit 1 2 = Fin (2 ^ 1073).
Proof. by vm_compute. Qed.

Lemma half_le_one : 2 ^ 1073 <= one.
Proof. by vm_compute. Qed.

Lemma usableRandom_range r : exists w, usableRandom r = Fin w /\ 0 <= w <= one.
Proof.
  pose proof one_pos. pose proof half_le_one.
  destruct r as [[| |z]|]; unfold usableRandom; simpl;
    try (exists (2 ^ 1073); split; [apply half_is|lia]).
  unfold int. rewrite nmax_Fin, nmin_Fin. eexists. split; [done|]. lia.
Qed.

Definition jitter_lo : num := int 1 ⊕ int (-1) ⊗ REFRESH_JITTER_RATIO.
Definition jitter_hi : num := int 1 ⊕ int 1 ⊗ REFRESH_JITTER_RATIO.

Lemma ratio_nonneg : exists c, REFRESH_JITTER_RATIO = Fin c /\ 0 <= c.
Proof.
  destruct (finite_Fin REFRESH_JITTER_RATIO) as [c E]; [by vm_compute|].
  exists c. split; [done|]. apply Z.leb_le.
  change (nle (Fin 0) (Fin c) = true). rewrite <- E. by vm_compute.
Qed.

Lemma jitter_lo_is : jitter_lo = lit 8 10.
Proof. by vm_compute. Qed.

Lemma jitter_hi_is : jitter_hi = lit 12 10.
Proof. by vm_compute. Qed.

(** The whole jitter stays between the two ends, whatever the source gives. *)
Lemma jitter_range r :
  exists w, jitter_of r = Fin w /\ (lit 8 10 <=# Fin w) = true /\ (Fin w <=# lit 12 10) = true.
Proof.
  pose proof one_pos. destruct (usableRandom_range r) as (u & Eu & Hu).
  destruct ratio_nonneg as (c & Ec & Hc).
  assert (H2 : exists v, Fin u ⊗ int 2 = Fin v /\ 0 <= v <= 2 * one).
  { apply (nle_between 0 _ (2 * one)).
    - replace (Fin 0) with (Fin 0 ⊗ int 2) by (by vm_compute). apply nmul_mono; lia.
    - replace (Fin (2 * one)) with (int 1 ⊗ int 2) by (by vm_compute). apply nmul_mono; lia. }
  destruct H2 as (v & Ev & Hv).
  assert (H3 : exists x, Fin v ⊖ int 1 = Fin x /\ - one <= x <= one).
  { apply nle_between.
    - replace (Fin (- one)) with (int 0 ⊖ int 1) by (by vm_compute).
      apply round_ratio_mono; lia.
    - replace (Fin one) with (int 2 ⊖ int 1) by (by vm_compute).
      apply round_ratio_mono; lia. }
  destruct H3 as (x & Ex & Hx).
  assert (Hlo : (int (-1) ⊗ Fin c <=# Fin x ⊗ Fin c) = true) by (apply nmul_mono; lia).
  assert (Hhi : (Fin x ⊗ Fin c <=# int 1 ⊗ Fin c) = true) by (apply nmul_mono; lia).
  assert (Ejit : jitter_of r = int 1 ⊕ (Fin x ⊗ Fin c))
    by (unfold jitter_of; by rewrite Eu, Ev, Ex, Ec).
  destruct (finite_Fin (int (-1) ⊗ Fin c)) as (a & Ea); [rewrite <- Ec; by vm_compute|].
  destruct (finite_Fin (int 1 ⊗ Fin c)) as (b & Eb); [rewrite <- Ec; by vm_compute|].
  rewrite Ea, Eb in *.
  destruct (nle_between _ _ _ Hlo Hhi) as (y & Ey & Hy).
  rewrite Ejit, Ey, <- jitter_lo_is, <- jitter_hi_is. unfold jitter_lo, jitter_hi.
  rewrite Ec, Ea, Eb.
  assert (L1 : (int 1 ⊕ Fin a <=# int 1 ⊕ Fin y) = true) by (apply nadd_mono; lia).
  assert (L2 : (int 1 ⊕ Fin y <=# int 1 ⊕ Fin b) = true) by (apply nadd_mono; lia).
  destruct (finite_Fin (int 1 ⊕ Fin a)) as (p & Ep);
    [rewrite <- Ea, <- Ec; by vm_compute|].
  destruct (finite_Fin (int 1 ⊕ Fin b)) as (q & Eq');
    [rewrite <- Eb, <- Ec; by vm_compute|].
  rewrite Ep, Eq' in *.
  destruct (nle_between _ _ _ L1 L2) as (w & Ew & Hw).
  exists w. rewrite Ew in L1, L2. exact (conj Ew (conj L1 L2)).
Qed.

Lemma usableBase_range b :
  (b ==# int 0) = false ->
  exists w, usableBase b = Fin w /\ 0 < w <= 3600 * one /\
            ((int 1 <=# b) = true -> one <= w).
Proof.
  pose proof one_pos. intros Hb. unfold usableBase.
  assert (H300 : exists w, REFRESH_FALLBACK_BASE_SECONDS = Fin w /\ 0 < w <= 3600 * one /\
            ((int 1 <=# b) = true -> one <= w))
    by (exists (300 * one); split; [done|lia]).
  destruct b as [| |z]; simpl; try done. unfold int in *. rewrite nlt_Fin, neq_Fin in *.
  destruct (z <? 0 * one) eqn:Ez; simpl; [done|]. bools.
  unfold SCHEDULE_EXEMPT_BASE_SECONDS, int. rewrite neq_Fin, (proj2 (Z.eqb_neq _ _)) by done.
  unfold REFRESH_BACKOFF_CEILING_SECONDS, int. rewrite nmin_Fin. eexists. split; [done|].
  rewrite nle_Fin, Z.leb_le. lia.
Qed.

Lemma usableAttempt_range a : exists k, usableAttempt a = int k /\ 0 <= k <= 32.
Proof.
  pose proof one_pos. unfold usableAttempt.
  destruct a as [| |z]; simpl; try (exists 0; split; [done|lia]).
  unfold int. rewrite nle_Fin. destruct (z <=? 0 * one) eqn:E; [exists 0; split; [done|lia]|].
  bools. exists (Z.min (z / one) 32). rewrite nmin_Fin. split.
  - f_equal. destruct (Z.min_spec (z / one) 32) as [[? ->]|[? ->]]; [|f_equal]; nia.
  - assert (0 <= z / one) by (apply Z.div_pos; lia). lia.
Qed.

Lemma backoff_range input :
  (ri_baseSeconds input ==# int 0) = false ->
  exists w, backoff_of input = Fin w /\ 0 <= w <= 3600 * one /\
            ((int 1 <=# ri_baseSeconds input) = true -> one <= w).
Proof.
  pose proof one_pos. intros Hb. unfold backoff_of.
  destruct (usableBase_range _ Hb) as (b & -> & Hb' & Hb1).
  destruct (usableAttempt_range (ri_attempt input)) as (k & -> & Hk).
  unfold pow2. rewrite to_int_int. unfold REFRESH_BACKOFF_CEILING_SECONDS, int.
  assert (1 <= 2 ^ k) by (apply (Z.pow_le_mono_r 2 0); lia).
  assert (L0 : (Fin 0 <=# Fin b ⊗ Fin (2 ^ k * one)) = true).
  { replace (Fin 0) with (Fin 0 ⊗ Fin 0) by (by vm_compute). apply nmul_mono2; nia. }
  assert (L1 : one <= b -> (Fin one <=# Fin b ⊗ Fin (2 ^ k * one)) = true).
  { intros. replace (Fin one) with (int 1 ⊗ int 1) by (by vm_compute). apply nmul_mono2; nia. }
  destruct (Fin b ⊗ Fin (2 ^ k * one)) as [|[]|z]; try done.
  - rewrite nmin_Inf_l. eexists. split; [done|]. lia.
  - rewrite nle_Fin, Z.leb_le in L0. rewrite nmin_Fin. eexists. split; [done|].
    split; [lia|]. intros Hone. specialize (L1 (Hb1 Hone)).
    rewrite nle_Fin, Z.leb_le in L1. lia.
Qed.

Lemma usableRetryAfter_range v r :
  usableRetryAfter v = Some r -> exists w, r = Fin w /\ 0 < w <= 86400 * one.
Proof.
  pose proof one_pos. unfold usableRetryAfter. intros E. split_hyp E. bools.
  destruct n as [| |z]; try done. unfold int in *. rewrite nle_Fin in *. bools.
  unfold REFRESH_RETRY_AFTER_CEILING_SECONDS, int. rewrite nmin_Fin. eexists. split; [done|]. lia.
Qed.

Lemma nmul_one_lo : int 1 ⊗ lit 8 10 = lit 8 10.
Proof. by vm_compute. Qed.

(** The jittered backoff: between four fifths and six fifths of it, and still
    four fifths of a second when the base is a second or more. *)
Lemma jittered_range input (w : Z) :
  backoff_of input = Fin w -> 0 <= w <= 3600 * one ->
  exists j, backoff_of input ⊗ jitter_of (ri_random input) = Fin j /\
    0 <= j <= 7200 * one /\
    (backoff_of input ⊗ lit 8 10 <=# Fin j) = true /\
    (Fin j <=# backoff_of input ⊗ lit 12 10) = true /\
    (one <= w -> (lit 8 10 <=# Fin j) = true).
Proof.
  pose proof one_pos. intros -> Hw.
  destruct (jitter_range (ri_random input)) as (k & -> & Hlo & Hhi).
  destruct (finite_Fin (lit 8 10)) as (lo & Elo); [by vm_compute|].
  destruct (finite_Fin (lit 12 10)) as (hi & Ehi); [by vm_compute|].
  assert (Hlo0 : (int 0 <=# lit 8 10) = true) by (by vm_compute).
  assert (Hhi2 : (lit 12 10 <=# int 2) = true) by (by vm_compute).
  pose proof nmul_one_lo as Hone. rewrite Elo, Ehi in *. unfold int in *.
  rewrite nle_Fin, Z.leb_le in Hlo, Hhi, Hlo0, Hhi2.
  assert (L0 : (Fin 0 <=# Fin w ⊗ Fin k) = true).
  { replace (Fin 0) with (Fin 0 ⊗ Fin 0) by (by vm_compute). apply nmul_mono2; lia. }
  assert (L1 : (Fin w ⊗ Fin k <=# Fin (7200 * one)) = true).
  { replace (Fin (7200 * one)) with (Fin (3600 * one) ⊗ Fin (2 * one))
      by (apply (nmul_int 3600 2); lia). apply nmul_mono2; lia. }
  destruct (nle_between _ _ _ L0 L1) as (j & Ej & Hj).
  exists j. rewrite <- Ej. split_and!; [done|lia|lia| | |]; [apply nmul_mono2; lia..|].
  intros Hw1. rewrite <- Hone. apply nmul_mono2; lia.
Qed.

Lemma refreshDelaySeconds_eq input :
  (ri_baseSeconds input ==# int 0) = false ->
  refreshDelaySeconds input =
  match usableRetryAfter (ri_retryAfterSeconds input) with
  | None => backoff_of input ⊗ jitter_of (ri_random input)
  | Some retryAfter => nmax (backoff_of input ⊗ jitter_of (ri_random input)) retryAfter
  end.
Proof.
  intros Hb. unfold refreshDelaySeconds.
  by destruct (usableBase_range _ Hb) as (b & -> & _).
Qed.

(** The delay is a finite number of seconds from 0 to a day, and at least
    four fifths of a second when the base is a second or more. *)
Lemma refreshDelaySeconds_range input :
  (ri_baseSeconds input ==# int 0) = false ->
  exists d, refreshDelaySeconds input = Fin d /\ 0 <= d <= 86400 * one /\
    ((int 1 <=# ri_baseSeconds input) = true -> (lit 8 10 <=# Fin d) = true).
Proof.
  pose proof one_pos. intros Hb. rewrite refreshDelaySeconds_eq by done.
  destruct (backoff_range _ Hb) as (w & Ew & Hw & Hw1).
  destruct (jittered_range _ _ Ew Hw) as (j & -> & Hj & _ & _ & Hj1).
  destruct (usableRetryAfter _) as [r|] eqn:Er.
  - apply usableRetryAfter_range in Er as (v & -> & Hv). rewrite nmax_Fin.
    eexists. split; [done|]. split; [lia|]. intros H1.
    apply nle_trans with (Fin j); [by auto|]. apply Fin_le. lia.
  - exists j. split_and!; [done|lia|lia|by auto].
Qed.

(** The delay before the next read. Whatever the attempt count, the random
    source and the header, a connection that is not exempt waits a finite time
    of at most a day; at least four fifths of its own backoff; never less than
    the provider's Retry-After; and, when the provider sent none, at most six
    fifths of the backoff. *)
Theorem refreshDelaySeconds_bounds input :
  (ri_baseSeconds input ==# int 0) = false ->
  is_finite (refreshDelaySeconds input) = true /\
  (int 0 <=# refreshDelaySeconds input) = true /\
  (refreshDelaySeconds input <=# int 86400) = true /\
  (backoff_of input ⊗ lit 8 10 <=# refreshDelaySeconds input) = true /\
  match usableRetryAfter (ri_retryAfterSeconds input) with
  | Some retryAfter => (retryAfter <=# refreshDelaySeconds input) = true
  | None => (refreshDelaySeconds input <=# backoff_of input ⊗ lit 12 10) = true
  end.
Proof.
  pose proof one_pos. intros Hb.
  destruct (refreshDelaySeconds_range _ Hb) as (d & Ed & Hd & _).
  rewrite Ed. unfold int. split_and!; [done|apply Fin_le; lia|apply Fin_le; lia|..].
  all: destruct (backoff_range _ Hb) as (w & Ew & Hw & _);
    destruct (jittered_range _ _ Ew Hw) as (j & Ej & Hj & Hlo & Hhi & _);
    rewrite refreshDelaySeconds_eq in Ed by done; rewrite Ej in Ed;
    destruct (usableRetryAfter _) as [r|] eqn:Er; try (injection Ed as ->; done).
  all: apply usableRetryAfter_range in Er as (v & -> & Hv);
    rewrite nmax_Fin in Ed; injection Ed as <-.
  - apply nle_trans with (Fin j); [done|apply Fin_le; lia].
  - apply Fin_le. lia.
Qed.

Definition sample_input (retryAfter : option num) : RefreshInput :=
  {| ri_attempt := int 3; ri_baseSeconds := int 60;
     ri_retryAfterSeconds := retryAfter; ri_random := Some (lit 1 4) |}.

Lemma refreshDelaySeconds_bounds_witness :
  refreshDelaySeconds (sample_input (Some (int 7200))) = int 7200 /\
  is_finite (refreshDelaySeconds (sample_input None)) = true.
Proof.
  split; [by vm_compute|].
  assert (Hb : (ri_baseSeconds (sample_input None) ==# int 0) = false) by (by vm_compute).
  exact (proj1 (refreshDelaySeconds_bounds (sample_input None) Hb)).
Defined.

Lemma nround_range z :
  0 <= z <= 86400000 * one -> exists k, nround (Fin z) = int k /\ 0 <= k <= 86400000 /\
    (one <= 2 * z -> 1 <= k).
Proof.
  pose proof one_pos. intros Hz. exists ((2 * z + one) / (2 * one)). split; [done|]. split.
  - split; [apply Z.div_pos; lia|]. apply Z.lt_succ_r, Z.div_lt_upper_bound; lia.
  - intros. apply Z.div_le_lower_bound; lia.
Qed.

(** The whole milliseconds a delay comes to. *)
Lemma delay_milliseconds input :
  (ri_baseSeconds input ==# int 0) = false ->
  exists k, nround (refreshDelaySeconds input ⊗ int 1000) = int k /\ 0 <= k <= 86400000 /\
    ((int 1 <=# ri_baseSeconds input) = true -> 1 <= k).
Proof.
  pose proof one_pos. intros Hb.
  destruct (refreshDelaySeconds_range _ Hb) as (d & -> & Hd & Hd1).
  assert (L0 : (Fin 0 <=# Fin d ⊗ int 1000) = true).
  { replace (Fin 0) with (Fin 0 ⊗ Fin 0) by (by vm_compute). apply nmul_mono2; lia. }
  assert (L1 : (Fin d ⊗ int 1000 <=# Fin (86400000 * one)) = true).
  { replace (Fin (86400000 * one)) with (int 86400 ⊗ int 1000)
      by (apply (nmul_int 86400 1000); lia). apply nmul_mono; lia. }
  assert (L2 : (int 1 <=# ri_baseSeconds input) = true -> (int 1 <=# Fin d ⊗ int 1000) = true).
  { intros Hb1%Hd1. apply nle_trans with (lit 8 10 ⊗ int 1000); [by vm_compute|].
    destruct (finite_Fin (lit 8 10)) as (lo & Elo); [by vm_compute|]. rewrite Elo in *.
    rewrite nle_Fin, Z.leb_le in Hb1. apply nmul_mono; lia. }
  destruct (nle_between _ _ _ L0 L1) as (p & Ep & Hp). rewrite Ep in *.
  destruct (nround_range p Hp) as (k & Ek & Hk & Hk1). exists k. split_and!; [done|lia|lia|].
  intros Hb1%L2. unfold int in Hb1. rewrite nle_Fin, Z.leb_le in Hb1. apply Hk1. lia.
Qed.

Lemma is_finite_int n : is_finite (int n) = true.
Proof. done. Qed.

Lemma max_time_exact n : Z.abs n <= max_time -> Z.abs n < 2 ^ 53.
Proof. unfold max_time. lia. Qed.

Section ScheduleLaws.
Context `{DateHost}.

Lemma nextRefreshAt_eq now current input k :
  date_parse now = Some current -> (ri_baseSeconds input ==# int 0) = false ->
  nround (refreshDelaySeconds input ⊗ int 1000) = int k ->
  Z.abs (current + k) <= max_time ->
  nextRefreshAt now input = Some (to_iso (current + k)).
Proof.
  intros Hnow Hb Hk Hmax. unfold nextRefreshAt, SCHEDULE_EXEMPT_BASE_SECONDS.
  rewrite Hnow, Hb, Hk. rewrite nadd_int by (by apply max_time_exact).
  rewrite is_finite_int. by rewrite time_clip_int.
Qed.

Lemma later_instant now current k :
  date_parse now = Some current -> current + 86400000 <= max_time -> 0 <= k <= 86400000 ->
  current <= current + k <= current + 86400000 /\ Z.abs (current + k) <= max_time /\
  date_parse (to_iso (current + k)) = Some (current + k).
Proof.
  intros Hnow%date_parse_valid Hmax Hk. unfold valid_time in Hnow. bools.
  assert (Z.abs (current + k) <= max_time) by (unfold max_time in *; lia).
  split_and!; [lia|lia|done|]. apply date_parse_to_iso. by apply Z.leb_le.
Qed.

(** Scheduling and being due agree. For a connection with a background
    cadence, [nextRefreshAt] always yields an instant while the clock is a
    day short of the end of time; it lies within the coming day, [isDue]
    answers no before it and yes from it on; and with a base of a second or
    more it lies strictly in the future, so a read just scheduled is not
    due. *)
Theorem nextRefreshAt_then_isDue now current input :
  date_parse now = Some current -> current + 86400000 <= max_time ->
  (ri_baseSeconds input ==# int 0) = false ->
  exists at_ next, nextRefreshAt now input = Some at_ /\ date_parse at_ = Some next /\
    current <= next <= current + 86400000 /\
    (forall later instant, date_parse later = Some instant ->
      isDue (Some at_) later = (next <=? instant)) /\
    ((int 1 <=# ri_baseSeconds input) = true -> isDue (Some at_) now = false).
Proof.
  intros Hnow Hmax Hb. destruct (delay_milliseconds _ Hb) as (k & Ek & Hk & Hk1).
  destruct (later_instant _ _ _ Hnow Hmax Hk) as (Hn & Habs & Hp).
  exists (to_iso (current + k)), (current + k).
  split; [by apply nextRefreshAt_eq|]. split; [exact Hp|]. split; [exact Hn|]. split.
  - intros later instant Hl. unfold isDue. by rewrite Hl, Hp.
  - intros Hb1. specialize (Hk1 Hb1). clear Hb Hb1 Ek. unfold isDue.
    rewrite Hnow, Hp. apply Z.leb_gt. lia.
Qed.

(** Freshness. A reading is fresh exactly between its observation and its
    expiry (both included), stale exactly after an expiry that follows its
    observation, and unknown whenever a clock is unreadable, the reading
    lies in the future or its expiry precedes it; and a reading that is not
    fresh any more never becomes fresh again. *)
Theorem freshness_exact observedAt expiresAt now :
  (freshness observedAt expiresAt now = st_fresh <->
    (date_parse observedAt <=t date_parse now) = true /\ (date_parse now <=t date_parse expiresAt) = true) /\
  (freshness observedAt expiresAt now = st_stale <->
    (date_parse observedAt <=t date_parse expiresAt) = true /\ (date_parse expiresAt <t date_parse now) = true) /\
  (forall later, (date_parse now <=t date_parse later) = true ->
    freshness observedAt expiresAt now = st_stale ->
    freshness observedAt expiresAt later = st_stale).
Proof.
  unfold freshness, tle, tlt.
  destruct (date_parse observedAt) as [o|], (date_parse expiresAt) as [e|],
    (date_parse now) as [n|]; try (split_and!; naive_solver).
  split_and!.
  - destruct (e <? o) eqn:?, (n <? o) eqn:?, (n <=? e) eqn:?, (o <=? n) eqn:?; simpl;
      bools; try lia; naive_solver.
  - destruct (e <? o) eqn:?, (n <? o) eqn:?, (n <=? e) eqn:?, (e <? n) eqn:?,
      (o <=? e) eqn:?; simpl; bools; try lia; naive_solver.
  - intros later. destruct (date_parse later) as [l|]; [|done]. intros Hl. bools.
    destruct (e <? o) eqn:?, (n <? o) eqn:?, (n <=? e) eqn:?, (l <? o) eqn:?,
      (l <=? e) eqn:?; simpl; bools; try lia; done.
Qed.
End ScheduleLaws.

Lemma nextRefreshAt_then_isDue_witness :
  exists at_, nextRefreshAt (H:=strict_host) "2026-01-01T00:00:00.000Z" (sample_input None) = Some at_ /\
    isDue (H:=strict_host) (Some at_) "2026-01-01T00:00:00.000Z" = false.
Proof.
  destruct (nextRefreshAt_then_isDue (H:=strict_host) "2026-01-01T00:00:00.000Z" 1767225600000
    (sample_input None)) as (at_ & next & E & _ & _ & _ & D);
    [by vm_compute|by vm_compute|by vm_compute|].
  exists at_. split; [exact E|]. apply D. by vm_compute.
Defined.

Lemma freshness_exact_witness :
  (freshness (H:=strict_host) "2026-01-01T00:00:00.000Z" "2026-01-01T01:00:00.000Z"
     "2026-01-01T02:00:00.000Z" = st_stale) /\
  (freshness (H:=strict_host) "2026-01-01T00:00:00.000Z" "2026-01-01T01:00:00.000Z"
     "2026-01-02T00:00:00.000Z" = st_stale).
Proof.
  split; [by vm_compute|].
  apply (proj2 (proj2 (freshness_exact (H:=strict_host) "2026-01-01T00:00:00.000Z"
    "2026-01-01T01:00:00.000Z" "2026-01-01T02:00:00.000Z"))); by vm_compute.
Defined.

(** ** Forecasts *)

Section ForecastLaws.
Context `{DateHost}.

Lemma later_observed a b :
  (((time_num b ⊖ time_num a) ⊘ int 3600000) <=# int 0) = false ->
  is_finite ((time_num b ⊖ time_num a) ⊘ int 3600000) = true ->
  exists ta tb h, a = Some ta /\ b = Some tb /\ ta < tb /\
    (time_num b ⊖ time_num a) ⊘ int 3600000 = Fin h /\ 0 < h.
Proof.
  intros Hp Hf. destruct a as [ta|], b as [tb|]; try done.
  destruct (positive_finite _ Hf Hp) as (h & Eh & Hh). exists ta, tb, h.
  split_and!; try done. cbn [time_num] in Hp, Hf, Eh. pose proof one_pos.
  apply ndiv_sign in Hp; [|lia|done]. apply nsub_sign in Hp.
  by apply (Z.mul_lt_mono_pos_r one).
Qed.

Lemma percentage_range x :
  is_finite x = true -> (x <# int 0) = false -> (int 100 <# x) = false ->
  exists v, x = Fin v /\ 0 <= v <= 100 * one.
Proof.
  intros [v ->]%finite_Fin H0 H100. exists v. split; [done|].
  unfold int in *. rewrite nlt_Fin, Z.ltb_ge in H0, H100. lia.
Qed.

Lemma burn_of p c h :
  0 < h -> is_finite ((Fin c ⊖ Fin p) ⊘ Fin h) = true ->
  ((Fin c ⊖ Fin p) ⊘ Fin h <=# int 0) = false ->
  p < c /\ exists b, (Fin c ⊖ Fin p) ⊘ Fin h = Fin b /\ 0 < b.
Proof.
  intros Hh Hf Hp. split; [|by apply positive_finite].
  apply nsub_sign. by apply (ndiv_sign _ h).
Qed.

Lemma hours_left c b :
  0 <= c <= 100 * one -> 0 < b ->
  let hours := if nmax (int 0) (int 100 ⊖ Fin c) ==# int 0 then int 0
               else nmax (int 0) (int 100 ⊖ Fin c) ⊘ Fin b in
  (int 0 <=# hours) = true /\ (c = 100 * one -> hours = int 0).
Proof.
  intros Hc Hb hours. subst hours. change (int 0) with (Fin 0). unfold int.
  split.
  - assert (L0 : (Fin 0 <=# Fin (100 * one) ⊖ Fin c) = true)
      by (apply (round_ratio_nonneg (100 * one + - c) 1); lia).
    assert (L1 : (Fin (100 * one) ⊖ Fin c <=# Fin (100 * one)) = true).
    { apply nle_trans with (int 100 ⊖ int 0); [apply round_ratio_mono; lia|by vm_compute]. }
    destruct (nle_between _ _ _ L0 L1) as (r & -> & Hr).
    rewrite nmax_Fin, Z.max_r, neq_Fin by lia.
    destruct (r =? 0); [by apply Fin_le|]. apply (ndiv_nonneg r b); lia.
  - intros ->. unfold nsub, nneg, nadd. rewrite Z.add_opp_diag_r, round_ratio_0 by done.
    by rewrite nmax_Fin.
Qed.

(** The forecast never predicts from nothing. When it answers, both
    readings are percentages of the same meter from 0 to 100, the second was
    taken strictly later and is strictly higher, the burn rate is a finite
    positive number, and the hours left are a number of at least zero, zero
    when the meter is full. *)
Theorem forecast_sound previous current f :
  forecast previous current = Some f ->
  s_provider previous = s_provider current /\ s_meter previous = s_meter current /\
  (exists p c tp tc, s_value previous = Fin p /\ s_value current = Fin c /\
     0 <= p /\ p < c <= 100 * one /\
     date_parse (s_observedAt previous) = Some tp /\
     date_parse (s_observedAt current) = Some tc /\ tp < tc) /\
  (exists b, fc_burnRatePerHour f = Fin b /\ 0 < b) /\
  (int 0 <=# fc_hoursToExhaustion f) = true /\
  (s_value current = int 100 -> fc_hoursToExhaustion f = int 0).
Proof.
  pose proof one_pos as Hone. unfold forecast. intros E.
  guard_hyp E as Eg. guard_hyp E as Eh. guard_hyp E as Eb. injection E as <-. bools.
  match goal with H : str_eqb _ _ = true |- _ => apply str_eqb_eq in H end.
  destruct (percentage_range (s_value previous)) as (p & Ep & Hp); [done..|].
  destruct (percentage_range (s_value current)) as (c & Ec & Hc); [done..|].
  destruct (later_observed (date_parse (s_observedAt previous)) (date_parse (s_observedAt current)))
    as (tp & tc & h & Etp & Etc & Ht & Ehh & Hh); [done..|].
  rewrite Ehh, Ep, Ec in *.
  destruct (burn_of p c h) as (Hpc & b & Ebb & Hb); [done..|].
  cbn [fc_burnRatePerHour fc_hoursToExhaustion]. rewrite Ebb.
  destruct (hours_left c b) as [Hh0 Hh100]; [lia..|].
  split_and!; [done..| | |exact Hh0|by intros [= ->]; apply Hh100].
  - exists p, c, tp, tc. repeat split; try done; lia.
  - by exists b.
Qed.
End ForecastLaws.

Definition reading_at (value : num) (observedAt : string) : Snapshot :=
  sample_snapshot CODEX "FIVE_HOUR" value observedAt "2026-01-01T06:00:00.000Z".

Lemma forecast_sound_witness :
  exists f, forecast (H:=strict_host) (reading_at (int 20) "2026-01-01T00:00:00.000Z")
      (reading_at (int 40) "2026-01-01T02:00:00.000Z") = Some f /\
    fc_hoursToExhaustion f = int 6 /\ (int 0 <=# fc_hoursToExhaustion f) = true.
Proof.
  eexists. split; [vm_compute; reflexivity|]. split; [by vm_compute|].
  assert (E : forecast (H:=strict_host) (reading_at (int 20) "2026-01-01T00:00:00.000Z")
    (reading_at (int 40) "2026-01-01T02:00:00.000Z") =
    Some {| fc_burnRatePerHour := int 10; fc_hoursToExhaustion := int 6 |}) by (by vm_compute).
  exact (proj1 (proj2 (proj2 (proj2 (proj2 (forecast_sound (H:=strict_host) _ _ _ E)))))).
Defined.
