(* ===== verification/DataRules.v ===== *)
(** * Which readings a surface may show

    [data-rules.ts]: display eligibility, the freshness a source earns, the
    retention horizon, why a row is not shown, and the projection of the cache
    onto a surface. A [Date] that cannot be printed throws in the code: the
    functions that print one return [None] then. *)
From S2P Require Import Prelude JsNum JsDate JsValue Text Types Presentation.
Local Open Scope string_scope.
Local Open Scope Z_scope.
Local Open Scope js_scope.

Definition RETENTION_MILLISECONDS : Z := 7 * 86400000.
Definition CLAUDE_WEEK_SECONDS : Z := 604800.

Definition provenance_is (k : SnapshotSourceKind) (row : Snapshot) : bool :=
  match s_provenance row with Some p => bool_decide (pv_sourceKind p = k) | None => false end.

Definition via_is (v : SnapshotObservedVia) (row : Snapshot) : bool :=
  match s_provenance row with Some p => bool_decide (pv_observedVia p = v) | None => false end.

(** [providerMeterPresentation(row.provider, row.meter)] *)
Definition row_presentation (row : Snapshot) : option ProviderMeterPresentation :=
  providerMeterPresentation (name_of (s_provider row)) (s_meter row) [].

(** A Claude model family, alone or followed by an underscore. *)
Definition weekly_family (meter : string) : bool :=
  existsb (fun family =>
    match after_prefix ("SEVEN_DAY_" +:+ family) meter with
    | Some rest => str_eqb rest "" || starts_with "_" rest
    | None => false
    end) ["FABLE"; "OPUS"; "SONNET"; "HAIKU"].

Definition isSnapshotDisplayEligible (row : Snapshot) : bool :=
  if negb (bool_decide (s_provider row = CLAUDE)) then true
  else if str_eqb (s_meter row) "ACQUISITION" then true
  else if bool_decide (row_presentation row = None) then false
  else if negb (starts_with "SEVEN_DAY" (s_meter row)) then true
  else
    let weeklyMeter :=
      str_eqb (s_meter row) "SEVEN_DAY" || str_eqb (s_meter row) "SEVEN_DAY_OAUTH_APPS" ||
      weekly_family (s_meter row) in
    if negb weeklyMeter || provenance_is statusline_payload row then false
    else default CLAUDE_WEEK_SECONDS (w_durationSeconds (s_window row)) =? CLAUDE_WEEK_SECONDS.

Definition CLAUDE_FRESHNESS_SECONDS : num :=
  int 300 ⊕ int 300 ⊘ int 5 ⊕ int 60 ⊕ int 2 ⊗ int 15 ⊕ int 15.

(** ** Freshness of a source *)

Inductive PolicyAvailability := pa_unavailable | pa_fresh | pa_stale.

#[export] Instance PolicyAvailability_eq : EqDecision PolicyAvailability.
Proof. solve_decision. Defined.

Record FreshnessPolicy := {
  fp_ttlSeconds : num; fp_expiresAt : string; fp_availability : PolicyAvailability }.

Definition desktopIntervals (p : ProviderCode) : num :=
  match p with
  | CLAUDE | GEMINI_CLI => int 900
  | ANTIGRAVITY => int 600
  | CODEX | CURSOR | GROK | KIMI | OPENROUTER | OPENCODE => int 300
  | MANUAL => int 900
  end.

Definition ttl_seconds (sourceClass : SnapshotSource) (provider : ProviderCode)
    (writer : option SnapshotWriter) : num :=
  let native := bool_decide (sourceClass = native_payload) in
  let interval :=
    if native then int 60
    else if bool_decide (writer = Some desktop) then desktopIntervals provider else int 900 in
  if bool_decide (provider = CLAUDE) && negb native then CLAUDE_FRESHNESS_SECONDS
  else interval ⊗ lit 12 10 ⊕ int 60.

Section Rules.
Context `{DateHost}.

(** [None]: [toISOString] threw, on a deadline beyond the last date. *)
Definition freshnessPolicy (row : Snapshot) (now : string) : option FreshnessPolicy :=
  let ttl := ttl_seconds (s_source row) (s_provider row) (s_writer row) in
  let observed := time_num (date_parse (s_observedAt row)) in
  let now := time_num (date_parse now) in
  let deadline := observed ⊕ ttl ⊗ int 1000 in
  let? expiresAt :=
    (if is_finite deadline then to_iso <$> time_clip deadline else Some (s_observedAt row)) in
  Some {| fp_ttlSeconds := ttl;
          fp_expiresAt := expiresAt;
          fp_availability :=
            if negb (is_finite now) || negb (is_finite observed) || (now <# observed)
            then pa_unavailable
            else if now <# deadline then pa_fresh else pa_stale |}.

(** [Date.parse(row.resetAt ?? "")] *)
Definition reset_instant (row : Snapshot) : option Z := date_parse (default "" (s_resetAt row)).

Definition resetPassed (row : Snapshot) (now : string) : bool :=
  match reset_instant row with
  | Some reset => Some reset <=t date_parse now
  | None => false
  end.

Definition retained (now : Z) (row : Snapshot) : bool :=
  Some (now - RETENTION_MILLISECONDS) <=t date_parse (s_observedAt row).

Definition retainSnapshots (rows : list Snapshot) (now : Z) : list Snapshot :=
  filter (fun row => retained now row = true) rows.

(** ** Why a row is not shown *)

Inductive FixKind := reconnect | open_app | sign_in | switch_on | unsupported.

#[export] Instance FixKind_eq : EqDecision FixKind.
Proof. solve_decision. Defined.

Record ConnectionFlag := {
  cf_provider : ProviderCode; cf_accountId : option string;
  cf_reason : string; cf_fixKind : FixKind }.

Definition fixKind (reason : string) : FixKind :=
  if str_eqb reason "disabled" then switch_on
  else if includes ["missing_credentials"; "account_unresolved"] reason then sign_in
  else if includes ["expired_credentials"; "stale"; "rate_limited"; "network_failure";
                    "not_measured"; "awaiting_statusline"] reason then open_app
  else if includes ["quota_unavailable"; "unlimited"; "placeholder"; "schema_drift"] reason
       then unsupported
  else reconnect.

Definition boundedSpend (row : Snapshot) : bool :=
  match s_usedAmount row, s_limitAmount row with
  | Some u, Some l =>
      is_finite u && (int 0 <=# u) && is_finite l && (int 0 <# l) &&
      bool_decide (s_currency row = Some USD)
  | _, _ => false
  end.

(** [Some None]: the row has nothing against it. The outer [None] is the
    exception [freshnessPolicy] may throw. *)
Definition displayReason (row : Snapshot) (now : string) : option (option string) :=
  match s_availability row with
  | Some a => Some (Some (name_of a))
  | None =>
      if bool_decide (w_kind (s_window row) = w_unknown) && negb (boundedSpend row) ||
         bool_decide (s_kind row = Some runtime_info) || str_eqb (s_meter row) "ACQUISITION"
      then Some (Some "placeholder")
      else if negb (is_finite (s_value row)) || (s_value row <# int 0) ||
              bool_decide (s_unit row = PERCENT) && (int 100 <# s_value row)
      then Some (Some "quota_unavailable")
      else
        let? policy := freshnessPolicy row now in
        Some (if bool_decide (fp_availability policy = pa_fresh) then None else Some "stale")
  end.

Definition claudeStatusline (row : Snapshot) : bool :=
  bool_decide (s_provider row = CLAUDE) && provenance_is statusline_payload row &&
  via_is claude_code_statusline row.

Definition heldReason (row : Snapshot) (reason : option string) (now : string) : option string :=
  let current := date_parse now in
  let observed := date_parse (s_observedAt row) in
  if negb (bool_decide (reason = Some "stale")) || negb (observed <=t current) then reason
  else if claudeStatusline row then
    if current <t reset_instant row then None else Some "awaiting_statusline"
  else
    match current, observed with
    | Some c, Some o => if c - o <=? RETENTION_MILLISECONDS then None else reason
    | _, _ => reason
    end.

(** ** The projection *)

(** An account id that is present and not the empty text. *)
Definition truthy_account (row : Snapshot) : option string :=
  match s_accountId row with
  | Some a => if str_eqb a "" then None else Some a
  | None => None
  end.

(** The connected accounts of each provider, when the caller knows them. *)
Definition Active := option (list (ProviderCode * list string)).

Definition accounts_of (active : Active) (p : ProviderCode) : option (list string) :=
  let? m := active in assoc_get p m.

Definition display_availability (row : Snapshot) : bool :=
  match row_presentation row with Some p => pp_displayAvailability p | None => false end.

Definition not_connected (active : Active) (row : Snapshot) : bool :=
  match accounts_of active (s_provider row) with
  | None => false
  | Some accounts =>
      match truthy_account row with
      | Some a => negb (includes accounts a)
      | None => true
      end
  end.

Definition row_reason (active : Active) (row : Snapshot) (now : string) :
    option (option string) :=
  match s_availability row, display_availability row with
  | Some a, false => Some (Some (name_of a))
  | availability, _ =>
      if not_connected active row then
        Some (Some (if bool_decide (truthy_account row = None) && claudeStatusline row
                    then "account_unresolved" else "account_not_connected"))
      else
        let? reason :=
          match availability with Some _ => Some None | None => displayReason row now end in
        Some (heldReason row reason now)
  end.

Definition shown_reason (active : Active) (row : Snapshot) (now : string) :
    option (option string) :=
  let? reason := row_reason active row now in
  Some (if bool_decide (reason = None) && resetPassed row now
        then Some (if claudeStatusline row then "awaiting_statusline" else "stale")
        else reason).

(** A row neither eligible nor visible is passed over in silence. *)
Definition considered (row : Snapshot) : bool :=
  isSnapshotDisplayEligible row &&
  match row_presentation row with Some p => pp_visible p | None => true end.

Definition flag_key (row : Snapshot) (reason : string) : string :=
  join ":" [name_of (s_provider row); default "" (s_accountId row); reason].

Record Projection := {
  pj_snapshots : list Snapshot; pj_flags : list (string * ConnectionFlag) }.

Definition project_step (active : Active) (now : string) (acc : option Projection)
    (row : Snapshot) : option Projection :=
  let? p := acc in
  if negb (considered row) then Some p
  else
    let? shown := shown_reason active row now in
    match shown with
    | None =>
        let? policy := freshnessPolicy row now in
        Some {| pj_snapshots := pj_snapshots p ++ [with_expiresAt (fp_expiresAt policy) row];
                pj_flags := pj_flags p |}
    | Some reason =>
        Some {| pj_snapshots := pj_snapshots p;
                pj_flags :=
                  assoc_set (flag_key row reason)
                    {| cf_provider := s_provider row; cf_accountId := truthy_account row;
                       cf_reason := reason; cf_fixKind := fixKind reason |}
                    (pj_flags p) |}
    end.

Definition projectSnapshots (rows : list Snapshot) (now : string) (active : Active) :
    option (list Snapshot * list ConnectionFlag) :=
  let? p := foldl (project_step active now)
              (Some {| pj_snapshots := []; pj_flags := [] |}) rows in
  Some (pj_snapshots p, snd <$> pj_flags p).
End Rules.

(** ** Laws *)

Lemma intervals_scale n :
  n ∈ [60; 300; 600; 900] -> int n ⊗ lit 12 10 ⊕ int 60 = int (n * 6 / 5 + 60).
Proof. rewrite !elem_of_cons, elem_of_nil. intros [->|[->|[->|[->|[]]]]]; by vm_compute. Qed.

Lemma claude_ttl : CLAUDE_FRESHNESS_SECONDS = int 465.
Proof. by vm_compute. Qed.

Lemma ttl_cases sourceClass provider writer :
  exists n, ttl_seconds sourceClass provider writer = int n /\ 0 < n <= 1140.
Proof.
  unfold ttl_seconds. rewrite claude_ttl.
  destruct (bool_decide (provider = CLAUDE) && _); [by exists 465|].
  assert (Hi : exists n, (if bool_decide (sourceClass = native_payload) then int 60
      else if bool_decide (writer = Some desktop) then desktopIntervals provider else int 900)
      = int n /\ n ∈ [60; 300; 600; 900]).
  { destruct (bool_decide (sourceClass = native_payload)); [by exists 60; repeat constructor|].
    destruct (bool_decide (writer = Some desktop)); [|by exists 900; repeat constructor].
    destruct provider; simpl; eexists; (split; [reflexivity|repeat constructor]). }
  destruct Hi as (n & -> & Hn). rewrite intervals_scale by done.
  exists (n * 6 / 5 + 60). split; [done|]. revert Hn. rewrite !elem_of_cons, elem_of_nil.
  by intros [->|[->|[->|[->|[]]]]].
Qed.

Section Laws.
Context `{DateHost}.

(** The deadline of a reading, exact, and when it throws. *)
Lemma freshnessPolicy_parsed row now t :
  date_parse (s_observedAt row) = Some t ->
  exists n, ttl_seconds (s_source row) (s_provider row) (s_writer row) = int n /\ 0 < n <= 1140 /\
    freshnessPolicy row now =
    (check Z.abs (t + n * 1000) <=? max_time;;
     Some {| fp_ttlSeconds := int n; fp_expiresAt := to_iso (t + n * 1000);
             fp_availability :=
               match date_parse now with
               | Some c => if c <? t then pa_unavailable
                           else if c <? t + n * 1000 then pa_fresh else pa_stale
               | None => pa_unavailable
               end |}).
Proof.
  intros Ht. destruct (ttl_cases (s_source row) (s_provider row) (s_writer row)) as (n & En & Hn).
  exists n. split; [done|]. split; [done|].
  assert (Hv := date_parse_valid _ _ Ht). unfold valid_time in Hv. bools.
  unfold freshnessPolicy. rewrite En, Ht. simpl time_num.
  rewrite nmul_int by lia. rewrite nadd_int by (unfold max_time in *; lia).
  change (is_finite (int (t + n * 1000))) with true. cbv iota.
  unfold max_time. destruct (Z.abs (t + n * 1000) <=? 8640000000000000) eqn:E.
  - bools. rewrite time_clip_int by done. simpl. do 2 f_equal.
    destruct (date_parse now) as [c|]; [|done]. simpl time_num.
    change (is_finite (int c)) with true. change (is_finite (int t)) with true. simpl orb.
    by rewrite !int_lt.
  - unfold int, time_clip. rewrite Z.quot_mul by (pose proof one_pos; lia). by rewrite E.
Qed.

Lemma freshnessPolicy_unparsed row now :
  date_parse (s_observedAt row) = None ->
  exists policy, freshnessPolicy row now = Some policy /\
    fp_availability policy = pa_unavailable.
Proof.
  intros Ht. destruct (ttl_cases (s_source row) (s_provider row) (s_writer row)) as (n & En & Hn).
  unfold freshnessPolicy. rewrite En, Ht. simpl time_num.
  replace (NaN ⊕ int n ⊗ int 1000) with NaN by (by rewrite nmul_int by lia).
  simpl. eexists. split; [done|]. simpl. by rewrite orb_true_r.
Qed.

(** When the projection cannot throw: every observation leaves room for its
    deadline before the last date. *)
Definition printable_deadline (row : Snapshot) : Prop :=
  forall t, date_parse (s_observedAt row) = Some t -> t + 1140000 <= max_time.

Lemma deadline_in_range t n :
  t + 1140000 <= max_time -> valid_time t = true -> 0 < n <= 1140 ->
  (Z.abs (t + n * 1000) <=? max_time) = true.
Proof.
  unfold valid_time. intros ? Ht ?. apply Z.leb_le in Ht. apply Z.leb_le.
  unfold max_time in *. lia.
Qed.

Lemma freshnessPolicy_total row now :
  printable_deadline row -> is_Some (freshnessPolicy row now).
Proof.
  intros Hp. destruct (date_parse (s_observedAt row)) as [t|] eqn:Et.
  - destruct (freshnessPolicy_parsed row now t Et) as (n & _ & Hn & ->).
    rewrite deadline_in_range; eauto with js.
  - destruct (freshnessPolicy_unparsed row now Et) as (p & -> & _). by eexists.
Qed.

Lemma shown_reason_total active row now :
  printable_deadline row -> is_Some (shown_reason active row now).
Proof.
  intros [p Hp]%(fun h => freshnessPolicy_total row now h).
  unfold shown_reason, row_reason, displayReason. rewrite Hp.
  repeat case_match; simplify_eq; by eexists.
Qed.

(** What the projection has established after some rows. *)
Record projected (active : Active) (now : string) (rows : list Snapshot) (p : Projection) :
    Prop := {
  pr_snapshots s : s ∈ pj_snapshots p -> exists row policy, row ∈ rows /\
    considered row = true /\ shown_reason active row now = Some None /\
    freshnessPolicy row now = Some policy /\ s = with_expiresAt (fp_expiresAt policy) row;
  pr_flags k f : (k, f) ∈ pj_flags p -> exists row, row ∈ rows /\ considered row = true /\
    shown_reason active row now = Some (Some (cf_reason f)) /\
    k = flag_key row (cf_reason f) /\ cf_provider f = s_provider row /\
    cf_accountId f = truthy_account row /\ cf_fixKind f = fixKind (cf_reason f);
  pr_rows row : row ∈ rows -> considered row = true ->
    match shown_reason active row now with
    | Some None => exists s, s ∈ pj_snapshots p /\ exists e, s = with_expiresAt e row
    | Some (Some reason) => exists f, (flag_key row reason, f) ∈ pj_flags p
    | None => False
    end;
  pr_keys : NoDup (pj_flags p).*1 }.

Lemma elem_of_assoc_set {V} (k k' : string) (v v' : V) m :
  NoDup m.*1 ->
  (k, v) ∈ assoc_set k' v' m <-> (k = k' /\ v = v') \/ (k <> k' /\ (k, v) ∈ m).
Proof.
  intros Hm. rewrite <- !assoc_get_elem by (done || by apply assoc_set_NoDup).
  rewrite assoc_get_set. case_decide; naive_solver.
Qed.

Lemma project_step_projected active now rows row p q :
  projected active now rows p -> project_step active now (Some p) row = Some q ->
  projected active now (rows ++ [row]) q.
Proof.
  intros [Hs Hf Hr Hk]. unfold project_step. simpl.
  destruct (considered row) eqn:Ec; simpl.
  2:{ intros [= <-]. split; [| | |done].
      - intros s (r & e & ?)%Hs. exists r, e. rewrite elem_of_app. tauto.
      - intros k f (r & ?)%Hf. exists r. rewrite elem_of_app. tauto.
      - intros r [Hr'| ->%list_elem_of_singleton]%elem_of_app; [by apply Hr|congruence]. }
  destruct (shown_reason active row now) as [[reason|]|] eqn:Es; [| |done].
  - intros [= <-]. split; simpl; [| | |by apply assoc_set_NoDup].
    + intros s (r & e & ?)%Hs. exists r, e. rewrite elem_of_app. tauto.
    + intros k f [[-> ->]|[_ (r & ?)%Hf]]%elem_of_assoc_set; [| |done].
      * exists row. rewrite elem_of_app, list_elem_of_singleton. simpl. tauto.
      * exists r. rewrite elem_of_app. tauto.
    + intros r [Hr'| ->%list_elem_of_singleton]%elem_of_app Hc.
      * specialize (Hr r Hr' Hc). destruct (shown_reason active r now) as [[re|]|]; [|done..].
        destruct Hr as [f Hf']. destruct (decide (flag_key r re = flag_key row reason)) as [->|];
          eexists; apply elem_of_assoc_set; eauto.
      * rewrite Es. eexists. apply elem_of_assoc_set; eauto.
  - destruct (freshnessPolicy row now) as [policy|] eqn:Ep; [|done].
    intros [= <-]. split; simpl; [| | |done].
    + intros s [(r & e & ?)%Hs| ->%list_elem_of_singleton]%elem_of_app.
      * exists r, e. rewrite elem_of_app. tauto.
      * exists row, policy. rewrite elem_of_app, list_elem_of_singleton. tauto.
    + intros k f (r & ?)%Hf. exists r. rewrite elem_of_app. tauto.
    + intros r [Hr'| ->%list_elem_of_singleton]%elem_of_app Hc.
      * specialize (Hr r Hr' Hc). destruct (shown_reason active r now) as [[re|]|]; [done| |done].
        destruct Hr as (s & ? & ?). exists s. rewrite elem_of_app. tauto.
      * rewrite Es. exists (with_expiresAt (fp_expiresAt policy) row).
        rewrite elem_of_app, list_elem_of_singleton. eauto.
Qed.

Lemma project_fold active now rows q :
  foldl (project_step active now) (Some {| pj_snapshots := []; pj_flags := [] |}) rows = Some q ->
  projected active now rows q.
Proof.
  revert q. induction rows as [|row rows IH] using rev_ind; intros q.
  - intros [= <-]. split; simpl;
      [by intros ? ?%elem_of_nil|by intros ? ? ?%elem_of_nil|by intros ? ?%elem_of_nil|constructor].
  - rewrite foldl_app. simpl. intros Hq.
    destruct (foldl _ _ rows) as [p|] eqn:Ep; [|done].
    eapply project_step_projected; eauto.
Qed.

Lemma default_truthy row : default "" (s_accountId row) = default "" (truthy_account row).
Proof.
  unfold truthy_account. destruct (s_accountId row) as [a|]; [|done]. simpl.
  destruct (str_eqb a "") eqn:E; [|done]. by apply str_eqb_eq in E.
Qed.

Lemma finite_value x : is_finite x = true -> is_value x.
Proof. by destruct x. Qed.

Lemma fresh_is_recent row now t policy :
  date_parse (s_observedAt row) = Some t -> freshnessPolicy row now = Some policy ->
  fp_availability policy = pa_fresh ->
  (Some t <=t date_parse now) = true /\
  (date_parse now <=t tadd (Some t) RETENTION_MILLISECONDS) = true.
Proof.
  intros Et Ep Ef. destruct (freshnessPolicy_parsed row now t Et) as (n & _ & Hn & E).
  rewrite E in Ep. destruct (Z.abs _ <=? max_time); [|done]. injection Ep as <-.
  simpl in Ef. destruct (date_parse now) as [c|]; [|done].
  destruct (c <? t) eqn:Ect; [done|]. destruct (c <? t + n * 1000) eqn:Ecn; [|done].
  apply Z.ltb_ge in Ect. apply Z.ltb_lt in Ecn. simpl. unfold RETENTION_MILLISECONDS.
  split; apply Z.leb_le; lia.
Qed.

(** A reading without complaint was read recently, or is held by its window. *)
Lemma displayReason_cases row now reason :
  s_availability row = None -> displayReason row now = Some reason ->
  reason = None \/ reason = Some "stale" ->
  is_finite (s_value row) = true /\ (int 0 <=# s_value row) = true /\
  (s_unit row = PERCENT -> (s_value row <=# int 100) = true) /\
  (reason = None ->
   (date_parse (s_observedAt row) <=t date_parse now) = true /\
   (date_parse now <=t tadd (date_parse (s_observedAt row)) RETENTION_MILLISECONDS) = true).
Proof.
  intros Ha E Hreason. unfold displayReason in E. rewrite Ha in E.
  destruct (_ || _ || _) in E; [by injection E as <-; naive_solver|].
  destruct (_ || _ || _) eqn:Ev in E; [by injection E as <-; naive_solver|].
  destruct (freshnessPolicy row now) as [policy|] eqn:Epol; [|done].
  injection E as <-. bools. split_and!; [done| | |].
  - apply nlt_false_nle; [by apply finite_value|done|done].
  - intros Hu. rewrite bool_decide_eq_true_2 in H1 by done. simpl in H1.
    apply nlt_false_nle; [done|by apply finite_value|done].
  - destruct (bool_decide (fp_availability policy = pa_fresh)) eqn:Ef; [|done]. intros _. bools.
    destruct (date_parse (s_observedAt row)) as [t|] eqn:Et.
    + by eapply fresh_is_recent.
    + destruct (freshnessPolicy_unparsed row now Et) as (p & Ep & Eu). congruence.
Qed.

(** A measured reading that describes the present: in its meter's range, not
    from the future, and recent, unless Claude Code's status line holds it until
    its window resets. *)
Definition current_reading (s : Snapshot) (now : string) : Prop :=
  (int 0 <=# s_value s) = true /\ is_finite (s_value s) = true /\
  (s_unit s = PERCENT -> (s_value s <=# int 100) = true) /\
  (date_parse (s_observedAt s) <=t date_parse now) = true /\
  (claudeStatusline s = true /\ (date_parse now <t reset_instant s) = true \/
   (date_parse now <=t tadd (date_parse (s_observedAt s)) RETENTION_MILLISECONDS) = true).

(** A row of a provider whose accounts the caller knows names one of them. *)
Definition connected (active : Active) (s : Snapshot) : Prop :=
  forall accounts, accounts_of active (s_provider s) = Some accounts ->
    exists a, truthy_account s = Some a /\ a ∈ accounts.

Lemma not_connected_false active s : not_connected active s = false -> connected active s.
Proof.
  unfold not_connected, connected. intros Hn accounts E. rewrite E in Hn.
  destruct (truthy_account s) as [a|]; [|done]. exists a. split; [done|].
  by apply negb_false_iff, bool_decide_eq_true in Hn.
Qed.

Lemma held_current row reason now :
  heldReason row reason now = None ->
  reason = None \/ reason = Some "stale" /\
    (date_parse (s_observedAt row) <=t date_parse now) = true /\
    (claudeStatusline row = true /\ (date_parse now <t reset_instant row) = true \/
     (date_parse now <=t tadd (date_parse (s_observedAt row)) RETENTION_MILLISECONDS) = true).
Proof.
  unfold heldReason. destruct (bool_decide (reason = Some "stale")) eqn:Eb; [|by left].
  apply bool_decide_eq_true in Eb. subst reason.
  destruct (date_parse (s_observedAt row) <=t date_parse now) eqn:Eo; [|done].
  simpl. intros Eh. right. split_and!; [done|done|].
  destruct (claudeStatusline row).
  { left. split; [done|]. by destruct (date_parse now <t reset_instant row). }
  right. destruct (date_parse now) as [c|], (date_parse (s_observedAt row)) as [o|]; try done.
  destruct (c - o <=? RETENTION_MILLISECONDS) eqn:Ec; [|done].
  simpl. apply Z.leb_le in Ec. apply Z.leb_le. lia.
Qed.

Lemma measured_current row reason now :
  s_availability row = None -> displayReason row now = Some reason ->
  heldReason row reason now = None -> current_reading row now.
Proof.
  intros Ha Ed Eh. destruct (held_current row reason now Eh) as [->|(-> & Ho & Hheld)].
  - destruct (displayReason_cases row now None Ha Ed) as (? & ? & ? & [Ho Hr]); [by left|done|].
    split_and!; auto.
  - destruct (displayReason_cases row now (Some "stale") Ha Ed) as (? & ? & ? & _); [by right|].
    split_and!; auto.
Qed.

Lemma shown_None_current active row now :
  shown_reason active row now = Some None ->
  connected active row /\ resetPassed row now = false /\
  match s_availability row with
  | None => current_reading row now
  | Some _ => display_availability row = true
  end.
Proof.
  unfold shown_reason. destruct (row_reason active row now) as [reason|] eqn:Er; [|done].
  simpl. destruct reason as [reason|]; [done|]. simpl.
  destruct (resetPassed row now); [done|]. intros _. unfold row_reason in Er.
  destruct (s_availability row) as [av|] eqn:Ea; [destruct (display_availability row); [|done]|];
    destruct (not_connected active row) eqn:En; try done;
    (split_and!; [by apply not_connected_false|done|]); [done|].
  destruct (displayReason row now) as [reason|] eqn:Ed; [|done].
  injection Er as Er. by eapply measured_current.
Qed.

(** The projection accounts for every row and invents none. When it
    returns, each reading shown is a considered row with nothing against it,
    with the expiry its source earns; each flag states the reason of a
    considered row of that provider and account, with the fix that belongs to
    the reason; and every considered row is shown or flagged, never neither. *)
Theorem projectSnapshots_accounts_for_every_row rows now active snapshots flags :
  projectSnapshots rows now active = Some (snapshots, flags) ->
  (forall s, s ∈ snapshots -> exists row policy, row ∈ rows /\ considered row = true /\
     shown_reason active row now = Some None /\ freshnessPolicy row now = Some policy /\
     s = with_expiresAt (fp_expiresAt policy) row) /\
  (forall f, f ∈ flags -> exists row, row ∈ rows /\ considered row = true /\
     shown_reason active row now = Some (Some (cf_reason f)) /\
     cf_provider f = s_provider row /\ cf_accountId f = truthy_account row /\
     cf_fixKind f = fixKind (cf_reason f)) /\
  (forall row, row ∈ rows -> considered row = true ->
     (shown_reason active row now = Some None /\
      exists e, with_expiresAt e row ∈ snapshots) \/
     (exists reason f, shown_reason active row now = Some (Some reason) /\ f ∈ flags /\
        flag_key row reason =
          join ":" [name_of (cf_provider f); default "" (cf_accountId f); cf_reason f])).
Proof.
  unfold projectSnapshots. destruct (foldl _ _ rows) as [p|] eqn:Ep; [|done].
  intros [= <- <-]. destruct (project_fold _ _ _ _ Ep) as [Hs Hf Hr _].
  split_and!; [exact Hs| |].
  - intros f ([k f'] & -> & (row & ?)%Hf)%list_elem_of_fmap. exists row. naive_solver.
  - intros row Hrow Hc. specialize (Hr row Hrow Hc).
    destruct (shown_reason active row now) as [[reason|]|]; [right|left|done].
    + destruct Hr as [f Hin]. exists reason, f. split; [done|]. split.
      * apply list_elem_of_fmap. by exists (flag_key row reason, f).
      * destruct (Hf _ _ Hin) as (row' & _ & _ & _ & -> & Ep' & Ea & _).
        unfold flag_key. rewrite Ep', Ea. do 3 f_equal. apply default_truthy.
    + split; [done|]. destruct Hr as (s & Hin & e & ->). by exists e.
Qed.

(** C29: what is on screen describes the present. A row shown is one of the rows
    given, eligible and of a visible meter, with the expiry its source earns;
    its window has not reset; and where the caller knows the accounts of its
    provider, it names one of them. If it was measured, it lies in its meter's
    range, was observed at or before the present, and at most seven days ago
    unless Claude Code's own status line holds it and its reset is still ahead.
    If instead it carries an availability, which is shown at any age, its meter
    is one that displays an availability. *)
Theorem shown_reading_is_current rows now active snapshots flags s :
  projectSnapshots rows now active = Some (snapshots, flags) -> s ∈ snapshots ->
  (exists row policy, row ∈ rows /\ considered row = true /\
     freshnessPolicy row now = Some policy /\ s = with_expiresAt (fp_expiresAt policy) row) /\
  connected active s /\ resetPassed s now = false /\
  match s_availability s with
  | None => current_reading s now
  | Some _ => display_availability s = true
  end.
Proof.
  unfold projectSnapshots. destruct (foldl _ _ rows) as [p|] eqn:Ep; [|done].
  intros [= <- <-] Hin. destruct (project_fold _ _ _ _ Ep) as [Hs _ _ _].
  destruct (Hs s Hin) as (row & policy & Hrow & Hc & Hshown & Hpol & ->).
  split; [by exists row, policy|]. exact (shown_None_current active row now Hshown).
Qed.

(** C40: the projection returns for every list of rows whose observations leave
    room for a deadline before the last date a [Date] can hold. *)
Theorem projectSnapshots_returns rows now active :
  Forall printable_deadline rows -> is_Some (projectSnapshots rows now active).
Proof.
  intros Hall. unfold projectSnapshots.
  enough (is_Some (foldl (project_step active now)
    (Some {| pj_snapshots := []; pj_flags := [] |}) rows)) as [p ->] by (by eexists).
  assert (Hacc : is_Some (Some {| pj_snapshots := []; pj_flags := [] |})) by (by eexists).
  revert Hacc. generalize (Some {| pj_snapshots := []; pj_flags := [] |}).
  induction Hall as [|row rows Hrow _ IH]; [done|]. intros acc [p ->]. apply IH.
  unfold project_step. destruct (shown_reason_total active row now Hrow) as [shown ->].
  destruct (freshnessPolicy_total row now Hrow) as [policy ->].
  destruct (considered row), shown; by eexists.
Qed.
End Laws.

Definition shown_row : Snapshot :=
  sample_snapshot CODEX "FIVE_HOUR" (int 42) "2026-01-01T00:00:00.000Z" "2026-01-01T01:00:00.000Z".

Lemma shown_row_projects :
  projectSnapshots (H:=strict_host) [shown_row] "2026-01-01T00:02:00.000Z" None =
  Some ([with_expiresAt "2026-01-01T00:19:00.000Z" shown_row], []).
Proof. by vm_compute. Qed.

Lemma projectSnapshots_accounts_for_every_row_witness :
  exists row policy, row ∈ [shown_row] /\ considered row = true /\
    shown_reason (H:=strict_host) None row "2026-01-01T00:02:00.000Z" = Some None /\
    freshnessPolicy (H:=strict_host) row "2026-01-01T00:02:00.000Z" = Some policy /\
    with_expiresAt "2026-01-01T00:19:00.000Z" shown_row = with_expiresAt (fp_expiresAt policy) row.
Proof.
  apply (projectSnapshots_accounts_for_every_row (H:=strict_host) _ _ _ _ _ shown_row_projects).
  by apply list_elem_of_singleton.
Defined.

Lemma shown_reading_is_current_witness :
  current_reading (H:=strict_host) (with_expiresAt "2026-01-01T00:19:00.000Z" shown_row)
    "2026-01-01T00:02:00.000Z".
Proof.
  assert (Hin : with_expiresAt "2026-01-01T00:19:00.000Z" shown_row
    ∈ [with_expiresAt "2026-01-01T00:19:00.000Z" shown_row]) by (by apply list_elem_of_singleton).
  exact (proj2 (proj2 (proj2 (shown_reading_is_current (H:=strict_host) _ _ _ _ _ _
    shown_row_projects Hin)))).
Defined.

Lemma projectSnapshots_returns_witness :
  is_Some (projectSnapshots (H:=strict_host) [shown_row] "2026-01-01T00:02:00.000Z" None).
Proof.
  apply (projectSnapshots_returns (H:=strict_host)). repeat constructor.
  intros t Et. assert (E : date_parse (H:=strict_host) (s_observedAt shown_row) = Some 1767225600000)
    by (by vm_compute). rewrite E in Et. injection Et as <-. by vm_compute.
Defined.
