(* ===== verification/Merge.v ===== *)
(** * Merging readings into the cache

    [merge.ts]: one row per provider, meter and account, the newer observation
    wins, Claude's scoped accounts cover its anonymous status line, and the
    document stays bounded. The JavaScript [Map] is an association list in
    insertion order; the abstract view at the end is a finite map. *)
From stdpp Require Import gmap.
From S2P Require Import Prelude JsNum JsDate JsValue Text Types DataRules.
Local Open Scope string_scope.
Local Open Scope Z_scope.
Local Open Scope list_scope.
Local Open Scope js_scope.

Definition MAX_CACHE_ENTRIES : nat := 64.

Definition snapshotIdentity (s : Snapshot) : string :=
  let base := name_of (s_provider s) +:+ " " +:+ s_meter s in
  match s_accountId s with None => base | Some a => base +:+ " " +:+ a end.

Definition compareIdentity (l r : Snapshot) : comparison :=
  str_compare (snapshotIdentity l) (snapshotIdentity r).

#[export] Instance compareIdentity_preorder : TotalPreorder compareIdentity.
Proof. apply (str_compare_preorder snapshotIdentity). Qed.

Section Merge.
Context `{DateHost}.

Definition observedMilliseconds (s : Snapshot) : Z := default 0 (date_parse (s_observedAt s)).

Definition isClaudeStatuslineFallback (s : Snapshot) : bool :=
  bool_decide (s_provider s = CLAUDE) && bool_decide (s_accountId s = None) &&
  provenance_is statusline_payload s && via_is claude_code_statusline s.

Definition isClaudePayloadWeekly (s : Snapshot) : bool :=
  bool_decide (s_provider s = CLAUDE) && starts_with "SEVEN_DAY" (s_meter s) &&
  provenance_is statusline_payload s.

Definition covers (candidate s : Snapshot) : bool :=
  bool_decide (s_provider s = CLAUDE) && str_eqb (s_meter s) (s_meter candidate) &&
  negb (bool_decide (s_accountId s = None)) &&
  (Some (observedMilliseconds candidate) <t date_parse (s_expiresAt s)).

Definition scopedClaudeCoversFallback (candidate : Snapshot) (snapshots : list Snapshot) : bool :=
  isClaudeStatuslineFallback candidate && existsb (covers candidate) snapshots.

(** The turns of the two loops. *)
Definition add_existing (m : list (string * Snapshot)) (s : Snapshot) :=
  if isClaudePayloadWeekly s then m else assoc_set (snapshotIdentity s) s m.

Definition add_incoming (m : list (string * Snapshot)) (s : Snapshot) :=
  if isClaudePayloadWeekly s then m
  else
    match assoc_get (snapshotIdentity s) m with
    | None => assoc_set (snapshotIdentity s) s m
    | Some previous =>
        if observedMilliseconds previous <=? observedMilliseconds s
        then assoc_set (snapshotIdentity s) s m else m
    end.

Definition byIdentity (existing incoming : list Snapshot) : list (string * Snapshot) :=
  foldl add_incoming (foldl add_existing [] existing) incoming.

Definition combined (existing incoming : list Snapshot) : list Snapshot :=
  (byIdentity existing incoming).*2.

Definition merged (existing incoming : list Snapshot) : list Snapshot :=
  let all := combined existing incoming in
  filter (fun s => scopedClaudeCoversFallback s all = false) all.

(** Most recently observed first. *)
Definition compareObserved (l r : Snapshot) : comparison :=
  observedMilliseconds r ?= observedMilliseconds l.

Definition mergeSnapshots (existing incoming : list Snapshot) (limit : nat) : list Snapshot :=
  let rows := merged existing incoming in
  if (length rows <=? limit)%nat then sort_by compareIdentity rows
  else sort_by compareIdentity (take limit (sort_by compareObserved rows)).

#[export] Instance compareObserved_preorder : TotalPreorder compareObserved.
Proof.
  split; unfold compareObserved.
  - intros x y. by rewrite Z.compare_antisym.
  - intros x y z.
    destruct (Z.compare_spec (observedMilliseconds y) (observedMilliseconds x)),
      (Z.compare_spec (observedMilliseconds z) (observedMilliseconds y)),
      (Z.compare_spec (observedMilliseconds z) (observedMilliseconds x)); try done; lia.
Qed.

(** ** Lemmas *)

(** Every entry sits under its own identity, once, and no Claude weekly
    reading of the status line is among them. *)
Definition keyed (m : list (string * Snapshot)) : Prop :=
  NoDup m.*1 /\ forall k s, (k, s) ∈ m -> k = snapshotIdentity s /\ isClaudePayloadWeekly s = false.

Lemma keyed_nil : keyed [].
Proof. split; [constructor|]. by intros k s ?%elem_of_nil. Qed.

Lemma keyed_set m s :
  keyed m -> isClaudePayloadWeekly s = false -> keyed (assoc_set (snapshotIdentity s) s m).
Proof.
  intros [Hn Hm] Hs. split; [by apply assoc_set_NoDup|].
  intros k s' [[-> ->]|[_ Hin]]%elem_of_assoc_set; [done|by apply Hm|done].
Qed.

Lemma keyed_add_existing m s : keyed m -> keyed (add_existing m s).
Proof. unfold add_existing. intros. case_match; auto using keyed_set. Qed.

Lemma keyed_add_incoming m s : keyed m -> keyed (add_incoming m s).
Proof. unfold add_incoming. intros. repeat case_match; auto using keyed_set. Qed.

Lemma keyed_foldl (f : list (string * Snapshot) -> Snapshot -> list (string * Snapshot))
    (rows : list Snapshot) m :
  (forall m s, keyed m -> keyed (f m s)) -> keyed m -> keyed (foldl f m rows).
Proof. intros Hf. revert m. induction rows as [|s rows IH]; simpl; auto. Qed.

Lemma keyed_byIdentity e i : keyed (byIdentity e i).
Proof.
  apply keyed_foldl; [apply keyed_add_incoming|].
  apply keyed_foldl; [apply keyed_add_existing|apply keyed_nil].
Qed.

Lemma keyed_ids m : keyed m -> snapshotIdentity <$> m.*2 = m.*1.
Proof.
  intros [_ Hm]. induction m as [|[k s] m IH]; csimpl; [done|]. f_equal.
  - symmetry. eapply Hm. left.
  - apply IH. intros k' s' ?. eapply Hm. by right.
Qed.

Lemma combined_ids_NoDup e i : NoDup (snapshotIdentity <$> combined e i).
Proof.
  unfold combined. pose proof (keyed_byIdentity e i) as Hk.
  rewrite keyed_ids by done. by destruct Hk.
Qed.

Lemma merged_sublist e i : merged e i `sublist_of` combined e i.
Proof. apply sublist_filter. Qed.

Lemma fmap_sublist {A B} (f : A -> B) l k : l `sublist_of` k -> f <$> l `sublist_of` f <$> k.
Proof. induction 1; csimpl; by constructor. Qed.

Lemma merged_ids_NoDup e i : NoDup (snapshotIdentity <$> merged e i).
Proof.
  eapply sublist_NoDup; [apply combined_ids_NoDup|]. apply fmap_sublist, merged_sublist.
Qed.

Lemma elem_of_combined e i s :
  s ∈ combined e i <-> assoc_get (snapshotIdentity s) (byIdentity e i) = Some s.
Proof.
  destruct (keyed_byIdentity e i) as [Hn Hk]. rewrite assoc_get_elem by done.
  unfold combined. rewrite list_elem_of_fmap. split.
  - intros ([k s'] & -> & Hin). simpl. by destruct (Hk _ _ Hin) as [-> _].
  - intros Hin. by exists (snapshotIdentity s, s).
Qed.

Lemma combined_no_weekly e i s : s ∈ combined e i -> isClaudePayloadWeekly s = false.
Proof.
  rewrite elem_of_combined. destruct (keyed_byIdentity e i) as [Hn Hk].
  rewrite assoc_get_elem by done. intros Hin. by destruct (Hk _ _ Hin).
Qed.

Lemma elem_of_merged e i s :
  s ∈ merged e i <-> s ∈ combined e i /\ scopedClaudeCoversFallback s (combined e i) = false.
Proof. unfold merged. rewrite list_elem_of_filter. tauto. Qed.

Definition rows_from (l : list Snapshot) (m : list (string * Snapshot)) : Prop :=
  forall k s, (k, s) ∈ m -> s ∈ l.

Lemma rows_from_set l m s :
  NoDup m.*1 -> rows_from l m -> s ∈ l -> rows_from l (assoc_set (snapshotIdentity s) s m).
Proof. intros Hn Hm Hs k s' [[_ ->]|[_ ?]]%elem_of_assoc_set; eauto. Qed.

(** A turn of either loop leaves the map or writes the row under its identity. *)
Lemma add_existing_cases m s :
  add_existing m s = m \/ add_existing m s = assoc_set (snapshotIdentity s) s m.
Proof. unfold add_existing. case_match; auto. Qed.

Lemma add_incoming_cases m s :
  add_incoming m s = m \/ add_incoming m s = assoc_set (snapshotIdentity s) s m.
Proof. unfold add_incoming. repeat case_match; auto. Qed.

Lemma rows_from_foldl all (f : list (string * Snapshot) -> Snapshot -> list (string * Snapshot)) rows m :
  (forall m s, keyed m -> keyed (f m s)) ->
  (forall m s, f m s = m \/ f m s = assoc_set (snapshotIdentity s) s m) ->
  rows ⊆ all -> keyed m -> rows_from all m -> rows_from all (foldl f m rows).
Proof.
  intros Hk Hf. revert m. induction rows as [|r rows IH]; simpl; [done|].
  intros m Hsub Hm Hr. apply IH; [set_solver|by apply Hk|].
  destruct (Hf m r) as [->| ->]; [done|]. apply rows_from_set; [by destruct Hm|done|set_solver].
Qed.

Lemma combined_from_inputs e i s : s ∈ combined e i -> s ∈ e \/ s ∈ i.
Proof.
  unfold combined. rewrite list_elem_of_fmap. intros ([k s'] & -> & Hin). simpl.
  rewrite <- elem_of_app. revert k s' Hin. change (rows_from (e ++ i) (byIdentity e i)).
  apply rows_from_foldl; auto using keyed_add_incoming, add_incoming_cases; [set_solver| |].
  - apply keyed_foldl; auto using keyed_add_existing, keyed_nil.
  - apply rows_from_foldl; auto using keyed_add_existing, add_existing_cases, keyed_nil;
      [set_solver|by intros k s' ?%elem_of_nil].
Qed.

(** The rows the limit keeps: all of them, or the most recently observed. *)
Definition kept (e i : list Snapshot) (limit : nat) : list Snapshot :=
  if (length (merged e i) <=? limit)%nat then merged e i
  else take limit (sort_by compareObserved (merged e i)).

Lemma mergeSnapshots_kept e i limit :
  mergeSnapshots e i limit = sort_by compareIdentity (kept e i limit).
Proof. unfold mergeSnapshots, kept. by case_match. Qed.

Lemma kept_length e i limit : (length (kept e i limit) <= limit)%nat.
Proof.
  unfold kept. case_match eqn:E; [by apply Nat.leb_le in E|]. rewrite length_take. lia.
Qed.

Lemma kept_NoDup e i limit : NoDup (snapshotIdentity <$> kept e i limit).
Proof.
  pose proof (merged_ids_NoDup e i) as Hn. unfold kept. case_match; [done|].
  assert (Hs : NoDup (snapshotIdentity <$> sort_by compareObserved (merged e i)))
    by (by rewrite sort_by_perm).
  eapply sublist_NoDup; [exact Hs|]. apply fmap_sublist, sublist_take.
Qed.

Lemma kept_merged e i limit s : s ∈ kept e i limit -> s ∈ merged e i.
Proof.
  unfold kept. case_match; [done|]. intros (j & Hj & _)%elem_of_take.
  apply list_elem_of_lookup_2 in Hj. by rewrite sort_by_perm in Hj.
Qed.

Lemma sorted_rows_id l :
  NoDup (snapshotIdentity <$> l) ->
  StronglySorted (fun a b => str_ltb (snapshotIdentity a) (snapshotIdentity b) = true)
    (sort_by compareIdentity l).
Proof.
  intros Hn. assert (Hn' : NoDup (snapshotIdentity <$> sort_by compareIdentity l))
    by (by rewrite sort_by_perm).
  pose proof (sort_by_sorted compareIdentity l) as Hs. revert Hn'.
  induction Hs as [|x l' Hs IH Hx]; csimpl; [constructor|].
  intros [Hx' Hn']%NoDup_cons. constructor; [by apply IH|].
  apply Forall_forall. intros y Hy. rewrite Forall_forall in Hx. specialize (Hx y Hy).
  unfold le_by, compareIdentity in Hx. unfold str_ltb.
  destruct (str_compare _ _) eqn:E; [|done|done].
  apply str_compare_eq in E. destruct Hx'. rewrite E. apply list_elem_of_fmap. by exists y.
Qed.

Lemma mergeSnapshots_canonical_facts e i limit :
  NoDup (snapshotIdentity <$> mergeSnapshots e i limit) /\
  (forall s, s ∈ mergeSnapshots e i limit -> isClaudePayloadWeekly s = false) /\
  (length (mergeSnapshots e i limit) <= limit)%nat.
Proof.
  rewrite mergeSnapshots_kept, length_sort_by. split_and!; [| |apply kept_length].
  - rewrite sort_by_perm. apply kept_NoDup.
  - intros s Hin%elem_of_sort_by%kept_merged. apply elem_of_merged in Hin as [Hin _].
    by eapply combined_no_weekly.
Qed.

Lemma mergeSnapshots_subset e i limit s :
  s ∈ mergeSnapshots e i limit -> s ∈ e \/ s ∈ i.
Proof.
  rewrite mergeSnapshots_kept. intros Hin%elem_of_sort_by%kept_merged.
  apply elem_of_merged in Hin as [Hin _]. by apply combined_from_inputs.
Qed.

(** The merged document is canonical. Its identities are distinct and in
    strictly increasing code unit order, it never holds more rows than the
    limit, every row was in one of the two inputs, and no weekly reading of
    Claude's status line is stored. *)
Theorem mergeSnapshots_canonical e i limit :
  StronglySorted (fun a b => str_ltb (snapshotIdentity a) (snapshotIdentity b) = true)
    (mergeSnapshots e i limit) /\
  NoDup (snapshotIdentity <$> mergeSnapshots e i limit) /\
  (length (mergeSnapshots e i limit) <= limit)%nat /\
  (forall s, s ∈ mergeSnapshots e i limit ->
     (s ∈ e \/ s ∈ i) /\ isClaudePayloadWeekly s = false).
Proof.
  split_and!; try apply mergeSnapshots_canonical_facts; rewrite mergeSnapshots_kept.
  - apply sorted_rows_id, kept_NoDup.
  - intros s Hin%elem_of_sort_by%kept_merged. apply elem_of_merged in Hin as [Hin _].
    split; [by apply combined_from_inputs|by eapply combined_no_weekly].
Qed.

(** *** Nothing newer is lost *)

Lemma existing_untouched s rows m :
  snapshotIdentity s ∉ snapshotIdentity <$> rows ->
  assoc_get (snapshotIdentity s) m = Some s ->
  assoc_get (snapshotIdentity s) (foldl add_existing m rows) = Some s.
Proof.
  revert m. induction rows as [|r rows IH]; csimpl; [done|].
  intros m [Hne Hr]%not_elem_of_cons Hm. apply IH; [done|]. unfold add_existing.
  case_match; [done|]. by rewrite assoc_get_set, decide_False.
Qed.

Lemma existing_kept e s m :
  NoDup (snapshotIdentity <$> e) -> s ∈ e -> isClaudePayloadWeekly s = false ->
  assoc_get (snapshotIdentity s) (foldl add_existing m e) = Some s.
Proof.
  intros Hn Hs Hw. revert m Hn Hs. induction e as [|r e IH]; csimpl; intros m.
  - by intros _ ?%elem_of_nil.
  - intros [Hr Hn]%NoDup_cons [->|Hs]%elem_of_cons; [|by apply IH].
    apply existing_untouched; [done|]. unfold add_existing. rewrite Hw.
    by rewrite assoc_get_set, decide_True.
Qed.

(** Folding readings in never makes the row of an identity older. *)
Lemma add_incoming_newer k m s p :
  assoc_get k m = Some p ->
  exists p', assoc_get k (add_incoming m s) = Some p' /\
    observedMilliseconds p <= observedMilliseconds p'.
Proof.
  intros Hp. unfold add_incoming. case_match; [eauto with lia|].
  destruct (assoc_get (snapshotIdentity s) m) as [q|] eqn:Eq.
  - destruct (observedMilliseconds q <=? observedMilliseconds s) eqn:El; [|eauto with lia].
    rewrite assoc_get_set. case_decide as Hk; [|eauto with lia]. subst k.
    exists s. split; [done|]. apply Z.leb_le in El. congruence.
  - rewrite assoc_get_set. case_decide; [congruence|eauto with lia].
Qed.

Lemma foldl_incoming_newer k rows m p :
  assoc_get k m = Some p ->
  exists p', assoc_get k (foldl add_incoming m rows) = Some p' /\
    observedMilliseconds p <= observedMilliseconds p'.
Proof.
  revert m p. induction rows as [|r rows IH]; simpl; intros m p Hp; [eauto with lia|].
  destruct (add_incoming_newer k m r p Hp) as (q & Hq & ?).
  destruct (IH _ _ Hq) as (q' & ? & ?). exists q'. split; [done|lia].
Qed.

Lemma incoming_kept rows m s :
  s ∈ rows -> isClaudePayloadWeekly s = false ->
  exists p, assoc_get (snapshotIdentity s) (foldl add_incoming m rows) = Some p /\
    observedMilliseconds s <= observedMilliseconds p.
Proof.
  intros Hs Hw. revert m. induction rows as [|r rows IH]; simpl; intros m;
    [by apply elem_of_nil in Hs|]. apply elem_of_cons in Hs as [->|Hs]; [|by apply IH].
  assert (Hq : exists q, assoc_get (snapshotIdentity r) (add_incoming m r) = Some q /\
    observedMilliseconds r <= observedMilliseconds q).
  { unfold add_incoming. rewrite Hw. destruct (assoc_get _ m) as [q|] eqn:Eq;
      [case_match eqn:El|]; rewrite ?assoc_get_set, ?decide_True by done; eauto with lia. }
  destruct Hq as (q & Hq & ?). destruct (foldl_incoming_newer _ rows _ _ Hq) as (p & ? & ?).
  exists p. split; [done|lia].
Qed.

(** Every admissible input has a row under its identity, no older than it. *)
Lemma combined_newest e i s :
  NoDup (snapshotIdentity <$> e) -> s ∈ e \/ s ∈ i -> isClaudePayloadWeekly s = false ->
  exists p, p ∈ combined e i /\ snapshotIdentity p = snapshotIdentity s /\
    observedMilliseconds s <= observedMilliseconds p.
Proof.
  intros Hn Hs Hw.
  assert (Hp : exists p, assoc_get (snapshotIdentity s) (byIdentity e i) = Some p /\
    observedMilliseconds s <= observedMilliseconds p).
  { destruct Hs as [Hs|Hs]; [|by apply incoming_kept].
    apply foldl_incoming_newer, existing_kept; done. }
  destruct Hp as (p & Hp & ?). exists p. destruct (keyed_byIdentity e i) as [Hkn Hk].
  apply assoc_get_elem in Hp; [|done]. destruct (Hk _ _ Hp) as [E _]. split_and!; [|done|done].
  unfold combined. apply list_elem_of_fmap. by exists (snapshotIdentity s, p).
Qed.

(** What a bounded sort cuts off is below everything it keeps. *)
Lemma take_sorted_le (l : list Snapshot) n x y :
  StronglySorted (le_by compareObserved) l -> x ∈ take n l -> y ∈ l -> y ∉ take n l ->
  observedMilliseconds y <= observedMilliseconds x.
Proof.
  intros Hl Hx Hy Hny. rewrite <- (take_drop n l) in Hl, Hy.
  apply elem_of_app in Hy as [Hy|Hy]; [done|].
  assert (Hle : le_by compareObserved x y).
  { apply StronglySorted_app in Hl as (Hcross & _ & _). by apply Hcross. }
  unfold le_by, compareObserved in Hle. by apply Z.compare_le_iff in Hle.
Qed.

(** Where the newest reading of an identity ends up: in the document, behind a
    scoped account of Claude, or below a full document. *)
Definition accounted (e i : list Snapshot) (result : list Snapshot) (limit : nat)
    (newest : Snapshot) : Prop :=
  newest ∈ result \/
  (isClaudeStatuslineFallback newest = true /\
   exists scoped, (scoped ∈ e \/ scoped ∈ i) /\ covers newest scoped = true) \/
  (length result = limit /\
   forall r, r ∈ result -> observedMilliseconds newest <= observedMilliseconds r).

Lemma newest_accounted e i limit s :
  NoDup (snapshotIdentity <$> e) -> s ∈ e \/ s ∈ i -> isClaudePayloadWeekly s = false ->
  exists newest, (newest ∈ e \/ newest ∈ i) /\
    snapshotIdentity newest = snapshotIdentity s /\
    observedMilliseconds s <= observedMilliseconds newest /\
    accounted e i (mergeSnapshots e i limit) limit newest.
Proof.
  unfold accounted.
  intros Hn Hs Hw. destruct (combined_newest e i s Hn Hs Hw) as (p & Hp & Ep & Ho).
  exists p. split; [by apply combined_from_inputs|]. split; [done|]. split; [done|].
  destruct (scopedClaudeCoversFallback p (combined e i)) eqn:Ec.
  { right; left. unfold scopedClaudeCoversFallback in Ec. apply andb_true_iff in Ec as [? Ec].
    split; [done|]. apply existsb_exists in Ec as (r & Hr & ?). apply list_elem_of_In in Hr.
    exists r. split; [by apply combined_from_inputs|done]. }
  assert (Hm : p ∈ merged e i) by (by apply elem_of_merged).
  rewrite mergeSnapshots_kept. setoid_rewrite elem_of_sort_by. rewrite length_sort_by.
  destruct (decide (p ∈ kept e i limit)) as [|Hk]; [by left|]. right; right.
  unfold kept in *. destruct (Nat.leb_spec (length (merged e i)) limit); [done|].
  split; [rewrite length_take, length_sort_by; lia|].
  intros r Hr. apply (take_sorted_le (sort_by compareObserved (merged e i)) limit);
    [apply (sort_by_sorted compareObserved)|done|by apply elem_of_sort_by|done].
Qed.

(** A reading is never lost to an older one. Whatever is stored or comes
    in, the merged document holds, for its identity, a reading at least as
    recent; or that newest reading is Claude's anonymous status line, covered
    by a scoped account's reading of the same meter that expires after it; or
    the document is full of rows at least as recent. *)
Theorem mergeSnapshots_never_goes_back e i limit s :
  NoDup (snapshotIdentity <$> e) -> s ∈ e \/ s ∈ i -> isClaudePayloadWeekly s = false ->
  exists newest, (newest ∈ e \/ newest ∈ i) /\
    snapshotIdentity newest = snapshotIdentity s /\
    observedMilliseconds s <= observedMilliseconds newest /\
    accounted e i (mergeSnapshots e i limit) limit newest.
Proof. apply newest_accounted. Qed.

(** *** Merging again *)

Lemma assoc_set_append (k : string) (v : Snapshot) m :
  k ∉ m.*1 -> assoc_set k v m = m ++ [(k, v)].
Proof.
  induction m as [|[k' v'] m IH]; csimpl; [done|]. rewrite not_elem_of_cons. intros [? ?].
  rewrite decide_False by done. by rewrite IH.
Qed.

Lemma foldl_existing_id rows m :
  NoDup (m.*1 ++ (snapshotIdentity <$> rows)) ->
  Forall (fun s => isClaudePayloadWeekly s = false) rows ->
  foldl add_existing m rows = m ++ ((fun s => (snapshotIdentity s, s)) <$> rows).
Proof.
  revert m. induction rows as [|r rows IH]; intros m Hn Hw; csimpl; [by rewrite app_nil_r|].
  apply Forall_cons in Hw as [Hr Hw]. csimpl in Hn.
  assert (Hnr : snapshotIdentity r ∉ m.*1).
  { apply NoDup_app in Hn as (_ & Hd & _). intros Hin. apply (Hd _ Hin). left. }
  replace (add_existing m r) with (m ++ [(snapshotIdentity r, r)])
    by (unfold add_existing; by rewrite Hr, assoc_set_append).
  rewrite IH; [by rewrite <- (assoc (++))| |done].
  rewrite fmap_app. csimpl. by rewrite <- (assoc (++)).
Qed.

Lemma combined_id l :
  NoDup (snapshotIdentity <$> l) -> Forall (fun s => isClaudePayloadWeekly s = false) l ->
  combined l [] = l.
Proof.
  intros Hn Hw. unfold combined, byIdentity. simpl. rewrite foldl_existing_id by done. simpl.
  rewrite <- list_fmap_compose. by apply list_fmap_id.
Qed.

Lemma covered_subset s l k :
  l ⊆ k -> scopedClaudeCoversFallback s k = false -> scopedClaudeCoversFallback s l = false.
Proof.
  unfold scopedClaudeCoversFallback. rewrite !andb_false_iff. intros Hlk [?|Hk]; [by left|right].
  apply not_true_iff_false. intros (x & Hx & Hc)%existsb_exists.
  apply list_elem_of_In, Hlk, list_elem_of_In in Hx.
  assert (existsb (covers s) k = true) by (apply existsb_exists; eauto). congruence.
Qed.

(** A merged document is a fixed point. Reading it back and merging
    nothing gives the same document, byte for byte, so a write with nothing
    new is no change. *)
Theorem mergeSnapshots_idempotent e i limit :
  mergeSnapshots (mergeSnapshots e i limit) [] limit = mergeSnapshots e i limit.
Proof.
  set (r := mergeSnapshots e i limit).
  assert (Hkept : forall s, s ∈ r -> s ∈ kept e i limit)
    by (intros s; unfold r; by rewrite mergeSnapshots_kept, elem_of_sort_by).
  assert (Hn : NoDup (snapshotIdentity <$> r))
    by (unfold r; rewrite mergeSnapshots_kept, sort_by_perm; apply kept_NoDup).
  assert (Hsub : forall s, s ∈ r -> s ∈ merged e i) by (intros s ?%Hkept; by eapply kept_merged).
  assert (Hc : combined r [] = r).
  { apply combined_id; [done|]. apply Forall_forall. intros s [? _]%Hsub%elem_of_merged.
    by eapply combined_no_weekly. }
  assert (Hm : merged r [] = r).
  { unfold merged. rewrite Hc. apply filter_id. intros s Hs.
    destruct (proj1 (elem_of_merged _ _ _) (Hsub s Hs)) as [_ Hcov].
    eapply covered_subset; [|exact Hcov]. intros x [? _]%Hsub%elem_of_merged. done. }
  unfold mergeSnapshots at 1. rewrite Hm.
  assert (Hlen : (length r <= limit)%nat)
    by (unfold r; rewrite mergeSnapshots_kept, length_sort_by; apply kept_length).
  rewrite (proj2 (Nat.leb_le _ _) Hlen). apply sort_by_id.
  unfold r. rewrite mergeSnapshots_kept. apply (sort_by_sorted compareIdentity).
Qed.

(** ** The abstract view

    The document as a finite map from identities to readings, and a merge as
    the two loops on that map. *)
Definition cache_view (rows : list Snapshot) : gmap string Snapshot :=
  list_to_map ((fun s => (snapshotIdentity s, s)) <$> rows).

Definition view_existing (m : gmap string Snapshot) (s : Snapshot) : gmap string Snapshot :=
  if isClaudePayloadWeekly s then m else <[snapshotIdentity s := s]> m.

Definition view_incoming (m : gmap string Snapshot) (s : Snapshot) : gmap string Snapshot :=
  if isClaudePayloadWeekly s then m
  else
    match m !! snapshotIdentity s with
    | None => <[snapshotIdentity s := s]> m
    | Some p =>
        if observedMilliseconds p <=? observedMilliseconds s
        then <[snapshotIdentity s := s]> m else m
    end.

Definition view_covered (m : gmap string Snapshot) (s : Snapshot) : Prop :=
  isClaudeStatuslineFallback s = true /\ map_Exists (fun _ r => covers s r = true) m.

#[export] Instance view_covered_dec m s : Decision (view_covered m s).
Proof. unfold view_covered. apply _. Defined.

Definition view_merge (e i : list Snapshot) : gmap string Snapshot :=
  let m := foldl view_incoming (foldl view_existing ∅ e) i in
  filter (fun kv => ~ view_covered m kv.2) m.

(** The association list and the finite map hold the same entries. *)
Definition same_entries (l : list (string * Snapshot)) (m : gmap string Snapshot) : Prop :=
  forall k, assoc_get k l = m !! k.

Lemma same_entries_set l m k s :
  same_entries l m -> same_entries (assoc_set k s l) (<[k := s]> m).
Proof.
  intros Hlm k'. rewrite assoc_get_set, Hlm. case_decide as E.
  - subst. by rewrite lookup_insert_eq.
  - by rewrite lookup_insert_ne.
Qed.

Lemma same_entries_existing rows l m :
  same_entries l m -> same_entries (foldl add_existing l rows) (foldl view_existing m rows).
Proof.
  revert l m. induction rows as [|r rows IH]; simpl; [done|]. intros l m Hlm. apply IH.
  unfold add_existing, view_existing. case_match; [done|]. by apply same_entries_set.
Qed.

Lemma same_entries_incoming rows l m :
  same_entries l m -> same_entries (foldl add_incoming l rows) (foldl view_incoming m rows).
Proof.
  revert l m. induction rows as [|r rows IH]; simpl; [done|]. intros l m Hlm. apply IH.
  unfold add_incoming, view_incoming. rewrite <- (Hlm (snapshotIdentity r)).
  repeat case_match; by auto using same_entries_set.
Qed.

Lemma lookup_cache_view rows k s :
  NoDup (snapshotIdentity <$> rows) ->
  cache_view rows !! k = Some s <-> s ∈ rows /\ k = snapshotIdentity s.
Proof.
  intros Hn. unfold cache_view. rewrite <- elem_of_list_to_map.
  - rewrite list_elem_of_fmap. split; [by intros (? & [= -> ->] & ?)|].
    intros [? ->]. by exists s.
  - rewrite <- list_fmap_compose. done.
Qed.

Lemma covered_view e i s m :
  same_entries (byIdentity e i) m ->
  scopedClaudeCoversFallback s (combined e i) = true <-> view_covered m s.
Proof.
  intros Hm. unfold scopedClaudeCoversFallback, view_covered.
  rewrite andb_true_iff, existsb_exists. apply and_iff_compat_l.
  destruct (keyed_byIdentity e i) as [Hn Hk]. split.
  - intros (r & Hr & Hc). apply list_elem_of_In, elem_of_combined in Hr.
    rewrite Hm in Hr. by exists (snapshotIdentity r), r.
  - intros (k & r & Hr & Hc). rewrite <- Hm in Hr. exists r. split; [|done].
    apply list_elem_of_In, elem_of_combined. apply assoc_get_elem in Hr as Hin; [|done].
    by destruct (Hk _ _ Hin) as [<- _].
Qed.

Lemma merged_view e i : cache_view (merged e i) = view_merge e i.
Proof.
  set (m := foldl view_incoming (foldl view_existing ∅ e) i).
  assert (Hm : same_entries (byIdentity e i) m).
  { apply same_entries_incoming, same_entries_existing. intros k. by rewrite lookup_empty. }
  apply map_eq. intros k. apply option_eq. intros s.
  rewrite lookup_cache_view by apply merged_ids_NoDup.
  unfold view_merge. fold m. rewrite map_lookup_filter_Some. simpl.
  rewrite <- (covered_view e i s m Hm), not_true_iff_false, elem_of_merged, elem_of_combined.
  rewrite Hm. destruct (keyed_byIdentity e i) as [Hn Hk]. split; [by intros [[? ?] ->]|].
  intros [Hks ?]. rewrite <- Hm in Hks. apply assoc_get_elem in Hks as Hin; [|done].
  destruct (Hk _ _ Hin) as [-> _]. by rewrite <- Hm.
Qed.

Lemma cache_view_size rows :
  NoDup (snapshotIdentity <$> rows) -> size (cache_view rows) = length rows.
Proof.
  intros Hn. unfold cache_view. rewrite map_size_list_to_map; [by rewrite length_fmap|].
  by rewrite <- list_fmap_compose.
Qed.

Lemma kept_size e i limit : length (kept e i limit) = Nat.min limit (length (merged e i)).
Proof.
  unfold kept. destruct (Nat.leb_spec (length (merged e i)) limit); [lia|].
  rewrite length_take, length_sort_by. lia.
Qed.

Lemma kept_newest e i limit s r :
  s ∈ kept e i limit -> r ∈ merged e i -> r ∉ kept e i limit ->
  observedMilliseconds r <= observedMilliseconds s.
Proof.
  unfold kept. destruct (Nat.leb_spec (length (merged e i)) limit); [done|]. intros Hs Hr Hno.
  apply (take_sorted_le (sort_by compareObserved (merged e i)) limit); try done.
  - apply (sort_by_sorted compareObserved).
  - by apply elem_of_sort_by.
Qed.

(** C28: the merge refines its specification on finite maps. The document read
    as a map from identities to readings holds only entries of the specified
    map: the stored one with each incoming reading written over an older or
    equal one, less the anonymous Claude rows a scoped account covers. It holds
    as many of them as the limit allows, all of them when they fit; and when
    they do not, no reading cut off was observed after one that is kept. *)
Theorem mergeSnapshots_refines_map_merge e i limit :
  let view := cache_view (mergeSnapshots e i limit) in
  view ⊆ view_merge e i /\
  size view = Nat.min limit (size (view_merge e i)) /\
  ((size (view_merge e i) <= limit)%nat -> view = view_merge e i) /\
  forall k s k' s', view !! k = Some s -> view_merge e i !! k' = Some s' -> view !! k' = None ->
    observedMilliseconds s' <= observedMilliseconds s.
Proof.
  rewrite <- merged_view, mergeSnapshots_kept. cbv zeta.
  pose proof (kept_NoDup e i limit) as Hn. pose proof (merged_ids_NoDup e i) as Hm.
  assert (Hl : forall k s, cache_view (sort_by compareIdentity (kept e i limit)) !! k = Some s <->
    s ∈ kept e i limit /\ k = snapshotIdentity s).
  { intros k s. rewrite lookup_cache_view by by rewrite sort_by_perm. by rewrite elem_of_sort_by. }
  assert (Hsub : cache_view (sort_by compareIdentity (kept e i limit)) ⊆ cache_view (merged e i)).
  { apply map_subseteq_spec. intros k s [Hs ->]%Hl. apply lookup_cache_view; [done|].
    split; [by eapply kept_merged|done]. }
  assert (Hsize : size (cache_view (sort_by compareIdentity (kept e i limit))) =
    Nat.min limit (size (cache_view (merged e i)))).
  { rewrite !cache_view_size; [|done|by rewrite sort_by_perm]. by rewrite length_sort_by, kept_size. }
  split_and!; [done|done| |].
  - intros Hle. apply map_subseteq_size_eq; [done|lia].
  - intros k s k' s' [Hs _]%Hl [Hs' ->]%lookup_cache_view Hno; [|done].
    apply (kept_newest e i limit); [done|done|]. intros Hin.
    assert (cache_view (sort_by compareIdentity (kept e i limit)) !! snapshotIdentity s' = Some s')
      by by apply Hl. congruence.
Qed.
End Merge.

(** ** Identities *)

Lemma safeMeter_no_space m : safeMeter m = true -> no_space m = true.
Proof.
  destruct m as [|c m]; [done|]. unfold safeMeter, no_space. rewrite !andb_true_iff.
  intros [[Hc Hm] _]. simpl. apply andb_true_iff. split.
  - destruct (Ascii.eqb_spec c " ") as [->|]; [by vm_compute in Hc|done].
  - eapply str_forall_impl; [|exact Hm]. intros d Hd. simpl in Hd.
    destruct (Ascii.eqb_spec d " ") as [->|]; [by vm_compute in Hd|done].
Qed.

Lemma account_id_no_space a : account_id_pattern a = true -> no_space a = true.
Proof.
  destruct a as [|c a]; [done|]. unfold account_id_pattern, no_space. rewrite !andb_true_iff.
  intros [[Hc Ha] _]. simpl. apply andb_true_iff. split.
  - destruct (Ascii.eqb_spec c " ") as [->|]; [by vm_compute in Hc|done].
  - eapply str_forall_impl; [|exact Ha]. intros d Hd. simpl in Hd.
    destruct (Ascii.eqb_spec d " ") as [->|]; [by vm_compute in Hd|done].
Qed.

Lemma provider_no_space (p : ProviderCode) : no_space (name_of p) = true.
Proof. by destruct p. Qed.

(** What the normalizer guarantees of the parts of an identity. *)
Definition identifiable (s : Snapshot) : Prop :=
  safeMeter (s_meter s) = true /\
  from_option (fun a => account_id_pattern a = true) True (s_accountId s).

(** Joining with spaces does not collide. Two readings the normalizer
    accepted have the same identity exactly when they agree on provider,
    meter and account, where no account is an account of its own. *)
Theorem snapshotIdentity_injective s t :
  identifiable s -> identifiable t ->
  snapshotIdentity s = snapshotIdentity t <->
  s_provider s = s_provider t /\ s_meter s = s_meter t /\ s_accountId s = s_accountId t.
Proof.
  intros [Hs Hsa] [Ht Hta]. split; [|unfold snapshotIdentity; by intros (-> & -> & ->)].
  assert (Hj : forall u, snapshotIdentity u = name_of (s_provider u) +:+ String " "
    (s_meter u +:+ match s_accountId u with None => "" | Some a => String " " a end)).
  { intros u. unfold snapshotIdentity. destruct (s_accountId u); simpl.
    - by rewrite <- !str_app_assoc.
    - by rewrite str_app_nil_r. }
  rewrite !Hj. intros E.
  apply split_first_inj in E as [Ep E]; try apply provider_no_space.
  apply name_of_inj in Ep. split; [done|].
  apply safeMeter_no_space in Hs, Ht.
  destruct (s_accountId s) as [a|], (s_accountId t) as [b|].
  - apply split_first_inj in E as [-> ->]; done.
  - rewrite str_app_nil_r in E. symmetry in E. by apply (no_first " ") in E.
  - rewrite str_app_nil_r in E. by apply (no_first " ") in E.
  - by rewrite !str_app_nil_r in E.
Qed.

(** ** Witnesses *)

Definition older_row : Snapshot :=
  sample_snapshot CODEX "FIVE_HOUR" (int 10) "2026-01-01T00:00:00.000Z" "2026-01-01T01:00:00.000Z".
Definition newer_row : Snapshot :=
  sample_snapshot CODEX "FIVE_HOUR" (int 20) "2026-01-01T00:30:00.000Z" "2026-01-01T01:30:00.000Z".

Lemma mergeSnapshots_never_goes_back_witness :
  mergeSnapshots (H:=strict_host) [newer_row] [older_row] 64 = [newer_row] /\
  exists newest, snapshotIdentity newest = snapshotIdentity newer_row.
Proof.
  split; [by vm_compute|].
  destruct (mergeSnapshots_never_goes_back (H:=strict_host) [newer_row] [older_row] 64 newer_row)
    as (newest & _ & E & _).
  - apply (bool_decide_unpack _). by vm_compute.
  - left. by apply list_elem_of_singleton.
  - by vm_compute.
  - by exists newest.
Defined.

(** Two identities and room for one: the newer reading stays. *)
Lemma mergeSnapshots_refines_map_merge_witness :
  let other := sample_snapshot KIMI "FIVE_HOUR" (int 5) "2026-01-01T00:10:00.000Z" "2026-01-01T01:10:00.000Z" in
  let view := cache_view (mergeSnapshots (H:=strict_host) [older_row; other] [newer_row] 1) in
  size view = 1%nat /\
  forall s' k', view_merge (H:=strict_host) [older_row; other] [newer_row] !! k' = Some s' ->
    view !! k' = None ->
    observedMilliseconds (H:=strict_host) s' <= observedMilliseconds (H:=strict_host) newer_row.
Proof.
  cbv zeta. set (other := sample_snapshot _ _ _ _ _).
  destruct (mergeSnapshots_refines_map_merge (H:=strict_host) [older_row; other] [newer_row] 1)
    as (_ & Hs & _ & Hcut).
  split; [rewrite Hs; by vm_compute|].
  intros s' k'. apply (Hcut (snapshotIdentity newer_row)). by vm_compute.
Defined.

Lemma snapshotIdentity_injective_witness :
  s_meter older_row = s_meter newer_row.
Proof.
  apply (snapshotIdentity_injective older_row newer_row); by vm_compute.
Defined.
