(* ===== verification/Collection.v ===== *)
(** * What a collection run does to the cache

    [collection.ts]: reports folded into the shared cache document, drift as a
    standing suppression, and the rows a surface may see. A failed read of the
    suppression list is [None]. *)
From stdpp Require Import relations.
From S2P Require Import Prelude JsNum JsDate JsValue Text Types DataRules Merge.
Local Open Scope string_scope.
Local Open Scope Z_scope.
Local Open Scope list_scope.
Local Open Scope js_scope.

Inductive CollectionFailureReason :=
| cr_drift | cr_network | cr_authentication | cr_rate_limited | cr_remote_error | cr_local_io.

#[export] Instance CollectionFailureReason_eq : EqDecision CollectionFailureReason.
Proof. solve_decision. Defined.

#[export] Instance COLLECTION_FAILURE_REASONS : Closed CollectionFailureReason := {
  all_of := [cr_drift; cr_network; cr_authentication; cr_rate_limited; cr_remote_error;
             cr_local_io];
  name_of r :=
    match r with
    | cr_drift => "drift" | cr_network => "network" | cr_authentication => "authentication"
    | cr_rate_limited => "rate_limited" | cr_remote_error => "remote_error"
    | cr_local_io => "local_io"
    end }.

#[export] Instance failure_reasons_laws : ClosedLaws CollectionFailureReason.
Proof. solve_closed. Qed.

Inductive CollectionOutcome :=
| Collected (snapshots : list Snapshot)
| Failed (reason : CollectionFailureReason).

Record CollectionReport := {
  rp_provider : ProviderCode;
  rp_accountId : option string;
  rp_observedAt : string;
  rp_outcome : CollectionOutcome }.

(** The [reason] is always drift. *)
Record CacheSuppression := {
  sp_provider : ProviderCode;
  sp_accountId : option string;
  sp_suppressedAt : string }.

#[export] Instance CacheSuppression_eq : EqDecision CacheSuppression.
Proof. solve_decision. Defined.

Definition MAX_CACHE_SUPPRESSIONS : nat := MAX_CACHE_ENTRIES.

Record CacheState := {
  st_snapshots : list Snapshot; st_suppressions : list CacheSuppression }.

Definition collectionIdentity (provider : ProviderCode) (accountId : option string) : string :=
  match accountId with
  | None => name_of provider
  | Some a => name_of provider +:+ " " +:+ a
  end.

Definition snapshotBelongsTo (s : Snapshot) (provider : ProviderCode)
    (accountId : option string) : bool :=
  bool_decide (s_provider s = provider) &&
  str_eqb (collectionIdentity provider (s_accountId s)) (collectionIdentity provider accountId).

(** ** Reading the suppression list *)

Definition is_drift (v : jsval) : bool := is_string v (name_of cr_drift).

Definition claudeRowCounts (row : Snapshot) (pollOn : bool) : bool :=
  if negb (bool_decide (s_provider row = CLAUDE)) then true
  else if str_eqb (s_meter row) "ACQUISITION" then pollOn
  else
    let remote := provenance_is remote_api row in
    if pollOn then remote else negb remote && negb (starts_with "SEVEN_DAY" (s_meter row)).

Section Collection.
Context `{DateHost}.

Definition readSuppression (entry : jsval) : option CacheSuppression :=
  let? fs := record_of entry in
  let? provider := read_name (get fs "provider") in
  check is_drift (get fs "reason");;
  let? suppressedAt := as_string (get fs "suppressedAt") in
  let? _ := date_parse suppressedAt in
  match get fs "accountId" with
  | JUndef =>
      Some {| sp_provider := provider; sp_accountId := None; sp_suppressedAt := suppressedAt |}
  | JStr a =>
      check account_id_pattern a;;
      Some {| sp_provider := provider; sp_accountId := Some a; sp_suppressedAt := suppressedAt |}
  | _ => None
  end.

Definition readSuppressions (v : jsval) : option (list CacheSuppression) :=
  match v with
  | JUndef | JNull => Some []
  | JArr entries =>
      check (length entries <=? MAX_CACHE_SUPPRESSIONS)%nat;;
      mapM readSuppression entries
  | _ => None
  end.

(** ** Folding a report into the cache *)

Definition suppressionMatches (provider : ProviderCode) (accountId : option string)
    (s : CacheSuppression) : bool :=
  bool_decide (sp_provider s = provider) &&
  str_eqb (collectionIdentity provider (sp_accountId s)) (collectionIdentity provider accountId).

Definition suppressedMilliseconds (s : CacheSuppression) : Z :=
  default 0 (date_parse (sp_suppressedAt s)).

Definition compareSuppressed (l r : CacheSuppression) : comparison :=
  suppressedMilliseconds r ?= suppressedMilliseconds l.

Definition boundSuppressions (l : list CacheSuppression) : list CacheSuppression :=
  if (length l <=? MAX_CACHE_SUPPRESSIONS)%nat then l
  else take MAX_CACHE_SUPPRESSIONS (sort_by compareSuppressed l).

Definition same_identity (a b : Snapshot) : bool :=
  str_eqb (snapshotIdentity a) (snapshotIdentity b).

Definition is_newer (rows : list Snapshot) (s : Snapshot) : bool :=
  match List.find (fun row => same_identity row s) rows with
  | None => true
  | Some current => date_parse (s_observedAt current) <t date_parse (s_observedAt s)
  end.

Definition is_partial (snapshots : list Snapshot) : bool :=
  negb (bool_decide (snapshots = [])) && forallb (provenance_is statusline_payload) snapshots.

Definition applyCollectionReport (state : CacheState) (report : CollectionReport) : CacheState :=
  match date_parse (rp_observedAt report) with
  | None => state
  | Some observed =>
      let state := {| st_snapshots := retainSnapshots (st_snapshots state) observed;
                      st_suppressions := st_suppressions state |} in
      let belongs s := snapshotBelongsTo s (rp_provider report) (rp_accountId report) in
      let matches_ := suppressionMatches (rp_provider report) (rp_accountId report) in
      if existsb (fun entry => matches_ entry &&
           (Some observed <t date_parse (sp_suppressedAt entry))) (st_suppressions state)
      then state
      else
        match rp_outcome report with
        | Failed cr_drift =>
            if existsb (fun s => belongs s && (Some observed <t date_parse (s_observedAt s)))
                 (st_snapshots state)
            then state
            else
              {| st_snapshots := filter (fun s => belongs s = false) (st_snapshots state);
                 st_suppressions :=
                   boundSuppressions
                     (filter (fun s => matches_ s = false) (st_suppressions state) ++
                      [{| sp_provider := rp_provider report;
                          sp_accountId := rp_accountId report;
                          sp_suppressedAt := rp_observedAt report |}]) |}
        | Failed _ => state
        | Collected snapshots =>
            let incoming := filter (fun s => isClaudePayloadWeekly s = false) snapshots in
            let newer := filter (fun s => is_newer (st_snapshots state) s = true) incoming in
            let retained :=
              if is_partial snapshots then st_snapshots state
              else filter (fun s => negb (belongs s) || existsb (fun t => same_identity t s) snapshots = true)
                     (st_snapshots state) in
            {| st_snapshots := mergeSnapshots retained newer MAX_CACHE_ENTRIES;
               st_suppressions := filter (fun s => matches_ s = false) (st_suppressions state) |}
        end
  end.

(** ** What a surface sees *)

Definition suppressed_by (s : Snapshot) (sup : CacheSuppression) : bool :=
  snapshotBelongsTo s (sp_provider sup) (sp_accountId sup) &&
  match date_parse (s_observedAt s) with
  | None => true
  | Some observed => observed <=? suppressedMilliseconds sup
  end.

Definition visibleSnapshots (state : CacheState) : list Snapshot :=
  filter (fun s => isSnapshotDisplayEligible s = true /\
                   existsb (suppressed_by s) (st_suppressions state) = false)
    (st_snapshots state).

(** ** Lemmas *)

Lemma collectionIdentity_inj p a b : collectionIdentity p a = collectionIdentity p b <-> a = b.
Proof.
  split; [|by intros ->]. unfold collectionIdentity.
  destruct a as [a|], b as [b|]; intros E; [| | |done].
  - apply str_app_inj_l, str_app_inj_l in E. by subst.
  - exfalso. rewrite <- (str_app_nil_r (name_of p)) in E at 2. by apply str_app_inj_l in E.
  - exfalso. rewrite <- (str_app_nil_r (name_of p)) in E at 1. by apply str_app_inj_l in E.
Qed.

Lemma snapshotBelongsTo_iff s p a :
  snapshotBelongsTo s p a = true <-> s_provider s = p /\ s_accountId s = a.
Proof.
  unfold snapshotBelongsTo. rewrite andb_true_iff, bool_decide_eq_true, str_eqb_eq.
  by rewrite collectionIdentity_inj.
Qed.

Lemma suppressionMatches_iff p a s :
  suppressionMatches p a s = true <-> sp_provider s = p /\ sp_accountId s = a.
Proof.
  unfold suppressionMatches. rewrite andb_true_iff, bool_decide_eq_true, str_eqb_eq.
  by rewrite collectionIdentity_inj.
Qed.

Lemma boundSuppressions_subset l : boundSuppressions l ⊆ l.
Proof.
  unfold boundSuppressions. case_match; [done|].
  intros s (i & Hi & _)%elem_of_take. apply list_elem_of_lookup_2 in Hi.
  by rewrite sort_by_perm in Hi.
Qed.

Lemma boundSuppressions_length l : (length (boundSuppressions l) <= MAX_CACHE_SUPPRESSIONS)%nat.
Proof.
  unfold boundSuppressions. case_match eqn:E; [by apply Nat.leb_le in E|].
  rewrite length_take. lia.
Qed.

(** Whose rows a suppression distrusts. *)
Definition identity_of (s : CacheSuppression) : ProviderCode * option string :=
  (sp_provider s, sp_accountId s).

Lemma boundSuppressions_NoDup l :
  NoDup (identity_of <$> l) -> NoDup (identity_of <$> boundSuppressions l).
Proof.
  intros Hn. unfold boundSuppressions. case_match; [done|].
  assert (Hs : NoDup (identity_of <$> sort_by compareSuppressed l)) by (by rewrite sort_by_perm).
  eapply sublist_NoDup; [exact Hs|]. apply fmap_sublist, sublist_take.
Qed.

(** A document as every writer keeps it. *)
Record cache_ok (state : CacheState) : Prop := {
  ok_rows : NoDup (snapshotIdentity <$> st_snapshots state);
  ok_weekly s : s ∈ st_snapshots state -> isClaudePayloadWeekly s = false;
  ok_bound : (length (st_snapshots state) <= MAX_CACHE_ENTRIES)%nat;
  ok_suppressions : NoDup (identity_of <$> st_suppressions state);
  ok_suppressions_bound : (length (st_suppressions state) <= MAX_CACHE_SUPPRESSIONS)%nat }.

Lemma filter_rows_ok (P : Snapshot -> Prop) `{!forall s, Decision (P s)} state sups :
  cache_ok state -> sups = st_suppressions state ->
  cache_ok {| st_snapshots := filter P (st_snapshots state); st_suppressions := sups |}.
Proof.
  intros [Hr Hw Hb Hs Hsb] ->. split; simpl; try done.
  - eapply sublist_NoDup; [exact Hr|]. apply fmap_sublist, sublist_filter.
  - intros s [_ ?]%list_elem_of_filter. by apply Hw.
  - pose proof (length_filter P (st_snapshots state)). lia.
Qed.

Lemma filter_suppressions_ok (P : CacheSuppression -> Prop) `{!forall s, Decision (P s)} l :
  NoDup (identity_of <$> l) -> NoDup (identity_of <$> filter P l).
Proof. intros Hn. eapply sublist_NoDup; [exact Hn|]. apply fmap_sublist, sublist_filter. Qed.

Lemma applyCollectionReport_ok state report :
  cache_ok state -> cache_ok (applyCollectionReport state report).
Proof.
  intros Hok. unfold applyCollectionReport. destruct (date_parse _) as [t|]; [|done].
  assert (Hret := filter_rows_ok (fun row => retained t row = true) state _ Hok eq_refl).
  fold (retainSnapshots (st_snapshots state) t) in Hret.
  case_match; [done|]. destruct Hok as [Hr Hw Hb Hs Hsb].
  destruct (rp_outcome report) as [snapshots|[]]; try done; simpl in *.
  - destruct (mergeSnapshots_canonical_facts
      (if is_partial snapshots then retainSnapshots (st_snapshots state) t
       else filter (fun s => negb (snapshotBelongsTo s (rp_provider report) (rp_accountId report)) ||
         existsb (fun t => same_identity t s) snapshots = true) (retainSnapshots (st_snapshots state) t))
      (filter (fun s => is_newer (retainSnapshots (st_snapshots state) t) s = true)
         (filter (fun s => isClaudePayloadWeekly s = false) snapshots)) MAX_CACHE_ENTRIES)
      as (Hn & Hnw & Hl).
    split; simpl; [done|done|done|by apply filter_suppressions_ok|].
    pose proof (length_filter (fun s => suppressionMatches (rp_provider report)
      (rp_accountId report) s = false) (st_suppressions state)). lia.
  - case_match; [done|]. split; simpl.
    + eapply sublist_NoDup; [apply (ok_rows _ Hret)|]. apply fmap_sublist, sublist_filter.
    + intros s [_ ?]%list_elem_of_filter. by apply (ok_weekly _ Hret).
    + pose proof (length_filter (fun s => snapshotBelongsTo s (rp_provider report)
        (rp_accountId report) = false) (retainSnapshots (st_snapshots state) t)).
      pose proof (ok_bound _ Hret). simpl in *. lia.
    + apply boundSuppressions_NoDup. rewrite fmap_app. csimpl. apply NoDup_app.
      split_and!; [by apply filter_suppressions_ok| |apply NoDup_singleton].
      intros k (s & -> & [Hm Hin]%list_elem_of_filter)%list_elem_of_fmap E%list_elem_of_singleton.
      injection E as Ep Ea. apply not_true_iff_false in Hm. apply Hm.
      by apply suppressionMatches_iff.
    + apply boundSuppressions_length.
Qed.

(** The shared document stays well formed through every history. Whatever
    reports arrive in whatever order, one row per identity, one suppression
    per provider and account, and both lists within their bounds. *)
Theorem collection_history_keeps_cache_ok reports state :
  cache_ok state -> cache_ok (foldl applyCollectionReport state reports).
Proof.
  revert state. induction reports as [|report reports IH]; simpl; [done|].
  intros state Hok. apply IH. by apply applyCollectionReport_ok.
Qed.

(** What a surface sees, exactly: the eligible rows no standing
    suppression distrusts, a row being distrusted unless it was observed
    strictly after the suppression of its provider and account. *)
Theorem visibleSnapshots_exact state s :
  s ∈ visibleSnapshots state <->
  s ∈ st_snapshots state /\ isSnapshotDisplayEligible s = true /\
  forall sup, sup ∈ st_suppressions state -> sp_provider sup = s_provider s ->
    sp_accountId sup = s_accountId s ->
    (Some (suppressedMilliseconds sup) <t date_parse (s_observedAt s)) = true.
Proof.
  unfold visibleSnapshots. rewrite list_elem_of_filter.
  enough (Hex : existsb (suppressed_by s) (st_suppressions state) = false <->
    forall sup, sup ∈ st_suppressions state -> sp_provider sup = s_provider s ->
      sp_accountId sup = s_accountId s ->
      (Some (suppressedMilliseconds sup) <t date_parse (s_observedAt s)) = true) by tauto.
  rewrite <- not_true_iff_false, existsb_exists. unfold suppressed_by, tlt. split.
  - intros Hno sup Hin Ep Ea. destruct (date_parse (s_observedAt s)) as [t|] eqn:Et.
    + apply Z.ltb_lt. apply Z.nle_gt. intros Hle. apply Hno. exists sup.
      rewrite list_elem_of_In in Hin. split; [done|].
      rewrite andb_true_iff, snapshotBelongsTo_iff, Z.leb_le. done.
    + exfalso. apply Hno. exists sup. rewrite list_elem_of_In in Hin. split; [done|].
      rewrite andb_true_iff, snapshotBelongsTo_iff. done.
  - intros Hall (sup & Hin & [[Ep Ea]%snapshotBelongsTo_iff Ho]%andb_true_iff).
    apply list_elem_of_In in Hin. specialize (Hall sup Hin (eq_sym Ep) (eq_sym Ea)).
    destruct (date_parse (s_observedAt s)); [|done].
    apply Z.ltb_lt in Hall. apply Z.leb_le in Ho. lia.
Qed.

(** A drift report that is neither older than a suppression nor than a row. *)
Definition drift_applies (state : CacheState) (p : ProviderCode) (a : option string) (t : Z) :
    Prop :=
  (forall sup, sup ∈ st_suppressions state -> sp_provider sup = p -> sp_accountId sup = a ->
     (Some t <t date_parse (sp_suppressedAt sup)) = false) /\
  (forall s, s ∈ st_snapshots state -> s_provider s = p -> s_accountId s = a ->
     (Some t <t date_parse (s_observedAt s)) = false).

Lemma existsb_false {A} (f : A -> bool) l :
  (forall x, x ∈ l -> f x = false) -> existsb f l = false.
Proof.
  intros Hall. apply not_true_iff_false. intros (x & Hx & Hf)%existsb_exists.
  apply list_elem_of_In in Hx. rewrite Hall in Hf; done.
Qed.

Lemma elem_of_retain s rows t : s ∈ retainSnapshots rows t -> s ∈ rows.
Proof. by intros [_ ?]%list_elem_of_filter. Qed.

Lemma drift_result state p a at_ t :
  date_parse at_ = Some t -> drift_applies state p a t ->
  applyCollectionReport state
    {| rp_provider := p; rp_accountId := a; rp_observedAt := at_; rp_outcome := Failed cr_drift |} =
  {| st_snapshots := filter (fun s => snapshotBelongsTo s p a = false)
       (retainSnapshots (st_snapshots state) t);
     st_suppressions := boundSuppressions
       (filter (fun s => suppressionMatches p a s = false) (st_suppressions state) ++
        [{| sp_provider := p; sp_accountId := a; sp_suppressedAt := at_ |}]) |}.
Proof.
  intros Et [Hsup Hrow]. unfold applyCollectionReport. simpl. rewrite Et.
  rewrite existsb_false.
  - rewrite existsb_false; [done|]. intros s Hs. apply andb_false_iff.
    destruct (snapshotBelongsTo s p a) eqn:E; [right|by left].
    apply snapshotBelongsTo_iff in E as [Ep Ea]. apply Hrow; eauto using elem_of_retain.
  - intros sup Hin. apply andb_false_iff.
    destruct (suppressionMatches p a sup) eqn:E; [right|by left].
    apply suppressionMatches_iff in E as [Ep Ea]. by apply Hsup.
Qed.

Definition report_rows (report : CollectionReport) : list Snapshot :=
  match rp_outcome report with Collected l => l | Failed _ => [] end.

(** A report adds no row but its own. *)
Lemma applyCollectionReport_rows state report s :
  s ∈ st_snapshots (applyCollectionReport state report) ->
  s ∈ st_snapshots state \/ s ∈ report_rows report.
Proof.
  unfold applyCollectionReport, report_rows. destruct (date_parse _) as [t|]; [|by left].
  case_match; [left; by eapply elem_of_retain|].
  destruct (rp_outcome report) as [snapshots|[]]; simpl.
  - intros Hin%mergeSnapshots_subset.
    destruct Hin as [Hin|[_ [_ Hin]%list_elem_of_filter]%list_elem_of_filter]; [left|by right].
    case_match; [by eapply elem_of_retain|].
    apply list_elem_of_filter in Hin as [_ Hin]. by eapply elem_of_retain.
  - case_match; simpl; [left; by eapply elem_of_retain|].
    intros [_ Hin]%list_elem_of_filter. left. by eapply elem_of_retain.
  - left. by eapply elem_of_retain.
  - left. by eapply elem_of_retain.
  - left. by eapply elem_of_retain.
  - left. by eapply elem_of_retain.
  - left. by eapply elem_of_retain.
Qed.

(** Rows of one provider and account all observed strictly after an instant. *)
Definition rows_after_instant (p : ProviderCode) (a : option string) (t : Z) (l : list Snapshot) :
    Prop :=
  forall s, s ∈ l -> s_provider s = p -> s_accountId s = a ->
    (Some t <t date_parse (s_observedAt s)) = true.

Definition successful_read (p : ProviderCode) (a : option string) (report : CollectionReport) : Prop :=
  rp_provider report = p /\ rp_accountId report = a /\ exists l, rp_outcome report = Collected l.

(** What may happen to the document while an identity is not read
    successfully: a report about anything else, or any other failure of that
    identity, with room in the list of suppressions; and whatever any writer
    that keeps the suppressions does to the rows, putting old ones back
    included. *)
Inductive unread_step (p : ProviderCode) (a : option string) : CacheState -> CacheState -> Prop :=
  | us_report state report :
      ~ successful_read p a report ->
      (length (st_suppressions state) < MAX_CACHE_SUPPRESSIONS)%nat ->
      unread_step p a state (applyCollectionReport state report)
  | us_rows state rows :
      unread_step p a state {| st_snapshots := rows; st_suppressions := st_suppressions state |}.

(** A standing suppression of the identity, at the instant or later. *)
Definition doubted (p : ProviderCode) (a : option string) (t : Z) (state : CacheState) : Prop :=
  exists sup u, sup ∈ st_suppressions state /\ sp_provider sup = p /\ sp_accountId sup = a /\
    date_parse (sp_suppressedAt sup) = Some u /\ t <= u.

Lemma boundSuppressions_room l :
  (length l <= MAX_CACHE_SUPPRESSIONS)%nat -> boundSuppressions l = l.
Proof. unfold boundSuppressions. intros Hl%Nat.leb_le. by rewrite Hl. Qed.

Lemma drift_room p a sups new :
  (length sups < MAX_CACHE_SUPPRESSIONS)%nat ->
  boundSuppressions (filter (fun s => suppressionMatches p a s = false) sups ++ [new]) =
  filter (fun s => suppressionMatches p a s = false) sups ++ [new].
Proof.
  intros Hl. apply boundSuppressions_room. rewrite length_app. cbn [length].
  pose proof (length_filter (fun s => suppressionMatches p a s = false) sups). lia.
Qed.

Lemma doubted_other p a t q b state rows new :
  doubted p a t state -> (q, b) <> (p, a) ->
  doubted p a t {| st_snapshots := rows;
    st_suppressions := filter (fun s => suppressionMatches q b s = false) (st_suppressions state) ++ new |}.
Proof.
  intros (sup & u & Hin & Ep & Ea & Eu & Ht) Hne. exists sup, u. split_and!; [|done..].
  apply elem_of_app. left.
  apply list_elem_of_filter. split; [|done]. apply not_true_iff_false.
  intros [Hp Ha]%suppressionMatches_iff. congruence.
Qed.

Lemma unread_step_doubted p a t state state' :
  doubted p a t state -> unread_step p a state state' -> doubted p a t state'.
Proof.
  intros Hd Hs. destruct Hs as [st report Hno Hroom|st rows]; [|exact Hd]. unfold applyCollectionReport.
  destruct (date_parse (rp_observedAt report)) as [o|] eqn:Eo; [|done].
  assert (Hret : doubted p a t {| st_snapshots := retainSnapshots (st_snapshots st) o;
    st_suppressions := st_suppressions st |}) by exact Hd.
  destruct (existsb _ _) eqn:Elater; [exact Hret|].
  destruct (decide ((rp_provider report, rp_accountId report) = (p, a))) as [E|Hne].
  - injection E as Ep Ea. destruct (rp_outcome report) as [l|[]] eqn:Er; try exact Hret.
    + destruct Hno. by split_and!; [..|exists l].
    + case_match; [exact Hret|]. cbn [st_suppressions]. rewrite drift_room by done.
      destruct Hd as (sup & u & Hin & Ep' & Ea' & Eu & Ht).
      eexists _, o. split_and!; [apply elem_of_app; right; by apply list_elem_of_singleton|done..|].
      assert (Hm : suppressionMatches (rp_provider report) (rp_accountId report) sup = true)
        by (apply suppressionMatches_iff; by rewrite Ep, Ea).
      destruct (Z.le_gt_cases u o) as [|Hlt]; [lia|]. exfalso.
      apply not_true_iff_false in Elater. apply Elater, existsb_exists. exists sup.
      rewrite <- list_elem_of_In, Hm, Eu. split; [done|]. by apply Z.ltb_lt.
  - destruct (rp_outcome report) as [l|[]] eqn:Er; try exact Hret.
    + rewrite <- (app_nil_r (filter _ (st_suppressions st))). by apply doubted_other.
    + case_match; [exact Hret|]. cbn [st_suppressions]. rewrite drift_room by done.
      by apply doubted_other.
Qed.

Lemma doubted_hides p a t state :
  doubted p a t state -> rows_after_instant p a t (visibleSnapshots state).
Proof.
  intros (sup & u & Hin & Ep & Ea & Eu & Ht) s (_ & _ & Hs)%visibleSnapshots_exact Hp Ha.
  specialize (Hs sup Hin). rewrite Ep, Ea, Hp, Ha in Hs. specialize (Hs eq_refl eq_refl).
  unfold suppressedMilliseconds in Hs. rewrite Eu in Hs. unfold tlt in *. cbn in Hs.
  destruct (date_parse (s_observedAt s)); [|done]. apply Z.ltb_lt in Hs. apply Z.ltb_lt. lia.
Qed.

(** C8: drift is forgotten only by a successful read. Once a drift report at
    an instant has been applied, with room in the list of suppressions, then
    whatever follows in any number and order, other reports, further failures
    of the account, and writers that keep the suppressions but put any row back
    into the document, no reading of that provider and account observed at or
    before the drift is visible, until the account is read successfully or the
    list of suppressions is full. *)
Theorem drift_hides_older_readings_for_good state p a at_ t later :
  date_parse at_ = Some t -> drift_applies state p a t ->
  (length (st_suppressions state) < MAX_CACHE_SUPPRESSIONS)%nat ->
  rtc (unread_step p a)
    (applyCollectionReport state
       {| rp_provider := p; rp_accountId := a; rp_observedAt := at_; rp_outcome := Failed cr_drift |})
    later ->
  rows_after_instant p a t (visibleSnapshots later).
Proof.
  intros Et Happ Hroom Hsteps. apply doubted_hides.
  rewrite (drift_result _ _ _ _ _ Et Happ), drift_room in Hsteps by done.
  assert (H0 : doubted p a t {| st_snapshots := filter (fun s => snapshotBelongsTo s p a = false)
    (retainSnapshots (st_snapshots state) t);
    st_suppressions := filter (fun s => suppressionMatches p a s = false) (st_suppressions state) ++
      [{| sp_provider := p; sp_accountId := a; sp_suppressedAt := at_ |}] |}).
  { eexists _, t. split_and!; [apply elem_of_app; right; by apply list_elem_of_singleton|done..]. }
  revert H0 Hsteps. generalize {| st_snapshots := filter (fun s => snapshotBelongsTo s p a = false)
    (retainSnapshots (st_snapshots state) t);
    st_suppressions := filter (fun s => suppressionMatches p a s = false) (st_suppressions state) ++
      [{| sp_provider := p; sp_accountId := a; sp_suppressedAt := at_ |}] |}.
  intros first H0 Hsteps. induction Hsteps; eauto using unread_step_doubted.
Qed.

(** An ordinary failure says nothing about what is already held. Any
    outcome but drift and success leaves the suppressions alone and the rows
    as retention leaves them; and no report of any kind touches a document it
    cannot date. *)
Theorem ordinary_failure_keeps_readings state report reason :
  rp_outcome report = Failed reason -> reason <> cr_drift ->
  applyCollectionReport state report =
  match date_parse (rp_observedAt report) with
  | None => state
  | Some t => {| st_snapshots := retainSnapshots (st_snapshots state) t;
                 st_suppressions := st_suppressions state |}
  end.
Proof.
  intros Eo Hr. unfold applyCollectionReport. rewrite Eo.
  destruct (date_parse _) as [t|]; [|done]. case_match; [done|]. by destruct reason.
Qed.

Lemma find_first rows s current :
  List.find (fun row => same_identity row s) rows = Some current ->
  current ∈ rows /\ snapshotIdentity current = snapshotIdentity s.
Proof.
  intros [Hin E]%find_some. apply list_elem_of_In in Hin. by apply str_eqb_eq in E.
Qed.

(** The row an incoming reading does not replace is at least as recent. *)
Lemma not_newer state t s o :
  date_parse (s_observedAt s) = Some o ->
  is_newer (retainSnapshots (st_snapshots state) t) s = false ->
  exists current, current ∈ retainSnapshots (st_snapshots state) t /\
    snapshotIdentity current = snapshotIdentity s /\
    observedMilliseconds s <= observedMilliseconds current.
Proof.
  intros Eo. unfold is_newer. destruct (List.find _ _) as [current|] eqn:Ef; [|done].
  apply find_first in Ef as [Hin Eid]. intros Hlt. exists current. split_and!; [done|done|].
  unfold observedMilliseconds. rewrite Eo in *. simpl.
  apply list_elem_of_filter in Hin as [Hret _]. unfold retained in Hret.
  destruct (date_parse (s_observedAt current)) as [c|]; [|done].
  simpl in *. by apply Z.ltb_ge in Hlt.
Qed.

(** Success restores trust. A success report that no later drift has
    overtaken clears the suppression of its provider and account and no other;
    and for every dated reading it carries, the newest reading of that
    identity the document or the report held is in the document afterwards,
    or is covered or crowded out as the merge says. *)
Theorem success_restores_trust state p a at_ t snapshots :
  cache_ok state -> date_parse at_ = Some t ->
  (forall sup, sup ∈ st_suppressions state -> sp_provider sup = p -> sp_accountId sup = a ->
     (Some t <t date_parse (sp_suppressedAt sup)) = false) ->
  let state' := applyCollectionReport state
    {| rp_provider := p; rp_accountId := a; rp_observedAt := at_;
       rp_outcome := Collected snapshots |} in
  (forall sup, sup ∈ st_suppressions state' <->
     sup ∈ st_suppressions state /\ identity_of sup <> (p, a)) /\
  (forall s o, s ∈ snapshots -> isClaudePayloadWeekly s = false ->
     date_parse (s_observedAt s) = Some o ->
     exists newest, (newest ∈ st_snapshots state \/ newest ∈ snapshots) /\
       snapshotIdentity newest = snapshotIdentity s /\
       observedMilliseconds s <= observedMilliseconds newest /\
       accounted (st_snapshots state) snapshots (st_snapshots state') MAX_CACHE_ENTRIES newest).
Proof.
  intros Hok Et Hsup state'. unfold state', applyCollectionReport. simpl. rewrite Et.
  rewrite existsb_false; simpl.
  2:{ intros sup Hin. apply andb_false_iff.
      destruct (suppressionMatches p a sup) eqn:E; [right|by left].
      apply suppressionMatches_iff in E as [Ep Ea]. by apply Hsup. }
  split.
  - intros sup. rewrite list_elem_of_filter, <- not_true_iff_false, suppressionMatches_iff.
    unfold identity_of. naive_solver.
  - intros s o Hs Hw Eo.
    set (rows := retainSnapshots (st_snapshots state) t).
    set (retained_rows := if is_partial snapshots then rows else _).
    set (newer := filter (fun s => is_newer rows s = true) _).
    assert (Hsub : retained_rows ⊆ st_snapshots state).
    { intros x Hx. apply (elem_of_retain x _ t). unfold retained_rows in Hx.
      case_match; [done|]. by apply list_elem_of_filter in Hx as [_ ?]. }
    assert (Hnsub : newer ⊆ snapshots).
    { intros x [_ [_ Hx]%list_elem_of_filter]%list_elem_of_filter. done. }
    assert (Hn : NoDup (snapshotIdentity <$> retained_rows)).
    { pose proof (ok_rows _ Hok) as Hn. unfold retained_rows, rows, retainSnapshots.
      case_match; (eapply sublist_NoDup; [exact Hn|]; apply fmap_sublist);
        [apply sublist_filter|etrans; apply sublist_filter]. }
    assert (Hcand : exists c, (c ∈ retained_rows \/ c ∈ newer) /\
      snapshotIdentity c = snapshotIdentity s /\ isClaudePayloadWeekly c = false /\
      observedMilliseconds s <= observedMilliseconds c).
    { destruct (is_newer rows s) eqn:Enew.
      - exists s. split_and!; [right|done|done|done]. unfold newer.
        by rewrite !list_elem_of_filter.
      - destruct (not_newer _ _ _ _ Eo Enew) as (c & Hc & Ec & Ho). exists c.
        split_and!; [left|done| |done]; [|by apply (ok_weekly _ Hok), (elem_of_retain _ _ t)].
        unfold retained_rows. case_match; [done|]. apply list_elem_of_filter. split; [|done].
        apply orb_true_iff. right. apply existsb_exists. exists s.
        rewrite <- list_elem_of_In. split; [done|]. by apply str_eqb_eq. }
    destruct Hcand as (c & Hc & Ec & Hcw & Ho).
    destruct (newest_accounted retained_rows newer MAX_CACHE_ENTRIES c Hn Hc Hcw)
      as (newest & Hin & En & Hno & Hacc).
    exists newest. split_and!; [naive_solver|congruence|lia|].
    unfold accounted in *. naive_solver.
Qed.

(** ** The suppression list on disk *)

Definition raw_of_suppression (s : CacheSuppression) : jsval :=
  JObj ([("provider", name (sp_provider s)); ("reason", JStr "drift");
         ("suppressedAt", JStr (sp_suppressedAt s))] ++
        opt "accountId" JStr (sp_accountId s)).

Definition suppression_ok (s : CacheSuppression) : Prop :=
  is_Some (date_parse (sp_suppressedAt s)) /\
  from_option (fun a => account_id_pattern a = true) True (sp_accountId s).

Lemma readSuppression_raw s :
  readSuppression (raw_of_suppression s) = Some s <-> suppression_ok s.
Proof.
  destruct s as [p a t]. unfold readSuppression, raw_of_suppression, suppression_ok. simpl.
  assert (Hp : read_name (get (("provider", name p) :: ("reason", JStr "drift") ::
    ("suppressedAt", JStr t) :: opt "accountId" JStr a) "provider") = Some p)
    by apply read_name_name.
  rewrite Hp. change (is_drift _) with true. cbv iota.
  change (as_string _) with (Some t). cbv iota.
  destruct (date_parse t) as [d|] eqn:Et; [|split; [done|by intros [[x Hx] _]]].
  destruct a as [a|]; simpl; unfold get; simpl.
  - destruct (account_id_pattern a) eqn:Ea; [|split; [done|by intros [_ ?]]].
    split; [|done]. intros _. split; [by eexists|done].
  - split; [|done]. intros _. split; [by eexists|done].
Qed.

Lemma readSuppression_all l :
  Forall2 (fun x y => readSuppression (raw_of_suppression x) = Some y) l l <->
  Forall suppression_ok l.
Proof.
  induction l as [|s l IH]; [split; constructor|].
  rewrite Forall2_cons, Forall_cons, IH. by rewrite readSuppression_raw.
Qed.

Lemma readSuppression_ok entry s : readSuppression entry = Some s -> suppression_ok s.
Proof.
  unfold readSuppression, suppression_ok. intros E.
  destruct (record_of entry) as [fs|]; [|done]. destruct (read_name _); [|done].
  destruct (is_drift _); [|done]. destruct (as_string _) as [t|]; [|done].
  destruct (date_parse t) as [d|] eqn:Et; [|done].
  destruct (get fs "accountId"); try done; simplify_eq/=; [split; [by eexists|done]|].
  destruct (account_id_pattern s0) eqn:Ea; [|done]. injection E as <-. simpl.
  split; [by eexists|done].
Qed.

(** The suppression list is read whole or not at all. A list written out
    is read back as itself exactly when every entry is datable with a valid
    account and the list is within its bound; and whatever document is read,
    no entry of it is dropped and each suppression read is valid. *)
Theorem readSuppressions_whole_or_nothing l entries read :
  (readSuppressions (JArr (raw_of_suppression <$> l)) = Some l <->
   Forall suppression_ok l /\ (length l <= MAX_CACHE_SUPPRESSIONS)%nat) /\
  (readSuppressions (JArr entries) = Some read ->
   length read = length entries /\ (length read <= MAX_CACHE_SUPPRESSIONS)%nat /\
   Forall suppression_ok read).
Proof.
  split.
  - unfold readSuppressions. rewrite length_fmap.
    destruct (Nat.leb_spec (length l) MAX_CACHE_SUPPRESSIONS); [|split; [done|intros [_ ?]; lia]].
    rewrite mapM_Some, Forall2_fmap_l, readSuppression_all. tauto.
  - unfold readSuppressions. destruct (Nat.leb_spec (length entries) MAX_CACHE_SUPPRESSIONS); [|done].
    intros Hread%mapM_Some. pose proof (Forall2_length _ _ _ Hread).
    split_and!; [done|lia|]. eapply Forall2_Forall_r; [exact Hread|].
    apply Forall_forall. intros entry _ s. apply readSuppression_ok.
Qed.
End Collection.

(** ** Witnesses *)

Definition row_at (value : num) (observedAt : string) : Snapshot :=
  sample_snapshot CODEX "FIVE_HOUR" value observedAt "2026-01-03T00:00:00.000Z".

Definition held : CacheState :=
  {| st_snapshots := [row_at (int 10) "2026-01-01T00:00:00.000Z"]; st_suppressions := [] |}.

Definition drift_report : CollectionReport :=
  {| rp_provider := CODEX; rp_accountId := None; rp_observedAt := "2026-01-01T01:00:00.000Z";
     rp_outcome := Failed cr_drift |}.

Definition recovery : list Snapshot := [row_at (int 12) "2026-01-01T02:00:00.000Z"].

Lemma held_ok : cache_ok held.
Proof.
  split; simpl; try (by apply Nat.leb_le); try apply NoDup_nil_2; [apply NoDup_singleton|].
  intros s ->%list_elem_of_singleton. by vm_compute.
Qed.

Lemma collection_history_keeps_cache_ok_witness :
  cache_ok (foldl (applyCollectionReport (H:=strict_host)) held [drift_report]).
Proof. apply (collection_history_keeps_cache_ok). exact held_ok. Defined.

Lemma held_drift_applies :
  drift_applies (H:=strict_host) held CODEX None 1767229200000.
Proof.
  split; [by intros sup ?%elem_of_nil|].
  intros s ->%list_elem_of_singleton _ _. by vm_compute.
Qed.

(** A writer puts the reading of before the drift back: it stays hidden. *)
Definition restored : CacheState :=
  {| st_snapshots := st_snapshots held;
     st_suppressions :=
       st_suppressions (applyCollectionReport (H:=strict_host) held drift_report) |}.

Lemma drift_hides_older_readings_for_good_witness :
  visibleSnapshots (H:=strict_host) restored = [] /\
  rows_after_instant (H:=strict_host) CODEX None 1767229200000 (visibleSnapshots (H:=strict_host) restored).
Proof.
  split; [by vm_compute|].
  apply (drift_hides_older_readings_for_good (H:=strict_host) held CODEX None
    "2026-01-01T01:00:00.000Z" 1767229200000 restored).
  - by vm_compute.
  - exact held_drift_applies.
  - by apply Nat.ltb_lt.
  - apply rtc_once. exact (us_rows (H:=strict_host) CODEX None
      (applyCollectionReport (H:=strict_host) held drift_report) (st_snapshots held)).
Defined.

Lemma ordinary_failure_keeps_readings_witness :
  st_snapshots (applyCollectionReport (H:=strict_host) held
    {| rp_provider := CODEX; rp_accountId := None; rp_observedAt := "2026-01-01T01:00:00.000Z";
       rp_outcome := Failed cr_network |}) = st_snapshots held.
Proof.
  rewrite (ordinary_failure_keeps_readings (H:=strict_host) held _ cr_network) by done.
  by vm_compute.
Defined.

Lemma success_restores_trust_witness :
  Forall (fun sup => identity_of sup <> (CODEX, None))
    (st_suppressions (applyCollectionReport (H:=strict_host)
      (applyCollectionReport (H:=strict_host) held drift_report)
      {| rp_provider := CODEX; rp_accountId := None; rp_observedAt := "2026-01-01T02:00:00.000Z";
         rp_outcome := Collected recovery |})).
Proof.
  apply Forall_forall. intros sup Hin.
  assert (Hok : cache_ok (applyCollectionReport (H:=strict_host) held drift_report))
    by (apply applyCollectionReport_ok, held_ok).
  destruct (success_restores_trust (H:=strict_host) _ CODEX None "2026-01-01T02:00:00.000Z"
    1767232800000 recovery Hok) as [E _]; [by vm_compute| |by apply E in Hin as [_ ?]].
  intros s Hs _ _. assert (E : st_suppressions (applyCollectionReport (H:=strict_host) held drift_report)
    = [{| sp_provider := CODEX; sp_accountId := None; sp_suppressedAt := "2026-01-01T01:00:00.000Z" |}])
    by (by vm_compute).
  rewrite E in Hs. apply list_elem_of_singleton in Hs as ->. by vm_compute.
Defined.

