(* ===== verification/Policy.v ===== *)
(** * Advice

    [policy.ts]: from the visible readings to one word of advice per run: the
    worst fresh quota of each provider, the overall reason, and the provider to
    prefer. *)
From S2P Require Import Prelude JsNum JsDate JsValue Text Types Presentation DataRules Schedule.
Local Open Scope string_scope.
Local Open Scope Z_scope.
Local Open Scope list_scope.
Local Open Scope js_scope.

Inductive AdviceReason := HEALTHY | NEAR_CAP | AT_CAP | UNKNOWN.

#[export] Instance AdviceReason_eq : EqDecision AdviceReason.
Proof. solve_decision. Defined.

Inductive NoneReason := NO_KNOWN_PROVIDER | NO_FRESH_DATA | NO_HEALTHY_PROVIDER.
Inductive PreferReason := LOWEST_USAGE | ORDERED_TIE_BREAK.

Inductive AdviceRecommendation :=
| PREFER (provider : ProviderCode) (reason : PreferReason)
| NONE (reason : NoneReason).

Record AdviceProvider := {
  av_provider : ProviderCode;
  av_meter : string;
  av_state : SnapshotState;
  av_usagePercent : num;
  av_resetAt : option string }.

Record Advice := {
  ad_inject : bool;
  ad_reason : AdviceReason;
  ad_recommendation : AdviceRecommendation;
  ad_providers : list AdviceProvider;
  ad_unknownProviders : list ProviderCode }.

Definition reasonFor (percent : num) : AdviceReason :=
  if int 100 <=# percent then AT_CAP
  else if int 80 <=# percent then NEAR_CAP
  else HEALTHY.

Definition priority (r : AdviceReason) : Z :=
  match r with UNKNOWN => 0 | HEALTHY => 1 | NEAR_CAP => 2 | AT_CAP => 3 end.

(** The loop that keeps the first of the lowest. *)
Definition lower (best candidate : AdviceProvider) : AdviceProvider :=
  if av_usagePercent candidate <# av_usagePercent best then candidate else best.

Definition recommendationFor (known : list AdviceProvider) : AdviceRecommendation :=
  let fresh := filter (fun p => av_state p = st_fresh) known in
  match fresh with
  | [] => NONE NO_FRESH_DATA
  | _ =>
      let usable := filter (fun p => (av_usagePercent p <# int 80) = true) fresh in
      match usable with
      | [] => NONE NO_HEALTHY_PROVIDER
      | first :: rest =>
          let best := foldl lower first rest in
          let tied :=
            (1 <? length (filter (fun p =>
               (av_usagePercent p ==# av_usagePercent best) = true) usable))%nat in
          PREFER (av_provider best) (if tied then ORDERED_TIE_BREAK else LOWEST_USAGE)
      end
  end.

Definition isAdviceQuota (s : Snapshot) : bool :=
  isSnapshotDisplayEligible s && bool_decide (s_unit s = PERCENT) &&
  negb (match row_presentation s with
        | Some p => bool_decide (pp_valueSemantics p = balance)
        | None => false
        end) &&
  bool_decide (s_availability s = None) &&
  match s_kind s with None => true | Some k => bool_decide (k = quota_percent) end &&
  negb (str_eqb (s_meter s) "ACQUISITION") &&
  negb (bool_decide (w_kind (s_window s) = w_unknown)).

(** [right.value - left.value], as a comparator: a [NaN] difference sorts as a
    tie. *)
Definition compareValue (l r : Snapshot) : comparison :=
  let d := s_value r ⊖ s_value l in
  if int 0 <# d then Gt else if d <# int 0 then Lt else Eq.

Section Policy.
Context `{DateHost}.

(** A reading that counts as advice for a provider. *)
Definition is_candidate (now : string) (provider : ProviderCode) (s : Snapshot) : bool :=
  bool_decide (s_provider s = provider) && isAdviceQuota s && negb (resetPassed s now) &&
  bool_decide (freshness (s_observedAt s) (s_expiresAt s) now = st_fresh).

Definition candidates (snapshots : list Snapshot) (now : string) (provider : ProviderCode) :
    list Snapshot :=
  sort_by compareValue (filter (fun s => is_candidate now provider s = true) snapshots).

Definition worst_of (snapshots : list Snapshot) (now : string) (provider : ProviderCode) :
    option AdviceProvider :=
  let? worst := head (candidates snapshots now provider) in
  Some {| av_provider := provider; av_meter := s_meter worst; av_state := st_fresh;
          av_usagePercent := s_value worst; av_resetAt := s_resetAt worst |}.

Definition worse (worst current : AdviceReason) : AdviceReason :=
  if priority worst <? priority current then current else worst.

Definition overallReason (known : list AdviceProvider) : AdviceReason :=
  foldl worse HEALTHY ((fun p => reasonFor (av_usagePercent p)) <$> known).

Definition buildAdvice (snapshots : list Snapshot) (now : string)
    (expectedProviders : list ProviderCode) : Advice :=
  let known := omap (worst_of snapshots now) expectedProviders in
  match known with
  | [] =>
      {| ad_inject := false; ad_reason := UNKNOWN;
         ad_recommendation := NONE NO_KNOWN_PROVIDER; ad_providers := [];
         ad_unknownProviders := expectedProviders |}
  | _ =>
      {| ad_inject := true;
         ad_reason := overallReason known;
         ad_recommendation := recommendationFor known;
         ad_providers := known;
         ad_unknownProviders :=
           filter (fun p => existsb (fun e => bool_decide (av_provider e = p)) known = false)
             expectedProviders |}
  end.

(** ** Lemmas *)

Definition units_of (x : num) : Z := match x with Fin z => z | _ => 0 end.

(** On finite values the comparator is the descending order of the values. *)
Definition compareUnits (l r : Snapshot) : comparison :=
  units_of (s_value r) ?= units_of (s_value l).

#[export] Instance compareUnits_preorder : TotalPreorder compareUnits.
Proof.
  split; unfold compareUnits; [intros; apply Z.compare_antisym|].
  intros x y z. rewrite !Z.compare_gt_iff. lia.
Qed.

Lemma compareValue_units l r :
  is_finite (s_value l) = true -> is_finite (s_value r) = true ->
  compareValue l r = compareUnits l r.
Proof.
  intros [a Ea]%finite_Fin [b Eb]%finite_Fin. unfold compareValue, compareUnits.
  rewrite Ea, Eb, nsub_positive, nsub_negative. simpl.
  destruct (Z.ltb_spec a b), (Z.ltb_spec b a); symmetry;
    [lia|by apply Z.compare_gt_iff|by apply Z.compare_lt_iff|apply Z.compare_eq_iff; lia].
Qed.

Definition finite_values (l : list Snapshot) : Prop :=
  forall s, s ∈ l -> is_finite (s_value s) = true.

Lemma elem_of_candidates snapshots now p s :
  s ∈ candidates snapshots now p <-> s ∈ snapshots /\ is_candidate now p s = true.
Proof. unfold candidates. rewrite elem_of_sort_by, list_elem_of_filter. tauto. Qed.

Lemma candidates_units snapshots now p :
  finite_values snapshots ->
  candidates snapshots now p =
  sort_by compareUnits (filter (fun s => is_candidate now p s = true) snapshots).
Proof.
  intros Hf. apply sort_by_ext.
  intros x y [_ Hx]%list_elem_of_filter [_ Hy]%list_elem_of_filter.
  apply compareValue_units; by apply Hf.
Qed.

Lemma worst_of_spec snapshots now p e :
  finite_values snapshots -> worst_of snapshots now p = Some e ->
  av_provider e = p /\ av_state e = st_fresh /\
  exists worst, worst ∈ snapshots /\ is_candidate now p worst = true /\
    av_meter e = s_meter worst /\ av_usagePercent e = s_value worst /\
    av_resetAt e = s_resetAt worst /\
    forall s, s ∈ snapshots -> is_candidate now p s = true ->
      (s_value s <=# s_value worst) = true.
Proof.
  intros Hf. unfold worst_of. destruct (head _) as [w|] eqn:Eh; [|done].
  intros [= <-]. simpl. split; [done|]. split; [done|]. exists w.
  assert (Hw : w ∈ candidates snapshots now p)
    by (destruct (candidates _ _ _); [done|]; injection Eh as ->; left).
  apply elem_of_candidates in Hw as [Hw Hc]. split_and!; try done.
  intros s Hs Hcs. rewrite candidates_units in Eh by done.
  destruct (sort_by_head compareUnits _ w s Eh) as [_ Hle]; [by apply list_elem_of_filter|].
  unfold compareUnits in Hle. apply Z.compare_le_iff in Hle.
  destruct (finite_Fin _ (Hf s Hs)) as [a Ea], (finite_Fin _ (Hf w Hw)) as [b Eb].
  rewrite Ea, Eb in *. by apply Fin_le.
Qed.

Lemma worst_of_provider snapshots now p e :
  worst_of snapshots now p = Some e -> av_provider e = p.
Proof. unfold worst_of. destruct (head _); [|done]. by intros [= <-]. Qed.

Lemma worst_of_None snapshots now p :
  worst_of snapshots now p = None <->
  forall s, s ∈ snapshots -> is_candidate now p s = false.
Proof.
  unfold worst_of. destruct (candidates snapshots now p) as [|w l] eqn:Ec; simpl.
  - split; [|done]. intros _ s Hs. apply not_true_iff_false. intros Hc.
    assert (Hin : s ∈ candidates snapshots now p) by (by apply elem_of_candidates).
    rewrite Ec in Hin. by apply elem_of_nil in Hin.
  - split; [done|]. intros Hno.
    assert (Hin : w ∈ candidates snapshots now p) by (rewrite Ec; left).
    apply elem_of_candidates in Hin as [Hin Hc]. rewrite Hno in Hc; done.
Qed.

(** The advice, whatever there is to say. *)
Lemma buildAdvice_providers snapshots now expected :
  ad_providers (buildAdvice snapshots now expected) = omap (worst_of snapshots now) expected.
Proof. unfold buildAdvice. by destruct (omap _ _). Qed.

Lemma elem_of_known snapshots now (expected : list ProviderCode) p :
  p ∈ (av_provider <$> omap (worst_of snapshots now) expected) <->
  p ∈ expected /\ worst_of snapshots now p <> None.
Proof.
  rewrite list_elem_of_fmap. setoid_rewrite list_elem_of_omap. split.
  - intros (e & -> & q & Hq & E).
    apply worst_of_provider in E as Ep. rewrite Ep. split; [done|congruence].
  - intros [Hp Hw]. destruct (worst_of snapshots now p) as [e|] eqn:E; [|done].
    exists e. apply worst_of_provider in E as Ep. eauto.
Qed.

Lemma candidate_exists (snapshots : list Snapshot) now p :
  ~ (forall s, s ∈ snapshots -> is_candidate now p s = false) ->
  exists s, s ∈ snapshots /\ is_candidate now p s = true.
Proof.
  intros Hno. destruct (existsb (is_candidate now p) snapshots) eqn:E.
  - apply existsb_exists in E as (s & Hs & Hc). exists s. by rewrite list_elem_of_In.
  - destruct Hno. intros s Hs. apply not_true_iff_false. intros Hc.
    assert (existsb (is_candidate now p) snapshots = true); [|congruence].
    apply existsb_exists. exists s. by rewrite <- list_elem_of_In.
Qed.

Lemma buildAdvice_unknown snapshots now (expected : list ProviderCode) p :
  p ∈ ad_unknownProviders (buildAdvice snapshots now expected) <->
  p ∈ expected /\ worst_of snapshots now p = None.
Proof.
  assert (Hk := elem_of_known snapshots now expected p). unfold buildAdvice.
  destruct (omap (worst_of snapshots now) expected) as [|e l] eqn:E; simpl.
  - split; [|by intros [? _]]. intros Hp. split; [done|].
    destruct (worst_of snapshots now p) eqn:Ew; [|done]. exfalso.
    apply (elem_of_nil p). apply Hk. split; [done|congruence].
  - rewrite list_elem_of_filter, <- not_true_iff_false.
    change (bool_decide (av_provider e = p) || _) with
      (existsb (fun e => bool_decide (av_provider e = p)) (e :: l)).
    assert (Hex : existsb (fun e => bool_decide (av_provider e = p)) (e :: l) = true <->
      p ∈ (av_provider <$> e :: l)).
    { rewrite existsb_exists, list_elem_of_fmap. setoid_rewrite bool_decide_eq_true.
      setoid_rewrite list_elem_of_In. naive_solver. }
    rewrite Hex, Hk. destruct (worst_of snapshots now p); naive_solver.
Qed.

(** Advice is a partition of the expected providers. Those with a current
    quota reading are reported in the expected order, each with the highest of
    its current readings, and all the others are named unknown; the advice is
    injected exactly when some provider is known. *)
Theorem buildAdvice_partitions_providers snapshots now (expected : list ProviderCode) :
  finite_values snapshots ->
  (ad_inject (buildAdvice snapshots now expected) = true <->
    ad_providers (buildAdvice snapshots now expected) <> []) /\
  (forall p, p ∈ expected ->
    (p ∈ (av_provider <$> ad_providers (buildAdvice snapshots now expected)) <->
      exists s, s ∈ snapshots /\ is_candidate now p s = true) /\
    (p ∈ ad_unknownProviders (buildAdvice snapshots now expected) <->
      forall s, s ∈ snapshots -> is_candidate now p s = false)) /\
  (forall e, e ∈ ad_providers (buildAdvice snapshots now expected) ->
    av_provider e ∈ expected /\ av_state e = st_fresh /\
    exists worst, worst ∈ snapshots /\ is_candidate now (av_provider e) worst = true /\
      av_meter e = s_meter worst /\ av_usagePercent e = s_value worst /\
      av_resetAt e = s_resetAt worst /\
      forall s, s ∈ snapshots -> is_candidate now (av_provider e) s = true ->
        (s_value s <=# s_value worst) = true).
Proof.
  intros Hf. split_and!.
  - unfold buildAdvice. by destruct (omap _ _).
  - intros p Hp. rewrite buildAdvice_providers, elem_of_known. split.
    + rewrite worst_of_None. split.
      * intros [_ Hno]. apply candidate_exists. naive_solver.
      * intros (s & Hs & Hc). split; [done|]. intros Hno. rewrite Hno in Hc; done.
    + rewrite buildAdvice_unknown, <- worst_of_None. naive_solver.
  - intros e. rewrite buildAdvice_providers, list_elem_of_omap. intros (p & Hp & E).
    destruct (worst_of_spec _ _ _ _ Hf E) as (-> & ? & ?). done.
Qed.

(** *** The overall reason *)

Lemma foldl_worse l start :
  priority (foldl worse start l) =
  foldl (fun m r => Z.max m (priority r)) (priority start) l.
Proof.
  revert start. induction l as [|r l IH]; simpl; intros start; [done|]. rewrite IH. f_equal.
  unfold worse. destruct (Z.ltb_spec (priority start) (priority r)); lia.
Qed.

Lemma foldl_max_spec (l : list AdviceReason) m n :
  n <= foldl (fun m r => Z.max m (priority r)) m l <->
  n <= m \/ exists r, r ∈ l /\ n <= priority r.
Proof.
  revert m. induction l as [|r l IH]; simpl; intros m.
  - split; [by left|]. by intros [|(r & ?%elem_of_nil & _)].
  - rewrite IH. setoid_rewrite elem_of_cons. split.
    + intros [Hm|(r' & ? & ?)]; [|right; eauto].
      destruct (Z.max_spec m (priority r)) as [[_ E]|[_ E]]; rewrite E in Hm; eauto.
    + intros [?|(r' & [->|?] & ?)]; [left; lia|left; lia|right; eauto].
Qed.

Lemma reason_at_least (l : list AdviceProvider) n :
  1 < n ->
  n <= priority (overallReason l) <->
  exists e, e ∈ l /\ n <= priority (reasonFor (av_usagePercent e)).
Proof.
  intros Hn. unfold overallReason. rewrite foldl_worse, foldl_max_spec. simpl. setoid_rewrite list_elem_of_fmap. split.
  - intros [?|(r & (e & -> & ?) & ?)]; [lia|eauto].
  - intros (e & ? & ?). right. eauto.
Qed.

Lemma reason_never_unknown l : 1 <= priority (overallReason l).
Proof. unfold overallReason. rewrite foldl_worse. apply foldl_max_spec. by left. Qed.

Lemma reasonFor_at_cap u : 3 <= priority (reasonFor u) <-> (int 100 <=# u) = true.
Proof.
  unfold reasonFor. destruct (int 100 <=# u); [done|]. destruct (int 80 <=# u); simpl; split; (lia || done).
Qed.

Lemma reasonFor_near_cap u : 2 <= priority (reasonFor u) <-> (int 80 <=# u) = true.
Proof.
  unfold reasonFor. destruct (int 100 <=# u) eqn:E.
  - split; [|simpl; lia]. intros _. apply nle_trans with (int 100); [by rewrite int_le|done].
  - destruct (int 80 <=# u); simpl; split; (lia || done).
Qed.

Definition above (n : Z) (known : list AdviceProvider) : Prop :=
  exists e, e ∈ known /\ (int n <=# av_usagePercent e) = true.

Lemma overall_at_cap l : 3 <= priority (overallReason l) <-> above 100 l.
Proof. rewrite reason_at_least by lia. unfold above. by setoid_rewrite reasonFor_at_cap. Qed.

Lemma overall_near_cap l : 2 <= priority (overallReason l) <-> above 80 l.
Proof. rewrite reason_at_least by lia. unfold above. by setoid_rewrite reasonFor_near_cap. Qed.

(** The level is the worst one. The advice is AT_CAP exactly when some
    reported provider is at 100 percent or more, NEAR_CAP exactly when none is
    but one is at 80 or more, HEALTHY when some are known and all are below
    80, and UNKNOWN exactly when none is known. *)
Theorem buildAdvice_reason_is_worst snapshots now expected :
  let advice := buildAdvice snapshots now expected in
  (ad_reason advice = UNKNOWN <-> ad_providers advice = []) /\
  (ad_reason advice = AT_CAP <-> above 100 (ad_providers advice)) /\
  (ad_reason advice = NEAR_CAP <->
    ~ above 100 (ad_providers advice) /\ above 80 (ad_providers advice)) /\
  (ad_reason advice = HEALTHY <->
    ad_providers advice <> [] /\ ~ above 80 (ad_providers advice)).
Proof.
  intros advice. unfold advice, buildAdvice.
  destruct (omap (worst_of snapshots now) expected) as [|e l]; cbn [ad_reason ad_providers].
  - assert (forall n, ~ above n []) by (by intros n (e & ?%elem_of_nil & _)). naive_solver.
  - rewrite <- overall_at_cap, <- overall_near_cap.
    pose proof (reason_never_unknown (e :: l)).
    destruct (overallReason (e :: l)); simpl in *; intuition (done || lia).
Qed.

(** *** The provider to prefer *)

Definition finite_usage (l : list AdviceProvider) : Prop :=
  Forall (fun e => is_finite (av_usagePercent e) = true) l.

(** The loop keeps the first of the lowest. *)
Lemma foldl_lower_split first rest :
  finite_usage (first :: rest) ->
  exists l1 l2, first :: rest = l1 ++ foldl lower first rest :: l2 /\
    Forall (fun e => (av_usagePercent (foldl lower first rest) <# av_usagePercent e) = true) l1 /\
    Forall (fun e => (av_usagePercent (foldl lower first rest) <=# av_usagePercent e) = true) l2.
Proof.
  revert first. induction rest as [|c rest IH] using rev_ind; intros first Hf.
  { exists [], []. repeat constructor. }
  rewrite foldl_app. simpl. rewrite app_comm_cons in Hf |- *.
  apply Forall_app in Hf as [Hf Hc]. apply Forall_cons in Hc as [Hc _].
  destruct (IH first Hf) as (l1 & l2 & E & H1 & H2). rewrite E in *.
  set (best := foldl lower first rest) in *. unfold lower.
  apply Forall_app in Hf as [Hf1 Hf2]. apply Forall_cons in Hf2 as [Hb Hf2].
  destruct (finite_Fin _ Hc) as [zc Ec], (finite_Fin _ Hb) as [zb Eb].
  destruct (av_usagePercent c <# av_usagePercent best) eqn:El.
  - exists (l1 ++ best :: l2), []. split; [done|]. split; [|constructor].
    rewrite Ec, Eb, nlt_Fin, Z.ltb_lt in El.
    assert (Hlt : forall e, is_finite (av_usagePercent e) = true ->
      (av_usagePercent best <=# av_usagePercent e) = true ->
      (av_usagePercent c <# av_usagePercent e) = true).
    { intros e [z Ez]%finite_Fin. rewrite Ec, Eb, Ez, nle_Fin, nlt_Fin, Z.leb_le, Z.ltb_lt. lia. }
    apply Forall_app; split; [|apply Forall_cons; split].
    + rewrite Forall_forall in *. intros e He. apply Hlt; [by apply Hf1|]. by apply nlt_nle, H1.
    + apply Hlt; [done|]. rewrite Eb. apply nle_refl_fin.
    + rewrite Forall_forall in *. intros e He. apply Hlt; [by apply Hf2|by apply H2].
  - exists l1, (l2 ++ [c]). split_and!; [by rewrite <- app_assoc|done|].
    apply Forall_app. split; [done|]. apply Forall_singleton.
    rewrite Ec, Eb, nlt_Fin, Z.ltb_ge in El. rewrite Ec, Eb. by apply Fin_le.
Qed.

Lemma tie_flag (b : bool) : (if b then ORDERED_TIE_BREAK else LOWEST_USAGE) = ORDERED_TIE_BREAK <-> b = true.
Proof. by destruct b. Qed.

(** What is preferred: the first provider of the lowest usage, below 80. *)
Definition preferred (known : list AdviceProvider) (p : ProviderCode) (r : PreferReason) : Prop :=
  exists l1 best l2, known = l1 ++ best :: l2 /\ av_provider best = p /\
    (av_usagePercent best <# int 80) = true /\
    Forall (fun e => (av_usagePercent best <# av_usagePercent e) = true) l1 /\
    Forall (fun e => (av_usagePercent best <=# av_usagePercent e) = true) l2 /\
    (r = ORDERED_TIE_BREAK <->
      exists e, e ∈ l2 /\ (av_usagePercent e ==# av_usagePercent best) = true).

(** Usages of 80 or more are above every usage below 80. *)
Lemma unusable_above best e :
  is_finite (av_usagePercent e) = true -> (av_usagePercent best <# int 80) = true ->
  (av_usagePercent e <# int 80) = false ->
  (av_usagePercent best <# av_usagePercent e) = true.
Proof.
  intros [z Ez]%finite_Fin. rewrite Ez. unfold int.
  destruct (av_usagePercent best) as [|[]|b]; try done.
  rewrite !nlt_Fin, !Z.ltb_lt, Z.ltb_ge. lia.
Qed.

Lemma Forall_from_filter (P Q : AdviceProvider -> Prop) `{!forall e, Decision (P e)} l :
  Forall Q (filter P l) -> (forall e, e ∈ l -> ~ P e -> Q e) -> Forall Q l.
Proof.
  rewrite !Forall_forall. intros Hf Hn e He. destruct (decide (P e)); [|by apply Hn].
  apply Hf. by apply list_elem_of_filter.
Qed.

Lemma tied_iff (best : AdviceProvider) u1 u2 :
  is_finite (av_usagePercent best) = true ->
  Forall (fun e => (av_usagePercent best <# av_usagePercent e) = true) u1 ->
  (1 < length (filter (fun p => (av_usagePercent p ==# av_usagePercent best) = true)
     (u1 ++ best :: u2)))%nat <->
  exists e, e ∈ u2 /\ (av_usagePercent e ==# av_usagePercent best) = true.
Proof.
  intros [b Eb]%finite_Fin H1. rewrite Eb in *. rewrite filter_app, length_app.
  rewrite filter_none; [|].
  - rewrite filter_cons_True by (rewrite Eb, neq_Fin; apply Z.eqb_refl). simpl. split.
    + intros Hl. destruct (filter _ u2) as [|e l] eqn:E; [simpl in Hl; lia|].
      assert (He : e ∈ filter (fun p => (av_usagePercent p ==# Fin b) = true) u2)
        by (rewrite E; left).
      apply list_elem_of_filter in He as [? ?]. eauto.
    + intros (e & He & Ee). destruct (filter _ u2) as [|e' l] eqn:E; [|simpl; lia].
      exfalso. apply (elem_of_nil e). rewrite <- E. by apply list_elem_of_filter.
  - intros e He. rewrite Forall_forall in H1. specialize (H1 e He).
    destruct (av_usagePercent e) as [|[]|z]; try done.
    rewrite nlt_Fin, Z.ltb_lt in H1. rewrite neq_Fin, Z.eqb_eq. lia.
Qed.

Lemma recommendationFor_spec known :
  known <> [] -> finite_usage known -> Forall (fun e => av_state e = st_fresh) known ->
  match recommendationFor known with
  | PREFER p r => preferred known p r
  | NONE NO_HEALTHY_PROVIDER =>
      Forall (fun e => (int 80 <=# av_usagePercent e) = true) known
  | NONE _ => False
  end.
Proof.
  intros Hne Hf Hfresh. unfold recommendationFor.
  rewrite (filter_id (fun p => av_state p = st_fresh)) by (by apply Forall_forall).
  destruct known as [|k0 ks] eqn:Ek; [done|]. rewrite <- Ek in *. clear Hne Ek.
  destruct (filter (fun p => (av_usagePercent p <# int 80) = true) known) as [|first rest] eqn:Eu.
  - apply Forall_forall. intros e He. unfold finite_usage in Hf. rewrite Forall_forall in Hf.
    apply nlt_false_nle; [by apply finite_value, Hf|done|].
    apply not_true_iff_false. intros Hlt. apply (elem_of_nil e). rewrite <- Eu.
    by apply list_elem_of_filter.
  - assert (Hfu : finite_usage (first :: rest)).
    { unfold finite_usage in *. rewrite <- Eu. rewrite Forall_forall in Hf |- *.
      intros e [_ He]%list_elem_of_filter. by apply Hf. }
    destruct (foldl_lower_split first rest Hfu) as (u1 & u2 & E & H1 & H2).
    rewrite E in Eu, Hfu |- *. set (best := foldl lower first rest) in *.
    destruct (filter_split _ _ _ _ _ Eu) as (l1 & l2 & El & <- & <-).
    assert (Hb : (av_usagePercent best <# int 80) = true).
    { assert (Hin : best ∈ filter (fun p => (av_usagePercent p <# int 80) = true) known)
        by (rewrite Eu; apply elem_of_app; right; left).
      by apply list_elem_of_filter in Hin as [? _]. }
    assert (Hbf : is_finite (av_usagePercent best) = true).
    { apply Forall_app in Hfu as [_ Hfu]. by apply Forall_cons in Hfu as [? _]. }
    subst known. unfold finite_usage in Hf. rewrite Forall_forall in Hf.
    exists l1, best, l2. split_and!; try done.
    + eapply Forall_from_filter; [exact H1|]. intros e He Hn%not_true_iff_false.
      apply unusable_above; [apply Hf; set_solver|done|done].
    + eapply Forall_from_filter; [exact H2|]. intros e He Hn%not_true_iff_false.
      apply nlt_nle, unusable_above; [apply Hf; set_solver|done|done].
    + pose proof (tied_iff best _ (filter (fun p => (av_usagePercent p <# int 80) = true) l2) Hbf H1) as Ht.
      rewrite tie_flag, Nat.ltb_lt, Ht. split; intros (e & He & Ee); exists e.
      * apply list_elem_of_filter in He as [_ He]. done.
      * split; [|done]. apply list_elem_of_filter. split; [|done].
        destruct (finite_Fin _ Hbf) as [b Eb]. rewrite Eb in *.
        destruct (av_usagePercent e) as [|[]|z]; try done.
        rewrite neq_Fin, Z.eqb_eq in Ee. by subst.
Qed.

(** The recommendation is sound and complete. A provider is preferred
    exactly when some known provider is below 80 percent, and it is then the
    first, in the expected order, of those with the lowest usage; the reason
    says whether a later one ties with it. Otherwise nothing is preferred, for
    the reason stated. *)
Theorem buildAdvice_recommends_the_lowest snapshots now expected :
  finite_values snapshots ->
  match ad_recommendation (buildAdvice snapshots now expected) with
  | PREFER p r => preferred (ad_providers (buildAdvice snapshots now expected)) p r
  | NONE NO_HEALTHY_PROVIDER =>
      ad_providers (buildAdvice snapshots now expected) <> [] /\
      Forall (fun e => (int 80 <=# av_usagePercent e) = true)
        (ad_providers (buildAdvice snapshots now expected))
  | NONE NO_KNOWN_PROVIDER => ad_providers (buildAdvice snapshots now expected) = []
  | NONE NO_FRESH_DATA => False
  end.
Proof.
  intros Hf. rewrite buildAdvice_providers. unfold buildAdvice.
  destruct (omap (worst_of snapshots now) expected) as [|e l] eqn:E; [done|].
  cbn [ad_recommendation].
  assert (Hall : forall x, x ∈ e :: l -> is_finite (av_usagePercent x) = true /\
    av_state x = st_fresh).
  { intros x Hx. rewrite <- E in Hx. apply list_elem_of_omap in Hx as (p & _ & Hw).
    destruct (worst_of_spec _ _ _ _ Hf Hw) as (_ & Es & w & Hin & _ & _ & Eu & _).
    rewrite Eu. auto. }
  assert (H1 : finite_usage (e :: l)) by (apply Forall_forall; intros x Hx; by apply Hall).
  assert (H2 : Forall (fun e => av_state e = st_fresh) (e :: l))
    by (apply Forall_forall; intros x Hx; by apply Hall).
  pose proof (recommendationFor_spec (e :: l) ltac:(done) H1 H2) as Hspec.
  by destruct (recommendationFor (e :: l)) as [p r|[]].
Qed.
End Policy.

(** ** Witnesses *)

Definition now_at : string := "2026-01-01T00:30:00.000Z".
Definition quota (p : ProviderCode) (value : Z) : Snapshot :=
  sample_snapshot p "FIVE_HOUR" (int value) "2026-01-01T00:00:00.000Z" "2026-01-01T01:00:00.000Z".
Definition readings : list Snapshot := [quota CODEX 85; quota KIMI 20; quota OPENCODE 20].

Lemma readings_finite : finite_values readings.
Proof. intros s. unfold readings. rewrite !elem_of_cons, elem_of_nil. by intros [->|[->|[->|[]]]]. Qed.

Lemma buildAdvice_partitions_providers_witness :
  ad_unknownProviders (buildAdvice (H:=strict_host) readings now_at [KIMI; CURSOR]) = [CURSOR] /\
  (ad_inject (buildAdvice (H:=strict_host) readings now_at [KIMI; CURSOR]) = true <->
   ad_providers (buildAdvice (H:=strict_host) readings now_at [KIMI; CURSOR]) <> []).
Proof.
  split; [by vm_compute|].
  exact (proj1 (buildAdvice_partitions_providers (H:=strict_host) readings now_at [KIMI; CURSOR]
    readings_finite)).
Defined.

Lemma buildAdvice_recommends_the_lowest_witness :
  ad_recommendation (buildAdvice (H:=strict_host) readings now_at [CODEX; KIMI; OPENCODE]) =
    PREFER KIMI ORDERED_TIE_BREAK /\
  preferred (ad_providers (buildAdvice (H:=strict_host) readings now_at [CODEX; KIMI; OPENCODE]))
    KIMI ORDERED_TIE_BREAK.
Proof.
  assert (E : ad_recommendation (buildAdvice (H:=strict_host) readings now_at [CODEX; KIMI; OPENCODE])
    = PREFER KIMI ORDERED_TIE_BREAK) by (by vm_compute).
  split; [exact E|].
  pose proof (buildAdvice_recommends_the_lowest (H:=strict_host) readings now_at
    [CODEX; KIMI; OPENCODE] readings_finite) as Hp.
  rewrite E in Hp. exact Hp.
Defined.
