(* ===== verification/Connection.v ===== *)
(** * The connection lifecycle

    [connection-state.ts]: the state machine of a connection, the fixed words a
    surface shows for it, and the catalogue of providers; and [failures.ts],
    the fixed reasons a provider has nothing to show. *)
From S2P Require Import Prelude JsNum JsValue Types.
Local Open Scope string_scope.
Local Open Scope Z_scope.
Local Open Scope list_scope.
Local Open Scope js_scope.

Inductive ConnectionState :=
| NOT_CONFIGURED | DETECTED | NEEDS_AUTH | READY_TO_ENABLE | CONNECTING | CONNECTED
| DEGRADED | STALE | AUTH_EXPIRED | IMPORT_ONLY | MANUAL_PLAN | UNSUPPORTED | ERROR.

#[export] Instance ConnectionState_eq : EqDecision ConnectionState.
Proof. solve_decision. Defined.

#[export] Instance CONNECTION_STATES : Closed ConnectionState := {
  all_of := [NOT_CONFIGURED; DETECTED; NEEDS_AUTH; READY_TO_ENABLE; CONNECTING; CONNECTED;
             DEGRADED; STALE; AUTH_EXPIRED; IMPORT_ONLY; MANUAL_PLAN; UNSUPPORTED; ERROR];
  name_of s :=
    match s with
    | NOT_CONFIGURED => "NOT_CONFIGURED" | DETECTED => "DETECTED" | NEEDS_AUTH => "NEEDS_AUTH"
    | READY_TO_ENABLE => "READY_TO_ENABLE" | CONNECTING => "CONNECTING"
    | CONNECTED => "CONNECTED" | DEGRADED => "DEGRADED" | STALE => "STALE"
    | AUTH_EXPIRED => "AUTH_EXPIRED" | IMPORT_ONLY => "IMPORT_ONLY" | MANUAL_PLAN => "MANUAL"
    | UNSUPPORTED => "UNSUPPORTED" | ERROR => "ERROR"
    end }.

#[export] Instance connection_states_laws : ClosedLaws ConnectionState.
Proof. solve_closed. Qed.

Definition NETWORK_FAILURE_ERROR_THRESHOLD : num := int 3.

Inductive ConnectionEvent :=
| detected
| credential_required
| credential_stored
| enable_requested
| http_response (status : num) (parsed : bool)
| local_read (parsed : bool)
| network_failure (consecutive : num)
| expiry_passed
| disconnected
| declared_import_only
| declared_manual
| declared_unsupported.

Definition declaredStates (s : ConnectionState) : bool :=
  match s with NOT_CONFIGURED | IMPORT_ONLY | MANUAL_PLAN | UNSUPPORTED => true | _ => false end.

Definition afterResponse (state : ConnectionState) (status : num) (parsed everConnected : bool) :
    ConnectionState :=
  if declaredStates state then state
  else if (status ==# int 401) || (status ==# int 403) then
    if everConnected then AUTH_EXPIRED else NEEDS_AUTH
  else if (status ==# int 429) || ((int 500 <=# status) && (status <=# int 599)) then DEGRADED
  else if (status <# int 200) || (int 299 <# status) then ERROR
  else if parsed then CONNECTED else ERROR.

(** [everConnected] is the field of the context. *)
Definition nextConnectionState (state : ConnectionState) (event : ConnectionEvent)
    (everConnected : bool) : ConnectionState :=
  match event with
  | disconnected => NOT_CONFIGURED
  | declared_import_only => IMPORT_ONLY
  | declared_manual => MANUAL_PLAN
  | declared_unsupported => UNSUPPORTED
  | detected => if decide (state = NOT_CONFIGURED) then DETECTED else state
  | credential_required =>
      match state with NOT_CONFIGURED | DETECTED | READY_TO_ENABLE => NEEDS_AUTH | _ => state end
  | credential_stored =>
      match state with NEEDS_AUTH | AUTH_EXPIRED | DETECTED => READY_TO_ENABLE | _ => state end
  | enable_requested =>
      match state with
      | NEEDS_AUTH | AUTH_EXPIRED => state
      | _ => if declaredStates state then state else CONNECTING
      end
  | http_response status parsed => afterResponse state status parsed everConnected
  | local_read parsed =>
      if declaredStates state then state else if parsed then CONNECTED else ERROR
  | network_failure consecutive =>
      if declaredStates state then state
      else if NETWORK_FAILURE_ERROR_THRESHOLD <=# consecutive then ERROR else DEGRADED
  | expiry_passed => match state with CONNECTED | DEGRADED => STALE | _ => state end
  end.

(** ** The words of a connection *)

Definition connectionSentence (s : ConnectionState) : string :=
  match s with
  | NOT_CONFIGURED => "Not connected."
  | DETECTED => "Found on this machine but not collecting yet."
  | NEEDS_AUTH => "Waiting for a credential."
  | READY_TO_ENABLE => "Ready to start collecting."
  | CONNECTING => "Connecting."
  | CONNECTED => "Connected and collecting."
  | DEGRADED => "The provider is refusing reads for now."
  | STALE => "The last reading is older than it should be."
  | AUTH_EXPIRED => "The stored credential stopped working."
  | IMPORT_ONLY => "Reads only what you import. Nothing is collected automatically."
  | MANUAL_PLAN => "Shows the plan you entered yourself."
  | UNSUPPORTED => "No safe automatic source exists for this product yet."
  | ERROR => "This connection failed and needs a look."
  end.

Definition connectionNextAction (s : ConnectionState) : string :=
  match s with
  | NOT_CONFIGURED => "Connect"
  | DETECTED => "Enable local integration"
  | NEEDS_AUTH => "Add credential"
  | READY_TO_ENABLE => "Enable"
  | CONNECTING => "Wait"
  | CONNECTED => "Refresh now"
  | DEGRADED => "Wait for the next retry"
  | STALE => "Refresh now"
  | AUTH_EXPIRED => "Reconnect"
  | IMPORT_ONLY => "Import a payload"
  | MANUAL_PLAN => "Edit plan"
  | UNSUPPORTED => "Add manual plan"
  | ERROR => "View diagnostics"
  end.

Inductive ConnectionReason :=
| token_expired | reading_expired | tool_not_running | provider_refusing | shape_mismatch
| network_unreachable | no_credential.

Definition availabilityConnectionReason (a : SnapshotAvailability) : option ConnectionReason :=
  match a with
  | missing_credentials => Some no_credential
  | expired_credentials => Some token_expired
  | access_denied => Some provider_refusing
  | missing_subscription | unlimited | quota_unavailable => None
  | rate_limited => Some provider_refusing
  | Types.network_failure => Some network_unreachable
  | schema_drift => Some shape_mismatch
  end.

Definition connectionReasonSentence (r : ConnectionReason) : string :=
  match r with
  | token_expired => "The credential this connection uses stopped working."
  | reading_expired => "The newest reading is older than the window it describes."
  | tool_not_running => "The local tool has not written a reading yet."
  | provider_refusing => "The provider refused the last read."
  | shape_mismatch => "The answer did not match the shape this build reads."
  | network_unreachable => "The last read never reached the provider."
  | no_credential => "No credential has been stored for this connection."
  end.

Record ConnectionStatus := {
  cs_state : ConnectionState;
  cs_reason : option ConnectionReason;
  cs_instruction : string }.

Definition reasonInstruction (reason : ConnectionReason) (tool : option string) : string :=
  match reason, tool with
  | token_expired, None => "Sign in again where this credential was created."
  | token_expired, Some tool => "Open " +:+ tool +:+ " to refresh"
  | reading_expired, None => "Refresh to read this connection again."
  | reading_expired, Some tool => "Open " +:+ tool +:+ " to refresh"
  | tool_not_running, None => "Start the tool that writes this reading."
  | tool_not_running, Some tool => "Open " +:+ tool +:+ " once so it writes a reading"
  | provider_refusing, _ => "Wait for the next retry."
  | shape_mismatch, None => "Reconnect, then report this if it keeps happening."
  | shape_mismatch, Some tool =>
      "Reconnect " +:+ tool +:+ ", then report this if it keeps happening"
  | network_unreachable, _ => "Check the network, then retry."
  | no_credential, _ => "Add the credential this connection needs."
  end.

Definition connectionStatus (state : ConnectionState) (reason : option ConnectionReason)
    (tool : option string) : ConnectionStatus :=
  {| cs_state := state; cs_reason := reason;
     cs_instruction :=
       match reason with
       | None => connectionNextAction state
       | Some reason => reasonInstruction reason tool
       end |}.

(** ** The catalogue *)

Inductive CatalogueProviderId :=
| cat_claude | cat_openrouter | cat_codex | cat_antigravity | cat_opencode | cat_grok | cat_kimi.

#[export] Instance CatalogueProviderId_eq : EqDecision CatalogueProviderId.
Proof. solve_decision. Defined.

#[export] Instance CATALOGUE_PROVIDER_IDS : Closed CatalogueProviderId := {
  all_of := [cat_claude; cat_openrouter; cat_codex; cat_antigravity; cat_opencode; cat_grok;
             cat_kimi];
  name_of p :=
    match p with
    | cat_claude => "claude" | cat_openrouter => "openrouter" | cat_codex => "codex"
    | cat_antigravity => "antigravity" | cat_opencode => "opencode" | cat_grok => "grok"
    | cat_kimi => "kimi"
    end }.

#[export] Instance catalogue_ids_laws : ClosedLaws CatalogueProviderId.
Proof. solve_closed. Qed.

Inductive CataloguePlatform := windows | macos | linux.
Inductive CatalogueCapabilityMode := automatic | manual | event_driven.
Inductive CatalogueCapabilityMaturity := supported_maturity | experimental.

Record CataloguePlatformCapability := {
  pc_mode : CatalogueCapabilityMode;
  pc_maturity : CatalogueCapabilityMaturity;
  pc_label : string }.

Definition supported : CataloguePlatformCapability :=
  {| pc_mode := automatic; pc_maturity := supported_maturity; pc_label := "Supported" |}.
Definition eventDriven : CataloguePlatformCapability :=
  {| pc_mode := event_driven; pc_maturity := supported_maturity; pc_label := "Event driven" |}.
Definition manual_capability : CataloguePlatformCapability :=
  {| pc_mode := manual; pc_maturity := supported_maturity; pc_label := "Manual" |}.
Definition manualExperimental : CataloguePlatformCapability :=
  {| pc_mode := manual; pc_maturity := experimental; pc_label := "Manual experimental" |}.

Definition catalogueCapabilities (p : CatalogueProviderId) (platform : CataloguePlatform) :
    CataloguePlatformCapability :=
  match p with
  | cat_claude => eventDriven
  | cat_antigravity =>
      match platform with windows => manualExperimental | _ => manual_capability end
  | _ => supported
  end.

Inductive CatalogueAuthMode := existing_local_cli | api_key | auth_manual.

#[export] Instance catalogue_auth_modes : Closed CatalogueAuthMode := {
  all_of := [existing_local_cli; api_key; auth_manual];
  name_of m :=
    match m with
    | existing_local_cli => "existing_local_cli" | api_key => "api_key" | auth_manual => "manual"
    end }.

Record ProviderCatalogueEntry := {
  ce_providerId : CatalogueProviderId;
  ce_displayName : string;
  ce_connectionState : ConnectionState;
  ce_capabilities : CataloguePlatform -> CataloguePlatformCapability;
  ce_authMode : CatalogueAuthMode;
  ce_action : string }.

Definition catalogueState (v : jsval) : ConnectionState := default NOT_CONFIGURED (read_name v).

Definition needs_login (state : ConnectionState) : bool :=
  match state with NEEDS_AUTH | AUTH_EXPIRED => true | _ => false end.

Definition actionFor (p : CatalogueProviderId) (state : ConnectionState) : string :=
  match p, needs_login state with
  | cat_codex, true => "Run codex login"
  | cat_grok, true => "Run grok login"
  | cat_kimi, true => "Run kimi login"
  | _, _ => connectionNextAction state
  end.

(** The fields of a candidate that is an object: an array has none of those
    the catalogue reads, anything else is passed over. *)
Definition entry_of (candidate : jsval) : option (list (string * jsval)) :=
  match candidate with JObj fs => Some fs | JArr _ => Some [] | _ => None end.

(** [entry.honesty?.connectorId] *)
Definition connectorId (entry : list (string * jsval)) : jsval :=
  match get entry "honesty" with JObj fs => get fs "connectorId" | _ => JUndef end.

Definition note_entry (found : list (CatalogueProviderId * list (string * jsval)))
    (candidate : jsval) :=
  match entry_of candidate with
  | None => found
  | Some entry =>
      match read_name (connectorId entry) with
      | Some p => assoc_set p entry found
      | None => found
      end
  end.

Definition has_platform (platforms : list jsval) (platform : string) : bool :=
  existsb (fun v => is_string v platform) platforms.

Definition catalogue_entry (states : CatalogueProviderId -> jsval) (p : CatalogueProviderId)
    (source : list (string * jsval)) : option ProviderCatalogueEntry :=
  let? displayName := as_string (get source "displayName") in
  let? authMode :=
    match get source "authModes" with JArr (mode :: _) => read_name mode | _ => None end in
  match get source "platforms" with
  | JArr platforms =>
      check forallb (has_platform platforms) ["windows"; "macos"; "linux"];;
      let connectionState := catalogueState (states p) in
      Some {| ce_providerId := p; ce_displayName := displayName;
              ce_connectionState := connectionState;
              ce_capabilities := catalogueCapabilities p;
              ce_authMode := authMode;
              ce_action := actionFor p connectionState |}
  | _ => None
  end.

(** The document is the value of its [providers] field. *)
Definition queryProviderCatalogue (providers : jsval) (states : CatalogueProviderId -> jsval) :
    list ProviderCatalogueEntry :=
  match providers with
  | JArr candidates =>
      let found := foldl note_entry [] candidates in
      omap (fun p => let? source := assoc_get p found in catalogue_entry states p source) all_of
  | _ => []
  end.

Inductive CatalogueRow :=
| connectable (entry : ProviderCatalogueEntry)
| planned (specId displayName : string).

Definition planned_row (candidate : jsval) : option CatalogueRow :=
  let? entry := entry_of candidate in
  check negb (is_string (connectorId entry) "manual");;
  match read_name (connectorId entry) : option CatalogueProviderId with
  | Some _ => None
  | None =>
      let? specId := as_string (get entry "id") in
      let? displayName := as_string (get entry "displayName") in
      Some (planned specId displayName)
  end.

Definition queryCatalogueRows (providers : jsval) (states : CatalogueProviderId -> jsval) :
    list CatalogueRow :=
  map connectable (queryProviderCatalogue providers states) ++
  match providers with JArr candidates => omap planned_row candidates | _ => [] end.

(** ** Failures *)

Inductive FailureCategory :=
| F_NOT_CONFIGURED | F_SESSION_EXPIRED | F_PAYLOAD_UNREADABLE | F_VALIDATION_REJECTED
| F_PROVIDER_DRIFT.

Definition failureSentence (c : FailureCategory) : string :=
  match c with
  | F_NOT_CONFIGURED => "Not set up yet, so nothing was read."
  | F_SESSION_EXPIRED => "Session expired."
  | F_PAYLOAD_UNREADABLE => "Payload could not be read, so nothing is claimed."
  | F_VALIDATION_REJECTED => "Payload failed validation, kept the last good reading."
  | F_PROVIDER_DRIFT => "Provider response changed, so usage is unknown."
  end.

Record ProviderFailure := { pf_provider : ProviderCode; pf_category : FailureCategory }.

Inductive ConnectorRefusal := r_unknown | r_unavailable | r_not_configured.

Definition failureFromConnectorReason (reason : ConnectorRefusal) : FailureCategory :=
  match reason with
  | r_not_configured => F_NOT_CONFIGURED
  | r_unavailable => F_SESSION_EXPIRED
  | r_unknown => F_PAYLOAD_UNREADABLE
  end.

Definition severity (c : FailureCategory) : Z :=
  match c with
  | F_NOT_CONFIGURED => 0 | F_PAYLOAD_UNREADABLE => 1 | F_SESSION_EXPIRED => 2
  | F_VALIDATION_REJECTED => 3 | F_PROVIDER_DRIFT => 4
  end.

Definition note_failure (m : list (ProviderCode * ProviderFailure)) (f : ProviderFailure) :=
  match assoc_get (pf_provider f) m with
  | None => assoc_set (pf_provider f) f m
  | Some held =>
      if severity (pf_category held) <? severity (pf_category f)
      then assoc_set (pf_provider f) f m else m
  end.

Definition dedupeFailures (failures : list ProviderFailure) : list ProviderFailure :=
  snd <$> foldl note_failure [] failures.

(** ** A connection's history *)

(** A connection: its state, and whether it ever worked. The module keeps no
    such record; its caller holds both and hands them to [nextConnectionState],
    and [advance] is such a caller, which notes every entry into Connected. *)
Record Connection := { cn_state : ConnectionState; cn_everConnected : bool }.

Definition initial : Connection := {| cn_state := NOT_CONFIGURED; cn_everConnected := false |}.

Definition advance (c : Connection) (e : ConnectionEvent) : Connection :=
  let state := nextConnectionState (cn_state c) e (cn_everConnected c) in
  {| cn_state := state;
     cn_everConnected := cn_everConnected c || bool_decide (state = CONNECTED) |}.

Inductive reachable : Connection -> Prop :=
| reach_initial : reachable initial
| reach_step c e : reachable c -> reachable (advance c e).

(** A read the provider answered and the parser understood. *)
Definition understood (e : ConnectionEvent) : bool :=
  match e with
  | http_response status parsed =>
      parsed && negb ((status <# int 200) || (int 299 <# status)) &&
      negb ((status ==# int 401) || (status ==# int 403) || (status ==# int 429))
  | local_read parsed => parsed
  | _ => false
  end.

(** The events by which a person or the product says what a connection is. *)
Definition declares (e : ConnectionEvent) : bool :=
  match e with
  | disconnected | declared_import_only | declared_manual | declared_unsupported => true
  | _ => false
  end.

Lemma afterResponse_connected s status parsed ever :
  afterResponse s status parsed ever = CONNECTED ->
  s = CONNECTED \/ (declaredStates s = false /\ understood (http_response status parsed) = true).
Proof.
  unfold afterResponse. simpl. destruct (declaredStates s) eqn:Ed; [by left|].
  destruct ((status ==# int 401) || (status ==# int 403)); [by destruct ever|].
  destruct (status ==# int 429); [done|]. simpl.
  destruct ((int 500 <=# status) && (status <=# int 599)); [done|].
  destruct ((status <# int 200) || (int 299 <# status)); [done|].
  destruct parsed; [|done]. by right.
Qed.

Lemma next_connected s e ever :
  nextConnectionState s e ever = CONNECTED ->
  (s = CONNECTED /\ declares e = false) \/ (declaredStates s = false /\ understood e = true).
Proof.
  destruct e; simpl; try done.
  - case_decide; [done|]. by left.
  - destruct s; try done; by left.
  - destruct s; try done; by left.
  - destruct s; try done.
  - intros [?|[? ?]]%afterResponse_connected; auto.
  - destruct (declaredStates s) eqn:Ed; [intros ->; done|]. destruct parsed; [by right|done].
  - destruct (declaredStates s) eqn:Ed; [intros ->; done|]. by case_match.
  - by destruct s.
Qed.

Lemma next_auth_expired s e ever :
  nextConnectionState s e ever = AUTH_EXPIRED -> s = AUTH_EXPIRED \/ ever = true.
Proof.
  destruct e; simpl; try done.
  - case_decide; [done|]. by left.
  - destruct s; try done; by left.
  - by destruct s.
  - destruct s; try done; by left.
  - unfold afterResponse. repeat (case_match; try done); auto.
  - repeat (case_match; try done); auto.
  - repeat (case_match; try done); auto.
  - destruct s; try done; by left.
Qed.

(** C37: a connection says Connected or that a working credential expired only
    if it worked. In every history from the initial record, Connected is
    entered only by a read the provider answered with success and the parser
    understood, outside the declared states; and both Connected and
    AUTH_EXPIRED imply that the connection worked at least once. *)
Theorem connection_history_sound c :
  reachable c ->
  (cn_state c = CONNECTED -> cn_everConnected c = true) /\
  (cn_state c = AUTH_EXPIRED -> cn_everConnected c = true) /\
  forall e, cn_state (advance c e) = CONNECTED ->
    (cn_state c = CONNECTED /\ declares e = false) \/
    (declaredStates (cn_state c) = false /\ understood e = true).
Proof.
  intros Hc. split_and!; [| |intros e; apply next_connected].
  - destruct Hc as [|c e _]; [done|]. simpl. intros ->. by rewrite orb_true_r.
  - induction Hc as [|c e Hc IH]; [done|]. simpl.
    intros [?|?]%next_auth_expired; [by rewrite IH|by apply orb_true_iff; left].
Qed.

Definition declared_source (s : ConnectionState) : Prop :=
  s = IMPORT_ONLY \/ s = MANUAL_PLAN \/ s = UNSUPPORTED.

(** What is fed by hand is never promoted: no read, failure, credential or
    request moves a declared source. *)
Lemma declared_source_stays s e ever :
  declared_source s -> declares e = false -> nextConnectionState s e ever = s.
Proof. intros [->|[->| ->]]; destruct e; done. Qed.

(** An import-only, manual or unsupported source stays what it was
    declared through any sequence of events but a disconnection or another
    declaration; and an unconfigured connection ignores every read result. *)
Theorem declared_sources_absorb c events :
  (declared_source (cn_state c) -> Forall (fun e => declares e = false) events ->
   cn_state (foldl advance c events) = cn_state c) /\
  (forall status parsed consecutive, cn_state c = NOT_CONFIGURED ->
     cn_state (advance c (http_response status parsed)) = NOT_CONFIGURED /\
     cn_state (advance c (local_read parsed)) = NOT_CONFIGURED /\
     cn_state (advance c (network_failure consecutive)) = NOT_CONFIGURED).
Proof.
  split; [|intros status parsed consecutive E; simpl; by rewrite E].
  intros Hs Hall. revert c Hs. induction Hall as [|e events He _ IH]; simpl; [done|].
  intros c Hs.
  assert (E : cn_state (advance c e) = cn_state c) by (by apply declared_source_stays).
  rewrite IH; [done|]. by rewrite E.
Qed.

(** Three failures in a row before any reading, and then the clock: the record
    says stale although nothing was ever read. *)
Lemma stale_without_a_reading :
  let c := foldl advance initial
    [detected; enable_requested; network_failure (int 1); expiry_passed] in
  cn_state c = STALE /\ cn_everConnected c = false.
Proof. by vm_compute. Qed.

(** ** The catalogue and the failures *)

Lemma catalogue_entry_Some states p source e :
  catalogue_entry states p source = Some e ->
  ce_providerId e = p /\ get source "displayName" = JStr (ce_displayName e) /\
  ce_connectionState e = catalogueState (states p) /\
  ce_capabilities e = catalogueCapabilities p /\
  ce_action e = actionFor p (ce_connectionState e).
Proof.
  unfold catalogue_entry. intros E.
  destruct (get source "displayName") as [| | | |d| |]; try done.
  destruct (as_string (JStr d)) as [d'|] eqn:Ed; [injection Ed as <-|done].
  destruct (match get source "authModes" with JArr (mode :: _) => read_name mode | _ => None end)
    as [mode|]; [|done].
  destruct (get source "platforms"); try done.
  match type of E with (if ?b then _ else _) = _ => destruct b; [|done] end.
  by injection E as <-.
Qed.

Lemma omap_sublist {A B C} (f : A -> option B) (g : B -> C) (h : A -> C) (l : list A) :
  (forall x y, f x = Some y -> g y = h x) -> (g <$> omap f l) `sublist_of` (h <$> l).
Proof.
  intros Hf. induction l as [|x l IH]; csimpl; [constructor|].
  destruct (f x) as [y|] eqn:E; csimpl; [rewrite (Hf x y E)|]; by constructor.
Qed.

Lemma found_source candidates p source :
  assoc_get p (foldl note_entry [] candidates) = Some source ->
  exists candidate, candidate ∈ candidates /\ entry_of candidate = Some source /\
    read_name (connectorId source) = Some p.
Proof.
  revert p source. induction candidates as [|c l IH] using rev_ind; [done|].
  intros p source. rewrite foldl_app. simpl. setoid_rewrite elem_of_app. unfold note_entry at 1.
  destruct (entry_of c) as [entry|] eqn:Ec; [|intros (? & ? & ?)%IH; eauto].
  destruct (read_name (connectorId entry)) as [q|] eqn:Eq; [|intros (? & ? & ?)%IH; eauto].
  rewrite assoc_get_set. case_decide as Hp; [|intros (? & ? & ?)%IH; eauto].
  intros [= <-]. subst q. exists c. rewrite list_elem_of_singleton. auto.
Qed.

(** The catalogue lists what the document says, once. Connectable rows come
    in the product's order with no provider twice, each named by an entry of
    the document that carries its connector, with the capabilities and the
    action of that provider; every other row is a planned product that names
    no connectable provider and no manual plan. *)
Theorem catalogue_rows_exact candidates states :
  (ce_providerId <$> queryProviderCatalogue (JArr candidates) states)
    `sublist_of` (all_of : list CatalogueProviderId) /\
  (forall e, e ∈ queryProviderCatalogue (JArr candidates) states ->
     exists candidate source, candidate ∈ candidates /\ entry_of candidate = Some source /\
       read_name (connectorId source) = Some (ce_providerId e) /\
       get source "displayName" = JStr (ce_displayName e) /\
       ce_connectionState e = catalogueState (states (ce_providerId e)) /\
       ce_capabilities e = catalogueCapabilities (ce_providerId e) /\
       ce_action e = actionFor (ce_providerId e) (ce_connectionState e)) /\
  (forall row, row ∈ queryCatalogueRows (JArr candidates) states ->
     match row with
     | connectable e => e ∈ queryProviderCatalogue (JArr candidates) states
     | planned specId displayName => exists candidate source, candidate ∈ candidates /\
         entry_of candidate = Some source /\
         read_name (A:=CatalogueProviderId) (connectorId source) = None /\
         connectorId source <> JStr "manual" /\
         get source "id" = JStr specId /\ get source "displayName" = JStr displayName
     end).
Proof.
  split_and!.
  - unfold queryProviderCatalogue. rewrite <- (list_fmap_id all_of) at 2.
    apply omap_sublist. intros p e. destruct (assoc_get p _); [|done].
    by intros [? _]%catalogue_entry_Some.
  - intros e (p & _ & E)%list_elem_of_omap.
    destruct (assoc_get p _) as [source|] eqn:Es; [|done].
    destruct (found_source _ _ _ Es) as (c & Hc & Hec & Hp). exists c, source.
    apply catalogue_entry_Some in E as (-> & ? & ? & ? & ?). done.
  - intros row [Hrow|Hrow]%elem_of_app.
    + by apply list_elem_of_In, in_map_iff in Hrow as (e & <- & He%list_elem_of_In).
    + apply list_elem_of_omap in Hrow as (c & Hc & E). unfold planned_row in E.
      destruct (entry_of c) as [source|] eqn:Ec; [|done].
      destruct (is_string (connectorId source) "manual") eqn:Em; [done|]. simpl in E.
      destruct (read_name (A:=CatalogueProviderId) _) eqn:Er; [done|].
      destruct (get source "id") eqn:Ei; try done.
      destruct (get source "displayName") eqn:Ed; try done. simpl in E. injection E as <-.
      exists c, source. split_and!; try done. intros Hm. rewrite Hm in Em. done.
Qed.

Lemma note_failure_ok m f :
  (forall p g, (p, g) ∈ m -> pf_provider g = p) -> NoDup m.*1 ->
  (forall p g, (p, g) ∈ note_failure m f -> pf_provider g = p) /\ NoDup (note_failure m f).*1.
Proof.
  intros Hm Hn. unfold note_failure.
  assert (Hset : (forall p g, (p, g) ∈ assoc_set (pf_provider f) f m -> pf_provider g = p) /\
    NoDup (assoc_set (pf_provider f) f m).*1).
  { split; [|by apply assoc_set_NoDup]. intros p g Hin%assoc_get_elem; [|by apply assoc_set_NoDup].
    rewrite assoc_get_set in Hin. case_decide; [by simplify_eq|].
    apply Hm. by apply assoc_get_elem. }
  repeat case_match; auto.
Qed.

Lemma failures_fold_ok l :
  (forall p g, (p, g) ∈ foldl note_failure [] l -> pf_provider g = p) /\
  NoDup (foldl note_failure [] l).*1.
Proof.
  induction l as [|f l [IH1 IH2]] using rev_ind; [split; [by intros ? ? ?%elem_of_nil|constructor]|].
  rewrite foldl_app. by apply note_failure_ok.
Qed.

Lemma failures_fold_worst l p :
  match assoc_get p (foldl note_failure [] l) with
  | Some g => g ∈ l /\ pf_provider g = p /\
      forall f, f ∈ l -> pf_provider f = p -> severity (pf_category f) <= severity (pf_category g)
  | None => forall f, f ∈ l -> pf_provider f <> p
  end.
Proof.
  induction l as [|f l IH] using rev_ind; [by intros f ?%elem_of_nil|].
  assert (Hin : forall g, g ∈ l ++ [f] <-> g ∈ l \/ g = f)
    by (intros g; by rewrite elem_of_app, list_elem_of_singleton).
  rewrite foldl_app. simpl.
  set (m := foldl note_failure [] l) in *. unfold note_failure.
  destruct (decide (pf_provider f = p)) as [Ep|Ep].
  - subst p. destruct (assoc_get (pf_provider f) m) as [held|] eqn:Eh.
    + destruct (severity (pf_category held) <? severity (pf_category f)) eqn:El.
      * rewrite assoc_get_set, decide_True by done. apply Z.ltb_lt in El.
        destruct IH as (? & ? & Hw). split_and!; [apply Hin; by right|done|].
        intros g [Hg| ->]%Hin Eg; [|lia]. specialize (Hw g Hg Eg). lia.
      * rewrite Eh. apply Z.ltb_ge in El. destruct IH as (? & ? & Hw).
        split_and!; [apply Hin; by left|done|]. intros g [Hg| ->]%Hin Eg; [by apply Hw|lia].
    + rewrite assoc_get_set, decide_True by done. split_and!; [apply Hin; by right|done|].
      intros g [Hg| ->]%Hin Eg; [by destruct (IH g Hg)|lia].
  - assert (Hsame : assoc_get p (match assoc_get (pf_provider f) m with
      | Some held => if severity (pf_category held) <? severity (pf_category f)
                     then assoc_set (pf_provider f) f m else m
      | None => assoc_set (pf_provider f) f m end) = assoc_get p m).
    { repeat case_match; rewrite ?assoc_get_set, ?decide_False by congruence; done. }
    rewrite Hsame. destruct (assoc_get p m) as [g|].
    + destruct IH as (? & ? & Hw). split_and!; [apply Hin; by left|done|].
      intros g' [Hg| ->]%Hin Eg; [by apply Hw|done].
    + intros g [Hg| ->]%Hin; [by apply IH|done].
Qed.

(** One line per provider, the worst. The failures shown name each failing
    provider exactly once, with a failure that was reported for it and than
    which none reported for it is more severe. *)
Theorem dedupeFailures_worst_per_provider failures :
  NoDup (pf_provider <$> dedupeFailures failures) /\
  forall p, match filter (fun g => pf_provider g = p) (dedupeFailures failures) with
  | [] => forall f, f ∈ failures -> pf_provider f <> p
  | g :: more => more = [] /\ g ∈ failures /\
      forall f, f ∈ failures -> pf_provider f = p ->
        severity (pf_category f) <= severity (pf_category g)
  end.
Proof.
  destruct (failures_fold_ok failures) as [Hk Hn]. unfold dedupeFailures.
  set (m := foldl note_failure [] failures) in *.
  assert (Hkeys : pf_provider <$> m.*2 = m.*1).
  { rewrite <- list_fmap_compose. apply list_fmap_ext. intros i [p g] Hi. simpl.
    apply Hk. by eapply list_elem_of_lookup_2. }
  assert (Hnd : NoDup (pf_provider <$> m.*2)) by (by rewrite Hkeys).
  split; [done|]. intros p. pose proof (failures_fold_worst failures p) as Hw. fold m in Hw.
  destruct (filter _ _) as [|g more] eqn:E.
  - destruct (assoc_get p m) as [g|] eqn:Eg; [|done]. exfalso.
    apply assoc_get_elem in Eg; [|done]. apply (elem_of_nil g). rewrite <- E.
    apply list_elem_of_filter. split; [by apply Hk|]. apply list_elem_of_fmap. by exists (p, g).
  - assert (Hg : g ∈ filter (fun g => pf_provider g = p) m.*2) by (rewrite E; left).
    apply list_elem_of_filter in Hg as [Hp ([q g'] & -> & Hin)%list_elem_of_fmap]. simpl in *.
    apply Hk in Hin as Hq. subst p q. apply assoc_get_elem in Hin; [|done].
    rewrite Hin in Hw. destruct Hw as (? & _ & ?). split; [|done].
    by eapply (filter_key_unique pf_provider _ m.*2).
Qed.

(** ** Witnesses *)

Lemma connection_history_sound_witness :
  reachable (advance (advance initial detected) enable_requested) /\
  (cn_state (advance (advance initial detected) enable_requested) = CONNECTED ->
   cn_everConnected (advance (advance initial detected) enable_requested) = true).
Proof.
  assert (Hr : reachable (advance (advance initial detected) enable_requested))
    by (repeat constructor).
  split; [exact Hr|]. exact (proj1 (connection_history_sound _ Hr)).
Defined.
