(* ===== verification/Json.v ===== *)
(** * Text of values

    [JSON.stringify] and what it needs: the shortest decimal text of a double
    ([Number::toString]), the escapes of a quoted string, and the UTF-8 bytes
    of a text. Code units stay below 256, so every unit is one or two bytes. *)
From S2P Require Import Prelude JsNum JsDate JsValue Text.
Local Open Scope string_scope.
Local Open Scope Z_scope.
Local Open Scope list_scope.
Local Open Scope js_scope.

(** ** Numbers *)

(** The number of decimal digits of a positive whole number. *)
Fixpoint digit_count (fuel : nat) (n : Z) : Z :=
  match fuel with O => 0 | S fuel => if n <? 10 then 1 else 1 + digit_count fuel (n / 10) end.

(** [n] with [10^(n-1) <= z/one < 10^n]. *)
Fixpoint leading_zeros (fuel : nat) (z : Z) : Z :=
  match fuel with O => 0 | S fuel => if one <=? z * 10 then 0 else 1 + leading_zeros fuel (z * 10) end.

Definition magnitude (z : Z) : Z :=
  if one <=? z then digit_count 310 (z / one) else - leading_zeros 330 z.

(** [s * 10^e], as a double. *)
Definition scaled (s e : Z) : num :=
  if 0 <=? e then round_ratio (s * 10 ^ e * one) 1 else round_ratio (s * one) (10 ^ (- e)).

(** The decimals of [k] digits that read back as [z], the closer one first. *)
Definition decimal_of_length (z n k : Z) : option (Z * Z) :=
  let e := n - k in
  let '(a, b) := if 0 <=? e then (z, one * 10 ^ e) else (z * 10 ^ (- e), one) in
  let s := a / b in
  let closer := if 2 * (a mod b) <=? b then [s; s + 1] else [s + 1; s] in
  match filter (fun s => scaled s e = Fin z) closer with
  | [] => None
  | s :: _ => Some (if s =? 10 ^ k then (10 ^ (k - 1), n + 1) else (s, n))
  end.

Fixpoint shortest (fuel : nat) (z n k : Z) : Z * Z * Z :=
  match fuel with
  | O => (0, k, n)
  | S fuel =>
      match decimal_of_length z n k with
      | Some (s, n') => (s, k, n')
      | None => shortest fuel z n (k + 1)
      end
  end.

Definition zeros (n : Z) : string := join "" (repeat "0" (Z.to_nat n)).

Definition str_take (n : Z) (s : string) : string := String.substring 0 (Z.to_nat n) s.
Definition str_drop (n : Z) (s : string) : string :=
  String.substring (Z.to_nat n) (String.length s - Z.to_nat n) s.

(** [Number::toString] of a positive finite number. *)
Definition positive_text (z : Z) : string :=
  let '(s, k, n) := shortest 17 z (magnitude z) 1 in
  let digits := decimal s in
  if (k <=? n) && (n <=? 21) then digits +:+ zeros (n - k)
  else if (0 <? n) && (n <=? 21) then str_take n digits +:+ "." +:+ str_drop n digits
  else if (-6 <? n) && (n <=? 0) then "0." +:+ zeros (- n) +:+ digits
  else
    let exponent := (if 0 <=? n - 1 then "e+" else "e-") +:+ decimal (Z.abs (n - 1)) in
    (if k =? 1 then digits else str_take 1 digits +:+ "." +:+ str_drop 1 digits) +:+ exponent.

Definition number_text (x : num) : string :=
  match x with
  | NaN => "NaN"
  | Inf negative => if negative then "-Infinity" else "Infinity"
  | Fin z => if z =? 0 then "0" else if z <? 0 then "-" +:+ positive_text (- z) else positive_text z
  end.

Example tenth_text : number_text (lit 1 10) = "0.1".
Proof. by vm_compute. Qed.

Example large_text : number_text (int (10 ^ 21)) = "1e+21".
Proof. by vm_compute. Qed.

(** ** Strings *)

Definition hex_digit (n : Z) : ascii := if n <? 10 then chr (48 + n) else chr (87 + n).

Definition quote_char (c : ascii) : string :=
  if code c =? 34 then "\" +:+ String c ""
  else if code c =? 92 then "\\"
  else if code c =? 8 then "\b"
  else if code c =? 12 then "\f"
  else if code c =? 10 then "\n"
  else if code c =? 13 then "\r"
  else if code c =? 9 then "\t"
  else if code c <? 32 then
    "\u00" +:+ String (hex_digit (code c / 16)) (String (hex_digit (code c mod 16)) "")
  else String c "".

Fixpoint str_concat_map (f : ascii -> string) (s : string) : string :=
  match s with EmptyString => "" | String c s' => f c +:+ str_concat_map f s' end.

Definition double_quote : string := String (chr 34) "".

Definition quoted (s : string) : string :=
  double_quote +:+ str_concat_map quote_char s +:+ double_quote.

(** ** Values *)

(** [JSON.stringify]: no text for [undefined]; in an array it is [null], in an
    object its key is left out. *)
Fixpoint stringify (v : jsval) : option string :=
  match v with
  | JUndef => None
  | JNull => Some "null"
  | JBool b => Some (if b then "true" else "false")
  | JNum x => Some (if is_finite x then number_text x else "null")
  | JStr s => Some (quoted s)
  | JArr l => Some ("[" +:+ join "," (map (fun x => default "null" (stringify x)) l) +:+ "]")
  | JObj fs =>
      Some ("{" +:+
            join "," (omap (fun kv => (fun t => quoted kv.1 +:+ ":" +:+ t) <$> stringify kv.2) fs)
            +:+ "}")
  end.

(** [canonicalJson] *)
Definition canonicalJson (v : jsval) : option string := stringify (sortDeep v).

Example canonical_example :
  canonicalJson (JObj [("b", JNum (int 2)); ("a", JArr [JUndef; JStr "x"])]) =
  Some ("{" +:+ quoted "a" +:+ ":[null," +:+ quoted "x" +:+ "]," +:+ quoted "b" +:+ ":2}").
Proof. by vm_compute. Qed.

(** ** Bytes *)

(** [TextEncoder.encode]: UTF-8. *)
Fixpoint utf8 (s : string) : list Z :=
  match s with
  | EmptyString => []
  | String c s' =>
      (if code c <? 128 then [code c] else [192 + code c / 64; 128 + code c mod 64]) ++ utf8 s'
  end.

Definition byte_length (s : string) : Z := Z.of_nat (length (utf8 s)).

Lemma code_range c : 0 <= code c < 256.
Proof. by destruct c as [[] [] [] [] [] [] [] []]. Qed.

Lemma utf8_bytes s : Forall (fun b => 0 <= b < 256) (utf8 s).
Proof.
  induction s as [|c s IH]; simpl; [constructor|]. apply Forall_app. split; [|done].
  pose proof (code_range c). destruct (Z.ltb_spec (code c) 128); repeat constructor;
    Z.div_mod_to_equations; lia.
Qed.

Lemma byte_length_nonneg x : 0 <= byte_length x.
Proof. unfold byte_length. lia. Qed.

Lemma byte_length_bound s : str_length s <= byte_length s <= 2 * str_length s.
Proof.
  unfold byte_length. induction s as [|c s IH]; cbn [utf8 str_length]; [simpl; lia|].
  rewrite length_app. destruct (code c <? 128); simpl length; lia.
Qed.
