(* ===== verification/ReadBack.v ===== *)
(** * Printed text reads back

    [JSON.parse] of what [JSON.stringify] prints: numbers through their
    shortest decimals, texts through their escapes, then whole values. *)
From S2P Require Import Prelude JsNum JsDate JsValue Text Json JsonText.
Local Open Scope string_scope.
Local Open Scope Z_scope.
Local Open Scope list_scope.
Local Open Scope js_scope.

(** ** A decimal of seventeen digits identifies a double *)

Lemma half_even_near n q b : 2 * Z.abs (n - q * b) < b -> half_even n b = q.
Proof.
  intros H. assert (Hb : 0 < b) by lia. unfold half_even.
  pose proof (Z.div_mod n b ltac:(lia)). pose proof (Z.mod_pos_bound n b Hb).
  set (s := n / b) in *. set (r := n mod b) in *.
  assert (Hs : s = q \/ s = q - 1) by nia.
  destruct Hs as [-> | ->]; repeat case_match; bools; nia.
Qed.

(** A positive double as a multiple of the spacing at its magnitude. *)
Lemma representable_normal z :
  representable z -> 0 < z ->
  exists q k, z = q * 2 ^ k /\ 0 <= k /\ 0 < q < 2 ^ 53 /\ (k = 0 \/ 2 ^ 52 <= q).
Proof.
  intros (_ & m & j & Hj & Hm & E) Hz. rewrite Z.abs_eq in E by lia.
  pose proof (Z.pow_pos_nonneg 2 j ltac:(lia) Hj). assert (Hm0 : 0 < m) by nia.
  set (l := Z.log2 m). pose proof (Z.log2_spec m Hm0) as [Hl1 Hl2]. fold l in Hl1, Hl2.
  assert (Hl : 0 <= l < 53) by (split; [apply Z.log2_nonneg|apply Z.log2_lt_pow2; lia]).
  set (i := Z.min j (52 - l)).
  exists (m * 2 ^ i), (j - i).
  assert (Hi : 0 <= i) by lia. pose proof (Z.pow_pos_nonneg 2 i ltac:(lia) Hi).
  split_and!; [|lia|nia| |].
  - rewrite E, <- Z.mul_assoc, <- Z.pow_add_r by lia. do 2 f_equal. lia.
  - apply Z.lt_le_trans with (2 ^ Z.succ l * 2 ^ i); [nia|].
    rewrite <- Z.pow_add_r by lia. apply Z.pow_le_mono_r; lia.
  - destruct (Z.le_gt_cases j (52 - l)); [left; lia|right].
    replace i with (52 - l) by lia. replace 52 with (l + (52 - l)) at 1 by lia.
    rewrite Z.pow_add_r by lia. apply Z.mul_le_mono_nonneg_r; [apply Z.pow_nonneg; lia|lia].
Qed.

Lemma grid_at n d k :
  0 < d -> 0 <= k -> n < 2 ^ (53 + k) * d -> (k = 0 /\ 0 <= n \/ 2 ^ (52 + k) * d <= n) -> grid n d = 2 ^ k.
Proof.
  intros Hd Hk Hlt Hge. unfold grid. f_equal.
  assert (Hq : n / d < 2 ^ (53 + k)) by (apply Z.div_lt_upper_bound; lia).
  destruct Hge as [[-> Hn]|Hge].
  - assert (Z.log2 (n / d) <= 52); [|lia].
    destruct (Z.le_gt_cases (n / d) 0); [rewrite Z.log2_nonpos; lia|].
    assert (Z.log2 (n / d) < 53) by (apply Z.log2_lt_pow2; lia). lia.
  - assert (Hq' : 2 ^ (52 + k) <= n / d) by (apply Z.div_le_lower_bound; lia).
    pose proof (Z.pow_pos_nonneg 2 (52 + k) ltac:(lia) ltac:(lia)).
    assert (Z.log2 (n / d) < 53 + k) by (apply Z.log2_lt_pow2; lia).
    assert (52 + k <= Z.log2 (n / d)) by (apply Z.log2_le_pow2; lia). lia.
Qed.

(** Whatever lies within half a part in [10^16] of a double rounds to it. *)
Lemma round_magnitude_near z n d :
  representable z -> 0 < z -> 0 < d -> 2 * 10 ^ 16 * Z.abs (n - z * d) <= z * d ->
  round_magnitude n d = z.
Proof.
  intros Hr Hz Hd Hnear.
  destruct (representable_normal z Hr Hz) as (q & k & E & Hk & Hq & Hnorm).
  pose proof (Z.pow_pos_nonneg 2 k ltac:(lia) Hk) as Hp. set (g := 2 ^ k) in *.
  set (u := d * g). assert (Hu : 0 < u) by nia.
  assert (Ezd : z * d = q * u) by (unfold u; rewrite E; ring).
  rewrite Ezd in Hnear.
  assert (H53 : 2 ^ (53 + k) * d = 2 ^ 53 * u) by (rewrite Z.pow_add_r by lia; fold g; unfold u; ring).
  assert (H52 : 2 ^ (52 + k) * d = 2 ^ 52 * u) by (rewrite Z.pow_add_r by lia; fold g; unfold u; ring).
  assert (Hclose : 2 * Z.abs (n - q * u) < u) by (clear - Hnear Hq Hu; nia).
  destruct (decide (k = 0 \/ 2 ^ 52 * u <= n)) as [Hin|Hout].
  - assert (Hg : grid n d = g).
    { apply grid_at; [done|done|rewrite H53; nia|]. rewrite H52.
      destruct Hin as [->|]; [left; split; [done|nia]|by right]. }
    unfold round_magnitude. rewrite Hg. fold u. rewrite (half_even_near n q u) by done. lia.
  - (** just below a power of two, where the spacing halves *)
    assert (Hk0 : k <> 0) by tauto. assert (Hlow : n < 2 ^ 52 * u) by lia.
    assert (q = 2 ^ 52) as -> by nia.
    assert (Hg2 : 2 ^ (k - 1) * 2 = g).
    { unfold g. rewrite <- (Z.pow_1_r 2) at 2. rewrite <- Z.pow_add_r by lia. f_equal. lia. }
    assert (Hg : grid n d = 2 ^ (k - 1)).
    { apply grid_at; [done|lia| |right].
      - replace (53 + (k - 1)) with (52 + k) by lia. by rewrite H52.
      - replace (52 + (k - 1)) with (51 + k) by lia.
        replace (2 ^ (51 + k) * d) with (2 ^ 51 * u)
          by (rewrite Z.pow_add_r by lia; unfold u; fold g; ring). nia. }
    unfold round_magnitude. rewrite Hg. set (h := 2 ^ (k - 1)) in *.
    rewrite (half_even_near n (2 ^ 53) (d * h)); [rewrite E, <- Hg2; ring|].
    assert (Eu : u = 2 * (d * h)) by (unfold u; rewrite <- Hg2; ring).
    rewrite Eu in Hnear, Hclose.
    replace (2 ^ 53 * (d * h)) with (2 ^ 52 * (2 * (d * h))) by ring. nia.
Qed.

(** ** The shortest decimal exists *)

Lemma pow10_pos n : 0 <= n -> 0 < 10 ^ n.
Proof. intros Hn. apply Z.pow_pos_nonneg; lia. Qed.

Lemma pow10_succ n : 0 <= n -> 10 ^ (n + 1) = 10 * 10 ^ n.
Proof. intros Hn. rewrite Z.pow_add_r by lia. lia. Qed.

Lemma digit_count_spec fuel n :
  1 <= n < 10 ^ Z.of_nat fuel ->
  1 <= digit_count fuel n <= Z.of_nat fuel /\
  10 ^ (digit_count fuel n - 1) <= n < 10 ^ digit_count fuel n.
Proof.
  revert n. induction fuel as [|fuel IH]; intros n Hn; [simpl in Hn; lia|].
  cbn [digit_count]. destruct (Z.ltb_spec n 10); [simpl; lia|].
  rewrite Nat2Z.inj_succ, Z.pow_succ_r in Hn by lia.
  assert (Hq : 1 <= n / 10 < 10 ^ Z.of_nat fuel).
  { split; [apply Z.div_le_lower_bound; lia|apply Z.div_lt_upper_bound; lia]. }
  destruct (IH _ Hq) as [Hc [Hlo Hhi]]. set (c := digit_count fuel (n / 10)) in *.
  replace (1 + c - 1) with (c - 1 + 1) by lia. replace (1 + c) with (c + 1) by lia.
  rewrite !pow10_succ by lia. pose proof (Z.div_mod n 10 ltac:(lia)).
  pose proof (Z.mod_pos_bound n 10 ltac:(lia)). split; lia.
Qed.

Lemma leading_zeros_spec fuel z :
  0 < z < one -> one <= z * 10 ^ Z.of_nat fuel ->
  0 <= leading_zeros fuel z <= Z.of_nat fuel /\
  z * 10 ^ leading_zeros fuel z < one <= z * 10 ^ (leading_zeros fuel z + 1).
Proof.
  revert z. induction fuel as [|fuel IH]; intros z Hz Hf; [simpl in Hf; lia|].
  cbn [leading_zeros]. destruct (Z.leb_spec one (z * 10)).
  - change (10 ^ 0) with 1. change (10 ^ (0 + 1)) with 10. lia.
  - rewrite Nat2Z.inj_succ, Z.pow_succ_r in Hf by lia.
    destruct (IH (z * 10) ltac:(lia) ltac:(lia)) as [Hc [Hlo Hhi]].
    set (c := leading_zeros fuel (z * 10)) in *.
    replace (1 + c) with (c + 1) by lia. rewrite !pow10_succ in * by lia. lia.
Qed.

(** The magnitude of a double places its first decimal digit. *)
Lemma magnitude_spec z :
  0 < z < overflow_bound ->
  let n := magnitude z in
  -330 <= n <= 310 /\
  (0 < n /\ 10 ^ (n - 1) * one <= z < 10 ^ n * one \/
   n <= 0 /\ z * 10 ^ (- n) < one <= z * 10 ^ (1 - n)).
Proof.
  intros Hz. unfold magnitude. pose proof one_pos as Hone. destruct (Z.leb_spec one z).
  - assert (Hq : 1 <= z / one < 10 ^ Z.of_nat 310).
    { split; [apply Z.div_le_lower_bound; lia|]. apply Z.div_lt_upper_bound; [done|].
      apply Z.lt_le_trans with overflow_bound; [lia|]. by apply Z.leb_le. }
    destruct (digit_count_spec 310 _ Hq) as [Hc [Hlo Hhi]]. set (c := digit_count 310 (z / one)) in *.
    split; [lia|left]. split; [lia|]. pose proof (Z.div_mod z one ltac:(lia)).
    pose proof (Z.mod_pos_bound z one Hone). nia.
  - assert (Hbig : one <= 10 ^ Z.of_nat 330) by (by apply Z.leb_le).
    destruct (leading_zeros_spec 330 z) as [Hc Hr]; [lia|nia|].
    set (c := leading_zeros 330 z) in *. split; [lia|right]. split; [lia|].
    rewrite Z.opp_involutive. replace (1 - - c) with (c + 1) by lia. done.
Qed.

Lemma round_ratio_ext n d n' d' :
  0 < d -> 0 < d' -> n * d' = n' * d -> round_ratio n d = round_ratio n' d'.
Proof.
  intros Hd Hd' E. unfold round_ratio.
  assert (Em : round_magnitude (Z.abs n) d = round_magnitude (Z.abs n') d').
  { apply Z.le_antisymm; apply round_magnitude_mono; nia. }
  assert (Es : Z.sgn n = Z.sgn n').
  { destruct (Z.sgn_spec n) as [[? ->]|[[? ->]|[? ->]]], (Z.sgn_spec n') as [[? ->]|[[? ->]|[? ->]]];
      try done; nia. }
  rewrite Em, Es. case_match; [|done]. f_equal.
  destruct (Z.ltb_spec n 0), (Z.ltb_spec n' 0); try done; nia.
Qed.

(** The numerator and the denominator of a scaled decimal, in units. *)
Lemma scaled_ratio s e :
  scaled s e = round_ratio (s * 10 ^ Z.max 0 e * one) (10 ^ Z.max 0 (- e)).
Proof.
  unfold scaled. destruct (Z.leb_spec 0 e).
  - rewrite Z.max_r, (Z.max_l 0 (- e)) by lia. done.
  - rewrite Z.max_l, Z.max_r by lia. by rewrite Z.mul_1_r.
Qed.

Lemma scaled_shift s e i : 0 <= i -> scaled (s * 10 ^ i) e = scaled s (e + i).
Proof.
  intros Hi. rewrite !scaled_ratio. apply round_ratio_ext; [apply pow10_pos; lia|apply pow10_pos; lia|].
  assert (Hp : 10 ^ i * 10 ^ Z.max 0 e * 10 ^ Z.max 0 (- (e + i)) =
    10 ^ Z.max 0 (e + i) * 10 ^ Z.max 0 (- e)).
  { rewrite <- !Z.pow_add_r by lia. f_equal. lia. }
  replace (s * 10 ^ i * 10 ^ Z.max 0 e * one * 10 ^ Z.max 0 (- (e + i)))
    with (s * one * (10 ^ i * 10 ^ Z.max 0 e * 10 ^ Z.max 0 (- (e + i)))) by ring.
  rewrite Hp. ring.
Qed.

(** The first [k] digits of a double, as a quotient. *)
Section Digits.
Context (z : Z) (Hr : representable z) (Hz : 0 < z).

Let n := magnitude z.
Let up k := 10 ^ Z.max 0 (- (n - k)).
Let down k := one * 10 ^ Z.max 0 (n - k).

Lemma decimal_of_length_eq k :
  decimal_of_length z n k =
  let s := z * up k / down k in
  let closer := if 2 * ((z * up k) mod down k) <=? down k then [s; s + 1] else [s + 1; s] in
  match filter (fun s => scaled s (n - k) = Fin z) closer with
  | [] => None
  | s :: _ => Some (if s =? 10 ^ k then (10 ^ (k - 1), n + 1) else (s, n))
  end.
Proof.
  unfold decimal_of_length, up, down. destruct (Z.leb_spec 0 (n - k)).
  - rewrite (Z.max_l 0 (- (n - k))), Z.max_r by lia. by rewrite Z.mul_1_r.
  - rewrite (Z.max_r 0 (- (n - k))), Z.max_l by lia. by rewrite Z.mul_1_r.
Qed.

Lemma digits_range k : 1 <= k -> 10 ^ (k - 1) * down k <= z * up k < 10 ^ k * down k.
Proof.
  intros Hk. destruct (magnitude_spec z ltac:(destruct Hr; lia)) as [_ Hm]. fold n in Hm.
  unfold up, down. pose proof one_pos. pose proof (pow10_pos (Z.max 0 (- (n - k))) ltac:(lia)).
  destruct Hm as [[Hn [Hlo Hhi]]|[Hn [Hlo Hhi]]].
  - assert (E1 : 10 ^ (k - 1) * 10 ^ Z.max 0 (n - k) = 10 ^ (n - 1) * 10 ^ Z.max 0 (- (n - k))).
    { rewrite <- !Z.pow_add_r by lia. f_equal. lia. }
    assert (E2 : 10 ^ k * 10 ^ Z.max 0 (n - k) = 10 ^ n * 10 ^ Z.max 0 (- (n - k))).
    { rewrite <- !Z.pow_add_r by lia. f_equal. lia. }
    replace (10 ^ (k - 1) * (one * 10 ^ Z.max 0 (n - k)))
      with (one * (10 ^ (k - 1) * 10 ^ Z.max 0 (n - k))) by ring.
    replace (10 ^ k * (one * 10 ^ Z.max 0 (n - k)))
      with (one * (10 ^ k * 10 ^ Z.max 0 (n - k))) by ring.
    rewrite E1, E2. nia.
  - rewrite (Z.max_l 0 (n - k)), (Z.max_r 0 (- (n - k))) by lia. rewrite Z.mul_1_r.
    replace (- (n - k)) with ((1 - n) + (k - 1)) at 1 by lia.
    replace (- (n - k)) with (- n + k) by lia.
    rewrite !Z.pow_add_r by lia. pose proof (pow10_pos (k - 1) ltac:(lia)).
    pose proof (pow10_pos k ltac:(lia)). nia.
Qed.

Lemma quotient_range k :
  1 <= k -> 10 ^ (k - 1) <= z * up k / down k < 10 ^ k.
Proof.
  intros Hk. pose proof (digits_range k Hk) as [Hlo Hhi].
  assert (0 < down k) by (pose proof one_pos; pose proof (pow10_pos (Z.max 0 (n - k))); unfold down; nia).
  split; [apply Z.div_le_lower_bound; lia|apply Z.div_lt_upper_bound; lia].
Qed.

Lemma decimal_of_length_sound k s n' :
  1 <= k -> decimal_of_length z n k = Some (s, n') ->
  10 ^ (k - 1) <= s < 10 ^ k /\ scaled s (n' - k) = Fin z /\ n <= n' <= n + 1.
Proof.
  intros Hk. rewrite decimal_of_length_eq. cbn zeta.
  set (q := z * up k / down k). pose proof (quotient_range k Hk) as Hq. fold q in Hq.
  set (closer := if _ <=? _ then _ else _).
  destruct (filter _ closer) as [|c l] eqn:E; [done|].
  assert (Hc : c ∈ filter (fun s => scaled s (n - k) = Fin z) closer) by (rewrite E; left).
  apply list_elem_of_filter in Hc as [Hs Hin].
  assert (Hcq : c = q \/ c = q + 1).
  { unfold closer in Hin. case_match; rewrite !elem_of_cons, elem_of_nil in Hin; tauto. }
  pose proof (pow10_succ (k - 1) ltac:(lia)) as E10. replace (k - 1 + 1) with k in E10 by lia.
  pose proof (pow10_pos (k - 1) ltac:(lia)).
  destruct (Z.eqb_spec c (10 ^ k)) as [->|Hne]; intros [= <- <-].
  - split; [lia|]. split; [|lia]. rewrite <- Hs.
    replace (n + 1 - k) with (n - k + 1) by lia. rewrite <- scaled_shift by lia.
    f_equal. change (10 ^ 1) with 10. lia.
  - split; [|split; [done|lia]]. lia.
Qed.

(** Seventeen digits are enough. *)
Lemma decimal_of_length_17 : decimal_of_length z n 17 <> None.
Proof.
  rewrite decimal_of_length_eq. cbn zeta. set (q := z * up 17 / down 17).
  pose proof (digits_range 17 ltac:(lia)) as [Hlo _]. change (10 ^ (17 - 1)) with (10 ^ 16) in Hlo.
  assert (Hd : 0 < down 17).
  { pose proof one_pos. pose proof (pow10_pos (Z.max 0 (n - 17))). unfold down. nia. }
  assert (Hu : 0 < up 17) by (apply pow10_pos; lia).
  pose proof (Z.div_mod (z * up 17) (down 17) ltac:(lia)) as Ediv. fold q in Ediv.
  pose proof (Z.mod_pos_bound (z * up 17) (down 17) Hd) as Hm.
  assert (Hnear : forall c, 2 * Z.abs (c * down 17 - z * up 17) <= down 17 -> scaled c (n - 17) = Fin z).
  { intros c Hc. rewrite scaled_ratio. fold (up 17).
    replace (c * 10 ^ Z.max 0 (n - 17) * one) with (c * down 17) by (unfold down; ring).
    assert (Hpos : 0 < c * down 17) by nia.
    assert (Em : round_magnitude (Z.abs (c * down 17)) (up 17) = z).
    { apply round_magnitude_near; [done|done|done|]. rewrite (Z.abs_eq (c * down 17)) by lia. nia. }
    unfold round_ratio. rewrite Em, (proj2 (Z.leb_gt _ _)) by (destruct Hr; lia).
    rewrite Z.sgn_pos by done. by rewrite Z.mul_1_l. }
  set (r := (z * up 17) mod down 17) in *.
  assert (Hin : exists c, c ∈ (if 2 * r <=? down 17 then [q; q + 1] else [q + 1; q]) /\
    scaled c (n - 17) = Fin z).
  { destruct (Z.leb_spec (2 * r) (down 17)).
    - exists q. split; [left|]. apply Hnear. nia.
    - exists (q + 1). split; [left|]. apply Hnear. nia. }
  destruct Hin as (c & Hin & Hs).
  destruct (filter _ _) as [|c' l] eqn:E; [|done].
  exfalso. assert (Hf : c ∈ filter (fun s => scaled s (n - 17) = Fin z)
    (if 2 * r <=? down 17 then [q; q + 1] else [q + 1; q])) by (by apply list_elem_of_filter).
  rewrite E in Hf. by apply elem_of_nil in Hf.
Qed.

(** The digits printed: [k] of them, and the place of the first. *)
Record printed (s k n' : Z) : Prop := {
  pr_length : 1 <= k <= 17;
  pr_digits : 10 ^ (k - 1) <= s < 10 ^ k;
  pr_value : scaled s (n' - k) = Fin z;
  pr_place : -330 <= n' <= 311 }.

Lemma shortest_printed :
  let '(s, k, n') := shortest 17 z n 1 in printed s k n'.
Proof.
  assert (Hg : forall fuel k, 1 <= k -> k + Z.of_nat fuel = 18 -> (0 < fuel)%nat ->
    let '(s, k, n') := shortest fuel z n k in printed s k n').
  { induction fuel as [|fuel IH]; intros k Hk Hf Hpos; [lia|]. cbn [shortest].
    destruct (decimal_of_length z n k) as [[s n']|] eqn:E.
    - destruct (decimal_of_length_sound k s n' Hk E) as (Hs & Hv & Hn').
      destruct (magnitude_spec z ltac:(destruct Hr; lia)) as [Hm _]. fold n in Hm.
      split; [lia|done|done|lia].
    - assert (fuel <> O).
      { intros ->. assert (k = 17) as -> by lia. by apply decimal_of_length_17. }
      apply IH; lia. }
  apply (Hg 17%nat 1); lia.
Qed.
End Digits.

(** ** Reading the parts of a numeral *)

(** A text that ends the number before it: empty, a separator or a line's end. *)
Definition ends_token (rest : string) : Prop :=
  match rest with
  | EmptyString => True
  | String c _ => code c = 44 \/ code c = 93 \/ code c = 125 \/ code c = 10
  end.

Lemma ends_token_not_digit rest :
  ends_token rest -> match rest with EmptyString => True | String c _ => is_digit c = false end.
Proof.
  destruct rest as [|c rest]; [done|]. unfold ends_token, is_digit, in_range.
  intros [-> | [-> | [-> | ->]]]; done.
Qed.

Lemma take_run_stop p x y :
  str_forall p x = true -> match y with EmptyString => True | String c _ => p c = false end ->
  take_run p (x +:+ y) = (x, y).
Proof.
  intros Hx Hy. destruct y as [|c y]; [|by apply take_run_app].
  rewrite str_app_nil_r. by apply take_run_all.
Qed.

Lemma read_fraction_none y :
  match y with EmptyString => True | String c _ => code c <> 46 end ->
  read_fraction y = Some ("", y).
Proof. destruct y as [|c y]; [done|]. intros H. cbn [read_fraction]. by rewrite (proj2 (Z.eqb_neq _ _)). Qed.

Lemma read_fraction_some f y :
  f <> "" -> str_forall is_digit f = true ->
  match y with EmptyString => True | String c _ => is_digit c = false end ->
  read_fraction ("." +:+ (f +:+ y)) = Some (f, y).
Proof.
  intros Hf Hd Hy. change ("." +:+ (f +:+ y)) with (String "." (f +:+ y)). cbn [read_fraction].
  change (code "." =? 46) with true. cbv iota. rewrite take_run_stop by done.
  unfold str_eqb. by rewrite bool_decide_false.
Qed.

Lemma read_exponent_none y : ends_token y -> read_exponent y = Some (0, y).
Proof.
  destruct y as [|c y]; [done|]. unfold ends_token. cbn [read_exponent].
  by intros [-> | [-> | [-> | ->]]].
Qed.

Definition exponent_text (e : Z) : string := (if 0 <=? e then "e+" else "e-") +:+ decimal (Z.abs e).

(** A whole number between two powers of ten prints as that many digits. *)
Lemma decimal_fuel_shape fuel k n s :
  1 <= k <= Z.of_nat fuel -> 10 ^ (k - 1) <= n < 10 ^ k ->
  str_length (decimal_fuel fuel n s) = k + str_length s /\
  exists c r, decimal_fuel fuel n s = String c r /\ code c <> 48.
Proof.
  revert k n s. induction fuel as [|fuel IH]; intros k n s Hk Hn; [lia|]. cbn [decimal_fuel].
  destruct (Z.ltb_spec n 10).
  - assert (k = 1) as ->.
    { destruct (Z.eq_dec k 1); [done|]. replace (k - 1) with (k - 2 + 1) in Hn by lia.
      rewrite pow10_succ in Hn by lia. pose proof (pow10_pos (k - 2)). lia. }
    change (10 ^ (1 - 1)) with 1 in Hn. split; [done|]. do 2 eexists. split; [done|].
    rewrite Z.mod_small by lia. rewrite code_chr; lia.
  - assert (1 < k).
    { destruct (Z.eq_dec k 1) as [->|]; [|lia]. change (10 ^ 1) with 10 in Hn. lia. }
    assert (E1 : 10 ^ (k - 1) = 10 * 10 ^ (k - 1 - 1)).
    { rewrite <- pow10_succ by lia. f_equal. lia. }
    assert (E2 : 10 ^ k = 10 * 10 ^ (k - 1)) by (rewrite <- pow10_succ by lia; f_equal; lia).
    destruct (IH (k - 1) (n / 10) (String (chr (48 + n mod 10)) s)) as [Hl Hh]; [lia| |].
    + split; [apply Z.div_le_lower_bound; lia|apply Z.div_lt_upper_bound; lia].
    + split; [|done]. rewrite Hl. cbn [str_length]. lia.
Qed.

Record numeral_of (d : string) (k n : Z) : Prop := {
  nm_length : str_length d = k;
  nm_digits : str_forall is_digit d = true;
  nm_value : digits_value 0 d = n;
  nm_head : exists c r, d = String c r /\ code c <> 48 }.

Lemma decimal_numeral k n : 1 <= k <= 40 -> 10 ^ (k - 1) <= n < 10 ^ k -> numeral_of (decimal n) k n.
Proof.
  intros Hk Hn. pose proof (pow10_pos (k - 1) ltac:(lia)).
  assert (n < 10 ^ 40) by (apply Z.lt_le_trans with (10 ^ k); [lia|apply Z.pow_le_mono_r; lia]).
  unfold decimal. rewrite (proj2 (Z.ltb_ge _ _)) by lia.
  destruct (decimal_fuel_shape 40 k n "" ltac:(lia) Hn) as [Hl Hh].
  split; [rewrite Hl; simpl; lia|by apply decimal_fuel_digits; [lia|]| |done].
  rewrite decimal_fuel_value by (simpl; lia). done.
Qed.

Lemma read_exponent_some e y :
  Z.abs e < 10 ^ 40 -> match y with EmptyString => True | String c _ => is_digit c = false end ->
  read_exponent (exponent_text e +:+ y) = Some (e, y).
Proof.
  intros He Hy. destruct (decimal_plain (Z.abs e) ltac:(lia)) as (Hne & Hd & Hv).
  unfold exponent_text. destruct (Z.leb_spec 0 e).
  - rewrite <- str_app_assoc. change ("e+" +:+ (decimal (Z.abs e) +:+ y))
      with (String "e" (String "+" (decimal (Z.abs e) +:+ y))).
    cbn [read_exponent]. change ((code "e" =? 101) || (code "e" =? 69)) with true.
    change (code "+" =? 45) with false. change (code "+" =? 43) with true. cbv iota.
    rewrite take_run_stop by done. unfold str_eqb. rewrite bool_decide_false by done.
    cbn [negb]. rewrite Hv. do 2 f_equal. lia.
  - rewrite <- str_app_assoc. change ("e-" +:+ (decimal (Z.abs e) +:+ y))
      with (String "e" (String "-" (decimal (Z.abs e) +:+ y))).
    cbn [read_exponent]. change ((code "e" =? 101) || (code "e" =? 69)) with true.
    change (code "-" =? 45) with true. cbv iota.
    rewrite take_run_stop by done. unfold str_eqb. rewrite bool_decide_false by done.
    cbn [negb]. rewrite Hv. do 2 f_equal. lia.
Qed.

(** ** Cutting and padding digits *)

Lemma length_str_length x : Z.of_nat (String.length x) = str_length x.
Proof. induction x as [|c x IH]; [done|]. cbn [String.length str_length]. lia. Qed.

Lemma substring_all x : String.substring 0 (String.length x) x = x.
Proof. induction x as [|c x IH]; [done|]. exact (f_equal (String c) IH). Qed.

Lemma str_take_drop n x :
  0 <= n <= str_length x ->
  str_take n x +:+ str_drop n x = x /\ str_length (str_take n x) = n.
Proof.
  unfold str_take, str_drop. intros Hn.
  pose proof (length_str_length x) as Hl.
  assert (Hg : forall m, (m <= String.length x)%nat ->
    String.substring 0 m x +:+ String.substring m (String.length x - m) x = x /\
    str_length (String.substring 0 m x) = Z.of_nat m).
  { clear. induction x as [|c x IH]; intros m Hm; simpl in Hm; [by assert (m = O) as -> by lia|].
    destruct m as [|m].
    - split; [exact (substring_all (String c x))|done].
    - destruct (IH m ltac:(lia)) as [E El].
      split; [exact (f_equal (String c) E)|].
      change (1 + str_length (String.substring 0 m x) = Z.of_nat (S m)). lia. }
  destruct (Hg (Z.to_nat n) ltac:(lia)) as [E El]. split; [exact E|]. rewrite El. lia.
Qed.

Lemma zeros_spec n :
  0 <= n -> str_length (zeros n) = n /\ str_forall is_digit (zeros n) = true /\
  forall m, digits_value m (zeros n) = m * 10 ^ n.
Proof.
  intros Hn. unfold zeros.
  assert (Hg : forall i, str_length (join "" (repeat "0" i)) = Z.of_nat i /\
    str_forall is_digit (join "" (repeat "0" i)) = true /\
    forall m, digits_value m (join "" (repeat "0" i)) = m * 10 ^ Z.of_nat i).
  { clear. induction i as [|i (Hl & Hd & Hv)]; [split_and!; [done|done|intros m; simpl; lia]|].
    cbn [repeat]. rewrite join_cons_nil.
    change ("0" +:+ join "" (repeat "0" i)) with (String "0" (join "" (repeat "0" i))).
    split_and!; [cbn [str_length]; lia|exact Hd|]. intros m. cbn [digits_value]. rewrite Hv.
    rewrite Nat2Z.inj_succ, Z.pow_succ_r by lia. change (code "0" - 48) with 0. lia. }
  specialize (Hg (Z.to_nat n)). by rewrite Z2Nat.id in Hg.
Qed.

Lemma length_nonempty x : 0 < str_length x -> x <> "".
Proof. by destruct x. Qed.

(** ** A printed number reads back *)

Definition no_digit_first (y : string) : Prop :=
  match y with EmptyString => True | String c _ => is_digit c = false end.

(** A numeral in three parts, with or without a sign. *)
Lemma read_number_parts w f tail e rest :
  str_forall is_digit w = true -> whole_digits w = true -> no_digit_first tail ->
  (exists mid, read_fraction tail = Some (f, mid) /\ read_exponent mid = Some (e, rest)) ->
  read_number (w +:+ tail) = Some (numeral false w f e, rest) /\
  read_number ("-" +:+ (w +:+ tail)) = Some (numeral true w f e, rest).
Proof.
  intros Hw Hwhole Ht (mid & Hf & He).
  assert (Hrun : take_run is_digit (w +:+ tail) = (w, tail)) by (by apply take_run_stop).
  split; unfold read_number.
  - destruct w as [|c w]; [done|].
    change (String c w +:+ tail) with (String c (w +:+ tail)) in *. cbn [str_forall] in Hw.
    apply andb_true_iff in Hw as [Hc _]. unfold is_digit, in_range in Hc.
    apply andb_true_iff in Hc as [Hc _]. apply Z.leb_le in Hc.
    rewrite (proj2 (Z.eqb_neq (code c) 45)) by lia. cbv iota. rewrite Hrun, Hwhole, Hf. cbn [snd fst].
    by rewrite He.
  - change ("-" +:+ (w +:+ tail)) with (String "-" (w +:+ tail)).
    cbv iota beta. change (code "-" =? 45) with true. cbv iota. rewrite Hrun, Hwhole, Hf. cbn [snd fst].
    by rewrite He.
Qed.

Lemma whole_digits_head c r : code c <> 48 -> whole_digits (String c r) = true.
Proof. intros H. unfold whole_digits. by rewrite (proj2 (Z.eqb_neq _ _)). Qed.

Lemma str_forall_head p c r : str_forall p (String c r) = true -> p c = true.
Proof. by intros [? _]%andb_true_iff. Qed.

Lemma exponent_text_head e y : exists r, exponent_text e +:+ y = String "e" r.
Proof. unfold exponent_text. destruct (0 <=? e); rewrite <- str_app_assoc; by eexists. Qed.

(** The parts [positive_text] prints, and what they denote. *)
Lemma positive_text_parts z s k n rest :
  shortest 17 z (magnitude z) 1 = (s, k, n) -> printed z s k n -> ends_token rest ->
  exists w f tail e, positive_text z +:+ rest = w +:+ tail /\
    str_forall is_digit w = true /\ whole_digits w = true /\ no_digit_first tail /\
    (exists mid, read_fraction tail = Some (f, mid) /\ read_exponent mid = Some (e, rest)) /\
    numeral false w f e = Fin z.
Proof.
  intros E [Hk Hs Hv Hn] Hrest. unfold positive_text. rewrite E.
  destruct (decimal_numeral k s ltac:(lia) Hs) as [Hl Hd Hval (c & r & Er & Hc)].
  pose proof (ends_token_not_digit rest Hrest) as Hnd.
  pose proof (read_exponent_none rest Hrest) as Hexp.
  assert (Hdot : match rest with EmptyString => True | String c _ => code c <> 46 end).
  { destruct rest; [done|]. unfold ends_token in Hrest. lia. }
  set (d := decimal s) in *.
  assert (Hwhole : forall x, whole_digits (d +:+ x) = true).
  { intros x. rewrite Er. change (String c r +:+ x) with (String c (r +:+ x)).
    by apply whole_digits_head. }
  destruct ((k <=? n) && (n <=? 21)) eqn:EA; [|destruct ((0 <? n) && (n <=? 21)) eqn:EB;
    [|destruct ((-6 <? n) && (n <=? 0)) eqn:EC]]; bools.
  - (** a whole number *)
    destruct (zeros_spec (n - k) ltac:(lia)) as (Hzl & Hzd & Hzv).
    exists (d +:+ zeros (n - k)), "", rest, 0. split_and!; [done| |apply Hwhole|done| |].
    + by rewrite str_forall_app, Hd, Hzd.
    + exists rest. split; [by apply read_fraction_none|done].
    + unfold numeral. rewrite str_app_nil_r, digits_value_app, Hval, Hzv.
      rewrite scaled_shift by lia. exact Hv.
  - (** the point inside the digits *)
    assert (n < k) by (destruct (Z.leb_spec k n); [|done]; simpl in EA; bools; lia).
    destruct (str_take_drop n d ltac:(lia)) as [Ed Elen].
    set (w := str_take n d) in *. set (f := str_drop n d) in *.
    assert (Hf : str_length f = k - n).
    { pose proof (str_length_app w f) as Hsum. rewrite Ed in Hsum. lia. }
    assert (Hwf : str_forall is_digit w = true /\ str_forall is_digit f = true).
    { rewrite <- Ed, str_forall_app in Hd. by apply andb_true_iff in Hd. }
    exists w, f, ("." +:+ (f +:+ rest)), 0. split_and!; [by rewrite <- !str_app_assoc|apply Hwf| |done| |].
    + rewrite Er in Ed. destruct w as [|c' w']; [simpl in Elen; lia|].
      injection Ed as -> _. by apply whole_digits_head.
    + exists rest. split; [|done]. by apply read_fraction_some; [apply length_nonempty; lia|apply Hwf|].
    + unfold numeral. rewrite Ed, Hval, Hf, <- Hv. f_equal. lia.
  - (** zeros after the point *)
    destruct (zeros_spec (- n) ltac:(lia)) as (Hzl & Hzd & Hzv).
    exists "0", (zeros (- n) +:+ d), ("." +:+ ((zeros (- n) +:+ d) +:+ rest)), 0.
    split_and!; [|done|done|done| |].
    + by rewrite <- !str_app_assoc.
    + exists rest. split; [|done]. apply read_fraction_some; [| |done].
      * apply length_nonempty. rewrite str_length_app. lia.
      * by rewrite str_forall_app, Hzd, Hd.
    + unfold numeral. rewrite !digits_value_app, Hzv, str_length_app, Hzl, Hl.
      change (digits_value 0 "0") with 0. rewrite Z.mul_0_l, Hval, <- Hv. f_equal. lia.
  - (** with an exponent *)
    change ((if 0 <=? n - 1 then "e+" else "e-") +:+ decimal (Z.abs (n - 1))) with (exponent_text (n - 1)).
    assert (Hx : read_exponent (exponent_text (n - 1) +:+ rest) = Some (n - 1, rest)).
    { apply read_exponent_some; [|done]. apply Z.le_lt_trans with 400; [lia|done]. }
    destruct (exponent_text_head (n - 1) rest) as [x Ex].
    destruct (Z.eqb_spec k 1) as [->|Hk1].
    + exists d, "", (exponent_text (n - 1) +:+ rest), (n - 1).
      split_and!; [by rewrite <- !str_app_assoc|done| |by rewrite Ex| |].
      * rewrite Er. by apply whole_digits_head.
      * exists (exponent_text (n - 1) +:+ rest). split; [|done].
        apply read_fraction_none. by rewrite Ex.
      * unfold numeral. rewrite str_app_nil_r, Hval, <- Hv. f_equal. simpl. lia.
    + destruct (str_take_drop 1 d ltac:(lia)) as [Ed Elen].
      set (w := str_take 1 d) in *. set (f := str_drop 1 d) in *.
      assert (Hf : str_length f = k - 1).
      { pose proof (str_length_app w f) as Hsum. rewrite Ed in Hsum. lia. }
      assert (Hwf : str_forall is_digit w = true /\ str_forall is_digit f = true).
      { rewrite <- Ed, str_forall_app in Hd. by apply andb_true_iff in Hd. }
      exists w, f, ("." +:+ (f +:+ (exponent_text (n - 1) +:+ rest))), (n - 1).
      split_and!; [by rewrite <- !str_app_assoc|apply Hwf| |done| |].
      * rewrite Er in Ed. destruct w as [|c' w']; [simpl in Elen; lia|].
        injection Ed as -> _. by apply whole_digits_head.
      * exists (exponent_text (n - 1) +:+ rest). split; [|done].
        apply read_fraction_some; [apply length_nonempty; lia|apply Hwf|by rewrite Ex].
      * unfold numeral. rewrite Ed, Hval, Hf, <- Hv. f_equal. lia.
Qed.

Definition readable (x : num) : Prop :=
  match x with Fin z => representable z | _ => True end.

(** Every rounded result is a double. *)
Lemma round_ratio_readable n d : 0 < d -> readable (round_ratio n d).
Proof.
  intros Hd. unfold round_ratio. destruct (Z.leb_spec overflow_bound (round_magnitude (Z.abs n) d)); [done|].
  cbn [readable]. set (k := Z.max 0 (Z.log2 (Z.abs n / d) - 52)).
  pose proof (round_magnitude_upper (Z.abs n) d k ltac:(lia) Hd ltac:(lia) eq_refl) as Hup.
  pose proof (round_magnitude_nonneg (Z.abs n) d ltac:(lia) Hd) as Hnn.
  set (m := round_magnitude (Z.abs n) d) in *.
  assert (Em : m = half_even (Z.abs n) (d * 2 ^ k) * 2 ^ k) by done.
  set (h := half_even (Z.abs n) (d * 2 ^ k)) in *.
  pose proof (Z.pow_pos_nonneg 2 k ltac:(lia) ltac:(lia)) as Hp.
  assert (Hh : 0 <= h <= 2 ^ 53).
  { rewrite Em in Hup, Hnn. rewrite Z.pow_add_r in Hup by lia. nia. }
  assert (Ha : Z.abs (Z.sgn n * m) = m \/ Z.abs (Z.sgn n * m) = 0).
  { destruct (Z.sgn_spec n) as [[? ->]|[[? ->]|[? ->]]]; lia. }
  destruct Ha as [Ha|Ha]; split; rewrite Ha; try lia.
  - destruct (Z.eq_dec h (2 ^ 53)) as [E|Hne].
    + exists (2 ^ 52), (k + 1). split_and!; try lia. rewrite Em, E, Z.pow_add_r by lia. lia.
    + exists h, k. split_and!; lia.
  - exists 0, 0. split_and!; lia.
Qed.

Lemma lit_readable p q : 0 < q -> readable (lit p q).
Proof. apply round_ratio_readable. Qed.

(** Every finite double reads back as itself. *)
Lemma read_number_text z rest :
  representable z -> ends_token rest ->
  read_number (number_text (Fin z) +:+ rest) = Some (Fin z, rest).
Proof.
  intros Hr Hrest. unfold number_text.
  assert (Hneg : representable (- z)) by (unfold representable; by rewrite Z.abs_opp).
  destruct (Z.eqb_spec z 0) as [->|Hz0].
  { destruct (read_number_parts "0" "" rest 0 rest) as [E _]; try done.
    - by apply ends_token_not_digit.
    - exists rest. split; [|by apply read_exponent_none]. apply read_fraction_none.
      destruct rest; [done|]. unfold ends_token in Hrest. lia. }
  destruct (Z.ltb_spec z 0) as [Hz|Hz].
  - destruct (shortest 17 (- z) (magnitude (- z)) 1) as [[s k] n] eqn:E.
    pose proof (shortest_printed (- z) Hneg ltac:(lia)) as Hp. rewrite E in Hp.
    destruct (positive_text_parts _ _ _ _ rest E Hp Hrest) as (w & f & tail & e & Et & Hw & Hwh & Ht & Hm & Hv).
    rewrite <- str_app_assoc, Et. destruct (read_number_parts w f tail e rest Hw Hwh Ht Hm) as [_ ->].
    unfold numeral in *. rewrite Hv. cbn [nneg]. do 2 f_equal. f_equal. lia.
  - destruct (shortest 17 z (magnitude z) 1) as [[s k] n] eqn:E.
    pose proof (shortest_printed z Hr ltac:(lia)) as Hp. rewrite E in Hp.
    destruct (positive_text_parts _ _ _ _ rest E Hp Hrest) as (w & f & tail & e & Et & Hw & Hwh & Ht & Hm & Hv).
    rewrite Et. destruct (read_number_parts w f tail e rest Hw Hwh Ht Hm) as [-> _]. by rewrite Hv.
Qed.

(** ** A printed text reads back *)

Lemma string_body_unit c t :
  string_body (quote_char c +:+ t) = let? read := string_body t in Some (String c read.1, read.2).
Proof. by destruct c as [[] [] [] [] [] [] [] []]. Qed.

Lemma string_body_quoted s rest :
  string_body (str_concat_map quote_char s +:+ (double_quote +:+ rest)) = Some (s, rest).
Proof.
  induction s as [|c s IH]; [done|]. cbn [str_concat_map].
  rewrite <- str_app_assoc, string_body_unit, IH. done.
Qed.

Lemma after_quote s rest :
  after_unit 34 (quoted s +:+ rest) = Some (str_concat_map quote_char s +:+ (double_quote +:+ rest)).
Proof. unfold quoted. by rewrite <- !str_app_assoc. Qed.

(** ** Values *)

Definition jsval_nested (P : jsval -> Prop)
    (Hundef : P JUndef) (Hnull : P JNull) (Hbool : forall b, P (JBool b))
    (Hnum : forall x, P (JNum x)) (Hstr : forall s, P (JStr s))
    (Harr : forall l, Forall P l -> P (JArr l))
    (Hobj : forall fs, Forall (fun kv => P kv.2) fs -> P (JObj fs)) : forall v, P v :=
  fix go v :=
    match v with
    | JUndef => Hundef | JNull => Hnull | JBool b => Hbool b | JNum x => Hnum x | JStr s => Hstr s
    | JArr l =>
        Harr l ((fix all l : Forall P l :=
          match l with
          | [] => List.Forall_nil _
          | x :: l => List.Forall_cons _ _ _ (go x) (all l)
          end) l)
    | JObj fs =>
        Hobj fs ((fix all fs : Forall (fun kv => P kv.2) fs :=
          match fs with
          | [] => List.Forall_nil _
          | kv :: fs => List.Forall_cons _ _ _ (go kv.2) (all fs)
          end) fs)
    end.

(** What a text keeps of a value: [undefined] is [null] in an array and left
    out of an object, a number that is not finite is [null]. *)
Fixpoint plain (v : jsval) : jsval :=
  match v with
  | JUndef => JNull
  | JNum x => if is_finite x then JNum x else JNull
  | JArr l => JArr (map plain l)
  | JObj fs => JObj (omap (fun kv => if is_undef kv.2 then None else Some (kv.1, plain kv.2)) fs)
  | _ => v
  end.

(** Every number is a double. *)
Fixpoint readable_numbers (v : jsval) : Prop :=
  match v with
  | JNum x => readable x
  | JArr l => foldr (fun x P => readable_numbers x /\ P) True l
  | JObj fs => foldr (fun kv P => readable_numbers kv.2 /\ P) True fs
  | _ => True
  end.

Definition text_of (v : jsval) : string := default "null" (stringify v).

Lemma stringify_text v : stringify v = if is_undef v then None else Some (text_of v).
Proof. by destruct v. Qed.

(** A text starts a value: neither white space nor a closing bracket. *)
Definition starts_value (t : string) : Prop :=
  exists c r, t = String c r /\ is_json_space c = false /\ code c <> 93 /\ code c <> 125.

Lemma skip_space_value t rest : starts_value t -> skip_space (t +:+ rest) = t +:+ rest.
Proof.
  intros (c & r & -> & Hc & _). change (String c r +:+ rest) with (String c (r +:+ rest)).
  cbn [skip_space]. by rewrite Hc.
Qed.

Lemma after_unit_value t rest n :
  starts_value t -> n = 93 \/ n = 125 -> after_unit n (t +:+ rest) = None.
Proof.
  intros (c & r & -> & _ & H1 & H2) Hn. change (String c r +:+ rest) with (String c (r +:+ rest)).
  cbn [after_unit]. rewrite (proj2 (Z.eqb_neq _ _)); [done|]. destruct Hn; lia.
Qed.

(** A numeral starts with a digit or its sign. *)
Lemma number_text_first z :
  representable z -> exists c r, number_text (Fin z) = String c r /\ (code c = 45 \/ 48 <= code c <= 57).
Proof.
  intros Hr. unfold number_text. destruct (Z.eqb_spec z 0) as [->|Hz].
  { exists "0"%char, "". split; [done|]. right. done. }
  destruct (Z.ltb_spec z 0).
  { exists "-"%char. eexists. split; [done|]. by left. }
  destruct (shortest 17 z (magnitude z) 1) as [[s k] n] eqn:E.
  pose proof (shortest_printed z Hr ltac:(lia)) as Hp. rewrite E in Hp.
  destruct (positive_text_parts _ _ _ _ "" E Hp I) as (w & f & tail & e & Et & Hw & Hwh & _).
  rewrite str_app_nil_r in Et. destruct w as [|c w]; [done|].
  exists c, (w +:+ tail). split; [exact Et|]. right.
  apply str_forall_head in Hw. unfold is_digit, in_range in Hw. bools. lia.
Qed.

Lemma text_starts v : readable_numbers v -> starts_value (text_of v).
Proof.
  intros Hr. unfold starts_value. destruct v as [| | |x| | |]; try (do 2 eexists; split; [done|done]).
  - destruct b; do 2 eexists; (split; [reflexivity|done]).
  - unfold text_of. cbn [stringify default]. destruct x as [| |z]; cbn [is_finite];
      try (do 2 eexists; split; [done|done]).
    destruct (number_text_first z Hr) as (c & r & -> & Hc). exists c, r. split; [done|].
    unfold is_json_space. rewrite !(proj2 (Z.eqb_neq _ _)) by lia. split; [done|lia].
Qed.

(** The text of a value reads back, whatever separator follows it. *)
Definition reads (v : jsval) : Prop :=
  forall rest fuel, ends_token rest -> 2 * str_length (text_of v) <= Z.of_nat fuel ->
    read_value fuel (text_of v +:+ rest) = Some (plain v, rest).

Lemma read_elements_texts l rest fuel :
  l <> [] -> Forall (fun x => reads x /\ starts_value (text_of x)) l ->
  2 * str_length (join "," (map text_of l)) + 1 <= Z.of_nat fuel ->
  read_elements fuel (join "," (map text_of l) +:+ ("]" +:+ rest)) = Some (map plain l, rest).
Proof.
  intros Hne Hl. revert fuel. induction Hl as [|x l [Hx Hsx] Hl IH]; [done|]. intros fuel Hf.
  destruct fuel as [|fuel]; [change (Z.of_nat 0) with 0 in Hf; pose proof (str_length_nonneg (join "," (map text_of (x :: l)))); lia|].
  cbn [read_elements]. destruct l as [|y l].
  - cbn [map join] in *. rewrite skip_space_value by done.
    rewrite Hx; [done|by right; left|lia].
  - change (join "," (map text_of (x :: y :: l)))
      with (text_of x +:+ ("," +:+ join "," (map text_of (y :: l)))) in *.
    rewrite !str_length_app in Hf. change (str_length ",") with 1 in Hf.
    pose proof (str_length_nonneg (join "," (map text_of (y :: l)))).
    pose proof (str_length_nonneg (text_of x)).
    rewrite <- !str_app_assoc, skip_space_value by done.
    rewrite Hx; [|by left|lia]. cbn [fst snd].
    change (skip_space ("," +:+ (join "," (map text_of (y :: l)) +:+ ("]" +:+ rest))))
      with ("," +:+ (join "," (map text_of (y :: l)) +:+ ("]" +:+ rest))).
    change (after_unit 44 ("," +:+ (join "," (map text_of (y :: l)) +:+ ("]" +:+ rest))))
      with (Some (join "," (map text_of (y :: l)) +:+ ("]" +:+ rest))).
    cbv iota beta. rewrite IH; [done|done|lia].
Qed.

Definition member_text (kv : string * jsval) : string := quoted kv.1 +:+ (":" +:+ text_of kv.2).

Definition plain_member (kv : string * jsval) : string * jsval := (kv.1, plain kv.2).

Lemma assoc_set_new {V} (k : string) (v : V) m : k ∉ m.*1 -> assoc_set k v m = m ++ [(k, v)].
Proof.
  induction m as [|[k' v'] m IH]; [done|]. cbn [fmap list_fmap fst]. intros Hk.
  apply not_elem_of_cons in Hk as [Hne Hk]. cbn [assoc_set].
  rewrite decide_False by done. by rewrite IH.
Qed.

Lemma read_members_texts l acc rest fuel :
  l <> [] -> Forall (fun kv => reads kv.2 /\ starts_value (text_of kv.2)) l ->
  NoDup (acc.*1 ++ l.*1) ->
  2 * str_length (join "," (map member_text l)) + 1 <= Z.of_nat fuel ->
  read_members fuel acc (join "," (map member_text l) +:+ ("}" +:+ rest)) =
  Some (acc ++ map plain_member l, rest).
Proof.
  intros Hne Hl. revert acc fuel. induction Hl as [|[k v] l [Hx Hsx] Hl IH]; [done|].
  intros acc fuel Hn Hf. cbn [snd] in Hx, Hsx.
  destruct fuel as [|fuel].
  { change (Z.of_nat 0) with 0 in Hf. pose proof (str_length_nonneg (join "," (map member_text ((k, v) :: l)))). lia. }
  assert (Hk : k ∉ acc.*1).
  { cbn [fmap list_fmap fst] in Hn. apply NoDup_app in Hn as (_ & Hn & _).
    intros Hin. apply (Hn k Hin). left. }
  (** one member, up to what follows its value *)
  assert (Hone : forall more, ends_token more -> 2 * str_length (text_of v) <= Z.of_nat fuel ->
    read_members (S fuel) acc (member_text (k, v) +:+ more) =
    let fields := acc ++ [plain_member (k, v)] in
    match after_unit 44 (skip_space more), after_unit 125 (skip_space more) with
    | Some s, _ => read_members fuel fields s
    | _, Some s => Some (fields, s)
    | None, None => None
    end).
  { intros more Hmore Hlen. cbn [read_members]. unfold member_text. cbn [fst snd].
    rewrite <- !str_app_assoc.
    change (skip_space (quoted k +:+ (":" +:+ (text_of v +:+ more))))
      with (quoted k +:+ (":" +:+ (text_of v +:+ more))).
    rewrite after_quote, string_body_quoted. cbn [fst snd].
    change (after_unit 58 (skip_space (":" +:+ (text_of v +:+ more)))) with (Some (text_of v +:+ more)).
    cbv iota beta. rewrite skip_space_value by done. rewrite Hx by done. cbn [fst snd].
    by rewrite assoc_set_new. }
  assert (Hm : str_length (text_of v) + 1 <= str_length (member_text (k, v))).
  { unfold member_text. cbn [fst snd]. rewrite !str_length_app. change (str_length ":") with 1.
    pose proof (str_length_nonneg (quoted k)). lia. }
  destruct l as [|kv l].
  - cbn [map join] in *. rewrite Hone; [reflexivity|by right; right; left|lia].
  - change (join "," (map member_text ((k, v) :: kv :: l)))
      with (member_text (k, v) +:+ ("," +:+ join "," (map member_text (kv :: l)))) in *.
    rewrite !str_length_app in Hf. change (str_length ",") with 1 in Hf.
    pose proof (str_length_nonneg (join "," (map member_text (kv :: l)))).
    pose proof (str_length_nonneg (text_of v)).
    rewrite <- !str_app_assoc. rewrite Hone.
    + change (after_unit 44 (skip_space ("," +:+ (join "," (map member_text (kv :: l)) +:+ ("}" +:+ rest)))))
        with (Some (join "," (map member_text (kv :: l)) +:+ ("}" +:+ rest))).
      cbv iota beta zeta. rewrite IH; [by rewrite <- app_assoc|done| |].
      * rewrite fmap_app, <- app_assoc. exact Hn.
      * lia.
    + by left.
    + lia.
Qed.

Definition kept (fs : list (string * jsval)) : list (string * jsval) :=
  filter (fun kv => is_undef kv.2 = false) fs.

Lemma kept_texts fs :
  omap (fun kv => (fun t => quoted kv.1 +:+ ":" +:+ t) <$> stringify kv.2) fs =
  map member_text (kept fs).
Proof.
  unfold kept. induction fs as [|[k v] fs IH]; [done|]. rewrite filter_cons.
  cbn [omap list_omap snd fst]. rewrite stringify_text.
  destruct (is_undef v); cbn [fmap option_fmap option_map]; [by rewrite decide_False|].
  rewrite decide_True by done. cbn [map]. by f_equal.
Qed.

Lemma plain_kept fs : plain (JObj fs) = JObj (map plain_member (kept fs)).
Proof.
  cbn [plain]. f_equal. unfold kept. induction fs as [|[k v] fs IH]; [done|]. rewrite filter_cons.
  cbn [omap list_omap snd fst].
  destruct (is_undef v); [by rewrite decide_False|]. rewrite decide_True by done. cbn [map]. by f_equal.
Qed.

Lemma foldr_conj {A} (P : A -> Prop) l : foldr (fun x Q => P x /\ Q) True l <-> Forall P l.
Proof. induction l; simpl; [by split|]. by rewrite Forall_cons, IHl. Qed.

Lemma read_value_text v : readable_numbers v -> unique_keys v -> reads v.
Proof.
  unfold reads. revert v.
  apply (jsval_nested (fun v => readable_numbers v -> unique_keys v -> forall rest fuel,
    ends_token rest -> 2 * str_length (text_of v) <= Z.of_nat fuel ->
    read_value fuel (text_of v +:+ rest) = Some (plain v, rest))).
  - by intros _ _ rest [|fuel] _ Hf.
  - by intros _ _ rest [|fuel] _ Hf.
  - by intros [] _ _ rest [|fuel] _ Hf.
  - (** numbers *)
    intros x Hr _ rest fuel Hrest Hf. destruct x as [| |z]; try (by destruct fuel).
    change (text_of (JNum (Fin z))) with (number_text (Fin z)) in *.
    pose proof (read_number_text z rest Hr Hrest) as Hread.
    destruct (number_text_first z Hr) as (c & r & E & Hc).
    destruct fuel as [|fuel].
    { rewrite E in Hf. cbn [str_length] in Hf. pose proof (str_length_nonneg r). lia. }
    rewrite E in *. change (String c r +:+ rest) with (String c (r +:+ rest)) in *.
    cbn [read_value after_unit]. rewrite !(proj2 (Z.eqb_neq _ _)) by lia. cbn [after_prefix].
    assert (Hne : forall d, (code d = 45 \/ 48 <= code d <= 57) -> forall a, code a > 57 -> Ascii.eqb a d = false).
    { intros d Hd a Ha. apply Ascii.eqb_neq. intros ->. lia. }
    rewrite !(Hne c) by done. rewrite Hread. done.
  - (** texts *)
    intros s _ _ rest [|fuel] Hrest Hf.
    { change (text_of (JStr s)) with (String (chr 34) (str_concat_map quote_char s +:+ double_quote)) in Hf.
      pose proof (str_length_nonneg (str_concat_map quote_char s +:+ double_quote)).
      cbn [str_length] in Hf. lia. }
    cbn [read_value]. change (text_of (JStr s)) with (quoted s). rewrite after_quote.
    by rewrite string_body_quoted.
  - (** arrays *)
    intros l IH Hr Hu rest fuel Hrest Hf. cbn [readable_numbers unique_keys] in Hr, Hu.
    apply foldr_conj in Hr. apply foldr_conj in Hu.
    change (text_of (JArr l)) with ("[" +:+ (join "," (map text_of l) +:+ "]")) in *.
    rewrite !str_length_app in Hf. change (str_length "[") with 1 in Hf. change (str_length "]") with 1 in Hf.
    pose proof (str_length_nonneg (join "," (map text_of l))).
    destruct fuel as [|fuel]; [lia|]. rewrite <- !str_app_assoc.
    destruct l as [|x l]; [done|].
    assert (Hall : Forall (fun x => reads x /\ starts_value (text_of x)) (x :: l)).
    { rewrite !Forall_forall in *. intros y Hy. split; [|by apply text_starts, Hr].
      intros rest' fuel'. by apply IH; [|apply Hr|apply Hu]. }
    set (body := join "," (map text_of (x :: l))) in *.
    assert (Hfirst : exists more, body = text_of x +:+ more).
    { unfold body. destruct l; [exists ""; by rewrite str_app_nil_r|by eexists]. }
    assert (Hx : starts_value (text_of x)) by (by apply Forall_cons in Hall as [[_ ?] _]).
    change ("[" +:+ (body +:+ ("]" +:+ rest))) with (String "[" (body +:+ ("]" +:+ rest))).
    cbn [read_value after_unit]. change (code "[" =? 34) with false. change (code "[" =? 91) with true.
    cbv iota.
    assert (Hno : after_unit 93 (skip_space (body +:+ ("]" +:+ rest))) = None).
    { destruct Hfirst as [more ->]. rewrite <- str_app_assoc, skip_space_value by done.
      apply after_unit_value; [done|by left]. }
    rewrite Hno. unfold body in *. rewrite read_elements_texts; [done|done|done|lia].
  - (** objects *)
    intros fs IH Hr Hu rest fuel Hrest Hf. cbn [readable_numbers unique_keys] in Hr, Hu.
    destruct Hu as [Hn Hu]. apply foldr_conj in Hr. apply foldr_conj in Hu.
    assert (Et : text_of (JObj fs) = "{" +:+ (join "," (map member_text (kept fs)) +:+ "}")).
    { unfold text_of. cbn [stringify default]. by rewrite kept_texts. }
    rewrite Et, plain_kept in *. set (ks := kept fs) in *.
    rewrite !str_length_app in Hf. change (str_length "{") with 1 in Hf. change (str_length "}") with 1 in Hf.
    pose proof (str_length_nonneg (join "," (map member_text ks))).
    destruct fuel as [|fuel]; [lia|]. rewrite <- !str_app_assoc.
    destruct ks as [|kv ks'] eqn:Eks; [done|]. rewrite <- Eks in *.
    assert (Hsub : ks `sublist_of` fs) by apply sublist_filter.
    assert (Hall : Forall (fun kv => reads kv.2 /\ starts_value (text_of kv.2)) ks).
    { rewrite Forall_forall in *. intros y Hy.
      assert (Hin : y ∈ fs) by (unfold ks, kept in Hy; by apply list_elem_of_filter in Hy as [_ ?]).
      split; [|by apply text_starts, Hr]. intros rest' fuel'. by apply IH; [|apply Hr|apply Hu]. }
    assert (Hnk : NoDup ks.*1).
    { eapply sublist_NoDup; [exact Hn|]. by apply fmap_sublist. }
    set (body := join "," (map member_text ks)) in *.
    assert (Hfirst : exists more, body = quoted kv.1 +:+ more).
    { unfold body. rewrite Eks. unfold member_text at 1. destruct ks'; [by eexists|].
      cbn [map join]. rewrite <- str_app_assoc. by eexists. }
    change ("{" +:+ (body +:+ ("}" +:+ rest))) with (String "{" (body +:+ ("}" +:+ rest))).
    cbn [read_value after_unit]. change (code "{" =? 34) with false. change (code "{" =? 91) with false.
    change (code "{" =? 123) with true. cbv iota.
    assert (Hno : after_unit 125 (skip_space (body +:+ ("}" +:+ rest))) = None).
    { destruct Hfirst as [more ->]. unfold quoted. by rewrite <- !str_app_assoc. }
    rewrite Hno. unfold body in *. rewrite read_members_texts; [done|by rewrite Eks|done|done|lia].
Qed.

(** ** How long a text can be *)

Lemma join_short l : str_length (join "," l) <= foldr (fun s n => str_length s + 1 + n) 0 l.
Proof.
  induction l as [|x [|y l] IH]; [done|cbn; lia|].
  change (join "," (x :: y :: l)) with (x +:+ "," +:+ join "," (y :: l)). rewrite !str_length_app.
  change (str_length ",") with 1. cbn [foldr] in *. lia.
Qed.

Lemma decimal_exponent_short m : 0 <= m < 340 -> str_length (decimal m) <= 3.
Proof.
  intros Hm. assert (Hall : forallb (fun m => str_length (decimal (Z.of_nat m)) <=? 3) (seq 0 340) = true) by by vm_compute.
  rewrite forallb_forall in Hall. specialize (Hall (Z.to_nat m) ltac:(apply in_seq; lia)).
  rewrite Z2Nat.id in Hall by lia. lia.
Qed.

(** The text of a double is never long. *)
Lemma positive_text_short z : representable z -> 0 < z -> str_length (positive_text z) <= 25.
Proof.
  intros Hr Hz. pose proof (shortest_printed z Hr Hz) as Hp. unfold positive_text.
  destruct (shortest 17 z (magnitude z) 1) as [[s k] n] eqn:E. destruct Hp as [Hk Hs _ Hn].
  destruct (decimal_numeral k s ltac:(lia) Hs) as [Hl _ _ _]. cbv zeta. set (digits := decimal s) in *.
  destruct ((k <=? n) && (n <=? 21)) eqn:EA; [|destruct ((0 <? n) && (n <=? 21)) eqn:EB;
    [|destruct ((-6 <? n) && (n <=? 0)) eqn:EC]]; bools.
  - rewrite str_length_app, (proj1 (zeros_spec (n - k) ltac:(lia))). lia.
  - assert (Hlt : n < k) by (destruct (Z.leb_spec k n); destruct (Z.leb_spec n 21); [discriminate|lia|lia|lia]).
    destruct (str_take_drop n digits ltac:(lia)) as [Ed _]. rewrite <- Ed, str_length_app in Hl.
    rewrite !str_length_app. change (str_length ".") with 1. lia.
  - rewrite !str_length_app, (proj1 (zeros_spec (- n) ltac:(lia))). change (str_length "0.") with 2. lia.
  - rewrite !str_length_app.
    assert (He : str_length (decimal (Z.abs (n - 1))) <= 3) by (apply decimal_exponent_short; lia).
    assert (Hsign : str_length (if 0 <=? n - 1 then "e+" else "e-") = 2) by (by destruct (0 <=? n - 1)).
    assert (Hd : str_length (if k =? 1 then digits else str_take 1 digits +:+ "." +:+ str_drop 1 digits) <= k + 1).
    { destruct (Z.eqb_spec k 1); [lia|]. destruct (str_take_drop 1 digits ltac:(lia)) as [Ed _].
      rewrite <- Ed, str_length_app in Hl. rewrite !str_length_app. change (str_length ".") with 1. lia. }
    lia.
Qed.

Lemma byte_length_app x y : byte_length (x +:+ y) = byte_length x + byte_length y.
Proof.
  unfold byte_length. rewrite <- Nat2Z.inj_add. f_equal. induction x as [|d x IH]; [done|].
  change (String d x +:+ y) with (String d (x +:+ y)). cbn [utf8]. rewrite !length_app, IH. lia.
Qed.

Lemma quote_char_bytes c : byte_length (quote_char c) <= 6.
Proof. by destruct c as [[] [] [] [] [] [] [] []]. Qed.

Lemma quoted_bytes s : byte_length (quoted s) <= 2 + 6 * str_length s.
Proof.
  unfold quoted. rewrite !byte_length_app. change (byte_length double_quote) with 1.
  enough (byte_length (str_concat_map quote_char s) <= 6 * str_length s) by lia.
  induction s as [|c s IH]; [done|]. cbn [str_concat_map str_length].
  rewrite byte_length_app. pose proof (quote_char_bytes c). lia.
Qed.

Lemma number_bytes x : match x with Fin z => representable z | _ => True end ->
  byte_length (text_of (JNum x)) <= 52.
Proof.
  intros Hr. destruct x as [| |z]; [done..|]. change (text_of (JNum (Fin z))) with (number_text (Fin z)).
  pose proof (byte_length_bound (number_text (Fin z))) as [_ Hb].
  enough (str_length (number_text (Fin z)) <= 26) by lia. unfold number_text.
  destruct (Z.eqb_spec z 0); [done|]. destruct (Z.ltb_spec z 0).
  - rewrite str_length_app. change (str_length "-") with 1.
    enough (str_length (positive_text (- z)) <= 25) by lia.
    apply positive_text_short; [unfold representable in *; by rewrite Z.abs_opp|lia].
  - enough (str_length (positive_text z) <= 25) by lia. apply positive_text_short; [done|lia].
Qed.

(** Room for the text of a value, told without printing it. *)
Fixpoint room (v : jsval) : Z :=
  match v with
  | JNum _ => 52
  | JStr s => 2 + 6 * str_length s
  | JArr l => 2 + foldr (fun x n => room x + 1 + n) 0 l
  | JObj fs => 2 + foldr (fun kv n => 4 + 6 * str_length kv.1 + room kv.2 + n) 0 fs
  | _ => 5
  end.

Lemma join_bytes l : byte_length (join "," l) <= foldr (fun s n => byte_length s + 1 + n) 0 l.
Proof.
  induction l as [|x [|y l] IH]; [done|cbn [join foldr]; lia|].
  change (join "," (x :: y :: l)) with (x +:+ "," +:+ join "," (y :: l)). rewrite !byte_length_app.
  change (byte_length ",") with 1. cbn [foldr] in *. lia.
Qed.

Lemma text_room v : readable_numbers v -> byte_length (text_of v) <= room v.
Proof.
  revert v. apply (jsval_nested (fun v => readable_numbers v -> byte_length (text_of v) <= room v)); try done.
  - by intros [].
  - intros x Hr. by apply number_bytes.
  - intros s _. apply quoted_bytes.
  - intros l IH Hr. cbn [readable_numbers room] in *. rewrite foldr_conj in Hr.
    change (text_of (JArr l)) with ("[" +:+ (join "," (map text_of l) +:+ "]")).
    rewrite !byte_length_app. change (byte_length "[") with 1. change (byte_length "]") with 1.
    pose proof (join_bytes (map text_of l)).
    enough (foldr (fun s n => byte_length s + 1 + n) 0 (map text_of l) <= foldr (fun x n => room x + 1 + n) 0 l) by lia.
    clear H. induction IH as [|x l Hx _ IHl]; [done|]. inversion_clear Hr as [|? ? Hr1 Hr2].
    cbn [map foldr]. specialize (Hx Hr1). specialize (IHl Hr2). lia.
  - intros fs IH Hr. cbn [readable_numbers room] in *.
    rewrite (foldr_conj (fun kv : string * jsval => readable_numbers kv.2)) in Hr.
    assert (text_of (JObj fs) = "{" +:+ (join "," (map member_text (kept fs)) +:+ "}")) as ->
      by (unfold text_of; cbn [stringify default]; by rewrite kept_texts).
    rewrite !byte_length_app. change (byte_length "{") with 1. change (byte_length "}") with 1.
    pose proof (join_bytes (map member_text (kept fs))).
    enough (foldr (fun s n => byte_length s + 1 + n) 0 (map member_text (kept fs)) <=
            foldr (fun kv n => 4 + 6 * str_length kv.1 + room kv.2 + n) 0 fs) by lia.
    clear H. induction IH as [|[k v] fs Hx _ IHl]; [done|]. inversion_clear Hr as [|? ? Hr1 Hr2].
    cbn [snd fst] in *. specialize (Hx Hr1). specialize (IHl Hr2). unfold kept in *. rewrite filter_cons.
    cbn [snd foldr fst]. pose proof (byte_length_nonneg (text_of v)). pose proof (str_length_nonneg k).
    destruct (decide (is_undef v = false)); [|lia]. cbn [map foldr].
    unfold member_text at 1. cbn [fst snd]. rewrite !byte_length_app. change (byte_length ":") with 1.
    pose proof (quoted_bytes k). lia.
Qed.

(** ** The canonical text *)

Lemma sortDeep_ok v :
  readable_numbers v -> unique_keys v -> readable_numbers (sortDeep v) /\ unique_keys (sortDeep v).
Proof.
  revert v. apply (jsval_nested (fun v => readable_numbers v -> unique_keys v ->
    readable_numbers (sortDeep v) /\ unique_keys (sortDeep v))); try done.
  - intros l IH. cbn [sortDeep readable_numbers unique_keys]. rewrite !foldr_conj. intros Hr Hu.
    rewrite !Forall_map, <- Forall_and. rewrite Forall_forall in *. naive_solver.
  - intros fs IH. cbn [sortDeep readable_numbers unique_keys]. rewrite !foldr_conj. intros Hr [Hn Hu].
    set (gs := map (fun kv => (kv.1, sortDeep kv.2)) fs).
    assert (Hp : sort_by key_compare gs ≡ₚ gs) by apply sort_by_perm.
    assert (Hall : Forall (fun kv => readable_numbers (sortDeep kv.2) /\ unique_keys (sortDeep kv.2)) fs).
    { rewrite Forall_forall in *. naive_solver. }
    assert (Hgs : Forall (fun kv => readable_numbers kv.2 /\ unique_keys kv.2) (sort_by key_compare gs)).
    { apply Forall_forall. intros kv Hin. rewrite Hp in Hin.
      revert kv Hin. apply Forall_forall. by apply Forall_map. }
    apply Forall_and in Hgs as [H1 H2]. split; [exact H1|]. split; [|exact H2].
    apply (NoDup_Permutation_proper _ _ (fmap_Permutation fst _ _ Hp)).
    unfold gs. by rewrite sorted_keys.
Qed.

Lemma json_parse_text v :
  readable_numbers v -> unique_keys v -> json_parse (text_of v) = Some (plain v).
Proof.
  intros Hr Hu. unfold json_parse.
  rewrite <- (str_app_nil_r (text_of v)) at 2. rewrite skip_space_value by (by apply text_starts).
  rewrite read_value_text; [done|done|done|exact I|].
  rewrite <- length_str_length. lia.
Qed.

(** C36: the canonical text of a document reads back. Whatever value a writer
    hands over, with distinct keys and doubles for numbers, parsing the text
    written yields the value with its keys in order, without what a text
    cannot hold; no number loses a bit and no text a unit. *)
Theorem canonical_text_reads_back v t :
  readable_numbers v -> unique_keys v -> canonicalJson v = Some t ->
  json_parse t = Some (plain (sortDeep v)).
Proof.
  intros Hr Hu. unfold canonicalJson. rewrite stringify_text. destruct (is_undef (sortDeep v)); [done|].
  intros [= <-]. destruct (sortDeep_ok v Hr Hu). by apply json_parse_text.
Qed.

(** ** Witness *)

Definition sample_document : jsval :=
  JObj [("b", JArr [JNum (lit 1 10); JUndef; JStr (String (chr 10) "x")]); ("a", JUndef);
        ("0", JObj [("y", JNum (lit (-5) (10 ^ 30))); ("x", JBool true)])].

Lemma canonical_text_reads_back_witness :
  json_parse (default "" (canonicalJson sample_document)) =
  Some (JObj [("0", JObj [("x", JBool true); ("y", JNum (lit (-5) (10 ^ 30)))]);
              ("b", JArr [JNum (lit 1 10); JNull; JStr (String (chr 10) "x")])]).
Proof.
  rewrite (canonical_text_reads_back sample_document (default "" (canonicalJson sample_document))).
  - vm_compute. reflexivity.
  - cbn [sample_document readable_numbers foldr snd].
    split_and!; lazymatch goal with |- True => exact I | _ => apply lit_readable; reflexivity end.
  - cbn [sample_document unique_keys foldr snd fmap list_fmap fst].
    split_and!; lazymatch goal with |- True => exact I | _ => apply (bool_decide_unpack _); vm_compute; exact I end.
  - vm_compute. reflexivity.
Defined.
