(* ===== verification/Documents.v ===== *)
(** * Documents

    What a JSON text can hold, and when two values have the same text. [canon]
    is the value a canonical text reads back as; values of one canonical text
    are equal under [canon], and a document is known by its fields. *)
From S2P Require Import Prelude JsNum JsDate JsValue Text Json JsonText ReadBack.
Local Open Scope string_scope.
Local Open Scope Z_scope.
Local Open Scope list_scope.
Local Open Scope js_scope.

Definition LINE_END : string := String (chr 10) "".

Definition canon (v : jsval) : jsval := plain (sortDeep v).

(** Distinct keys, doubles for numbers, and nothing [undefined] inside: what
    [JSON.parse] returns. *)
Fixpoint document (v : jsval) : Prop :=
  match v with
  | JUndef => False
  | JNum x => readable x
  | JArr l => foldr (fun x P => document x /\ P) True l
  | JObj fs => NoDup fs.*1 /\ foldr (fun kv P => document kv.2 /\ P) True fs
  | _ => True
  end.

Lemma document_array l : document (JArr l) <-> Forall document l.
Proof. apply foldr_conj. Qed.

Lemma document_object fs : document (JObj fs) <-> NoDup fs.*1 /\ Forall (fun kv => document kv.2) fs.
Proof. cbn [document]. by rewrite (foldr_conj (fun kv : string * jsval => document kv.2)). Qed.

Lemma document_ok v : document v -> unique_keys v /\ readable_numbers v.
Proof.
  revert v. apply (jsval_nested (fun v => document v -> unique_keys v /\ readable_numbers v)); try done.
  - intros l IH Hd%document_array. cbn [unique_keys readable_numbers]. rewrite !foldr_conj, <- Forall_and.
    rewrite Forall_forall in *. naive_solver.
  - intros fs IH [Hn Hd]%document_object. cbn [unique_keys readable_numbers].
    rewrite (foldr_conj (fun kv : string * jsval => unique_keys kv.2)),
      (foldr_conj (fun kv : string * jsval => readable_numbers kv.2)).
    rewrite Forall_forall in IH, Hd. split_and!; [done| |]; apply Forall_forall; naive_solver.
Qed.

Lemma document_defined v : document v -> is_undef v = false.
Proof. by destruct v. Qed.

Lemma get_elem fs k : is_undef (get fs k) = false -> (k, get fs k) ∈ fs.
Proof.
  unfold get. induction fs as [|[k' v] fs IH]; [done|]. cbn [assoc_get].
  case_decide as Hk; subst; cbn; [by left|]. intros H. right. by apply IH.
Qed.

Lemma document_get fs k : document (JObj fs) -> get fs k = JUndef \/ document (get fs k).
Proof.
  intros [_ Hd]%document_object. destruct (is_undef (get fs k)) eqn:E.
  - left. by destruct (get fs k).
  - right. apply get_elem in E. rewrite Forall_forall in Hd. by apply (Hd (k, get fs k)).
Qed.

Lemma document_set k v fs : document (JObj fs) -> document v -> document (JObj (assoc_set k v fs)).
Proof.
  intros [Hn Hd]%document_object Hv. apply document_object. split; [by apply assoc_set_NoDup|].
  clear Hn. induction Hd as [|[k' v'] fs Hk Hd IH]; cbn [assoc_set]; [by constructor|].
  case_decide; by constructor.
Qed.

Lemma int_document n : Z.abs n < 2 ^ 53 -> document (JNum (int n)).
Proof. apply representable_int. Qed.

(** ** What a text reads back as *)

Lemma read_number_readable s x rest : read_number s = Some (x, rest) -> readable x.
Proof.
  unfold read_number. destruct (match s with String _ _ => _ | _ => _ end) as [negative t].
  destruct (take_run is_digit t) as [digits u]. destruct (whole_digits digits); [|done].
  destruct (read_fraction u) as [fr|]; [|done]. destruct (read_exponent fr.2) as [e|]; [|done].
  intros [= <- _]. unfold numeral.
  assert (Hs : readable (scaled (digits_value 0 (digits +:+ fr.1)) (e.1 - str_length fr.1))).
  { unfold scaled. destruct (Z.leb_spec 0 (e.1 - str_length fr.1)); apply round_ratio_readable; lia. }
  destruct negative; [|done]. destruct (scaled _ _); try done. cbn [readable nneg] in *.
  unfold representable in *. rewrite Z.abs_opp. done.
Qed.

Definition field_documents (fs : list (string * jsval)) : Prop :=
  NoDup fs.*1 /\ Forall (fun kv => document kv.2) fs.

(** The three readers return documents, whatever the fuel. *)
Lemma readers_documents fuel :
  (forall s v rest, read_value fuel s = Some (v, rest) -> document v) /\
  (forall s l rest, read_elements fuel s = Some (l, rest) -> Forall document l) /\
  (forall s fs gs rest, document (JObj fs) -> read_members fuel fs s = Some (gs, rest) ->
     document (JObj gs)).
Proof.
  induction fuel as [|fuel (IHv & IHe & IHm)]; [done|]. split_and!.
  - intros s v rest. cbn [read_value].
    destruct (after_unit 34 s) as [s1|].
    { destruct (string_body s1); [|done]. by intros [= <- _]. }
    destruct (after_unit 91 s) as [s1|].
    { destruct (after_unit 93 (skip_space s1)); [by intros [= <- _]|].
      destruct (read_elements fuel s1) as [[l r]|] eqn:E; [|done]. intros [= <- _].
      apply document_array. by eapply IHe. }
    destruct (after_unit 123 s) as [s1|].
    { destruct (after_unit 125 (skip_space s1)); [intros [= <- _]; by repeat constructor|].
      destruct (read_members fuel [] s1) as [[l r]|] eqn:E; [|done]. intros [= <- _].
      eapply IHm; [|exact E]. by repeat constructor. }
    destruct (after_prefix "null" s); [by intros [= <- _]|].
    destruct (after_prefix "true" s); [by intros [= <- _]|].
    destruct (after_prefix "false" s); [by intros [= <- _]|].
    destruct (read_number s) as [[x r]|] eqn:E; [|done]. intros [= <- _].
    by eapply read_number_readable.
  - intros s l rest. cbn [read_elements].
    destruct (read_value fuel (skip_space s)) as [[v r]|] eqn:E; [|done]. cbn [fst snd].
    apply IHv in E. destruct (after_unit 44 (skip_space r)) as [s1|].
    + destruct (read_elements fuel s1) as [[m r']|] eqn:E'; [|done]. intros [= <- _].
      constructor; [done|]. by eapply IHe.
    + destruct (after_unit 93 (skip_space r)); [|done]. intros [= <- _]. by constructor.
  - intros s fs gs rest Hfs. cbn [read_members].
    destruct (after_unit 34 (skip_space s)) as [s1|]; [|done].
    destruct (string_body s1) as [key|]; [|done].
    destruct (after_unit 58 (skip_space key.2)) as [s2|]; [|done].
    destruct (read_value fuel (skip_space s2)) as [[v r]|] eqn:E; [|done]. cbn [fst snd].
    apply IHv in E. pose proof (document_set key.1 v fs Hfs E) as Hset.
    destruct (after_unit 44 (skip_space r)) as [s3|]; [by apply IHm|].
    destruct (after_unit 125 (skip_space r)); [|done]. by intros [= <- _].
Qed.

Lemma json_parse_document s v : json_parse s = Some v -> document v.
Proof.
  unfold json_parse. destruct (read_value _ _) as [[w rest]|] eqn:E; [|done].
  destruct (str_eqb _ _); [|done]. intros [= <-]. by eapply readers_documents.
Qed.

(** ** Canonical documents *)

Definition canon_member (kv : string * jsval) : string * jsval := (kv.1, canon kv.2).
Definition canon_fields (fs : list (string * jsval)) : list (string * jsval) :=
  sort_by key_compare (map canon_member fs).

Lemma map_sort_by (f : string * jsval -> string * jsval) l :
  (forall kv, (f kv).1 = kv.1) ->
  map f (sort_by key_compare l) = sort_by key_compare (map f l).
Proof.
  intros Hf. assert (Hi : forall x l, map f (insert_by key_compare x l) = insert_by key_compare (f x) (map f l)).
  { intros x k. induction k as [|y k IH]; [done|]. cbn [map insert_by].
    assert (key_compare (f x) (f y) = key_compare x y) as -> by (unfold key_compare; by rewrite !Hf).
    destruct (key_compare x y); cbn [map]; by rewrite ?IH. }
  induction l as [|x l IH]; [done|]. cbn [map sort_by foldr]. rewrite Hi. by f_equal.
Qed.

Lemma canon_array l : canon (JArr l) = JArr (map canon l).
Proof. unfold canon. cbn [sortDeep plain]. by rewrite map_map. Qed.

Lemma defined_sortDeep v : is_undef (sortDeep v) = is_undef v.
Proof. by destruct v. Qed.

Lemma plain_defined fs :
  Forall (fun kv => is_undef kv.2 = false) fs -> plain (JObj fs) = JObj (map plain_member fs).
Proof.
  intros Hd. rewrite plain_kept. unfold kept. rewrite filter_id; [done|].
  intros x Hx. rewrite Forall_forall in Hd. by apply Hd.
Qed.

Lemma canon_object fs : document (JObj fs) -> canon (JObj fs) = JObj (canon_fields fs).
Proof.
  intros [_ Hd]%document_object. unfold canon, canon_fields. cbn [sortDeep]. rewrite plain_defined.
  - rewrite map_sort_by by done. by rewrite map_map.
  - apply Forall_forall. intros x Hx%elem_of_sort_by. apply list_elem_of_In, in_map_iff in Hx as (kv & <- & Hin).
    cbn [snd]. rewrite defined_sortDeep. apply document_defined. rewrite Forall_forall in Hd.
    by apply Hd, list_elem_of_In.
Qed.

Lemma canon_fields_perm fs : canon_fields fs ≡ₚ map canon_member fs.
Proof. apply sort_by_perm. Qed.

Lemma canon_member_keys fs : (map canon_member fs).*1 = fs.*1.
Proof. induction fs as [|kv fs IH]; [done|]. cbn. by f_equal. Qed.

Lemma canon_fields_keys fs : (canon_fields fs).*1 ≡ₚ fs.*1.
Proof. rewrite canon_fields_perm. by rewrite canon_member_keys. Qed.

Lemma canon_document v : document v -> document (canon v).
Proof.
  revert v. apply (jsval_nested (fun v => document v -> document (canon v))); try done.
  - intros x Hx. unfold canon. cbn [sortDeep plain]. by destruct (is_finite x).
  - intros l IH Hd%document_array. rewrite canon_array. apply document_array.
    apply Forall_map. rewrite Forall_forall in *. naive_solver.
  - intros fs IH Hd. rewrite canon_object by done. apply document_object in Hd as [Hn Hd].
    apply document_object. split; [by rewrite canon_fields_keys|].
    rewrite canon_fields_perm. apply Forall_map. rewrite Forall_forall in *. naive_solver.
Qed.

(** [undefined] for a key that is not there. *)
Definition canon_field (v : jsval) : jsval := if is_undef v then JUndef else canon v.

Lemma get_canon fs k : document (JObj fs) -> get (canon_fields fs) k = canon_field (get fs k).
Proof.
  intros [Hn Hd]%document_object.
  rewrite (get_perm _ (map canon_member fs)); [|apply canon_fields_perm|by rewrite canon_fields_keys].
  clear Hn. unfold get. induction Hd as [|[k' v] fs Hv Hd IH]; [done|]. cbn [map assoc_get canon_member fst snd].
  case_decide; [|done]. cbn. unfold canon_field. by rewrite document_defined.
Qed.

(** Sorted fields of distinct keys are in one order only. *)
Lemma sorted_fields_unique l l' :
  StronglySorted (le_by key_compare) l -> StronglySorted (le_by key_compare) l' ->
  l ≡ₚ l' -> NoDup l.*1 -> l = l'.
Proof.
  intros Hs. revert l'. induction Hs as [|x l Hs IH Hx]; intros l' Hs' Hp Hn.
  { symmetry in Hp. by apply Permutation_nil_r in Hp. }
  destruct Hs' as [|y l' Hs' Hy]; [by apply Permutation_nil_r in Hp|].
  assert (x = y) as ->.
  { assert (Hin : x ∈ y :: l') by (rewrite <- Hp; left).
    assert (Hin' : y ∈ x :: l) by (rewrite Hp; left).
    apply elem_of_cons in Hin as [->|Hin]; [done|]. apply elem_of_cons in Hin' as [->|Hin']; [done|].
    rewrite Forall_forall in Hx, Hy. specialize (Hx y Hin'). specialize (Hy x Hin).
    unfold le_by, key_compare in Hx, Hy. rewrite str_compare_antisym in Hy.
    assert (E : x.1 = y.1) by (apply str_compare_eq; by destruct (str_compare x.1 y.1)).
    cbn in Hn. apply NoDup_cons in Hn as [Hnot _]. exfalso. apply Hnot. rewrite E.
    apply list_elem_of_fmap. by exists y. }
  f_equal. apply IH; [done|by apply Permutation_cons_inv in Hp|]. cbn in Hn. by apply NoDup_cons in Hn as [_ ?].
Qed.

(** A document is known by its fields. *)
Lemma canon_ext fs gs :
  document (JObj fs) -> document (JObj gs) ->
  (forall k, canon_field (get fs k) = canon_field (get gs k)) -> canon (JObj fs) = canon (JObj gs).
Proof.
  intros Hf Hg Hext. rewrite !canon_object by done. f_equal. apply sorted_fields_unique.
  - apply (sort_by_sorted key_compare).
  - apply (sort_by_sorted key_compare).
  - apply document_object in Hf as Hf', Hg as Hg'. destruct Hf' as [Hnf Hdf], Hg' as [Hng Hdg].
    assert (Hin : forall fs, document (JObj fs) -> forall k v, (k, v) ∈ canon_fields fs <->
      get (canon_fields fs) k = v /\ is_undef v = false).
    { intros hs Hd k v. apply document_object in Hd as [Hn Hd].
      assert (Hnc : NoDup (canon_fields hs).*1) by (by rewrite canon_fields_keys). split.
      - intros Hkv. split; [unfold get; by rewrite (proj2 (assoc_get_elem k v _ Hnc) Hkv)|].
        rewrite canon_fields_perm in Hkv. apply list_elem_of_In, in_map_iff in Hkv as ([k' w] & [= <- <-] & Hw).
        rewrite Forall_forall in Hd. apply list_elem_of_In, Hd in Hw.
        by apply document_defined, canon_document.
      - intros [<- Hu]. by apply get_elem. }
    apply NoDup_Permutation.
    + eapply NoDup_fmap_1. by rewrite canon_fields_keys.
    + eapply NoDup_fmap_1. by rewrite canon_fields_keys.
    + intros [k v]. rewrite !Hin by done. by rewrite !get_canon, Hext by done.
  - rewrite canon_fields_keys. by apply document_object in Hf as [? _].
Qed.

Lemma canon_idem v : document v -> canon (canon v) = canon v.
Proof.
  revert v. apply (jsval_nested (fun v => document v -> canon (canon v) = canon v)); try done.
  - intros x _. unfold canon. cbn [sortDeep plain]. destruct (is_finite x) eqn:E; [|done].
    cbn [sortDeep plain]. by rewrite E.
  - intros l IH Hd%document_array. rewrite !canon_array, map_map. f_equal.
    apply map_ext_in. intros x Hx%list_elem_of_In. rewrite Forall_forall in *. naive_solver.
  - intros fs IH Hd. rewrite (canon_object fs) at 1 by done. apply canon_ext; [|done|].
    { rewrite <- canon_object by done. by apply canon_document. }
    intros k. rewrite get_canon by done. unfold canon_field. destruct (is_undef (get fs k)) eqn:E; [done|].
    apply document_object in Hd as [_ Hd]. apply get_elem in E. rewrite Forall_forall in *.
    specialize (Hd _ E). specialize (IH _ E Hd). cbn [snd] in *.
    by rewrite document_defined by (by apply canon_document).
Qed.

(** ** Canonical texts *)

Definition canonical_text (v : jsval) : string := text_of (sortDeep v).

Lemma canonicalJson_text v : document v -> canonicalJson v = Some (canonical_text v).
Proof.
  intros Hd. unfold canonicalJson. rewrite stringify_text, defined_sortDeep.
  by rewrite document_defined.
Qed.

Lemma text_of_plain v : text_of (plain v) = text_of v.
Proof.
  revert v. apply (jsval_nested (fun v => text_of (plain v) = text_of v)); try done.
  - intros x. unfold text_of. cbn [plain]. destruct (is_finite x) eqn:E; cbn [stringify]; by rewrite ?E.
  - intros l IH. change (text_of (plain (JArr l))) with ("[" +:+ (join "," (map text_of (map plain l)) +:+ "]")).
    change (text_of (JArr l)) with ("[" +:+ (join "," (map text_of l) +:+ "]")).
    rewrite map_map. do 3 f_equal. apply map_ext_in. intros x Hx%list_elem_of_In.
    rewrite Forall_forall in IH. by apply IH.
  - intros fs IH. rewrite plain_kept. unfold text_of. cbn [stringify default].
    rewrite !kept_texts. do 4 f_equal.
    assert (Hk : kept (map plain_member (kept fs)) = map plain_member (kept fs)).
    { unfold kept at 1. apply filter_id. intros x Hx. apply list_elem_of_In, in_map_iff in Hx as (kv & <- & Hin).
      apply list_elem_of_In, list_elem_of_filter in Hin as [Hu _]. cbn [plain_member snd].
      destruct kv.2 as [| | |x| | |]; try done. cbn [plain]. by destruct (is_finite x). }
    rewrite Hk, map_map. apply map_ext_in. intros kv Hin.
    apply list_elem_of_In, list_elem_of_filter in Hin as [_ Hin].
    rewrite Forall_forall in IH. unfold member_text, plain_member. cbn [fst snd]. by rewrite IH.
Qed.

Lemma json_parse_line v :
  document v -> json_parse (canonical_text v +:+ LINE_END) = Some (canon v).
Proof.
  intros Hd. destruct (document_ok v Hd) as [Hu Hr]. destruct (sortDeep_ok v Hr Hu) as [Hr' Hu'].
  unfold canonical_text, json_parse.
  rewrite skip_space_value by (by apply text_starts). rewrite read_value_text; try done.
  - by right; right; right.
  - rewrite <- length_str_length, Nat2Z.inj_add, Nat2Z.inj_mul. unfold LINE_END.
    rewrite !length_str_length, str_length_app. cbn [str_length]. lia.
Qed.

(** Canonical texts agree exactly when the values read back do. *)
Lemma canonical_text_eq v w :
  document v -> document w -> canonical_text v = canonical_text w <-> canon v = canon w.
Proof.
  intros Hv Hw. split.
  - intros E. pose proof (json_parse_line v Hv) as H1. pose proof (json_parse_line w Hw) as H2.
    rewrite E in H1. congruence.
  - intros E. unfold canonical_text. rewrite <- (text_of_plain (sortDeep v)), <- (text_of_plain (sortDeep w)).
    unfold canon in E. by rewrite E.
Qed.
