(* ===== verification/Sha256.v ===== *)
(** * The session pseudonym's hash

    The SHA-256 of [activity/contract.ts] as it is written there: 32-bit words
    in typed arrays and coercions, so every sum is reduced modulo [2^32]. *)
From S2P Require Import Prelude Text Json.
Local Open Scope Z_scope.
Local Open Scope list_scope.

Definition word (n : Z) : Z := n mod 2 ^ 32.

(** [n >>> shift | n << (32 - shift)] *)
Definition rotate (n shift : Z) : Z :=
  Z.lor (Z.shiftr n shift) (word (Z.shiftl n (32 - shift))).

(** A table of words written in hexadecimal, eight digits each. *)
Definition hex_unit (c : ascii) : Z := if is_digit c then code c - 48 else code c - 87.

Definition hex_word (s : string) : Z :=
  fold_left (fun acc c => acc * 16 + hex_unit c) (String.list_ascii_of_string s) 0.

Definition hex_table (rows : list string) : list Z :=
  concat (map (fun row => map hex_word (split_on " " row "")) rows).

Definition k_table : list Z := Eval vm_compute in hex_table [
  "428a2f98 71374491 b5c0fbcf e9b5dba5 3956c25b 59f111f1 923f82a4 ab1c5ed5";
  "d807aa98 12835b01 243185be 550c7dc3 72be5d74 80deb1fe 9bdc06a7 c19bf174";
  "e49b69c1 efbe4786 0fc19dc6 240ca1cc 2de92c6f 4a7484aa 5cb0a9dc 76f988da";
  "983e5152 a831c66d b00327c8 bf597fc7 c6e00bf3 d5a79147 06ca6351 14292967";
  "27b70a85 2e1b2138 4d2c6dfc 53380d13 650a7354 766a0abb 81c2c92e 92722c85";
  "a2bfe8a1 a81a664b c24b8b70 c76c51a3 d192e819 d6990624 f40e3585 106aa070";
  "19a4c116 1e376c08 2748774c 34b0bcb5 391c0cb3 4ed8aa4a 5b9cca4f 682e6ff3";
  "748f82ee 78a5636f 84c87814 8cc70208 90befffa a4506ceb bef9a3f7 c67178f2"].

Definition h_initial : list Z := Eval vm_compute in
  hex_table ["6a09e667 bb67ae85 3c6ef372 a54ff53a 510e527f 9b05688c 1f83d9ab 5be0cd19"].

(** The padded message: the bytes, [0x80], zeros to a whole number of
    64-byte blocks, and the length in bits in the last word. *)
Fixpoint pack (bytes : list Z) (fuel : nat) : list Z :=
  match fuel with
  | O => []
  | S fuel =>
      let byte i := default 0 (bytes !! i) in
      word (Z.lor (Z.lor (Z.shiftl (byte 0%nat) 24) (Z.shiftl (byte 1%nat) 16))
                  (Z.lor (Z.shiftl (byte 2%nat) 8) (byte 3%nat))) :: pack (drop 4 bytes) fuel
  end.

Definition padded (bytes : list Z) : list Z :=
  let count := Z.of_nat (length bytes) in
  let total := Z.to_nat (((count + 9 + 63) / 64) * 16) in
  take (total - 1) (pack (bytes ++ [0x80]) total) ++ [word (count * 8)].

(** The message schedule of a block, most recent word first. *)
Fixpoint expand (fuel : nat) (w : list Z) : list Z :=
  match fuel with
  | O => w
  | S fuel =>
      let at_ i := default 0 (w !! i) in
      let x := at_ 14%nat in
      let y := at_ 1%nat in
      let s0 := Z.lxor (Z.lxor (rotate x 7) (rotate x 18)) (Z.shiftr x 3) in
      let s1 := Z.lxor (Z.lxor (rotate y 17) (rotate y 19)) (Z.shiftr y 10) in
      expand fuel (word (at_ 15%nat + s0 + at_ 6%nat + s1) :: w)
  end.

Definition schedule (block : list Z) : list Z := rev (expand 48 (rev block)).

Definition round (h : list Z) (kw : Z * Z) : list Z :=
  match h with
  | [a; b; c; d; e; f; g; j] =>
      let t1 := word (j + Z.lxor (Z.lxor (rotate e 6) (rotate e 11)) (rotate e 25) +
                      Z.lxor (Z.land e f) (Z.land (word (Z.lnot e)) g) + kw.1 + kw.2) in
      let t2 := word (Z.lxor (Z.lxor (rotate a 2) (rotate a 13)) (rotate a 22) +
                      Z.lxor (Z.lxor (Z.land a b) (Z.land a c)) (Z.land b c)) in
      [word (t1 + t2); a; b; c; word (d + t1); e; f; g]
  | _ => h
  end.

Definition compress (h block : list Z) : list Z :=
  zip_with (fun x y => word (x + y)) h
    (fold_left round (zip k_table (schedule block)) h).

(** The blocks of sixteen words, in order. *)
Fixpoint blocks (fuel : nat) (words : list Z) : list (list Z) :=
  match fuel with
  | O => []
  | S fuel => match words with [] => [] | _ => take 16 words :: blocks fuel (drop 16 words) end
  end.

Definition sha256 (bytes : list Z) : list Z :=
  let words := padded bytes in
  fold_left compress (blocks (length words) words) h_initial.

(** [value.toString(16).padStart(8, "0")], joined. *)
Fixpoint hex (digits : nat) (n : Z) : string :=
  match digits with
  | O => ""
  | S digits => String (hex_digit (n / 16 ^ Z.of_nat digits mod 16)) (hex digits n)
  end.

Definition hex_words (h : list Z) : string := join "" (map (hex 8) h).

(** The published vectors for the empty text and for [abc]. *)
Example sha256_empty :
  hex_words (sha256 []) = "e3b0c44298fc1c149afbf4c8996fb92427ae41e4649b934ca495991b7852b855".
Proof. by vm_compute. Qed.

Example sha256_abc :
  hex_words (sha256 (utf8 "abc")) =
  "ba7816bf8f01cfea414140de5dae2223b00361a396177a9cb410ff61f20015ad".
Proof. by vm_compute. Qed.

(** A message of two blocks. *)
Example sha256_two_blocks :
  hex_words (sha256 (utf8 "abcdbcdecdefdefgefghfghighijhijkijkljklmklmnlmnomnopnopq")) =
  "248d6a61d20638b8e5c026930c3e6039a33ce45964ff2167f6ecedd419db06c1".
Proof. by vm_compute. Qed.

(** ** Shape *)

Lemma length_round h kw : length h = 8%nat -> length (round h kw) = 8%nat.
Proof. intros H. do 9 (destruct h as [|? h]; try done). Qed.

Lemma length_rounds l h : length h = 8%nat -> length (fold_left round l h) = 8%nat.
Proof.
  revert h. induction l as [|kw l IH]; simpl; [done|]. intros h Hh. apply IH, length_round, Hh.
Qed.

Lemma length_compress h block : length h = 8%nat -> length (compress h block) = 8%nat.
Proof.
  intros Hh. unfold compress. rewrite length_zip_with, length_rounds by done. lia.
Qed.

Lemma length_sha256 bytes : length (sha256 bytes) = 8%nat.
Proof.
  unfold sha256. generalize (blocks (length (padded bytes)) (padded bytes)).
  assert (H0 : length h_initial = 8%nat) by done. revert H0. generalize h_initial.
  intros h Hh l. revert h Hh. induction l as [|b l IH]; simpl; [done|].
  intros h Hh. by apply IH, length_compress.
Qed.

Definition is_hex (c : ascii) : bool := is_digit c || in_range 97 102 c.

Lemma hex_digit_hex n : 0 <= n < 16 -> is_hex (hex_digit n) = true.
Proof.
  intros Hn. rewrite <- (Z2Nat.id n) by lia.
  assert (Hall : forallb (fun i => is_hex (hex_digit (Z.of_nat i))) (seq 0 16) = true)
    by (by vm_compute).
  rewrite forallb_forall in Hall. apply Hall, in_seq. lia.
Qed.

Lemma hex_shape digits n :
  str_length (hex digits n) = Z.of_nat digits /\ str_forall is_hex (hex digits n) = true.
Proof.
  induction digits as [|digits [IHl IHf]]; [done|]. cbn [hex str_length str_forall].
  rewrite IHl, IHf. split; [lia|]. rewrite andb_true_r. apply hex_digit_hex.
  apply Z.mod_pos_bound. lia.
Qed.

Lemma hex_words_shape h :
  str_length (hex_words h) = 8 * Z.of_nat (length h) /\ str_forall is_hex (hex_words h) = true.
Proof.
  unfold hex_words. induction h as [|n h [IHl IHf]]; [done|].
  cbn [map length]. rewrite join_cons_nil. destruct (hex_shape 8 n) as [Hl Hf].
  rewrite str_length_app, str_forall_app, IHl, IHf, Hl, Hf. split; [lia|done].
Qed.
