(* ===== verification/Activity.v ===== *)
(** * Agent activity

    [activity/contract.ts]: the events a hook may record, the state of a
    session as events arrive, and the records that leave the machine. Numbers
    in a validated event are safe integers, so the typed records hold [Z];
    [isActivityEvent] judges untrusted values. *)
From S2P Require Import Prelude JsNum JsDate JsValue Text Json Sha256 Types.
Local Open Scope string_scope.
Local Open Scope Z_scope.
Local Open Scope list_scope.
Local Open Scope js_scope.

Definition ACTIVITY_EVENT_VERSION : Z := 1.
Definition MAX_ACTIVITY_EVENT_BYTES : Z := 8 * 1024.
Definition MAX_ACTIVITY_SPOOL_BYTES : Z := 16 * 1024 * 1024.
Definition MAX_ACTIVITY_EVENT_AGE_MS : Z := 24 * 60 * 60 * 1000.
Definition ACTIVITY_SESSION_RETIREMENT_MS : Z := 24 * 60 * 60 * 1000.

Inductive ActivityAgent :=
| claude_code | codex | muse | gemini_cli | cursor | kimi | grok | antigravity.
Inductive ActivityState := busy | waiting | done_ | idle | unknown.
Inductive ActivitySource := hook | registry | transcript | rollout | editor_state.
Inductive ActivitySignal :=
| observation | user_question | claude_stop | process_vanished | session_ended.
Inductive ActivityConfidence := explicit | inferred.
Inductive ActivityOutcome := cancelled | failed.

#[export] Instance ActivityAgent_eq : EqDecision ActivityAgent. Proof. solve_decision. Defined.
#[export] Instance ActivityState_eq : EqDecision ActivityState. Proof. solve_decision. Defined.
#[export] Instance ActivitySource_eq : EqDecision ActivitySource. Proof. solve_decision. Defined.
#[export] Instance ActivitySignal_eq : EqDecision ActivitySignal. Proof. solve_decision. Defined.
#[export] Instance ActivityConfidence_eq : EqDecision ActivityConfidence.
Proof. solve_decision. Defined.
#[export] Instance ActivityOutcome_eq : EqDecision ActivityOutcome. Proof. solve_decision. Defined.

#[export] Instance ACTIVITY_AGENTS : Closed ActivityAgent := {
  all_of := [claude_code; codex; muse; gemini_cli; cursor; kimi; grok; antigravity];
  name_of a :=
    match a with
    | claude_code => "claude_code" | codex => "codex" | muse => "muse"
    | gemini_cli => "gemini_cli" | cursor => "cursor" | kimi => "kimi" | grok => "grok"
    | antigravity => "antigravity"
    end }.

#[export] Instance ACTIVITY_STATES : Closed ActivityState := {
  all_of := [busy; waiting; done_; idle; unknown];
  name_of s :=
    match s with
    | busy => "busy" | waiting => "waiting" | done_ => "done" | idle => "idle"
    | unknown => "unknown"
    end }.

#[export] Instance ACTIVITY_SOURCES : Closed ActivitySource := {
  all_of := [hook; registry; transcript; rollout; editor_state];
  name_of s :=
    match s with
    | hook => "hook" | registry => "registry" | transcript => "transcript"
    | rollout => "rollout" | editor_state => "editor_state"
    end }.

#[export] Instance ACTIVITY_SIGNALS : Closed ActivitySignal := {
  all_of := [observation; user_question; claude_stop; process_vanished; session_ended];
  name_of s :=
    match s with
    | observation => "observation" | user_question => "user_question"
    | claude_stop => "claude_stop" | process_vanished => "process_vanished"
    | session_ended => "session_ended"
    end }.

#[export] Instance activity_confidences : Closed ActivityConfidence := {
  all_of := [explicit; inferred];
  name_of c := match c with explicit => "explicit" | inferred => "inferred" end }.

#[export] Instance activity_outcomes : Closed ActivityOutcome := {
  all_of := [cancelled; failed];
  name_of o := match o with cancelled => "cancelled" | failed => "failed" end }.

#[export] Instance agents_laws : ClosedLaws ActivityAgent. Proof. solve_closed. Qed.
#[export] Instance states_laws : ClosedLaws ActivityState. Proof. solve_closed. Qed.
#[export] Instance activity_sources_laws : ClosedLaws ActivitySource. Proof. solve_closed. Qed.
#[export] Instance signals_laws : ClosedLaws ActivitySignal. Proof. solve_closed. Qed.
#[export] Instance confidences_laws : ClosedLaws ActivityConfidence. Proof. solve_closed. Qed.
#[export] Instance outcomes_laws : ClosedLaws ActivityOutcome. Proof. solve_closed. Qed.

Record ActivityProcess := {
  ps_ppid : option Z; ps_pid : option Z; ps_startedAt : option string }.

#[export] Instance ActivityProcess_eq : EqDecision ActivityProcess. Proof. solve_decision. Defined.

Record ActivityEvent := {
  ev_eventId : string;
  ev_sessionId : string;
  ev_sequence : Z;
  ev_agent : ActivityAgent;
  ev_accountAlias : option string;
  ev_observedAt : string;
  ev_state : ActivityState;
  ev_outcome : option ActivityOutcome;
  ev_source : ActivitySource;
  ev_confidence : ActivityConfidence;
  ev_process : option ActivityProcess;
  ev_signal : option ActivitySignal;
  ev_parentSessionId : option string;
  ev_isSidechain : option bool }.

(** ** The boundary *)

Definition hasOnlyContractKeys (fs : list (string * jsval)) (keys : list string) : bool :=
  forallb (fun kv => bool_decide (kv.1 ∈ keys)) fs.

(** [/^\d{4}-\d{2}-\d{2}T\d{2}:\d{2}:\d{2}\.\d{3}Z$/], a [d] of the template
    standing for a digit. *)
Fixpoint matches_template (template s : string) : bool :=
  match template, s with
  | EmptyString, EmptyString => true
  | String t template, String c s =>
      (if Ascii.eqb t "d" then is_digit c else Ascii.eqb t c) && matches_template template s
  | _, _ => false
  end.

Definition instant_template : string := "dddd-dd-ddTdd:dd:dd.dddZ".

Definition identifier (v : jsval) : bool :=
  match v with
  | JStr s =>
      (0 <? str_length s) && (str_length s <=? 256) &&
      str_forall (fun c => negb ((code c <? 32) || (code c =? 127))) s
  | _ => false
  end.

Definition pid (v : jsval) : bool :=
  match v with
  | JNum n => match to_safe_int n with Some k => 0 <? k | None => false end
  | _ => false
  end.

Definition member (A : Type) `{Closed A} (v : jsval) : bool :=
  match read_name (A:=A) v with Some _ => true | None => false end.

Definition event_keys : list string :=
  ["version"; "eventId"; "sessionId"; "sequence"; "agent"; "accountAlias"; "observedAt"; "state";
   "outcome"; "source"; "confidence"; "process"; "signal"; "parentSessionId"; "isSidechain"].

(** Whether the event is judged as a hook's or the desktop's. *)
Inductive Origin := from_hook | from_desktop.

#[export] Instance Origin_eq : EqDecision Origin. Proof. solve_decision. Defined.

Section Activity.
Context `{DateHost}.

Definition isContractInstant (v : jsval) : bool :=
  match v with
  | JStr s => matches_template instant_template s && is_iso_instant s
  | _ => false
  end.

#[local] Arguments isContractInstant : simpl never.

Definition process_ok (origin : Origin) (observedAt : string) (v : jsval) : bool :=
  match v with
  | JUndef => true
  | JObj fs =>
      let ppid := get fs "ppid" in
      let pid_ := get fs "pid" in
      let startedAt := get fs "startedAt" in
      hasOnlyContractKeys fs ["ppid"; "pid"; "startedAt"] &&
      (is_undef ppid || pid ppid) &&
      negb (bool_decide (origin = from_hook) &&
            (is_undef ppid || negb (is_undef pid_) || negb (is_undef startedAt))) &&
      Bool.eqb (is_undef pid_) (is_undef startedAt) &&
      (is_undef pid_ || pid pid_ && isContractInstant startedAt) &&
      match startedAt with
      | JStr t => negb (isContractInstant startedAt && str_ltb observedAt t)
      | _ => true
      end
  | _ => false
  end.

Definition isActivityEvent (v : jsval) (now : num) (origin : Origin) : bool :=
  match v with
  | JObj fs =>
      is_finite now &&
      hasOnlyContractKeys fs event_keys &&
      match stringify v with
      | Some text => byte_length text <=? MAX_ACTIVITY_EVENT_BYTES
      | None => false
      end &&
      match get fs "version" with JNum n => n ==# int ACTIVITY_EVENT_VERSION | _ => false end &&
      identifier (get fs "eventId") && identifier (get fs "sessionId") &&
      match get fs "sequence" with
      | JNum n => match to_safe_int n with Some k => 0 <=? k | None => false end
      | _ => false
      end &&
      member ActivityAgent (get fs "agent") && member ActivityState (get fs "state") &&
      member ActivitySource (get fs "source") &&
      member ActivityConfidence (get fs "confidence") &&
      isContractInstant (get fs "observedAt") &&
      match get fs "observedAt" with
      | JStr observedAt =>
          let age := now ⊖ time_num (date_parse observedAt) in
          negb ((age <# int 0) || (int MAX_ACTIVITY_EVENT_AGE_MS <# age)) &&
          process_ok origin observedAt (get fs "process")
      | _ => false
      end &&
      negb (bool_decide (origin = from_hook) && negb (is_string (get fs "source") "hook")) &&
      (is_undef (get fs "accountAlias") || identifier (get fs "accountAlias")) &&
      (is_undef (get fs "parentSessionId") ||
       identifier (get fs "parentSessionId") &&
       negb (bool_decide (as_string (get fs "parentSessionId") = as_string (get fs "sessionId")))) &&
      match get fs "isSidechain" with JUndef | JBool _ => true | _ => false end &&
      (is_undef (get fs "signal") || member ActivitySignal (get fs "signal")) &&
      negb (is_string (get fs "signal") "claude_stop" &&
            negb (is_string (get fs "agent") "claude_code")) &&
      (is_undef (get fs "outcome") || member ActivityOutcome (get fs "outcome")) &&
      negb (negb (is_undef (get fs "outcome")) && is_string (get fs "state") "done") &&
      negb ((is_string (get fs "state") "done" || is_string (get fs "signal") "user_question" ||
             is_string (get fs "signal") "claude_stop") &&
            negb (is_string (get fs "confidence") "explicit"))
  | _ => false
  end.

(** ** Validated events

    [isActivityEvent] is a type guard: the event it lets through, as the
    record the rest of the code reads. *)

Definition typed_process (v : jsval) : option ActivityProcess :=
  let? fs := record_of v in
  Some {| ps_ppid := as_safe_int (get fs "ppid"); ps_pid := as_safe_int (get fs "pid");
          ps_startedAt := as_string (get fs "startedAt") |}.

Definition typed_event (v : jsval) : option ActivityEvent :=
  let? fs := record_of v in
  let? eventId := as_string (get fs "eventId") in
  let? sessionId := as_string (get fs "sessionId") in
  let? sequence := as_safe_int (get fs "sequence") in
  let? agent := read_name (get fs "agent") in
  let? observedAt := as_string (get fs "observedAt") in
  let? state := read_name (get fs "state") in
  let? source := read_name (get fs "source") in
  let? confidence := read_name (get fs "confidence") in
  Some {| ev_eventId := eventId; ev_sessionId := sessionId; ev_sequence := sequence;
          ev_agent := agent; ev_accountAlias := as_string (get fs "accountAlias");
          ev_observedAt := observedAt; ev_state := state;
          ev_outcome := read_name (get fs "outcome"); ev_source := source;
          ev_confidence := confidence; ev_process := typed_process (get fs "process");
          ev_signal := read_name (get fs "signal");
          ev_parentSessionId := as_string (get fs "parentSessionId");
          ev_isSidechain := match get fs "isSidechain" with JBool b => Some b | _ => None end |}.

(** ** Sessions *)

Record ActivitySession := {
  ss_sessionId : string;
  ss_agent : ActivityAgent;
  ss_accountAlias : option string;
  ss_state : ActivityState;
  ss_confidence : ActivityConfidence;
  ss_outcome : option ActivityOutcome;
  ss_firstObservedAt : string;
  ss_observedAt : string;
  ss_stateChangedAt : string;
  ss_endedAt : option string;
  ss_sequence : Z;
  ss_seenEventIds : list string;
  ss_process : option ActivityProcess;
  ss_awaitingInput : bool;
  ss_userProjectLabel : option string }.

Inductive ActivityNotification := agent_waiting | agent_done.
Inductive TransitionReason :=
| baseline | applied | duplicate | out_of_order | other_session | child | lower_confidence.

#[export] Instance TransitionReason_eq : EqDecision TransitionReason.
Proof. solve_decision. Defined.

Record ActivityTransition := {
  tr_session : ActivitySession;
  tr_notification : option ActivityNotification;
  tr_reason : TransitionReason }.

(** The keys [JSON.stringify([event.sessionId, event.sequence])]. *)
Definition sequence_key (e : ActivityEvent) : string :=
  default "" (stringify (JArr [JStr (ev_sessionId e); JNum (int (ev_sequence e))])).

Fixpoint dedupe_events (ids sequences : list string) (events : list ActivityEvent) :
    list ActivityEvent :=
  match events with
  | [] => []
  | e :: events =>
      if bool_decide (ev_eventId e ∈ ids) || bool_decide (sequence_key e ∈ sequences)
      then dedupe_events ids sequences events
      else e :: dedupe_events (ev_eventId e :: ids) (sequence_key e :: sequences) events
  end.

Definition dedupeActivityEvents (events : list ActivityEvent) : list ActivityEvent :=
  dedupe_events [] [] events.

Definition fresh_session (e : ActivityEvent) : ActivitySession :=
  {| ss_sessionId := ev_sessionId e; ss_agent := ev_agent e;
     ss_accountAlias := ev_accountAlias e; ss_state := unknown; ss_confidence := inferred;
     ss_outcome := None; ss_firstObservedAt := ev_observedAt e;
     ss_observedAt := ev_observedAt e; ss_stateChangedAt := ev_observedAt e;
     ss_endedAt := None; ss_sequence := ev_sequence e; ss_seenEventIds := [];
     ss_process := None; ss_awaitingInput := false; ss_userProjectLabel := None |}.

(** [{ ...base, sequence, seenEventIds, observedAt }] *)
Definition seen (base : ActivitySession) (e : ActivityEvent) : ActivitySession :=
  {| ss_sessionId := ss_sessionId base; ss_agent := ss_agent base;
     ss_accountAlias := ss_accountAlias base; ss_state := ss_state base;
     ss_confidence := ss_confidence base; ss_outcome := ss_outcome base;
     ss_firstObservedAt := ss_firstObservedAt base; ss_observedAt := ev_observedAt e;
     ss_stateChangedAt := ss_stateChangedAt base; ss_endedAt := ss_endedAt base;
     ss_sequence := ev_sequence e; ss_seenEventIds := ss_seenEventIds base ++ [ev_eventId e];
     ss_process := ss_process base; ss_awaitingInput := ss_awaitingInput base;
     ss_userProjectLabel := ss_userProjectLabel base |}.

Definition process_pid (p : option ActivityProcess) : option Z := let? p := p in ps_pid p.
Definition process_started (p : option ActivityProcess) : option string :=
  let? p := p in ps_startedAt p.

Definition identity_changed (base : ActivitySession) (e : ActivityEvent) : bool :=
  match process_pid (ss_process base), process_pid (ev_process e) with
  | Some p, Some q =>
      negb (p =? q) ||
      negb (bool_decide (process_started (ss_process base) = process_started (ev_process e)))
  | _, _ => false
  end.

Definition is_vanished (base : ActivitySession) (e : ActivityEvent) : bool :=
  bool_decide (ev_signal e = Some process_vanished) ||
  bool_decide (ev_signal e = Some session_ended) || identity_changed base e.

(** The straight-line assignments to [state] and [awaitingInput]. *)
Definition settle (base : ActivitySession) (e : ActivityEvent) (vanished : bool) :
    ActivityState * bool :=
  let question := bool_decide (ev_signal e = Some user_question) in
  let state := if question then waiting else ev_state e in
  let awaiting := if question then true else ss_awaitingInput base in
  let state := if bool_decide (ev_signal e = Some claude_stop) && awaiting then waiting else state in
  let awaiting :=
    if bool_decide (state = busy) && bool_decide (ev_confidence e = explicit) then false
    else awaiting in
  let state := if vanished then unknown else state in
  let awaiting := if vanished then false else awaiting in
  let state :=
    if negb (bool_decide (ev_outcome e = None)) && bool_decide (state = done_) then unknown
    else state in
  let state :=
    if bool_decide (state = done_) && negb (bool_decide (ev_confidence e = explicit)) then unknown
    else state in
  (state, if bool_decide (state = waiting) then awaiting else false).

Definition merged_process (base : ActivitySession) (e : ActivityEvent) (changed : bool) :
    option ActivityProcess :=
  if changed then None
  else
    match ev_process e with
    | None => ss_process base
    | Some p =>
        Some {| ps_ppid := ps_ppid p;
                ps_pid := match ps_pid p with
                          | Some q => Some q | None => process_pid (ss_process base) end;
                ps_startedAt :=
                  match ps_pid p with
                  | Some _ => ps_startedAt p
                  | None => match process_pid (ss_process base) with
                            | Some _ => process_started (ss_process base) | None => None end
                  end |}
    end.

Definition ended_at (base : ActivitySession) (e : ActivityEvent) (state : ActivityState)
    (vanished : bool) : option string :=
  if vanished || bool_decide (state = done_) || negb (bool_decide (ev_outcome e = None)) then
    Some (if bool_decide (ss_state base = state) && bool_decide (ss_outcome base = ev_outcome e)
          then default (ev_observedAt e) (ss_endedAt base) else ev_observedAt e)
  else None.

(** The session after an event that counts, and the word to the person. *)
Definition apply_event (previous : option ActivitySession) (base : ActivitySession)
    (e : ActivityEvent) : ActivityTransition :=
  let changed := identity_changed base e in
  let vanished := is_vanished base e in
  let '(state, awaitingInput) := settle base e vanished in
  let session := seen base e in
  let confidence := if vanished then inferred else ev_confidence e in
  {| tr_session :=
       {| ss_sessionId := ss_sessionId session; ss_agent := ss_agent session;
          ss_accountAlias := ss_accountAlias session; ss_state := state;
          ss_confidence := confidence; ss_outcome := ev_outcome e;
          ss_firstObservedAt := ss_firstObservedAt session;
          ss_observedAt := ss_observedAt session;
          ss_stateChangedAt :=
            if bool_decide (state = ss_state base) then ss_stateChangedAt session
            else ev_observedAt e;
          ss_endedAt := ended_at base e state vanished;
          ss_sequence := ss_sequence session; ss_seenEventIds := ss_seenEventIds session;
          ss_process := merged_process base e changed;
          ss_awaitingInput := awaitingInput;
          ss_userProjectLabel := ss_userProjectLabel session |};
     tr_notification :=
       if negb (bool_decide (is_Some previous)) || bool_decide (ss_state base = state) ||
          negb (bool_decide (ev_outcome e = None)) || negb (bool_decide (confidence = explicit))
       then None
       else match state with waiting => Some agent_waiting | done_ => Some agent_done | _ => None end;
     tr_reason := match previous with None => baseline | Some _ => applied end |}.

Definition unchanged (session : ActivitySession) (reason : TransitionReason) : ActivityTransition :=
  {| tr_session := session; tr_notification := None; tr_reason := reason |}.

(** The early returns for a session already known. *)
Definition refused (p : ActivitySession) (e : ActivityEvent) : option TransitionReason :=
  if negb (str_eqb (ss_sessionId p) (ev_sessionId e)) ||
     negb (bool_decide (ss_agent p = ev_agent e)) then Some other_session
  else if bool_decide (ev_eventId e ∈ ss_seenEventIds p) || (ss_sequence p =? ev_sequence e)
       then Some duplicate
  else if (ev_sequence e <? ss_sequence p) || str_ltb (ev_observedAt e) (ss_observedAt p)
       then Some out_of_order
  else None.

Definition nextSessionState (previous : option ActivitySession) (e : ActivityEvent) :
    ActivityTransition :=
  match (let? p := previous in let? r := refused p e in Some (p, r)) with
  | Some (p, reason) => unchanged p reason
  | None =>
      let base := default (fresh_session e) previous in
      if bool_decide (ev_isSidechain e = Some true) then
        unchanged (seen base e) (match previous with None => baseline | Some _ => child end)
      else if negb (is_vanished base e) && bool_decide (is_Some previous) &&
              bool_decide (ss_confidence base = explicit) &&
              bool_decide (ev_confidence e = inferred)
      then unchanged (seen base e) lower_confidence
      else apply_event previous base e
  end.

Definition shouldRetireActivitySession (session : ActivitySession) (now : num) : bool :=
  match (match ss_endedAt session with
         | Some t => Some t
         | None => if bool_decide (ss_state session = idle) then Some (ss_stateChangedAt session)
                   else None
         end) with
  | None => false
  | Some since =>
      is_finite now &&
      (int ACTIVITY_SESSION_RETIREMENT_MS <=# now ⊖ time_num (date_parse since))
  end.

(** ** What leaves the machine *)

Definition opaqueSessionId (agent : ActivityAgent) (sessionId : string) : string :=
  hex_words (sha256 (utf8 (default "" (stringify
    (JArr [JStr "openlimiter.activity.v1"; name agent; JStr sessionId]))))).

Record ActivityUploadRecord := {
  up_sessionId : string;
  up_agent : ActivityAgent;
  up_state : ActivityState;
  up_confidence : ActivityConfidence;
  up_firstObservedAt : string;
  up_observedAt : string;
  up_stateChangedAt : string;
  up_userProjectLabel : option string }.

Definition upload_keys : list string :=
  ["sessionId"; "agent"; "state"; "confidence"; "firstObservedAt"; "observedAt";
   "stateChangedAt"; "userProjectLabel"].

Definition opaque_pattern (s : string) : bool := (str_length s =? 64) && str_forall is_hex s.

Definition isProjectedActivityRecord (v : jsval) (display : bool) : bool :=
  match v with
  | JObj fs =>
      hasOnlyContractKeys fs (upload_keys ++ (if display then ["outcome"] else [])) &&
      match get fs "sessionId" with JStr s => opaque_pattern s | _ => false end &&
      member ActivityAgent (get fs "agent") && member ActivityState (get fs "state") &&
      member ActivityConfidence (get fs "confidence") &&
      isContractInstant (get fs "firstObservedAt") && isContractInstant (get fs "observedAt") &&
      isContractInstant (get fs "stateChangedAt") &&
      match get fs "firstObservedAt", get fs "stateChangedAt", get fs "observedAt" with
      | JStr first, JStr changed, JStr observed =>
          negb (str_ltb changed first || str_ltb observed changed)
      | _, _, _ => false
      end &&
      negb (is_string (get fs "state") "done" && negb (is_string (get fs "confidence") "explicit")) &&
      (is_undef (get fs "userProjectLabel") || identifier (get fs "userProjectLabel")) &&
      (is_undef (get fs "outcome") ||
       display && member ActivityOutcome (get fs "outcome") && negb (is_string (get fs "state") "done"))
  | _ => false
  end.

Definition isActivityUploadRecord (v : jsval) : bool := isProjectedActivityRecord v false.
Definition isActivityDisplayRecord (v : jsval) : bool := isProjectedActivityRecord v true.

(** [None]: the label of the session is no identifier, a [TypeError]. *)
Definition toUploadRecord (session : ActivitySession) : option ActivityUploadRecord :=
  check match ss_userProjectLabel session with
        | None => true
        | Some label => identifier (JStr label)
        end;;
  Some {| up_sessionId := opaqueSessionId (ss_agent session) (ss_sessionId session);
          up_agent := ss_agent session; up_state := ss_state session;
          up_confidence := ss_confidence session;
          up_firstObservedAt := ss_firstObservedAt session;
          up_observedAt := ss_observedAt session;
          up_stateChangedAt := ss_stateChangedAt session;
          up_userProjectLabel := ss_userProjectLabel session |}.

(** A display record is an upload record and an outcome. *)
Definition toDisplayRecord (session : ActivitySession) :
    option (ActivityUploadRecord * option ActivityOutcome) :=
  let? record := toUploadRecord session in Some (record, ss_outcome session).

(** The record as the object that is sent. *)
Definition record_fields (r : ActivityUploadRecord) (outcome : option ActivityOutcome) :
    list (string * jsval) :=
  ([("sessionId", JStr (up_sessionId r)); ("agent", name (up_agent r));
         ("state", name (up_state r)); ("confidence", name (up_confidence r));
         ("firstObservedAt", JStr (up_firstObservedAt r));
         ("observedAt", JStr (up_observedAt r));
         ("stateChangedAt", JStr (up_stateChangedAt r))] ++
        opt "userProjectLabel" JStr (up_userProjectLabel r) ++
        opt "outcome" name outcome)%list.

Definition raw_of_record (r : ActivityUploadRecord) (outcome : option ActivityOutcome) : jsval :=
  JObj (record_fields r outcome).

(** ** Lemmas *)

(** What validation guarantees of a typed event. *)
Record event_ok (e : ActivityEvent) : Prop := {
  eo_instant : isContractInstant (JStr (ev_observedAt e)) = true;
  eo_done : ev_state e = done_ -> ev_confidence e = explicit }.

Definition str_le (a b : string) : Prop := str_ltb b a = false.

Lemma str_le_refl a : str_le a a.
Proof. unfold str_le, str_ltb. by rewrite str_compare_refl. Qed.

Lemma str_le_trans a b c : str_le a b -> str_le b c -> str_le a c.
Proof.
  unfold str_le, str_ltb. intros Hab Hbc.
  assert (str_compare c a <> Lt); [|by destruct (str_compare c a)].
  rewrite str_compare_antisym. intros E.
  assert (Hac : str_compare a c <> Gt).
  { apply str_compare_trans with b; rewrite str_compare_antisym;
      [destruct (str_compare b a)|destruct (str_compare c b)]; done. }
  by destruct (str_compare a c).
Qed.

(** A session a consumer may show and upload. *)
Record session_ok (s : ActivitySession) : Prop := {
  so_first : isContractInstant (JStr (ss_firstObservedAt s)) = true;
  so_observed : isContractInstant (JStr (ss_observedAt s)) = true;
  so_changed : isContractInstant (JStr (ss_stateChangedAt s)) = true;
  so_order1 : str_le (ss_firstObservedAt s) (ss_stateChangedAt s);
  so_order2 : str_le (ss_stateChangedAt s) (ss_observedAt s);
  so_done : ss_state s = done_ -> ss_confidence s = explicit /\ ss_outcome s = None;
  so_waiting : ss_awaitingInput s = true -> ss_state s = waiting }.

Lemma fresh_session_ok e : event_ok e -> session_ok (fresh_session e).
Proof. intros [Hi _]. split; simpl; try done; apply str_le_refl. Qed.

Lemma seen_ok base e :
  session_ok base -> event_ok e -> str_le (ss_observedAt base) (ev_observedAt e) ->
  session_ok (seen base e).
Proof.
  intros [H1 H2 H3 H4 H5 H6 H7] [He _] Hle. split; simpl; try done. by eapply str_le_trans.
Qed.

Lemma settle_done base e v :
  (settle base e v).1 = done_ ->
  v = false /\ ev_confidence e = explicit /\ ev_outcome e = None.
Proof.
  unfold settle.
  destruct v, (bool_decide (ev_signal e = Some user_question)),
    (bool_decide (ev_signal e = Some claude_stop)), (bool_decide (ev_outcome e = None)) eqn:?,
    (bool_decide (ev_confidence e = explicit)) eqn:?, (ev_state e), (ss_awaitingInput base);
    simpl; try done; intros _; bools; done.
Qed.

Lemma settle_waiting base e v : (settle base e v).2 = true -> (settle base e v).1 = waiting.
Proof. unfold settle. simpl. case_match eqn:E; [|done]. intros _. by apply bool_decide_eq_true in E. Qed.

Lemma apply_event_ok previous base e :
  session_ok base -> event_ok e -> str_le (ss_observedAt base) (ev_observedAt e) ->
  session_ok (tr_session (apply_event previous base e)).
Proof.
  intros Hb He Hle. pose proof (seen_ok base e Hb He Hle) as [H1 H2 H3 H4 H5 _ _].
  unfold apply_event. pose proof (settle_done base e (is_vanished base e)) as Hd.
  pose proof (settle_waiting base e (is_vanished base e)) as Hw.
  destruct (settle base e (is_vanished base e)) as [state awaiting]. simpl in *.
  split; simpl; try done.
  - case_match; [done|by apply He].
  - case_match; [done|]. by eapply str_le_trans.
  - case_match; [done|apply str_le_refl].
  - intros E. destruct (Hd E) as (-> & ? & ?). done.
Qed.

Lemma refused_None p e :
  refused p e = None ->
  ss_sessionId p = ev_sessionId e /\ ss_agent p = ev_agent e /\
  (ev_eventId e ∉ ss_seenEventIds p) /\ ss_sequence p < ev_sequence e /\
  str_le (ss_observedAt p) (ev_observedAt e).
Proof.
  unfold refused, str_le. intros E.
  destruct (str_eqb (ss_sessionId p) (ev_sessionId e)) eqn:E1; [|done].
  destruct (bool_decide (ss_agent p = ev_agent e)) eqn:E2; [|done].
  destruct (bool_decide (ev_eventId e ∈ ss_seenEventIds p)) eqn:E3; [done|].
  destruct (ss_sequence p =? ev_sequence e) eqn:E4; [done|].
  destruct (ev_sequence e <? ss_sequence p) eqn:E5; [done|].
  destruct (str_ltb (ev_observedAt e) (ss_observedAt p)) eqn:E6; [done|].
  apply str_eqb_eq in E1. bools. split_and!; try done. lia.
Qed.

(** What one event does to a known or unknown session. *)
Lemma nextSessionState_cases previous e :
  (exists p reason, previous = Some p /\ refused p e = Some reason /\
     nextSessionState previous e = unchanged p reason) \/
  ((forall p, previous = Some p -> refused p e = None) /\
   let base := default (fresh_session e) previous in
   ((exists reason, nextSessionState previous e = unchanged (seen base e) reason) \/
    (nextSessionState previous e = apply_event previous base e /\
     ev_isSidechain e <> Some true))).
Proof.
  unfold nextSessionState. destruct previous as [p|].
  - destruct (refused p e) as [r|] eqn:Er; [left; eauto|]. right. split; [naive_solver|].
    simpl. case_match eqn:Es; [left; eauto|]. apply bool_decide_eq_false in Es.
    case_match; [left; eauto|right; done].
  - right. split; [done|]. simpl. case_match eqn:Es; [left; eauto|].
    apply bool_decide_eq_false in Es. rewrite andb_false_r. simpl. right; done.
Qed.

Definition observe (session : option ActivitySession) (e : ActivityEvent) :
    option ActivitySession := Some (tr_session (nextSessionState session e)).

Lemma nextSessionState_ok previous e :
  from_option session_ok True previous -> event_ok e ->
  session_ok (tr_session (nextSessionState previous e)).
Proof.
  intros Hp He. destruct (nextSessionState_cases previous e) as
    [(p & r & -> & _ & ->)|(Hr & Hcase)]; [done|].
  set (base := default (fresh_session e) previous) in *.
  assert (Hb : session_ok base /\ str_le (ss_observedAt base) (ev_observedAt e)).
  { unfold base. destruct previous as [p|]; simpl.
    - split; [done|]. by destruct (refused_None p e (Hr p eq_refl)) as (_ & _ & _ & _ & ?).
    - split; [by apply fresh_session_ok|apply str_le_refl]. }
  destruct Hb as [Hb Hle]. destruct Hcase as [(r & ->)|[-> _]].
  - by apply seen_ok.
  - by apply apply_event_ok.
Qed.

Lemma observe_all_ok events previous :
  from_option session_ok True previous -> Forall event_ok events ->
  from_option session_ok True (foldl observe previous events).
Proof.
  intros Hp Hall. revert previous Hp. induction Hall as [|e events He _ IH]; simpl; [done|].
  intros previous Hp. apply IH. simpl. by apply nextSessionState_ok.
Qed.

Lemma observe_some e events previous : exists s, foldl observe previous (e :: events) = Some s.
Proof.
  revert previous e. induction events as [|e' events IH]; intros previous e; simpl in *; [|apply IH].
  unfold observe. eauto.
Qed.

Lemma member_name {A} `{ClosedLaws A} (a : A) : member A (name a) = true.
Proof. unfold member, name. by rewrite read_name_of. Qed.

Lemma is_string_name {A} `{Closed A} (a : A) s : is_string (name a) s = str_eqb (name_of a) s.
Proof. done. Qed.

Lemma opaqueSessionId_shape agent sessionId : opaque_pattern (opaqueSessionId agent sessionId) = true.
Proof.
  unfold opaque_pattern, opaqueSessionId.
  destruct (hex_words_shape (sha256 (utf8 (default "" (stringify
    (JArr [JStr "openlimiter.activity.v1"; name agent; JStr sessionId])))))) as [Hl Hf].
  rewrite length_sha256 in Hl. by rewrite Hl, Hf.
Qed.

Definition label_ok (session : ActivitySession) : Prop :=
  from_option (fun label => identifier (JStr label) = true) True (ss_userProjectLabel session).

Lemma projected_valid session r outcome display :
  session_ok session -> toUploadRecord session = Some r ->
  (outcome <> None -> display = true /\ ss_state session <> done_) ->
  isProjectedActivityRecord (raw_of_record r outcome) display = true.
Proof.
  intros [H1 H2 H3 H4 H5 H6 _] Er Ho. unfold toUploadRecord in Er.
  destruct (match ss_userProjectLabel session with None => true | Some label => identifier (JStr label) end)
    eqn:El; [|done]. injection Er as <-.
  unfold raw_of_record. set (fs := record_fields _ outcome).
  assert (Hkeys : hasOnlyContractKeys fs
    (upload_keys ++ (if display then ["outcome"] else [])) = true).
  { unfold fs. destruct outcome as [o|].
    - destruct (Ho ltac:(done)) as [-> _]. destruct (ss_userProjectLabel session); by vm_compute.
    - destruct (ss_userProjectLabel session), display; by vm_compute. }
  unfold isProjectedActivityRecord. rewrite Hkeys.
  change (get fs "sessionId") with (JStr (opaqueSessionId (ss_agent session) (ss_sessionId session))).
  change (get fs "agent") with (name (ss_agent session)).
  change (get fs "state") with (name (ss_state session)).
  change (get fs "confidence") with (name (ss_confidence session)).
  change (get fs "firstObservedAt") with (JStr (ss_firstObservedAt session)).
  change (get fs "observedAt") with (JStr (ss_observedAt session)).
  change (get fs "stateChangedAt") with (JStr (ss_stateChangedAt session)).
  cbv beta iota. rewrite opaqueSessionId_shape, !member_name, H1, H2, H3. unfold str_le in H4, H5.
  rewrite H4, H5, !is_string_name.
  assert (Hlabel : (is_undef (get fs "userProjectLabel") || identifier (get fs "userProjectLabel")) = true).
  { unfold fs. destruct (ss_userProjectLabel session) as [label|], outcome; try done;
      change (get _ "userProjectLabel") with (JStr label); by rewrite El. }
  rewrite Hlabel. cbn [andb orb negb].
  assert (Hout : get fs "outcome" = from_option name JUndef outcome)
    by (unfold fs; by destruct (ss_userProjectLabel session), outcome).
  rewrite Hout. apply andb_true_iff. split.
  - destruct (ss_state session) eqn:Es; try done. destruct (H6 eq_refl) as [-> _]. done.
  - destruct outcome as [o|]; [|done]. simpl. rewrite member_name.
    destruct (Ho ltac:(done)) as [-> Hs]. by destruct (ss_state session).
Qed.

Lemma member_Some A `{ClosedLaws A} v : member A v = true -> exists a : A, v = JStr (name_of a).
Proof. unfold member. destruct (read_name v) as [a|] eqn:E; [|done]. apply read_name_Some in E. eauto. Qed.

Lemma identifier_string v : identifier v = true -> exists s, v = JStr s.
Proof. destruct v; try done. eauto. Qed.

(** Every event the guard lets through has a typed record. *)
Lemma typed_event_ok v now origin :
  isActivityEvent v now origin = true -> exists e, typed_event v = Some e /\ event_ok e.
Proof.
  unfold isActivityEvent, typed_event. destruct v as [| | | | | |fs]; try done. intros G.
  cbn [record_of]. cbv beta iota.
  repeat (apply andb_true_iff in G as [G ?]).
  repeat match goal with
  | Hm : @member _ _ (get fs ?k) = true |- _ =>
      apply (member_Some _) in Hm; destruct Hm as [? Hm]; rewrite Hm, read_name_of
  | Hm : identifier (get fs ?k) = true |- _ =>
      apply identifier_string in Hm; destruct Hm as [? Hm]; rewrite Hm
  end.
  unfold as_safe_int. simpl.
  destruct (get fs "sequence") as [| | |n| | |]; try done. simpl.
  destruct (to_safe_int n) as [k|]; [|done].
  destruct (get fs "observedAt") as [| | | |t| |]; try done. simpl.
  eexists. split; [done|]. split; simpl; [done|]. intros ->.
  match goal with
  | Hs : get fs "state" = _, Hc : get fs "confidence" = JStr (name_of ?c),
    Hd : negb (_ && negb (is_string (get fs "confidence") "explicit")) = true |- _ =>
      rewrite Hs, Hc in Hd; by destruct c
  end.
Qed.

(** The label is a preference of the person: no event touches it. *)
Lemma nextSessionState_label previous e :
  ss_userProjectLabel (tr_session (nextSessionState previous e)) =
  ss_userProjectLabel (default (fresh_session e) previous).
Proof.
  destruct (nextSessionState_cases previous e) as [(p & r & -> & _ & ->)|(_ & [(r & ->)|[-> _]])];
    [done..|]. unfold apply_event. by destruct (settle _ _ _).
Qed.

Lemma observe_label events previous s :
  foldl observe previous events = Some s ->
  from_option (fun p => ss_userProjectLabel s = ss_userProjectLabel p) (ss_userProjectLabel s = None)
    previous.
Proof.
  revert previous. induction events as [|e events IH]; simpl; intros previous E.
  - rewrite E. done.
  - apply IH in E. simpl in E. rewrite nextSessionState_label in E. by destruct previous.
Qed.

Lemma toUploadRecord_total session : label_ok session -> exists r, toUploadRecord session = Some r.
Proof.
  unfold label_ok, toUploadRecord. destruct (ss_userProjectLabel session) as [label|]; simpl; [|eauto].
  intros ->. eauto.
Qed.

(** A history: raw events with the clock and the origin each was judged by. *)
Definition accepted (h : jsval * num * Origin) : Prop := isActivityEvent h.1.1 h.1.2 h.2 = true.

Definition observed_history (history : list (jsval * num * Origin)) : list ActivityEvent :=
  omap (fun h => typed_event h.1.1) history.

Lemma observed_history_ok history :
  Forall accepted history ->
  Forall event_ok (observed_history history) /\ length (observed_history history) = length history.
Proof.
  induction 1 as [|[[v now] origin] history Hv _ [IH1 IH2]]; csimpl; [done|].
  destruct (typed_event_ok v now origin Hv) as (e & -> & He). simpl. split; [by constructor|by f_equal].
Qed.

(** Every history of events the boundary accepts leaves a session whose
    instants are canonical and ordered, whose "done" is explicit and free of
    failure, and whose upload and display records exist and pass the
    validators the receiving side applies to them. *)
Theorem activity_history_projects history previous s :
  Forall accepted history ->
  from_option (fun p => session_ok p /\ label_ok p) True previous ->
  foldl observe previous (observed_history history) = Some s ->
  session_ok s /\
  exists r,
    toUploadRecord s = Some r /\ toDisplayRecord s = Some (r, ss_outcome s) /\
    isActivityUploadRecord (raw_of_record r None) = true /\
    isActivityDisplayRecord (raw_of_record r (ss_outcome s)) = true.
Proof.
  intros Hh Hp E. destruct (observed_history_ok history Hh) as [Hok _].
  assert (Hs : session_ok s).
  { pose proof (observe_all_ok _ previous ltac:(by destruct previous; [apply Hp|]) Hok) as Hs.
    by rewrite E in Hs. }
  assert (Hl : label_ok s).
  { apply observe_label in E. unfold label_ok. destruct previous as [p|]; simpl in E; rewrite E; [|done].
    apply Hp. }
  split; [done|]. destruct (toUploadRecord_total s Hl) as [r Er]. exists r.
  split; [done|]. split; [unfold toDisplayRecord; by rewrite Er|]. split.
  - by apply (projected_valid s r None false).
  - apply (projected_valid s r _ true); [done..|]. intros Ho. split; [done|]. intros Hd.
    by apply Hs in Hd as [_ Hd].
Qed.

(** An event that is not refused is recorded, whatever it says. *)
Lemma next_recorded previous e :
  (forall p, previous = Some p -> refused p e = None) ->
  ss_sequence (tr_session (nextSessionState previous e)) = ev_sequence e /\
  ev_eventId e ∈ ss_seenEventIds (tr_session (nextSessionState previous e)).
Proof.
  intros Hr. destruct (nextSessionState_cases previous e) as
    [(p & r & -> & E & _)|(_ & [(r & ->)|[-> _]])].
  - by rewrite (Hr p eq_refl) in E.
  - simpl. set_solver.
  - unfold apply_event. destruct (settle _ _ _). simpl. set_solver.
Qed.

(** Nothing recorded is ever forgotten. *)
Lemma next_keeps p e :
  ss_sequence p <= ss_sequence (tr_session (nextSessionState (Some p) e)) /\
  ss_seenEventIds p ⊆ ss_seenEventIds (tr_session (nextSessionState (Some p) e)).
Proof.
  destruct (nextSessionState_cases (Some p) e) as [(q & r & [= <-] & E & ->)|(Hr & Hcase)].
  - simpl. split; [lia|set_solver].
  - destruct (refused_None p e (Hr p eq_refl)) as (_ & _ & _ & Hlt & _).
    destruct Hcase as [(r & ->)|[-> _]].
    + simpl. split; [lia|set_solver].
    + unfold apply_event. destruct (settle _ _ _). simpl. split; [lia|set_solver].
Qed.

Lemma observe_keeps events p s :
  foldl observe (Some p) events = Some s ->
  ss_sequence p <= ss_sequence s /\ ss_seenEventIds p ⊆ ss_seenEventIds s.
Proof.
  revert p. induction events as [|e events IH]; simpl; intros p E.
  - injection E as ->. split; [lia|done].
  - apply IH in E. pose proof (next_keeps p e). destruct E, H0. split; [lia|set_solver].
Qed.

(** An event counts once. After a session has taken an event in, and
    whatever it observes next, the same event again, or any event numbered no
    higher, leaves the session exactly as it is and tells the person nothing. *)
Theorem an_event_counts_once previous e events e' s :
  (forall p, previous = Some p -> refused p e = None) ->
  foldl observe previous (e :: events) = Some s ->
  ev_eventId e' = ev_eventId e \/ ev_sequence e' <= ev_sequence e ->
  exists reason,
    nextSessionState (Some s) e' = unchanged s reason /\
    reason ∈ [other_session; duplicate; out_of_order].
Proof.
  intros Hr E Hsame. simpl in E. destruct (next_recorded previous e Hr) as [Hseq Hin].
  apply observe_keeps in E as [Hle Hsub].
  assert (Hno : exists r, refused s e' = Some r /\ r ∈ [other_session; duplicate; out_of_order]).
  { destruct (refused s e') as [r|] eqn:Er.
    - exists r. split; [done|]. unfold refused in Er. repeat case_match; set_solver.
    - apply refused_None in Er as (_ & _ & Hfresh & Hlt & _). destruct Hsame as [Heq|Hlow]; [|lia].
      rewrite Heq in Hfresh. set_solver. }
  destruct Hno as (r & Er & Hmem). exists r. split; [|done]. unfold nextSessionState. by rewrite Er.
Qed.

Definition word_state (n : ActivityNotification) : ActivityState :=
  match n with agent_waiting => waiting | agent_done => done_ end.

(** The person is told exactly when a known session, on an explicit event
    of its own that neither ends it nor reports an outcome, moves to waiting
    or to done from another state. First sights, replays, subagents and
    guesses are silent. *)
Theorem notification_exact previous e n :
  tr_notification (nextSessionState previous e) = Some n <->
  exists p,
    previous = Some p /\ refused p e = None /\ ev_isSidechain e <> Some true /\
    is_vanished p e = false /\ ev_confidence e = explicit /\ ev_outcome e = None /\
    ss_state p <> word_state n /\
    ss_state (tr_session (nextSessionState previous e)) = word_state n.
Proof.
  destruct (nextSessionState_cases previous e) as
    [(p & r & -> & E & ->)|(Hr & [(r & ->)|[-> Hside]])].
  - split; [done|]. intros (q & [= <-] & E' & _). congruence.
  - split; [done|]. intros (p & -> & _ & _ & _ & _ & _ & Hne & Hst). by destruct Hne.
  - unfold apply_event. destruct (settle _ _ _) as [state awaiting] eqn:Es. simpl.
    destruct previous as [p|]; simpl in *; [|split; [done|naive_solver]].
    specialize (Hr p eq_refl).
    destruct (decide (ss_state p = state)) as [Hsame|Hmoved].
    { rewrite (bool_decide_eq_true_2 _ Hsame). simpl. split; [done|].
      intros (q & [= <-] & _ & _ & _ & _ & _ & Hne & Hst). congruence. }
    rewrite (bool_decide_eq_false_2 _ Hmoved). simpl.
    destruct (ev_outcome e) eqn:Eo; simpl; [split; [done|naive_solver]|].
    destruct (is_vanished p e) eqn:Ev; simpl.
    { split; [done|]. intros (q & [= <-] & _ & _ & Hv & _). congruence. }
    destruct (ev_confidence e) eqn:Ec; simpl; [|split; [done|naive_solver]].
    split.
    + intros Hn. exists p. destruct state, n; try discriminate; split_and!; done.
    + intros (q & [= <-] & _ & _ & _ & _ & _ & _ & ->). by destruct n.
Qed.

(** An observation that an agent is still idle. *)
Definition idle_poll (e : ActivityEvent) : Prop :=
  ev_state e = idle /\ ev_outcome e = None /\ ev_process e = None /\
  (ev_signal e = None \/ ev_signal e = Some observation).

Definition resting (since : string) (s : ActivitySession) : Prop :=
  ss_state s = idle /\ ss_endedAt s = None /\ ss_stateChangedAt s = since.

Lemma idle_poll_rests since p e :
  resting since p -> idle_poll e -> resting since (tr_session (nextSessionState (Some p) e)).
Proof.
  intros (Hs & He & Hc) (Es & Eo & Ep & Eg).
  destruct (nextSessionState_cases (Some p) e) as [(q & r & [= <-] & _ & ->)|(_ & [(r & ->)|[-> _]])];
    [by unfold resting; simpl..|].
  assert (Hv : is_vanished p e = false).
  { unfold is_vanished, identity_changed. rewrite Ep. destruct Eg as [-> | ->];
      by destruct (process_pid (ss_process p)). }
  assert (Hset : (settle p e false).1 = idle).
  { unfold settle. rewrite Es, Eo. by destruct Eg as [-> | ->]. }
  unfold apply_event, resting, ended_at. cbn [default from_option id]. rewrite Hv.
  destruct (settle p e false) as [state awaiting]. simpl in *. by rewrite Hset, Eo, Hs.
Qed.

(** Idle polls do not postpone retirement: an idle session observed idle
    any number of times retires at the very instant it would have retired
    with no observation at all. *)
Theorem idle_polls_do_not_postpone_retirement p events s now :
  ss_state p = idle -> ss_endedAt p = None -> Forall idle_poll events ->
  foldl observe (Some p) events = Some s ->
  shouldRetireActivitySession s now = shouldRetireActivitySession p now.
Proof.
  intros Hi He Hall E.
  assert (Hrest : resting (ss_stateChangedAt p) s).
  { assert (Hp : resting (ss_stateChangedAt p) p) by done. revert E Hp.
    generalize (ss_stateChangedAt p). intros since. clear Hi He. revert p.
    induction Hall as [|e events Hidle _ IH]; simpl; intros p E Hp; [by injection E as <-|].
    eapply IH; [done|]. by apply idle_poll_rests. }
  destruct Hrest as (Hs & Hn & Hc). unfold shouldRetireActivitySession. by rewrite Hi, He, Hs, Hn, Hc.
Qed.
End Activity.

(** ** Witnesses *)

Definition sample_raw (id : string) (sequence : Z) (state : string) : jsval :=
  JObj [("version", JNum (int 1)); ("eventId", JStr id); ("sessionId", JStr "s");
        ("sequence", JNum (int sequence)); ("agent", JStr "claude_code");
        ("observedAt", JStr "2026-01-01T00:00:00.000Z"); ("state", JStr state);
        ("source", JStr "hook"); ("confidence", JStr "explicit")].

Definition sample_now : num := int 1767225600000.

Definition sample_history : list (jsval * num * Origin) :=
  [(sample_raw "a" 1 "busy", sample_now, from_hook); (sample_raw "b" 2 "done", sample_now, from_hook)].

Example sample_accepted :
  isActivityEvent (H:=strict_host) (sample_raw "a" 1 "busy") sample_now from_hook = true.
Proof. by vm_compute. Qed.

Lemma activity_history_projects_witness :
  exists s r, Forall (accepted (H:=strict_host)) sample_history /\
    foldl observe None (observed_history sample_history) = Some s /\
    toUploadRecord s = Some r /\
    isActivityUploadRecord (H:=strict_host) (raw_of_record r None) = true.
Proof.
  assert (Hh : Forall (accepted (H:=strict_host)) sample_history)
    by (repeat constructor; by vm_compute).
  destruct (observed_history_ok _ Hh) as [_ Hlen].
  destruct (observed_history sample_history) as [|e events] eqn:Eh; [discriminate Hlen|].
  destruct (observe_some e events None) as [s E]. rewrite <- Eh in E.
  destruct (activity_history_projects (H:=strict_host) sample_history None s Hh I E)
    as (_ & r & Er & _ & Hup & _).
  rewrite <- Eh. exists s, r. exact (conj Hh (conj E (conj Er Hup))).
Defined.

Definition sample_event (id : string) (sequence : Z) (state : ActivityState) : ActivityEvent :=
  {| ev_eventId := id; ev_sessionId := "s"; ev_sequence := sequence; ev_agent := claude_code;
     ev_accountAlias := None; ev_observedAt := "2026-01-01T00:00:00.000Z"; ev_state := state;
     ev_outcome := None; ev_source := hook; ev_confidence := explicit; ev_process := None;
     ev_signal := None; ev_parentSessionId := None; ev_isSidechain := None |}.

Lemma an_event_counts_once_witness :
  exists s reason,
    foldl observe None [sample_event "a" 1 busy; sample_event "b" 2 done_] = Some s /\
    nextSessionState (Some s) (sample_event "a" 1 busy) = unchanged s reason.
Proof.
  destruct (foldl observe None [sample_event "a" 1 busy; sample_event "b" 2 done_]) as [s|] eqn:E;
    [|done].
  destruct (an_event_counts_once None (sample_event "a" 1 busy) [sample_event "b" 2 done_]
    (sample_event "a" 1 busy) s ltac:(by intros p [=]) E (or_introl eq_refl)) as (reason & Hr & _).
  exists s, reason. by split.
Defined.

Lemma idle_polls_do_not_postpone_retirement_witness :
  exists p s,
    foldl observe (Some p) [sample_event "b" 2 idle; sample_event "c" 3 idle] = Some s /\
    shouldRetireActivitySession (H:=strict_host) s (int 1767312000000) = true.
Proof.
  pose (p := tr_session (nextSessionState None (sample_event "a" 1 idle))).
  destruct (observe_some (sample_event "b" 2 idle) [sample_event "c" 3 idle] (Some p)) as [s E].
  assert (Hpoll : Forall idle_poll [sample_event "b" 2 idle; sample_event "c" 3 idle])
    by (repeat constructor).
  exists p, s. split; [exact E|].
  rewrite (idle_polls_do_not_postpone_retirement (H:=strict_host) p
    [sample_event "b" 2 idle; sample_event "c" 3 idle] s (int 1767312000000) eq_refl eq_refl Hpoll E).
  by vm_compute.
Defined.
