(* ===== verification/Files.v ===== *)
(** * Documents on disk

    [readJsonFileSafely] returns the parsed value of a state document, or why
    there is none; a writer replaces the whole document atomically with the
    canonical text of a value. The model keeps the value: [ReadBack] shows that
    parsing what was printed yields the printed value, with its keys in
    canonical order. *)
From S2P Require Import Prelude JsNum JsDate JsValue.
Local Open Scope Z_scope.
Local Open Scope js_scope.

(** What [readJsonFileSafely] returns. *)
Inductive JsonFile := missing | corrupt | unsafe | present (value : jsval).

(** [writeFileAtomically(file, canonicalJson(value))] *)
Definition write_json (value : jsval) : JsonFile := present (sortDeep value).

(** [value === n] for a small whole number. *)
Definition is_number (v : jsval) (n : Z) : bool :=
  match v with JNum x => x ==# int n | _ => false end.

(** [new Date(t).toISOString()]: [None] when it throws. *)
Definition iso_string (t : option Z) : option string :=
  let? t := t in check valid_time t;; Some (to_iso t).

Lemma is_number_int n : is_number (JNum (int n)) n = true.
Proof. unfold is_number. rewrite int_eq. apply Z.eqb_refl. Qed.
