(* ===== verification/Store.v ===== *)
(** * The snapshot cache on disk

    [cache.ts]: the two documents that hold readings, how a surface and a
    writer read them, and every transaction that replaces them. Each mutation
    runs under the cache lock, so a history of all processes is a sequence of
    the functions below; a mutation that throws leaves its document alone.
    The lock directory, the atomic rename and the symbolic link checks are the
    file system's; [canonicalJson(a) === canonicalJson(b)] is decided on the
    values the texts print. *)
From S2P Require Import Prelude JsNum JsDate JsValue Types Normalizer DataRules Merge Collection Files.
Local Open Scope string_scope.
Local Open Scope Z_scope.
Local Open Scope list_scope.
Local Open Scope js_scope.

#[export] Instance CacheState_eq : EqDecision CacheState. Proof. solve_decision. Defined.

Definition CACHE_DOCUMENT_VERSION : Z := 3.

Inductive CacheFailure := cf_missing | cf_corrupt | cf_unsafe.

(** The cache document, the authoritative document, the request switch. *)
Record Store := {
  so_main : JsonFile; so_authoritative : JsonFile; so_claudePoll : JsonFile }.

Definition empty_state : CacheState := {| st_snapshots := []; st_suppressions := [] |}.

Definition as_array (v : jsval) : option (list jsval) :=
  match v with JArr l => Some l | _ => None end.

(** [readClaudePoll]: the switch, off unless the document says otherwise. *)
Definition readClaudePoll (file : JsonFile) : bool :=
  match file with
  | present (JObj fs) =>
      is_number (get fs "version") 1 &&
      match get fs "enabled" with JBool true => true | _ => false end
  | _ => false
  end.

(** ** Reading *)

Definition ambiguous_meter (version raw : jsval) : bool :=
  match raw with
  | JObj fs =>
      is_number version 2 && is_string (get fs "provider") "ANTIGRAVITY" ||
      is_string (get fs "provider") "OPENROUTER" && is_string (get fs "meter") "CREDITS"
  | _ => false
  end.

Definition migrateLegacyMeterIdentities (snapshots : list jsval) (version : jsval) : list jsval :=
  if is_number version CACHE_DOCUMENT_VERSION then snapshots
  else filter (fun raw => ambiguous_meter version raw = false) snapshots.

Definition known_version (version : jsval) : bool :=
  is_undef version || is_number version 1 || is_number version 2 ||
  is_number version CACHE_DOCUMENT_VERSION.

(** The guards both readers share: the rows, the version, the suppressions. *)
Definition open_document (v : jsval) : option (list jsval * jsval * jsval) :=
  let? fs := record_of v in
  let? rawSnapshots := as_array (get fs "snapshots") in
  check (length rawSnapshots <=? MAX_CACHE_ENTRIES)%nat;;
  check known_version (get fs "version");;
  Some (rawSnapshots, get fs "version", get fs "suppressions").

(** The rows of the authoritative document, when it holds a list. *)
Definition authoritative_list (v : jsval) : option (list jsval) :=
  let? fs := record_of v in as_array (get fs "snapshots").

Record CacheRead := {
  rd_snapshots : list Snapshot;
  rd_dropped : Z;
  rd_suppressed : Z;
  rd_suppressions : list CacheSuppression }.

Section Store.
Context `{DateHost}.

Definition authoritative_rows (file : JsonFile) (pollOn : bool) : list Snapshot :=
  match file with
  | present v =>
      match authoritative_list v with
      | Some raws =>
          if (length raws <=? MAX_CACHE_ENTRIES)%nat
          then filter (fun row => claudeRowCounts row pollOn = true) (normalizeMeters raws)
          else []
      | None => []
      end
  | _ => []
  end.

(** The main document, with the newest observation of each identity across
    the two files and no suppressed row. *)
Definition read_main (v : jsval) (authoritative : JsonFile) (pollOn : bool) :
    CacheFailure + CacheRead :=
  match open_document v with
  | None => inl cf_corrupt
  | Some (rawSnapshots, version, suppressions) =>
      let mainValidated := normalizeMeters (migrateLegacyMeterIdentities rawSnapshots version) in
      let authoritativeRows := authoritative_rows authoritative pollOn in
      let mainCounted := filter (fun row => claudeRowCounts row pollOn = true) mainValidated in
      let validated :=
        match authoritativeRows with
        | [] => mainCounted
        | _ => mergeSnapshots mainCounted authoritativeRows MAX_CACHE_ENTRIES
        end in
      let dropped := Z.of_nat (length rawSnapshots) - Z.of_nat (length mainValidated) in
      match readSuppressions suppressions with
      | None =>
          inr {| rd_snapshots := []; rd_dropped := dropped;
                 rd_suppressed := Z.of_nat (length validated); rd_suppressions := [] |}
      | Some read =>
          let snapshots := visibleSnapshots
            {| st_snapshots := validated;
               st_suppressions := filter (fun s => sp_provider s <> CLAUDE) read |} in
          inr {| rd_snapshots := snapshots; rd_dropped := dropped;
                 rd_suppressed := Z.of_nat (length validated) - Z.of_nat (length snapshots);
                 rd_suppressions := read |}
      end
  end.

(** Nothing in the main document: the authoritative rows alone. *)
Definition read_authoritative (v : jsval) (pollOn : bool) : CacheFailure + CacheRead :=
  match authoritative_list v with
  | None => inl cf_corrupt
  | Some raws =>
      let snapshots := normalizeMeters raws in
      inr {| rd_snapshots :=
               filter (fun row => claudeRowCounts row pollOn = true)
                 (filter (fun row => isSnapshotDisplayEligible row = true) snapshots);
             rd_dropped := Z.of_nat (length raws) - Z.of_nat (length snapshots);
             rd_suppressed := 0; rd_suppressions := [] |}
  end.

Definition readSnapshotCache (store : Store) (selected : option bool) : CacheFailure + CacheRead :=
  let pollOn := default (readClaudePoll (so_claudePoll store)) selected in
  match so_main store, so_authoritative store with
  | corrupt, _ => inl cf_corrupt
  | unsafe, _ => inl cf_unsafe
  | missing, missing => inl cf_missing
  | missing, corrupt => inl cf_corrupt
  | missing, unsafe => inl cf_unsafe
  | missing, present a => read_authoritative a pollOn
  | present _, corrupt => inl cf_corrupt
  | present _, unsafe => inl cf_unsafe
  | present v, authoritative => read_main v authoritative pollOn
  end.

(** The document as stored, for a writer. *)
Definition readCacheState (file : JsonFile) : CacheFailure + CacheState :=
  match file with
  | missing => inl cf_missing
  | corrupt => inl cf_corrupt
  | unsafe => inl cf_unsafe
  | present v =>
      match (let? opened := open_document v in
             let? read := readSuppressions opened.2 in
             Some {| st_snapshots := normalizeMeters (migrateLegacyMeterIdentities opened.1.1 opened.1.2);
                     st_suppressions := read |}) with
      | Some state => inr state
      | None => inl cf_corrupt
      end
  end.

(** [cached.ok ? cached.state : { snapshots: [], suppressions: [] }] *)
Definition stored_state (file : JsonFile) : CacheState :=
  match readCacheState file with inr state => state | inl _ => empty_state end.

(** ** Writing *)

(** [rejectOutOfBounds]: whether the rows are let through. *)
Definition in_bounds (snapshots : list Snapshot) : bool :=
  (length snapshots <=? MAX_CACHE_ENTRIES)%nat &&
  forallb (fun s => bool_decide (is_Some (normalizeMeter (raw_of_snapshot s)))) snapshots.

Definition cache_document (snapshots : list Snapshot) (suppressions : list CacheSuppression) : jsval :=
  JObj ([("snapshots", JArr (raw_of_snapshot <$> snapshots))] ++
        match suppressions with
        | [] => []
        | _ => [("suppressions", JArr (raw_of_suppression <$> suppressions))]
        end ++ [("version", JNum (int CACHE_DOCUMENT_VERSION))]).

Definition replaceCache (snapshots : list Snapshot) (suppressions : list CacheSuppression) : JsonFile :=
  write_json (cache_document snapshots suppressions).

Definition writeSnapshotCache (snapshots : list Snapshot) : option JsonFile :=
  check in_bounds snapshots;; Some (replaceCache snapshots []).

(** [retainSnapshots(rows, instant)], an unread instant retaining nothing. *)
Definition retain_since (rows : list Snapshot) (instant : option Z) : list Snapshot :=
  match instant with Some t => retainSnapshots rows t | None => [] end.

(** A mutation of the main document: the document it leaves, and whether it
    wrote; [None] when it throws. *)
Definition mergeSnapshotCache (file : JsonFile) (incoming : list Snapshot) (now : Z) :
    option (JsonFile * bool) :=
  check in_bounds incoming;;
  let state := stored_state file in
  let merged := retainSnapshots (mergeSnapshots (st_snapshots state) incoming MAX_CACHE_ENTRIES) now in
  if bool_decide (merged = st_snapshots state) then Some (file, false)
  else check in_bounds merged;; Some (replaceCache merged (st_suppressions state), true).

Definition applyCollectionReportToCache (file : JsonFile) (report : CollectionReport) :
    option (JsonFile * bool) :=
  check match rp_outcome report with Collected snapshots => in_bounds snapshots | _ => true end;;
  let before := stored_state file in
  let after := applyCollectionReport before report in
  if bool_decide (after = before) then Some (file, false)
  else check in_bounds (st_snapshots after);;
       Some (replaceCache (st_snapshots after) (st_suppressions after), true).

Definition pruneSnapshotCache (file : JsonFile) (now : Z) : JsonFile * Z :=
  match readCacheState file with
  | inl _ => (file, 0)
  | inr state =>
      let snapshots := retainSnapshots (st_snapshots state) now in
      let count := Z.of_nat (length (st_snapshots state)) - Z.of_nat (length snapshots) in
      (if count =? 0 then file else replaceCache snapshots (st_suppressions state), count)
  end.

(** [withPolicyFreshness]: an automatic reading expires by the shared policy. *)
Definition withPolicyFreshness (snapshot : Snapshot) : option Snapshot :=
  match s_source snapshot with
  | native_payload | documented_api | internal_payload =>
      let? policy := freshnessPolicy snapshot (s_observedAt snapshot) in
      Some (with_expiresAt (fp_expiresAt policy) snapshot)
  | _ => Some snapshot
  end.

(** *** The flag of a failed read *)

(** [freshnessPolicy({ sourceClass: "internal_payload", observedAt: now, now })]:
    no provider and no writer, so the ordinary interval; [None] when it throws. *)
Definition seed_expiresAt (now : string) : option string :=
  let deadline := time_num (date_parse now) ⊕ (int 900 ⊗ lit 12 10 ⊕ int 60) ⊗ int 1000 in
  if is_finite deadline then to_iso <$> time_clip deadline else Some now.

Definition seed_labels : ConnectorLabels :=
  {| lb_credentialOrigin := official_local_tool; lb_dataInterfaceStatus := internal_endpoint;
     lb_automationRisk := risk_high; lb_verification := UNVERIFIED; lb_verificationEvidence := None |}.

Definition seed (provider : ProviderCode) (accountId : option string) (now expiresAt : string) :
    Snapshot :=
  {| s_provider := provider; s_meter := "ACQUISITION"; s_value := int 0; s_unit := PERCENT;
     s_window := {| w_kind := w_unknown; w_durationSeconds := None |}; s_resetAt := None;
     s_source := internal_payload; s_precision := p_exact; s_observedAt := now;
     s_expiresAt := expiresAt; s_labels := seed_labels; s_usedAmount := None;
     s_limitAmount := None; s_currency := None; s_accountId := accountId; s_accountLabel := None;
     s_provenance := None; s_writer := Some cli; s_kind := Some runtime_info;
     s_availability := None; s_retryAt := None |}.

(** The empty account is no account. *)
Definition truthy (s : option string) : option string :=
  match s with Some EmptyString => None | _ => s end.

Definition flag_matches (provider : ProviderCode) (accountId : option string) (row : Snapshot) : bool :=
  bool_decide (s_provider row = provider) && bool_decide (s_accountId row = accountId) &&
  (negb (bool_decide (provider = CLAUDE)) || str_eqb (s_meter row) "ACQUISITION").

(** The rows a flag leaves: [None] when printing the seed's deadline throws,
    [Some None] when a later observation of the account stands. *)
Definition flagged_rows (stored : list Snapshot) (provider : ProviderCode)
    (availability : SnapshotAvailability) (now : string) (retryAt accountId : option string) :
    option (option (list Snapshot)) :=
  let rows := retain_since stored (date_parse now) in
  let matching := filter (fun row => flag_matches provider accountId row = true) rows in
  if existsb (fun row => str_ltb now (s_observedAt row)) matching then Some None
  else
    let? expiresAt := seed_expiresAt now in
    let flagged :=
      match matching with [] => [seed provider (truthy accountId) now expiresAt] | _ => matching end in
    let retry := if bool_decide (availability = rate_limited) then truthy retryAt else None in
    Some (Some
      (filter (fun row => flag_matches provider accountId row = false) rows ++
       map (with_availability availability retry) flagged)).

Definition recordAcquisitionAvailability (file : JsonFile) (provider : ProviderCode)
    (availability : SnapshotAvailability) (now : string) (retryAt accountId : option string) :
    option JsonFile :=
  let? state :=
    match readCacheState file with
    | inr state => Some state
    | inl cf_missing => Some empty_state
    | inl _ => None
    end in
  let? flagged := flagged_rows (st_snapshots state) provider availability now retryAt accountId in
  Some match flagged with
       | None => file
       | Some rows => replaceCache rows (st_suppressions state)
       end.

(** *** The authoritative document *)

Record WeeklySet := {
  ws_provider : ProviderCode; ws_accountId : option string; ws_observedAt : string }.

(** A weekly of the account that a whole read no longer reports. *)
Definition withdrawn (weeklySet : option WeeklySet) (reported : list string) (row : Snapshot) : bool :=
  match weeklySet with
  | None => false
  | Some w =>
      bool_decide (s_provider row = ws_provider w) && bool_decide (s_accountId row = ws_accountId w) &&
      starts_with "SEVEN_DAY" (s_meter row) && negb (bool_decide (snapshotIdentity row ∈ reported)) &&
      (date_parse (s_observedAt row) <=t date_parse (ws_observedAt w))
  end.

Definition by_identity (rows : list Snapshot) : list (string * Snapshot) :=
  foldl (fun m row => assoc_set (snapshotIdentity row) row m) [] rows.

Definition add_reported (m : list (string * Snapshot)) (row : Snapshot) : list (string * Snapshot) :=
  match assoc_get (snapshotIdentity row) m with
  | None => assoc_set (snapshotIdentity row) row m
  | Some previous =>
      if date_parse (s_observedAt previous) <=t date_parse (s_observedAt row)
      then assoc_set (snapshotIdentity row) row m else m
  end.

(** The latest readable observation, from the epoch on. *)
Definition latest_observed (rows : list Snapshot) : Z :=
  foldl Z.max 0 (omap (fun row => date_parse (s_observedAt row)) rows).

(** [retentionNow]: the instant the rows are retained at. *)
Definition retention_now (incoming : list Snapshot) (now : option string) : option Z :=
  match now with None => Some (latest_observed incoming) | Some now => date_parse now end.

(** The document and the rows it holds; [None] when it throws. *)
Definition mergeAuthoritativeSnapshotCache (file : JsonFile) (incoming : list Snapshot)
    (now : option string) (weeklySet : option WeeklySet) : option (JsonFile * list Snapshot) :=
  check in_bounds incoming;;
  let reported := snapshotIdentity <$> incoming in
  let existing := filter (fun row => withdrawn weeklySet reported row = false)
    (st_snapshots (stored_state file)) in
  let byIdentity := foldl add_reported (by_identity existing) incoming in
  let rows := retain_since (byIdentity.*2) (retention_now incoming now) in
  check in_bounds rows;;
  Some (replaceCache rows [], rows).

(** *** An acquired report *)

Record AcquiredReport := {
  ar_provider : ProviderCode;
  ar_accountId : option string;
  ar_observedAt : string;
  ar_snapshots : list Snapshot;
  ar_complete : bool }.

Definition report_of (r : AcquiredReport) : CollectionReport :=
  {| rp_provider := ar_provider r; rp_accountId := ar_accountId r;
     rp_observedAt := ar_observedAt r; rp_outcome := Collected (ar_snapshots r) |}.

Record AcquiredMerge := { am_file : JsonFile; am_written : bool; am_taken : nat; am_deferred : nat }.

(** The failure flag this very read clears. *)
Definition cleared_flag (report : AcquiredReport) (row : Snapshot) : bool :=
  bool_decide (s_provider row = ar_provider report) &&
  bool_decide (s_accountId row = ar_accountId report) && str_eqb (s_meter row) "ACQUISITION" &&
  negb (bool_decide (s_availability row = None)) &&
  negb (str_ltb (ar_observedAt report) (s_observedAt row)).

(** An incoming row loses to a held one at least as recent. *)
Definition loses (held : list (string * Snapshot)) (incoming : Snapshot) : bool :=
  match assoc_get (snapshotIdentity incoming) held with
  | None => false
  | Some existing => date_parse (s_observedAt incoming) <=t date_parse (s_observedAt existing)
  end.

(** A row of the account that a Claude poll replaces. *)
Definition poll_replaced (report : AcquiredReport) (row : Snapshot) : bool :=
  snapshotBelongsTo row CLAUDE (ar_accountId report) &&
  (str_eqb (s_meter row) "ACQUISITION" || provenance_is remote_api row) &&
  (date_parse (s_observedAt row) <=t date_parse (ar_observedAt report)) &&
  negb (bool_decide (snapshotIdentity row ∈ snapshotIdentity <$> ar_snapshots report)).

Definition poll_cleared (report : AcquiredReport) (entry : CacheSuppression) : bool :=
  bool_decide (sp_provider entry = CLAUDE) && bool_decide (sp_accountId entry = ar_accountId report) &&
  (date_parse (sp_suppressedAt entry) <t date_parse (ar_observedAt report)).

(** A row of the identity that another tool wrote and this round says
    nothing about. *)
Definition is_foreign (report : AcquiredReport) (row : Snapshot) : bool :=
  snapshotBelongsTo row (ar_provider report) (ar_accountId report) &&
  negb (bool_decide (s_writer row = Some cli)) &&
  negb (bool_decide (snapshotIdentity row ∈ snapshotIdentity <$> ar_snapshots report)).

(** The state the transaction writes, and the state it compares with. *)
Definition acquired_state (stored : CacheState) (report : AcquiredReport) : CacheState :=
  let before := filter (fun row => cleared_flag report row = false) (st_snapshots stored) in
  let held := by_identity before in
  let taken := filter (fun row => loses held row = false) (ar_snapshots report) in
  if bool_decide (ar_provider report = CLAUDE) then
    {| st_snapshots :=
         retain_since
           (mergeSnapshots (filter (fun row => poll_replaced report row = false) (st_snapshots stored))
              taken MAX_CACHE_ENTRIES)
           (date_parse (ar_observedAt report));
       st_suppressions := filter (fun entry => poll_cleared report entry = false) (st_suppressions stored) |}
  else if negb (existsb (loses held) (ar_snapshots report)) && negb (existsb (is_foreign report) before) then
    applyCollectionReport {| st_snapshots := before; st_suppressions := st_suppressions stored |}
      (report_of report)
  else
    {| st_snapshots :=
         retain_since (mergeSnapshots before taken MAX_CACHE_ENTRIES) (date_parse (ar_observedAt report));
       st_suppressions := st_suppressions stored |}.

Definition mergeAcquiredSnapshots (file : JsonFile) (report : AcquiredReport) : option AcquiredMerge :=
  check in_bounds (ar_snapshots report);;
  let stored := stored_state file in
  let held := by_identity
    (filter (fun row => cleared_flag report row = false) (st_snapshots stored)) in
  let deferred := length (filter (fun row => loses held row = true) (ar_snapshots report)) in
  let taken := length (filter (fun row => loses held row = false) (ar_snapshots report)) in
  let after := acquired_state stored report in
  if bool_decide (after = stored) then
    Some {| am_file := file; am_written := false; am_taken := taken; am_deferred := deferred |}
  else
    check in_bounds (st_snapshots after);;
    Some {| am_file := replaceCache (st_snapshots after) (st_suppressions after);
            am_written := true; am_taken := taken; am_deferred := deferred |}.

(** The session and weeklies of a Claude poll. *)
Definition is_poll_row (row : Snapshot) : bool :=
  bool_decide (s_provider row = CLAUDE) &&
  (str_eqb (s_meter row) "FIVE_HOUR" || starts_with "SEVEN_DAY" (s_meter row)).

(** Two transactions; the first stands when the second throws. *)
Definition persistAcquiredReport (store : Store) (report : AcquiredReport) (now : string) :
    Store * bool :=
  let pollRows := filter (fun row => is_poll_row row = true) (ar_snapshots report) in
  let rest :=
    {| ar_provider := ar_provider report; ar_accountId := ar_accountId report;
       ar_observedAt := ar_observedAt report;
       ar_snapshots := filter (fun row => is_poll_row row = false) (ar_snapshots report);
       ar_complete := ar_complete report |} in
  let first :=
    if bool_decide (ar_provider report = CLAUDE) then
      fst <$> mergeAuthoritativeSnapshotCache (so_authoritative store) pollRows (Some now)
        (if ar_complete report
         then Some {| ws_provider := CLAUDE; ws_accountId := ar_accountId report;
                      ws_observedAt := ar_observedAt report |}
         else None)
    else Some (so_authoritative store) in
  match first with
  | None => (store, false)
  | Some authoritative =>
      match mergeAcquiredSnapshots (so_main store) rest with
      | None =>
          ({| so_main := so_main store; so_authoritative := authoritative;
              so_claudePoll := so_claudePoll store |}, false)
      | Some m =>
          ({| so_main := am_file m; so_authoritative := authoritative;
              so_claudePoll := so_claudePoll store |}, true)
      end
  end.
End Store.

(** ** Reading back what was written *)

Lemma raw_of_suppression_unique s : unique_keys (raw_of_suppression s).
Proof.
  destruct s as [p [a|] t]; (split; [by apply (bool_decide_unpack _)|by repeat split]).
Qed.

Section Laws.
Context `{DateHost}.

Lemma readSuppression_sortDeep v :
  unique_keys v -> readSuppression (sortDeep v) = readSuppression v.
Proof.
  intros Hv. unfold readSuppression. rewrite record_of_sortDeep.
  destruct (record_of v) as [fs|] eqn:E; simpl; [|done].
  pose proof (unique_keys_record _ _ Hv E) as Hn. rewrite !get_sort_fields by done.
  unfold is_drift. autorewrite with js_rw.
  assert (is_string (sortDeep (get fs "reason")) (name_of cr_drift) =
          is_string (get fs "reason") (name_of cr_drift)) as -> by (by destruct (get fs "reason")).
  by destruct (get fs "accountId").
Qed.

Lemma normalizeMeters_written rows :
  normalizeMeters (map sortDeep (raw_of_snapshot <$> rows)) =
  omap (fun s => normalizeMeter (raw_of_snapshot s)) rows.
Proof.
  unfold normalizeMeters. induction rows as [|s rows IH]; [done|].
  cbn [map fmap list_fmap omap list_omap].
  rewrite normalizeMeter_sortDeep by apply raw_of_snapshot_unique.
  by destruct (normalizeMeter (raw_of_snapshot s)); rewrite IH.
Qed.

Lemma restored_id rows :
  Forall well_formed rows -> omap (fun s => normalizeMeter (raw_of_snapshot s)) rows = rows.
Proof.
  induction 1 as [|s rows Hs _ IH]; [done|]. cbn [omap list_omap].
  by rewrite normalizeMeter_raw, IH.
Qed.

Lemma readSuppressions_written sups :
  Forall suppression_ok sups -> (length sups <= MAX_CACHE_SUPPRESSIONS)%nat ->
  readSuppressions (JArr (map sortDeep (raw_of_suppression <$> sups))) = Some sups.
Proof.
  intros Hall Hl. unfold readSuppressions. rewrite length_map, length_fmap.
  rewrite (proj2 (Nat.leb_le _ _) Hl). apply mapM_Some. clear Hl.
  induction Hall as [|s sups Hs _ IH]; [constructor|]. cbn [map fmap list_fmap].
  constructor; [|exact IH].
  rewrite readSuppression_sortDeep by apply raw_of_suppression_unique.
  by apply readSuppression_raw.
Qed.

Definition suppressions_field (sups : list CacheSuppression) : jsval :=
  match sups with [] => JUndef | _ => JArr (map sortDeep (raw_of_suppression <$> sups)) end.

Lemma cache_document_opens rows sups :
  open_document (sortDeep (cache_document rows sups)) =
  (check (length rows <=? MAX_CACHE_ENTRIES)%nat;;
   Some (map sortDeep (raw_of_snapshot <$> rows), JNum (int 3), suppressions_field sups)).
Proof.
  unfold open_document. rewrite record_of_sortDeep.
  assert (Hf : exists fs, cache_document rows sups = JObj fs /\ NoDup fs.*1 /\
    get fs "snapshots" = JArr (raw_of_snapshot <$> rows) /\
    get fs "version" = JNum (int CACHE_DOCUMENT_VERSION) /\
    sortDeep (get fs "suppressions") = suppressions_field sups).
  { eexists. split; [reflexivity|].
    destruct sups as [|s sups]; (split; [apply (bool_decide_unpack _); reflexivity|split_and!; reflexivity]). }
  destruct Hf as (fs & -> & Hn & Es & Ev & Ep). cbn [record_of fmap option_fmap option_map].
  rewrite !get_sort_fields, Es, Ev, Ep by done. cbn [sortDeep as_array].
  rewrite length_map, length_fmap. destruct (_ <=? _)%nat; [|done].
  unfold known_version, CACHE_DOCUMENT_VERSION. by rewrite !is_number_int, !orb_true_r.
Qed.

Definition suppressions_ok (sups : list CacheSuppression) : Prop :=
  Forall suppression_ok sups /\ (length sups <= MAX_CACHE_SUPPRESSIONS)%nat.

Lemma suppressions_field_read sups :
  suppressions_ok sups -> readSuppressions (suppressions_field sups) = Some sups.
Proof. intros [Hs Hl]. destruct sups; [done|]. by apply readSuppressions_written. Qed.

(** What a written document reads as: the rows as normalised, unless there
    are too many of them. *)
Lemma replaceCache_read rows sups :
  suppressions_ok sups ->
  readCacheState (replaceCache rows sups) =
  if (length rows <=? MAX_CACHE_ENTRIES)%nat
  then inr {| st_snapshots := omap (fun s => normalizeMeter (raw_of_snapshot s)) rows;
              st_suppressions := sups |}
  else inl cf_corrupt.
Proof.
  intros Hs. unfold readCacheState, replaceCache, write_json. rewrite cache_document_opens.
  destruct (_ <=? _)%nat; [|done]. cbn [fst snd]. rewrite (suppressions_field_read _ Hs).
  unfold migrateLegacyMeterIdentities, CACHE_DOCUMENT_VERSION.
  by rewrite is_number_int, normalizeMeters_written.
Qed.

(** A stored state: rows and suppressions valid, within their bounds. *)
Record state_ok (state : CacheState) : Prop := {
  so_rows : Forall well_formed (st_snapshots state);
  so_rows_bound : (length (st_snapshots state) <= MAX_CACHE_ENTRIES)%nat;
  so_sups : suppressions_ok (st_suppressions state) }.

Lemma replaceCache_readable state :
  state_ok state ->
  readCacheState (replaceCache (st_snapshots state) (st_suppressions state)) = inr state.
Proof.
  intros [Hr Hb Hs]. rewrite replaceCache_read by done.
  rewrite (proj2 (Nat.leb_le _ _) Hb), restored_id by done. by destruct state.
Qed.

Lemma in_bounds_wf rows :
  Forall well_formed rows -> in_bounds rows = (length rows <=? MAX_CACHE_ENTRIES)%nat.
Proof.
  intros Hall. unfold in_bounds. rewrite (proj2 (forallb_forall _ rows)); [by rewrite andb_true_r|].
  intros s Hs%list_elem_of_In. apply bool_decide_eq_true.
  eapply Forall_forall in Hall; [|exact Hs]. rewrite normalizeMeter_raw by done. by eexists.
Qed.

Lemma normalizeMeters_wf raws : Forall well_formed (normalizeMeters raws).
Proof.
  apply Forall_forall. intros s (raw & _ & Hn)%list_elem_of_omap. by eapply normalizeMeter_wf.
Qed.

Lemma normalizeMeters_length raws : (length (normalizeMeters raws) <= length raws)%nat.
Proof.
  unfold normalizeMeters. induction raws as [|raw raws IH]; [done|]. cbn [omap list_omap].
  destruct (normalizeMeter raw); cbn [length]; lia.
Qed.

Lemma migrate_length raws version :
  (length (migrateLegacyMeterIdentities raws version) <= length raws)%nat.
Proof.
  unfold migrateLegacyMeterIdentities. case_match; [done|]. apply length_filter.
Qed.

Lemma readSuppressions_ok v read : readSuppressions v = Some read -> suppressions_ok read.
Proof.
  unfold readSuppressions. intros E.
  destruct v as [| | | | |l|]; try done; try (injection E as <-; split; [constructor|simpl; lia]).
  destruct (Nat.leb_spec (length l) MAX_CACHE_SUPPRESSIONS) as [Hle|]; [|done].
  apply mapM_Some in E. pose proof (Forall2_length _ _ _ E). split; [|lia].
  eapply Forall2_Forall_r; [exact E|]. apply Forall_forall. intros entry _ s. apply readSuppression_ok.
Qed.

Lemma readCacheState_ok file state : readCacheState file = inr state -> state_ok state.
Proof.
  destruct file as [| | |v]; try done. unfold readCacheState.
  destruct (open_document v) as [[[raws version] sups]|] eqn:Eo; [|done]. cbn [fst snd].
  destruct (readSuppressions sups) as [read|] eqn:Er; [|done].
  intros E. injection E as <-. unfold open_document in Eo.
  destruct (record_of v); [|done]. destruct (as_array _); [|done].
  destruct (Nat.leb_spec (length l0) MAX_CACHE_ENTRIES); [|done].
  destruct (known_version _); [|done]. injection Eo as <- <- <-.
  split; cbn [st_snapshots st_suppressions];
    [apply normalizeMeters_wf| |by eapply readSuppressions_ok].
  etransitivity; [apply normalizeMeters_length|]. etransitivity; [apply migrate_length|]. done.
Qed.

Lemma empty_ok : state_ok empty_state.
Proof. split; [constructor|simpl; lia|split; [constructor|simpl; lia]]. Qed.

Lemma stored_ok file : state_ok (stored_state file).
Proof.
  unfold stored_state. destruct (readCacheState file) as [f|state] eqn:E; [apply empty_ok|].
  by eapply readCacheState_ok.
Qed.

(** ** Every transition keeps a stored state valid *)

Lemma rows_ok_sub rows rows' :
  Forall well_formed rows -> (forall s, s ∈ rows' -> s ∈ rows) -> Forall well_formed rows'.
Proof. rewrite !Forall_forall. eauto. Qed.

Lemma suppressions_ok_filter (P : CacheSuppression -> Prop) `{!forall s, Decision (P s)} l :
  suppressions_ok l -> suppressions_ok (filter P l).
Proof.
  intros [Hall Hl]. split; [|pose proof (length_filter P l); lia].
  rewrite Forall_forall in *. intros s [_ Hin]%list_elem_of_filter. eauto.
Qed.

Lemma retainSnapshots_ok rows t :
  Forall well_formed rows -> (length rows <= MAX_CACHE_ENTRIES)%nat ->
  Forall well_formed (retainSnapshots rows t) /\
  (length (retainSnapshots rows t) <= MAX_CACHE_ENTRIES)%nat.
Proof.
  intros Hall Hl. split; [eapply rows_ok_sub; eauto using elem_of_retain|].
  etransitivity; [apply length_filter|done].
Qed.

Lemma retain_since_ok rows t :
  Forall well_formed rows -> (length rows <= MAX_CACHE_ENTRIES)%nat ->
  Forall well_formed (retain_since rows t) /\
  (length (retain_since rows t) <= MAX_CACHE_ENTRIES)%nat.
Proof. destruct t; [apply retainSnapshots_ok|split; [constructor|simpl; lia]]. Qed.

Lemma mergeSnapshots_ok e i :
  Forall well_formed e -> Forall well_formed i ->
  Forall well_formed (mergeSnapshots e i MAX_CACHE_ENTRIES) /\
  (length (mergeSnapshots e i MAX_CACHE_ENTRIES) <= MAX_CACHE_ENTRIES)%nat.
Proof.
  rewrite !Forall_forall. intros He Hi. split; [|apply mergeSnapshots_canonical_facts].
  intros s [?|?]%mergeSnapshots_subset; auto.
Qed.

Lemma Forall_filter (P : Snapshot -> Prop) `{!forall s, Decision (P s)} rows :
  Forall well_formed rows -> Forall well_formed (filter P rows).
Proof. intros Hall. eapply rows_ok_sub; [exact Hall|]. by intros s [_ ?]%list_elem_of_filter. Qed.

(** A report a connector hands over: its rows came through the normalizer. *)
Definition report_ok (report : CollectionReport) : Prop :=
  from_option (fun a => account_id_pattern a = true) True (rp_accountId report) /\
  Forall well_formed (report_rows report) /\ (length (report_rows report) <= MAX_CACHE_ENTRIES)%nat.

Lemma state_ok_filter (P : Snapshot -> Prop) `{!forall s, Decision (P s)} state :
  state_ok state ->
  state_ok {| st_snapshots := filter P (st_snapshots state);
              st_suppressions := st_suppressions state |}.
Proof.
  intros [Hr Hb Hs]. split; cbn [st_snapshots st_suppressions]; [by apply Forall_filter| |done].
  etransitivity; [apply length_filter|done].
Qed.

Lemma drift_suppressions_ok sups report t :
  report_ok report -> date_parse (rp_observedAt report) = Some t -> Forall suppression_ok sups ->
  suppressions_ok (boundSuppressions (sups ++
    [{| sp_provider := rp_provider report; sp_accountId := rp_accountId report;
        sp_suppressedAt := rp_observedAt report |}])).
Proof.
  intros (Ha & _) Et Hs. split; [|apply boundSuppressions_length].
  apply Forall_forall. intros s Hin%boundSuppressions_subset.
  apply elem_of_app in Hin as [Hin| ->%list_elem_of_singleton].
  - rewrite Forall_forall in Hs. by apply Hs.
  - split; simpl; [rewrite Et; by eexists|done].
Qed.

Lemma applyCollectionReport_state_ok state report :
  state_ok state -> report_ok report -> state_ok (applyCollectionReport state report).
Proof.
  intros Hok Hrep. unfold applyCollectionReport. destruct (date_parse _) as [t|] eqn:Et; [|done].
  pose proof (state_ok_filter (fun row => retained t row = true) _ Hok) as Hret.
  fold (retainSnapshots (st_snapshots state) t) in Hret.
  case_match; [done|]. pose proof Hret as [Hr Hb Hs]. cbn [st_snapshots st_suppressions] in *.
  pose proof Hrep as (_ & Hrows & _). unfold report_rows in Hrows.
  destruct (rp_outcome report) as [snapshots|[]]; try exact Hret.
  - assert (Hm : forall i e, Forall well_formed e -> Forall well_formed i ->
      state_ok {| st_snapshots := mergeSnapshots e i MAX_CACHE_ENTRIES;
        st_suppressions := filter (fun s => suppressionMatches (rp_provider report)
          (rp_accountId report) s = false) (st_suppressions state) |}).
    { intros i e He Hi. destruct (mergeSnapshots_ok e i He Hi).
      split; [done|done|by apply suppressions_ok_filter]. }
    apply Hm; [|by do 2 apply Forall_filter]. case_match; [done|by apply Forall_filter].
  - case_match; [exact Hret|]. split; cbn [st_snapshots st_suppressions];
      [by apply Forall_filter|etransitivity; [apply length_filter|done]|].
    eapply drift_suppressions_ok; [done..|]. apply suppressions_ok_filter, Hs.
Qed.

Definition acquired_ok (report : AcquiredReport) : Prop :=
  from_option (fun a => account_id_pattern a = true) True (ar_accountId report) /\
  Forall well_formed (ar_snapshots report) /\ (length (ar_snapshots report) <= MAX_CACHE_ENTRIES)%nat.

Lemma acquired_state_ok state report :
  state_ok state -> acquired_ok report -> state_ok (acquired_state state report).
Proof.
  intros Hok Hrep. pose proof Hok as [Hr Hb Hs]. pose proof Hrep as (_ & Hrows & _).
  assert (Hm : forall e i t sups, Forall well_formed e -> Forall well_formed i ->
    suppressions_ok sups ->
    state_ok {| st_snapshots := retain_since (mergeSnapshots e i MAX_CACHE_ENTRIES) t;
                st_suppressions := sups |}).
  { intros e i t sups He Hi Hsup. destruct (mergeSnapshots_ok e i He Hi).
    destruct (retain_since_ok (mergeSnapshots e i MAX_CACHE_ENTRIES) t); done. }
  unfold acquired_state.
  case_bool_decide; [apply Hm; [by apply Forall_filter..|by apply suppressions_ok_filter]|].
  case_match; [|apply Hm; [by apply Forall_filter..|done]].
  apply applyCollectionReport_state_ok; [by apply state_ok_filter|exact Hrep].
Qed.

(** ** A flag keeps the rows valid *)

(** What the caller hands over: its own instant, an account of the
    normalizer's pattern, and a wait that is an instant. *)
Definition flag_ok (now : string) (retryAt accountId : option string) : Prop :=
  iso now /\ from_option iso True retryAt /\
  from_option (fun a => account_id_pattern a = true) True accountId.

Lemma truthy_from (P : string -> Prop) s : from_option P True s -> from_option P True (truthy s).
Proof. by destruct s as [[|c s]|]. Qed.

Lemma interval_ms d x : x = int 1140 -> d ⊕ x ⊗ int 1000 = d ⊕ int 1140 ⊗ int 1000.
Proof. by intros ->. Qed.

Lemma deadline_num t n :
  Z.abs t <= 8640000000000000 -> 0 < n <= 1140 -> int t ⊕ int n ⊗ int 1000 = int (t + n * 1000).
Proof. intros. by rewrite nmul_int, nadd_int by lia. Qed.

Lemma seed_num d t :
  d = int t -> Z.abs t <= 8640000000000000 ->
  d ⊕ (int 900 ⊗ lit 12 10 ⊕ int 60) ⊗ int 1000 = int (t + 1140 * 1000).
Proof.
  intros -> Ht. rewrite interval_ms by (by apply (intervals_scale 900); repeat constructor).
  by apply (deadline_num t 1140 Ht).
Qed.

Lemma time_clip_printed t :
  to_iso <$> time_clip (int t) = (check Z.abs t <=? 8640000000000000;; Some (to_iso t)).
Proof.
  unfold int, time_clip. rewrite Z.quot_mul by (pose proof one_pos; lia).
  by destruct (Z.abs t <=? 8640000000000000).
Qed.

Lemma printed_at now d n :
  d = int n ->
  (if is_finite d then to_iso <$> time_clip d else Some now) =
  (check Z.abs n <=? 8640000000000000;; Some (to_iso n)).
Proof. intros ->. rewrite <- time_clip_printed. unfold int, is_finite. exact eq_refl. Qed.

Lemma seed_deadline now t :
  date_parse now = Some t ->
  seed_expiresAt now =
    (check Z.abs (t + 1140 * 1000) <=? 8640000000000000;; Some (to_iso (t + 1140 * 1000))).
Proof.
  intros Et. assert (Hv := date_parse_valid _ _ Et). apply Z.leb_le in Hv.
  unfold seed_expiresAt. apply printed_at, seed_num; [by rewrite Et|exact Hv].
Qed.

Lemma seed_wf provider accountId now e :
  iso now -> from_option (fun a => account_id_pattern a = true) True accountId ->
  seed_expiresAt now = Some e -> well_formed (seed provider accountId now e).
Proof.
  intros Hnow Ha He. unfold iso in Hnow.
  pose proof Hnow as (t & Ht & ->)%is_iso_instant_iff.
  rewrite (seed_deadline _ t) in He by by apply date_parse_to_iso.
  destruct (Z.abs (t + 1140 * 1000) <=? 8640000000000000) eqn:E; [|done]. injection He as <-.
  split; cbn [s_meter s_unit s_value s_window s_resetAt s_observedAt s_expiresAt s_labels
    s_accountId s_accountLabel s_availability s_retryAt seed from_option]; try done.
  - exists 0. split; [done|]. pose proof one_pos. rewrite decide_True by done. lia.
  - apply is_iso_instant_iff. by exists (t + 1140 * 1000).
  - rewrite !date_parse_to_iso by done. cbn. apply Z.leb_le. lia.
Qed.

Lemma flagged_wf availability retry row :
  well_formed row -> (availability = rate_limited -> from_option iso True retry) ->
  (availability <> rate_limited -> retry = None) ->
  well_formed (with_availability availability retry row).
Proof.
  intros [] Hr Hn. split; try done. cbn [s_retryAt s_availability with_availability].
  destruct retry as [r|]; [|done]. simpl.
  destruct (decide (availability = rate_limited)) as [->|Hne]; [by split; [|apply Hr]|].
  by discriminate Hn.
Qed.

Lemma flagged_rows_wf stored provider availability now retryAt accountId rows :
  Forall well_formed stored -> flag_ok now retryAt accountId ->
  flagged_rows stored provider availability now retryAt accountId = Some (Some rows) ->
  Forall well_formed rows.
Proof.
  intros Hs (Hnow & Hr & Ha). unfold flagged_rows.
  assert (Hret : Forall well_formed (retain_since stored (date_parse now))).
  { destruct (date_parse now); [|constructor]. eapply rows_ok_sub; eauto using elem_of_retain. }
  case_match; [done|]. destruct (seed_expiresAt now) as [e|] eqn:Ee; [|done].
  cbn [mbind option_bind]. intros [= <-]. apply Forall_app. split; [by apply Forall_filter|].
  apply Forall_fmap.
  assert (Hm : forall l, Forall well_formed l -> Forall (well_formed ∘ with_availability availability
    (if bool_decide (availability = rate_limited) then truthy retryAt else None)) l).
  { intros l Hl. eapply Forall_impl; [exact Hl|]. intros row Hrow. apply flagged_wf; [done|..].
    - intros ->. rewrite bool_decide_eq_true_2 by done. by apply truthy_from.
    - intros Hne. by rewrite bool_decide_eq_false_2. }
  apply Hm. generalize (Forall_filter (fun row => flag_matches provider accountId row = true) _ Hret).
  generalize (filter (fun row => flag_matches provider accountId row = true)
    (retain_since stored (date_parse now))). intros [|r l] Hf; [|exact Hf].
  apply Forall_singleton, seed_wf; [done|by apply truthy_from|done].
Qed.

(** ** The document against the state it stands for *)

(** A transaction of some process. *)
Inductive CacheOp :=
  | op_write (rows : list Snapshot)
  | op_merge (rows : list Snapshot) (now : Z)
  | op_report (report : CollectionReport)
  | op_prune (now : Z)
  | op_acquired (report : AcquiredReport)
  | op_flag (provider : ProviderCode) (availability : SnapshotAvailability) (now : string)
      (retryAt accountId : option string).

(** What it does to the document; one that throws leaves it alone. *)
Definition store_step (file : JsonFile) (op : CacheOp) : JsonFile :=
  match op with
  | op_write rows => default file (writeSnapshotCache rows)
  | op_merge rows now => default file (fst <$> mergeSnapshotCache file rows now)
  | op_report report => default file (fst <$> applyCollectionReportToCache file report)
  | op_prune now => fst (pruneSnapshotCache file now)
  | op_acquired report => default file (am_file <$> mergeAcquiredSnapshots file report)
  | op_flag provider availability now retryAt accountId =>
      default file (recordAcquisitionAvailability file provider availability now retryAt accountId)
  end.

(** What a reader makes of a document: a failure, or the readings. *)
Notation Reading := (CacheFailure + CacheState)%type.

Definition state_of (doc : Reading) : CacheState :=
  match doc with inr state => state | inl _ => empty_state end.

(** A writer rewrites the document only for a change. *)
Definition rewritten (doc : Reading) (after : CacheState) : Reading :=
  if bool_decide (after = state_of doc) then doc else inr after.

(** What it means for the readings held. *)
Definition reading_step (doc : Reading) (op : CacheOp) : Reading :=
  let held := state_of doc in
  match op with
  | op_write rows => inr {| st_snapshots := rows; st_suppressions := [] |}
  | op_merge rows now =>
      rewritten doc
        {| st_snapshots :=
             retainSnapshots (mergeSnapshots (st_snapshots held) rows MAX_CACHE_ENTRIES) now;
           st_suppressions := st_suppressions held |}
  | op_report report => rewritten doc (applyCollectionReport held report)
  | op_prune now =>
      match doc with
      | inl _ => doc
      | inr _ => inr {| st_snapshots := retainSnapshots (st_snapshots held) now;
                        st_suppressions := st_suppressions held |}
      end
  | op_acquired report => rewritten doc (acquired_state held report)
  | op_flag provider availability now retryAt accountId =>
      match doc with
      | inl cf_corrupt | inl cf_unsafe => doc
      | _ =>
          match flagged_rows (st_snapshots held) provider availability now retryAt accountId with
          | Some (Some rows) =>
              if (length rows <=? MAX_CACHE_ENTRIES)%nat
              then inr {| st_snapshots := rows; st_suppressions := st_suppressions held |}
              else inl cf_corrupt
          | _ => doc
          end
      end
  end.

(** What every caller hands over: rows, accounts and instants the normalizer
    accepts, and no more rows than the cache holds. *)
Definition op_ok (op : CacheOp) : Prop :=
  match op with
  | op_write rows | op_merge rows _ =>
      Forall well_formed rows /\ (length rows <= MAX_CACHE_ENTRIES)%nat
  | op_report report => report_ok report
  | op_prune _ => True
  | op_acquired report => acquired_ok report
  | op_flag _ _ now retryAt accountId => flag_ok now retryAt accountId
  end.

Lemma in_bounds_ok state : state_ok state -> in_bounds (st_snapshots state) = true.
Proof. intros [Hr Hb _]. rewrite in_bounds_wf by done. by apply Nat.leb_le. Qed.

Lemma in_bounds_given rows :
  Forall well_formed rows -> (length rows <= MAX_CACHE_ENTRIES)%nat -> in_bounds rows = true.
Proof. intros ??. rewrite in_bounds_wf by done. by apply Nat.leb_le. Qed.

Lemma retain_same rows t :
  length (retainSnapshots rows t) = length rows -> retainSnapshots rows t = rows.
Proof.
  unfold retainSnapshots. induction rows as [|s rows IH]; [done|].
  pose proof (length_filter (fun row => retained t row = true) rows).
  destruct (decide (retained t s = true)).
  - rewrite filter_cons_True by done. cbn [length]. intros E. f_equal. apply IH. lia.
  - rewrite filter_cons_False by done. cbn [length]. lia.
Qed.

(** The writers that compare before they write. *)
Lemma rewritten_read file after :
  state_ok after ->
  readCacheState (if bool_decide (after = stored_state file) then file
    else replaceCache (st_snapshots after) (st_suppressions after)) =
  rewritten (readCacheState file) after.
Proof.
  intros Hok. unfold rewritten. fold (stored_state file).
  change (state_of (readCacheState file)) with (stored_state file).
  case_bool_decide; [done|by apply replaceCache_readable].
Qed.

Lemma merge_step_read file rows now :
  Forall well_formed rows -> (length rows <= MAX_CACHE_ENTRIES)%nat ->
  readCacheState (store_step file (op_merge rows now)) =
  reading_step (readCacheState file) (op_merge rows now).
Proof.
  intros Hr Hb. pose proof (stored_ok file) as [Hs Hl Hp].
  cbn [store_step reading_step]. change (state_of (readCacheState file)) with (stored_state file).
  set (after := {| st_snapshots := retainSnapshots (mergeSnapshots (st_snapshots (stored_state file))
    rows MAX_CACHE_ENTRIES) now; st_suppressions := st_suppressions (stored_state file) |}).
  assert (Hok : state_ok after).
  { destruct (mergeSnapshots_ok _ _ Hs Hr).
    destruct (retainSnapshots_ok (mergeSnapshots (st_snapshots (stored_state file)) rows
      MAX_CACHE_ENTRIES) now); done. }
  rewrite <- rewritten_read by done. f_equal. unfold mergeSnapshotCache.
  rewrite in_bounds_given by done. fold (st_snapshots after). pose proof (in_bounds_ok _ Hok) as Hi.
  cbn [st_snapshots after] in Hi. unfold after at 1. rewrite (bool_decide_ext (after = stored_state file)
    (st_snapshots after = st_snapshots (stored_state file))).
  - cbn [st_snapshots after]. case_bool_decide; [done|]. by rewrite Hi.
  - unfold after. destruct (stored_state file) as [r p]. cbn [st_snapshots st_suppressions].
    split; [by intros [= ->]|by intros ->].
Qed.

Lemma report_step_read file report :
  report_ok report ->
  readCacheState (store_step file (op_report report)) =
  reading_step (readCacheState file) (op_report report).
Proof.
  intros Hrep. pose proof (applyCollectionReport_state_ok _ _ (stored_ok file) Hrep) as Hok.
  cbn [store_step reading_step]. change (state_of (readCacheState file)) with (stored_state file).
  rewrite <- rewritten_read by done. f_equal. unfold applyCollectionReportToCache.
  assert ((match rp_outcome report with Collected snapshots => in_bounds snapshots
    | Failed _ => true end) = true) as ->.
  { destruct Hrep as (_ & Hr & Hb). unfold report_rows in *.
    destruct (rp_outcome report); [by apply in_bounds_given|done]. }
  case_bool_decide; [done|]. by rewrite (in_bounds_ok _ Hok).
Qed.

Lemma acquired_step_read file report :
  acquired_ok report ->
  readCacheState (store_step file (op_acquired report)) =
  reading_step (readCacheState file) (op_acquired report).
Proof.
  intros Hrep. pose proof (acquired_state_ok _ _ (stored_ok file) Hrep) as Hok.
  cbn [store_step reading_step]. change (state_of (readCacheState file)) with (stored_state file).
  rewrite <- rewritten_read by done. f_equal. unfold mergeAcquiredSnapshots.
  destruct Hrep as (_ & Hr & Hb). rewrite (in_bounds_given (ar_snapshots report)) by done.
  case_bool_decide; [done|]. by rewrite (in_bounds_ok _ Hok).
Qed.

Lemma prune_step_read file now :
  readCacheState (store_step file (op_prune now)) =
  reading_step (readCacheState file) (op_prune now).
Proof.
  cbn [store_step reading_step]. unfold pruneSnapshotCache.
  destruct (readCacheState file) as [f|state] eqn:Er; [done|]. cbn [fst state_of].
  pose proof (readCacheState_ok _ _ Er) as [Hr Hb Hs].
  destruct (Z.eqb_spec (Z.of_nat (length (st_snapshots state)) -
    Z.of_nat (length (retainSnapshots (st_snapshots state) now))) 0) as [Ez|].
  - rewrite Er, (retain_same (st_snapshots state) now) by lia. by destruct state.
  - destruct (retainSnapshots_ok (st_snapshots state) now Hr Hb).
    by apply (replaceCache_readable {| st_snapshots := retainSnapshots (st_snapshots state) now;
      st_suppressions := st_suppressions state |}).
Qed.

Lemma flag_step_read file provider availability now retryAt accountId :
  flag_ok now retryAt accountId ->
  readCacheState (store_step file (op_flag provider availability now retryAt accountId)) =
  reading_step (readCacheState file) (op_flag provider availability now retryAt accountId).
Proof.
  intros Hok. pose proof (stored_ok file) as [Hr _ Hs].
  cbn [store_step reading_step]. change (state_of (readCacheState file)) with (stored_state file).
  unfold recordAcquisitionAvailability.
  assert (Hw : readCacheState (default file
      (let? flagged := flagged_rows (st_snapshots (stored_state file)) provider availability now
         retryAt accountId in
       Some match flagged with None => file
            | Some rows => replaceCache rows (st_suppressions (stored_state file)) end)) =
    match flagged_rows (st_snapshots (stored_state file)) provider availability now retryAt accountId with
    | Some (Some rows) =>
        if (length rows <=? MAX_CACHE_ENTRIES)%nat
        then inr {| st_snapshots := rows; st_suppressions := st_suppressions (stored_state file) |}
        else inl cf_corrupt
    | _ => readCacheState file
    end).
  { destruct (flagged_rows _ _ _ _ _ _) as [[rows|]|] eqn:E; [|done..].
    cbn [mbind option_bind default from_option id]. rewrite replaceCache_read by done.
    by rewrite restored_id by by eapply flagged_rows_wf. }
  unfold stored_state in *. destruct (readCacheState file) as [[]|state] eqn:Er; cbn in *; done.
Qed.

Lemma store_step_read file op :
  op_ok op -> readCacheState (store_step file op) = reading_step (readCacheState file) op.
Proof.
  destruct op as [rows|rows now|report|now|report|provider availability now retryAt accountId]; cbn [op_ok].
  - intros [Hr Hb]. cbn [store_step reading_step]. unfold writeSnapshotCache.
    rewrite in_bounds_given by done. apply (replaceCache_readable {| st_snapshots := rows;
      st_suppressions := [] |}). split; [done|done|split; [constructor|simpl; lia]].
  - intros []. by apply merge_step_read.
  - apply report_step_read.
  - intros _. apply prune_step_read.
  - apply acquired_step_read.
  - apply flag_step_read.
Qed.

(** C1: The cache document implements the readings it stands for. Whatever
    document is there, missing, corrupt or readable (a path that is no
    ordinary file is out of the model: the file system decides whether it is
    replaced; so is the reader's limit on the size of a document, far above
    what so many rows take), and whatever transactions the processes run in whatever order,
    each handing over only rows, accounts and instants the normalizer accepts
    and no more rows than the cache holds, a reader of the document left finds
    exactly what the pure transitions make of what was read first. So the
    document is readable after every transaction but one: the flag of a failed
    read, which can store a row too many and leave it corrupt. *)
Theorem cache_document_implements_its_state file ops :
  file <> unsafe -> Forall op_ok ops ->
  readCacheState (foldl store_step file ops) = foldl reading_step (readCacheState file) ops /\
  (forall op failure, op_ok op ->
     readCacheState (store_step (foldl store_step file ops) op) = inl failure ->
     readCacheState (foldl store_step file ops) = inl failure \/
     exists provider availability now retryAt accountId rows,
       op = op_flag provider availability now retryAt accountId /\ failure = cf_corrupt /\
       flagged_rows (st_snapshots (stored_state (foldl store_step file ops))) provider availability
         now retryAt accountId = Some (Some rows) /\ (MAX_CACHE_ENTRIES < length rows)%nat).
Proof.
  intros _ Hall. split.
  - revert file. induction Hall as [|op ops Hop _ IH]; intros file; [done|].
    cbn [foldl]. by rewrite IH, store_step_read.
  - generalize (foldl store_step file ops). clear Hall file ops.
    intros file op failure Hop. rewrite store_step_read by done.
    change (stored_state file) with (state_of (readCacheState file)).
    generalize (readCacheState file). intros doc. unfold reading_step, rewritten.
    repeat case_match; intros; simplify_eq/=; try (by left).
    all: right; do 6 eexists; (split_and!; [done|done|eassumption|]).
    all: by apply Nat.leb_gt.
Qed.

(** ** The authoritative document *)

(** The map has one entry per identity, each a row of the list. *)
Definition entries_of (rows : list Snapshot) (m : list (string * Snapshot)) : Prop :=
  NoDup m.*1 /\ forall k s, (k, s) ∈ m -> k = snapshotIdentity s /\ s ∈ rows.

Lemma entries_of_set rows m s :
  entries_of rows m -> s ∈ rows -> entries_of rows (assoc_set (snapshotIdentity s) s m).
Proof.
  intros [Hn Hm] Hs. split; [by apply assoc_set_NoDup|].
  intros k s' [[-> ->]|[_ Hin]]%elem_of_assoc_set; [done|by apply Hm|done].
Qed.

Lemma entries_of_reported rows m s :
  entries_of rows m -> s ∈ rows -> entries_of rows (add_reported m s).
Proof. unfold add_reported. intros. repeat case_match; auto using entries_of_set. Qed.

Lemma entries_of_foldl (f : list (string * Snapshot) -> Snapshot -> list (string * Snapshot)) rows l m :
  (forall m s, entries_of rows m -> s ∈ rows -> entries_of rows (f m s)) ->
  l ⊆ rows -> entries_of rows m -> entries_of rows (foldl f m l).
Proof.
  intros Hf. revert m. induction l as [|s l IH]; simpl; [done|].
  intros m Hl Hm. apply IH; [set_solver|]. apply Hf; [done|set_solver].
Qed.

Lemma entries_of_by_identity rows l : l ⊆ rows -> entries_of rows (by_identity l).
Proof.
  intros Hl. apply entries_of_foldl; [|done|].
  - auto using entries_of_set.
  - split; [constructor|]. by intros k s ?%elem_of_nil.
Qed.

Lemma entries_of_get rows m k s :
  entries_of rows m -> assoc_get k m = Some s -> k = snapshotIdentity s /\ s ∈ rows.
Proof. intros [Hn Hm] Hs. apply Hm. by apply assoc_get_elem. Qed.

Lemma entries_of_ids rows m : entries_of rows m -> snapshotIdentity <$> m.*2 = m.*1.
Proof.
  intros [_ Hm]. induction m as [|[k s] m IH]; csimpl; [done|]. f_equal.
  - symmetry. eapply Hm. left.
  - apply IH. intros k' s' ?. eapply Hm. by right.
Qed.

(** The entry of an identity is at least as recent as an instant. *)
Definition at_least (m : list (string * Snapshot)) (k : string) (t : Z) : Prop :=
  exists p, assoc_get k m = Some p /\ (Some t <=t date_parse (s_observedAt p)) = true.

Lemma at_least_set m s t :
  (Some t <=t date_parse (s_observedAt s)) = true ->
  at_least (assoc_set (snapshotIdentity s) s m) (snapshotIdentity s) t.
Proof. intros Ht. exists s. by rewrite assoc_get_set, decide_True. Qed.

Lemma time_le_trans a b c : (Some a <=t b) = true -> (b <=t c) = true -> (Some a <=t c) = true.
Proof. destruct b, c; simpl; rewrite ?Z.leb_le; try done; lia. Qed.

Lemma at_least_reported m s k t : at_least m k t -> at_least (add_reported m s) k t.
Proof.
  intros (p & Hp & Ht). unfold add_reported.
  destruct (assoc_get (snapshotIdentity s) m) as [q|] eqn:Eq.
  - destruct (date_parse (s_observedAt q) <=t date_parse (s_observedAt s)) eqn:El; [|by exists p].
    destruct (decide (k = snapshotIdentity s)) as [->|Hne].
    + apply at_least_set. eapply time_le_trans; [exact Ht|]. congruence.
    + exists p. by rewrite assoc_get_set, decide_False.
  - exists p. rewrite assoc_get_set. case_decide; [congruence|done].
Qed.

Lemma at_least_foldl rows m k t : at_least m k t -> at_least (foldl add_reported m rows) k t.
Proof. revert m. induction rows as [|r rows IH]; simpl; auto using at_least_reported. Qed.

Definition datable (s : Snapshot) : Prop := is_Some (date_parse (s_observedAt s)).

Lemma well_formed_datable rows s : Forall well_formed rows -> s ∈ rows -> datable s.
Proof.
  rewrite Forall_forall. intros Hall Hs.
  destruct (is_iso_instant_parse _ (wf_observed _ (Hall _ Hs))) as (t & Ht & _). by exists t.
Qed.

Lemma reported_at_least rows m s t :
  Forall well_formed rows -> entries_of rows m -> date_parse (s_observedAt s) = Some t ->
  at_least (add_reported m s) (snapshotIdentity s) t.
Proof.
  intros Hall Hm Et. assert (Ht : (Some t <=t date_parse (s_observedAt s)) = true)
    by (rewrite Et; simpl; by apply Z.leb_refl).
  unfold add_reported. destruct (assoc_get _ m) as [q|] eqn:Eq; [|by apply at_least_set].
  destruct (date_parse (s_observedAt q) <=t date_parse (s_observedAt s)) eqn:El;
    [by apply at_least_set|]. exists q. split; [done|]. revert El. rewrite Et.
  destruct (entries_of_get _ _ _ _ Hm Eq) as [_ Hq].
  destruct (well_formed_datable _ _ Hall Hq) as [tq ->]. simpl. rewrite Z.leb_gt, Z.leb_le. lia.
Qed.

Lemma incoming_at_least rows l m s t :
  Forall well_formed rows -> entries_of rows m -> l ⊆ rows -> s ∈ l ->
  date_parse (s_observedAt s) = Some t ->
  at_least (foldl add_reported m l) (snapshotIdentity s) t.
Proof.
  intros Hall. revert m. induction l as [|r l IH]; simpl; intros m Hm Hl Hs Et; [set_solver|].
  apply elem_of_cons in Hs as [->|Hs].
  - apply at_least_foldl. by eapply reported_at_least.
  - apply IH; [|set_solver|done|done]. apply entries_of_reported; [done|set_solver].
Qed.

Lemma set_untouched rows m s :
  snapshotIdentity s ∉ snapshotIdentity <$> rows ->
  assoc_get (snapshotIdentity s) (foldl (fun m row => assoc_set (snapshotIdentity row) row m) m rows) =
  assoc_get (snapshotIdentity s) m.
Proof.
  revert m. induction rows as [|r rows IH]; csimpl; [done|].
  intros m [Hne Hr]%not_elem_of_cons. rewrite IH by done. by rewrite assoc_get_set, decide_False.
Qed.

Lemma by_identity_get rows s :
  NoDup (snapshotIdentity <$> rows) -> s ∈ rows ->
  assoc_get (snapshotIdentity s) (by_identity rows) = Some s.
Proof.
  unfold by_identity. generalize (@nil (string * Snapshot)) as m.
  induction rows as [|r rows IH]; csimpl; intros m Hn Hs; [set_solver|].
  apply NoDup_cons in Hn as [Hr Hn]. apply elem_of_cons in Hs as [->|Hs]; [|by apply IH].
  rewrite set_untouched by done. by rewrite assoc_get_set, decide_True.
Qed.

(** The rows of one authoritative merge, before retention. *)
Definition authoritative_map (existing incoming : list Snapshot) : list (string * Snapshot) :=
  foldl add_reported (by_identity existing) incoming.

Lemma authoritative_entries existing incoming :
  entries_of (existing ++ incoming) (authoritative_map existing incoming).
Proof.
  apply entries_of_foldl; [apply entries_of_reported|set_solver|].
  apply entries_of_by_identity. set_solver.
Qed.

Lemma authoritative_newest existing incoming s t :
  Forall well_formed (existing ++ incoming) -> NoDup (snapshotIdentity <$> existing) ->
  s ∈ existing \/ s ∈ incoming -> date_parse (s_observedAt s) = Some t ->
  exists p, p ∈ (authoritative_map existing incoming).*2 /\
    snapshotIdentity p = snapshotIdentity s /\ (Some t <=t date_parse (s_observedAt p)) = true.
Proof.
  intros Hall Hn Hs Et.
  assert (Hp : at_least (authoritative_map existing incoming) (snapshotIdentity s) t).
  { destruct Hs as [Hs|Hs].
    - apply at_least_foldl. exists s. rewrite by_identity_get by done.
      rewrite Et. simpl. by rewrite Z.leb_refl.
    - eapply incoming_at_least; [exact Hall|apply entries_of_by_identity; set_solver|set_solver|done..]. }
  destruct Hp as (p & Hp & Ht). exists p.
  destruct (authoritative_entries existing incoming) as [Hk Hm].
  apply assoc_get_elem in Hp; [|done]. destruct (Hm _ _ Hp) as [E _]. split_and!; [|done|done].
  apply list_elem_of_fmap. by exists (snapshotIdentity s, p).
Qed.

Lemma retain_since_elem rows instant s :
  s ∈ retain_since rows instant <-> s ∈ rows /\ exists n, instant = Some n /\ retained n s = true.
Proof.
  unfold retain_since, retainSnapshots. destruct instant as [n|]; [|set_solver].
  rewrite list_elem_of_filter. naive_solver.
Qed.

Lemma retained_newer n s p t :
  retained n s = true -> date_parse (s_observedAt s) = Some t ->
  (Some t <=t date_parse (s_observedAt p)) = true -> retained n p = true.
Proof.
  unfold retained. intros Hr Et. rewrite Et in Hr. by apply time_le_trans.
Qed.

Lemma retain_ids_NoDup rows instant :
  NoDup (snapshotIdentity <$> rows) -> NoDup (snapshotIdentity <$> retain_since rows instant).
Proof.
  intros Hn. destruct instant as [t|]; [|constructor].
  eapply sublist_NoDup; [exact Hn|]. apply fmap_sublist, sublist_filter.
Qed.

Lemma merged_authoritative file incoming now weeklySet file' rows :
  mergeAuthoritativeSnapshotCache file incoming now weeklySet = Some (file', rows) ->
  rows = retain_since (authoritative_map
    (filter (fun row => withdrawn weeklySet (snapshotIdentity <$> incoming) row = false)
       (st_snapshots (stored_state file))) incoming).*2 (retention_now incoming now) /\
  in_bounds rows = true /\ file' = replaceCache rows [].
Proof.
  unfold mergeAuthoritativeSnapshotCache. destruct (in_bounds incoming); [|done].
  fold (authoritative_map (filter (fun row => withdrawn weeklySet (snapshotIdentity <$> incoming) row =
    false) (st_snapshots (stored_state file))) incoming).
  generalize (retain_since (authoritative_map (filter (fun row => withdrawn weeklySet
    (snapshotIdentity <$> incoming) row = false) (st_snapshots (stored_state file))) incoming).*2
    (retention_now incoming now)) as l. intros l.
  destruct (in_bounds l) eqn:Eb; [|done]. intros E. by injection E as <- <-.
Qed.

(** The authoritative document never goes back. When a merge into it
    succeeds, the document it writes reads as exactly the rows it returns, one
    per identity, each one reported now or held before and not withdrawn by a
    whole read; and every such row that is not past retention has its identity
    answered by a row at least as recent. *)
Theorem authoritative_merge_never_goes_back file incoming now weeklySet file' rows :
  NoDup (snapshotIdentity <$> st_snapshots (stored_state file)) -> Forall well_formed incoming ->
  mergeAuthoritativeSnapshotCache file incoming now weeklySet = Some (file', rows) ->
  let current s := s ∈ incoming \/ (s ∈ st_snapshots (stored_state file) /\
    withdrawn weeklySet (snapshotIdentity <$> incoming) s = false) in
  readCacheState file' = inr {| st_snapshots := rows; st_suppressions := [] |} /\
  NoDup (snapshotIdentity <$> rows) /\
  (forall s, s ∈ rows -> current s) /\
  (forall s n, current s -> retention_now incoming now = Some n -> retained n s = true ->
     exists p, p ∈ rows /\ snapshotIdentity p = snapshotIdentity s /\
       (date_parse (s_observedAt s) <=t date_parse (s_observedAt p)) = true).
Proof.
  intros Hn Hin (Hrows & Hb & ->)%merged_authoritative current.
  set (existing := filter (fun row => withdrawn weeklySet (snapshotIdentity <$> incoming) row = false)
    (st_snapshots (stored_state file))) in *.
  assert (Hex : forall s, s ∈ existing ++ incoming <-> current s).
  { intros s. unfold current, existing. rewrite elem_of_app, list_elem_of_filter. tauto. }
  assert (Hall : Forall well_formed (existing ++ incoming)).
  { apply Forall_app. split; [|done]. apply Forall_filter, stored_ok. }
  pose proof (authoritative_entries existing incoming) as Hm.
  assert (Hcur : forall s, s ∈ rows -> current s).
  { intros s. rewrite Hrows, retain_since_elem, list_elem_of_fmap.
    intros [([k p] & -> & Hp) _]. apply Hex. by apply Hm in Hp as [_ ?]. }
  assert (Hwf : Forall well_formed rows).
  { apply (rows_ok_sub (existing ++ incoming)); [done|]. intros s Hs. by apply Hex, Hcur. }
  split_and!; [|rewrite Hrows; apply retain_ids_NoDup|exact Hcur|].
  - rewrite in_bounds_wf in Hb by done. rewrite replaceCache_read by apply empty_ok.
    by rewrite Hb, restored_id.
  - rewrite (entries_of_ids _ _ Hm). apply Hm.
  - intros s n Hs En Hr. apply Hex in Hs.
    destruct (well_formed_datable _ _ Hall Hs) as [t Et]. rewrite elem_of_app in Hs.
    destruct (authoritative_newest existing incoming s t Hall) as (p & Hp & Eid & Ht); [|done..|].
    { eapply sublist_NoDup; [exact Hn|]. apply fmap_sublist, sublist_filter. }
    exists p. rewrite Et. split_and!; [|done|done]. rewrite Hrows. apply retain_since_elem.
    split; [done|]. exists n. split; [done|]. by eapply retained_newer.
Qed.

(** ** The surfaces *)

Lemma authoritative_rows_sound file pollOn s :
  s ∈ authoritative_rows file pollOn ->
  exists v raws, file = present v /\ authoritative_list v = Some raws /\ s ∈ normalizeMeters raws /\
    claudeRowCounts s pollOn = true.
Proof.
  unfold authoritative_rows. destruct file as [| | |v]; try set_solver.
  destruct (authoritative_list v) as [raws|] eqn:E; [|set_solver].
  destruct (_ <=? _)%nat; [|set_solver]. rewrite list_elem_of_filter. naive_solver.
Qed.

(** The rows a document lists, as the normalizer reads them. *)
Definition listed (file : JsonFile) (s : Snapshot) : Prop :=
  exists v raws, file = present v /\ authoritative_list v = Some raws /\ s ∈ normalizeMeters raws.

Lemma migrated_listed raws version s :
  s ∈ normalizeMeters (migrateLegacyMeterIdentities raws version) -> s ∈ normalizeMeters raws.
Proof.
  unfold normalizeMeters, migrateLegacyMeterIdentities. case_match; [done|].
  rewrite !list_elem_of_omap. intros (raw & [_ ?]%list_elem_of_filter & ?). by exists raw.
Qed.

Lemma open_document_list v raws version sups :
  open_document v = Some (raws, version, sups) -> authoritative_list v = Some raws.
Proof.
  unfold open_document, authoritative_list. destruct (record_of v) as [fs|]; [|done].
  destruct (as_array _) as [l|]; [|done]. destruct (_ <=? _)%nat; [|done].
  destruct (known_version _); [|done]. by intros [= -> _ _].
Qed.

(** What the main document says of a row it lets through: the document has a
    version this build knows and suppressions that can be read, and a row of
    another provider than Claude was observed strictly after every suppression
    of its provider and account. *)
Definition trusted_by (main : JsonFile) (s : Snapshot) : Prop :=
  match main with
  | missing => True
  | present v =>
      exists raws version sups entries,
        open_document v = Some (raws, version, sups) /\ readSuppressions sups = Some entries /\
        (s_provider s <> CLAUDE ->
         forall sup, sup ∈ entries -> sp_provider sup = s_provider s -> sp_accountId sup = s_accountId s ->
           (Some (suppressedMilliseconds sup) <t date_parse (s_observedAt s)) = true)
  | _ => False
  end.

Lemma read_main_rows v authoritative pollOn read s :
  read_main v authoritative pollOn = inr read -> s ∈ rd_snapshots read ->
  (listed (present v) s \/ listed authoritative s) /\ claudeRowCounts s pollOn = true /\
  isSnapshotDisplayEligible s = true /\ trusted_by (present v) s.
Proof.
  unfold read_main, trusted_by.
  destruct (open_document v) as [[[raws version] sups]|] eqn:Eo; [|done].
  apply open_document_list in Eo as El.
  set (main := filter (fun row => claudeRowCounts row pollOn = true)
    (normalizeMeters (migrateLegacyMeterIdentities raws version))).
  set (auth := authoritative_rows authoritative pollOn).
  assert (Hc : forall s, s ∈ main \/ s ∈ auth ->
    (listed (present v) s \/ listed authoritative s) /\ claudeRowCounts s pollOn = true).
  { intros r [[Hc Hr]%list_elem_of_filter|(w & l & Ew & Ew' & Hr & Hc)%authoritative_rows_sound];
      (split; [|done]); [left; exists v, raws|right; exists w, l]; [|done].
    split_and!; [done|done|]. by eapply migrated_listed. }
  destruct (readSuppressions sups) as [entries|] eqn:Er; intros [= <-]; cbn [rd_snapshots];
    [|set_solver].
  rewrite visibleSnapshots_exact. cbn [st_snapshots st_suppressions]. intros (Hin & He & Hs).
  assert (Hin' : s ∈ main \/ s ∈ auth).
  { destruct auth as [|a l]; [by left|]. by apply mergeSnapshots_subset in Hin. }
  destruct (Hc _ Hin'). split_and!; try done. exists raws, version, sups, entries.
  split_and!; [done..|]. intros Hp sup Hsup Ep Ea. apply Hs; [|done|done].
  apply list_elem_of_filter. split; [|done]. by rewrite Ep.
Qed.

(** C6: What a surface reads. Whatever the two documents hold, a row handed to
    a surface is well formed, listed in one of them, eligible for display and
    counted under the switch's position; neither document was corrupt or
    unsafe; and when there is a main document, its version is known, its list
    of suppressions could be read, and a row of another provider than Claude
    was observed strictly after every suppression it lists of that provider
    and account. A drift of Claude's withdraws nothing. *)
Theorem a_surface_reads_only_trusted_rows store selected read s :
  readSnapshotCache store selected = inr read -> s ∈ rd_snapshots read ->
  well_formed s /\ (listed (so_main store) s \/ listed (so_authoritative store) s) /\
  isSnapshotDisplayEligible s = true /\
  claudeRowCounts s (default (readClaudePoll (so_claudePoll store)) selected) = true /\
  so_authoritative store <> corrupt /\ so_authoritative store <> unsafe /\
  trusted_by (so_main store) s.
Proof.
  assert (Hwf : forall file s, listed file s -> well_formed s).
  { intros file r (v & raws & _ & _ & Hs). pose proof (normalizeMeters_wf raws) as Hall.
    rewrite Forall_forall in Hall. by apply Hall. }
  unfold readSnapshotCache.
  generalize (default (readClaudePoll (so_claudePoll store)) selected) as pollOn. intros pollOn.
  destruct (so_main store) as [| | |v]; [|done|done|].
  - destruct (so_authoritative store) as [| | |a]; try done. unfold read_authoritative.
    destruct (authoritative_list a) as [raws|] eqn:El; [|done]. intros [= <-]. cbn [rd_snapshots].
    intros [Hc [He Hs]%list_elem_of_filter]%list_elem_of_filter.
    assert (Hl : listed (present a) s) by (by exists a, raws).
    split_and!; try done; [by eapply Hwf|by right].
  - destruct (so_authoritative store) as [| | |a]; try done; intros Er Hs;
      destruct (read_main_rows _ _ _ _ _ Er Hs) as (Hl & ? & ? & ?);
      (split_and!; try done); destruct Hl; eauto.
Qed.

(** ** A failure flag can overflow the document *)

(** The flag of a failed read is written without the bound every other
    writer checks. When the cache is full and no row of it is about the failed
    account, flagging the failure stores one row too many: the document written
    is corrupt to every reader, the next flag is refused, and the next writer
    starts from nothing, so all the readings are lost. *)
Theorem a_failure_flag_can_overflow_the_cache file state provider availability now retryAt accountId :
  readCacheState file = inr state ->
  length (st_snapshots state) = MAX_CACHE_ENTRIES ->
  retain_since (st_snapshots state) (date_parse now) = st_snapshots state ->
  (forall s, s ∈ st_snapshots state -> flag_matches provider accountId s = false) ->
  is_Some (seed_expiresAt now) ->
  exists file',
    recordAcquisitionAvailability file provider availability now retryAt accountId = Some file' /\
    readCacheState file' = inl cf_corrupt /\
    recordAcquisitionAvailability file' provider availability now retryAt accountId = None /\
    stored_state file' = empty_state.
Proof.
  intros Hr Hl Hret Hno [e He]. unfold recordAcquisitionAvailability at 1, flagged_rows.
  rewrite Hr. cbn [mbind option_bind].
  rewrite Hret, He, filter_none by (intros s Hs; by rewrite (Hno s Hs)). cbn [existsb map].
  rewrite filter_id by done. eexists. split; [reflexivity|].
  assert (Hc : forall row, readCacheState (replaceCache (st_snapshots state ++ [row])
    (st_suppressions state)) = inl cf_corrupt).
  { intros row. rewrite replaceCache_read by by eapply so_sups, readCacheState_ok.
    by rewrite length_app, Hl. }
  unfold recordAcquisitionAvailability, stored_state. by rewrite Hc.
Qed.
End Laws.

(** ** Witnesses *)

Definition full_row (meter : string) : Snapshot :=
  sample_snapshot CODEX meter (int 10) "2026-01-01T00:00:00.000Z" "2026-01-03T00:00:00.000Z".

Definition digit_text (n : nat) : string := String (Ascii.ascii_of_nat (65 + n)) EmptyString.

Definition full_rows : list Snapshot :=
  a ← seq 0 8; b ← seq 0 8; [full_row (digit_text a +:+ digit_text b)].

Definition full_file : JsonFile := replaceCache full_rows [].

Lemma full_file_read :
  readCacheState (H := strict_host) full_file =
    inr {| st_snapshots := full_rows; st_suppressions := [] |}.
Proof. by vm_compute. Qed.

Lemma a_failure_flag_can_overflow_the_cache_witness :
  exists file',
    recordAcquisitionAvailability (H := strict_host) full_file KIMI rate_limited
      "2026-01-02T00:00:00.000Z" None None = Some file' /\
    readCacheState (H := strict_host) file' = inl cf_corrupt /\
    recordAcquisitionAvailability (H := strict_host) file' KIMI rate_limited
      "2026-01-02T00:00:00.000Z" None None = None /\
    stored_state (H := strict_host) file' = empty_state.
Proof.
  apply (a_failure_flag_can_overflow_the_cache (H := strict_host) full_file _ KIMI rate_limited
    "2026-01-02T00:00:00.000Z" None None full_file_read).
  - by vm_compute.
  - by vm_compute.
  - apply Forall_forall, (bool_decide_unpack _). by vm_compute.
  - vm_compute. by eexists.
Defined.

Definition sample_ops : list CacheOp :=
  [op_merge [full_row "FIVE_HOUR"] 1767312000000; op_prune 1767312000000;
   op_flag KIMI rate_limited "2026-01-01T00:30:00.000Z" (Some "2026-01-01T01:00:00.000Z") None;
   op_report {| rp_provider := CODEX; rp_accountId := None; rp_observedAt := "2026-01-01T01:00:00.000Z";
                rp_outcome := Failed cr_drift |}].

Lemma full_row_ok : well_formed (H := strict_host) (full_row "FIVE_HOUR").
Proof. apply well_formed_iff. by vm_compute. Qed.

Lemma cache_document_implements_its_state_witness :
  readCacheState (H := strict_host) (foldl (store_step (H := strict_host)) missing sample_ops) =
    foldl (reading_step (H := strict_host)) (readCacheState (H := strict_host) missing) sample_ops.
Proof.
  apply (cache_document_implements_its_state (H := strict_host) missing sample_ops); [done|].
  apply Forall_cons; split; [|apply Forall_cons; split; [exact I|apply Forall_cons; split;
    [|apply Forall_singleton]]].
  - split; [by apply Forall_singleton, full_row_ok|by apply Nat.leb_le].
  - split_and!; [by vm_compute..|exact I].
  - split_and!; [exact I|constructor|by apply Nat.leb_le].
Defined.

Definition merged_authoritative_sample : JsonFile * list Snapshot :=
  default (missing, [])
    (mergeAuthoritativeSnapshotCache (H := strict_host) missing [full_row "FIVE_HOUR"] None None).

Lemma authoritative_merge_never_goes_back_witness :
  let rows := merged_authoritative_sample.2 in
  readCacheState (H := strict_host) merged_authoritative_sample.1 =
    inr {| st_snapshots := rows; st_suppressions := [] |} /\
  NoDup (snapshotIdentity <$> rows) /\
  Forall (fun s => exists p, p ∈ rows /\ snapshotIdentity p = snapshotIdentity s) [full_row "FIVE_HOUR"].
Proof.
  destruct (authoritative_merge_never_goes_back (H := strict_host) missing [full_row "FIVE_HOUR"]
    None None merged_authoritative_sample.1 merged_authoritative_sample.2)
    as (Hr & Hn & _ & Hc).
  - constructor.
  - repeat constructor; apply full_row_ok.
  - by vm_compute.
  - split_and!; [exact Hr|exact Hn|]. apply Forall_singleton.
    destruct (Hc (full_row "FIVE_HOUR") 1767225600000) as (p & Hp & E & _);
      [left; by left|by vm_compute|by vm_compute|]. exists p. split; [exact Hp|exact E].
Defined.

(** A document with a reading of before a drift and one of after it. *)
Definition drifted_store : Store :=
  {| so_main := replaceCache
       [full_row "FIVE_HOUR";
        sample_snapshot KIMI "FIVE_HOUR" (int 10) "2026-01-01T00:00:00.000Z" "2026-01-03T00:00:00.000Z"]
       [{| sp_provider := KIMI; sp_accountId := None; sp_suppressedAt := "2026-01-01T01:00:00.000Z" |}];
     so_authoritative := missing; so_claudePoll := missing |}.

Lemma a_surface_reads_only_trusted_rows_witness :
  match readSnapshotCache (H := strict_host) drifted_store None with
  | inr read => rd_snapshots read = [full_row "FIVE_HOUR"] /\
      trusted_by (H := strict_host) (so_main drifted_store) (full_row "FIVE_HOUR")
  | inl _ => False
  end.
Proof.
  destruct (readSnapshotCache (H := strict_host) drifted_store None) as [f|read] eqn:E; [by vm_compute in E|].
  assert (Er : rd_snapshots read = [full_row "FIVE_HOUR"]).
  { assert (inr read = readSnapshotCache (H := strict_host) drifted_store None) as E' by done.
    vm_compute in E'. by injection E' as ->. }
  split; [exact Er|].
  apply (a_surface_reads_only_trusted_rows (H := strict_host) drifted_store None read _ E).
  rewrite Er. left.
Defined.
