(* ===== verification/Lease.v ===== *)
(** * The machine lease

    [cache.ts]: [leasePolicy] and [acquireMachineLease]. One document per
    provider, shared by every process of the machine, says who may ask that
    provider and from when; each read and write of it happens under the cache
    lock, so a history of all processes is a sequence of steps on the document.

    Instants are whole milliseconds, as [Date.now()] gives them. A token is the
    [randomUUID()] of an acquisition: it is part of the event that draws it,
    and the theorems state which tokens must differ. *)
From S2P Require Import Prelude JsNum JsDate JsValue Text Files.
Local Open Scope string_scope.
Local Open Scope Z_scope.
Local Open Scope list_scope.
Local Open Scope js_scope.

Record MachinePolicy := {
  mp_refusalRevision : jsval;
  mp_lastAccount : jsval;
  mp_owner : option string;      (** [None]: [null] *)
  mp_expiresAt : Z;
  mp_token : string;
  mp_nextAllowedAt : Z;
  mp_attempts : Z }.

Definition no_policy : MachinePolicy :=
  {| mp_refusalRevision := JUndef; mp_lastAccount := JUndef; mp_owner := None; mp_expiresAt := 0;
     mp_token := ""; mp_nextAllowedAt := 0; mp_attempts := 0 |}.

Definition read_owner (v : jsval) : option (option string) :=
  match v with
  | JNull => Some None
  | JStr s => check str_eqb s "desktop" || str_eqb s "cli";; Some (Some s)
  | _ => None
  end.

(** [read]: [None] when it throws. *)
Definition readPolicy (file : JsonFile) : option MachinePolicy :=
  match file with
  | missing => Some no_policy
  | corrupt | unsafe => None
  | present v =>
      let? fs := record_of v in
      let? expiresAt := as_safe_int (get fs "expiresAt") in
      let? nextAllowedAt := as_safe_int (get fs "nextAllowedAt") in
      let? attempts := as_safe_int (get fs "attempts") in
      let? token := as_string (get fs "token") in
      let? owner := read_owner (get fs "owner") in
      Some {| mp_refusalRevision := get fs "refusalRevision";
              mp_lastAccount := get fs "lastAccount"; mp_owner := owner;
              mp_expiresAt := expiresAt; mp_token := token;
              mp_nextAllowedAt := nextAllowedAt; mp_attempts := attempts |}
  end.

(** The value [canonicalJson] prints. Of a document's further fields, which the
    code reads nowhere and its spread carries along, the model keeps none. *)
Definition policy_json (p : MachinePolicy) : jsval :=
  JObj [("attempts", JNum (int (mp_attempts p))); ("expiresAt", JNum (int (mp_expiresAt p)));
        ("lastAccount", mp_lastAccount p); ("nextAllowedAt", JNum (int (mp_nextAllowedAt p)));
        ("owner", match mp_owner p with None => JNull | Some o => JStr o end);
        ("refusalRevision", mp_refusalRevision p); ("token", JStr (mp_token p))].

Definition write (p : MachinePolicy) : JsonFile := present (policy_json p).

Record LeaseDecision := {
  ld_acquired : bool;
  ld_takeover : bool;
  ld_owner : option string;
  ld_expiresAt : option string }.

Section Lease.
Context `{DateHost}.

Definition leasePolicy (now requester : string) (owner expiresAt : option string)
    (leaseSeconds : Z) : option LeaseDecision :=
  let acquired :=
    match owner, expiresAt with
    | Some _, Some e => date_parse e <=t date_parse now
    | _, _ => true
    end in
  let? expires :=
    (if acquired then Some <$> iso_string (tadd (date_parse now) (leaseSeconds * 1000))
     else Some expiresAt) in
  Some {| ld_acquired := acquired;
          ld_takeover := acquired && negb (bool_decide (owner = None)) &&
                         negb (bool_decide (owner = Some requester));
          ld_owner := if acquired then Some requester else owner;
          ld_expiresAt := expires |}.

(** The file of a provider: its slug, or [None] when the name is refused. *)
Definition lease_slug (provider : string) : option string :=
  let named := replaceAll "_" "-" (toLowerCase provider) in
  let slug :=
    if str_eqb named "gemini-cli" || str_eqb named "antigravity" then "code-assist" else named in
  match slug with
  | String c s =>
      check is_lower c && str_forall (fun c => is_lower c || Ascii.eqb c "-") s &&
            (str_length s <=? 31);;
      Some slug
  | EmptyString => None
  end.

(** Another login than the one a refusal names. *)
Definition changed_refusal (current : MachinePolicy) (credentialRevision : option string) : bool :=
  match mp_refusalRevision current, credentialRevision with
  | JStr refused, Some revision => negb (str_eqb refused revision)
  | _, _ => false
  end.

Definition granted_policy (current : MachinePolicy) (now : Z) (changed : bool) (token : string) :
    MachinePolicy :=
  {| mp_refusalRevision := if changed then JNull else mp_refusalRevision current;
     mp_lastAccount := JNull; mp_owner := Some "cli"; mp_expiresAt := now + 60000;
     mp_token := token;
     mp_nextAllowedAt := if changed then 0 else mp_nextAllowedAt current;
     mp_attempts := if changed then 0 else mp_attempts current |}.

Inductive Acquisition := acq_throws | acq_refused | acq_lease (state : MachinePolicy).

(** The locked part of [acquireMachineLease]: the decision, with the document
    it leaves. *)
Definition acquire (file : JsonFile) (now : Z) (credentialRevision : option string)
    (token : string) : JsonFile * Acquisition :=
  match (let? current := readPolicy file in
         let? instant := iso_string (Some now) in
         let? expires := iso_string (Some (mp_expiresAt current)) in
         let? decision := leasePolicy instant "cli" (mp_owner current) (Some expires) 60 in
         Some (current, decision)) with
  | None => (file, acq_throws)
  | Some (current, decision) =>
      let changed := changed_refusal current credentialRevision in
      if negb (ld_acquired decision) || (now <? mp_nextAllowedAt current) && negb changed
      then (file, acq_refused)
      else
        let next := granted_policy current now changed token in
        (write next, acq_lease next)
  end.

(** [mutate]: [None] when it throws, the document then left as it is. *)
Definition mutate (file : JsonFile) (token : string)
    (action : MachinePolicy -> option MachinePolicy) : option JsonFile :=
  let? current := readPolicy file in
  check str_eqb (mp_token current) token;;
  let? next := action current in
  Some (write next).

Definition set_expiresAt (at_ : Z) (p : MachinePolicy) : MachinePolicy :=
  {| mp_refusalRevision := mp_refusalRevision p; mp_lastAccount := mp_lastAccount p;
     mp_owner := mp_owner p; mp_expiresAt := at_; mp_token := mp_token p;
     mp_nextAllowedAt := mp_nextAllowedAt p; mp_attempts := mp_attempts p |}.

Definition heartbeat (file : JsonFile) (token : string) (at_ : Z) : option JsonFile :=
  mutate file token (fun current =>
    check bool_decide (mp_owner current = Some "cli") && (at_ <? mp_expiresAt current);;
    Some (set_expiresAt (at_ + 60000) current)).

Definition complete (file : JsonFile) (token : string) (nextAllowedAt attempts : Z)
    (refusalRevision : option string) : option JsonFile :=
  mutate file token (fun current =>
    Some {| mp_refusalRevision := from_option JStr JNull refusalRevision;
            mp_lastAccount := mp_lastAccount current; mp_owner := mp_owner current;
            mp_expiresAt := mp_expiresAt current; mp_token := mp_token current;
            mp_nextAllowedAt := nextAllowedAt; mp_attempts := attempts |}).

Definition release (file : JsonFile) (token : string) : JsonFile :=
  default file (mutate file token (fun current =>
    Some {| mp_refusalRevision := mp_refusalRevision current;
            mp_lastAccount := mp_lastAccount current; mp_owner := None; mp_expiresAt := 0;
            mp_token := mp_token current; mp_nextAllowedAt := mp_nextAllowedAt current;
            mp_attempts := mp_attempts current |})).

(** [None] when it throws. *)
Definition stillOwned (file : JsonFile) (token : string) (at_ : Z) : option bool :=
  let? current := readPolicy file in
  Some (str_eqb (mp_token current) token && bool_decide (mp_owner current = Some "cli") &&
        (at_ <? mp_expiresAt current)).

(** ** Histories *)

Inductive LeaseEvent :=
| le_acquire (now : Z) (credentialRevision : option string) (token : string)
| le_heartbeat (token : string) (at_ : Z)
| le_complete (token : string) (nextAllowedAt attempts : Z) (refusalRevision : option string)
| le_release (token : string).

Definition lease_step (file : JsonFile) (e : LeaseEvent) : JsonFile :=
  match e with
  | le_acquire now revision token => (acquire file now revision token).1
  | le_heartbeat token at_ => default file (heartbeat file token at_)
  | le_complete token next attempts revision => default file (complete file token next attempts revision)
  | le_release token => release file token
  end.

Definition event_token (e : LeaseEvent) : string :=
  match e with
  | le_acquire _ _ t | le_heartbeat t _ | le_complete t _ _ _ | le_release t => t
  end.

Definition is_acquire (e : LeaseEvent) : bool :=
  match e with le_acquire _ _ _ => true | _ => false end.
End Lease.

(** ** Reading back what was written *)

Lemma read_written p q : readPolicy (write p) = Some q -> q = p.
Proof.
  destruct p as [refusal account owner expires token next attempts].
  unfold write, policy_json, readPolicy. cbn [record_of].
  change (get _ "expiresAt") with (JNum (int expires)).
  change (get _ "nextAllowedAt") with (JNum (int next)).
  change (get _ "attempts") with (JNum (int attempts)).
  change (get _ "token") with (JStr token).
  change (get _ "owner") with (match owner with None => JNull | Some o => JStr o end).
  change (get _ "refusalRevision") with refusal. change (get _ "lastAccount") with account.
  unfold as_safe_int. cbn [as_num as_string mp_expiresAt mp_nextAllowedAt mp_attempts].
  destruct (to_safe_int (int expires)) as [e|] eqn:Ee; [|done].
  destruct (to_safe_int (int next)) as [n|] eqn:En; [|done].
  destruct (to_safe_int (int attempts)) as [a|] eqn:Ea; [|done].
  apply to_safe_int_int_Some in Ee as ->, En as ->, Ea as ->.
  destruct owner as [o|]; simpl; [|by intros [=]].
  destruct (str_eqb o "desktop" || str_eqb o "cli"); [|done]. by intros [= <-].
Qed.

Definition safe_integer (n : Z) : Prop := Z.abs n <= 2 ^ 53 - 1.

Definition known_owner (owner : option string) : Prop :=
  owner = None \/ owner = Some "desktop" \/ owner = Some "cli".

Lemma read_write p :
  safe_integer (mp_expiresAt p) -> safe_integer (mp_nextAllowedAt p) ->
  safe_integer (mp_attempts p) -> known_owner (mp_owner p) ->
  readPolicy (write p) = Some p.
Proof.
  destruct p as [refusal account owner expires token next attempts]. simpl. intros He Hn Ha Ho.
  unfold write, policy_json, readPolicy. cbn [record_of].
  change (get _ "expiresAt") with (JNum (int expires)).
  change (get _ "nextAllowedAt") with (JNum (int next)).
  change (get _ "attempts") with (JNum (int attempts)).
  change (get _ "owner") with (match owner with None => JNull | Some o => JStr o end).
  unfold as_safe_int. cbn [as_num mp_expiresAt mp_nextAllowedAt mp_attempts].
  rewrite !to_safe_int_int by done. by destruct Ho as [-> | [-> | ->]].
Qed.

(** ** What an acquisition decides *)

Section Laws.
Context `{DateHost}.

Definition lease_free (p : MachinePolicy) (now : Z) : bool :=
  bool_decide (mp_owner p = None) || (mp_expiresAt p <=? now).

Definition may_ask (p : MachinePolicy) (now : Z) (revision : option string) : bool :=
  (mp_nextAllowedAt p <=? now) || changed_refusal p revision.

Lemma leasePolicy_acquired now requester owner t decision :
  valid_time now = true -> valid_time t = true ->
  leasePolicy (to_iso now) requester owner (Some (to_iso t)) 60 = Some decision ->
  ld_acquired decision = bool_decide (owner = None) || (t <=? now).
Proof.
  intros Hn Ht. unfold leasePolicy. rewrite !date_parse_to_iso by done.
  generalize (iso_string (tadd (Some now) (60 * 1000))) as expires. intros expires.
  destruct owner as [o|]; simpl; [|destruct expires; intros [= <-]; done].
  destruct (t <=? now); [destruct expires|]; intros [= <-]; done.
Qed.

Lemma leasePolicy_returns now requester owner t :
  valid_time now = true -> valid_time (now + 60000) = true -> valid_time t = true ->
  is_Some (leasePolicy (to_iso now) requester owner (Some (to_iso t)) 60).
Proof.
  intros Hn Hn' Ht. unfold leasePolicy. rewrite !date_parse_to_iso by done.
  assert (iso_string (tadd (Some now) (60 * 1000)) = Some (to_iso (now + 60000))) as ->.
  { cbv [iso_string tadd fmap option_fmap option_map]. change (60 * 1000) with 60000. by rewrite Hn'. }
  destruct (match owner with Some _ => _ | None => _ end); by eexists.
Qed.

Lemma acquire_lease file now revision token p file' :
  acquire file now revision token = (file', acq_lease p) ->
  exists current,
    readPolicy file = Some current /\ lease_free current now = true /\
    may_ask current now revision = true /\
    p = granted_policy current now (changed_refusal current revision) token /\ file' = write p.
Proof.
  unfold acquire, iso_string. destruct (readPolicy file) as [current|]; [|done].
  destruct (valid_time now) eqn:Hn; [|done].
  destruct (valid_time (mp_expiresAt current)) eqn:He; [|done].
  destruct (leasePolicy _ _ _ _ _) as [decision|] eqn:Ed; [|done].
  apply leasePolicy_acquired in Ed; [|done..].
  case_match eqn:Eg; [done|]. intros [= <- <-].
  exists current. apply orb_false_iff in Eg as [Ea Em].
  split; [done|]. unfold lease_free, may_ask. rewrite <- Ed.
  split; [by apply negb_false_iff|]. split; [|done].
  apply andb_false_iff in Em as [Em|Em].
  - apply Z.ltb_ge in Em. apply orb_true_iff. left. by apply Z.leb_le.
  - apply negb_false_iff in Em. rewrite Em. apply orb_true_r.
Qed.

Lemma acquire_document file now revision token :
  (acquire file now revision token).1 = file \/
  exists p, acquire file now revision token = (write p, acq_lease p) /\ mp_token p = token.
Proof.
  unfold acquire. repeat case_match; eauto.
Qed.

Lemma valid_safe t : valid_time t = true -> safe_integer t.
Proof. unfold valid_time, max_time, safe_integer. rewrite Z.leb_le. lia. Qed.

Lemma acquire_eq file now revision token current :
  readPolicy file = Some current ->
  valid_time now = true -> valid_time (now + 60000) = true ->
  valid_time (mp_expiresAt current) = true ->
  acquire file now revision token =
    if lease_free current now && may_ask current now revision
    then (write (granted_policy current now (changed_refusal current revision) token),
          acq_lease (granted_policy current now (changed_refusal current revision) token))
    else (file, acq_refused).
Proof.
  intros Er Hn Hn' He.
  destruct (leasePolicy_returns now "cli" (mp_owner current) (mp_expiresAt current) Hn Hn' He)
    as [decision Ed].
  pose proof (leasePolicy_acquired _ _ _ _ _ Hn He Ed) as Ea.
  unfold acquire, iso_string. rewrite Er, Hn, He, Ed, Ea. unfold may_ask, lease_free.
  rewrite (Z.leb_antisym now (mp_nextAllowedAt current)).
  by destruct (bool_decide (mp_owner current = None) || (mp_expiresAt current <=? now)),
    (now <? mp_nextAllowedAt current), (changed_refusal current revision).
Qed.

Lemma read_granted current now changed token :
  safe_integer (mp_nextAllowedAt current) -> safe_integer (mp_attempts current) ->
  valid_time (now + 60000) = true ->
  readPolicy (write (granted_policy current now changed token)) =
    Some (granted_policy current now changed token).
Proof.
  intros Hs Ha Hn. apply read_write.
  - by apply valid_safe.
  - by destruct changed.
  - by destruct changed.
  - by right; right.
Qed.

(** An acquisition is granted exactly when the lease is free, or has
    expired, and the provider's deadline has passed, or another login stands
    where the refused one stood. It then holds the lease for a minute, and the
    document read back says so. In particular the lease of a process that died
    is granted to the next one a minute after its last heartbeat. *)
Theorem acquisition_exact file now revision token current :
  readPolicy file = Some current -> safe_integer (mp_nextAllowedAt current) ->
  safe_integer (mp_attempts current) ->
  valid_time now = true -> valid_time (now + 60000) = true ->
  valid_time (mp_expiresAt current) = true ->
  let granted := granted_policy current now (changed_refusal current revision) token in
  if lease_free current now && may_ask current now revision then
    acquire file now revision token = (write granted, acq_lease granted) /\
    readPolicy (write granted) = Some granted /\
    (forall at_, stillOwned (write granted) token at_ = Some (at_ <? now + 60000))
  else acquire file now revision token = (file, acq_refused).
Proof.
  intros Er Hs Ha Hn Hn' He granted.
  pose proof (acquire_eq file now revision token current Er Hn Hn' He) as Eq. fold granted in Eq.
  destruct (lease_free current now && may_ask current now revision); [|done].
  pose proof (read_granted current now (changed_refusal current revision) token Hs Ha Hn') as Eg.
  fold granted in Eg. split; [done|]. split; [done|]. intros at_. unfold stillOwned. rewrite Eg.
  unfold granted. cbn [mp_token granted_policy mp_owner mp_expiresAt]. by rewrite str_eqb_refl.
Qed.

(** ** Exclusion *)

(** What the other processes may do while a lease lives: ask for it before it
    expires, or act under tokens of their own. *)
Definition while_live (p : MachinePolicy) (e : LeaseEvent) : Prop :=
  match e with
  | le_acquire now _ _ => now < mp_expiresAt p
  | _ => event_token e <> mp_token p
  end.

Lemma mutate_other file token action p :
  readPolicy file = Some p -> token <> mp_token p -> mutate file token action = None.
Proof.
  intros Er Ht. unfold mutate. rewrite Er. case_match eqn:E; [|done].
  apply str_eqb_eq in E. congruence.
Qed.

Lemma live_step file p e :
  readPolicy file = Some p -> mp_owner p <> None -> while_live p e -> lease_step file e = file.
Proof.
  intros Er Ho. destruct e as [now revision token|token at_|token next attempts revision|token];
    simpl; intros Hw;
    try (unfold heartbeat, complete, release; by rewrite (mutate_other _ _ _ _ Er)).
  destruct (acquire_document file now revision token) as [E|(q & E & _)]; [done|].
  apply acquire_lease in E as (current & Er' & Hfree & _).
  rewrite Er in Er'. injection Er' as <-. unfold lease_free in Hfree.
  apply orb_true_iff in Hfree as [Hb|Hb]; bools; [done|lia].
Qed.

(** C2: A live lease is exclusive. As long as every other process asks before
    it expires, whatever they do leaves the document as the holder wrote it,
    none of them is granted the lease, and the holder still owns it. *)
Theorem a_live_lease_is_exclusive file p events :
  readPolicy file = Some p -> mp_owner p <> None -> Forall (while_live p) events ->
  foldl lease_step file events = file /\
  (forall now revision token q, now < mp_expiresAt p ->
     (acquire (foldl lease_step file events) now revision token).2 <> acq_lease q) /\
  (forall at_, mp_owner p = Some "cli" -> at_ < mp_expiresAt p ->
     stillOwned (foldl lease_step file events) (mp_token p) at_ = Some true).
Proof.
  intros Er Ho Hall.
  assert (E : foldl lease_step file events = file).
  { clear -Er Ho Hall H. induction Hall as [|e events He _ IH]; [done|].
    simpl. by rewrite (live_step _ _ _ Er Ho He). }
  rewrite E. split; [done|]. split.
  - intros now revision token q Hlt Hq.
    destruct (acquire file now revision token) as [file' r] eqn:Ea. simpl in Hq. subst r.
    apply acquire_lease in Ea as (current & Er' & Hfree & _). rewrite Er in Er'.
    injection Er' as <-. unfold lease_free in Hfree.
    apply orb_true_iff in Hfree as [Hb|Hb]; bools; [done|lia].
  - intros at_ Hcli Hlt. unfold stillOwned. rewrite Er, Hcli, str_eqb_refl. simpl.
    f_equal. by apply Z.ltb_lt.
Qed.

(** ** Losing the lease *)

Definition not_held_by (token : string) (file : JsonFile) : Prop :=
  forall p, readPolicy file = Some p -> mp_token p <> token.

Lemma not_held_write token p : mp_token p <> token -> not_held_by token (write p).
Proof. intros Hp q ->%read_written. done. Qed.

Lemma mutate_not_held token file t action :
  (forall p q, action p = Some q -> mp_token q = mp_token p) ->
  not_held_by token file -> not_held_by token (default file (mutate file t action)).
Proof.
  intros Hact Hf. unfold mutate. destruct (readPolicy file) as [p|] eqn:Er; [|done].
  destruct (str_eqb (mp_token p) t); [|done].
  destruct (action p) as [q|] eqn:Eq; [|done]. simpl. apply not_held_write.
  rewrite (Hact _ _ Eq). by apply Hf.
Qed.

Lemma lease_step_not_held token file e :
  not_held_by token file -> (is_acquire e = true -> event_token e <> token) ->
  not_held_by token (lease_step file e).
Proof.
  intros Hf He. destruct e as [now revision t|t at_|t next attempts revision|t]; simpl in *.
  - destruct (acquire_document file now revision t) as [->|(q & -> & Eq)]; [done|].
    simpl. apply not_held_write. rewrite Eq. by apply He.
  - apply mutate_not_held; [|done]. intros p q E. by case_match; [injection E as <-|].
  - apply mutate_not_held; [|done]. by intros p q [= <-].
  - apply mutate_not_held; [|done]. by intros p q [= <-].
Qed.

Lemma own_step_lost token file e :
  not_held_by token file -> is_acquire e = false -> event_token e = token ->
  lease_step file e = file.
Proof.
  intros Hf Ha Et.
  assert (Hm : forall action, mutate file token action = None).
  { intros action. unfold mutate. destruct (readPolicy file) as [p|] eqn:Er; [|done].
    case_match eqn:E; [|done]. apply str_eqb_eq in E. by destruct (Hf p Er). }
  destruct e; simpl in *; try done; subst; unfold heartbeat, complete, release; by rewrite Hm.
Qed.

(** A lost lease writes nothing. Once another process has been granted the
    lease, every heartbeat, completion and release of the old holder is
    without effect on any later history, and the old holder is never again
    told that it owns the lease. Tokens are drawn once. *)
Theorem a_lost_lease_writes_nothing file now revision token p old events :
  (acquire file now revision token).2 = acq_lease p -> token <> old ->
  Forall (fun e => is_acquire e = true -> event_token e <> old) events ->
  let taken := (acquire file now revision token).1 in
  foldl lease_step taken events =
    foldl lease_step taken (filter (fun e => event_token e <> old) events) /\
  forall at_, stillOwned (foldl lease_step taken events) old at_ <> Some true.
Proof.
  intros Hq Hne Hall taken.
  assert (Hheld : not_held_by old taken).
  { unfold taken. destruct (acquire_document file now revision token) as [Ef|(q & -> & Eq)];
      [|simpl; apply not_held_write; by rewrite Eq].
    destruct (acquire file now revision token) as [file' r] eqn:Ea. simpl in *. subst.
    apply acquire_lease in Ea as (current & Er & _ & _ & -> & ->). by apply not_held_write. }
  clearbody taken. clear Hq. revert taken Hheld.
  induction Hall as [|e events He _ IH]; intros f Hf; simpl.
  - split; [done|]. intros at_. unfold stillOwned. destruct (readPolicy f) as [q|] eqn:Er; [|done].
    destruct (str_eqb (mp_token q) old) eqn:E; [|done]. apply str_eqb_eq in E. by destruct (Hf q Er).
  - rewrite filter_cons. case_decide as Hd.
    + simpl. apply IH. by apply lease_step_not_held.
    + destruct (is_acquire e) eqn:Ea; [by destruct (He eq_refl)|].
      rewrite (own_step_lost _ _ _ Hf Ea Hd). by apply IH.
Qed.

(** ** The deadline *)

(** The login an acquisition presents is the one the refusal names, if any. *)
Definition same_login (refusal revision : option string) : Prop :=
  refusal = None \/ revision = None \/ revision = refusal.

Definition keeps_deadline (refusal : option string) (e : LeaseEvent) : Prop :=
  match e with
  | le_acquire _ revision _ => same_login refusal revision
  | le_complete _ _ _ _ => False
  | _ => True
  end.

Definition deadline (next : Z) (refusal : option string) (file : JsonFile) : Prop :=
  forall p, readPolicy file = Some p ->
    mp_nextAllowedAt p = next /\ mp_refusalRevision p = from_option JStr JNull refusal.

Lemma same_login_unchanged refusal revision p :
  mp_refusalRevision p = from_option JStr JNull refusal -> same_login refusal revision ->
  changed_refusal p revision = false.
Proof.
  unfold changed_refusal. intros ->. intros [->|[->| ->]]; [done|by destruct refusal|].
  destruct refusal; [|done]. simpl. by rewrite str_eqb_refl.
Qed.

Lemma mutate_deadline next refusal file t action :
  (forall p q, action p = Some q -> mp_nextAllowedAt q = mp_nextAllowedAt p /\
                                  mp_refusalRevision q = mp_refusalRevision p) ->
  deadline next refusal file -> deadline next refusal (default file (mutate file t action)).
Proof.
  intros Hact Hf. unfold mutate. destruct (readPolicy file) as [p|] eqn:Er; [|done].
  destruct (str_eqb (mp_token p) t); [|done].
  destruct (action p) as [q|] eqn:Eq; [|done]. simpl. intros q' ->%read_written.
  destruct (Hact _ _ Eq) as [-> ->]. by apply Hf.
Qed.

Lemma lease_step_deadline next refusal file e :
  deadline next refusal file -> keeps_deadline refusal e ->
  deadline next refusal (lease_step file e).
Proof.
  intros Hf He. destruct e as [now revision t|t at_|t n attempts revision|t]; simpl in *.
  - destruct (acquire_document file now revision t) as [->|(q & E & _)]; [done|].
    pose proof (acquire_lease _ _ _ _ _ _ E) as (current & Er & _ & _ & Eq & _).
    rewrite E. simpl. intros q' ->%read_written. destruct (Hf current Er) as [Hn Hr].
    rewrite Eq, (same_login_unchanged refusal) by done. by split.
  - apply mutate_deadline; [|done]. intros p q E. by case_match; [injection E as <-|].
  - done.
  - apply mutate_deadline; [|done]. by intros p q [= <-].
Qed.

(** A deadline is honoured by every process. After a completion named the
    instant before which the provider must not be asked, no acquisition before
    that instant is granted, whatever leases were taken, renewed, lost or
    released meanwhile, until another completion; unless the deadline was a
    refusal of one login and another login is presented. *)
Theorem the_deadline_is_honoured file token next attempts refusal file' events now revision t p :
  complete file token next attempts refusal = Some file' ->
  Forall (keeps_deadline refusal) events ->
  now < next -> same_login refusal revision ->
  (acquire (foldl lease_step file' events) now revision t).2 <> acq_lease p.
Proof.
  intros Ec Hall Hlt Hsame Hq.
  assert (Hd : deadline next refusal file').
  { unfold complete, mutate in Ec. destruct (readPolicy file) as [q|]; [|done].
    destruct (str_eqb _ _); [|done]. injection Ec as <-. by intros q' ->%read_written. }
  assert (Hend : deadline next refusal (foldl lease_step file' events)).
  { clear -Hd Hall. revert file' Hd. induction Hall as [|e events He _ IH]; [done|].
    intros f Hf. simpl. apply IH. by apply lease_step_deadline. }
  destruct (acquire _ now revision t) as [f r] eqn:Ea. simpl in Hq. subst r.
  apply acquire_lease in Ea as (current & Er & _ & Hask & _).
  destruct (Hend current Er) as [Hn Hr]. unfold may_ask in Hask.
  rewrite (same_login_unchanged refusal) in Hask by done. rewrite orb_false_r in Hask.
  apply Z.leb_le in Hask. lia.
Qed.
End Laws.

(** ** Witnesses *)

Definition held_policy : MachinePolicy := granted_policy no_policy 0 false "a".

Lemma acquisition_exact_witness :
  acquire (H:=strict_host) missing 0 None "a" = (write held_policy, acq_lease held_policy) /\
  stillOwned (write held_policy) "a" 59999 = Some true.
Proof.
  destruct (acquisition_exact (H:=strict_host) missing 0 None "a" no_policy eq_refl
    ltac:(by vm_compute) ltac:(by vm_compute) eq_refl eq_refl eq_refl) as (E & _ & Hown).
  split; [exact E|]. exact (Hown 59999).
Defined.

Lemma a_live_lease_is_exclusive_witness :
  stillOwned (foldl (lease_step (H:=strict_host)) (write held_policy)
    [le_acquire 30000 None "b"; le_release "b"]) "a" 59999 = Some true.
Proof.
  assert (Hall : Forall (while_live held_policy) [le_acquire 30000 None "b"; le_release "b"])
    by (repeat constructor; by vm_compute).
  destruct (a_live_lease_is_exclusive (H:=strict_host) (write held_policy) held_policy
    [le_acquire 30000 None "b"; le_release "b"] ltac:(by vm_compute) ltac:(done) Hall)
    as (_ & _ & Hown).
  exact (Hown 59999 eq_refl eq_refl).
Defined.

Definition late_events : list LeaseEvent :=
  [le_heartbeat "a" 70000; le_complete "a" 0 0 None; le_release "a"].

Lemma a_lost_lease_writes_nothing_witness :
  let taken := (acquire (H:=strict_host) (write held_policy) 60000 None "b").1 in
  foldl (lease_step (H:=strict_host)) taken late_events = taken.
Proof.
  assert (Ht : "b" <> "a") by done.
  assert (Hall : Forall (fun e => is_acquire e = true -> event_token e <> "a") late_events)
    by (by repeat (apply Forall_cons; split; [done|])).
  destruct (acquire (H:=strict_host) (write held_policy) 60000 None "b") as [taken r] eqn:E.
  assert (Er : r = acq_lease (granted_policy held_policy 60000 false "b")).
  { change r with (taken, r).2. rewrite <- E. by vm_compute. }
  destruct (a_lost_lease_writes_nothing (H:=strict_host) (write held_policy) 60000 None "b"
    (granted_policy held_policy 60000 false "b") "a" late_events) as [Hf _];
    [by rewrite E|exact Ht|exact Hall|].
  rewrite E in Hf. exact Hf.
Defined.

Lemma not_granted r : (forall p, r <> acq_lease p) -> r <> acq_throws -> r = acq_refused.
Proof. destruct r as [| |p]; intros Hp Ht; [done|done|]. by destruct (Hp p). Qed.

Definition after_round : JsonFile :=
  default missing (complete (write held_policy) "a" 900000 1 None).

Lemma the_deadline_is_honoured_witness :
  (acquire (H:=strict_host) (foldl (lease_step (H:=strict_host)) after_round [le_release "a"])
     899999 None "b").2 = acq_refused.
Proof.
  assert (E : complete (write held_policy) "a" 900000 1 None = Some after_round) by (by vm_compute).
  assert (Hall : Forall (keeps_deadline None) [le_release "a"]) by (by apply Forall_singleton).
  assert (Hlt : 899999 < 900000) by lia.
  assert (Hsame : same_login None None) by (by left).
  apply not_granted; [|by vm_compute]. intros p.
  exact (the_deadline_is_honoured (H:=strict_host) (write held_policy) "a" 900000 1 None after_round
    [le_release "a"] 899999 None "b" p E Hall Hlt Hsame).
Defined.
