(* ===== verification/Identity.v ===== *)
(** * Whose reading it is

    [identity.ts]: the opaque account identity a reading is filed under, and
    the revision a refusal names its login by. The digest of [node:crypto] and
    the decoding of a token's claims are the host's. *)
From S2P Require Import Prelude JsNum JsDate JsValue Text Types Json Sha256.
Local Open Scope string_scope.
Local Open Scope Z_scope.
Local Open Scope list_scope.
Local Open Scope js_scope.

(** [createHash("sha256")...digest("hex")] over bytes, which [node:crypto]
    documents as sixty four lowercase hexadecimal digits; and
    [JSON.parse(Buffer.from(part, "base64url").toString("utf8"))], [None] when
    it throws. *)
Class CryptoHost := {
  digest_hex : list Z -> string;
  digest_hex_shape bytes :
    str_length (digest_hex bytes) = 64 /\ str_forall is_hex (digest_hex bytes) = true;
  token_claims : string -> option jsval }.

(** SHA-256 as [activity/contract.ts] computes it; no claims. *)
#[export, refine] Instance plain_crypto : CryptoHost | 100 :=
  {| digest_hex bytes := hex_words (sha256 bytes); token_claims _ := None |}.
Proof.
  intros bytes. pose proof (hex_words_shape (sha256 bytes)) as [Hl Hf].
  rewrite length_sha256 in Hl. by rewrite Hl, Hf.
Defined.

Inductive AcquisitionCredentialOrigin := vendor_store | vendor_file | co_user_key.

#[export] Instance AcquisitionCredentialOrigin_eq : EqDecision AcquisitionCredentialOrigin.
Proof. solve_decision. Defined.

Record AcquiredCredential := {
  cd_secret : string;
  cd_accountId : option string;
  cd_identityMaterial : option string;
  cd_expiresAtMilliseconds : option num;
  cd_origin : AcquisitionCredentialOrigin;
  cd_codexHome : option string;
  cd_executable : option string }.

(** [provider.toLowerCase().replaceAll("_", "-")] *)
Definition provider_slug (provider : ProviderCode) : string :=
  replaceAll "_" "-" (toLowerCase (name_of provider)).

Definition PROVIDER_SINGLETON_MATERIAL : string := "one-active-account-without-stable-identity".

Definition names_of_account : list string :=
  ["account_id"; "accountId"; "accountUuid"; "workspace_id"; "workspaceId"; "user_id"; "userId"].

(** [/[\u0000-\u001f\u007f]/] *)
Definition is_control (c : ascii) : bool := in_range 0 31 c || (code c =? 127).

(** A text an account may be named by. *)
Definition usable_text (v : jsval) : option string :=
  let? found := as_string v in
  check (0 <? str_length (trim found)) && (byte_length (trim found) <=? 512) &&
        str_forall (fun c => negb (is_control c)) found;;
  Some (trim found).

Fixpoint field (value : jsval) (names : list string) : option string :=
  match names with
  | [] => None
  | name :: names =>
      match usable_text (get (default [] (record_of value)) name) with
      | Some found => Some found
      | None => field value names
      end
  end.

(** [a ?? b] *)
Definition orElse {A} (a b : option A) : option A := match a with Some x => Some x | None => b end.

Section Identity.
Context `{CryptoHost}.

Definition opaqueAccountId (provider : ProviderCode) (material : string) : string :=
  let slug := provider_slug provider in
  slug +:+ "-" +:+ str_take 24 (digest_hex (utf8 slug ++ [0] ++ utf8 material)).

Definition credentialRevision (secret : string) : string := digest_hex (utf8 secret).

(** The claims of a token of three parts and a bounded length. *)
Definition jwt_claims (token : string) : option jsval :=
  let parts := split_on "." token "" in
  check (length parts =? 3)%nat && (str_length token <=? 4096);;
  let? part := parts !! 1%nat in token_claims part.

Definition jwtIdentity (token : string) : option string :=
  let? claims := jwt_claims token in
  orElse
    (field claims ["chatgpt_account_id"; "account_id"; "accountId"; "organization_id"; "organizationId"])
    (field claims ["sub"; "user_id"; "userId"]).

Definition credentialProviderAccount (provider : ProviderCode) (container root : jsval)
    (secret : string) : option string :=
  orElse (orElse (field container names_of_account) (field root names_of_account))
    (let? claims := jwt_claims secret in
     match provider with
     | CODEX => field claims ["chatgpt_account_id"; "account_id"]
     | GROK => field claims ["user_id"; "userId"; "sub"]
     | _ => None
     end).

Definition credentialIdentityMaterial (container root : jsval) (secret : string)
    (hint : option string) : option string :=
  orElse (field container names_of_account) (orElse (field root names_of_account)
    (orElse hint (orElse (jwtIdentity secret)
      (jwtIdentity (default "" (field container ["id_token"; "idToken"])))))).

Definition acquisitionAccountId (provider : ProviderCode) (credential : AcquiredCredential) : string :=
  if bool_decide (provider = ANTIGRAVITY) && bool_decide (cd_origin credential = vendor_store)
  then opaqueAccountId provider PROVIDER_SINGLETON_MATERIAL
  else opaqueAccountId provider
    (default PROVIDER_SINGLETON_MATERIAL
      (orElse (cd_identityMaterial credential)
        (orElse (cd_accountId credential) (jwtIdentity (cd_secret credential))))).

(** ** The identity is one the cache accepts *)

Lemma str_take_shape p n s :
  str_forall p s = true -> 0 <= n <= str_length s ->
  str_forall p (str_take n s) = true /\ str_length (str_take n s) = n.
Proof.
  unfold str_take. intros Hp Hn. rewrite <- (Z2Nat.id n) at 3 by lia.
  assert (Hk : Z.of_nat (Z.to_nat n) <= str_length s) by lia. clear Hn. revert Hp Hk.
  generalize (Z.to_nat n) as k. induction s as [|c s IH]; intros k Hp Hk.
  - destruct k; [done|]. simpl in Hk. lia.
  - destruct k as [|k]; [done|]. cbn [String.substring str_forall str_length] in *.
    apply andb_true_iff in Hp as [Hc Hp]. destruct (IH k Hp) as [Hf Hl]; [lia|].
    rewrite Hc, Hf. split; [done|lia].
Qed.

Lemma slug_shape provider :
  exists c s, provider_slug provider = String c s /\ (is_lower c = true) /\
    str_forall (fun c => is_lower c || is_digit c || Ascii.eqb c "-") s = true /\ str_length s <= 10.
Proof. destruct provider; (do 2 eexists; split; [vm_compute; reflexivity|by vm_compute]). Qed.

(** Every identity the acquisition files a reading under is one the
    normalizer accepts, whatever the provider names the account: the material
    never reaches the cache, and no account is refused for its name. *)
Theorem an_opaque_identity_is_always_valid provider material :
  account_id_pattern (opaqueAccountId provider material) = true.
Proof.
  unfold opaqueAccountId.
  destruct (digest_hex_shape (utf8 (provider_slug provider) ++ [0] ++ utf8 material)) as [Hl Hf].
  destruct (str_take_shape is_hex 24 _ Hf) as [Hf' Hl']; [lia|].
  set (digest := str_take 24 _) in *.
  destruct (slug_shape provider) as (c & s & -> & Hc & Hs & Hn).
  change (String c s +:+ "-" +:+ digest) with (String c (s +:+ String "-" digest)).
  unfold account_id_pattern. rewrite Hc, str_forall_app, Hs, str_length_app.
  cbn [str_forall str_length orb andb]. rewrite Hl'.
  assert (str_forall (fun c => is_lower c || is_digit c || Ascii.eqb c "-") digest = true) as ->.
  { eapply str_forall_impl; [|exact Hf']. intros a. unfold is_hex, is_lower, in_range.
    rewrite !orb_true_iff, !andb_true_iff, !Z.leb_le. intros [?|?]; [auto|left; left; lia]. }
  rewrite (proj2 (Z.leb_le _ _)) by lia. by rewrite !orb_true_r.
Qed.
End Identity.
