(* ===== verification/Cadence.v ===== *)
(** * When a provider is asked again

    [cadence.ts] and [retryPolicy] of [cache.ts]: how long a provider is left
    alone after each outcome, when the next attempt is due, and the schedule
    document the instants are kept in. *)
From S2P Require Import Prelude JsNum JsDate JsValue Text Types Schedule Files.
Local Open Scope string_scope.
Local Open Scope Z_scope.
Local Open Scope list_scope.
Local Open Scope js_scope.

(** [transport.ts ACQUISITION_OUTCOMES]: how a read ended. *)
Inductive AcquisitionOutcome :=
  | oc_ok | oc_unauthorized | oc_rate_limited | oc_blocked | oc_remote_error | oc_transport
  | oc_too_large | oc_drift | oc_identity_refused | oc_quota_unavailable | oc_not_running.

#[export] Instance AcquisitionOutcome_eq : EqDecision AcquisitionOutcome.
Proof. solve_decision. Defined.

#[export] Instance ACQUISITION_OUTCOMES : Closed AcquisitionOutcome := {
  all_of := [oc_ok; oc_unauthorized; oc_rate_limited; oc_blocked; oc_remote_error; oc_transport;
             oc_too_large; oc_drift; oc_identity_refused; oc_quota_unavailable; oc_not_running];
  name_of o :=
    match o with
    | oc_ok => "ok" | oc_unauthorized => "unauthorized" | oc_rate_limited => "rate_limited"
    | oc_blocked => "blocked" | oc_remote_error => "remote_error" | oc_transport => "transport"
    | oc_too_large => "too_large" | oc_drift => "drift"
    | oc_identity_refused => "identity_refused" | oc_quota_unavailable => "quota_unavailable"
    | oc_not_running => "not_running"
    end }.

#[export] Instance outcomes_laws : ClosedLaws AcquisitionOutcome. Proof. solve_closed. Qed.

Inductive AcquisitionPhase :=
  | ph_lease | ph_credential | ph_probe | ph_request | ph_parse | ph_persist.

#[export] Instance AcquisitionPhase_eq : EqDecision AcquisitionPhase.
Proof. solve_decision. Defined.

#[export] Instance ACQUISITION_PHASES : Closed AcquisitionPhase := {
  all_of := [ph_lease; ph_credential; ph_probe; ph_request; ph_parse; ph_persist];
  name_of p :=
    match p with
    | ph_lease => "lease" | ph_credential => "credential" | ph_probe => "probe"
    | ph_request => "request" | ph_parse => "parse" | ph_persist => "persist"
    end }.

#[export] Instance phases_laws : ClosedLaws AcquisitionPhase. Proof. solve_closed. Qed.

Definition ACQUISITION_INTERVAL_SECONDS : Z := 900.
Definition CLAUDE_ACQUISITION_INTERVAL_SECONDS : Z := 300.
Definition ACQUISITION_BLOCKED_BACKOFF_SECONDS : Z := 86400.
Definition MAX_POLICY_TIMESTAMP : Z := 253402300799999.
Definition ACQUISITION_STATE_VERSION : Z := 1.
Definition MAX_SCHEDULE_ENTRIES : nat := 32.

(** ** The retry policy *)

(** [/^\d+$/] *)
Definition all_decimal (s : string) : bool :=
  match s with EmptyString => false | _ => str_forall is_digit s end.

(** [Number(raw)] of a text of decimal digits. *)
Definition decimal_number (s : string) : num := lit (digits_value 0 s) 1.

(** [/^[A-Za-z]{3}, /] *)
Definition day_name (s : string) : bool :=
  let letter c := is_upper c || is_lower c in
  match s with
  | String a (String b (String c (String "," (String " " _)))) => letter a && letter b && letter c
  | _ => false
  end.

(** [2 ** k] *)
Definition pow2 (k : Z) : num := if k <? -1074 then int 0 else Fin (2 ^ (k + 1074)).

(** [localDelaySeconds] *)
Definition local_delay (attemptCount : Z) (jitterSeconds : num) : num :=
  nmin (int 60 ⊗ pow2 (Z.min attemptCount 4)) (int 900) ⊕ nmax (int 0) jitterSeconds.

Record RetryPolicy := {
  rt_localDelaySeconds : num;
  rt_serverDeadline : option string;
  rt_nextAllowedAt : string;
  rt_blockedUntil : option string }.

Section Cadence.
Context `{DateHost}.

(** What the header asks for, as an instant. *)
Definition server_instant (retryAfter : option string) (now : num) : num :=
  match trim <$> retryAfter with
  | None => NaN
  | Some raw =>
      if all_decimal raw
      then nmin (int MAX_POLICY_TIMESTAMP) (now ⊕ decimal_number raw ⊗ int 1000)
      else if day_name raw then time_num (date_parse raw) else NaN
  end.

(** [None]: [toISOString] threw. *)
Definition retryPolicy (attemptCount : Z) (retryAfter : option string) (now : string)
    (jitterSeconds : num) (layer : string) : option RetryPolicy :=
  let now := time_num (date_parse now) in
  let server := server_instant retryAfter now in
  let localDelaySeconds := local_delay attemptCount jitterSeconds in
  let ceiling :=
    now ⊕ int (if str_eqb layer "collector" then 86400 else 604800) ⊗ int 1000 in
  let cappedServer := nmin server ceiling in
  let? serverDeadline :=
    (if is_finite server then Some <$> iso_string (time_clip cappedServer) else Some None) in
  let? nextAllowedAt :=
    iso_string (time_clip (nmax (now ⊕ localDelaySeconds ⊗ int 1000)
      (if is_finite server then cappedServer else int 0))) in
  Some {| rt_localDelaySeconds := localDelaySeconds;
          rt_serverDeadline := serverDeadline;
          rt_nextAllowedAt := nextAllowedAt;
          rt_blockedUntil := if ceiling <# server then serverDeadline else None |}.

(** ** The backoff of an outcome *)

(** Outcomes that wait a day whatever the server asks. *)
Definition waits_a_day (outcome : AcquisitionOutcome) : bool :=
  match outcome with
  | oc_unauthorized | oc_blocked | oc_identity_refused | oc_quota_unavailable => true
  | _ => false
  end.

(** At the epoch and without a header [retryPolicy] does not throw, and its
    delay is [local_delay]: [retryPolicy_at_epoch]. *)
Definition base_backoff (outcome : AcquisitionOutcome) (attemptCount : Z) : num :=
  match outcome with
  | oc_rate_limited | oc_remote_error | oc_transport => local_delay attemptCount (int 0)
  | _ => int (if waits_a_day outcome then ACQUISITION_BLOCKED_BACKOFF_SECONDS
              else ACQUISITION_INTERVAL_SECONDS)
  end.

Definition backoffSecondsFor (outcome : AcquisitionOutcome) (retryAfterSeconds : option num)
    (attemptCount : Z) : num :=
  let base := base_backoff outcome attemptCount in
  match retryAfterSeconds with
  | None => base
  | Some seconds =>
      if negb (is_finite seconds) || (seconds <=# int 0) then base
      else if waits_a_day outcome then base
      else nmax base (nmin (int 7 ⊗ int 86400) seconds)
  end.

Definition nextAttemptInstant (outcome : AcquisitionOutcome) (now : string)
    (retryAfterSeconds : option num) (attemptCount : Z) : option string :=
  let? current := date_parse now in
  to_iso <$> time_clip (nmin (int MAX_POLICY_TIMESTAMP)
    (int current ⊕ backoffSecondsFor outcome retryAfterSeconds attemptCount ⊗ int 1000)).

(** The outer [None]: [toISOString] threw; the inner one: [null]. *)
Definition nextSuccessInstant (provider : ProviderCode) (now : string)
    (resetAts : list (option string)) : option (option string) :=
  match date_parse now with
  | Some current =>
      if bool_decide (provider = CLAUDE) then
        let ahead :=
          filter (fun at_ => current < at_) (omap (fun r => date_parse (default "" r)) resetAts) in
        Some <$> iso_string
          (Some (foldl Z.min (current + CLAUDE_ACQUISITION_INTERVAL_SECONDS * 1000) ahead))
      else Some (nextAttemptInstant oc_ok now None 0)
  | None => Some (nextAttemptInstant oc_ok now None 0)
  end.

(** ** The schedule document *)

Record AcquisitionProviderSchedule := {
  sc_refusalRevision : option string;
  sc_attempts : option Z;
  sc_lastAttemptAt : string;
  sc_nextAttemptAt : string;
  sc_outcome : AcquisitionOutcome;
  sc_phase : option AcquisitionPhase;
  sc_errorClass : option string }.

(** The entries in the order of the object's keys. *)
Definition AcquisitionSchedule : Type := list (string * AcquisitionProviderSchedule).

Definition isProviderDue (schedule : option AcquisitionProviderSchedule) (now : string) : bool :=
  match date_parse now, schedule with
  | None, _ => false
  | Some _, None => true
  | Some current, Some entry =>
      match date_parse (sc_nextAttemptAt entry) with None => true | Some next => next <=? current end
  end.

Definition iso_text (v : jsval) : option string :=
  let? s := as_string v in check is_iso_instant s;; Some s.

Definition outcomeNames : list string :=
  ["ok"; "unauthorized"; "rate_limited"; "blocked"; "remote_error"; "transport"; "too_large";
   "drift"; "identity_refused"; "not_running"].

Definition read_outcome (v : jsval) : option AcquisitionOutcome :=
  let? s := as_string v in check bool_decide (s ∈ outcomeNames);; of_name s.

(** [/^[a-f0-9]{64}$/] *)
Definition revision_pattern (s : string) : bool :=
  str_forall (fun c => is_digit c || in_range 97 102 c) s && (str_length s =? 64).

(** [ERROR_CLASS]: [/^[A-Za-z][A-Za-z0-9_]{0,31}$/] *)
Definition ERROR_CLASS (s : string) : bool :=
  match s with
  | String c s' =>
      (is_upper c || is_lower c) &&
      str_forall (fun c => is_upper c || is_lower c || is_digit c || Ascii.eqb c "_") s' &&
      (str_length s' <=? 31)
  | EmptyString => false
  end.

Definition matching_text (pattern : string -> bool) (v : jsval) : option string :=
  let? s := as_string v in check pattern s;; Some s.

(** One turn of the loop; [None] is its [continue]. *)
Definition read_entry (v : jsval) : option AcquisitionProviderSchedule :=
  let? entry := record_of v in
  let? lastAttemptAt := iso_text (get entry "lastAttemptAt") in
  let? nextAttemptAt := iso_text (get entry "nextAttemptAt") in
  let? outcome := read_outcome (get entry "outcome") in
  Some {| sc_refusalRevision := matching_text revision_pattern (get entry "refusalRevision");
          sc_attempts := Z.max 0 <$> as_safe_int (get entry "attempts");
          sc_lastAttemptAt := lastAttemptAt;
          sc_nextAttemptAt := nextAttemptAt;
          sc_outcome := outcome;
          sc_phase := read_name (get entry "phase");
          sc_errorClass := matching_text ERROR_CLASS (get entry "errorClass") |}.

(** Assigning [__proto__] creates no key. *)
Definition read_key (kv : string * jsval) : option (string * AcquisitionProviderSchedule) :=
  check negb (str_eqb kv.1 "__proto__");;
  let? entry := read_entry kv.2 in Some (kv.1, entry).

Definition readAcquisitionSchedule (file : JsonFile) : AcquisitionSchedule :=
  match (match file with
         | present v =>
             let? fs := record_of v in
             check is_undef (get fs "version") ||
                   is_number (get fs "version") ACQUISITION_STATE_VERSION;;
             record_of (get fs "providers")
         | _ => None
         end) with
  | Some providers => omap read_key (take MAX_SCHEDULE_ENTRIES providers)
  | None => []
  end.

Definition raw_of_entry (e : AcquisitionProviderSchedule) : jsval :=
  JObj (opt "refusalRevision" JStr (sc_refusalRevision e) ++
        opt "attempts" (fun n => JNum (int n)) (sc_attempts e) ++
        [("lastAttemptAt", JStr (sc_lastAttemptAt e)); ("nextAttemptAt", JStr (sc_nextAttemptAt e));
         ("outcome", name (sc_outcome e))] ++
        opt "phase" name (sc_phase e) ++ opt "errorClass" JStr (sc_errorClass e)).

Definition schedule_json (schedule : AcquisitionSchedule) : jsval :=
  JObj [("providers", JObj (map (fun ke => (ke.1, raw_of_entry ke.2)) schedule));
        ("version", JNum (int ACQUISITION_STATE_VERSION))].

Definition writeAcquisitionSchedule (schedule : AcquisitionSchedule) : JsonFile :=
  write_json (schedule_json schedule).
End Cadence.

(** The sentence of a row. *)
Definition ACQUISITION_OUTCOME_SENTENCE (outcome : AcquisitionOutcome) : string :=
  match outcome with
  | oc_ok => "read"
  | oc_unauthorized => "the provider refused this login, open its own tool once to refresh it"
  | oc_rate_limited => "the provider asked for fewer requests, so this one is waiting"
  | oc_blocked => "the provider refused this client, so this one is waiting a day"
  | oc_remote_error => "the provider could not answer this time"
  | oc_transport => "this machine could not reach the provider"
  | oc_too_large => "the provider's answer was larger than this build accepts"
  | oc_drift => "the provider answered in a shape this build does not understand"
  | oc_identity_refused => "the provider serves this reading only to its own tools"
  | oc_quota_unavailable => "Google ended Gemini CLI sign in for this plan on June 18, 2026."
  | oc_not_running => "the provider's app is not running on this machine, so nothing was read"
  end.

(** ** The backoff in whole seconds *)

Definition base_seconds (outcome : AcquisitionOutcome) (attemptCount : Z) : Z :=
  match outcome with
  | oc_rate_limited | oc_remote_error | oc_transport => Z.min (60 * 2 ^ Z.min attemptCount 4) 900
  | _ => if waits_a_day outcome then 86400 else 900
  end.

Lemma local_delay_whole k :
  0 <= k -> local_delay k (int 0) = int (Z.min (60 * 2 ^ Z.min k 4) 900).
Proof.
  intros Hk. unfold local_delay.
  destruct (Z.eq_dec k 0) as [->|]; [by vm_compute|].
  destruct (Z.eq_dec k 1) as [->|]; [by vm_compute|].
  destruct (Z.eq_dec k 2) as [->|]; [by vm_compute|].
  destruct (Z.eq_dec k 3) as [->|]; [by vm_compute|].
  rewrite Z.min_r by lia. by vm_compute.
Qed.

Lemma base_backoff_whole outcome k :
  0 <= k -> base_backoff outcome k = int (base_seconds outcome k).
Proof. intros Hk. destruct outcome; try done; by apply local_delay_whole. Qed.

Lemma base_seconds_range outcome k : 0 <= k -> 60 <= base_seconds outcome k <= 86400.
Proof.
  intros Hk. pose proof (Z.pow_le_mono_r 2 0 (Z.min k 4)). simpl in *.
  destruct outcome; simpl; lia.
Qed.

(** The wait asked for: the base, or more when the server asks for more. *)
Lemma wait_range outcome ra k :
  0 <= k -> exists b, backoffSecondsFor outcome ra k = Fin b /\
    base_seconds outcome k * one <= b <= 604800 * one /\
    (waits_a_day outcome = true -> b = 86400 * one) /\
    (forall r, ra = Some (int r) -> 0 < r <= 604800 -> waits_a_day outcome = false -> r * one <= b).
Proof.
  intros Hk. pose proof one_pos. unfold backoffSecondsFor.
  rewrite base_backoff_whole by done. pose proof (base_seconds_range outcome k Hk).
  assert (Hday : waits_a_day outcome = true -> base_seconds outcome k = 86400) by (by destruct outcome).
  assert (Hbase : forall P : Prop, (P -> False) -> exists b, int (base_seconds outcome k) = Fin b /\
    base_seconds outcome k * one <= b <= 604800 * one /\
    (waits_a_day outcome = true -> b = 86400 * one) /\
    (forall r, P -> 0 < r <= 604800 -> waits_a_day outcome = false -> r * one <= b)).
  { intros P HP. exists (base_seconds outcome k * one). split; [reflexivity|].
    split_and!; [lia|nia| |tauto].
    intros E.
    by rewrite (Hday E). }
  destruct ra as [seconds|].
  2:{ destruct (Hbase False (fun f => f)) as (b & ? & ? & ? & _). exists b. naive_solver. }
  destruct (negb (is_finite seconds) || (seconds <=# int 0)) eqn:Eu.
  { destruct (Hbase False (fun f => f)) as (b & ? & ? & ? & _). exists b. do 3 (split; [done|]).
    intros r [= ->] Hr _. rewrite int_le in Eu. simpl in Eu. apply Z.leb_le in Eu. lia. }
  destruct (waits_a_day outcome) eqn:Ed.
  { destruct (Hbase False (fun f => f)) as (b & ? & ? & ? & _). exists b. naive_solver. }
  apply orb_false_iff in Eu as [Ef Ep]. apply negb_false_iff in Ef.
  destruct (finite_Fin _ Ef) as [z ->].
  replace (int 7 ⊗ int 86400) with (int 604800) by (by vm_compute).
  unfold int. rewrite nmin_Fin, nmax_Fin. eexists. split; [reflexivity|].
  split_and!; [nia|nia|done|]. intros r [= ->] Hr _. nia.
Qed.

Lemma instant_after current b lo hi :
  0 <= lo -> lo * one <= b <= hi * one -> hi <= 604800 -> Z.abs current <= max_time ->
  exists p, int current ⊕ Fin b ⊗ int 1000 = Fin p /\
    (current + lo * 1000) * one <= p <= (current + hi * 1000) * one.
Proof.
  intros Hlo Hb Hhi Hc. pose proof one_pos. unfold max_time in Hc.
  assert (Hx : exists m, Fin b ⊗ int 1000 = Fin m /\ (lo * 1000) * one <= m <= (hi * 1000) * one).
  { apply nle_between.
    - replace (Fin (lo * 1000 * one)) with (int lo ⊗ int 1000) by (apply (nmul_int lo 1000); nia).
      apply nmul_mono; lia.
    - replace (Fin (hi * 1000 * one)) with (int hi ⊗ int 1000) by (apply (nmul_int hi 1000); nia).
      apply nmul_mono; lia. }
  destruct Hx as (m & -> & Hm). apply nle_between.
  - replace (Fin ((current + lo * 1000) * one)) with (int current ⊕ int (lo * 1000))
      by (apply (nadd_int current (lo * 1000)); nia).
    apply nadd_mono. lia.
  - replace (Fin ((current + hi * 1000) * one)) with (int current ⊕ int (hi * 1000))
      by (apply (nadd_int current (hi * 1000)); nia).
    apply nadd_mono. lia.
Qed.

Lemma time_clip_between p lo hi :
  lo * one <= p <= hi * one -> Z.abs lo <= max_time -> Z.abs hi <= max_time ->
  exists t, time_clip (Fin p) = Some t /\ lo <= t <= hi.
Proof.
  intros Hp Hlo Hhi. pose proof one_pos. unfold time_clip, max_time in *.
  assert (Ht : lo <= Z.quot p one <= hi).
  { split; [rewrite <- (Z.quot_mul lo one) by lia|rewrite <- (Z.quot_mul hi one) by lia];
      apply Z.quot_le_mono; lia. }
  rewrite (proj2 (Z.leb_le _ _)) by lia. by exists (Z.quot p one).
Qed.

Section CadenceLaws.
Context `{DateHost}.

(** Without a header and at the epoch, the policy never throws. *)
Lemma retryPolicy_at_epoch k :
  0 <= k -> rt_localDelaySeconds <$>
    retryPolicy k None "1970-01-01T00:00:00.000Z" (int 0) "policy" = Some (local_delay k (int 0)).
Proof.
  intros Hk. unfold retryPolicy. replace (date_parse "1970-01-01T00:00:00.000Z") with (Some 0) by done.
  cbn [time_num server_instant fmap option_fmap option_map is_finite].
  rewrite local_delay_whole by done.
  pose proof (base_seconds_range oc_transport k Hk) as Hb. simpl in Hb.
  rewrite (nmul_int _ 1000), nadd_int, nmax_int, Z.max_l, time_clip_int by lia.
  unfold iso_string. replace (valid_time _) with true; [done|].
  symmetry. apply Z.leb_le. unfold max_time. lia.
Qed.

(** The instant a wait comes to. *)
Lemma attempt_instant outcome now t0 ra k :
  date_parse now = Some t0 -> 0 <= k -> t0 + 604800000 <= MAX_POLICY_TIMESTAMP ->
  exists d, nextAttemptInstant outcome now ra k = Some (to_iso d) /\ valid_time d = true /\
    t0 + base_seconds outcome k * 1000 <= d <= t0 + 604800000 /\
    (waits_a_day outcome = true -> d = t0 + 86400000) /\
    (forall r, ra = Some (int r) -> 0 < r <= 604800 -> waits_a_day outcome = false ->
       t0 + r * 1000 <= d).
Proof.
  intros Hnow Hk Hmax. pose proof one_pos. pose proof (date_parse_valid _ _ Hnow) as Hv.
  unfold valid_time in Hv. apply Z.leb_le in Hv. unfold MAX_POLICY_TIMESTAMP in Hmax.
  destruct (wait_range outcome ra k Hk) as (b & Eb & Hb & Hday & Hr).
  pose proof (base_seconds_range outcome k Hk) as Hbase.
  assert (Hi : forall lo hi, 0 <= lo -> lo <= hi <= 604800 -> lo * one <= b <= hi * one ->
    exists d, time_clip (nmin (int MAX_POLICY_TIMESTAMP) (int t0 ⊕ Fin b ⊗ int 1000)) = Some d /\
      t0 + lo * 1000 <= d <= t0 + hi * 1000).
  { intros lo hi Hlo Hhi Hbb.
    destruct (instant_after t0 b lo hi) as (p & Ep & Hp); [lia|lia|lia|exact Hv|].
    rewrite Ep. unfold int. rewrite nmin_Fin. unfold MAX_POLICY_TIMESTAMP. rewrite Z.min_r by nia.
    apply time_clip_between; unfold max_time in *; lia. }
  destruct (Hi (base_seconds outcome k) 604800) as (d & Ed & Hd); [lia|lia|lia|].
  exists d. unfold nextAttemptInstant. rewrite Hnow, Eb, Ed. split; [done|]. split_and!; try lia.
  - unfold valid_time. apply Z.leb_le. unfold max_time in *. lia.
  - intros Hw. destruct (Hi 86400 86400) as (d' & Ed' & Hd'); [lia|lia|rewrite (Hday Hw); lia|].
    assert (d = d') by congruence. lia.
  - intros r Era Hrr Hw. destruct (Hi r 604800) as (d' & Ed' & Hd'); [lia|lia|pose proof (Hr r Era Hrr Hw); lia|].
    assert (d = d') by congruence. lia.
Qed.

(** A backoff holds and ends. After any attempt there is a next instant:
    at least the outcome's own wait away and at most a week, exactly a day
    after a refusal whatever the server asked, and otherwise no sooner than
    the server asked; the provider is not due at any instant before it and is
    due at every instant from it on. *)
Theorem a_backoff_holds_and_ends outcome now t0 ra k :
  date_parse now = Some t0 -> 0 <= k -> t0 + 604800000 <= MAX_POLICY_TIMESTAMP ->
  exists next d, nextAttemptInstant outcome now ra k = Some next /\ date_parse next = Some d /\
    t0 + base_seconds outcome k * 1000 <= d <= t0 + 604800000 /\
    (waits_a_day outcome = true -> d = t0 + 86400000) /\
    (forall r, ra = Some (int r) -> 0 < r <= 604800 -> waits_a_day outcome = false ->
       t0 + r * 1000 <= d) /\
    (forall entry later t, sc_nextAttemptAt entry = next -> date_parse later = Some t ->
       isProviderDue (Some entry) later = (d <=? t)).
Proof.
  intros Hnow Hk Hmax.
  destruct (attempt_instant outcome now t0 ra k Hnow Hk Hmax) as (d & En & Hv & Hd & Hday & Hr).
  exists (to_iso d), d. pose proof (date_parse_to_iso d Hv) as Hp.
  do 5 (split; [done|]). intros entry later t Ee El. unfold isProviderDue. by rewrite El, Ee, Hp.
Qed.

Lemma foldl_min_spec l a :
  foldl Z.min a l <= a /\ (forall x, x ∈ l -> foldl Z.min a l <= x) /\
  (foldl Z.min a l = a \/ foldl Z.min a l ∈ l).
Proof.
  revert a. induction l as [|y l IH]; simpl; intros a; [split_and!; [lia|set_solver|by left]|].
  destruct (IH (Z.min a y)) as (H1 & H2 & H3). split_and!; [lia| |].
  - intros x [->|Hx]%elem_of_cons; [lia|by apply H2].
  - destruct H3 as [->|H3]; [|right; by right]. destruct (Z.min_spec a y) as [[_ ->]|[_ ->]];
      [by left|right; by left].
Qed.

Lemma claude_next now t0 resetAts :
  date_parse now = Some t0 -> t0 + 300000 <= max_time ->
  exists d, nextSuccessInstant CLAUDE now resetAts = Some (Some (to_iso d)) /\
    date_parse (to_iso d) = Some d /\ t0 < d <= t0 + 300000 /\
    (forall reset at_, reset ∈ resetAts -> date_parse (default "" reset) = Some at_ -> t0 < at_ ->
       d <= at_) /\
    (d = t0 + 300000 \/ exists reset, reset ∈ resetAts /\ date_parse (default "" reset) = Some d).
Proof.
  intros Hnow Hmax. pose proof (date_parse_valid _ _ Hnow) as Hv. unfold valid_time in Hv.
  apply Z.leb_le in Hv. unfold nextSuccessInstant. rewrite Hnow, bool_decide_true by done.
  change (CLAUDE_ACQUISITION_INTERVAL_SECONDS * 1000) with 300000.
  set (ahead := filter (fun at_ => t0 < at_) (omap (fun r => date_parse (default "" r)) resetAts)).
  assert (Ha : forall x, x ∈ ahead <-> t0 < x /\ exists r, r ∈ resetAts /\ date_parse (default "" r) = Some x).
  { intros x. unfold ahead. by rewrite list_elem_of_filter, list_elem_of_omap. }
  destruct (foldl_min_spec ahead (t0 + 300000)) as (H1 & H2 & H3).
  set (d := foldl Z.min (t0 + 300000) ahead) in *.
  assert (Hd : t0 < d) by (destruct H3 as [->|[? _]%Ha]; lia).
  assert (Hvd : valid_time d = true) by (apply Z.leb_le; unfold max_time in *; lia).
  exists d. unfold iso_string. rewrite Hvd. split_and!; [done|by apply date_parse_to_iso|done|done| |].
  - intros reset at_ Hin Hat Hlt. apply H2, Ha. eauto.
  - destruct H3 as [->|[_ Hin]%Ha]; [by left|by right].
Qed.

(** A successful Claude read is due again at the next reset, and within
    five minutes in any case. The instant is strictly ahead of the read, never
    past the ordinary five minutes, never past a reset still ahead, and is one
    of those instants exactly. *)
Theorem claude_is_read_as_a_window_turns_over now t0 resetAts :
  date_parse now = Some t0 -> t0 + 300000 <= max_time ->
  exists d, nextSuccessInstant CLAUDE now resetAts = Some (Some (to_iso d)) /\
    date_parse (to_iso d) = Some d /\ t0 < d <= t0 + 300000 /\
    (forall reset at_, reset ∈ resetAts -> date_parse (default "" reset) = Some at_ -> t0 < at_ ->
       d <= at_) /\
    (d = t0 + 300000 \/ exists reset, reset ∈ resetAts /\ date_parse (default "" reset) = Some d).
Proof. apply claude_next. Qed.

(** ** The schedule document *)

Definition text_ok (pattern : string -> bool) (o : option string) : Prop :=
  from_option (fun s => pattern s = true) True o.

Record entry_ok (e : AcquisitionProviderSchedule) : Prop := {
  eo_last : is_iso_instant (sc_lastAttemptAt e) = true;
  eo_next : is_iso_instant (sc_nextAttemptAt e) = true;
  eo_revision : text_ok revision_pattern (sc_refusalRevision e);
  eo_attempts : from_option (fun n => 0 <= n <= 2 ^ 53 - 1) True (sc_attempts e);
  eo_class : text_ok ERROR_CLASS (sc_errorClass e) }.

(** What of an entry a reader takes back. *)
Definition persisted (e : AcquisitionProviderSchedule) : option AcquisitionProviderSchedule :=
  if bool_decide (sc_outcome e = oc_quota_unavailable) then None else Some e.

Definition entry_fields (e : AcquisitionProviderSchedule) : list (string * jsval) :=
  opt "refusalRevision" JStr (sc_refusalRevision e) ++
  opt "attempts" (fun n => JNum (int n)) (sc_attempts e) ++
  [("lastAttemptAt", JStr (sc_lastAttemptAt e)); ("nextAttemptAt", JStr (sc_nextAttemptAt e));
   ("outcome", name (sc_outcome e))] ++
  opt "phase" name (sc_phase e) ++ opt "errorClass" JStr (sc_errorClass e).

Lemma entry_fields_get e :
  get (entry_fields e) "refusalRevision" = opt_val JStr (sc_refusalRevision e) /\
  get (entry_fields e) "attempts" = opt_val (fun n => JNum (int n)) (sc_attempts e) /\
  get (entry_fields e) "lastAttemptAt" = JStr (sc_lastAttemptAt e) /\
  get (entry_fields e) "nextAttemptAt" = JStr (sc_nextAttemptAt e) /\
  get (entry_fields e) "outcome" = name (sc_outcome e) /\
  get (entry_fields e) "phase" = opt_val name (sc_phase e) /\
  get (entry_fields e) "errorClass" = opt_val JStr (sc_errorClass e).
Proof.
  destruct e as [[r|] [n|] l x o [p|] [c|]]; (split_and!; reflexivity).
Qed.

Lemma entry_fields_unique e : NoDup (entry_fields e).*1.
Proof.
  destruct e as [[r|] [n|] l x o [p|] [c|]]; apply (bool_decide_unpack _); reflexivity.
Qed.

Lemma read_outcome_name o :
  read_outcome (name o) = if bool_decide (o = oc_quota_unavailable) then None else Some o.
Proof. by destruct o. Qed.

Lemma matching_text_raw pattern o :
  text_ok pattern o -> matching_text pattern (opt_val JStr o) = o.
Proof. unfold matching_text. destruct o as [s|]; simpl; [by intros ->|done]. Qed.

Lemma attempts_raw o :
  from_option (fun n => 0 <= n <= 2 ^ 53 - 1) True o ->
  Z.max 0 <$> as_safe_int (opt_val (fun n => JNum (int n)) o) = o.
Proof.
  destruct o as [n|]; [|done]. cbn [from_option opt_val]. intros Hn. unfold as_safe_int.
  cbn [as_num]. rewrite to_safe_int_int by lia. simpl. f_equal. lia.
Qed.

Lemma read_entry_raw e : entry_ok e -> read_entry (sortDeep (raw_of_entry e)) = persisted e.
Proof.
  intros [Hl Hn Hr Ha Hc]. unfold read_entry. rewrite record_of_sortDeep.
  change (record_of (raw_of_entry e)) with (Some (entry_fields e)).
  cbn [fmap option_fmap option_map].
  pose proof (entry_fields_unique e) as Hu. rewrite !get_sort_fields by done.
  destruct (entry_fields_get e) as (-> & -> & -> & -> & -> & -> & ->).
  unfold iso_text. cbn [sortDeep as_string]. rewrite Hl, Hn.
  rewrite read_name_sortDeep.
  assert (Hs : forall o, sortDeep (opt_val JStr o) = opt_val JStr o) by (by intros []).
  assert (Hz : forall o, sortDeep (opt_val (fun n => JNum (int n)) o) = opt_val (fun n => JNum (int n)) o)
    by (by intros []).
  rewrite !Hs, Hz, !matching_text_raw, attempts_raw by done.
  change (sortDeep (name (sc_outcome e))) with (name (sc_outcome e)). rewrite read_outcome_name.
  unfold persisted. case_bool_decide; [done|].
  assert (read_name (opt_val name (sc_phase e)) = sc_phase e) as ->.
  { destruct (sc_phase e); [apply read_name_name|done]. }
  by destruct e.
Qed.

(** A schedule as the runner builds it. *)
Record schedule_ok (s : AcquisitionSchedule) : Prop := {
  sk_keys : NoDup s.*1;
  sk_names : "__proto__" ∉ s.*1;
  sk_bound : (length s <= MAX_SCHEDULE_ENTRIES)%nat;
  sk_entries : Forall (fun ke => entry_ok ke.2) s }.

Definition written_providers (s : AcquisitionSchedule) : list (string * jsval) :=
  sort_fields (map (fun ke => (ke.1, raw_of_entry ke.2)) s).

Lemma written_schedule s :
  (length s <= MAX_SCHEDULE_ENTRIES)%nat ->
  readAcquisitionSchedule (writeAcquisitionSchedule s) = omap read_key (written_providers s).
Proof.
  intros Hl. unfold readAcquisitionSchedule, writeAcquisitionSchedule, write_json.
  rewrite record_of_sortDeep. unfold schedule_json. cbn [record_of fmap option_fmap option_map].
  assert (Hn : NoDup ([("providers", JObj (map (fun ke => (ke.1, raw_of_entry ke.2)) s));
    ("version", JNum (int ACQUISITION_STATE_VERSION))] : list (string * jsval)).*1)
    by (apply (bool_decide_unpack _); reflexivity).
  rewrite !get_sort_fields by exact Hn.
  change (get [("providers", JObj (map (fun ke => (ke.1, raw_of_entry ke.2)) s));
    ("version", JNum (int ACQUISITION_STATE_VERSION))] "version") with (JNum (int 1)).
  change (get [("providers", JObj (map (fun ke => (ke.1, raw_of_entry ke.2)) s));
    ("version", JNum (int ACQUISITION_STATE_VERSION))] "providers")
    with (JObj (map (fun ke => (ke.1, raw_of_entry ke.2)) s)).
  rewrite record_of_sortDeep. cbn [sortDeep is_undef orb record_of fmap option_fmap option_map].
  unfold ACQUISITION_STATE_VERSION. rewrite is_number_int.
  fold (written_providers s). f_equal. apply take_ge. unfold written_providers, sort_fields.
  by rewrite length_sort_by, !length_map.
Qed.

Lemma elem_of_written s k v :
  (k, v) ∈ written_providers s <-> exists e, (k, e) ∈ s /\ v = sortDeep (raw_of_entry e).
Proof.
  unfold written_providers, sort_fields. rewrite elem_of_sort_by, list_elem_of_fmap. split.
  - intros ([k' v'] & [= -> ->] & Hin). apply list_elem_of_fmap in Hin as ([k e] & [= -> ->] & Hin).
    by exists e.
  - intros (e & Hin & ->). exists (k, raw_of_entry e). split; [done|].
    apply list_elem_of_fmap. by exists (k, e).
Qed.

Lemma elem_of_read_back s k e :
  schedule_ok s ->
  (k, e) ∈ omap read_key (written_providers s) <-> exists e', (k, e') ∈ s /\ persisted e' = Some e.
Proof.
  intros [_ Hp _ He]. rewrite Forall_forall in He.
  assert (Hread : forall k' e', (k', e') ∈ s ->
    read_key (k', sortDeep (raw_of_entry e')) = (fun e => (k', e)) <$> persisted e').
  { intros k' e' Hin. unfold read_key. cbn [fst snd].
    assert (str_eqb k' "__proto__" = false) as ->.
    { apply bool_decide_eq_false. intros ->. apply Hp, list_elem_of_fmap.
      by exists ("__proto__", e'). }
    cbn [negb]. rewrite read_entry_raw by apply (He _ Hin). by destruct (persisted e'). }
  rewrite list_elem_of_omap. split.
  - intros ([k' v] & (e' & Hin & ->)%elem_of_written & E). rewrite Hread in E by done.
    destruct (persisted e') as [e''|] eqn:Ee; [|done]. injection E as -> ->. by exists e'.
  - intros (e' & Hin & Ee). exists (k, sortDeep (raw_of_entry e')).
    split; [apply elem_of_written; by exists e'|]. by rewrite Hread, Ee.
Qed.

Lemma read_key_keys l : (omap read_key l).*1 `sublist_of` l.*1.
Proof.
  induction l as [|[k v] l IH]; [constructor|]. cbn [omap list_omap fmap list_fmap fst].
  destruct (read_key (k, v)) as [[k' e]|] eqn:E; [|by constructor].
  assert (k' = k) as ->.
  { unfold read_key in E. cbn [fst snd] in E. destruct (negb _); [|done].
    destruct (read_entry v); [|done]. by injection E. }
  by constructor.
Qed.

Lemma written_keys s : (written_providers s).*1 ≡ₚ s.*1.
Proof.
  unfold written_providers, sort_fields. rewrite sort_by_perm, sorted_keys.
  clear. by induction s as [|[k e] s IH]; simpl; [|rewrite IH].
Qed.

(** The schedule document holds what was scheduled, but not every backoff.
    Whatever schedule is written, reading it back answers each provider with
    the very entry written; the one exception is a provider whose plan was
    retired: its outcome is not one the reader knows, so its entry is lost and
    the provider is due at once instead of a day later. *)
Theorem a_schedule_reads_back_except_retired_plans s k :
  schedule_ok s ->
  assoc_get k (readAcquisitionSchedule (writeAcquisitionSchedule s)) =
    match assoc_get k s with
    | Some e => if bool_decide (sc_outcome e = oc_quota_unavailable) then None else Some e
    | None => None
    end /\
  (forall e now t, assoc_get k s = Some e -> sc_outcome e = oc_quota_unavailable ->
     date_parse now = Some t ->
     isProviderDue (assoc_get k (readAcquisitionSchedule (writeAcquisitionSchedule s))) now = true).
Proof.
  intros Hok. rewrite written_schedule by apply Hok.
  assert (Hn : NoDup (omap read_key (written_providers s)).*1).
  { eapply sublist_NoDup; [|apply read_key_keys]. rewrite written_keys. apply Hok. }
  assert (E : assoc_get k (omap read_key (written_providers s)) =
    match assoc_get k s with Some e => persisted e | None => None end).
  { apply option_eq. intros e. rewrite (assoc_get_elem _ _ _ Hn), (elem_of_read_back _ _ _ Hok). split.
    - intros (e' & Hin & Ee). apply (assoc_get_elem _ _ _ (sk_keys _ Hok)) in Hin. by rewrite Hin.
    - destruct (assoc_get k s) as [e'|] eqn:Es; [|done]. intros Ee. exists e'.
      split; [|done]. by apply (assoc_get_elem _ _ _ (sk_keys _ Hok)). }
  split; [exact E|]. intros e now t Ek Eo Et. rewrite E, Ek. unfold persisted.
  rewrite bool_decide_true by done. unfold isProviderDue. by rewrite Et.
Qed.
End CadenceLaws.

(** ** Witnesses *)

Lemma a_backoff_holds_and_ends_witness :
  exists next d,
    nextAttemptInstant (H := strict_host) oc_rate_limited "2026-01-01T00:00:00.000Z" (Some (int 1200)) 2 =
      Some next /\ date_parse (H := strict_host) next = Some d /\
    1767225600000 + 1200000 <= d <= 1767225600000 + 604800000.
Proof.
  destruct (a_backoff_holds_and_ends (H := strict_host) oc_rate_limited "2026-01-01T00:00:00.000Z"
    1767225600000 (Some (int 1200)) 2) as (next & d & En & Ed & Hd & _ & Hr & _).
  - by vm_compute.
  - lia.
  - unfold MAX_POLICY_TIMESTAMP. lia.
  - exists next, d. split; [exact En|]. split; [exact Ed|].
    specialize (Hr 1200 eq_refl ltac:(lia) eq_refl). lia.
Defined.

Lemma claude_is_read_as_a_window_turns_over_witness :
  exists d,
    nextSuccessInstant (H := strict_host) CLAUDE "2026-01-01T00:00:00.000Z"
      [Some "2026-01-01T00:02:00.000Z"; None] = Some (Some (to_iso d)) /\
    1767225600000 < d <= 1767225720000.
Proof.
  destruct (claude_is_read_as_a_window_turns_over (H := strict_host) "2026-01-01T00:00:00.000Z"
    1767225600000 [Some "2026-01-01T00:02:00.000Z"; None]) as (d & Ed & _ & Hd & Hr & _).
  - by vm_compute.
  - unfold max_time. lia.
  - exists d. split; [exact Ed|].
    split; [apply Hd|]. apply (Hr (Some "2026-01-01T00:02:00.000Z")); [left|by vm_compute|lia].
Defined.

Definition retired_plan : AcquisitionProviderSchedule :=
  {| sc_refusalRevision := None; sc_attempts := Some 1; sc_lastAttemptAt := "2026-01-01T00:00:00.000Z";
     sc_nextAttemptAt := "2026-01-02T00:00:00.000Z"; sc_outcome := oc_quota_unavailable;
     sc_phase := Some ph_request; sc_errorClass := Some "quota_unavailable" |}.

(** Held back a day as scheduled, and due again once the document is read. *)
Lemma a_schedule_reads_back_except_retired_plans_witness :
  isProviderDue (H := strict_host) (Some retired_plan) "2026-01-01T00:01:00.000Z" = false /\
  isProviderDue (H := strict_host) (assoc_get "GEMINI_CLI" (readAcquisitionSchedule (H := strict_host)
    (writeAcquisitionSchedule [("GEMINI_CLI", retired_plan)]))) "2026-01-01T00:01:00.000Z" = true.
Proof.
  split; [by vm_compute|].
  assert (Hok : schedule_ok (H := strict_host) [("GEMINI_CLI", retired_plan)]).
  { split; [apply NoDup_singleton|set_solver|by apply Nat.leb_le|].
    apply Forall_singleton. split; by vm_compute. }
  destruct (a_schedule_reads_back_except_retired_plans (H := strict_host) _ "GEMINI_CLI" Hok) as [_ Hdue].
  apply (Hdue retired_plan _ 1767225660000); by vm_compute.
Defined.
