(* ===== verification/Coordination.v ===== *)
(** * Who refreshes, and one refresh at a time

    [coordination.ts]: whether a render starts a refresh behind itself, the
    start token that lets one render of all processes do so per window, and
    the lock file a running refresh holds. The file operations of different
    processes interleave; each single one is atomic, as the operating system
    makes it. *)
From stdpp Require Import relations functions.
From S2P Require Import Prelude JsNum JsDate JsValue Text Types DataRules Files.
Local Open Scope string_scope.
Local Open Scope Z_scope.
Local Open Scope list_scope.
Local Open Scope js_scope.

Definition DESKTOP_OWNERSHIP_SECONDS : num := int 900.
Definition CACHE_REFRESH_STALE_SECONDS : num := int 60.
Definition REFRESH_LOCK_STALE_MILLISECONDS : num := int 60000.
Definition REFRESH_START_INTERVAL_MILLISECONDS : Z := 120000.

Inductive RefreshDecision := refresh_now | refresh_fresh | refresh_desktop_running.

(** What one provider's rows say. *)
Inductive ProviderDecision := pd_desktop_running | pd_fresh | pd_due.

#[export] Instance ProviderDecision_eq : EqDecision ProviderDecision.
Proof. solve_decision. Defined.

(** A Claude weekly that a usage poll wrote. *)
Definition isClaudeWeeklyPoll (row : Snapshot) : bool :=
  bool_decide (s_provider row = CLAUDE) && starts_with "SEVEN_DAY" (s_meter row) &&
  negb (provenance_is statusline_payload row) && bool_decide (s_availability row = None).

Definition withWriter (snapshots : list Snapshot) (writer : SnapshotWriter) : list Snapshot :=
  map (with_writer writer) snapshots.

(** The providers in order of first appearance. *)
Definition providers_of (snapshots : list Snapshot) : list ProviderCode :=
  foldl (fun seen row => if decide (s_provider row ∈ seen) then seen else seen ++ [s_provider row])
    [] snapshots.

Section Policy.
Context `{DateHost}.

Definition newer_of (newest : option Z) (snapshot : Snapshot) : option Z :=
  match date_parse (s_observedAt snapshot), newest with
  | None, _ => newest
  | Some observed, None => Some observed
  | Some observed, Some n => if n <? observed then Some observed else newest
  end.

Definition newestObservedMilliseconds (snapshots : list Snapshot) : option Z :=
  foldl newer_of None snapshots.

Definition cacheAgeSeconds (snapshots : list Snapshot) (now : string) : option num :=
  match date_parse now, newestObservedMilliseconds snapshots with
  | Some current, Some newest => Some (int (current - newest) ⊘ int 1000)
  | _, _ => None
  end.

Definition holds_row (writer : SnapshotWriter) (current : Z) (withinSeconds : num) (s : Snapshot) : bool :=
  bool_decide (s_writer s = Some writer) &&
  match date_parse (s_observedAt s) with
  | Some observed =>
      negb (current <? observed) && (int (current - observed) <=# withinSeconds ⊗ int 1000)
  | None => false
  end.

Definition writerHoldsCache (snapshots : list Snapshot) (writer : SnapshotWriter) (now : string)
    (withinSeconds : num) : bool :=
  match date_parse now with
  | Some current => existsb (holds_row writer current withinSeconds) snapshots
  | None => false
  end.

Definition desktopHoldsCache (snapshots : list Snapshot) (now : string) : bool :=
  writerHoldsCache snapshots desktop now DESKTOP_OWNERSHIP_SECONDS.

Definition provider_decision (snapshots : list Snapshot) (now : string) (staleSeconds : num)
    (claudePoll : bool) (provider : ProviderCode) : ProviderDecision :=
  let all := filter (fun row => s_provider row = provider) snapshots in
  let leased := bool_decide (provider = CLAUDE) && claudePoll in
  let rows := if leased then filter (fun row => isClaudeWeeklyPoll row = true) all else all in
  if negb leased && desktopHoldsCache rows now then pd_desktop_running
  else
    match cacheAgeSeconds rows now with
    | Some age => if (int 0 <=# age) && (age <=# staleSeconds) then pd_fresh else pd_due
    | None => pd_due
    end.

Definition shouldStartRefresh (snapshots : list Snapshot) (now : string) (staleSeconds : num)
    (claudePoll : bool) : RefreshDecision :=
  let providers := providers_of snapshots in
  match providers with
  | [] => refresh_now
  | _ =>
      let decisions := map (provider_decision snapshots now staleSeconds claudePoll) providers in
      if bool_decide (pd_due ∈ decisions) then refresh_now
      else if forallb (fun d => bool_decide (d = pd_desktop_running)) decisions
      then refresh_desktop_running
      else refresh_fresh
  end.

(** ** A small dated record *)

Definition readRecordedAt (file : JsonFile) : option string :=
  match file with
  | present v =>
      let? fs := record_of v in
      let? at_ := as_string (get fs "at") in
      let? _ := date_parse at_ in Some at_
  | _ => None
  end.

(** [recordRefreshSpawnFailure] *)
Definition spawn_failure (now : string) : JsonFile :=
  write_json (JObj [("at", JStr now); ("version", JNum (int 1))]).

(** ** Starting a refresh *)

(** What [lstat] says of the lock file. *)
Inductive LockStat := lock_absent | lock_uninspectable | lock_touched (mtimeMs : num).

Definition refreshLockHeld (lock : LockStat) (nowMilliseconds : num) : bool :=
  match lock with
  | lock_absent => false
  | lock_uninspectable => true
  | lock_touched mtime =>
      if negb (is_finite mtime) then true
      else nowMilliseconds ⊖ mtime <# REFRESH_LOCK_STALE_MILLISECONDS
  end.

(** [window]: [None] is [NaN]. *)
Definition start_window (now : string) : option Z :=
  let? t := date_parse now in
  to_int (nfloor (int t ⊘ int REFRESH_START_INTERVAL_MILLISECONDS)).

Definition window_text (window : option Z) : string :=
  match window with Some w => decimal w | None => "NaN" end.

Definition startTokenName (window : option Z) : string :=
  "openlimiter-refresh-start-" +:+ window_text window +:+ ".token".

(** The window a token name spells: [/^openlimiter-refresh-start-(\d+)\.token$/]. *)
Definition token_window (name : string) : option Z :=
  let? rest := after_prefix "openlimiter-refresh-start-" name in
  let '(digits, suffix) := take_run is_digit rest in
  check negb (str_eqb digits "") && str_eqb suffix ".token";;
  Some (digits_value 0 digits).

Definition is_old_token (window : option Z) (name : string) : bool :=
  match window, token_window name with Some w, Some n => 2 <? w - n | _, _ => false end.

Definition removeOldStartTokens (names : list string) (window : option Z) : list string :=
  filter (fun name => is_old_token window name = false) names.

Inductive SpawnRefreshResult :=
  | spawned
  | not_spawned (reason : SpawnRefusal)
with SpawnRefusal := sr_fresh | sr_desktop_running | sr_already_running | sr_no_script | sr_failed.

(** The state directory a render sees. *)
Record StartDirectory := { sd_names : list string; sd_failure : JsonFile }.

(** What the operating system answers one render: the lock, whether the
    directory can be prepared, whether the token file can be created when it
    does not exist, and whether [spawn] returns. *)
Record StartHost := {
  sh_lock : LockStat; sh_nowMilliseconds : num; sh_prepared : bool; sh_writable : bool;
  sh_spawns : bool }.

Definition spawnDetachedRefresh (host : StartHost) (directory : StartDirectory)
    (snapshots : list Snapshot) (now : string) (staleSeconds : num) (claudePoll : bool)
    (openLimiterScript : string) : StartDirectory * SpawnRefreshResult :=
  match shouldStartRefresh snapshots now staleSeconds claudePoll with
  | refresh_fresh => (directory, not_spawned sr_fresh)
  | refresh_desktop_running => (directory, not_spawned sr_desktop_running)
  | refresh_now =>
      if str_eqb openLimiterScript "" then (directory, not_spawned sr_no_script)
      else if refreshLockHeld (sh_lock host) (sh_nowMilliseconds host)
      then (directory, not_spawned sr_already_running)
      else
        let window := start_window now in
        let failed names :=
          ({| sd_names := names; sd_failure := spawn_failure now |}, not_spawned sr_failed) in
        if negb (sh_prepared host) then failed (sd_names directory)
        else if bool_decide (startTokenName window ∈ sd_names directory)
        then (directory, not_spawned sr_already_running)
        else if negb (sh_writable host) then failed (sd_names directory)
        else
          let names := removeOldStartTokens (startTokenName window :: sd_names directory) window in
          if sh_spawns host
          then ({| sd_names := names; sd_failure := sd_failure directory |}, spawned)
          else failed names
  end.
End Policy.

(** ** The refresh lock

    [acquireRefreshLock] as the file operations it makes, one at a time, with
    those of every other process in between. A process is one acquisition; its
    token, a [randomUUID()], is its number. *)
Module RefreshLock.

(** The lock file: who created it, whether its token has been written, and
    when it was last touched. A process that created a file keeps writing to
    that very file, whatever the path names by then. *)
Record LockFile := { lf_creator : nat; lf_written : bool; lf_touched : Z }.

(** Where an acquisition stands: about to open for the n-th time, to write its
    token, holding; at one of the three checks of a reclaim, or about to
    unlink; releasing; ended. *)
Inductive Pc :=
  | pc_open (attempt : nat) | pc_write | pc_holding
  | pc_check (which attempt : nat) | pc_unlink (attempt : nat)
  | pc_releasing | pc_remove | pc_ended.

Record Lock := {
  lk_file : option LockFile;
  lk_clock : Z;
  lk_now : nat -> Z;            (** [nowMilliseconds] of each acquisition *)
  lk_pc : nat -> Pc;
  lk_beating : nat -> bool      (** a heartbeat past its ownership check *) }.

Definition set_pc (i : nat) (pc : Pc) (l : Lock) : Lock :=
  {| lk_file := lk_file l; lk_clock := lk_clock l; lk_now := lk_now l;
     lk_pc := <[i := pc]> (lk_pc l); lk_beating := lk_beating l |}.

Definition set_file (f : option LockFile) (l : Lock) : Lock :=
  {| lk_file := f; lk_clock := lk_clock l; lk_now := lk_now l; lk_pc := lk_pc l;
     lk_beating := lk_beating l |}.

Definition set_beating (i : nat) (b : bool) (l : Lock) : Lock :=
  {| lk_file := lk_file l; lk_clock := lk_clock l; lk_now := lk_now l; lk_pc := lk_pc l;
     lk_beating := <[i := b]> (lk_beating l) |}.

Definition touch (t : Z) (f : LockFile) : LockFile :=
  {| lf_creator := lf_creator f; lf_written := lf_written f; lf_touched := t |}.

(** [refreshLockHeld] with the instant the acquisition started at. *)
Definition held (l : Lock) (i : nat) : bool :=
  refreshLockHeld
    match lk_file l with None => lock_absent | Some f => lock_touched (int (lf_touched f)) end
    (int (lk_now l i)).

(** [owns]: the file holds this acquisition's token. *)
Definition owns (l : Lock) (i : nat) : bool :=
  match lk_file l with
  | Some f => bool_decide (lf_creator f = i) && lf_written f
  | None => false
  end.

(** What follows a check that found the lock free. *)
Definition after_check (which attempt : nat) : Pc :=
  match which with
  | O => pc_check 1 attempt
  | S O => pc_unlink attempt
  | _ => pc_open (S attempt)
  end.

(** The next operation of an acquisition. *)
Definition advance (i : nat) (l : Lock) : option Lock :=
  match lk_pc l i with
  | pc_open attempt =>
      if (2 <=? attempt)%nat then Some (set_pc i pc_ended l)
      else match lk_file l with
      | None =>
          Some (set_pc i pc_write
            (set_file (Some {| lf_creator := i; lf_written := false; lf_touched := lk_clock l |}) l))
      | Some _ => Some (set_pc i (if (attempt =? 0)%nat then pc_check 0 attempt else pc_ended) l)
      end
  | pc_write =>
      let l' := set_pc i pc_holding l in
      match lk_file l with
      | Some f =>
          if bool_decide (lf_creator f = i)
          then Some (set_file (Some {| lf_creator := i; lf_written := true;
                                       lf_touched := lk_clock l |}) l')
          else Some l'
      | None => Some l'
      end
  | pc_check which attempt =>
      Some (set_pc i (if held l i then pc_ended else after_check which attempt) l)
  | pc_unlink attempt => Some (set_pc i (pc_check 2 attempt) (set_file None l))
  | pc_holding => Some (set_pc i pc_releasing l)
  | pc_releasing => Some (set_pc i (if owns l i then pc_remove else pc_ended) l)
  | pc_remove => Some (set_pc i pc_ended (set_file None l))
  | pc_ended => None
  end.

(** One operation of one process: the next one of an acquisition, the two of
    a heartbeat, or the passing of time. *)
Inductive step : Lock -> Lock -> Prop :=
  | step_advance i l l' : advance i l = Some l' -> step l l'
  | step_beat i l : lk_pc l i = pc_holding -> owns l i = true -> step l (set_beating i true l)
  | step_touch i l :
      lk_beating l i = true ->
      step l (set_beating i false (set_file (touch (lk_clock l) <$> lk_file l) l))
  | step_tick l t :
      lk_clock l <= t ->
      step l {| lk_file := lk_file l; lk_clock := t; lk_now := lk_now l; lk_pc := lk_pc l;
                lk_beating := lk_beating l |}.

(** Nobody holds the lock; every acquisition is still to come. *)
Definition start (now : nat -> Z) (clock : Z) : Lock :=
  {| lk_file := None; lk_clock := clock; lk_now := now; lk_pc := fun _ => pc_open 0;
     lk_beating := fun _ => false |}.

(** ** One owner *)

Definition in_charge (pc : Pc) : Prop :=
  match pc with pc_write | pc_holding | pc_releasing | pc_remove => True | _ => False end.

Definition file_ok (l : Lock) : Prop :=
  match lk_file l with
  | None => True
  | Some f => in_charge (lk_pc l (lf_creator f)) /\ (lf_written f = false <-> lk_pc l (lf_creator f) = pc_write)
  end.

Lemma insert_same (f : nat -> Pc) i pc : <[i := pc]> f i = pc.
Proof. apply fn_lookup_insert. Qed.

Lemma insert_other (f : nat -> Pc) i j pc : i <> j -> <[i := pc]> f j = f j.
Proof. apply fn_lookup_insert_ne. Qed.

Lemma file_ok_set_pc i pc l :
  file_ok l ->
  (forall f, lk_file l = Some f -> lf_creator f = i ->
     in_charge pc /\ (lf_written f = false <-> pc = pc_write)) ->
  file_ok (set_pc i pc l).
Proof.
  unfold file_ok. cbn [set_pc lk_file lk_pc]. destruct (lk_file l) as [f|]; [|done]. intros Hok Hi.
  destruct (decide (i = lf_creator f)) as [E|Hne].
  - rewrite <- E, insert_same. by apply Hi.
  - by rewrite insert_other.
Qed.

Lemma not_creator i l f :
  file_ok l -> ~ in_charge (lk_pc l i) -> lk_file l = Some f -> lf_creator f = i -> False.
Proof. unfold file_ok. intros Hok Hi Ef <-. rewrite Ef in Hok. by destruct Hok. Qed.

Lemma file_ok_bystander i pc l :
  file_ok l -> ~ in_charge (lk_pc l i) -> file_ok (set_pc i pc l).
Proof.
  intros Hok Hi. apply file_ok_set_pc; [done|]. intros f Ef Ec. by destruct (not_creator i l f).
Qed.

Lemma file_ok_written i l f :
  file_ok l -> lk_file l = Some f -> lf_creator f = i -> lk_pc l i <> pc_write ->
  lf_written f = true.
Proof.
  unfold file_ok. intros Hok Ef Ec Hp. rewrite Ef, Ec in Hok. destruct Hok as [_ Hw].
  destruct (lf_written f); [done|]. by destruct Hp; apply Hw.
Qed.

Lemma advance_ok i l l' : file_ok l -> advance i l = Some l' -> file_ok l'.
Proof.
  unfold advance. intros Hok. destruct (lk_pc l i) as [a| | |w a|a| | |] eqn:Epc; try done.
  - assert (Hi : ~ in_charge (lk_pc l i)) by (rewrite Epc; tauto).
    destruct (2 <=? a)%nat; [|destruct (lk_file l) as [f|] eqn:Ef]; intros [= <-];
      try by apply file_ok_bystander.
    unfold file_ok. cbn [set_pc set_file lk_file lk_pc lf_creator lf_written]. by rewrite insert_same.
  - destruct (lk_file l) as [f|] eqn:Ef; [case_bool_decide as Ec|]; intros [= <-].
    + unfold file_ok. cbn [set_pc set_file lk_file lk_pc lf_creator lf_written].
      by rewrite insert_same.
    + apply file_ok_set_pc; [done|]. intros f' Ef' Ec'. congruence.
    + apply file_ok_set_pc; [done|]. congruence.
  - intros [= <-]. apply file_ok_set_pc; [done|]. intros f Ef Ec.
    rewrite (file_ok_written i l f) by (done || by rewrite Epc). done.
  - intros [= <-]. apply file_ok_bystander; [done|rewrite Epc; tauto].
  - by intros [= <-].
  - intros [= <-]. apply file_ok_set_pc; [done|]. intros f Ef Ec.
    rewrite (file_ok_written i l f) by (done || by rewrite Epc).
    unfold owns. rewrite Ef, bool_decide_true by done.
    rewrite (file_ok_written i l f) by (done || by rewrite Epc). done.
  - by intros [= <-].
Qed.

Lemma step_ok l l' : file_ok l -> step l l' -> file_ok l'.
Proof.
  intros Hok Hs. destruct Hs as [i l l' Ha|i l Hp Ho|i l Hb|l t Ht].
  - by eapply advance_ok.
  - exact Hok.
  - unfold file_ok in *. cbn [set_beating set_file lk_file lk_pc].
    by destruct (lk_file l) as [f|].
  - exact Hok.
Qed.

Lemma reachable_ok now clock l : rtc step (start now clock) l -> file_ok l.
Proof.
  intros Hr. assert (Hg : forall l0, file_ok l0 -> rtc step l0 l -> file_ok l).
  { intros l0 H0 Hs. induction Hs; [done|]. eauto using step_ok. }
  by apply (Hg (start now clock)).
Qed.

Lemma one_owner_facts l :
  file_ok l ->
  (forall i j, owns l i = true -> owns l j = true -> i = j) /\
  (forall i, owns l i = true ->
     lk_pc l i = pc_holding \/ lk_pc l i = pc_releasing \/ lk_pc l i = pc_remove).
Proof.
  intros Hok. unfold file_ok, owns in *. destruct (lk_file l) as [f|]; [|done].
  destruct Hok as [Hc Hw]. split.
  - intros i j [Hi%bool_decide_eq_true _]%andb_true_iff [Hj%bool_decide_eq_true _]%andb_true_iff.
    congruence.
  - intros i [Hi%bool_decide_eq_true Hwr]%andb_true_iff. rewrite Hi in *. revert Hc Hw. rewrite Hwr.
    destruct (lk_pc l i); try done; intros _ Hw; auto. discriminate (proj2 Hw eq_refl).
Qed.

(** ** How the lock is gained and lost *)

(** A state of the history before [l], in which [P] held. *)
Definition earlier (l0 : Lock) (P : Lock -> Prop) (l : Lock) : Prop :=
  exists l1, rtc step l0 l1 /\ P l1 /\ rtc step l1 l.

(** The checks a reclaim made: the file was absent or silent at each. *)
Definition found_silent (i which : nat) (l : Lock) : Prop :=
  (exists attempt, lk_pc l i = pc_check which attempt) /\ held l i = false.

(** What an acquisition has seen by the time it stands where it does. *)
Definition has_seen (l0 l : Lock) (i : nat) : Prop :=
  match lk_pc l i with
  | pc_write => earlier l0 (fun l => (exists attempt, lk_pc l i = pc_open attempt) /\ lk_file l = None) l
  | pc_check (S O) _ => earlier l0 (found_silent i 0) l
  | pc_unlink _ =>
      earlier l0 (fun l1 => found_silent i 1 l1 /\ earlier l0 (found_silent i 0) l1) l
  | pc_remove => earlier l0 (fun l => lk_pc l i = pc_releasing /\ owns l i = true) l
  | _ => True
  end.

Lemma earlier_step l0 P l l' : earlier l0 P l -> step l l' -> earlier l0 P l'.
Proof. intros (l1 & H0 & HP & H1) Hs. exists l1. split_and!; [done..|]. by eapply rtc_r. Qed.

Lemma earlier_here l0 (P : Lock -> Prop) l l' :
  rtc step l0 l -> P l -> step l l' -> earlier l0 P l'.
Proof. intros H0 HP Hs. exists l. split_and!; [done..|]. by apply rtc_once. Qed.

Lemma has_seen_later l0 l l' i :
  has_seen l0 l i -> lk_pc l' i = lk_pc l i -> step l l' -> has_seen l0 l' i.
Proof.
  unfold has_seen. intros Hs -> Hst.
  destruct (lk_pc l i) as [| | |[|[|w]]| | | |]; try done; by eapply earlier_step.
Qed.

Lemma advance_pc_other i j l l' : advance i l = Some l' -> i <> j -> lk_pc l' j = lk_pc l j.
Proof.
  unfold advance. intros Ha Hne. repeat case_match; simplify_eq/=; try done; by apply insert_other.
Qed.

Lemma advance_has_seen l0 i l l' :
  rtc step l0 l -> has_seen l0 l i -> advance i l = Some l' -> has_seen l0 l' i.
Proof.
  intros Hr Hs Ha. assert (Hst : step l l') by by eapply step_advance.
  unfold advance in Ha. unfold has_seen in Hs.
  destruct (lk_pc l i) as [a| | |w a|a| | |] eqn:Epc; try done;
    unfold has_seen.
  - destruct (2 <=? a)%nat; [|destruct (lk_file l) as [f|] eqn:Ef]; injection Ha as <-;
      cbn [set_pc set_file lk_pc]; rewrite insert_same; [done| |].
    + by destruct (a =? 0)%nat.
    + eapply earlier_here; [done| |done]. by split; [exists a|].
  - repeat case_match; simplify_eq/=; by rewrite insert_same in *.
  - injection Ha as <-. cbn [set_pc lk_pc]. by rewrite insert_same.
  - injection Ha as <-. cbn [set_pc lk_pc]. rewrite insert_same.
    destruct (held l i) eqn:Eh; [done|].
    destruct w as [|[|w]]; cbn [after_check]; [| |done].
    + eapply earlier_here; [done| |exact Hst]. by split; [exists a|].
    + eapply earlier_here; [done| |exact Hst]. by split; [split; [exists a|]|].
  - injection Ha as <-. cbn [set_pc set_file lk_pc]. by rewrite insert_same.
  - injection Ha as <-. cbn [set_pc lk_pc]. rewrite insert_same.
    destruct (owns l i) eqn:Eo; [|done]. by eapply earlier_here.
  - injection Ha as <-. cbn [set_pc set_file lk_pc]. by rewrite insert_same.
Qed.

Lemma step_has_seen l0 l l' i :
  rtc step l0 l -> has_seen l0 l i -> step l l' -> has_seen l0 l' i.
Proof.
  intros Hr IH Hs. destruct Hs as [k l l' Ha|k l Hp Ho|k l Hb|l t Ht];
    try (eapply has_seen_later; [exact IH|done|]; by econstructor).
  destruct (decide (k = i)) as [->|Hne]; [by eapply advance_has_seen|].
  eapply has_seen_later; [exact IH|by eapply advance_pc_other|by eapply step_advance].
Qed.

Lemma reachable_has_seen now clock l i : rtc step (start now clock) l -> has_seen (start now clock) l i.
Proof.
  intros Hr. assert (Hg : forall l0 l1, rtc step l0 l1 -> has_seen l0 l1 i -> rtc step l1 l ->
    has_seen l0 l i).
  { intros l0 l1 H0 H1 Hs. revert H0 H1. induction Hs as [|l1 l2 l Hs _ IH]; [done|].
    intros H0 H1. apply IH; [done|by eapply rtc_r|by eapply step_has_seen]. }
  by apply (Hg _ (start now clock)).
Qed.

(** What one operation does to the ownership of another. *)
Lemma owns_set_pc i pc l j : owns (set_pc i pc l) j = owns l j.
Proof. done. Qed.

Lemma owns_gone i pc l j : owns (set_pc i pc (set_file None l)) j = false.
Proof. done. Qed.

Lemma advance_owns i j l l' :
  advance i l = Some l' -> owns l j <> owns l' j ->
  (owns l' j = true /\ i = j /\ lk_pc l j = pc_write) \/
  (owns l j = true /\ ((exists attempt, lk_pc l i = pc_unlink attempt) \/ lk_pc l i = pc_remove)).
Proof.
  unfold advance. intros Ha Hne.
  assert (Hgone : forall pc, owns l j <> owns (set_pc i pc (set_file None l)) j -> owns l j = true).
  { intros pc. rewrite owns_gone. by destruct (owns l j). }
  destruct (lk_pc l i) as [a| | |w a|a| | |] eqn:Epc; try done;
    try (injection Ha as <-; rewrite ?owns_set_pc in Hne; done).
  - destruct (2 <=? a)%nat; [|destruct (lk_file l) as [f|] eqn:Ef]; injection Ha as <-;
      rewrite ?owns_set_pc in Hne; [done..|].
    unfold owns in Hne. rewrite Ef in Hne. cbn in Hne. by rewrite andb_false_r in Hne.
  - left. destruct (lk_file l) as [f|] eqn:Ef; [case_bool_decide as Ec|]; injection Ha as <-;
      rewrite ?owns_set_pc in Hne; [|done..].
    unfold owns in *. rewrite Ef in Hne. cbn [set_file set_pc lk_file lf_creator lf_written] in *.
    rewrite Ec in *. destruct (decide (i = j)) as [->|Hn]; [by rewrite bool_decide_true|].
    by rewrite bool_decide_false in Hne.
  - right. injection Ha as <-. eauto.
  - right. injection Ha as <-. eauto.
Qed.

(** C5: The refresh lock, however the file operations of any number of
    processes interleave, heartbeats, reclaims and releases included. At most
    one acquisition finds its own token in the lock file, and only while it is
    in charge. It comes to own the file only by writing its token after it
    opened a path that held no file; and it stops owning it only when it
    removes the file itself, or by another process at one of two operations: a
    reclaim, which has found the lock absent or silent for the stale bound in
    two checks before, the second after the first; or the removal of a
    release, which has found its own token in the file before. *)
Theorem a_lock_has_one_owner now clock l l' i j :
  rtc step (start now clock) l -> step l l' ->
  (owns l i = true -> owns l j = true -> i = j) /\
  (owns l i = true -> lk_pc l i = pc_holding \/ lk_pc l i = pc_releasing \/ lk_pc l i = pc_remove) /\
  (owns l j = false -> owns l' j = true ->
     lk_pc l j = pc_write /\
     earlier (start now clock)
       (fun l => (exists attempt, lk_pc l j = pc_open attempt) /\ lk_file l = None) l) /\
  (owns l j = true -> owns l' j = false ->
     lk_pc l j = pc_remove \/
     exists k, k <> j /\
       ((exists attempt, lk_pc l k = pc_unlink attempt) /\
        earlier (start now clock) (fun l1 => found_silent k 1 l1 /\
          earlier (start now clock) (found_silent k 0) l1) l \/
        lk_pc l k = pc_remove /\
        earlier (start now clock) (fun l => lk_pc l k = pc_releasing /\ owns l k = true) l)).
Proof.
  intros Hr Hs. pose proof (fun k => reachable_has_seen now clock l k Hr) as Hseen.
  assert (Hmove : owns l j <> owns l' j -> exists k, advance k l = Some l').
  { unfold owns. destruct Hs as [k l l' Ha|k l Hp Ho|k l Hb|l t Ht]; [by eexists|done| |done].
    cbn [set_beating set_file lk_file]. by destruct (lk_file l). }
  destruct (one_owner_facts l (reachable_ok _ _ _ Hr)) as [H1 H2].
  split_and!; [by apply H1|by apply H2|..]; intros Ho Ho'.
  - destruct Hmove as [k Ha]; [congruence|].
    destruct (advance_owns k j l l' Ha) as [(_ & -> & Ep)|(? & _)]; [congruence| |congruence].
    split; [done|]. specialize (Hseen j). unfold has_seen in Hseen. by rewrite Ep in Hseen.
  - destruct Hmove as [k Ha]; [congruence|].
    destruct (advance_owns k j l l' Ha) as [(? & _)|(_ & Hk)]; [congruence..|].
    specialize (Hseen k). unfold has_seen in Hseen. destruct (decide (k = j)) as [->|Hne].
    + left. destruct (H2 j Ho) as [E|[E|E]]; [..|done]; destruct Hk as [[a Ek]|Ek]; congruence.
    + right. exists k. split; [done|].
      destruct Hk as [[a Ek]|Ek]; rewrite Ek in Hseen; [left|right]; eauto.
Qed.

(** ** What the reclaim can do *)

(** A history given by whose turn it is. *)
Fixpoint run (turns : list nat) (l : Lock) : option Lock :=
  match turns with
  | [] => Some l
  | i :: turns => let? l' := advance i l in run turns l'
  end.

Lemma run_reaches turns l l' : run turns l = Some l' -> rtc step l l'.
Proof.
  revert l. induction turns as [|i turns IH]; simpl; intros l; [intros [= <-]; apply rtc_refl|].
  destruct (advance i l) as [l1|] eqn:E; [|done]. intros Hr.
  eapply rtc_l; [by eapply step_advance|by apply IH].
Qed.

(** Acquisition 0 holds; 1 finds the file and goes to check it; 0 gives the
    lock up, so both checks of 1 find nothing; 2 takes the lock; 1 unlinks the
    file of 2 and takes the lock itself. *)
Definition reclaim_race : list nat :=
  [0; 0; 1; 0; 0; 0; 1; 1; 2; 2; 1; 1; 1; 1]%nat.

Definition raced : Lock := default (start (fun _ => 0) 0) (run reclaim_race (start (fun _ => 0) 0)).

(** A reclaim can take a live lock away. Although the reclaim checks the
    file again before it unlinks it, another process may take the lock between
    that check and the unlink: with the clock standing still, so that no lock
    was ever silent for an instant, two acquisitions hold the lock at once,
    and the one whose file was removed no longer owns it. *)
Theorem a_live_lock_can_be_reclaimed :
  exists l, rtc step (start (fun _ => 0) 0) l /\ lk_clock l = 0 /\
    lk_pc l 1 = pc_holding /\ lk_pc l 2 = pc_holding /\ owns l 1 = true /\ owns l 2 = false.
Proof.
  exists raced. split; [|by vm_compute].
  apply (run_reaches reclaim_race). unfold raced.
  destruct (run reclaim_race (start (fun _ => 0) 0)) as [l|] eqn:E; [done|].
  exfalso. revert E. by vm_compute.
Qed.

(** ** Without a reclaim *)

(** A step after which nobody is about to unlink a file it does not own. *)
Definition quiet (l l' : Lock) : Prop :=
  step l l' /\ forall i, match lk_pc l' i with pc_unlink _ => False | _ => True end.

(** Whoever is in charge created the file that is there. *)
Definition exclusive (l : Lock) : Prop :=
  file_ok l /\ forall i, in_charge (lk_pc l i) ->
    exists f, lk_file l = Some f /\ lf_creator f = i.

Lemma exclusive_set_pc i pc l :
  exclusive l -> (in_charge pc -> in_charge (lk_pc l i)) -> file_ok (set_pc i pc l) ->
  exclusive (set_pc i pc l).
Proof.
  intros [_ He] Hpc Hok. split; [done|]. intros j. cbn [set_pc lk_file lk_pc].
  destruct (decide (i = j)) as [<-|]; [rewrite insert_same|rewrite insert_other by done]; auto.
Qed.

Lemma exclusive_owner l i :
  exclusive l -> in_charge (lk_pc l i) -> lk_pc l i <> pc_write -> owns l i = true.
Proof.
  intros [Hok He] Hi Hw. destruct (He i Hi) as (f & Ef & Ec). unfold owns.
  by rewrite Ef, bool_decide_true, (file_ok_written i l f) by done.
Qed.

(** A file is created where there is none, and given up by its owner. *)
Lemma exclusive_create i l f :
  exclusive l -> lk_file l = None -> lf_creator f = i -> lf_written f = false ->
  exclusive (set_pc i pc_write (set_file (Some f) l)).
Proof.
  intros [_ He] En Ec Ew. unfold exclusive, file_ok. cbn [set_pc set_file lk_file lk_pc]. split.
  - by rewrite Ec, insert_same, Ew.
  - intros j. destruct (decide (i = j)) as [<-|]; [by exists f|rewrite insert_other by done].
    intros Hj. destruct (He j Hj) as (g & Eg & _). congruence.
Qed.

Lemma exclusive_remove i l :
  exclusive l -> in_charge (lk_pc l i) -> exclusive (set_pc i pc_ended (set_file None l)).
Proof.
  intros [_ He] Hi. split; [done|]. intros j. cbn [set_pc set_file lk_file lk_pc].
  destruct (decide (i = j)) as [<-|Hne]; [by rewrite insert_same|rewrite insert_other by done].
  intros Hj. destruct (He i Hi) as (f & Ef & Ei), (He j Hj) as (g & Eg & Ej). congruence.
Qed.

Lemma advance_exclusive i l l' :
  exclusive l -> (forall a, lk_pc l i <> pc_unlink a) -> advance i l = Some l' -> exclusive l'.
Proof.
  intros Hex Hq Ha. pose proof Hex as [Hok He]. pose proof (advance_ok _ _ _ Hok Ha) as Hok'.
  unfold advance in Ha. destruct (lk_pc l i) as [a| | |w a|a| | |] eqn:Epc; try done.
  - destruct (2 <=? a)%nat; [|destruct (lk_file l) as [f|] eqn:Ef]; injection Ha as <-.
    + by apply exclusive_set_pc.
    + apply exclusive_set_pc; [done| |done]. by destruct (a =? 0)%nat.
    + by apply exclusive_create.
  - destruct (He i) as (f & Ef & Ec); [by rewrite Epc|]. rewrite Ef, bool_decide_true in Ha by done.
    injection Ha as <-. split; [done|]. intros j. cbn [set_pc set_file lk_file lk_pc].
    destruct (decide (i = j)) as [<-|]; [by eexists|rewrite insert_other by done].
    intros Hj. destruct (He j Hj) as (g & Eg & Ej). congruence.
  - injection Ha as <-. apply exclusive_set_pc; [done|by rewrite Epc|done].
  - injection Ha as <-. apply exclusive_set_pc; [done| |done].
    destruct (held l i); [done|]. by destruct w as [|[|w]].
  - by destruct (Hq a).
  - injection Ha as <-. apply exclusive_set_pc; [done|by rewrite Epc|done].
  - injection Ha as <-. apply exclusive_remove; [done|by rewrite Epc].
Qed.

Lemma step_exclusive l l' :
  exclusive l -> (forall i a, lk_pc l i <> pc_unlink a) -> step l l' -> exclusive l'.
Proof.
  intros Hex Hq Hs. destruct Hs as [i l l' Ha|i l Hp Ho|i l Hb|l t Ht].
  - eapply advance_exclusive; eauto.
  - exact Hex.
  - destruct Hex as [Hok He]. split.
    + unfold file_ok in *. cbn [set_beating set_file lk_file lk_pc].
      by destruct (lk_file l) as [f|].
    + intros j Hj. destruct (He j Hj) as (f & Ef & Ec). exists (touch (lk_clock l) f).
      cbn [set_beating set_file lk_file]. by rewrite Ef.
  - exact Hex.
Qed.

(** Exclusive creation is a lock. As long as no process goes on to unlink
    a file it found silent, then whatever else the processes do, at most one
    of them is between taking the lock and giving it up, and it owns the lock
    file from the moment it has written its token until it removes it. *)
Theorem without_a_reclaim_one_process_holds now clock l i j :
  rtc quiet (start now clock) l ->
  (in_charge (lk_pc l i) -> in_charge (lk_pc l j) -> i = j) /\
  (in_charge (lk_pc l i) -> lk_pc l i <> pc_write -> owns l i = true).
Proof.
  intros Hr. assert (Hex : exclusive l).
  { assert (Hg : forall l0, exclusive l0 -> (forall i a, lk_pc l0 i <> pc_unlink a) ->
      rtc quiet l0 l -> exclusive l).
    { clear Hr. intros l0 H0 Hn0 Hs. induction Hs as [|x y z [Hs Hq] _ IH]; [done|].
      apply IH; [by eapply step_exclusive|]. intros k a E. specialize (Hq k). by rewrite E in Hq. }
    apply (Hg (start now clock)); [|done|done]. by split. }
  split; [|by apply exclusive_owner].
  destruct Hex as [_ He]. intros Hi Hj.
  destruct (He i Hi) as (f & Ef & Ec), (He j Hj) as (g & Eg & Ecj). congruence.
Qed.
End RefreshLock.

(** ** One start per window *)

Lemma token_window_name w :
  0 <= w < 10 ^ 40 -> token_window (startTokenName (Some w)) = Some w.
Proof.
  intros Hw. unfold token_window, startTokenName, window_text, decimal.
  rewrite (proj2 (Z.ltb_ge _ _)) by lia.
  rewrite (proj2 (after_prefix_Some _ _ _) eq_refl).
  change ".token" with (String "." "token").
  rewrite take_run_app; [|by apply decimal_fuel_digits; [lia|]|done].
  unfold str_eqb. rewrite bool_decide_false by (apply decimal_fuel_nonempty; left; lia).
  rewrite bool_decide_true by done. cbn [negb andb].
  rewrite (decimal_fuel_value 40 w ""); [done|exact Hw|lia].
Qed.

(** The two operations of a start on the directory: the exclusive creation,
    which decides, and the removal of old tokens, which follows it at any
    later time. *)
Inductive StartEvent := ev_create (window : Z) | ev_clean (window : Z).

Definition event_window (e : StartEvent) : Z :=
  match e with ev_create w | ev_clean w => w end.

(** The token files, and the windows whose creation succeeded. *)
Definition start_step (st : list string * list Z) (e : StartEvent) : list string * list Z :=
  let '(names, started) := st in
  match e with
  | ev_create w =>
      if bool_decide (startTokenName (Some w) ∈ names) then st
      else (startTokenName (Some w) :: names, w :: started)
  | ev_clean w => (removeOldStartTokens names (Some w), started)
  end.

(** Clocks that differ by less than two windows: none is ever more than two
    behind the latest seen. *)
Fixpoint close_clocks (latest : Z) (events : list StartEvent) : Prop :=
  match events with
  | [] => True
  | e :: events =>
      0 <= event_window e < 10 ^ 40 /\ latest - 2 <= event_window e /\
      close_clocks (Z.max latest (event_window e)) events
  end.

Record tokens_ok (latest : Z) (names : list string) (started : list Z) : Prop := {
  tk_NoDup : NoDup started;
  tk_range w : w ∈ started -> 0 <= w < 10 ^ 40;
  tk_kept w : w ∈ started -> latest - 2 <= w -> startTokenName (Some w) ∈ names }.

Lemma start_step_ok latest names started e :
  tokens_ok latest names started -> 0 <= event_window e < 10 ^ 40 -> latest - 2 <= event_window e ->
  let st := start_step (names, started) e in
  tokens_ok (Z.max latest (event_window e)) st.1 st.2.
Proof.
  intros [Hn Hr Hk] He Hl. destruct e as [w|w]; cbn [start_step event_window] in *.
  - case_bool_decide as Hin; cbn [fst snd].
    + split; [done|done|]. intros v Hv Hlate. apply Hk; [done|lia].
    + split.
      * apply NoDup_cons. split; [|done]. intros Hw. apply Hin, Hk; [done|lia].
      * intros v [->|Hv]%elem_of_cons; auto.
      * intros v [->|Hv]%elem_of_cons Hlate; [left|]. right. apply Hk; [done|lia].
  - cbn [fst snd]. split; [done|done|]. intros v Hv Hlate.
    apply list_elem_of_filter. split; [|apply Hk; [done|lia]].
    unfold is_old_token. rewrite token_window_name by auto. apply Z.ltb_ge. lia.
Qed.

(** One start per window. However the renders of all processes interleave
    their token creations and removals, as long as no clock is more than two
    windows behind the latest one seen, each window is reserved at most once. *)
Theorem one_start_per_window events names latest :
  close_clocks latest events -> NoDup (foldl start_step (names, []) events).2.
Proof.
  assert (Hg : forall events latest names started, close_clocks latest events ->
    tokens_ok latest names started -> NoDup (foldl start_step (names, started) events).2).
  { clear. induction events as [|e events IH]; intros latest names started; [by intros _ []|].
    intros (He & Hl & Hc) Hok. cbn [foldl].
    pose proof (start_step_ok _ _ _ e Hok He Hl) as Hstep. cbn zeta in Hstep.
    destruct (start_step (names, started) e) as [names' started']. by eapply IH. }
  intros Hc. eapply Hg; [exact Hc|]. split; [constructor|set_solver|set_solver].
Qed.

Section Renders.
Context `{DateHost}.

(** A render that starts a refresh made exactly the two operations. *)
Lemma spawn_is_create_then_clean host dir snapshots now stale poll script w :
  start_window now = Some w ->
  let '(dir', result) := spawnDetachedRefresh host dir snapshots now stale poll script in
  result = spawned ->
  (startTokenName (Some w) ∉ sd_names dir) /\
  sd_names dir' = (foldl start_step (sd_names dir, []) [ev_create w; ev_clean w]).1.
Proof.
  intros Ew. unfold spawnDetachedRefresh. rewrite Ew.
  destruct (shouldStartRefresh _ _ _ _); try done. destruct (str_eqb _ _); [done|].
  destruct (refreshLockHeld _ _); [done|]. destruct (negb (sh_prepared host)); [done|].
  case_bool_decide as Hin; [done|]. destruct (negb (sh_writable host)); [done|].
  destruct (sh_spawns host); [|done]. intros _. split; [done|].
  cbn [foldl start_step]. by rewrite bool_decide_false.
Qed.

(** ** The decision *)

Lemma elem_of_providers seen snapshots p :
  p ∈ foldl (fun seen row => if decide (s_provider row ∈ seen) then seen else seen ++ [s_provider row])
        seen snapshots <-> p ∈ seen \/ exists row, row ∈ snapshots /\ s_provider row = p.
Proof.
  revert seen. induction snapshots as [|r snapshots IH]; intros seen; cbn [foldl]; [set_solver|].
  rewrite IH. destruct (decide (s_provider r ∈ seen)); set_solver.
Qed.

Lemma newest_of_rows rows newest n :
  foldl newer_of newest rows = Some n ->
  newest = Some n \/ exists row, row ∈ rows /\ date_parse (s_observedAt row) = Some n.
Proof.
  revert newest. induction rows as [|r rows IH]; intros newest; cbn [foldl]; [by left|].
  intros [E|(row & Hin & E)]%IH; [|right; exists row; split; [by right|done]].
  unfold newer_of in E. destruct (date_parse (s_observedAt r)) as [o|] eqn:Eo; [|by left].
  destruct newest as [k|]; [destruct (k <? o)|]; try (by left);
    injection E as ->; right; exists r; (split; [by left|done]).
Qed.

(** The terminal's own polls alone decide when Claude is due. With the
    request on and a Claude row present, a render holds back only when a
    weekly reading that a successful poll wrote is within the bound; no
    session row a status line keeps fresh and no desktop row can do it. *)
Theorem claude_is_due_by_its_polls_alone snapshots now stale row current :
  row ∈ snapshots -> s_provider row = CLAUDE -> date_parse now = Some current ->
  shouldStartRefresh snapshots now stale true <> refresh_now ->
  exists poll observed, poll ∈ snapshots /\ isClaudeWeeklyPoll poll = true /\
    date_parse (s_observedAt poll) = Some observed /\
    (int 0 <=# int (current - observed) ⊘ int 1000) = true /\
    (int (current - observed) ⊘ int 1000 <=# stale) = true.
Proof.
  intros Hin Hp Hnow Hd. unfold shouldStartRefresh in Hd.
  assert (Hc : CLAUDE ∈ providers_of snapshots).
  { apply elem_of_providers. right. by exists row. }
  destruct (providers_of snapshots) as [|p ps] eqn:Eps; [set_solver|]. rewrite <- Eps in *.
  case_bool_decide as Hdue; [done|].
  assert (Hnd : provider_decision snapshots now stale true CLAUDE <> pd_due).
  { intros E. apply Hdue. rewrite <- E. by apply list_elem_of_fmap_2. }
  unfold provider_decision in Hnd. rewrite bool_decide_true in Hnd by done. cbn [andb negb] in Hnd.
  unfold cacheAgeSeconds in Hnd. rewrite Hnow in Hnd.
  set (polls := filter _ _) in Hnd.
  destruct (newestObservedMilliseconds polls) as [n|] eqn:En; [|done].
  apply newest_of_rows in En as [?|(poll & Hpoll & Eo)]; [done|].
  apply list_elem_of_filter in Hpoll as [Hw Hall]. apply list_elem_of_filter in Hall as [_ Hs].
  exists poll, n. destruct ((int 0 <=# _) && _) eqn:Ea; [|done].
  apply andb_true_iff in Ea as [? ?]. done.
Qed.
End Renders.

(** ** Witnesses *)

Import RefreshLock.

Definition one_holder : Lock := default (start (fun _ => 0) 0) (run [0; 0]%nat (start (fun _ => 0) 0)).

Lemma one_holder_reached : rtc step (start (fun _ => 0) 0) one_holder.
Proof. by apply (run_reaches [0; 0]%nat). Qed.

(** The holder of [one_holder] releases: the checks are made, then it goes. *)
Definition releasing : Lock := default one_holder (run [0; 0]%nat one_holder).
Definition released : Lock := default one_holder (run [0]%nat releasing).

Lemma a_lock_has_one_owner_witness :
  owns releasing 0 = true /\ owns released 0 = false /\ lk_pc releasing 0 = pc_remove.
Proof.
  assert (Hr : rtc step (start (fun _ => 0) 0) releasing) by (by apply (run_reaches [0; 0; 0; 0]%nat)).
  assert (Hs : step releasing released) by (by apply (step_advance 0)).
  assert (Ho : owns releasing 0 = true) by (by vm_compute).
  split; [exact Ho|]. split; [by vm_compute|].
  destruct (a_lock_has_one_owner _ _ releasing released 0 0 Hr Hs) as (_ & _ & _ & Hl).
  destruct (Hl Ho) as [E|(k & Hk & [[[a E] _]|[E _]])]; [by vm_compute|exact E|exfalso..].
  - destruct k as [|k]; [by apply Hk|]. discriminate E.
  - destruct k as [|k]; [by apply Hk|]. discriminate E.
Defined.

Lemma one_holder_quiet : rtc quiet (start (fun _ => 0) 0) one_holder.
Proof.
  set (opened := default (start (fun _ => 0) 0) (run [0]%nat (start (fun _ => 0) 0))).
  apply rtc_l with opened; [|apply rtc_once]; (split; [by apply (step_advance 0)|]);
    intros [|i]; exact I.
Qed.

Lemma without_a_reclaim_one_process_holds_witness :
  in_charge (lk_pc one_holder 0) /\ owns one_holder 0 = true.
Proof.
  destruct (without_a_reclaim_one_process_holds _ _ _ 0 0 one_holder_quiet) as [_ Ho].
  split; [exact I|]. apply Ho; [exact I|discriminate].
Defined.

Lemma one_start_per_window_witness :
  NoDup (foldl start_step ([], []) [ev_create 7; ev_create 8; ev_clean 8; ev_create 7; ev_create 6]).2.
Proof. apply (one_start_per_window _ [] 7). simpl. lia. Defined.

Definition fresh_session : Snapshot :=
  with_writer cli (sample_snapshot CLAUDE "FIVE_HOUR" (int 10) "2026-01-01T00:00:00.000Z" "2026-01-01T00:15:00.000Z").

Definition fresh_weekly : Snapshot :=
  with_writer cli (sample_snapshot CLAUDE "SEVEN_DAY" (int 10) "2026-01-01T00:00:00.000Z" "2026-01-01T00:15:00.000Z").

(** The session row alone lets the round start; with a fresh weekly poll the
    render holds back, on the strength of that row. *)
Lemma claude_is_due_by_its_polls_alone_witness :
  shouldStartRefresh (H := strict_host) [fresh_session] "2026-01-01T00:00:30.000Z" (int 60) true =
    refresh_now /\
  exists poll observed, poll ∈ [fresh_session; fresh_weekly] /\ isClaudeWeeklyPoll poll = true /\
    date_parse (H := strict_host) (s_observedAt poll) = Some observed.
Proof.
  split; [by vm_compute|].
  destruct (claude_is_due_by_its_polls_alone (H := strict_host) [fresh_session; fresh_weekly]
    "2026-01-01T00:00:30.000Z" (int 60) fresh_session 1767225630000)
    as (poll & observed & Hin & Hw & Eo & _).
  - left.
  - done.
  - by vm_compute.
  - by vm_compute.
  - exists poll, observed. split; [exact Hin|]. split; [exact Hw|exact Eo].
Defined.
