(* ===== verification/Attempt.v ===== *)
(** * One read of one provider

    [runner.ts]: [attempt], the requests of one read in order. What the world
    answers at each step, the clock, the lease, the network, is a record of
    answers by step; a spec's steps and its parser are the caller's functions.
    [None] is a throw. *)
From S2P Require Import Prelude JsNum JsDate JsValue Text Types Files Identity Cadence.
Local Open Scope string_scope.
Local Open Scope Z_scope.
Local Open Scope list_scope.
Local Open Scope js_scope.

(** [transport.ts outcomeForStatus] *)
Definition outcomeForStatus (status : Z) : AcquisitionOutcome :=
  if (200 <=? status) && (status <? 300) then oc_ok
  else if status =? 401 then oc_unauthorized
  else if status =? 403 then oc_blocked
  else if status =? 429 then oc_rate_limited
  else oc_remote_error.

(** [ry_body]: what [JSON.parse] makes of the body; [None] when it throws. *)
Record AcquisitionReply := {
  ry_status : Z;
  ry_body : option jsval;
  ry_retryAfterSeconds : option num;
  ry_outcome : option AcquisitionOutcome;
  ry_missingCredential : bool }.

Record Attempt := {
  at_outcome : AcquisitionOutcome;
  at_meters : list jsval;
  at_retryAfterSeconds : option num;
  at_complete : option bool;
  at_phase : option AcquisitionPhase;
  at_expiredCredentials : bool;
  at_missingCredential : bool }.

(** A failed attempt. *)
Definition failed_attempt (outcome : AcquisitionOutcome) (retryAfter : option num)
    (phase : AcquisitionPhase) : Attempt :=
  {| at_outcome := outcome; at_meters := []; at_retryAfterSeconds := retryAfter;
     at_complete := None; at_phase := Some phase; at_expiredCredentials := false;
     at_missingCredential := false |}.

Definition expired_attempt : Attempt :=
  {| at_outcome := oc_unauthorized; at_meters := []; at_retryAfterSeconds := None;
     at_complete := None; at_phase := None; at_expiredCredentials := true;
     at_missingCredential := false |}.

Definition missing_attempt : Attempt :=
  {| at_outcome := oc_transport; at_meters := []; at_retryAfterSeconds := None;
     at_complete := None; at_phase := Some ph_request; at_expiredCredentials := false;
     at_missingCredential := true |}.

Section Attempt.
Context `{DateHost} `{CryptoHost} {Request : Type}.

Inductive AcquisitionStepResult :=
  | step_request (request : Request)
  | step_stop (outcome : AcquisitionOutcome).

(** The outer [None]: the step threw; the inner one: [null]. *)
Definition AcquisitionStep : Type :=
  AcquiredCredential -> list jsval -> option (option AcquisitionStepResult).

Record AcquisitionSpec := {
  spec_provider : ProviderCode;
  spec_steps : list AcquisitionStep;
  spec_optionalFrom : option nat;
  (** payload, now, previous; the inner [None]: [null] *)
  spec_parse : jsval -> string -> list jsval -> option (option (list jsval));
  spec_complete : option (jsval -> string -> option bool);
  spec_disclosure : option string;
  spec_enabled : bool;
  spec_disabledReason : option string;
  spec_accountIdFor : AcquiredCredential -> option string;
  spec_disclosureFor : AcquiredCredential -> option string;
  spec_accountLabelFor : AcquiredCredential -> option string;
  spec_outcomeSentence : AcquisitionOutcome -> option string }.

(** What the world answers an attempt at each of its steps: the clock before
    and after the request, the lease at each of the two, the network. *)
Record AttemptWorld := {
  aw_at : nat -> option num;
  aw_owned : nat -> option bool;
  aw_reply : nat -> Request -> option AcquisitionReply;
  aw_answeredAt : nat -> option num;
  aw_ownedAfter : nat -> option bool }.

Definition credentialExpired (credential : AcquiredCredential) (now : num) : bool :=
  match cd_expiresAtMilliseconds credential with
  | Some expires => expires <=# now
  | None => false
  end ||
  match split_on "." (cd_secret credential) "" !! 1%nat with
  | None | Some EmptyString => false
  | Some part =>
      match token_claims part with
      | Some claims =>
          match get (default [] (record_of claims)) "exp" with
          | JNum exp => is_finite exp && (exp ⊗ int 1000 <=# now)
          | _ => false
          end
      | None => false
      end
  end.

(** How the loop over the steps ends. *)
Inductive LoopResult :=
  | loop_throws
  | loop_returns (result : Attempt)
  | loop_ends (previous : list jsval) (retryAfter : option num).

Definition reply_outcome (reply : AcquisitionReply) : AcquisitionOutcome :=
  default (outcomeForStatus (ry_status reply)) (ry_outcome reply).

(** A step the read can do without. *)
Definition is_optional (spec : AcquisitionSpec) (index : nat) (previous : list jsval) : bool :=
  negb (length previous =? 0)%nat &&
  match spec_optionalFrom spec with Some from => (from <=? index)%nat | None => false end.

(** What the reply to a required request makes of the read: the body to go on
    with, or how the read ends. *)
Definition judge_reply (reply : AcquisitionReply) : Attempt + jsval :=
  if ry_missingCredential reply then inl missing_attempt
  else if ry_status reply =? 0
  then inl (failed_attempt oc_too_large (ry_retryAfterSeconds reply) ph_request)
  else
    match reply_outcome reply with
    | oc_ok =>
        match ry_body reply with
        | Some body => inr body
        | None => inl (failed_attempt oc_drift (ry_retryAfterSeconds reply) ph_parse)
        end
    | outcome => inl (failed_attempt outcome (ry_retryAfterSeconds reply) ph_request)
    end.

(** [options.lease.stillOwned], when there is a lease. *)
Definition owned (leased : bool) (answer : option bool) : option bool :=
  if leased then answer else Some true.

Fixpoint attempt_steps (spec : AcquisitionSpec) (credential : AcquiredCredential) (leased : bool)
    (world : AttemptWorld) (steps : list AcquisitionStep) (index : nat) (previous : list jsval)
    (retryAfter : option num) : LoopResult :=
  match steps with
  | [] => loop_ends previous retryAfter
  | step :: steps =>
      let optional := is_optional spec index previous in
      let unless_optional result :=
        if optional then loop_ends previous retryAfter else loop_returns result in
      match aw_at world index with
      | None => loop_throws
      | Some at_ =>
          if credentialExpired credential at_ then loop_returns expired_attempt
          else
            match owned leased (aw_owned world index) with
            | None => loop_throws
            | Some false => loop_returns (failed_attempt oc_transport None ph_request)
            | Some true =>
                match step credential previous with
                | None => loop_throws
                | Some None => unless_optional (failed_attempt oc_drift None ph_request)
                | Some (Some (step_stop outcome)) =>
                    unless_optional (failed_attempt outcome retryAfter ph_request)
                | Some (Some (step_request request)) =>
                    match aw_reply world index request with
                    | None => unless_optional (failed_attempt oc_transport None ph_request)
                    | Some reply =>
                        match aw_answeredAt world index, owned leased (aw_ownedAfter world index) with
                        | None, _ | _, None => loop_throws
                        | Some _, Some false =>
                            loop_returns (failed_attempt oc_transport None ph_request)
                        | Some _, Some true =>
                            match judge_reply reply with
                            | inl result => unless_optional result
                            | inr body =>
                                attempt_steps spec credential leased world steps (S index)
                                  (previous ++ [body]) (ry_retryAfterSeconds reply)
                            end
                        end
                    end
                end
            end
      end
  end.

Definition attempt (spec : AcquisitionSpec) (credential : AcquiredCredential) (leased : bool)
    (world : AttemptWorld) (now : string) : option Attempt :=
  match attempt_steps spec credential leased world (spec_steps spec) 0 [] None with
  | loop_throws => None
  | loop_returns result => Some result
  | loop_ends previous retryAfter =>
      let payload := default JUndef (last previous) in
      let drifted := failed_attempt oc_drift retryAfter ph_parse in
      match spec_parse spec payload now previous with
      | None => Some drifted
      | Some meters =>
          let answered complete :=
            match meters with
            | None | Some [] => drifted
            | Some meters =>
                {| at_outcome := oc_ok; at_meters := meters; at_retryAfterSeconds := retryAfter;
                   at_complete := complete; at_phase := None; at_expiredCredentials := false;
                   at_missingCredential := false |}
            end in
          match spec_complete spec with
          | None => Some (answered None)
          | Some complete =>
              match complete payload now with
              | None => Some drifted
              | Some c => Some (answered (Some c))
              end
          end
      end
  end.

(** ** What a successful read has done *)

(** A step asked and was answered while the login and the lease held. *)
Definition answered (spec : AcquisitionSpec) (credential : AcquiredCredential) (leased : bool)
    (world : AttemptWorld) (bodies : list jsval) (i : nat) (body : jsval) : Prop :=
  exists step request reply at_,
    spec_steps spec !! i = Some step /\
    aw_at world i = Some at_ /\ credentialExpired credential at_ = false /\
    owned leased (aw_owned world i) = Some true /\
    step credential (take i bodies) = Some (Some (step_request request)) /\
    aw_reply world i request = Some reply /\
    owned leased (aw_ownedAfter world i) = Some true /\
    reply_outcome reply = oc_ok /\ ry_status reply <> 0 /\ ry_missingCredential reply = false /\
    ry_body reply = Some body.

Lemma judge_reply_body reply body :
  judge_reply reply = inr body ->
  reply_outcome reply = oc_ok /\ ry_status reply <> 0 /\ ry_missingCredential reply = false /\
  ry_body reply = Some body.
Proof.
  unfold judge_reply. destruct (ry_missingCredential reply); [done|].
  destruct (Z.eqb_spec (ry_status reply) 0); [done|].
  destruct (reply_outcome reply); try done. destruct (ry_body reply); [|done]. by intros [= <-].
Qed.

(** No failed attempt is a success. *)
Definition not_ok (result : Attempt) : Prop := at_outcome result <> oc_ok.

Lemma judge_reply_failed reply result : judge_reply reply = inl result -> not_ok result.
Proof.
  unfold judge_reply, not_ok. destruct (ry_missingCredential reply); [by intros [= <-]|].
  destruct (ry_status reply =? 0); [by intros [= <-]|].
  destruct (reply_outcome reply); try (by intros [= <-]). destruct (ry_body reply); by intros [= <-].
Qed.

(** A step never stops a read by calling it a success. *)
Definition honest_steps (spec : AcquisitionSpec) : Prop :=
  Forall (fun step : AcquisitionStep => forall credential previous,
    step credential previous <> Some (Some (step_stop oc_ok))) (spec_steps spec).

Lemma take_last {A} (l : list A) x n : length l = n -> take n (l ++ [x]) = l.
Proof. intros <-. by rewrite take_app_length. Qed.

Lemma answered_app spec credential leased world bodies more i body :
  (i < length bodies)%nat -> answered spec credential leased world bodies i body ->
  answered spec credential leased world (bodies ++ more) i body.
Proof.
  intros Hi (step & request & reply & at_ & H'). exists step, request, reply, at_.
  rewrite take_app_le by lia. done.
Qed.

Lemma attempt_steps_spec spec credential leased world steps previous retryAfter :
  honest_steps spec ->
  (exists done_, spec_steps spec = done_ ++ steps /\ length done_ = length previous) ->
  (forall i body, previous !! i = Some body -> answered spec credential leased world previous i body) ->
  match attempt_steps spec credential leased world steps (length previous) previous retryAfter with
  | loop_throws => True
  | loop_returns result => not_ok result
  | loop_ends bodies _ =>
      (forall i body, bodies !! i = Some body -> answered spec credential leased world bodies i body) /\
      (length bodies = length (spec_steps spec) \/ is_optional spec (length bodies) bodies = true)
  end.
Proof.
  intros Hh. revert previous retryAfter.
  induction steps as [|step steps IH]; intros previous retryAfter Hsteps Hprev.
  - destruct Hsteps as (done_ & E & Hl). cbn [attempt_steps]. split; [done|left].
    by rewrite E, length_app, Hl, Nat.add_0_r.
  - destruct Hsteps as (done_ & E & Hl). cbn [attempt_steps]. set (n := length previous) in *.
    assert (Hstep : spec_steps spec !! n = Some step).
    { by rewrite E, lookup_app_r, Hl, Nat.sub_diag by lia. }
    assert (Hunless : forall result, not_ok result ->
      match (if is_optional spec n previous then loop_ends previous retryAfter
             else loop_returns result) with
      | loop_throws => True
      | loop_returns result => not_ok result
      | loop_ends bodies _ =>
          (forall i body, bodies !! i = Some body -> answered spec credential leased world bodies i body) /\
          (length bodies = length (spec_steps spec) \/ is_optional spec (length bodies) bodies = true)
      end).
    { intros result Hr. destruct (is_optional spec n previous) eqn:Eo; [|done].
      split; [done|by right]. }
    destruct (aw_at world n) as [at_|] eqn:Eat; [|done].
    destruct (credentialExpired credential at_) eqn:Eex; [done|].
    destruct (owned leased (aw_owned world n)) as [[|]|] eqn:Eow; [|done|done].
    destruct (step credential previous) as [[[request|outcome]|]|] eqn:Es; [| |by apply Hunless|done].
    2:{ apply Hunless. unfold not_ok. cbn. intros ->.
        unfold honest_steps in Hh. rewrite Forall_forall in Hh.
        apply list_elem_of_lookup_2 in Hstep. by apply (Hh _ Hstep) in Es. }
    destruct (aw_reply world n request) as [reply|] eqn:Er; [|by apply Hunless].
    destruct (aw_answeredAt world n); [|done].
    destruct (owned leased (aw_ownedAfter world n)) as [[|]|] eqn:Eoa; [|done|done].
    destruct (judge_reply reply) as [result|body] eqn:Ej.
    { apply Hunless. by eapply judge_reply_failed. }
    specialize (IH (previous ++ [body]) (ry_retryAfterSeconds reply)).
    replace (length (previous ++ [body])) with (S n) in IH by (rewrite length_app; simpl; lia).
    apply IH.
    + exists (done_ ++ [step]). rewrite <- app_assoc. split; [done|]. rewrite !length_app. simpl. lia.
    + intros i b Hb. apply lookup_app_Some in Hb as [Hb|[Hge Hb]].
      * apply answered_app; [by eapply lookup_lt_Some|by apply Hprev].
      * fold n in Hge, Hb. apply list_lookup_singleton_Some in Hb as [Ei <-].
        assert (i = n) as -> by lia. exists step, request, reply, at_.
        rewrite (take_last previous body n) by done.
        destruct (judge_reply_body _ _ Ej) as (? & ? & ? & ?). done.
Qed.

(** C3: A successful read was earned. When an attempt succeeds, every request
    the provider requires was made, in order, with a login that had not
    expired and a lease still held before and after it; each was answered with
    success in a body that parses; and the meters are what the parser made of
    those bodies, at least one. Only steps the spec calls optional, after a
    first answer, may be missing. *)
Theorem a_successful_attempt_was_earned spec credential leased world now result :
  honest_steps spec ->
  attempt spec credential leased world now = Some result -> at_outcome result = oc_ok ->
  exists bodies,
    (forall i body, bodies !! i = Some body -> answered spec credential leased world bodies i body) /\
    (length bodies = length (spec_steps spec) \/ is_optional spec (length bodies) bodies = true) /\
    spec_parse spec (default JUndef (last bodies)) now bodies = Some (Some (at_meters result)) /\
    at_meters result <> [].
Proof.
  intros Hh. pose proof (attempt_steps_spec spec credential leased world (spec_steps spec) [] None Hh)
    as Hs. cbn [length] in Hs. specialize (Hs (ex_intro _ [] (conj eq_refl eq_refl))).
  specialize (Hs (fun i body Hb => ltac:(by rewrite lookup_nil in Hb))).
  unfold attempt. destruct (attempt_steps _ _ _ _ _ _ _ _) as [|r|bodies retry]; [done| |].
  - intros [= ->] Ho. done.
  - destruct Hs as [Ha Hl]. destruct (spec_parse spec _ now bodies) as [meters|] eqn:Ep;
      [|by intros [= <-]].
    intros Hr Ho. exists bodies. split; [done|]. split; [done|]. rewrite Ep.
    assert (Hm : exists m ms, meters = Some (m :: ms) /\ at_meters result = m :: ms).
    { destruct (spec_complete spec) as [c|]; [destruct (c _ now); [|by injection Hr as <-]|];
        (destruct meters as [[|m ms]|]; injection Hr as <-; [done| |done]); by exists m, ms. }
    by destruct Hm as (m & ms & -> & ->).
Qed.
End Attempt.

Arguments AcquisitionSpec : clear implicits.
Arguments AttemptWorld : clear implicits.
Arguments AcquisitionStepResult : clear implicits.
Arguments AcquisitionStep : clear implicits.

(** ** Witness *)

Definition sample_credential : AcquiredCredential :=
  {| cd_secret := "abc"; cd_accountId := None; cd_identityMaterial := None;
     cd_expiresAtMilliseconds := None; cd_origin := vendor_file;
     cd_codexHome := None; cd_executable := None |}.

(** A provider of two requests, the second of them optional. *)
Definition sample_spec (meters : list jsval) : AcquisitionSpec nat :=
  {| spec_provider := CODEX;
     spec_steps := [fun _ _ => Some (Some (step_request 0%nat));
                    fun _ _ => Some (Some (step_request 1%nat))];
     spec_optionalFrom := Some 1%nat;
     spec_parse _ _ _ := Some (Some meters);
     spec_complete := None; spec_disclosure := None; spec_enabled := true; spec_disabledReason := None;
     spec_accountIdFor _ := None; spec_disclosureFor _ := None; spec_accountLabelFor _ := None;
     spec_outcomeSentence _ := None |}.

(** The first request is answered with [status], the second one is not. *)
Definition sample_replies (status : Z) (at_ : num) : AttemptWorld nat :=
  {| aw_at _ := Some at_; aw_owned _ := Some true;
     aw_reply _ request :=
       match request with
       | O => Some {| ry_status := status; ry_body := Some (JObj []); ry_retryAfterSeconds := None;
                      ry_outcome := None; ry_missingCredential := false |}
       | _ => None
       end;
     aw_answeredAt _ := Some at_; aw_ownedAfter _ := Some true |}.

Lemma a_successful_attempt_was_earned_witness :
  exists bodies, length bodies = 1%nat /\
    answered (H0 := plain_crypto) (sample_spec [JStr "m"]) sample_credential true
      (sample_replies 200 (int 1767225600000)) bodies 0 (JObj []).
Proof.
  pose (result := {| at_outcome := oc_ok; at_meters := [JStr "m"]; at_retryAfterSeconds := None;
    at_complete := None; at_phase := None; at_expiredCredentials := false;
    at_missingCredential := false |}).
  destruct (a_successful_attempt_was_earned (H0 := plain_crypto) (sample_spec [JStr "m"])
    sample_credential true (sample_replies 200 (int 1767225600000)) "2026-01-01T00:00:00.000Z" result)
    as (bodies & Ha & Hl & _).
  - by repeat constructor.
  - by vm_compute.
  - reflexivity.
  - assert (Hb : bodies !! 0%nat = Some (JObj []) /\ bodies !! 1%nat = None).
    { destruct bodies as [|b bodies]; [by destruct Hl|]. split.
      - destruct (Ha 0%nat b eq_refl) as (step & request & reply & at_ & Es & _ & _ & _ & Hs & Hr & _ & _ & _ & _ & Hb).
        injection Es as <-. injection Hs as <-. injection Hr as <-. by injection Hb as <-.
      - destruct bodies as [|b' bodies]; [done|].
        destruct (Ha 1%nat b' eq_refl) as (step & request & reply & at_ & Es & _ & _ & _ & Hs & Hr & _).
        injection Es as <-. injection Hs as <-. done. }
    exists bodies. destruct Hb as [H0 H1]. split; [|by apply Ha].
    apply lookup_ge_None in H1. apply lookup_lt_Some in H0. lia.
Defined.
