(* ===== verification/Transport.v ===== *)
(** * The closed network layer

    [transport.ts]: the table of addresses, the requests built from it, the
    validation every request passes before it may leave, and what a response
    is turned into. The network itself is [fetch], a parameter: a function of
    the request that is sent. *)
From S2P Require Import Prelude JsNum JsDate JsValue Text Json JsonText ReadBack.
From S2P Require Import Identity Cadence Attempt.
Local Open Scope string_scope.
Local Open Scope Z_scope.
Local Open Scope list_scope.
Local Open Scope js_scope.

(** ** Addresses *)

Definition ACQUISITION_CLIENT_VERSION : string := "2.1.13".
Definition OPENLIMITER_USER_AGENT : string :=
  "OpenLimiter/" +:+ ACQUISITION_CLIENT_VERSION +:+ " (+https://openlimiter.com)".

Definition MAX_ACQUISITION_RESPONSE_BYTES : Z := 1048576.

Definition CLAUDE_OAUTH_USAGE_URL : string := "https://api.anthropic.com/api/oauth/usage".
Definition GEMINI_CLI_LOAD_URL : string :=
  "https://cloudcode-pa.googleapis.com/v1internal:loadCodeAssist".
Definition GEMINI_CLI_QUOTA_URL : string :=
  "https://cloudcode-pa.googleapis.com/v1internal:retrieveUserQuota".
Definition GROK_USAGE_URL : string := "https://cli-chat-proxy.grok.com/v1/billing?format=credits".
Definition KIMI_USAGE_URL : string := "https://api.kimi.com/coding/v1/usages".
Definition CURSOR_USAGE_URL : string := "https://cursor.com/api/usage-summary".
Definition OPENROUTER_KEY_URL : string := "https://openrouter.ai/api/v1/key".
Definition OPENROUTER_CREDITS_URL : string := "https://openrouter.ai/api/v1/credits".

Record Endpoint := { ep_url : string; ep_method : string }.

Definition ACQUISITION_ENDPOINTS : list (string * Endpoint) := [
  ("claude_usage", {| ep_url := CLAUDE_OAUTH_USAGE_URL; ep_method := "GET" |});
  ("code_assist_load", {| ep_url := GEMINI_CLI_LOAD_URL; ep_method := "POST" |});
  ("code_assist_quota", {| ep_url := GEMINI_CLI_QUOTA_URL; ep_method := "POST" |});
  ("grok_billing", {| ep_url := GROK_USAGE_URL; ep_method := "GET" |});
  ("kimi_usage", {| ep_url := KIMI_USAGE_URL; ep_method := "GET" |});
  ("cursor_usage", {| ep_url := CURSOR_USAGE_URL; ep_method := "GET" |});
  ("openrouter_key", {| ep_url := OPENROUTER_KEY_URL; ep_method := "GET" |});
  ("openrouter_credits", {| ep_url := OPENROUTER_CREDITS_URL; ep_method := "GET" |})].

(** The address of a table entry. *)
Definition endpoint_url (id : string) : string :=
  match assoc_get id ACQUISITION_ENDPOINTS with Some e => ep_url e | None => "" end.

(** ** Headers and bodies *)

Definition CLAUDE_OAUTH_BETA_HEADER : string := "anthropic-beta".
Definition CLAUDE_OAUTH_BETA_VALUE : string := "oauth-2025-04-20".
Definition GROK_ACCOUNT_HEADER : string := "x-userid".

Definition CODE_ASSIST_LOAD_BODY : string :=
  default "" (stringify (JObj [("metadata", JObj [("ideType", JStr "IDE_UNSPECIFIED");
    ("platform", JStr "PLATFORM_UNSPECIFIED"); ("pluginType", JStr "GEMINI")])])).

Record HttpAcquisitionRequest := {
  rq_endpoint : string;
  rq_url : string;
  rq_method : string;
  rq_headers : list (string * string);
  rq_body : option string }.

Record CodexAppServerAcquisitionRequest := {
  cq_executable : string;
  cq_codexHome : string;
  cq_expectedAccountId : string }.

Inductive AcquisitionRequest :=
  | http_request (request : HttpAcquisitionRequest)
  | codex_app_server (request : CodexAppServerAcquisitionRequest).

(** [/^[\x20-\x7E]+$/] *)
Definition printable (s : string) : bool :=
  negb (str_eqb s "") && str_forall (in_range 32 126) s.

Definition usableHeaderSecret (value : string) : bool :=
  (0 <? str_length value) && (str_length value <=? 8192) && printable value.

Definition is_letter_or_digit (c : ascii) : bool := is_upper c || is_lower c || is_digit c.

Definition is_identifier_char (c : ascii) : bool :=
  is_letter_or_digit c || Ascii.eqb c "_" || Ascii.eqb c "." || Ascii.eqb c ":" || Ascii.eqb c "-".

(** [/^[A-Za-z0-9][A-Za-z0-9_.:-]{0,127}$/] *)
Definition CODE_ASSIST_PROJECT_PATTERN (s : string) : bool :=
  match s with
  | String c s' => is_letter_or_digit c && str_forall is_identifier_char s' && (str_length s' <=? 127)
  | EmptyString => false
  end.

Definition usableHeaderAccountId (value : string) : bool := CODE_ASSIST_PROJECT_PATTERN value.

Definition is_component_char (c : ascii) : bool :=
  is_letter_or_digit c || Ascii.eqb c "." || Ascii.eqb c "_" || Ascii.eqb c "-".

(** [/^[A-Za-z0-9._-]{1,16384}$/] *)
Definition cookie_component (s : string) : bool :=
  (1 <=? str_length s) && (str_length s <=? 16384) && str_forall is_component_char s.

Definition bearer (secret : string) : list (string * string) :=
  [("authorization", "Bearer " +:+ secret); ("user-agent", OPENLIMITER_USER_AGENT);
   ("accept", "application/json")].

(** ** The requests *)

(** A request to a table entry, with its constant address. *)
Definition request_to (id method : string) (headers : list (string * string))
    (body : option string) : HttpAcquisitionRequest :=
  {| rq_endpoint := id; rq_url := endpoint_url id; rq_method := method; rq_headers := headers;
     rq_body := body |}.

Definition claudeUsageRequest (secret : string) : option HttpAcquisitionRequest :=
  check usableHeaderSecret secret;;
  Some (request_to "claude_usage" "GET"
    (bearer secret ++ [(CLAUDE_OAUTH_BETA_HEADER, CLAUDE_OAUTH_BETA_VALUE)]) None).

Definition codeAssistLoadRequest (secret : string) : option HttpAcquisitionRequest :=
  check usableHeaderSecret secret;;
  Some (request_to "code_assist_load" "POST"
    (bearer secret ++ [("content-type", "application/json")]) (Some CODE_ASSIST_LOAD_BODY)).

Definition quota_body (project : string) : jsval :=
  JObj [("project", JStr project); ("userAgent", JStr OPENLIMITER_USER_AGENT)].

Definition codeAssistQuotaRequest (secret project : string) : option HttpAcquisitionRequest :=
  check usableHeaderSecret secret;;
  check CODE_ASSIST_PROJECT_PATTERN project;;
  Some (request_to "code_assist_quota" "POST"
    (bearer secret ++ [("content-type", "application/json")]) (stringify (quota_body project))).

Definition grokBillingRequest (secret : string) (accountId : option string) :
    option HttpAcquisitionRequest :=
  check usableHeaderSecret secret;;
  let account := a ← accountId; if usableHeaderAccountId a then Some a else None in
  Some (request_to "grok_billing" "GET"
    (bearer secret ++ match account with Some a => [(GROK_ACCOUNT_HEADER, a)] | None => [] end) None).

Definition kimiUsageRequest (secret : string) : option HttpAcquisitionRequest :=
  check usableHeaderSecret secret;; Some (request_to "kimi_usage" "GET" (bearer secret) None).

Definition cursorUsageRequest (secret authId : string) : option HttpAcquisitionRequest :=
  check cookie_component secret && cookie_component authId;;
  Some (request_to "cursor_usage" "GET"
    [("user-agent", OPENLIMITER_USER_AGENT); ("accept", "application/json");
     ("cookie", "WorkosCursorSessionToken=" +:+ (authId +:+ ("::" +:+ secret)))] None).

Definition openrouterKeyRequest (secret : string) : option HttpAcquisitionRequest :=
  check usableHeaderSecret secret;; Some (request_to "openrouter_key" "GET" (bearer secret) None).

Definition openrouterCreditsRequest (secret : string) : option HttpAcquisitionRequest :=
  check usableHeaderSecret secret;; Some (request_to "openrouter_credits" "GET" (bearer secret) None).

(** ** Validation *)

Definition ALLOWED_REQUEST_HEADERS : list string :=
  ["authorization"; "cookie"; "accept"; "user-agent"; "content-type"; CLAUDE_OAUTH_BETA_HEADER;
   GROK_ACCOUNT_HEADER].

(** [/^WorkosCursorSessionToken=…::…$/] *)
Definition cookie_pattern (value : string) : bool :=
  match after_prefix "WorkosCursorSessionToken=" value with
  | None => false
  | Some rest =>
      let '(authId, rest) := take_run is_component_char rest in
      match after_prefix "::" rest with
      | Some secret => cookie_component authId && cookie_component secret
      | None => false
      end
  end.

Definition validHeaderValue (name value method : string) : bool :=
  if negb (printable value) then false
  else if str_eqb name "user-agent" then str_eqb value OPENLIMITER_USER_AGENT
  else if str_eqb name "accept" then str_eqb value "application/json"
  else if str_eqb name "cookie" then cookie_pattern value
  else if str_eqb name "content-type" then str_eqb value "application/json" && str_eqb method "POST"
  else if str_eqb name "authorization" then
    match after_prefix "Bearer " value with Some secret => usableHeaderSecret secret | None => false end
  else if str_eqb name CLAUDE_OAUTH_BETA_HEADER then str_eqb value CLAUDE_OAUTH_BETA_VALUE
  else if str_eqb name GROK_ACCOUNT_HEADER then usableHeaderAccountId value
  else false.

Definition validRequestBody (request : HttpAcquisitionRequest) : bool :=
  if str_eqb (rq_endpoint request) "code_assist_load" then
    bool_decide (rq_body request = Some CODE_ASSIST_LOAD_BODY)
  else if str_eqb (rq_endpoint request) "code_assist_quota" then
    match (let? body := rq_body request in
           let? parsed := json_parse body in
           record_of parsed) with
    | None => false
    | Some fields =>
        bool_decide (sort_by str_compare fields.*1 = ["project"; "userAgent"]) &&
        match get fields "project" with
        | JStr project => CODE_ASSIST_PROJECT_PATTERN project
        | _ => false
        end &&
        is_string (get fields "userAgent") OPENLIMITER_USER_AGENT
    end
  else bool_decide (rq_body request = None) && str_eqb (rq_method request) "GET".

Definition validAcquisitionRequest (request : HttpAcquisitionRequest) : bool :=
  match assoc_get (rq_endpoint request) ACQUISITION_ENDPOINTS with
  | None => false
  | Some endpoint =>
      if negb (str_eqb (rq_url request) (ep_url endpoint)) ||
         negb (str_eqb (rq_method request) (ep_method endpoint)) then false
      else if negb (bool_decide (assoc_get "user-agent" (rq_headers request) =
                                 Some OPENLIMITER_USER_AGENT)) then false
      else if (if str_eqb (rq_endpoint request) "cursor_usage"
               then negb (str_eqb (join "," (sort_by str_compare (rq_headers request).*1))
                                  "accept,cookie,user-agent")
               else bool_decide (is_Some (assoc_get "cookie" (rq_headers request)))) then false
      else
        forallb (fun header : string * string =>
          bool_decide (header.1 ∈ ALLOWED_REQUEST_HEADERS) &&
          validHeaderValue header.1 header.2 (rq_method request)) (rq_headers request) &&
        validRequestBody request
  end.

(** ** Responses *)

(** [Math.ceil] *)
Definition nceil (x : num) : num := nneg (nfloor (nneg x)).

Section Transport.
Context `{DateHost}.

Definition retryAfterSeconds (value : option string) (now : Z) : option num :=
  let? value := value in
  let trimmed := trim value in
  if all_decimal trimmed then
    let? seconds := to_safe_int (decimal_number trimmed) in Some (int seconds)
  else
    check day_name trimmed;;
    let? deadline := date_parse trimmed in
    Some (nmax (int 0) (nceil (int (deadline - now) ⊘ int 1000))).

(** What the network answers a request that was sent: a status, the header, the
    chunks of its body in bytes as they arrive, and whether reading throws after
    them instead of coming to an end. *)
Record FetchResponse := {
  fr_status : Z;
  fr_retryAfter : option string;
  fr_chunks : list (list Z);
  fr_broken : bool }.

(** [readBoundedResponse]: the bytes of the whole body; [Some None], its null,
    once a chunk goes beyond the limit; [None] when reading throws before. *)
Fixpoint readBoundedResponse (chunks : list (list Z)) (broken : bool) (limit size : Z) :
    option (option (list Z)) :=
  match chunks with
  | [] => if broken then None else Some (Some [])
  | chunk :: chunks =>
      if limit - size <? Z.of_nat (length chunk) then Some None
      else
        let? more := readBoundedResponse chunks broken limit (size + Z.of_nat (length chunk)) in
        Some (app chunk <$> more)
  end.

(** What the runner does with a body is [JSON.parse]. *)
Definition reply_of (status : Z) (body : string) (retryAfter : option num) : AcquisitionReply :=
  {| ry_status := status; ry_body := json_parse body; ry_retryAfterSeconds := retryAfter;
     ry_outcome := None; ry_missingCredential := false |}.

(** [createFetchTransport] on an HTTP request: the request that was sent, if
    one was, and the reply; [None]: it throws. [fetch] answers [None] when it
    throws, a redirect and the deadline included; [decode] is the platform's
    [TextDecoder]. The other kind of request, a conversation with Codex's own
    server, is [CodexServer]. *)
Definition fetchTransport (fetch : HttpAcquisitionRequest -> option FetchResponse)
    (decode : list Z -> string) (now : Z)
    (request : HttpAcquisitionRequest) : option HttpAcquisitionRequest * option AcquisitionReply :=
  if negb (validAcquisitionRequest request) then (None, None)
  else
    (Some request,
     let? response := fetch request in
     let retryAfter := retryAfterSeconds (fr_retryAfter response) now in
     if (fr_status response <? 200) || (300 <=? fr_status response)
     then Some (reply_of (fr_status response) "" retryAfter)
     else
       let? buffer :=
         readBoundedResponse (fr_chunks response) (fr_broken response) MAX_ACQUISITION_RESPONSE_BYTES 0 in
       match buffer with
       | None => Some (reply_of 0 "" retryAfter)
       | Some bytes => Some (reply_of (fr_status response) (decode bytes) retryAfter)
       end).

(** ** Every built request may leave *)

(** The requests the builders make. *)
Inductive built : HttpAcquisitionRequest -> Prop :=
  | built_claude secret r : claudeUsageRequest secret = Some r -> built r
  | built_load secret r : codeAssistLoadRequest secret = Some r -> built r
  | built_quota secret project r : codeAssistQuotaRequest secret project = Some r -> built r
  | built_grok secret account r : grokBillingRequest secret account = Some r -> built r
  | built_kimi secret r : kimiUsageRequest secret = Some r -> built r
  | built_cursor secret authId r : cursorUsageRequest secret authId = Some r -> built r
  | built_key secret r : openrouterKeyRequest secret = Some r -> built r
  | built_credits secret r : openrouterCreditsRequest secret = Some r -> built r.

Lemma printable_app x y :
  str_forall (in_range 32 126) x = true -> printable y = true -> printable (x +:+ y) = true.
Proof.
  unfold printable, str_eqb. intros Hx [Hne Hy]%andb_true_iff. rewrite str_forall_app, Hx, Hy.
  rewrite andb_true_r. apply negb_true_iff, bool_decide_eq_false in Hne.
  apply negb_true_iff, bool_decide_eq_false. intros E. apply Hne. by destruct x.
Qed.

Lemma authorization_valid secret method :
  usableHeaderSecret secret = true -> validHeaderValue "authorization" ("Bearer " +:+ secret) method = true.
Proof.
  intros Hs. pose proof Hs as Hs'. unfold usableHeaderSecret in Hs'.
  apply andb_true_iff in Hs' as [_ Hp].
  unfold validHeaderValue. rewrite (printable_app "Bearer " secret) by done.
  rewrite (proj2 (after_prefix_Some "Bearer " _ secret) eq_refl). exact Hs.
Qed.

Lemma identifier_printable s : CODE_ASSIST_PROJECT_PATTERN s = true -> printable s = true.
Proof.
  unfold CODE_ASSIST_PROJECT_PATTERN, printable. destruct s as [|c s]; [done|].
  intros [[Hc Hs]%andb_true_iff _]%andb_true_iff. cbn [str_forall].
  assert (Hchar : forall d, is_identifier_char d = true -> in_range 32 126 d = true).
  { intros d. by destruct d as [[] [] [] [] [] [] [] []]. }
  rewrite Hchar by (unfold is_identifier_char; by rewrite Hc).
  by rewrite (str_forall_impl _ _ _ Hchar Hs).
Qed.

Lemma component_printable s : cookie_component s = true -> printable s = true.
Proof.
  unfold cookie_component, printable. intros [[Hl _]%andb_true_iff Hs]%andb_true_iff.
  assert (Hchar : forall d, is_component_char d = true -> in_range 32 126 d = true).
  { intros d. by destruct d as [[] [] [] [] [] [] [] []]. }
  rewrite (str_forall_impl _ _ _ Hchar Hs). by destruct s.
Qed.

Lemma cookie_pattern_built authId secret :
  cookie_component authId = true -> cookie_component secret = true ->
  cookie_pattern ("WorkosCursorSessionToken=" +:+ (authId +:+ ("::" +:+ secret))) = true.
Proof.
  intros Ha Hs. unfold cookie_pattern. rewrite (proj2 (after_prefix_Some _ _ _) eq_refl).
  pose proof Ha as Ha'. unfold cookie_component in Ha'. apply andb_true_iff in Ha' as [_ Hchars].
  change ("::" +:+ secret) with (String ":" (":" +:+ secret)).
  rewrite take_run_app by done.
  change (after_prefix "::" (String ":" (":" +:+ secret))) with (Some secret). by rewrite Ha, Hs.
Qed.

Lemma quota_body_reads project :
  exists t, stringify (quota_body project) = Some t /\ json_parse t = Some (quota_body project).
Proof.
  exists (text_of (quota_body project)). split; [done|].
  rewrite json_parse_text; [done|by cbn|]. cbn [unique_keys quota_body foldr snd fmap list_fmap fst].
  split_and!; try exact I. by apply (bool_decide_unpack _).
Qed.

(** Every request the program builds passes the boundary check. Whatever
    login and account it is built from, a builder either refuses or makes a
    request the transport lets out: the two never disagree. *)
Lemma every_built_request_may_leave r : built r -> validAcquisitionRequest r = true.
Proof.
  intros Hb. destruct Hb as [secret r E|secret r E|secret project r E|secret account r E|secret r E
    |secret authId r E|secret r E|secret r E]; revert E.
  all: unfold claudeUsageRequest, codeAssistLoadRequest, codeAssistQuotaRequest, grokBillingRequest,
    kimiUsageRequest, cursorUsageRequest, openrouterKeyRequest, openrouterCreditsRequest.
  all: match goal with |- context [usableHeaderSecret] => destruct (usableHeaderSecret secret) eqn:Hs; [|done] | _ => idtac end.
  all: try (intros [= <-]; unfold validAcquisitionRequest, bearer;
    cbn [request_to rq_endpoint rq_headers rq_method rq_url rq_body app forallb fst snd];
    rewrite (authorization_valid secret) by done; done).
  - destruct (CODE_ASSIST_PROJECT_PATTERN project) eqn:Hp; [|done]. intros E. apply (inj Some) in E. subst r.
    destruct (quota_body_reads project) as (t & Et & Ep). rewrite Et.
    assert (Hbody : forall headers, validRequestBody (request_to "code_assist_quota" "POST" headers (Some t)) = true).
    { intros headers. unfold validRequestBody. cbn [request_to rq_endpoint rq_body].
      change (str_eqb "code_assist_quota" "code_assist_load") with false.
      change (str_eqb "code_assist_quota" "code_assist_quota") with true. cbv iota. rewrite Ep.
      change (record_of (quota_body project)) with
        (Some [("project", JStr project); ("userAgent", JStr OPENLIMITER_USER_AGENT)]).
      cbv iota beta. change (get _ "project") with (JStr project). cbv iota. by rewrite Hp. }
    unfold validAcquisitionRequest. rewrite Hbody. unfold bearer.
    cbn [request_to rq_endpoint rq_headers rq_method rq_url rq_body app forallb fst snd].
    by rewrite (authorization_valid secret).
  - destruct account as [a|]; cbn [mbind option_bind]; [destruct (usableHeaderAccountId a) eqn:Ha|].
    all: intros [= <-]; unfold validAcquisitionRequest, bearer;
      cbn [request_to rq_endpoint rq_headers rq_method rq_url rq_body app forallb fst snd];
      rewrite (authorization_valid secret) by done; try done.
    replace (validHeaderValue GROK_ACCOUNT_HEADER a "GET") with true; [done|].
    unfold validHeaderValue. rewrite (identifier_printable a Ha). by rewrite Ha.
  - destruct (cookie_component secret) eqn:Hs, (cookie_component authId) eqn:Ha; try done.
    intros [= <-]. unfold validAcquisitionRequest.
    cbn [request_to rq_endpoint rq_headers rq_method rq_url rq_body app forallb fst snd].
    set (cookie := "WorkosCursorSessionToken=" +:+ _).
    replace (validHeaderValue "cookie" cookie "GET") with true; [done|].
    unfold validHeaderValue, cookie. rewrite printable_app; [|done|].
    2:{ apply printable_app; [|apply printable_app; [done|by apply component_printable]].
        apply component_printable in Ha. unfold printable in Ha. by apply andb_true_iff in Ha as [_ ?]. }
    by rewrite cookie_pattern_built.
Qed.

(** ** Only such requests leave *)

(** The one body of an endpoint: the constant, one project identifier with
    this program's name, or none. *)
Definition body_of_endpoint (endpoint : string) (body : option string) : Prop :=
  if str_eqb endpoint "code_assist_load" then body = Some CODE_ASSIST_LOAD_BODY
  else if str_eqb endpoint "code_assist_quota" then
    exists text fields project, body = Some text /\ json_parse text = Some (JObj fields) /\
      fields.*1 ≡ₚ ["project"; "userAgent"] /\ get fields "project" = JStr project /\
      CODE_ASSIST_PROJECT_PATTERN project = true /\
      get fields "userAgent" = JStr OPENLIMITER_USER_AGENT
  else body = None.

(** The one value, or shape of value, of every header. *)
Inductive value_of_header (endpoint method : string) : string -> string -> Prop :=
  | vh_agent : value_of_header endpoint method "user-agent" OPENLIMITER_USER_AGENT
  | vh_accept : value_of_header endpoint method "accept" "application/json"
  | vh_content : method = "POST" -> value_of_header endpoint method "content-type" "application/json"
  | vh_authorization secret :
      usableHeaderSecret secret = true -> endpoint <> "cursor_usage" ->
      value_of_header endpoint method "authorization" ("Bearer " +:+ secret)
  | vh_cookie value :
      endpoint = "cursor_usage" -> cookie_pattern value = true ->
      value_of_header endpoint method "cookie" value
  | vh_beta : value_of_header endpoint method CLAUDE_OAUTH_BETA_HEADER CLAUDE_OAUTH_BETA_VALUE
  | vh_account value :
      usableHeaderAccountId value = true -> value_of_header endpoint method GROK_ACCOUNT_HEADER value.

(** What a request that may leave looks like. *)
Record contained (r : HttpAcquisitionRequest) : Prop := {
  ct_address : exists e, assoc_get (rq_endpoint r) ACQUISITION_ENDPOINTS = Some e /\
    rq_url r = ep_url e /\ rq_method r = ep_method e;
  ct_agent : assoc_get "user-agent" (rq_headers r) = Some OPENLIMITER_USER_AGENT;
  ct_headers name value : (name, value) ∈ rq_headers r ->
    value_of_header (rq_endpoint r) (rq_method r) name value /\
    str_forall (in_range 32 126) value = true;
  ct_body : body_of_endpoint (rq_endpoint r) (rq_body r) }.

Lemma str_eqb_true x y : str_eqb x y = true -> x = y.
Proof. unfold str_eqb. apply bool_decide_eq_true. Qed.

Lemma valid_header_printable name value method :
  validHeaderValue name value method = true -> str_forall (in_range 32 126) value = true.
Proof.
  unfold validHeaderValue. destruct (printable value) eqn:E; [|done]. intros _.
  unfold printable in E. by apply andb_true_iff in E as [_ ?].
Qed.

(** Comparisons of two literal texts, evaluated. *)
Ltac literal_texts H :=
  repeat match type of H with
    | context [str_eqb ?a ?b] =>
        let v := eval vm_compute in (str_eqb a b) in
        lazymatch v with
        | true => change (str_eqb a b) with true in H
        | false => change (str_eqb a b) with false in H
        end
    end; cbv iota in H.

Lemma valid_header_value endpoint name value method :
  name ∈ ALLOWED_REQUEST_HEADERS -> validHeaderValue name value method = true ->
  (name = "cookie" -> endpoint = "cursor_usage") ->
  (name = "authorization" -> endpoint <> "cursor_usage") ->
  value_of_header endpoint method name value.
Proof.
  unfold validHeaderValue. destruct (printable value); [|done]. cbn [negb].
  intros Hname Hv Hcookie Hauth. unfold ALLOWED_REQUEST_HEADERS in Hname.
  rewrite !elem_of_cons, elem_of_nil in Hname.
  destruct Hname as [->|[->|[->|[->|[->|[->|[->|[]]]]]]]]; literal_texts Hv.
  - destruct (after_prefix "Bearer " value) as [secret|] eqn:E; [|done].
    apply after_prefix_Some in E as ->. apply vh_authorization; auto.
  - apply vh_cookie; auto.
  - apply str_eqb_true in Hv as ->. apply vh_accept.
  - apply str_eqb_true in Hv as ->. apply vh_agent.
  - apply andb_true_iff in Hv as [->%str_eqb_true Hm%str_eqb_true]. by apply vh_content.
  - apply str_eqb_true in Hv as ->. apply vh_beta.
  - by apply vh_account.
Qed.

Lemma valid_body r : validRequestBody r = true -> body_of_endpoint (rq_endpoint r) (rq_body r).
Proof.
  unfold validRequestBody, body_of_endpoint. destruct (str_eqb (rq_endpoint r) "code_assist_load").
  { by intros H'%bool_decide_eq_true. }
  destruct (str_eqb (rq_endpoint r) "code_assist_quota").
  2:{ by intros [H'%bool_decide_eq_true _]%andb_true_iff. }
  destruct (rq_body r) as [text|]; [|done]. destruct (json_parse text) as [parsed|] eqn:Ep; [|done].
  destruct (record_of parsed) as [fields|] eqn:Er; [|done].
  intros [[Hk%bool_decide_eq_true Hp]%andb_true_iff Hu]%andb_true_iff.
  destruct (get fields "project") as [| | | |project| |] eqn:Eg; try done.
  exists text, fields, project. split; [done|].
  destruct parsed; try done. injection Er as ->. split_and!; try done.
  - rewrite <- Hk. symmetry. apply sort_by_perm.
  - unfold is_string in Hu. destruct (get fields "userAgent"); try done.
    by rewrite (str_eqb_true _ _ Hu).
Qed.

(** Cursor's request has its three headers and no other one. *)
Lemma cursor_names names :
  Forall (fun n => n ∈ ALLOWED_REQUEST_HEADERS) names ->
  join "," names = "accept,cookie,user-agent" -> names = ["accept"; "cookie"; "user-agent"].
Proof.
  assert (Hcases : forall n, n ∈ ALLOWED_REQUEST_HEADERS ->
    n = "authorization" \/ n = "cookie" \/ n = "accept" \/ n = "user-agent" \/ n = "content-type" \/
    n = "anthropic-beta" \/ n = "x-userid").
  { intros n. unfold ALLOWED_REQUEST_HEADERS. rewrite !elem_of_cons, elem_of_nil. tauto. }
  intros Hall. destruct Hall as [|a l1 Ha [|b l2 Hb [|c l3 Hc [|d l4 Hd _]]]]; [done| | | |];
    repeat match goal with H : _ ∈ ALLOWED_REQUEST_HEADERS |- _ => apply Hcases in H end;
    destruct Ha as [->|[->|[->|[->|[->|[->| ->]]]]]]; cbn [join]; try discriminate;
    destruct Hb as [->|[->|[->|[->|[->|[->| ->]]]]]]; cbn [join]; try discriminate;
    destruct Hc as [->|[->|[->|[->|[->|[->| ->]]]]]]; cbn [join]; try discriminate; done.
Qed.

Lemma cursor_header (headers : list (string * string)) name value :
  join "," (sort_by str_compare headers.*1) = "accept,cookie,user-agent" ->
  Forall (fun n => n ∈ ALLOWED_REQUEST_HEADERS) headers.*1 -> (name, value) ∈ headers ->
  name <> "authorization".
Proof.
  intros Hj Hall Hin ->. assert (Hs : "authorization" ∈ sort_by str_compare headers.*1).
  { rewrite sort_by_perm. by apply (list_elem_of_fmap_2 fst headers ("authorization", value)). }
  rewrite (cursor_names _) in Hs by (done || by rewrite sort_by_perm).
  rewrite !elem_of_cons, elem_of_nil in Hs. by destruct Hs as [|[|[|[]]]].
Qed.

Lemma valid_contained r : validAcquisitionRequest r = true -> contained r.
Proof.
  unfold validAcquisitionRequest.
  destruct (assoc_get (rq_endpoint r) ACQUISITION_ENDPOINTS) as [e|] eqn:Ee; [|done].
  destruct (_ || _) eqn:Ea; [done|]. apply orb_false_iff in Ea as [Hu%negb_false_iff Hm%negb_false_iff].
  destruct (bool_decide (assoc_get "user-agent" _ = _)) eqn:Eu; [|done]. cbn [negb].
  apply bool_decide_eq_true in Eu.
  destruct (if str_eqb (rq_endpoint r) "cursor_usage" then _ else _) eqn:Ec; [done|].
  intros [Hh Hb]%andb_true_iff. rewrite forallb_forall in Hh.
  assert (Hheader : forall name value, (name, value) ∈ rq_headers r ->
    name ∈ ALLOWED_REQUEST_HEADERS /\ validHeaderValue name value (rq_method r) = true).
  { intros name value Hin%list_elem_of_In. apply Hh in Hin. cbn [fst snd] in Hin.
    apply andb_true_iff in Hin as [Hin%bool_decide_eq_true Hv]. done. }
  split; [|exact Eu| |by apply valid_body].
  - exists e. split; [done|]. by split; apply str_eqb_true.
  - intros name value Hin. destruct (Hheader _ _ Hin) as [Hn Hv].
    split; [|by eapply valid_header_printable]. apply valid_header_value; [done|done|..].
    + intros ->. destruct (str_eqb (rq_endpoint r) "cursor_usage") eqn:E; [by apply str_eqb_true in E|].
      apply bool_decide_eq_false in Ec. exfalso. apply Ec.
      destruct (assoc_get "cookie" (rq_headers r)) as [v|] eqn:Eg; [by eexists|].
      exfalso. apply assoc_get_None in Eg. apply Eg. by apply (list_elem_of_fmap_2 fst (rq_headers r) ("cookie", value)).
    + intros -> Ecur. rewrite Ecur in Ec. cbn in Ec. apply negb_false_iff, str_eqb_true in Ec.
      eapply cursor_header; [exact Ec| |exact Hin|done]. apply Forall_fmap, Forall_forall.
      intros [n v] Hnv. by apply Hheader in Hnv as [? _].
Qed.

(** C30: nothing but the contract leaves. Whatever HTTP request reaches the
    transport, however it was assembled, either it throws and nothing is sent,
    or what is sent is that very request: to an address of the table with its
    method; with this program's agent; every header of it an allowed one with
    the value or the shape of value that header has, an authorization carrying
    one bounded secret, a cookie going to Cursor alone; and with the one body
    of its endpoint. And every request the builders make is sent. *)
Theorem only_the_contract_leaves fetch decode now request :
  match (fetchTransport fetch decode now request).1 with
  | Some sent => sent = request /\ contained sent
  | None => (fetchTransport fetch decode now request).2 = None /\ ~ built request
  end.
Proof.
  unfold fetchTransport. destruct (validAcquisitionRequest request) eqn:E; cbn [negb fst snd].
  - split; [done|]. by apply valid_contained.
  - split; [done|]. intros Hb. by rewrite every_built_request_may_leave in E.
Qed.

(** ** Bodies *)

Lemma readBoundedResponse_exact chunks broken limit size :
  0 <= size <= limit ->
  readBoundedResponse chunks broken limit size =
    if size + Z.of_nat (length (concat chunks)) <=? limit
    then if broken then None else Some (Some (concat chunks))
    else Some None.
Proof.
  revert size. induction chunks as [|chunk chunks IH]; intros size Hs; cbn [readBoundedResponse concat].
  - by rewrite (proj2 (Z.leb_le _ _)) by (simpl; lia).
  - rewrite length_app, Nat2Z.inj_add. destruct (Z.ltb_spec (limit - size) (Z.of_nat (length chunk))).
    + by rewrite (proj2 (Z.leb_gt _ _)) by lia.
    + rewrite IH by lia. rewrite <- Z.add_assoc.
      destruct (size + (Z.of_nat (length chunk) + Z.of_nat (length (concat chunks))) <=? limit); [|done].
      by destruct broken.
Qed.

(** C39: a body is read whole or not at all. However the network cuts a
    response into chunks, and wherever reading breaks off, the reply is the one
    its status and all its bytes come to: a refusal's body is never looked at,
    a body beyond the limit is reported as too large, one that breaks off
    before makes the transport throw, and any other is decoded whole. *)
Theorem a_body_is_read_whole_or_not_at_all fetch decode now request response :
  validAcquisitionRequest request = true -> fetch request = Some response ->
  (fetchTransport fetch decode now request).2 =
    let retryAfter := retryAfterSeconds (fr_retryAfter response) now in
    let status := fr_status response in
    let bytes := concat (fr_chunks response) in
    if (status <? 200) || (300 <=? status) then Some (reply_of status "" retryAfter)
    else if Z.of_nat (length bytes) <=? MAX_ACQUISITION_RESPONSE_BYTES
         then if fr_broken response then None else Some (reply_of status (decode bytes) retryAfter)
         else Some (reply_of 0 "" retryAfter).
Proof.
  intros Hv Hf. unfold fetchTransport. rewrite Hv, Hf. cbn [negb snd]. cbn zeta.
  destruct (_ || _); [done|].
  rewrite readBoundedResponse_exact by (unfold MAX_ACQUISITION_RESPONSE_BYTES; lia).
  rewrite Z.add_0_l. destruct (_ <=? MAX_ACQUISITION_RESPONSE_BYTES); [|done].
  by destruct (fr_broken response).
Qed.
End Transport.

(** ** Witnesses *)

Definition sample_request : HttpAcquisitionRequest :=
  request_to "kimi_usage" "GET" (bearer "abc") None.

(** A body cut in three. *)
Definition sample_response : FetchResponse :=
  {| fr_status := 200; fr_retryAfter := None; fr_chunks := [[123]; []; [125]]; fr_broken := false |}.

(** A built request leaves; with another endpoint's body it does not. *)
Definition misused_request : HttpAcquisitionRequest :=
  request_to "code_assist_load" "POST" (rq_headers sample_request) None.

Lemma only_the_contract_leaves_witness :
  contained sample_request /\
  (fetchTransport (H := strict_host) (fun _ => Some sample_response) (fun _ => "{}") 0 misused_request).2 = None.
Proof.
  pose proof (only_the_contract_leaves (H := strict_host) (fun _ => Some sample_response) (fun _ => "{}") 0) as Hc.
  split; [exact (proj2 (Hc sample_request))|exact (proj1 (Hc misused_request))].
Defined.

Lemma a_body_is_read_whole_or_not_at_all_witness :
  (fetchTransport (H := strict_host) (fun _ => Some sample_response)
    (fun bytes => if bool_decide (bytes = [123; 125]) then "{}" else "") 0 sample_request).2 =
  Some (reply_of 200 "{}" None).
Proof.
  rewrite (a_body_is_read_whole_or_not_at_all (H := strict_host) _ _ 0 sample_request sample_response);
    vm_compute; reflexivity.
Defined.
