(* ===== verification/CodexServer.v ===== *)
(** * Reading Codex's rate limits from its own app server

    [codex-app-server.ts]: a conversation over a child process's standard
    streams, one JSON message a line. The child is a sequence of events, what
    it writes in whatever chunks, its errors, its end and the deadline; the
    state is what [readCodexRateLimits] keeps between them. *)
From S2P Require Import Prelude JsNum JsDate JsValue Text Types Json JsonText ReadBack Files.
From S2P Require Import Identity Cadence Attempt Transport.
Local Open Scope string_scope.
Local Open Scope Z_scope.
Local Open Scope list_scope.
Local Open Scope js_scope.

Definition CODEX_APP_SERVER_TIMEOUT_MILLISECONDS : Z := 5000.
Definition MAX_CODEX_APP_SERVER_OUTPUT_BYTES : Z := 1048576.

Definition CODEX_APP_SERVER_CLIENT_INFO : jsval :=
  JObj [("name", JStr "openlimiter"); ("title", JStr "OpenLimiter");
        ("version", JStr ACQUISITION_CLIENT_VERSION)].

Inductive CodexFailure :=
  | cx_needs_sign_in | cx_identity_mismatch | cx_missing_executable | cx_timeout | cx_unavailable
  | cx_protocol.

Inductive CodexRateLimitsReadResult :=
  | cx_ok (payload : list (string * jsval))
  | cx_failed (reason : CodexFailure).

Definition codexAppServerRequest (executable codexHome expectedAccountId : string) :
    option CodexAppServerAcquisitionRequest :=
  check negb (str_eqb executable "") && negb (str_eqb codexHome "") &&
        negb (str_eqb expectedAccountId "");;
  Some {| cq_executable := executable; cq_codexHome := codexHome;
          cq_expectedAccountId := expectedAccountId |}.

Definition authenticationRequired (error : jsval) : bool :=
  match record_of error with
  | Some value =>
      is_number (get value "code") (-32600) &&
      (is_string (get value "message") "chatgpt authentication required to read rate limits" ||
       is_string (get value "message") "codex account authentication required to read rate limits")
  | None => false
  end.

(** A stated account identity: 1 to 512 units, none a control. *)
Definition validAccountId (value : jsval) : option string :=
  let? s := as_string value in
  check (0 <? str_length s) && (str_length s <=? 512) && str_forall (fun c => negb (is_control c)) s;;
  Some s.

(** ** The messages sent *)

Definition initialize_message : jsval :=
  JObj [("method", JStr "initialize"); ("id", JNum (int 0));
        ("params", JObj [("clientInfo", CODEX_APP_SERVER_CLIENT_INFO);
                         ("capabilities", JObj [("experimentalApi", JBool true)])])].

Definition initialized_message : jsval :=
  JObj [("method", JStr "initialized"); ("params", JObj [])].

Definition read_message : jsval :=
  JObj [("method", JStr "account/rateLimits/read"); ("id", JNum (int 1))].

Section Codex.
Context `{CryptoHost} (expectedAccountId : string).

Record Conversation := {
  cv_result : option CodexRateLimitsReadResult;    (** [settled] *)
  cv_initialized : bool;
  cv_buffered : string;
  cv_receivedBytes : Z;
  cv_writable : bool;                              (** [!child.stdin.destroyed] *)
  cv_sent : list jsval }.

(** What happens to the child. *)
Inductive ChildEvent :=
  | child_data (chunk : string)
  | child_error (enoent : bool)
  | stdin_error
  | write_error
  | stdin_destroyed
  | child_close
  | deadline.

Definition settled (c : Conversation) : bool := bool_decide (is_Some (cv_result c)).

Definition finish (result : CodexRateLimitsReadResult) (c : Conversation) : Conversation :=
  if settled c then c
  else {| cv_result := Some result; cv_initialized := cv_initialized c; cv_buffered := cv_buffered c;
          cv_receivedBytes := cv_receivedBytes c; cv_writable := false; cv_sent := cv_sent c |}.

(** [send]: whether it wrote, and the conversation after it. *)
Definition send (message : jsval) (c : Conversation) : bool * Conversation :=
  if settled c || negb (cv_writable c) then (false, c)
  else (true, {| cv_result := cv_result c; cv_initialized := cv_initialized c;
                 cv_buffered := cv_buffered c; cv_receivedBytes := cv_receivedBytes c;
                 cv_writable := cv_writable c; cv_sent := cv_sent c ++ [message] |}).

Definition set_initialized (c : Conversation) : Conversation :=
  {| cv_result := cv_result c; cv_initialized := true; cv_buffered := cv_buffered c;
     cv_receivedBytes := cv_receivedBytes c; cv_writable := cv_writable c; cv_sent := cv_sent c |}.

Definition set_buffered (s : string) (c : Conversation) : Conversation :=
  {| cv_result := cv_result c; cv_initialized := cv_initialized c; cv_buffered := s;
     cv_receivedBytes := cv_receivedBytes c; cv_writable := cv_writable c; cv_sent := cv_sent c |}.

Definition add_received (n : Z) (c : Conversation) : Conversation :=
  {| cv_result := cv_result c; cv_initialized := cv_initialized c; cv_buffered := cv_buffered c;
     cv_receivedBytes := cv_receivedBytes c + n; cv_writable := cv_writable c; cv_sent := cv_sent c |}.

(** The answer to the read: whose it is, and what it says. *)
Definition judge_result (result : jsval) : CodexRateLimitsReadResult :=
  match record_of result with
  | None => cx_failed cx_protocol
  | Some payload =>
      if negb (isRecord (get payload "rateLimits")) then cx_failed cx_protocol
      else
        match get payload "accountId" with
        | JUndef | JNull => cx_ok payload
        | stated =>
            match validAccountId stated with
            | None => cx_failed cx_protocol
            | Some id =>
                if str_eqb (opaqueAccountId CODEX id) expectedAccountId then cx_ok payload
                else cx_failed cx_identity_mismatch
            end
        end
  end.

Definition handle (line : string) (c : Conversation) : Conversation :=
  match json_parse line with
  | None => finish (cx_failed cx_protocol) c
  | Some message =>
      match record_of message with
      | None => c
      | Some message =>
          if is_number (get message "id") 0 then
            if isRecord (get message "error") || negb (isRecord (get message "result"))
            then finish (cx_failed cx_protocol) c
            else
              let '(wrote, c) := send initialized_message (set_initialized c) in
              if wrote then (send read_message c).2 else c
          else if negb (is_number (get message "id") 1) || negb (cv_initialized c) then c
          else if negb (is_undef (get message "error")) then
            finish (cx_failed (if authenticationRequired (get message "error") then cx_needs_sign_in
                               else cx_protocol)) c
          else finish (judge_result (get message "result")) c
      end
  end.

(** [.replace(/\r$/, "")] *)
Fixpoint strip_return (s : string) : string :=
  match s with
  | String c EmptyString => if code c =? 13 then "" else s
  | String c s' => String c (strip_return s')
  | EmptyString => ""
  end.

Definition handle_line (line : string) (c : Conversation) : Conversation :=
  let line := strip_return line in if str_eqb line "" then c else handle line c.

(** The loop over the lines of the buffer, [line] being the part of the
    current one already passed. *)
Fixpoint drain (line rest : string) (c : Conversation) : Conversation :=
  match rest with
  | EmptyString => set_buffered line c
  | String d rest =>
      if code d =? 10 then
        let c := handle_line line c in
        if settled c then set_buffered rest c else drain "" rest c
      else drain (line +:+ String d "") rest c
  end.

Definition on_data (chunk : string) (c : Conversation) : Conversation :=
  if settled c then c
  else
    let c := add_received (byte_length chunk) c in
    if MAX_CODEX_APP_SERVER_OUTPUT_BYTES <? cv_receivedBytes c then finish (cx_failed cx_protocol) c
    else drain "" (cv_buffered c +:+ chunk) c.

Definition on_event (c : Conversation) (e : ChildEvent) : Conversation :=
  match e with
  | child_data chunk => on_data chunk c
  | child_error enoent => finish (cx_failed (if enoent then cx_missing_executable else cx_unavailable)) c
  | stdin_error | write_error | child_close => finish (cx_failed cx_unavailable) c
  | deadline => finish (cx_failed cx_timeout) c
  | stdin_destroyed =>
      {| cv_result := cv_result c; cv_initialized := cv_initialized c; cv_buffered := cv_buffered c;
         cv_receivedBytes := cv_receivedBytes c; cv_writable := false; cv_sent := cv_sent c |}
  end.

(** The conversation once the first message is sent. *)
Definition opening : Conversation :=
  {| cv_result := None; cv_initialized := false; cv_buffered := ""; cv_receivedBytes := 0;
     cv_writable := true; cv_sent := [initialize_message] |}.

(** [readCodexRateLimits] with its default deadline: [spawned] tells whether
    the child could be started; [None] as long as nothing settled it. *)
Definition readCodexRateLimits (executable codexHome : string) (spawned : bool)
    (events : list ChildEvent) : option CodexRateLimitsReadResult :=
  if str_eqb executable "" || str_eqb codexHome "" || str_eqb expectedAccountId "" || negb spawned
  then Some (cx_failed cx_unavailable)
  else cv_result (foldl on_event opening events).

(** ** Settled once *)

Lemma settled_result c r : cv_result c = Some r -> settled c = true.
Proof. intros E. unfold settled. by rewrite E, bool_decide_true. Qed.

Lemma not_settled c : settled c = false -> cv_result c = None.
Proof.
  unfold settled. intros Hn%bool_decide_eq_false. destruct (cv_result c); [|done]. by destruct Hn.
Qed.

Lemma finish_settled result c : settled c = true -> finish result c = c.
Proof. unfold finish. by intros ->. Qed.

Lemma on_event_settled c e r : cv_result c = Some r -> cv_result (on_event c e) = Some r.
Proof.
  intros E. pose proof (settled_result c r E) as Hs.
  destruct e; cbn [on_event]; rewrite ?finish_settled by done; try done.
  unfold on_data. by rewrite Hs.
Qed.

Lemma events_settled events c r : cv_result c = Some r -> cv_result (foldl on_event c events) = Some r.
Proof.
  revert c. induction events as [|e events IH]; intros c E; [done|]. cbn [foldl].
  by apply IH, on_event_settled.
Qed.

(** ** What has been said and heard *)

(** The answer a success rests on: one whole line, after the greeting was
    answered, that names no other account. *)
Definition answered_by (payload : list (string * jsval)) (line : string) : Prop :=
  exists message, json_parse line = Some (JObj message) /\
    is_number (get message "id") 1 = true /\ get message "error" = JUndef /\
    get message "result" = JObj payload /\ isRecord (get payload "rateLimits") = true /\
    (get payload "accountId" = JUndef \/ get payload "accountId" = JNull \/
     exists id, get payload "accountId" = JStr id /\ opaqueAccountId CODEX id = expectedAccountId).

Definition only_reads (sent : list jsval) : Prop :=
  Forall (fun m => m = initialize_message \/ m = initialized_message \/ m = read_message) sent.

(** ** Chunks *)

(** The same conversation, but for the buffer once it is settled. *)
Definition agree (c c' : Conversation) : Prop :=
  cv_result c = cv_result c' /\ cv_sent c = cv_sent c' /\ cv_initialized c = cv_initialized c' /\
  (settled c = false -> c = c').

Definition no_newline (s : string) : bool := str_forall (fun d => negb (code d =? 10)) s.

Lemma agree_refl c : agree c c.
Proof. done. Qed.

Lemma agree_buffered s s' c : settled c = true -> agree (set_buffered s c) (set_buffered s' c).
Proof. intros Hs. split_and!; try done. intros Hn. by unfold settled in *; simpl in Hn; rewrite Hs in Hn. Qed.

Lemma agree_trans c1 c2 c3 : agree c1 c2 -> agree c2 c3 -> agree c1 c3.
Proof.
  intros (R1 & S1 & I1 & E1) (R2 & S2 & I2 & E2). split_and!; try congruence.
  intros Hn. rewrite (E1 Hn). apply E2. by rewrite <- (E1 Hn).
Qed.

Lemma handle_line_buffered s line c : handle_line line (set_buffered s c) = set_buffered s (handle_line line c).
Proof.
  unfold handle_line. destruct (str_eqb _ _); [done|]. unfold handle.
  assert (Hf : forall r c, finish r (set_buffered s c) = set_buffered s (finish r c)).
  { intros r c0. unfold finish, settled. cbn [set_buffered cv_result]. by destruct (bool_decide _). }
  destruct (json_parse _) as [message|]; [|apply Hf]. destruct (record_of message) as [fields|]; [|done].
  destruct (is_number (get fields "id") 0).
  { destruct (isRecord _ || _); [apply Hf|]. unfold send, settled. cbn.
    destruct (bool_decide (is_Some (cv_result c))) eqn:E1, (cv_writable c) eqn:E2; cbn;
      by rewrite ?E1, ?E2. }
  cbn [set_buffered cv_initialized]. destruct (negb _ || negb _); [done|].
  destruct (negb _); apply Hf.
Qed.

Lemma settled_buffered s c : settled (set_buffered s c) = settled c.
Proof. done. Qed.

(** The loop reads its arguments alone, not the buffer it was left with. *)
Lemma drain_buffered s line rest c : drain line rest (set_buffered s c) = drain line rest c.
Proof.
  revert line c. induction rest as [|d rest IH]; intros line c; cbn [drain]; [done|].
  destruct (code d =? 10); [|apply IH]. rewrite handle_line_buffered. rewrite settled_buffered.
  destruct (settled (handle_line line c)); [done|]. apply IH.
Qed.

Lemma drain_line acc line rest c :
  no_newline line = true -> drain acc (line +:+ rest) c = drain (acc +:+ line) rest c.
Proof.
  revert acc. induction line as [|d line IH]; intros acc Hn.
  - change ("" +:+ rest) with rest. by rewrite str_app_nil_r.
  - unfold no_newline in Hn. cbn [str_forall] in Hn. apply andb_true_iff in Hn as [Hd Hn].
    apply negb_true_iff in Hd.
    change (String d line +:+ rest) with (String d (line +:+ rest)). cbn [drain]. rewrite Hd.
    rewrite IH by done. by rewrite <- str_app_assoc.
Qed.

Lemma drain_buffer_line line rest c :
  no_newline line = true -> settled (drain line rest c) = false ->
  no_newline (cv_buffered (drain line rest c)) = true.
Proof.
  revert line c. induction rest as [|d rest IH]; intros line c Hl; cbn [drain]; [done|].
  destruct (code d =? 10) eqn:Ed.
  - destruct (settled (handle_line line c)) eqn:Es; [by rewrite settled_buffered, Es|].
    by apply IH.
  - apply IH. unfold no_newline in *. rewrite str_forall_app, Hl. cbn [str_forall]. by rewrite Ed.
Qed.

Lemma drain_app line a b c :
  no_newline line = true -> settled c = false ->
  agree (drain line (a +:+ b) c)
    (let c1 := drain line a c in if settled c1 then c1 else drain "" (cv_buffered c1 +:+ b) c1).
Proof.
  revert line c. induction a as [|d a IH]; intros line c Hl Hc.
  - cbn [drain]. rewrite settled_buffered, Hc. cbn zeta. cbn [set_buffered cv_buffered].
    change ("" +:+ b) with b. rewrite drain_buffered, drain_line by done. apply agree_refl.
  - change (String d a +:+ b) with (String d (a +:+ b)). cbn [drain]. destruct (code d =? 10) eqn:Ed.
    + destruct (settled (handle_line line c)) eqn:Es; [|by apply IH].
      cbn zeta. rewrite settled_buffered, Es. by apply agree_buffered.
    + apply IH; [|done]. unfold no_newline in *. rewrite str_forall_app, Hl. cbn [str_forall]. by rewrite Ed.
Qed.

Lemma drain_received n line rest c : drain line rest (add_received n c) = add_received n (drain line rest c).
Proof.
  assert (Hh : forall line c, handle_line line (add_received n c) = add_received n (handle_line line c)).
  { clear. intros line c. unfold handle_line. destruct (str_eqb _ _); [done|]. unfold handle.
    assert (Hf : forall r c, finish r (add_received n c) = add_received n (finish r c)).
    { intros r c0. unfold finish, settled. cbn [add_received cv_result]. by destruct (bool_decide _). }
    destruct (json_parse _) as [message|]; [|apply Hf]. destruct (record_of message) as [fields|]; [|done].
    destruct (is_number (get fields "id") 0).
    { destruct (isRecord _ || _); [apply Hf|]. unfold send, settled. cbn.
      destruct (bool_decide (is_Some (cv_result c))) eqn:E1, (cv_writable c) eqn:E2; cbn;
      by rewrite ?E1, ?E2. }
    cbn [add_received cv_initialized]. destruct (negb _ || negb _); [done|].
    destruct (negb _); apply Hf. }
  revert line c. induction rest as [|d rest IH]; intros line c; cbn [drain]; [done|].
  destruct (code d =? 10); [|apply IH]. rewrite Hh.
  change (settled (add_received n (handle_line line c))) with (settled (handle_line line c)).
  destruct (settled (handle_line line c)); [done|apply IH].
Qed.

Lemma received_drain line rest c : cv_receivedBytes (drain line rest c) = cv_receivedBytes c.
Proof.
  assert (Hh : forall line c, cv_receivedBytes (handle_line line c) = cv_receivedBytes c).
  { clear. intros line c. unfold handle_line. destruct (str_eqb _ _); [done|]. unfold handle.
    assert (Hf : forall r, cv_receivedBytes (finish r c) = cv_receivedBytes c).
    { intros r. unfold finish. by destruct (settled c). }
    destruct (json_parse _) as [message|]; [|apply Hf]. destruct (record_of message) as [fields|]; [|done].
    destruct (is_number (get fields "id") 0).
    { destruct (isRecord _ || _); [apply Hf|]. unfold send, settled. cbn.
      destruct (bool_decide (is_Some (cv_result c))) eqn:E1, (cv_writable c) eqn:E2; cbn;
      by rewrite ?E1, ?E2. }
    destruct (negb _ || negb _); [done|]. destruct (negb _); apply Hf. }
  revert line c. induction rest as [|d rest IH]; intros line c; cbn [drain]; [done|].
  destruct (code d =? 10); [|apply IH]. destruct (settled (handle_line line c)); [apply Hh|].
  by rewrite IH, Hh.
Qed.

(** A conversation between two chunks. *)
Definition between (c : Conversation) : Prop := settled c = false -> no_newline (cv_buffered c) = true.

Lemma on_data_app a b c :
  between c -> cv_receivedBytes c + byte_length (a +:+ b) <= MAX_CODEX_APP_SERVER_OUTPUT_BYTES ->
  agree (on_data (a +:+ b) c) (on_data b (on_data a c)).
Proof.
  intros Hb Hlen. rewrite byte_length_app in Hlen.
  pose proof (byte_length_nonneg a). pose proof (byte_length_nonneg b).
  unfold on_data at 1 3. destruct (settled c) eqn:Es.
  { unfold on_data. rewrite Es. apply agree_refl. }
  cbn [add_received cv_receivedBytes cv_buffered]. rewrite byte_length_app.
  rewrite !(proj2 (Z.ltb_ge _ _)) by lia.
  rewrite !drain_received. rewrite drain_line by (by apply Hb).
  change ("" +:+ cv_buffered c) with (cv_buffered c).
  pose proof (drain_app (cv_buffered c) a b c (Hb Es) Es) as Ha. cbn zeta in Ha.
  rewrite (drain_line "" (cv_buffered c)) by (by apply Hb).
  change ("" +:+ cv_buffered c) with (cv_buffered c).
  set (c1 := drain (cv_buffered c) a c) in *.
  assert (Hr : cv_receivedBytes c1 = cv_receivedBytes c) by apply received_drain.
  unfold on_data. change (settled (add_received (byte_length a) c1)) with (settled c1).
  destruct (settled c1) eqn:E1.
  - destruct Ha as (R & S & I & E). split_and!; try done. intros Hn.
    change (settled (drain (cv_buffered c) (a +:+ b) c) = false) in Hn. rewrite (E Hn) in Hn.
    by rewrite Hn in E1.
  - cbn [add_received cv_receivedBytes]. rewrite (proj2 (Z.ltb_ge _ _)) by lia.
    rewrite drain_received, drain_received. cbn [add_received cv_buffered].
    destruct Ha as (R & S & I & E). split_and!; try done. intros Hn.
    change (settled (drain (cv_buffered c) (a +:+ b) c) = false) in Hn. rewrite (E Hn).
    unfold add_received. cbn. f_equal. lia.
Qed.

Lemma between_on_data a c : between c -> between (on_data a c).
Proof.
  intros Hb. unfold on_data. destruct (settled c) eqn:Es; [done|].
  destruct (_ <? _).
  - unfold between, finish. change (settled (add_received (byte_length a) c)) with (settled c). by rewrite Es.
  - unfold between. rewrite drain_received. intros Hn.
    rewrite drain_line in * by (by apply Hb). by apply drain_buffer_line; [apply Hb|].
Qed.

Lemma received_on_data a c : cv_receivedBytes (on_data a c) <= cv_receivedBytes c + byte_length a.
Proof.
  pose proof (byte_length_nonneg a). unfold on_data. destruct (settled c) eqn:Es; [lia|].
  destruct (_ <? _).
  - unfold finish. destruct (settled _); cbn [add_received cv_receivedBytes]; lia.
  - rewrite received_drain. cbn [add_received cv_receivedBytes]. lia.
Qed.

Lemma on_data_agree b c c' : agree c c' -> agree (on_data b c) (on_data b c').
Proof.
  intros (R & S & I & E). destruct (settled c) eqn:Es.
  - assert (Es' : settled c' = true) by (unfold settled in *; by rewrite <- R).
    unfold on_data. rewrite Es, Es'. split_and!; try done. by rewrite Es.
  - rewrite (E eq_refl). apply agree_refl.
Qed.

(** C35: the cut into chunks is immaterial. Within the output limit, the
    answer of the app server is the one its whole output comes to: however
    the pipe cuts the bytes, between two messages, inside one or inside a line
    break, the outcome and the messages sent are the same. *)
Theorem the_cut_into_chunks_is_immaterial chunks :
  byte_length (join "" chunks) <= MAX_CODEX_APP_SERVER_OUTPUT_BYTES ->
  let whole := on_event opening (child_data (join "" chunks)) in
  let cut := foldl on_event opening (map child_data chunks) in
  cv_result cut = cv_result whole /\ cv_sent cut = cv_sent whole.
Proof.
  assert (Hg : forall chunk chunks c, between c ->
    cv_receivedBytes c + byte_length (join "" (chunk :: chunks)) <= MAX_CODEX_APP_SERVER_OUTPUT_BYTES ->
    agree (on_data (join "" (chunk :: chunks)) c) (foldl on_event c (map child_data (chunk :: chunks)))).
  { clear chunks. intros chunk chunks. revert chunk.
    induction chunks as [|next chunks IH]; intros chunk c Hb Hlen; [apply agree_refl|].
    rewrite join_cons_nil in *. set (rest := next :: chunks) in *. cbn [map foldl on_event].
    eapply agree_trans; [by apply on_data_app|]. apply IH; [by apply between_on_data|].
    pose proof (received_on_data chunk c). rewrite byte_length_app in Hlen. fold rest. lia. }
  intros Hlen. destruct chunks as [|chunk chunks]; [done|].
  destruct (Hg chunk chunks opening) as (R & S & _); [done| |by split].
  cbn [opening cv_receivedBytes]. lia.
Qed.
(** ** One answer *)

(** What the child has written, and the whole lines of it. *)
Definition written (events : list ChildEvent) : string :=
  join "" (flat_map (fun e => match e with child_data chunk => [chunk] | _ => [] end) events).

Definition whole_lines (text : string) : list string :=
  map strip_return (removelast (split_on (chr 10) text "")).

(** A line that answers the greeting, and one that answers the question. *)
Definition greets (line : string) : Prop :=
  exists message, json_parse line = Some (JObj message) /\ is_number (get message "id") 0 = true /\
    isRecord (get message "error") = false /\ isRecord (get message "result") = true.

Definition answers (line : string) : Prop :=
  exists message, json_parse line = Some (JObj message) /\ is_number (get message "id") 1 = true.

(** Among the lines, the greeting was answered, and no answer to the question
    follows that line before line [j]. *)
Definition greeted_before (lines : list string) (j : nat) : Prop :=
  exists i greeting, (i < j)%nat /\ lines !! i = Some greeting /\ greets greeting /\
    forall k line, (i < k < j)%nat -> lines !! k = Some line -> ~ answers line.

(** The payload is the first answer to the question after the greeting. *)
Definition earned (lines : list string) (payload : list (string * jsval)) : Prop :=
  exists j line, lines !! j = Some line /\ answered_by payload line /\ greeted_before lines j.

Record conversation_ok (lines : list string) (c : Conversation) : Prop := {
  co_sent : only_reads (cv_sent c);
  co_greeted : cv_result c = None -> cv_initialized c = true -> greeted_before lines (length lines);
  co_result payload : cv_result c = Some (cx_ok payload) -> earned lines payload }.

Lemma greeted_before_app lines more j :
  (j <= length lines)%nat -> greeted_before lines j -> greeted_before (lines ++ more) j.
Proof.
  intros Hj (i & greeting & Hi & Hl & Hg & Hn). exists i, greeting. split_and!; [done| |done|].
  - rewrite lookup_app_l; [done|lia].
  - intros k line Hk. rewrite lookup_app_l by lia. by apply Hn.
Qed.

Lemma greeted_before_more lines line :
  greeted_before lines (length lines) -> ~ answers line ->
  greeted_before (lines ++ [line]) (length (lines ++ [line])).
Proof.
  intros (i & greeting & Hi & Hl & Hg & Hn) Ha. exists i, greeting. rewrite length_app. cbn [length].
  split_and!; [lia|rewrite lookup_app_l; [done|lia]|done|].
  intros k other Hk Hother. destruct (decide (k = length lines)) as [->|Hne].
  - rewrite list_lookup_middle in Hother by done. by injection Hother as <-.
  - rewrite lookup_app_l in Hother by lia. apply (Hn k other); [lia|done].
Qed.

Lemma greeted_now lines line : greets line -> greeted_before (lines ++ [line]) (length (lines ++ [line])).
Proof.
  intros Hg. exists (length lines), line. rewrite length_app. cbn [length].
  split_and!; [lia|by rewrite list_lookup_middle|done|]. intros; lia.
Qed.

Lemma earned_app lines more payload : earned lines payload -> earned (lines ++ more) payload.
Proof.
  intros (j & line & Hl & Ha & Hg). exists j, line. pose proof (lookup_lt_Some _ _ _ Hl).
  split_and!; [rewrite lookup_app_l; [done|lia]|done|]. apply greeted_before_app; [lia|done].
Qed.

Lemma settled_ok lines more c :
  settled c = true -> conversation_ok lines c -> conversation_ok (lines ++ more) c.
Proof.
  intros Hs [Ho _ Hr]. split; [done| |].
  - intros E. unfold settled in Hs. by rewrite E in Hs.
  - intros payload E. by apply earned_app, Hr.
Qed.

Lemma finish_ok lines result c :
  conversation_ok lines c -> (forall payload, settled c = false -> result = cx_ok payload -> earned lines payload) ->
  conversation_ok lines (finish result c).
Proof.
  intros Hc Hr. unfold finish. destruct (settled c) eqn:E; [done|]. split; [apply Hc|done|].
  cbn [cv_result]. intros payload [= ->]. by apply Hr.
Qed.

Lemma finish_failed_ok lines reason c :
  conversation_ok lines c -> conversation_ok lines (finish (cx_failed reason) c).
Proof. intros Hc. by apply finish_ok. Qed.

Lemma send_ok lines message c :
  conversation_ok lines c -> message = initialized_message \/ message = read_message ->
  conversation_ok lines (send message c).2.
Proof.
  intros [Hs Hg Hr] Hm. unfold send. destruct (settled c || _); [by split|]. split; [|exact Hg|exact Hr].
  cbn [snd cv_sent]. apply Forall_app. split; [exact Hs|]. apply Forall_singleton. tauto.
Qed.

Lemma judge_result_ok line message payload :
  json_parse line = Some (JObj message) -> is_number (get message "id") 1 = true ->
  get message "error" = JUndef -> judge_result (get message "result") = cx_ok payload ->
  answered_by payload line.
Proof.
  intros Ep Ei Ee Ej. exists message. split_and!; try done; unfold judge_result in Ej;
    destruct (get message "result") as [| | | | | |fields]; try done; cbn [record_of] in Ej;
    destruct (isRecord (get fields "rateLimits")) eqn:El; try done; cbn [negb] in Ej.
  - destruct (get fields "accountId"); try (by injection Ej as ->); try done.
    all: cbn [validAccountId as_string] in Ej; try done.
    destruct (_ && _ && _); [|done]. destruct (str_eqb _ _); [|done]. by injection Ej as ->.
  - destruct (get fields "accountId"); try (by injection Ej as <-); try done.
    all: cbn [validAccountId as_string] in Ej; try done.
    destruct (_ && _ && _); [|done]. destruct (str_eqb _ _); [|done]. by injection Ej as <-.
  - destruct (get fields "accountId") as [| | | |id| |] eqn:Ea.
    1,2: injection Ej as <-; rewrite Ea; tauto.
    all: unfold validAccountId in Ej; cbn [as_string] in Ej; try done.
    destruct (_ && _ && _); [|done]. destruct (str_eqb _ _) eqn:Eq; [|done]. injection Ej as <-.
    right; right. exists id. split; [done|]. by apply str_eqb_true.
Qed.

(** A line that settles nothing leaves what is known. *)
Lemma skipped_ok lines line c :
  settled c = false -> conversation_ok lines c -> (cv_initialized c = true -> ~ answers line) ->
  conversation_ok (lines ++ [line]) c.
Proof.
  intros Hs [Ho Hg Hr] Hn. split; [done| |].
  - intros E Hi. apply greeted_before_more; [by apply Hg|by apply Hn].
  - intros payload E. by apply earned_app, Hr.
Qed.

(** A line that ends the conversation in failure. *)
Lemma failed_ok lines line reason c :
  settled c = false -> conversation_ok lines c -> conversation_ok (lines ++ [line]) (finish (cx_failed reason) c).
Proof.
  intros Hs Hc. unfold finish. rewrite Hs. by split; [apply Hc| |].
Qed.

Lemma greeting_ok lines line c :
  settled c = false -> conversation_ok lines c -> greets line ->
  conversation_ok (lines ++ [line])
    (let '(wrote, c) := send initialized_message (set_initialized c) in
     if wrote then (send read_message c).2 else c).
Proof.
  intros Hs Hc Hg.
  assert (Hi : conversation_ok (lines ++ [line]) (set_initialized c)).
  { split; [apply Hc|intros _ _; by apply greeted_now|]. intros payload E.
    apply settled_result in E. change (settled c = true) in E. by rewrite Hs in E. }
  pose proof (send_ok _ initialized_message _ Hi (or_introl eq_refl)) as H1.
  destruct (send initialized_message (set_initialized c)) as [wrote c1]. cbn [snd] in H1.
  destruct wrote; [|done]. apply send_ok; [done|by right].
Qed.

Lemma handle_ok lines line c :
  settled c = false -> conversation_ok lines c -> conversation_ok (lines ++ [line]) (handle line c).
Proof.
  intros Hs Hc. unfold handle. destruct (json_parse line) as [message|] eqn:Ep; [|by apply failed_ok].
  destruct (record_of message) as [fields|] eqn:Er.
  2:{ apply skipped_ok; [done..|]. intros _ (fields & E & _). by rewrite Ep in E; injection E as ->. }
  assert (message = JObj fields) as -> by (destruct message; try done; by injection Er as ->).
  destruct (is_number (get fields "id") 0) eqn:E0.
  { destruct (isRecord (get fields "error") || negb (isRecord (get fields "result"))) eqn:E1; [by apply failed_ok|].
    apply orb_false_iff in E1 as [E1 E2%negb_false_iff]. apply greeting_ok; [done..|]. by exists fields. }
  destruct (is_number (get fields "id") 1) eqn:Ei; cbn [negb orb].
  2:{ apply skipped_ok; [done..|]. intros _ (other & E & Eo). rewrite Ep in E. injection E as <-.
      by rewrite Ei in Eo. }
  destruct (cv_initialized c) eqn:Einit; cbn [negb]; [|by apply skipped_ok; [..|intros [=]%(eq_trans (eq_sym Einit))]].
  destruct (is_undef (get fields "error")) eqn:Ee; cbn [negb]; [|by apply failed_ok].
  unfold finish. rewrite Hs. split; [apply Hc|done|]. cbn [cv_result]. intros payload [= Ej].
  exists (length lines), line. split_and!; [by rewrite list_lookup_middle| |].
  - eapply judge_result_ok; try done. by destruct (get fields "error").
  - apply greeted_before_app; [done|]. apply (co_greeted _ _ Hc); [by apply not_settled|done].
Qed.

Lemma handle_line_ok lines line c :
  settled c = false -> conversation_ok lines c ->
  conversation_ok (lines ++ [strip_return line]) (handle_line line c).
Proof.
  unfold handle_line. intros Hs Hc. destruct (str_eqb (strip_return line) "") eqn:E; [|by apply handle_ok].
  apply str_eqb_true in E as ->. apply skipped_ok; [done..|]. by intros _ (message & Ep & _).
Qed.

Lemma set_buffered_ok lines s c : conversation_ok lines c -> conversation_ok lines (set_buffered s c).
Proof. intros [Hs Hg Hr]. by split. Qed.

(** *** The lines of a text *)

Lemma is_newline d : Ascii.eqb d (chr 10) = (code d =? 10).
Proof.
  destruct (Ascii.eqb_spec d (chr 10)) as [->|Hne]; [done|]. symmetry. apply Z.eqb_neq. intros E.
  apply Hne. unfold chr. rewrite <- E. unfold code. by rewrite N2Z.id, Ascii.ascii_N_embedding.
Qed.

Lemma split_on_some sep text acc : exists first lines, split_on sep text acc = first :: lines.
Proof.
  revert acc. induction text as [|d text IH]; intros acc; cbn [split_on]; [eauto|].
  destruct (Ascii.eqb d sep); [eauto|apply IH].
Qed.

Lemma split_on_app sep a b acc :
  split_on sep (a +:+ b) acc =
  removelast (split_on sep a acc) ++ split_on sep b (default "" (last (split_on sep a acc))).
Proof.
  revert acc. induction a as [|d a IH]; intros acc; [done|].
  change (String d a +:+ b) with (String d (a +:+ b)). cbn [split_on].
  destruct (Ascii.eqb d sep); [|apply IH]. rewrite IH.
  by destruct (split_on_some sep a "") as (first & lines & ->).
Qed.

(** The part after the last line break. *)
Definition unended (text : string) : string := default "" (last (split_on (chr 10) text "")).

Lemma no_newline_unended text acc :
  no_newline acc = true -> no_newline (default "" (last (split_on (chr 10) text acc))) = true.
Proof.
  revert acc. induction text as [|d text IH]; intros acc Hacc; cbn [split_on]; [done|].
  rewrite is_newline. destruct (code d =? 10) eqn:E.
  - specialize (IH "" eq_refl). by destruct (split_on_some (chr 10) text "") as (first & lines & El); rewrite El in *.
  - apply IH. unfold no_newline in *. rewrite str_forall_app, Hacc. cbn [str_forall]. by rewrite E.
Qed.

Lemma removelast_app_cons {A} (l : list A) x m : removelast (l ++ x :: m) = l ++ removelast (x :: m).
Proof. by rewrite removelast_app. Qed.

Lemma whole_lines_app text more :
  whole_lines (text +:+ more) =
  whole_lines text ++ map strip_return (removelast (split_on (chr 10) more (unended text))).
Proof.
  unfold whole_lines, unended. rewrite split_on_app, <- map_app.
  destruct (split_on_some (chr 10) more (default "" (last (split_on (chr 10) text "")))) as (first & lines & ->).
  by rewrite removelast_app_cons.
Qed.

Lemma unended_app text more : unended (text +:+ more) = default "" (last (split_on (chr 10) more (unended text))).
Proof.
  unfold unended at 1. rewrite split_on_app. fold (unended text).
  destruct (split_on_some (chr 10) more (unended text)) as (first & lines & ->). by rewrite last_app_cons.
Qed.

Lemma drain_ok lines line rest c :
  settled c = false -> conversation_ok lines c ->
  conversation_ok (lines ++ map strip_return (removelast (split_on (chr 10) rest line))) (drain line rest c) /\
  (settled (drain line rest c) = false ->
   cv_buffered (drain line rest c) = default "" (last (split_on (chr 10) rest line))).
Proof.
  revert lines line c. induction rest as [|d rest IH]; intros lines line c Hs Hc; cbn [drain split_on].
  { cbn. rewrite app_nil_r. split; [by apply set_buffered_ok|done]. }
  rewrite is_newline. destruct (code d =? 10); [|by apply IH].
  pose proof (handle_line_ok lines line c Hs Hc) as Hh.
  destruct (split_on_some (chr 10) rest "") as (first & more & El).
  destruct (settled (handle_line line c)) eqn:E.
  - split; [|by rewrite settled_buffered, E]. apply set_buffered_ok. rewrite El.
    change (removelast (line :: first :: more)) with (line :: removelast (first :: more)).
    cbn [map]. rewrite cons_middle, app_assoc. by apply settled_ok.
  - destruct (IH _ "" _ E Hh) as [Hok Hbuf]. rewrite El in *. split; [|exact Hbuf].
    rewrite <- app_assoc in Hok. exact Hok.
Qed.

(** Where the conversation stands once [text] was written. *)
Definition stands (text : string) (c : Conversation) : Prop :=
  conversation_ok (whole_lines text) c /\ (settled c = false -> cv_buffered c = unended text).

Lemma stands_finish text reason c : stands text c -> stands text (finish (cx_failed reason) c).
Proof.
  intros [Hc Hb]. split; [by apply finish_failed_ok|]. unfold finish. destruct (settled c) eqn:E; [|done].
  by rewrite E.
Qed.

Lemma stands_data text chunk c : stands text c -> stands (text +:+ chunk) (on_data chunk c).
Proof.
  intros [Hc Hb]. unfold on_data. destruct (settled c) eqn:Es.
  { split; [|by rewrite Es]. rewrite whole_lines_app. by apply settled_ok. }
  assert (Ha : conversation_ok (whole_lines text) (add_received (byte_length chunk) c)) by (by destruct Hc).
  destruct (_ <? _).
  - unfold finish. change (settled (add_received (byte_length chunk) c)) with (settled c). rewrite Es.
    split; [|done]. rewrite whole_lines_app.
    apply settled_ok; [done|]. by destruct Hc.
  - cbn [add_received cv_buffered]. rewrite (Hb eq_refl).
    rewrite drain_line by (by apply no_newline_unended).
    change ("" +:+ unended text) with (unended text). unfold stands. rewrite whole_lines_app, unended_app.
    by apply drain_ok.
Qed.

Lemma stands_opening : stands "" opening.
Proof. split; [|done]. split; [apply Forall_singleton; by left|done|done]. Qed.

Lemma written_snoc events e :
  written (events ++ [e]) = written events +:+ match e with child_data chunk => chunk | _ => "" end.
Proof.
  unfold written. rewrite flat_map_app. cbn [flat_map]. rewrite app_nil_r.
  induction (flat_map _ events) as [|x l IH]; [by destruct e|].
  cbn [app]. rewrite !join_cons_nil, IH. by rewrite str_app_assoc.
Qed.

Lemma events_stand events : stands (written events) (foldl on_event opening events).
Proof.
  induction events as [|e events IH] using rev_ind; [apply stands_opening|].
  rewrite foldl_snoc, written_snoc. destruct e; rewrite ?str_app_nil_r; try (by apply stands_finish).
  - by apply stands_data.
  - destruct IH as [[] Hb]. by split.
Qed.

(** C34: a conversation only reads, and believes one answer. Whatever the app
    server writes and whenever it fails, it is sent nothing but the greeting
    and the question. A success is a whole line of its output that answers the
    question, without an error and with rate limits: the first such answer
    after a whole line that answered the greeting. It states the expected
    account or none: an answer that states none is believed for the login
    whose home the server was started in. What settled the conversation is
    never changed. *)
Theorem a_conversation_believes_one_answer events more :
  let c := foldl on_event opening events in
  only_reads (cv_sent c) /\
  match cv_result c with
  | Some (cx_ok payload) => earned (whole_lines (written events)) payload
  | _ => True
  end /\
  match cv_result c with
  | Some r => cv_result (foldl on_event c more) = Some r
  | None => True
  end.
Proof.
  intros c. destruct (events_stand events) as [Hc _]. fold c in Hc. split; [apply Hc|]. split.
  - destruct (cv_result c) as [[payload|]|] eqn:E; try done. by apply (co_result _ c Hc).
  - destruct (cv_result c) as [r|] eqn:E; [|done]. by apply events_settled.
Qed.
End Codex.

(** [codexAppServerAcquisitionReply]; [None]: it throws. *)
Definition codexAppServerAcquisitionReply (result : CodexRateLimitsReadResult) :
    option AcquisitionReply :=
  match result with
  | cx_ok payload => Some (reply_of 200 (text_of (JObj payload)) None)
  | cx_failed cx_needs_sign_in => Some (reply_of 401 "" None)
  | cx_failed cx_identity_mismatch =>
      Some {| ry_status := 409; ry_body := None; ry_retryAfterSeconds := None;
              ry_outcome := Some oc_identity_refused; ry_missingCredential := false |}
  | cx_failed cx_missing_executable =>
      Some {| ry_status := 0; ry_body := None; ry_retryAfterSeconds := None; ry_outcome := None;
              ry_missingCredential := true |}
  | cx_failed _ => None
  end.

(** ** Witness *)

Definition sample_output : string :=
  default "" (stringify (JObj [("id", JNum (int 0)); ("result", JObj [])])) +:+ String (chr 10) "" +:+
  default "" (stringify (JObj [("id", JNum (int 1)); ("result", JObj [("rateLimits", JObj [])])])) +:+
  String (chr 13) (String (chr 10) "").

(** Cut inside the first message and inside the last line break. *)
Definition sample_chunks : list string :=
  [str_take 7 sample_output; ""; str_drop 7 (str_take (str_length sample_output - 1) sample_output);
   String (chr 10) ""].

Lemma the_cut_into_chunks_is_immaterial_witness :
  cv_result (foldl (on_event (H := plain_crypto) "x") opening (map child_data sample_chunks)) =
  Some (cx_ok [("rateLimits", JObj [])]).
Proof.
  destruct (the_cut_into_chunks_is_immaterial (H := plain_crypto) "x" sample_chunks) as [-> _].
  - vm_compute. discriminate.
  - vm_compute. reflexivity.
Defined.

(** What an answer is, for the witness of a conversation. *)
Definition believed_sample : list (string * jsval) := [("rateLimits", JObj [])].

Lemma a_conversation_believes_one_answer_witness :
  cv_result (foldl (on_event (H := plain_crypto) "x") opening (map child_data sample_chunks)) =
    Some (cx_ok believed_sample) /\
  earned (H := plain_crypto) "x" (whole_lines (written (map child_data sample_chunks))) believed_sample.
Proof.
  assert (E : cv_result (foldl (on_event (H := plain_crypto) "x") opening (map child_data sample_chunks)) =
    Some (cx_ok believed_sample)) by (vm_compute; reflexivity).
  split; [exact E|].
  pose proof (a_conversation_believes_one_answer (H := plain_crypto) "x" (map child_data sample_chunks) [])
    as (_ & Hearned & _).
  rewrite E in Hearned. exact Hearned.
Defined.
