(* ===== verification/Providers.v ===== *)
(** * What each provider is asked

    [providers.ts]: one specification per provider, its requests in order and
    the sentences its row carries. The parsers belong to the connectors and
    are parameters here, as they are in the source. *)
From S2P Require Import Prelude JsNum JsDate JsValue Text Types Json JsonText ReadBack.
From S2P Require Import Identity Cadence Attempt Transport CodexServer.
Local Open Scope string_scope.
Local Open Scope Z_scope.
Local Open Scope list_scope.
Local Open Scope js_scope.

(** ** Words *)

Definition disclosure_claude : string :=
  "polls Anthropic with the token Claude Code stored on this machine, only once you turn it on".
Definition disclosure_codex : string :=
  "reads the login the Codex CLI stored, may break when OpenAI changes it".
Definition disclosure_gemini : string :=
  "reads the login the Gemini CLI stored, may break when Google changes it".
Definition disclosure_grok : string :=
  "reads the login the Grok CLI stored, without the client marker xAI's own tool sends, " +:+
  "so this request is verified on the first install that has a Grok login".
Definition disclosure_kimi : string :=
  "reads the login the Kimi CLI stored, may break when Moonshot changes it".
Definition disclosure_openrouter : string :=
  "reads OpenRouter's documented key report with your own key".

Definition CODE_ASSIST_PROJECT_FIELD : string := "cloudaicompanionProject".
Definition CODE_ASSIST_TIERS_FIELD : string := "allowedTiers".

Definition CODE_ASSIST_IDENTITY_SENTENCE : string :=
  "Google answers this quota only to its own tools, so it is read here only " +:+
  "when another tool on this machine has written it".
Definition GEMINI_CLI_CONSUMER_RETIRED_NOTE : string :=
  "Google ended Gemini CLI sign in for this plan on June 18, 2026.".

Definition GEMINI_CLI_RETIRED_TIER_IDS : list string := ["free-tier"; "g1-pro-tier"; "g1-ultra-tier"].

(** ** The Code Assist bootstrap *)

Definition tierId (value : jsval) : option string :=
  let? fields := record_of value in as_string (get fields "id").

Definition isRetiredGeminiCliTier (value : jsval) : bool :=
  match record_of value with
  | None => false
  | Some fields =>
      bool_decide (default "" (orElse (tierId (get fields "paidTier")) (tierId (get fields "currentTier")))
        ∈ GEMINI_CLI_RETIRED_TIER_IDS)
  end.

Definition codeAssistSentences (outcome : AcquisitionOutcome) : option string :=
  match outcome with
  | oc_identity_refused => Some CODE_ASSIST_IDENTITY_SENTENCE
  | oc_quota_unavailable => Some GEMINI_CLI_CONSUMER_RETIRED_NOTE
  | _ => None
  end.

Section Providers.
Context `{CryptoHost}.

(** A parser, its [null] and its throw. *)
Definition PayloadParser : Type := jsval -> string -> list jsval -> option (option (list jsval)).

Definition Spec : Type := AcquisitionSpec AcquisitionRequest.
Definition Step : Type := AcquisitionStep AcquisitionRequest.

(** A step that makes a request or answers [null]; none throws. *)
Definition asks (request : option HttpAcquisitionRequest) :
    option (option (AcquisitionStepResult AcquisitionRequest)) :=
  Some ((fun r => step_request (http_request r)) <$> request).

Definition load_step : Step := fun credential _ => asks (codeAssistLoadRequest (cd_secret credential)).

Definition quota_step (retireConsumerTiers : bool) : Step := fun credential previous =>
  match record_of (default JUndef (previous !! 0%nat)) with
  | None => Some None
  | Some bootstrap =>
      if retireConsumerTiers && isRetiredGeminiCliTier (JObj bootstrap)
      then Some (Some (step_stop oc_quota_unavailable))
      else
        match get bootstrap CODE_ASSIST_PROJECT_FIELD with
        | JStr project => asks (codeAssistQuotaRequest (cd_secret credential) project)
        | _ =>
            match get bootstrap CODE_ASSIST_TIERS_FIELD with
            | JArr _ => Some (Some (step_stop oc_identity_refused))
            | _ => Some None
            end
        end
  end.

Definition codeAssistSteps (retireConsumerTiers : bool) : list Step :=
  [load_step; quota_step retireConsumerTiers].

(** ** The specifications *)

(** What most of them share. *)
Definition spec_with (provider : ProviderCode) (steps : list Step) (parse : PayloadParser)
    (disclosure : string) : Spec :=
  {| spec_provider := provider; spec_steps := steps; spec_optionalFrom := None; spec_parse := parse;
     spec_complete := None; spec_disclosure := Some disclosure; spec_enabled := true;
     spec_disabledReason := None; spec_accountIdFor _ := None; spec_disclosureFor _ := None;
     spec_accountLabelFor _ := None; spec_outcomeSentence _ := None |}.

Definition claudeSpec (parse : PayloadParser) (enabled : bool)
    (complete : option (jsval -> string -> option bool)) : Spec :=
  {| spec_provider := CLAUDE;
     spec_steps := [fun credential _ => asks (claudeUsageRequest (cd_secret credential))];
     spec_optionalFrom := None; spec_parse := parse; spec_complete := complete;
     spec_disclosure := Some disclosure_claude; spec_enabled := enabled;
     spec_disabledReason :=
       Some "the Anthropic poll is off, so this shows what Claude Code last reported";
     spec_accountIdFor _ := None; spec_disclosureFor _ := None; spec_accountLabelFor _ := None;
     spec_outcomeSentence _ := None |}.

Definition codex_step : Step := fun credential _ =>
  match cd_accountId credential, cd_codexHome credential, cd_executable credential with
  | Some _, Some codexHome, Some executable =>
      Some ((fun r => step_request (codex_app_server r)) <$>
            codexAppServerRequest executable codexHome (acquisitionAccountId CODEX credential))
  | _, _, _ => Some None
  end.

Definition codexSpec (parse : PayloadParser) : Spec := spec_with CODEX [codex_step] parse disclosure_codex.

Definition cursorAccountId (authId : string) : string := opaqueAccountId CURSOR authId.

Definition cursorSpec (parse : PayloadParser) : Spec :=
  {| spec_provider := CURSOR;
     spec_steps := [fun credential _ =>
       asks (authId ← cd_accountId credential; cursorUsageRequest (cd_secret credential) authId)];
     spec_optionalFrom := None; spec_parse := parse; spec_complete := None;
     spec_disclosure := Some "Experimental: parser tested on fixtures; live acquisition unverified";
     spec_enabled := true; spec_disabledReason := None;
     spec_accountIdFor credential := cursorAccountId <$> cd_accountId credential;
     spec_disclosureFor _ := None; spec_accountLabelFor _ := None; spec_outcomeSentence _ := None |}.

Definition geminiCliSpec (parse : PayloadParser) : Spec :=
  {| spec_provider := GEMINI_CLI; spec_steps := codeAssistSteps true; spec_optionalFrom := None;
     spec_parse := parse; spec_complete := None; spec_disclosure := Some disclosure_gemini;
     spec_enabled := true; spec_disabledReason := None; spec_accountIdFor _ := None;
     spec_disclosureFor _ := None; spec_accountLabelFor _ := None;
     spec_outcomeSentence := codeAssistSentences |}.

Definition grokSpec (parse : PayloadParser) : Spec :=
  spec_with GROK
    [fun credential _ => asks (grokBillingRequest (cd_secret credential) (cd_accountId credential))]
    parse disclosure_grok.

Definition kimiSpec (parse : PayloadParser) : Spec :=
  spec_with KIMI [fun credential _ => asks (kimiUsageRequest (cd_secret credential))] parse disclosure_kimi.

Definition openrouterSpec (parse : PayloadParser) : Spec :=
  {| spec_provider := OPENROUTER;
     spec_steps := [fun credential _ => asks (openrouterKeyRequest (cd_secret credential));
                    fun credential _ => asks (openrouterCreditsRequest (cd_secret credential))];
     spec_optionalFrom := Some 1%nat; spec_parse := parse; spec_complete := None;
     spec_disclosure := Some disclosure_openrouter; spec_enabled := true; spec_disabledReason := None;
     spec_accountIdFor _ := None; spec_disclosureFor _ := None; spec_accountLabelFor _ := None;
     spec_outcomeSentence _ := None |}.

(** Every specification, whatever parsers the caller wires in. *)
Inductive provided : Spec -> Prop :=
  | provided_claude parse enabled complete : provided (claudeSpec parse enabled complete)
  | provided_codex parse : provided (codexSpec parse)
  | provided_cursor parse : provided (cursorSpec parse)
  | provided_gemini parse : provided (geminiCliSpec parse)
  | provided_grok parse : provided (grokSpec parse)
  | provided_kimi parse : provided (kimiSpec parse)
  | provided_openrouter parse : provided (openrouterSpec parse).

(** ** Whom a login is sent to *)

(** The addresses of each provider's own services. *)
Definition own_addresses (p : ProviderCode) : list string :=
  match p with
  | CLAUDE => [CLAUDE_OAUTH_USAGE_URL]
  | CURSOR => [CURSOR_USAGE_URL]
  | GEMINI_CLI => [GEMINI_CLI_LOAD_URL; GEMINI_CLI_QUOTA_URL]
  | GROK => [GROK_USAGE_URL]
  | KIMI => [KIMI_USAGE_URL]
  | OPENROUTER => [OPENROUTER_KEY_URL; OPENROUTER_CREDITS_URL]
  | _ => []
  end.

Lemma asks_request request r :
  asks request = Some (Some (step_request (http_request r))) -> request = Some r.
Proof. unfold asks. destruct request as [r'|]; [|done]. intros [= ->]. done. Qed.

Lemma asks_no_stop request outcome : asks request <> Some (Some (step_stop outcome)).
Proof. unfold asks. by destruct request. Qed.

Lemma asks_no_codex request r : asks request <> Some (Some (step_request (codex_app_server r))).
Proof. unfold asks. by destruct request. Qed.

Lemma request_to_url id method headers body : rq_url (request_to id method headers body) = endpoint_url id.
Proof. done. Qed.

(** A builder's request goes to the entry it names. *)
Lemma built_url (b : bool) id method headers body r :
  (if b then Some (request_to id method headers body) else None) = Some r -> rq_url r = endpoint_url id.
Proof. destruct b; [|done]. intros E. apply (inj Some) in E. by subst r. Qed.

Lemma quota_request_url secret project r :
  codeAssistQuotaRequest secret project = Some r -> rq_url r = GEMINI_CLI_QUOTA_URL.
Proof.
  unfold codeAssistQuotaRequest. destruct (usableHeaderSecret secret); [|done]. apply built_url.
Qed.

Lemma quota_step_request retire credential previous r :
  quota_step retire credential previous = Some (Some (step_request (http_request r))) ->
  exists project, codeAssistQuotaRequest (cd_secret credential) project = Some r.
Proof.
  unfold quota_step. destruct (record_of _) as [bootstrap|]; [|done].
  destruct (retire && _); [done|].
  destruct (get bootstrap CODE_ASSIST_PROJECT_FIELD) as [| | | |project| |];
    try (by destruct (get bootstrap CODE_ASSIST_TIERS_FIELD)).
  intros E%asks_request. by exists project.
Qed.

(** C31: a login is sent to its own provider alone. Whatever is on disk and
    whatever a provider answered before, every request a specification makes
    with a login passes the boundary check and goes to an address of that very
    provider; a local app server is asked for Codex alone. *)
Theorem a_login_goes_only_to_its_provider spec step credential previous request :
  provided spec -> step ∈ spec_steps spec ->
  step credential previous = Some (Some (step_request request)) ->
  match request with
  | http_request r => validAcquisitionRequest r = true /\ rq_url r ∈ own_addresses (spec_provider spec)
  | codex_app_server _ => spec_provider spec = CODEX
  end.
Proof.
  intros Hp Hstep E. destruct Hp; cbn [claudeSpec codexSpec cursorSpec geminiCliSpec grokSpec kimiSpec
    openrouterSpec spec_with spec_steps spec_provider own_addresses] in *;
    unfold codeAssistSteps in *;
    rewrite ?elem_of_cons, ?elem_of_nil in Hstep;
    destruct_or?; subst; try done; destruct request as [r|c];
    try (by apply asks_no_codex in E); try done.
  - apply asks_request in E. split; [by eapply every_built_request_may_leave, built_claude|].
    apply built_url in E. rewrite E. left.
  - exfalso. unfold codex_step in E. repeat case_match; try done.
    destruct (codexAppServerRequest _ _ _); done.
  - apply asks_request in E. destruct (cd_accountId credential) as [authId|]; [|done].
    cbn [mbind option_bind] in E. split; [by eapply every_built_request_may_leave, built_cursor|].
    apply built_url in E. rewrite E. left.
  - apply asks_request in E. split; [by eapply every_built_request_may_leave, built_load|].
    apply built_url in E. rewrite E. left.
  - apply quota_step_request in E as [project E].
    split; [by eapply every_built_request_may_leave, built_quota|].
    apply quota_request_url in E. rewrite E. right. left.
  - exfalso. unfold quota_step in E. repeat case_match; try done; by apply asks_no_codex in E.
  - apply asks_request in E. split; [by eapply every_built_request_may_leave, built_grok|].
    apply built_url in E. rewrite E. left.
  - apply asks_request in E. split; [by eapply every_built_request_may_leave, built_kimi|].
    apply built_url in E. rewrite E. left.
  - apply asks_request in E. split; [by eapply every_built_request_may_leave, built_key|].
    apply built_url in E. rewrite E. left.
  - apply asks_request in E. split; [by eapply every_built_request_may_leave, built_credits|].
    apply built_url in E. rewrite E. right. left.
Qed.

(** ** Steps are honest *)

(** No specification stops a read by calling it a success, which is what the
    attempt relies on. *)
Lemma provider_steps_are_honest spec : provided spec -> honest_steps spec.
Proof.
  intros Hp. unfold honest_steps. rewrite Forall_forall. intros step Hstep credential previous E.
  destruct Hp; cbn [claudeSpec codexSpec cursorSpec geminiCliSpec grokSpec kimiSpec
    openrouterSpec spec_with spec_steps] in *; unfold codeAssistSteps in *;
    rewrite ?elem_of_cons, ?elem_of_nil in Hstep;
    destruct_or?; subst; try done; try (by apply asks_no_stop in E).
  - unfold codex_step in E. repeat case_match; try done. by destruct (codexAppServerRequest _ _ _).
  - unfold quota_step in E. repeat case_match; try done; by apply asks_no_stop in E.
Qed.

(** ** The two Code Assist steps *)

(** How a quota step ends, by what the bootstrap said. *)
Inductive Bootstrap := bs_unread | bs_retired | bs_project (project : string) | bs_withheld | bs_unknown.

Definition bootstrap_of (retire : bool) (v : jsval) : Bootstrap :=
  match record_of v with
  | None => bs_unread
  | Some fields =>
      if retire && isRetiredGeminiCliTier v then bs_retired
      else
        match get fields CODE_ASSIST_PROJECT_FIELD, get fields CODE_ASSIST_TIERS_FIELD with
        | JStr project, _ => bs_project project
        | _, JArr _ => bs_withheld
        | _, _ => bs_unknown
        end
  end.

Lemma quota_step_bootstrap retire credential body :
  quota_step retire credential [body] =
  match bootstrap_of retire body with
  | bs_unread | bs_unknown => Some None
  | bs_retired => Some (Some (step_stop oc_quota_unavailable))
  | bs_withheld => Some (Some (step_stop oc_identity_refused))
  | bs_project project => asks (codeAssistQuotaRequest (cd_secret credential) project)
  end.
Proof.
  unfold quota_step, bootstrap_of. cbn [lookup list_lookup default].
  destruct body as [| | | | | |fields]; try done. cbn [record_of from_option id].
  destruct (retire && _); [done|].
  destruct (get fields CODE_ASSIST_PROJECT_FIELD); try done; by destruct (get fields CODE_ASSIST_TIERS_FIELD).
Qed.

(** A reply that was understood. *)
Definition understood (reply : AcquisitionReply) (body : jsval) : Prop := judge_reply reply = inr body.

(** What the reply to the second request makes of a read that was given
    [body] first: a reply that was refused ends it, one that was understood is
    read together with [body]. *)
Definition quota_verdict (parse : PayloadParser) (now : string) (body : jsval) (reply : AcquisitionReply) :
    Attempt :=
  let retry := ry_retryAfterSeconds reply in
  match judge_reply reply with
  | inl refused => refused
  | inr quota =>
      match parse quota now [body; quota] with
      | None | Some None | Some (Some []) => failed_attempt oc_drift retry ph_parse
      | Some (Some meters) =>
          {| at_outcome := oc_ok; at_meters := meters; at_retryAfterSeconds := retry; at_complete := None;
             at_phase := None; at_expiredCredentials := false; at_missingCredential := false |}
      end
  end.

(** How a read ends that asked the network for [r] as its second request. *)
Definition quota_asked (parse : PayloadParser) (leased : bool) (world : AttemptWorld AcquisitionRequest)
    (now : string) (body : jsval) (r : HttpAcquisitionRequest) : option Attempt :=
  match aw_reply world 1 (http_request r) with
  | None => Some (failed_attempt oc_transport None ph_request)
  | Some reply =>
      match aw_answeredAt world 1, owned leased (aw_ownedAfter world 1) with
      | None, _ | _, None => None
      | _, Some false => Some (failed_attempt oc_transport None ph_request)
      | _, Some true => Some (quota_verdict parse now body reply)
      end
  end.

(** C32: what a Gemini login's plan says decides the read. Once the bootstrap
    was answered with a body that was understood, while the login and the lease
    still hold, the read ends as that body says: a retired plan as one, a
    withheld project as a refusal of this client, both without a second
    request; anything without project and tiers as drift, and so does a
    project whose name is malformed. A well-formed project is asked for its
    quota, with its name as the body and at the quota address, and that reply
    alone decides: a refusal ends the read, and what was understood is read
    together with the bootstrap. *)
Theorem a_bootstrap_decides_the_read parse credential leased world now at0 at1 r0 reply answered body :
  usableHeaderSecret (cd_secret credential) = true ->
  aw_at world 0 = Some at0 -> credentialExpired credential at0 = false ->
  owned leased (aw_owned world 0) = Some true ->
  codeAssistLoadRequest (cd_secret credential) = Some r0 ->
  aw_reply world 0 (http_request r0) = Some reply -> aw_answeredAt world 0 = Some answered ->
  owned leased (aw_ownedAfter world 0) = Some true -> understood reply body ->
  aw_at world 1 = Some at1 -> credentialExpired credential at1 = false ->
  owned leased (aw_owned world 1) = Some true ->
  let result := attempt (geminiCliSpec parse) credential leased world now in
  let retry := ry_retryAfterSeconds reply in
  match bootstrap_of true body with
  | bs_unread | bs_unknown => result = Some (failed_attempt oc_drift None ph_request)
  | bs_retired => result = Some (failed_attempt oc_quota_unavailable retry ph_request)
  | bs_withheld => result = Some (failed_attempt oc_identity_refused retry ph_request)
  | bs_project project =>
      if CODE_ASSIST_PROJECT_PATTERN project then
        exists r1, codeAssistQuotaRequest (cd_secret credential) project = Some r1 /\
          rq_url r1 = GEMINI_CLI_QUOTA_URL /\ rq_body r1 = stringify (quota_body project) /\
          result = quota_asked parse leased world now body r1
      else result = Some (failed_attempt oc_drift None ph_request)
  end.
Proof.
  intros Hsecret Hat0 Hexp0 Hown0 Hr0 Hreply Hans Hafter Hbody Hat1 Hexp1 Hown1 result retry.
  assert (E : (quota_step true credential [body] = Some None ->
      result = Some (failed_attempt oc_drift None ph_request)) /\
    (forall outcome, quota_step true credential [body] = Some (Some (step_stop outcome)) ->
      result = Some (failed_attempt outcome retry ph_request)) /\
    (forall r1, quota_step true credential [body] = Some (Some (step_request (http_request r1))) ->
      result = quota_asked parse leased world now body r1)).
  { split_and!; [intros Eq|intros outcome Eq|intros r1 Eq]; unfold result, attempt;
      cbn [geminiCliSpec spec_steps codeAssistSteps attempt_steps];
      change (is_optional _ 0 []) with false; rewrite Hat0, Hexp0, Hown0;
      unfold load_step; rewrite Hr0; cbn [asks fmap option_fmap option_map];
      rewrite Hreply, Hans, Hafter, Hbody; cbn [app];
      change (is_optional _ 1 [body]) with false; rewrite Hat1, Hexp1, Hown1, Eq; try done.
    unfold quota_asked, quota_verdict. destruct (aw_reply world 1 (http_request r1)) as [second|]; [|done].
    destruct (aw_answeredAt world 1), (owned leased (aw_ownedAfter world 1)) as [[]|]; try done.
    destruct (judge_reply second) as [refused|quota]; [done|].
    cbn [app last default from_option id geminiCliSpec spec_parse spec_complete].
    by destruct (parse quota now [body; quota]) as [[[]|]|]. }
  destruct E as (Enull & Estop & Easked). rewrite quota_step_bootstrap in Enull, Estop, Easked.
  destruct (bootstrap_of true body) as [| | | |project]; try (by apply Enull); try (by apply Estop).
  unfold asks, codeAssistQuotaRequest in *. rewrite Hsecret in *.
  destruct (CODE_ASSIST_PROJECT_PATTERN project); [|by apply Enull].
  eexists. split_and!; try reflexivity. by apply Easked.
Qed.
End Providers.

(** ** Witnesses *)

Definition sample_parser : PayloadParser := fun _ _ _ => Some None.

Lemma a_login_goes_only_to_its_provider_witness :
  validAcquisitionRequest sample_request = true /\ rq_url sample_request ∈ [KIMI_USAGE_URL].
Proof.
  apply (a_login_goes_only_to_its_provider (H := plain_crypto) (kimiSpec sample_parser)
    (fun credential _ => asks (kimiUsageRequest (cd_secret credential))) sample_credential []
    (http_request sample_request)).
  - apply provided_kimi.
  - left.
  - reflexivity.
Defined.

(** A bootstrap that names a project, and the quota it is given. *)
Definition named_world : AttemptWorld AcquisitionRequest :=
  {| aw_at _ := Some (int 1767225600000); aw_owned _ := Some true;
     aw_reply i _ := Some match i with
       | O => reply_of 200 (text_of (JObj [(CODE_ASSIST_PROJECT_FIELD, JStr "my-project-1")])) None
       | _ => reply_of 200 (text_of (JObj [("buckets", JArr [])])) (Some (int 5))
       end;
     aw_answeredAt _ := Some (int 1767225600000); aw_ownedAfter _ := Some true |}.

Definition buckets_parser : PayloadParser := fun payload _ _ => Some (Some [payload]).

(** The request for that project's quota. *)
Definition named_quota : HttpAcquisitionRequest :=
  default sample_request (codeAssistQuotaRequest "abc" "my-project-1").

Lemma a_bootstrap_decides_the_read_witness :
  exists r1, codeAssistQuotaRequest "abc" "my-project-1" = Some r1 /\
    rq_url r1 = GEMINI_CLI_QUOTA_URL /\ rq_body r1 = stringify (quota_body "my-project-1") /\
    attempt (H0 := plain_crypto) (geminiCliSpec buckets_parser) sample_credential true
      named_world "2026-01-01T00:00:00.000Z" =
    quota_asked buckets_parser true named_world "2026-01-01T00:00:00.000Z"
      (JObj [(CODE_ASSIST_PROJECT_FIELD, JStr "my-project-1")]) r1.
Proof.
  apply (a_bootstrap_decides_the_read (H := plain_crypto) buckets_parser sample_credential true
    named_world "2026-01-01T00:00:00.000Z" (int 1767225600000) (int 1767225600000)
    (request_to "code_assist_load" "POST"
      (bearer "abc" ++ [("content-type", "application/json")]) (Some CODE_ASSIST_LOAD_BODY))
    (reply_of 200 (text_of (JObj [(CODE_ASSIST_PROJECT_FIELD, JStr "my-project-1")])) None)
    (int 1767225600000) (JObj [(CODE_ASSIST_PROJECT_FIELD, JStr "my-project-1")])); vm_compute; reflexivity.
Defined.

(** The quota that comes back is what the parser is given. *)
Example named_quota_read :
  quota_asked buckets_parser true named_world "" JNull named_quota =
  Some {| at_outcome := oc_ok; at_meters := [JObj [("buckets", JArr [])]];
          at_retryAfterSeconds := Some (int 5); at_complete := None; at_phase := None;
          at_expiredCredentials := false; at_missingCredential := false |}.
Proof. vm_compute. reflexivity. Qed.
