(* ===== verification/Connector.v ===== *)
(** * What the connectors share ([packages/connectors/src/shared.ts])

    The guarded reads of a provider's payload, the instants it may state, and
    [rawMeter], with the promise every parser's client relies on: a meter built
    from guarded reads is one the normalizer believes ([rawMeter_believed]).
    [SoundParser] is the interface between a parser and the code that runs it.
    [Number] of a text, which two parsers call, is the language's. *)
From S2P Require Import Prelude JsNum JsDate JsValue Text Types Normalizer Connection.
From S2P Require Import Json JsonText Files.
Local Open Scope string_scope.
Local Open Scope Z_scope.
Local Open Scope list_scope.
Local Open Scope js_scope.

(** ** [Number] of a text *)

Definition digit_of (c : ascii) : option Z :=
  if is_digit c then Some (code c - 48)
  else if is_lower c then Some (code c - 87)
  else if is_upper c then Some (code c - 55)
  else None.

(** A whole number in base 2, 8 or 16. *)
Fixpoint radix_value (base acc : Z) (s : string) : option Z :=
  match s with
  | EmptyString => Some acc
  | String c s' =>
      let? d := digit_of c in
      check d <? base;; radix_value base (acc * base + d) s'
  end.

Definition radix_number (base : Z) (s : string) : num :=
  match s, radix_value base 0 s with
  | String _ _, Some n => round_ratio (n * one) 1
  | _, _ => NaN
  end.

(** [digits [. digits] [exponent]] without a sign, to the end of the text. *)
Definition unsigned_decimal (negative : bool) (s : string) : num :=
  let '(digits, rest) := take_run is_digit s in
  let '(fraction, rest) :=
    match after_unit 46 rest with
    | Some rest => take_run is_digit rest
    | None => ("", rest)
    end in
  if str_eqb digits "" && str_eqb fraction "" then NaN
  else
    match read_exponent rest with
    | Some (exponent, EmptyString) => numeral negative digits fraction exponent
    | _ => NaN
    end.

(** [Number(text)] *)
Definition js_number (text : string) : num :=
  let s := trim text in
  match s with
  | EmptyString => int 0
  | String c rest =>
      let '(negative, signed, unsigned) :=
        if code c =? 45 then (true, true, rest)
        else if code c =? 43 then (false, true, rest) else (false, false, s) in
      if str_eqb unsigned "Infinity" then Inf negative
      else
        match unsigned with
        | String z (String x digits) =>
            if negb signed && (code z =? 48) then
              if (code x =? 120) || (code x =? 88) then radix_number 16 digits
              else if (code x =? 111) || (code x =? 79) then radix_number 8 digits
              else if (code x =? 98) || (code x =? 66) then radix_number 2 digits
              else unsigned_decimal negative unsigned
            else unsigned_decimal negative unsigned
        | _ => unsigned_decimal negative unsigned
        end
  end.

Example js_numbers :
  (js_number "12", js_number " 1.5e1 ", js_number "0x1F", js_number "-.5", js_number "") =
  (int 12, int 15, int 31, lit (-1) 2, int 0) /\
  (js_number "1.5.2", js_number "-0x1", js_number "12a", js_number "-Infinity") =
  (NaN, NaN, NaN, Inf true).
Proof. by vm_compute. Qed.

(** ** Meter codes *)

Definition meter_char (c : ascii) : bool := is_upper c || is_digit c || Ascii.eqb c "_".

Definition upper_first (s : string) : bool :=
  match s with String c _ => is_upper c | EmptyString => false end.

Lemma safeMeter_iff s :
  safeMeter s = true <-> upper_first s = true /\ str_forall meter_char s = true /\ str_length s <= 32.
Proof.
  unfold safeMeter, upper_first. destruct s as [|c s]; [naive_solver|].
  cbn [str_forall str_length]. change (fun c => _) with meter_char.
  rewrite !andb_true_iff, Z.leb_le. unfold meter_char at 2.
  destruct (is_upper c); simpl; split; intros; split_and!; destruct_and?; try done; lia.
Qed.

Lemma upper_first_app x y : upper_first x = true -> upper_first (x +:+ y) = true.
Proof. by destruct x. Qed.

(** ** Guarded reads *)

Definition record (value : jsval) : option (list (string * jsval)) := record_of value.

Definition boundedNumber (value : jsval) (maximum : Z) : option num :=
  let? n := as_num value in
  check is_finite n && (int 0 <=# n) && (n <=# int maximum);; Some n.

Definition boundedFraction (value : jsval) : option num :=
  let? n := as_num value in
  check is_finite n && (int 0 <=# n) && (n <=# int 1);; Some n.

Definition MAX_EPOCH_SECONDS : Z := 1000000000000.
Definition CLOCK_SKEW_SECONDS : Z := 3600.
Definition MAX_WINDOW_SECONDS : Z := 31536000.

Definition plausibleResetHorizon (windowSeconds : Z) : Z := windowSeconds * 2 + CLOCK_SKEW_SECONDS.

Definition windowSeconds (value : jsval) : option Z :=
  let? n := as_num value in
  let? n := to_int n in
  check (0 <? n) && (n <=? MAX_WINDOW_SECONDS);; Some n.

(** Up to [n] digits at the head of a text, and the rest. *)
Fixpoint take_digits_upto (n : nat) (s : string) : string * string :=
  match n, s with
  | S n, String c s' =>
      if is_digit c then let '(digits, rest) := take_digits_upto n s' in (String c digits, rest)
      else ("", s)
  | _, _ => ("", s)
  end.

(** The fraction of a second cut or padded to three digits. *)
Fixpoint normalize_fraction (s : string) : string :=
  match s with
  | EmptyString => ""
  | String c s' =>
      if code c =? 46 then
        match take_digits_upto 9 s' with
        | (EmptyString, _) => String c (normalize_fraction s')
        | (digits, rest) => "." +:+ str_prefix 3 (digits +:+ "000") +:+ rest
        end
      else String c (normalize_fraction s')
  end.

(** [/(?:Z|[+-]\d{2}:?\d{2})$/] *)
Definition zone_at (s : string) : bool :=
  match s with
  | String z EmptyString => code z =? 90
  | String s (String a (String b (String c (String d EmptyString)))) =>
      ((code s =? 43) || (code s =? 45)) && is_digit a && is_digit b && is_digit c && is_digit d
  | String s (String a (String b (String m (String c (String d EmptyString))))) =>
      ((code s =? 43) || (code s =? 45)) && is_digit a && is_digit b && (code m =? 58) &&
      is_digit c && is_digit d
  | _ => false
  end.

Fixpoint has_zone (s : string) : bool :=
  zone_at s || match s with String _ s' => has_zone s' | EmptyString => false end.

Example normalized_fractions :
  normalize_fraction "2026-08-07T10:00:00.1234567Z" = "2026-08-07T10:00:00.123Z" /\
  normalize_fraction "2026-08-07T10:00:00.5" = "2026-08-07T10:00:00.500" /\
  (has_zone "2026-08-07T10:00:00+02:00", has_zone "2026-08-07T10:00:00") = (true, false).
Proof. by vm_compute. Qed.

(** ** The lifecycle beside the meters *)

Definition connectorConnection (parsed : bool) (payload : jsval) (tool : option string) : ConnectionStatus :=
  if parsed then connectionStatus CONNECTED None tool
  else
    match payload with
    | JUndef | JNull => connectionStatus DETECTED (Some tool_not_running) tool
    | _ => connectionStatus ERROR (Some shape_mismatch) tool
    end.

(** ** Meters *)

(** The argument of [rawMeter]. *)
Record RawMeterInput := {
  ri_provider : ProviderCode; ri_meter : string; ri_value : num; ri_window : SnapshotWindow;
  ri_resetAt : option string; ri_source : SnapshotSource; ri_precision : SnapshotPrecision;
  ri_observedAt : string; ri_expiresAt : string; ri_labels : ConnectorLabels;
  ri_amounts : option SnapshotAmounts }.

Definition reset_value (resetAt : option string) : jsval :=
  match resetAt with Some r => JStr r | None => JNull end.

Definition raw_amounts (amounts : option SnapshotAmounts) : list (string * jsval) :=
  match amounts with
  | None => []
  | Some a =>
      [("usedAmount", JNum (am_usedAmount a)); ("limitAmount", JNum (am_limitAmount a));
       ("currency", name (am_currency a))]
  end.

Definition rawMeter (i : RawMeterInput) : jsval :=
  JObj ([("provider", name (ri_provider i)); ("meter", JStr (ri_meter i)); ("value", JNum (ri_value i));
         ("window", raw_of_window (ri_window i)); ("resetAt", reset_value (ri_resetAt i));
         ("source", name (ri_source i)); ("precision", name (ri_precision i));
         ("observedAt", JStr (ri_observedAt i)); ("expiresAt", JStr (ri_expiresAt i));
         ("labels", raw_of_labels (ri_labels i)); ("unit", name PERCENT)] ++
        raw_amounts (ri_amounts i)).

#[export] Instance JStr_inj : Inj (=) (=) JStr.
Proof. intros x y E. by injection E. Qed.

(** A row that states an availability instead of a value: the transport's
    required fields hold nothing. *)
Definition availability_row (provider : ProviderCode) (meter : string) (availability : SnapshotAvailability)
    (window : WindowKind) (source : SnapshotSource) (now expiresAt : string) (labels : ConnectorLabels) :
    jsval :=
  JObj [("provider", name provider); ("meter", JStr meter); ("availability", name availability);
        ("value", JNum (int 0)); ("unit", name PERCENT); ("window", JObj [("kind", name window)]);
        ("resetAt", JNull); ("source", name source); ("precision", name p_exact);
        ("observedAt", JStr now); ("expiresAt", JStr expiresAt); ("labels", raw_of_labels labels)].

(** A meter's name, for the loops that compare names. *)
Definition meter_of (raw : jsval) : jsval :=
  match record_of raw with Some fs => get fs "meter" | None => JUndef end.

Section Connector.
Context `{DateHost}.

Definition futureInstant (value : jsval) (now : string) : option string :=
  let? text := as_string value in
  let? parsed := date_parse text in
  let? current := date_parse now in
  check current <? parsed;; Some (to_iso parsed).

(** Whether an instant lies beyond a bound in seconds, when there is one. *)
Definition too_far (maxAheadSeconds : option Z) (current : Z) (instant : num) : bool :=
  match maxAheadSeconds with
  | Some s => (0 <? s) && (int (current + s * 1000) <# instant)
  | None => false
  end.

Definition futureInstantFromEpochSeconds (value : jsval) (now : string)
    (maxAheadSeconds : option Z) : option string :=
  let? n := as_num value in
  check is_finite n;;
  check negb (n <=# int 0) && negb (int MAX_EPOCH_SECONDS <=# n);;
  let? current := date_parse now in
  let milliseconds := nround (n ⊗ int 1000) in
  check negb (milliseconds <=# int current);;
  check negb (too_far maxAheadSeconds current milliseconds);;
  let? instant := time_clip milliseconds in Some (to_iso instant).

Definition futureInstantFromRfc3339 (value : jsval) (now : string)
    (maxAheadSeconds : option Z) : option string :=
  let? text := as_string value in
  check str_length text <=? 64;;
  let normalized := normalize_fraction (trim text) in
  let withZone := if has_zone normalized then normalized else normalized +:+ "Z" in
  let? parsed := date_parse withZone in
  let? current := date_parse now in
  check current <? parsed;;
  check negb (too_far maxAheadSeconds current (int parsed));;
  Some (to_iso parsed).

Definition instantAfter (now : string) (seconds : num) : option string :=
  let? current := date_parse now in
  let? instant := time_clip (int current ⊕ seconds ⊗ int 1000) in Some (to_iso instant).

(** The outer [None]: [toISOString] threw. *)
Definition shortExpiry (now : string) : option (option string) :=
  match date_parse now with
  | Some parsed => Some <$> iso_string (Some (parsed + 60000))
  | None => Some None
  end.

(** ** What the reads guarantee *)

Lemma boundedNumber_Some v hi n : boundedNumber v hi = Some n -> bounded hi n.
Proof.
  unfold boundedNumber. intros E. split_hyp E. bools. destruct v; simplify_eq/=.
  destruct n as [| |z]; try done. exists z. split; [done|]. unfold int in *.
  rewrite !nle_Fin in *. bools. lia.
Qed.

Lemma boundedFraction_Some v n : boundedFraction v = Some n -> bounded 1 n.
Proof. apply (boundedNumber_Some v 1). Qed.

Lemma windowSeconds_Some v n : windowSeconds v = Some n -> 0 < n <= MAX_WINDOW_SECONDS.
Proof. unfold windowSeconds. intros E. split_hyp E. bools. done. Qed.

(** A canonical instant strictly ahead of [now], at most so many seconds. *)
Definition ahead (now instant : string) (maxAheadSeconds : option Z) : Prop :=
  exists current t, date_parse now = Some current /\ instant = to_iso t /\ valid_time t = true /\
    current < t /\ from_option (fun s => 0 < s -> t <= current + s * 1000) True maxAheadSeconds.

Lemma ahead_iso now instant m : ahead now instant m -> iso instant.
Proof. intros (c & t & _ & -> & Hv & _). by apply is_iso_instant_to_iso. Qed.

Lemma ahead_later now instant m : ahead now instant m -> (date_parse now <t date_parse instant) = true.
Proof.
  intros (c & t & -> & -> & Hv & Hlt & _). rewrite date_parse_to_iso by done. by apply Z.ltb_lt.
Qed.

Lemma not_too_far m current t :
  too_far m current (int t) = false -> from_option (fun s => 0 < s -> t <= current + s * 1000) True m.
Proof.
  destruct m as [s|]; [|done]. simpl. rewrite int_lt. intros E Hs.
  rewrite (proj2 (Z.ltb_lt 0 s)) in E by done. simpl in E. bools. done.
Qed.

Lemma futureInstant_ahead v now r : futureInstant v now = Some r -> ahead now r None.
Proof.
  unfold futureInstant. intros E. split_hyp E. bools. exists z0, z.
  split_and!; try done. by eapply date_parse_valid.
Qed.

Lemma futureInstantFromRfc3339_ahead v now m r :
  futureInstantFromRfc3339 v now m = Some r -> ahead now r m.
Proof.
  unfold futureInstantFromRfc3339. intros E. split_hyp E. bools.
  eexists _, _. split_and!; try done; [by eapply date_parse_valid|by apply not_too_far].
Qed.

Lemma nround_int x z : nround x = Fin z -> exists k, nround x = int k.
Proof. destruct x; try done. intros _. by eexists. Qed.

Lemma time_clip_Some k t : time_clip (int k) = Some t -> t = k /\ valid_time k = true.
Proof.
  pose proof one_pos. unfold time_clip, int. rewrite Z.quot_mul by lia.
  intros E. split_hyp E.
Qed.

Lemma futureInstantFromEpochSeconds_ahead v now m r :
  futureInstantFromEpochSeconds v now m = Some r -> ahead now r m.
Proof.
  unfold futureInstantFromEpochSeconds. intros E. split_hyp E. bools.
  destruct (nround (n ⊗ int 1000)) as [| |z'] eqn:Er; try done.
  destruct (nround_int _ _ Er) as [k Ek]. rewrite Ek in Er. rewrite <- Er in *.
  match goal with Ht : time_clip (int k) = _ |- _ => apply time_clip_Some in Ht as [-> Hv] end.
  match goal with Hle : (int k <=# _) = false |- _ => rewrite int_le in Hle end. bools.
  eexists _, k. split_and!; try done. by apply not_too_far.
Qed.

Lemma shortExpiry_Some now e :
  shortExpiry now = Some (Some e) -> iso e /\ (date_parse now <=t date_parse e) = true.
Proof.
  unfold shortExpiry, iso_string. destruct (date_parse now) as [t|]; [|done].
  destruct (valid_time (t + 60000)) eqn:Hv; [|done]. cbn [fmap option_fmap option_map].
  intros E. apply (inj Some), (inj Some) in E as <-. split; [by apply is_iso_instant_to_iso|].
  rewrite date_parse_to_iso by done. simpl. apply Z.leb_le. lia.
Qed.

(** ** What the normalizer makes of a meter *)

(** The reading a meter is meant to be, but for its money. *)
Definition snapshot_of (i : RawMeterInput) : Snapshot :=
  {| s_provider := ri_provider i; s_meter := ri_meter i; s_value := ri_value i; s_unit := PERCENT;
     s_window := ri_window i; s_resetAt := ri_resetAt i; s_source := ri_source i;
     s_precision := ri_precision i; s_observedAt := ri_observedAt i; s_expiresAt := ri_expiresAt i;
     s_labels := ri_labels i; s_usedAmount := None; s_limitAmount := None; s_currency := None;
     s_accountId := None; s_accountLabel := None; s_provenance := None; s_writer := None;
     s_kind := None; s_availability := None; s_retryAt := None |}.

(** The normalizer believes a meter as a reading of that provider and instant. *)
Definition believed (p : ProviderCode) (now : string) (m : jsval) : Prop :=
  exists s, normalizeMeter m = Some s /\ s_provider s = p /\ s_observedAt s = now.

(** ... and a reset it states lies ahead. *)
Definition sound (p : ProviderCode) (now : string) (m : jsval) : Prop :=
  exists s, normalizeMeter m = Some s /\ s_provider s = p /\ s_observedAt s = now /\
    from_option (fun r => (date_parse now <t date_parse r) = true) True (s_resetAt s).

Lemma sound_believed p now m : sound p now m -> believed p now m.
Proof. intros (s & ? & ? & ? & _). by exists s. Qed.

(** A meter that reads like a well formed reading is believed as that reading. *)
Lemma reads_like fs s :
  well_formed s -> (forall k, k ∉ soft_keys -> get fs k = get (snapshot_fields s) k) ->
  exists s', normalizeMeter (JObj fs) = Some s' /\ hard_part s' = hard_part s.
Proof.
  intros Hs Hk. pose proof (normalizeMeter_hard _ _ Hk) as E.
  rewrite <- raw_of_snapshot_fields, normalizeMeter_raw in E by done.
  destruct (normalizeMeter (JObj fs)) as [s'|]; [|done]. exists s'. split; [done|].
  by apply (inj Some) in E.
Qed.

Lemma hard_part_fields s s' :
  hard_part s' = hard_part s ->
  s_provider s' = s_provider s /\ s_meter s' = s_meter s /\ s_value s' = s_value s /\
  s_unit s' = s_unit s /\ s_resetAt s' = s_resetAt s /\ s_observedAt s' = s_observedAt s.
Proof. intros E. by injection E. Qed.

(** Everything a parser has to check before it builds a meter. *)
Record checked (i : RawMeterInput) : Prop := {
  ck_meter : safeMeter (ri_meter i) = true;
  ck_value : bounded 100 (ri_value i);
  ck_window : window_ok (ri_window i);
  ck_reset : from_option (fun r => exists m, ahead (ri_observedAt i) r m) True (ri_resetAt i);
  ck_observed : iso (ri_observedAt i);
  ck_expires : shortExpiry (ri_observedAt i) = Some (Some (ri_expiresAt i));
  ck_labels : labels_ok (ri_labels i) }.

Lemma checked_well_formed i : checked i -> well_formed (snapshot_of i).
Proof.
  intros []. destruct (shortExpiry_Some _ _ ck_expires0). split; try done; simpl.
  destruct (ri_resetAt i) as [r|]; [|done]. destruct ck_reset0 as [m Hm]. by eapply ahead_iso.
Qed.

Lemma rawMeter_reads i k : k ∉ soft_keys ->
  get (default [] (record_of (rawMeter i))) k = get (snapshot_fields (snapshot_of i)) k.
Proof.
  intros Hk. assert (Ha : forall k', k' ∈ soft_keys -> k <> k') by (intros k' Hk' ->; done).
  unfold rawMeter, snapshot_fields, raw_of_snapshot, get.
  destruct (ri_amounts i) as [a|]; simpl;
    rewrite ?(decide_False (P := k = "usedAmount")), ?(decide_False (P := k = "limitAmount")),
      ?(decide_False (P := k = "currency")) by (apply Ha; by apply (bool_decide_unpack _));
    repeat case_decide; by subst.
Qed.

Lemma rawMeter_reading i : well_formed (snapshot_of i) ->
  exists s, normalizeMeter (rawMeter i) = Some s /\ hard_part s = snapshot_of i.
Proof.
  intros Hi. apply (reads_like (default [] (record_of (rawMeter i))) (snapshot_of i));
    [done|apply rawMeter_reads].
Qed.

Lemma rawMeter_believed i :
  well_formed (snapshot_of i) -> believed (ri_provider i) (ri_observedAt i) (rawMeter i).
Proof.
  intros Hi. destruct (rawMeter_reading i Hi) as (s & Hs & Eh). exists s.
  assert (Eh' : hard_part s = hard_part (snapshot_of i)) by done.
  by apply hard_part_fields in Eh' as (Hp & _ & _ & _ & _ & Ho).
Qed.

Lemma rawMeter_sound i : checked i -> sound (ri_provider i) (ri_observedAt i) (rawMeter i).
Proof.
  intros Hi. destruct (rawMeter_reading i (checked_well_formed i Hi)) as (s & Hs & Eh). exists s.
  assert (Eh' : hard_part s = hard_part (snapshot_of i)) by done.
  apply hard_part_fields in Eh' as (Hp & _ & _ & _ & Hr & Ho). split_and!; [done..|].
  rewrite Hr. simpl. destruct Hi. destruct (ri_resetAt i) as [r|]; [|done].
  destruct ck_reset0 as [m Hm]. by eapply ahead_later.
Qed.

Lemma availability_row_sound p meter availability window source now e labels :
  iso now -> shortExpiry now = Some (Some e) -> labels_ok labels -> safeMeter meter = true ->
  sound p now (availability_row p meter availability window source now e labels).
Proof.
  intros Hnow He Hl Hm. destruct (shortExpiry_Some _ _ He). pose proof one_pos.
  destruct (reads_like (default [] (record_of (availability_row p meter availability window source now e labels)))
    {| s_provider := p; s_meter := meter; s_value := int 0; s_unit := PERCENT;
       s_window := {| w_kind := window; w_durationSeconds := None |}; s_resetAt := None;
       s_source := source; s_precision := p_exact; s_observedAt := now; s_expiresAt := e;
       s_labels := labels; s_usedAmount := None; s_limitAmount := None; s_currency := None;
       s_accountId := None; s_accountLabel := None; s_provenance := None; s_writer := None;
       s_kind := None; s_availability := Some availability; s_retryAt := None |}) as (s & Hs & Eh).
  - split; try done. exists 0. split; [done|]. simpl. lia.
  - intros k _. unfold availability_row, snapshot_fields, raw_of_snapshot, get. simpl.
    repeat case_decide; by subst.
  - apply hard_part_fields in Eh as (Hp & _ & _ & _ & Hr & Ho). exists s.
    split_and!; [done..|]. by rewrite Hr.
Qed.
End Connector.

(** ** Arithmetic of shares

    The parsers turn amounts into percentages; however each step rounds, the
    result stays between nothing and everything. *)

Lemma bounded_iff hi n : bounded hi n <-> (int 0 <=# n) = true /\ (n <=# int hi) = true.
Proof.
  split.
  - intros (z & -> & Hz). unfold int. rewrite !nle_Fin, !Z.leb_le. lia.
  - intros [H1 H2]. destruct n as [| |z]; [done|by destruct negative|].
    unfold int in *. rewrite !nle_Fin in *. bools. exists z. split; [done|lia].
Qed.

Lemma bounded_mul a k n : bounded a n -> 0 <= k -> Z.abs (a * k) < 2 ^ 53 -> bounded (a * k) (n ⊗ int k).
Proof.
  intros (z & -> & Hz) Hk Hak. pose proof one_pos. apply bounded_iff. split.
  - change 0 with (0 * k). rewrite <- (nmul_int 0 k) by lia. apply nmul_mono; nia.
  - rewrite <- (nmul_int a k) by done. apply nmul_mono; nia.
Qed.

Lemma bounded_div a k n : bounded (a * k) n -> 0 < k -> Z.abs a < 2 ^ 53 -> bounded a (n ⊘ int k).
Proof.
  intros (z & -> & Hz) Hk Ha. pose proof one_pos. unfold int at 1. simpl.
  rewrite (proj2 (Z.eqb_neq (k * one) 0)), Z.sgn_pos, Z.abs_eq, Z.mul_1_r by nia.
  apply bounded_iff. split; [apply round_ratio_nonneg; nia|].
  unfold int. rewrite <- (round_exact (a * one) (k * one)); [|nia|by apply representable_int].
  apply round_ratio_mono; [nia..|]. apply Z.mul_le_mono_nonneg_r; nia.
Qed.

Lemma bounded_ratio u l : 0 <= u <= l -> 0 < l -> bounded 1 (Fin u ⊘ Fin l).
Proof.
  intros Hu Hl. pose proof one_pos. simpl.
  rewrite (proj2 (Z.eqb_neq l 0)), Z.sgn_pos, Z.abs_eq, Z.mul_1_r by lia.
  apply bounded_iff. split; [apply round_ratio_nonneg; nia|].
  unfold int. rewrite <- (round_exact (1 * one) l); [|done|by apply representable_int].
  apply round_ratio_mono; nia.
Qed.

Lemma bounded_sub a n : bounded a n -> 0 <= a < 2 ^ 53 -> bounded a (int a ⊖ n).
Proof.
  intros (z & -> & Hz) Ha. pose proof one_pos. unfold nsub. cbn [nneg]. apply bounded_iff. split.
  - replace 0 with (a + - a) by lia. rewrite <- (nadd_int a (- a)) by lia. apply nadd_mono. lia.
  - replace (int a) with (int (a + 0)) at 2 by (f_equal; lia).
    rewrite <- (nadd_int a 0) by lia. apply nadd_mono. lia.
Qed.

Lemma bounded_round a n : bounded a n -> bounded a (nround n).
Proof.
  intros (z & -> & Hz). pose proof one_pos. eexists. split; [done|].
  assert (0 <= (2 * z + one) / (2 * one)) by (apply Z.div_pos; lia).
  assert ((2 * z + one) / (2 * one) < a + 1) by (apply Z.div_lt_upper_bound; nia). nia.
Qed.

Lemma bounded_mono a b n : bounded a n -> a <= b -> bounded b n.
Proof. intros (z & -> & Hz) Hab. pose proof one_pos. exists z. split; [done|nia]. Qed.

(** A part of a whole, in per cent. *)
Lemma bounded_percent hi used limit :
  bounded hi used -> bounded hi limit -> (limit <=# int 0) = false -> (limit <# used) = false ->
  bounded 100 (used ⊘ limit ⊗ int 100).
Proof.
  intros (u & -> & Hu) (l & -> & Hl) Hpos Hle. unfold int in Hpos. rewrite nle_Fin in Hpos.
  rewrite nlt_Fin in Hle. bools. change 100 with (1 * 100).
  apply bounded_mul; [apply bounded_ratio; lia|done|done].
Qed.

(** A remaining share, as used tenths of a per cent. *)
Lemma bounded_tenths remaining :
  bounded 1 remaining -> bounded 100 (nround ((int 1 ⊖ remaining) ⊗ int 1000) ⊘ int 10).
Proof.
  intros Hr. apply bounded_div; [|done|done]. apply bounded_round. change (100 * 10) with (1 * 1000).
  apply bounded_mul; [by apply bounded_sub|done|done].
Qed.

(** ** The interface of a parser *)

Section Parsers.
Context `{DateHost}.

(** A clock that shows an instant since the epoch. *)
Definition since_epoch (now : string) : Prop := exists t, date_parse now = Some t /\ 0 <= t.

(** What [readOne] relies on: an answer that was understood holds meters, every
    one of which the normalizer believes. The outer [None] is a throw. *)
Class SoundParser (p : ProviderCode) (parse : jsval -> string -> list jsval -> option (option (list jsval))) :
    Prop :=
  sound_parser payload now previous meters :
    is_iso_instant now = true -> since_epoch now -> parse payload now previous = Some (Some meters) ->
    meters <> [] /\ Forall (believed p now) meters.

(** A report over meters that are all believed loses none of them. *)
Lemma believed_report p now meters :
  Forall (believed p now) meters ->
  Forall2 (fun m s => normalizeMeter m = Some s /\ s_provider s = p /\ s_observedAt s = now)
    meters (normalizeMeters meters).
Proof.
  induction 1 as [|m meters (s & Hs & Hp & Ho) _ IH]; [constructor|].
  unfold normalizeMeters in *. simpl. rewrite Hs. by constructor.
Qed.
End Parsers.
