(* ===== verification/ClaudePayload.v ===== *)
(** * Claude's usage documents ([packages/connectors/src/claude.ts])

    The status line payload and the usage document, two shapes of one reading.
    The comparison of keys, [localeCompare], is the platform's: a consistent
    order ([LocaleHost]). *)
From S2P Require Import Prelude JsNum JsDate JsValue Text Types Normalizer Connector.
Local Open Scope string_scope.
Local Open Scope Z_scope.
Local Open Scope list_scope.
Local Open Scope js_scope.

Class LocaleHost := {
  locale_compare : string -> string -> comparison;
  #[global] locale_preorder :: TotalPreorder locale_compare }.

(** A locale whose order is that of the units. *)
#[export, refine] Instance unit_locale : LocaleHost | 100 := {| locale_compare := str_compare |}.
Proof. apply (str_compare_preorder id). Defined.

Definition claudeLabels : ConnectorLabels :=
  {| lb_credentialOrigin := official_local_tool; lb_dataInterfaceStatus := native_statusline_payload;
     lb_automationRisk := risk_low; lb_verification := UNVERIFIED; lb_verificationEvidence := None |}.

Definition FIVE_HOURS : Z := 18000.
Definition SEVEN_DAYS : Z := 604800.
Definition CLAUDE_WEEKLY_FAMILIES : list string := ["fable"; "opus"; "sonnet"; "haiku"].
Definition CLAUDE_UNKNOWN_WINDOW_SECONDS : Z := 2678400.

(** A known bucket: its meter and its length. *)
Definition KNOWN_WINDOWS : list (string * (string * Z)) :=
  [("five_hour", ("FIVE_HOUR", FIVE_HOURS)); ("seven_day", ("SEVEN_DAY", SEVEN_DAYS));
   ("seven_day_oauth_apps", ("SEVEN_DAY_OAUTH_APPS", SEVEN_DAYS))].

Definition RESERVED_KEYS : list string := ["limits"; "extra_usage"].
Definition CLAUDE_MODEL_WEEKLY_PREFIX : string := "SEVEN_DAY_".
Definition MAX_METER_CODE_SOURCE_CHARS : Z := 64.
Definition CLAUDE_TOOL : option string := Some "Claude Code".

(** ** Meter codes *)

Definition meterCode (value : jsval) : option string :=
  let? value := as_string value in
  check (0 <? str_length value) && (str_length value <=? MAX_METER_CODE_SOURCE_CHARS);;
  check printable value;;
  let code := strip_underscores (squeeze is_upper_or_digit false (toUpperCase value)) in
  check safeMeter code;; Some code.

(** [(?:[_-][a-z0-9]+)*$]: whether the text may end here, and whether a letter
    or digit may come. *)
Fixpoint weekly_suffix (may_end inside : bool) (s : string) : bool :=
  match s with
  | EmptyString => may_end
  | String c s' =>
      if is_lower c || is_digit c then inside && weekly_suffix true true s'
      else ((code c =? 95) || (code c =? 45)) && may_end && weekly_suffix false true s'
  end.

(** [/^seven_day_(fable|opus|sonnet|haiku)(?:[_-][a-z0-9]+)*$/i] *)
Definition family_weekly (key : string) : bool :=
  match after_prefix "seven_day_" (toLowerCase key) with
  | None => false
  | Some rest =>
      existsb (fun family =>
        match after_prefix family rest with
        | Some suffix => weekly_suffix true false suffix
        | None => false
        end) CLAUDE_WEEKLY_FAMILIES
  end.

Definition claudeWeeklyKey (key : string) : bool :=
  str_eqb key "seven_day" || str_eqb key "seven_day_oauth_apps" || family_weekly key.

Definition claudeFamilyCode (value : jsval) : option string :=
  let? code := meterCode value in
  check existsb (fun candidate =>
    str_eqb code (toUpperCase candidate) || starts_with (toUpperCase candidate +:+ "_") code)
    CLAUDE_WEEKLY_FAMILIES;;
  Some code.

(** ** Windows *)

(** The first field that states a usable percentage. *)
Fixpoint first_percent (input : list (string * jsval)) (fields : list string) : option num :=
  match fields with
  | [] => None
  | field :: fields =>
      match boundedNumber (get input field) 100 with
      | Some value => Some value
      | None => first_percent input fields
      end
  end.

Definition statedPercent (input : list (string * jsval)) : option num :=
  first_percent input ["used_percentage"; "utilization"; "percent"].

Definition EPOCH_MILLISECOND_DIGITS : Z := 13.

(** [/^\d{9,13}$/] *)
Definition QUOTED_EPOCH (s : string) : bool :=
  str_forall is_digit s && (9 <=? str_length s) && (str_length s <=? 13).

Record MeterInput := {
  mi_meter : string; mi_percent : num; mi_durationSeconds : option Z; mi_resetAt : option string;
  mi_amounts : option SnapshotAmounts }.

Definition durationForKey (key : string) : option Z :=
  let normalized := toLowerCase key in
  if claudeWeeklyKey normalized then Some SEVEN_DAYS
  else if starts_with "five_hour" normalized then Some FIVE_HOURS
  else None.

Definition windowFor (durationSeconds : option Z) : SnapshotWindow :=
  match durationSeconds with
  | None => {| w_kind := w_unknown; w_durationSeconds := None |}
  | Some d => {| w_kind := w_rolling; w_durationSeconds := Some d |}
  end.

Definition buildMeter (input : MeterInput) (now expiresAt : string) (source : SnapshotSource) : jsval :=
  rawMeter {| ri_provider := CLAUDE; ri_meter := mi_meter input; ri_value := mi_percent input;
    ri_window := windowFor (mi_durationSeconds input); ri_resetAt := mi_resetAt input;
    ri_source := source; ri_precision := p_exact; ri_observedAt := now; ri_expiresAt := expiresAt;
    ri_labels := claudeLabels; ri_amounts := mi_amounts input |}.

(** What one read of a table has found so far, and what it dropped. *)
Record Scan := { sc_seen : list string; sc_dropped : bool; sc_found : list MeterInput }.

Definition no_scan : Scan := {| sc_seen := []; sc_dropped := false; sc_found := [] |}.

Definition scan_drop (b : bool) (st : Scan) : Scan :=
  {| sc_seen := sc_seen st; sc_dropped := b || sc_dropped st; sc_found := sc_found st |}.

Definition scan_found (input : MeterInput) (st : Scan) : Scan :=
  {| sc_seen := sc_seen st ++ [mi_meter input]; sc_dropped := sc_dropped st;
     sc_found := sc_found st ++ [input] |}.

Section Claude.
Context `{DateHost} `{LocaleHost}.

(** An epoch in seconds, a quoted epoch in seconds or milliseconds, or a date. *)
Definition resetInstant (value : jsval) (now : string) (maxAheadSeconds : Z) : option string :=
  match value with
  | JNum _ => futureInstantFromEpochSeconds value now (Some maxAheadSeconds)
  | JStr text =>
      let trimmed := trim text in
      if QUOTED_EPOCH trimmed then
        let digits := digits_value 0 trimmed in
        let seconds :=
          if EPOCH_MILLISECOND_DIGITS <=? str_length trimmed then int digits ⊘ int 1000
          else int digits in
        futureInstantFromEpochSeconds (JNum seconds) now (Some maxAheadSeconds)
      else futureInstantFromRfc3339 value now (Some maxAheadSeconds)
  | _ => None
  end.

(** How far ahead a window of that length may reset. *)
Definition window_horizon (durationSeconds : option Z) : Z :=
  if bool_decide (durationSeconds = Some SEVEN_DAYS) then SEVEN_DAYS + CLOCK_SKEW_SECONDS
  else plausibleResetHorizon (default CLAUDE_UNKNOWN_WINDOW_SECONDS durationSeconds).

Definition parseWindow (value : jsval) (now meter : string) (durationSeconds : option Z) :
    option MeterInput :=
  let? input := record value in
  let percent := statedPercent input in
  let resetAt := resetInstant (get input "resets_at") now (window_horizon durationSeconds) in
  match percent, resetAt with
  | Some percent, Some resetAt =>
      Some {| mi_meter := meter; mi_percent := percent; mi_durationSeconds := durationSeconds;
              mi_resetAt := Some resetAt; mi_amounts := None |}
  | _, _ => None
  end.

Definition bucket_key (key : string) : bool :=
  negb (bool_decide (toLowerCase key ∈ RESERVED_KEYS)) &&
  (str_eqb (toLowerCase key) "five_hour" || claudeWeeklyKey (toLowerCase key)).

(** The keys that name a bucket, under their lower case; of keys that differ in
    case alone the last is kept. *)
Definition bucket_keys (table : list (string * jsval)) : list (string * string) :=
  foldl (fun m key => assoc_set (toLowerCase key) key m) []
    (filter (fun key => bucket_key key = true) table.*1).

(** The known buckets first, then the others in the locale's order. *)
Definition ordered (remaining : list (string * string)) : list string :=
  omap (fun key => assoc_get key remaining) KNOWN_WINDOWS.*1 ++
  (sort_by (fun a b : string * string => locale_compare a.1 b.1)
     (filter (fun entry : string * string => entry.1 ∉ KNOWN_WINDOWS.*1) remaining)).*2.

Definition orderedWindowKeys (table : list (string * jsval)) : list string :=
  ordered (bucket_keys table).

(** The code a bucket is filed under, and its length. *)
Definition bucket_meter (key : string) : option string :=
  match assoc_get (toLowerCase key) KNOWN_WINDOWS with
  | Some known => Some known.1
  | None => meterCode (JStr key)
  end.

Definition bucket_duration (key : string) : option Z :=
  match assoc_get (toLowerCase key) KNOWN_WINDOWS with
  | Some known => Some known.2
  | None => durationForKey (toLowerCase key)
  end.

Definition is_absent (v : jsval) : bool := match v with JUndef | JNull => true | _ => false end.

Definition scan_bucket (table : list (string * jsval)) (now : string) (st : Scan) (key : string) : Scan :=
  match bucket_meter key with
  | None => st
  | Some meter =>
      if bool_decide (meter ∈ sc_seen st) then st
      else
        match parseWindow (get table key) now meter (bucket_duration key) with
        | Some parsed => scan_found parsed st
        | None => scan_drop (claudeWeeklyKey (toLowerCase key) && negb (is_absent (get table key))) st
        end
  end.

Definition parseWindowTable (table : list (string * jsval)) (now : string) (st : Scan) : Scan :=
  foldl (scan_bucket table now) st (orderedWindowKeys table).

(** The code of one scoped limit, when it is weekly and names a known family. *)
Definition scoped_meter (limit : list (string * jsval)) : option string :=
  check is_string (get limit "kind") "weekly_scoped";;
  let scope := default [] (record (get limit "scope")) in
  let model := default [] (record (get scope "model")) in
  let? name := claudeFamilyCode (get model "display_name") in
  Some (CLAUDE_MODEL_WEEKLY_PREFIX +:+ name).

Definition scan_limit (now : string) (st : Scan) (entry : jsval) : Scan :=
  match record entry with
  | None => st
  | Some limit =>
      match scoped_meter limit with
      | None => st
      | Some meter =>
          if bool_decide (meter ∈ sc_seen st) then st
          else
            match parseWindow entry now meter (Some SEVEN_DAYS) with
            | Some parsed => scan_found parsed st
            | None => scan_drop true st
            end
      end
  end.

Definition parseScopedLimits (value : jsval) (now : string) (st : Scan) : Scan :=
  match value with JArr entries => foldl (scan_limit now) st entries | _ => st end.

(** The first of the names that is there decides. *)
Fixpoint amountField (input : list (string * jsval)) (names : list string) : option num :=
  match names with
  | [] => None
  | name :: names =>
      if is_undef (get input name) then amountField input names
      else
        let? n := as_num (get input name) in
        check is_finite n && (int 0 <=# n);; Some n
  end.

Definition is_usd (currency : jsval) : bool :=
  match currency with
  | JUndef => true
  | JStr s => str_eqb (toUpperCase s) "USD"
  | _ => false
  end.

Definition parseExtraUsage (value : jsval) (now : string) : option MeterInput :=
  let? input := record value in
  check match get input "is_enabled" with JBool false => false | _ => true end;;
  let used := amountField input ["used_amount"; "used_credits"; "used"] in
  let limit :=
    amountField input ["limit_amount"; "limit_credits"; "monthly_limit"; "limit"; "cap"] in
  let derived :=
    let? used := used in
    let? limit := limit in
    check negb (limit <=# int 0);; Some (nmin (int 100) (used ⊘ limit ⊗ int 100)) in
  let? percent := (match statedPercent input with Some stated => Some stated | None => derived end) in
  check is_finite percent && negb (percent <# int 0) && negb (int 100 <# percent);;
  Some {| mi_meter := "EXTRA_USAGE"; mi_percent := percent; mi_durationSeconds := None;
          mi_resetAt := resetInstant (get input "resets_at") now
                          (plausibleResetHorizon CLAUDE_UNKNOWN_WINDOW_SECONDS);
          mi_amounts :=
            match used, limit with
            | Some used, Some limit =>
                if is_usd (get input "currency")
                then Some {| am_usedAmount := used; am_limitAmount := limit; am_currency := USD |}
                else None
            | _, _ => None
            end |}.

Definition looksLikeUsageDocument (root : list (string * jsval)) : bool :=
  match get root "limits" with JArr _ => true | _ => false end ||
  isRecord (get root "extra_usage") ||
  existsb (fun key =>
    (str_eqb (toLowerCase key) "five_hour" || claudeWeeklyKey (toLowerCase key)) &&
    isRecord (get root key)) root.*1.

(** The extra usage pool joins what the tables held. *)
Definition scan_extra (extra : option MeterInput) (st : Scan) : Scan :=
  match extra with
  | Some extra => if bool_decide (mi_meter extra ∈ sc_seen st) then st else scan_found extra st
  | None => st
  end.

Definition scan_usage (root : list (string * jsval)) (now : string) : Scan :=
  scan_extra (parseExtraUsage (get root "extra_usage") now)
    (parseScopedLimits (get root "limits") now (parseWindowTable root now no_scan)).

Definition scan_statusline (rateLimits : list (string * jsval)) (now : string) : Scan :=
  parseWindowTable [("five_hour", get rateLimits "five_hour")] now no_scan.

(** The meters, whether the document is a status line's, and whether a weekly
    bucket was dropped. *)
Record ClaudeRead := { cr_meters : option (list jsval); cr_statusline : bool; cr_dropped : bool }.

(** The meters of a scan: [null] when nothing was found. *)
Definition scan_meters (st : Scan) (now expiresAt : string) (source : SnapshotSource) :
    option (list jsval) :=
  match sc_found st with
  | [] => None
  | inputs => Some (map (fun input => buildMeter input now expiresAt source) inputs)
  end.

(** The outer [None]: [shortExpiry] threw. *)
Definition readClaudeDocument (payload : jsval) (now : string) : option ClaudeRead :=
  match record payload with
  | None => Some {| cr_meters := None; cr_statusline := false; cr_dropped := false |}
  | Some root =>
      match record (get root "rate_limits") with
      | Some rateLimits =>
          let? expiresAt := shortExpiry now in
          Some {| cr_meters :=
                    (let? expiresAt := expiresAt in
                     scan_meters (scan_statusline rateLimits now) now expiresAt native_payload);
                  cr_statusline := true; cr_dropped := false |}
      | None =>
          if negb (looksLikeUsageDocument root)
          then Some {| cr_meters := None; cr_statusline := false; cr_dropped := false |}
          else
            let? expiresAt := shortExpiry now in
            Some {| cr_meters :=
                      (let? expiresAt := expiresAt in
                       scan_meters (scan_usage root now) now expiresAt internal_payload);
                    cr_statusline := false;
                    cr_dropped := match expiresAt with Some _ => sc_dropped (scan_usage root now)
                                  | None => false end |}
      end
  end.

Definition parseClaudePayload (payload : jsval) (now : string) : option (option (list jsval)) :=
  cr_meters <$> readClaudeDocument payload now.

Definition claudeWeeklySetComplete (payload : jsval) (now : string) : option bool :=
  (fun read => bool_decide (is_Some (cr_meters read)) && negb (cr_statusline read) &&
               negb (cr_dropped read)) <$> readClaudeDocument payload now.

(** ** What is found is a reading *)

Definition input_ok (now : string) (i : MeterInput) : Prop :=
  bounded 100 (mi_percent i) /\ window_ok (windowFor (mi_durationSeconds i)) /\
  from_option (fun r => exists m, ahead now r m) True (mi_resetAt i).

(** A code of the normalizer's pattern, or one longer than it allows. *)
Definition code_ok (code : string) : Prop := safeMeter code = true \/ 32 < str_length code.

Record scan_ok (now : string) (st : Scan) : Prop := {
  so_seen : sc_seen st = map mi_meter (sc_found st);
  so_distinct : NoDup (sc_seen st);
  so_found : Forall (fun i => input_ok now i /\ code_ok (mi_meter i)) (sc_found st) }.

Lemma statedPercent_bounded input n : statedPercent input = Some n -> bounded 100 n.
Proof.
  unfold statedPercent. generalize ["used_percentage"; "utilization"; "percent"].
  induction l as [|field fields IH]; simpl; [done|].
  destruct (boundedNumber _ 100) as [x|] eqn:E; [|done]. intros [= <-]. by eapply boundedNumber_Some.
Qed.

Lemma resetInstant_ahead v now m r : resetInstant v now m = Some r -> ahead now r (Some m).
Proof.
  unfold resetInstant. destruct v as [| | |n|s| |]; try done.
  - apply futureInstantFromEpochSeconds_ahead.
  - destruct (QUOTED_EPOCH (trim s)); [apply futureInstantFromEpochSeconds_ahead|].
    apply futureInstantFromRfc3339_ahead.
Qed.

(** Every length a bucket is filed under. *)
Definition known_duration (d : option Z) : Prop := d = None \/ d = Some FIVE_HOURS \/ d = Some SEVEN_DAYS.

Lemma windowFor_ok d : known_duration d -> window_ok (windowFor d).
Proof. by intros [->|[->| ->]]. Qed.

Lemma parseWindow_ok v now meter d i :
  known_duration d -> parseWindow v now meter d = Some i -> mi_meter i = meter /\ input_ok now i.
Proof.
  intros Hd. unfold parseWindow. intros E. split_hyp E. split; [done|].
  split_and!; simpl; [by eapply statedPercent_bounded|by apply windowFor_ok|].
  eexists. by eapply resetInstant_ahead.
Qed.

Lemma known_window key known :
  assoc_get key KNOWN_WINDOWS = Some known -> known_duration (Some known.2) /\ safeMeter known.1 = true.
Proof.
  unfold known_duration, KNOWN_WINDOWS. cbn [assoc_get].
  repeat (case_decide; [intros E; apply (inj Some) in E as <-; split; [eauto|done]|]). done.
Qed.

Lemma bucket_duration_known key : known_duration (bucket_duration key).
Proof.
  unfold bucket_duration. destruct (assoc_get _ KNOWN_WINDOWS) as [known|] eqn:E.
  - by apply known_window in E as [? _].
  - unfold durationForKey, known_duration. destruct (claudeWeeklyKey _); [eauto|].
    destruct (starts_with _ _); eauto.
Qed.

Lemma meterCode_safe v code : meterCode v = Some code -> safeMeter code = true.
Proof. unfold meterCode. intros E. by split_hyp E. Qed.

Lemma bucket_meter_safe key code : bucket_meter key = Some code -> safeMeter code = true.
Proof.
  unfold bucket_meter. destruct (assoc_get _ KNOWN_WINDOWS) as [known|] eqn:E.
  - intros [= <-]. by apply known_window in E as [_ ?].
  - apply meterCode_safe.
Qed.

Lemma safeMeter_prefixed code : safeMeter code = true -> code_ok (CLAUDE_MODEL_WEEKLY_PREFIX +:+ code).
Proof.
  intros Hc. unfold code_ok. destruct (Z.le_gt_cases (str_length (CLAUDE_MODEL_WEEKLY_PREFIX +:+ code)) 32)
    as [Hl|Hl]; [left|by right].
  apply safeMeter_iff in Hc as (_ & Hc & _). apply safeMeter_iff.
  split_and!; [done| |done]. by rewrite str_forall_app, Hc.
Qed.

Lemma claudeFamilyCode_safe v code : claudeFamilyCode v = Some code -> safeMeter code = true.
Proof.
  unfold claudeFamilyCode. destruct (meterCode v) as [c|] eqn:Ec; [|done].
  destruct (existsb _ _); [|done]. intros [= <-]. by eapply meterCode_safe.
Qed.

Lemma scoped_meter_ok limit code : scoped_meter limit = Some code -> code_ok code.
Proof.
  unfold scoped_meter. destruct (is_string _ _); [|done].
  destruct (claudeFamilyCode _) as [name|] eqn:En; [|done]. intros [= <-].
  by eapply safeMeter_prefixed, claudeFamilyCode_safe.
Qed.

Lemma scan_drop_ok now b st : scan_ok now st -> scan_ok now (scan_drop b st).
Proof. by intros []. Qed.

Lemma scan_found_ok now i st :
  scan_ok now st -> mi_meter i ∉ sc_seen st -> input_ok now i -> code_ok (mi_meter i) ->
  scan_ok now (scan_found i st).
Proof.
  intros [] Hn Hi Hc. split; simpl.
  - by rewrite map_app, so_seen0.
  - apply NoDup_app. split_and!; [done| |apply NoDup_singleton].
    by intros x Hx ->%list_elem_of_singleton.
  - apply Forall_app. split; [done|]. by apply Forall_singleton.
Qed.

Lemma scan_bucket_ok table now st key : scan_ok now st -> scan_ok now (scan_bucket table now st key).
Proof.
  intros Hst. unfold scan_bucket. destruct (bucket_meter key) as [code|] eqn:Em; [|done].
  case_bool_decide as Hs; [done|].
  destruct (parseWindow _ _ _ _) as [i|] eqn:Ei; [|by apply scan_drop_ok].
  apply parseWindow_ok in Ei as [<- Hi]; [|apply bucket_duration_known].
  apply scan_found_ok; try done. left. by eapply bucket_meter_safe.
Qed.

Lemma scan_limit_ok now st entry : scan_ok now st -> scan_ok now (scan_limit now st entry).
Proof.
  intros Hst. unfold scan_limit. destruct (record entry) as [limit|]; [|done].
  destruct (scoped_meter limit) as [code|] eqn:Em; [|done]. case_bool_decide as Hs; [done|].
  destruct (parseWindow _ _ _ _) as [i|] eqn:Ei; [|by apply scan_drop_ok].
  apply parseWindow_ok in Ei as [<- Hi]; [|by right; right].
  apply scan_found_ok; try done. by eapply scoped_meter_ok.
Qed.

Lemma foldl_ok {A} (P : Scan -> Prop) (f : Scan -> A -> Scan) l :
  (forall st x, P st -> P (f st x)) -> forall st, P st -> P (foldl f st l).
Proof. intros Hf. induction l as [|x l IH]; simpl; auto. Qed.

Lemma parseExtraUsage_ok v now i :
  parseExtraUsage v now = Some i -> mi_meter i = "EXTRA_USAGE" /\ input_ok now i.
Proof.
  unfold parseExtraUsage. intros E. destruct (record v) as [input|]; [|done].
  destruct (match get input "is_enabled" with JBool false => false | _ => true end); [|done].
  revert E. set (percent := match statedPercent input with Some _ => _ | None => _ end).
  clearbody percent. intros E. destruct percent as [n|]; [|done].
  destruct (is_finite n && _ && _) eqn:Hn; [|done]. bools. apply (inj Some) in E as <-.
  split; [done|]. split_and!; cbn [mi_percent mi_durationSeconds mi_resetAt]; [|done|].
  - apply bounded_iff. destruct n as [| |z]; try done. unfold int in *. rewrite nlt_Fin in *.
    rewrite !nle_Fin, !Z.leb_le. bools. done.
  - destruct (resetInstant _ _ _) as [r|] eqn:Er; [|done]. eexists. by eapply resetInstant_ahead.
Qed.

Lemma no_scan_ok now : scan_ok now no_scan.
Proof. split; [done|constructor|constructor]. Qed.

Lemma scan_usage_ok root now : scan_ok now (scan_usage root now).
Proof.
  unfold scan_usage, scan_extra.
  assert (Hb : scan_ok now (parseScopedLimits (get root "limits") now (parseWindowTable root now no_scan))).
  { assert (scan_ok now (parseWindowTable root now no_scan)).
    { apply (foldl_ok (scan_ok now)); [intros; by apply scan_bucket_ok|apply no_scan_ok]. }
    unfold parseScopedLimits. destruct (get root "limits"); try done.
    apply (foldl_ok (scan_ok now)); [intros; by apply scan_limit_ok|done]. }
  destruct (parseExtraUsage _ _) as [i|] eqn:Ei; [|done].
  apply parseExtraUsage_ok in Ei as [Em Hi]. case_bool_decide; [done|].
  apply scan_found_ok; try done. rewrite Em. by left.
Qed.

Lemma scan_statusline_ok limits now : scan_ok now (scan_statusline limits now).
Proof. apply (foldl_ok (scan_ok now)); [intros; by apply scan_bucket_ok|apply no_scan_ok]. Qed.

(** ** Every meter is a reading *)

Lemma meter_of_build i now e source : meter_of (buildMeter i now e source) = JStr (mi_meter i).
Proof. done. Qed.

Lemma buildMeter_sound i now e source :
  iso now -> shortExpiry now = Some (Some e) -> input_ok now i -> safeMeter (mi_meter i) = true ->
  sound CLAUDE now (buildMeter i now e source).
Proof.
  intros Hnow He (Hp & Hw & Hr) Hm.
  by apply (rawMeter_sound {| ri_provider := CLAUDE; ri_meter := mi_meter i |}).
Qed.

(** Believed as a reading, or named in more than the normalizer's 32 units. *)
Definition claude_meter (now : string) (m : jsval) : Prop :=
  exists code, meter_of m = JStr code /\ (sound CLAUDE now m \/ 32 < str_length code).

Lemma scan_meters_ok now st e source ms :
  iso now -> shortExpiry now = Some (Some e) -> scan_ok now st ->
  scan_meters st now e source = Some ms ->
  ms <> [] /\ map meter_of ms = map JStr (sc_seen st) /\ Forall (claude_meter now) ms.
Proof.
  intros Hnow He [Hseen Hdup Hall] E. rewrite Hseen. unfold scan_meters in E.
  assert (Hne : sc_found st <> []) by (by destruct (sc_found st)).
  assert (Ems : map (fun input => buildMeter input now e source) (sc_found st) = ms)
    by (destruct (sc_found st); [done|by apply (inj Some) in E]).
  subst ms. split_and!.
  - by intros ?%map_eq_nil.
  - by rewrite !map_map.
  - apply Forall_fmap. eapply Forall_impl; [exact Hall|]. intros j [Hj Hc].
    exists (mi_meter j). split; [apply meter_of_build|].
    destruct Hc as [Hc|Hc]; [left|by right]. by apply buildMeter_sound.
Qed.

(** What a document that was understood was read from. *)
Lemma read_scanned payload now ms :
  parseClaudePayload payload now = Some (Some ms) ->
  exists e st source, shortExpiry now = Some (Some e) /\ scan_ok now st /\
    scan_meters st now e source = Some ms.
Proof.
  unfold parseClaudePayload, readClaudeDocument. destruct (record payload) as [root|]; [|done].
  destruct (record (get root "rate_limits")) as [limits|].
  - destruct (shortExpiry now) as [[e|]|]; try done. intros E. apply (inj Some) in E.
    exists e, (scan_statusline limits now), native_payload. split_and!; [done|apply scan_statusline_ok|done].
  - destruct (negb _); [done|]. destruct (shortExpiry now) as [[e|]|]; try done.
    intros E. apply (inj Some) in E.
    exists e, (scan_usage root now), internal_payload. split_and!; [done|apply scan_usage_ok|done].
Qed.

(** A document that was understood holds at least one meter, no two of one
    name, and each is a reading the normalizer believes, with a percentage in
    range and a reset strictly ahead, unless its name is longer than the
    normalizer allows. *)
Theorem claude_meters_are_readings payload now ms :
  is_iso_instant now = true -> parseClaudePayload payload now = Some (Some ms) ->
  ms <> [] /\ NoDup (map meter_of ms) /\ Forall (claude_meter now) ms.
Proof.
  intros Hnow E. apply read_scanned in E as (e & st & source & He & Hst & Em).
  destruct (scan_meters_ok _ _ _ _ _ Hnow He Hst Em) as (Hne & Hmap & Hall).
  split_and!; [done| |done]. rewrite Hmap. apply (NoDup_fmap_2 JStr). apply Hst.
Qed.

(** ** The keys of a table *)

Definition with_lower (key : string) : string * string := (toLowerCase key, key).

Lemma assoc_set_fresh {K V} `{EqDecision K} (k : K) (v : V) m :
  k ∉ m.*1 -> assoc_set k v m = m ++ [(k, v)].
Proof.
  induction m as [|[k' v'] m IH]; csimpl; [done|]. rewrite not_elem_of_cons. intros [Hk Hm].
  rewrite decide_False by done. by rewrite IH.
Qed.

Lemma fresh_keys l acc :
  NoDup (acc.*1 ++ map toLowerCase l) ->
  foldl (fun m key => assoc_set (toLowerCase key) key m) acc l = acc ++ map with_lower l.
Proof.
  revert acc. induction l as [|k l IH]; intros acc Hn; simpl; [by rewrite app_nil_r|].
  rewrite assoc_set_fresh; [rewrite IH|].
  - by rewrite <- app_assoc.
  - rewrite fmap_app, <- app_assoc. done.
  - apply NoDup_app in Hn as (_ & Hn & _). intros Hk. apply (Hn _ Hk). left.
Qed.

Lemma NoDup_lower_filter (P : string -> Prop) `{!forall k, Decision (P k)} keys :
  NoDup (map toLowerCase keys) -> NoDup (map toLowerCase (filter P keys)).
Proof.
  induction keys as [|k keys IH]; simpl; [done|]. intros [Hk Hn]%NoDup_cons.
  rewrite filter_cons. case_decide; [|by apply IH]. simpl. apply NoDup_cons. split; [|by apply IH].
  intros (k' & E & Hin)%list_elem_of_fmap. apply Hk, list_elem_of_fmap. exists k'.
  split; [done|]. by apply list_elem_of_filter in Hin as [_ ?].
Qed.

Lemma bucket_keys_distinct table :
  NoDup (map toLowerCase table.*1) ->
  bucket_keys table = map with_lower (filter (fun key => bucket_key key = true) table.*1).
Proof.
  intros Hn. unfold bucket_keys. apply (fresh_keys _ []). simpl.
  by apply NoDup_lower_filter.
Qed.

Lemma bucket_keys_NoDup table :
  NoDup (map toLowerCase table.*1) -> NoDup (bucket_keys table).*1.
Proof.
  intros Hn. rewrite bucket_keys_distinct by done. rewrite <- list_fmap_compose.
  by apply NoDup_lower_filter.
Qed.

Lemma elem_of_ordered remaining low key :
  NoDup remaining.*1 -> (low, key) ∈ remaining -> key ∈ ordered remaining.
Proof.
  intros Hn Hin. unfold ordered. apply elem_of_app.
  destruct (decide (low ∈ KNOWN_WINDOWS.*1)) as [Hk|Hk].
  - left. apply list_elem_of_omap. exists low. split; [done|]. by apply assoc_get_elem.
  - right. apply list_elem_of_fmap. exists (low, key). split; [done|].
    apply elem_of_sort_by, list_elem_of_filter. done.
Qed.

Lemma elem_of_orderedWindowKeys table key :
  NoDup (map toLowerCase table.*1) -> key ∈ table.*1 -> claudeWeeklyKey (toLowerCase key) = true ->
  key ∈ orderedWindowKeys table.
Proof.
  intros Hn Hin Hw. apply (elem_of_ordered _ (toLowerCase key)); [by apply bucket_keys_NoDup|].
  rewrite bucket_keys_distinct by done. apply (list_elem_of_fmap_2 with_lower).
  apply list_elem_of_filter. split; [|done]. unfold bucket_key. rewrite Hw, orb_true_r, andb_true_r.
  apply negb_true_iff, bool_decide_eq_false_2. intros Hr.
  apply elem_of_cons in Hr as [Hr|Hr]; [by rewrite Hr in Hw|].
  apply list_elem_of_singleton in Hr. by rewrite Hr in Hw.
Qed.

(** ** A complete set states every weekly *)

(** A pass over keys or entries forgets no code it has seen and no loss. *)
Record keeps {A} (f : Scan -> A -> Scan) : Prop := {
  kp_seen st x code : code ∈ sc_seen st -> code ∈ sc_seen (f st x);
  kp_dropped st x : sc_dropped st = true -> sc_dropped (f st x) = true }.

Lemma fold_keeps {A} (f : Scan -> A -> Scan) l st :
  keeps f ->
  (forall code, code ∈ sc_seen st -> code ∈ sc_seen (foldl f st l)) /\
  (sc_dropped st = true -> sc_dropped (foldl f st l) = true).
Proof.
  intros [Hs Hd]. revert st. induction l as [|x l IH]; intros st; simpl; [done|].
  destruct (IH (f st x)) as [IH1 IH2]. split; auto.
Qed.

(** What each step covers or gives up, the whole pass covers or gives up. *)
Lemma fold_covers {A} (f : Scan -> A -> Scan) l st x code :
  keeps f -> x ∈ l ->
  (forall st, code ∈ sc_seen (f st x) \/ sc_dropped (f st x) = true) ->
  sc_dropped (foldl f st l) = false -> code ∈ sc_seen (foldl f st l).
Proof.
  intros Hk Hx Hstep. revert st. induction l as [|y l IH]; intros st; [by apply elem_of_nil in Hx|].
  apply elem_of_cons in Hx as [<-|Hx]; simpl; [|by apply IH].
  destruct (fold_keeps f l (f st x) Hk) as [Hs Hd]. intros Hf.
  destruct (Hstep st) as [Hc|Hc]; [by apply Hs|]. by rewrite Hd in Hf.
Qed.

Lemma scan_drop_seen b st : sc_seen (scan_drop b st) = sc_seen st.
Proof. done. Qed.

Lemma scan_bucket_keeps table now : keeps (scan_bucket table now).
Proof.
  unfold scan_bucket. split; intros st key; intros; destruct (bucket_meter key); try done;
    case_bool_decide; try done; destruct (parseWindow _ _ _ _); simpl; try done.
  - apply elem_of_app. by left.
  - apply orb_true_iff. by right.
Qed.

Lemma scan_limit_keeps now : keeps (scan_limit now).
Proof.
  unfold scan_limit. split; intros st entry; intros; destruct (record entry); try done;
    destruct (scoped_meter _); try done; case_bool_decide; try done;
    destruct (parseWindow _ _ _ _); simpl; try done.
  apply elem_of_app. by left.
Qed.

Lemma scan_bucket_covers table now key code st :
  bucket_meter key = Some code -> claudeWeeklyKey (toLowerCase key) = true ->
  is_absent (get table key) = false ->
  code ∈ sc_seen (scan_bucket table now st key) \/ sc_dropped (scan_bucket table now st key) = true.
Proof.
  intros Hm Hw Ha. unfold scan_bucket. rewrite Hm, Hw, Ha. case_bool_decide; [by left|].
  destruct (parseWindow _ _ _ _) as [i|] eqn:Ei; [left|by right].
  apply parseWindow_ok in Ei as [<- _]; [|apply bucket_duration_known]. simpl.
  apply elem_of_app. right. by left.
Qed.

Lemma scan_limit_covers now entry limit code st :
  record entry = Some limit -> scoped_meter limit = Some code ->
  code ∈ sc_seen (scan_limit now st entry) \/ sc_dropped (scan_limit now st entry) = true.
Proof.
  intros Hr Hm. unfold scan_limit. rewrite Hr, Hm. case_bool_decide; [by left|].
  destruct (parseWindow _ _ _ _) as [i|] eqn:Ei; [left|by right].
  apply parseWindow_ok in Ei as [<- _]; [|by right; right]. simpl. apply elem_of_app. right. by left.
Qed.

Lemma scan_extra_keeps extra st :
  (forall code, code ∈ sc_seen st -> code ∈ sc_seen (scan_extra extra st)) /\
  sc_dropped (scan_extra extra st) = sc_dropped st.
Proof.
  unfold scan_extra. destruct extra; [|done]. case_bool_decide; [done|]. simpl. split; [|done].
  intros code Hc. apply elem_of_app. by left.
Qed.

(** The bucket at a key, or the scoped limit, is filed under the code and is
    weekly. *)
Inductive states_weekly (root : list (string * jsval)) (code : string) : Prop :=
| states_bucket key :
    key ∈ root.*1 -> claudeWeeklyKey (toLowerCase key) = true -> is_absent (get root key) = false ->
    bucket_meter key = Some code -> states_weekly root code
| states_limit entries entry limit :
    get root "limits" = JArr entries -> entry ∈ entries -> record entry = Some limit ->
    scoped_meter limit = Some code -> states_weekly root code.

Lemma scan_usage_covers root now code :
  NoDup (map toLowerCase root.*1) -> sc_dropped (scan_usage root now) = false ->
  states_weekly root code -> code ∈ sc_seen (scan_usage root now).
Proof.
  unfold scan_usage. destruct (scan_extra_keeps (parseExtraUsage (get root "extra_usage") now)
    (parseScopedLimits (get root "limits") now (parseWindowTable root now no_scan))) as [Hs ->].
  intros Hn Hd Hw. apply Hs. clear Hs.
  destruct Hw as [key Hk Hw Ha Hm|entries entry limit Hl He Hr Hm].
  - assert (Hseen : sc_dropped (parseWindowTable root now no_scan) = false ->
      code ∈ sc_seen (parseWindowTable root now no_scan)).
    { apply (fold_covers _ _ _ key); [apply scan_bucket_keeps|by apply elem_of_orderedWindowKeys|].
      intros st. by apply scan_bucket_covers. }
    unfold parseScopedLimits in *. destruct (get root "limits") as [| | | | |entries|]; auto.
    destruct (fold_keeps (scan_limit now) entries (parseWindowTable root now no_scan)
      (scan_limit_keeps now)) as [Hs Hd']. apply Hs, Hseen.
    destruct (sc_dropped (parseWindowTable root now no_scan)); [|done]. by rewrite Hd' in Hd.
  - unfold parseScopedLimits in *. rewrite Hl in *. revert Hd.
    apply (fold_covers _ _ _ entry); [apply scan_limit_keeps|done|]. intros st.
    by apply scan_limit_covers with limit.
Qed.

(** Only a document that reports every weekly bucket it states counts as
    complete. When the set is complete, every weekly key of the root whose
    bucket is there, and every weekly limit of a known model family, has its
    meter among those read: so a weekly reading the store then withdraws is one
    the provider no longer states. *)
Theorem a_complete_set_states_every_weekly root now ms code :
  NoDup (map toLowerCase root.*1) ->
  parseClaudePayload (JObj root) now = Some (Some ms) ->
  claudeWeeklySetComplete (JObj root) now = Some true ->
  states_weekly root code -> JStr code ∈ map meter_of ms.
Proof.
  intros Hn. unfold parseClaudePayload, claudeWeeklySetComplete, readClaudeDocument.
  cbn [record record_of]. destruct (record (get root "rate_limits")) as [limits|].
  { destruct (shortExpiry now) as [[e|]|]; try done. cbn [fmap option_fmap option_map cr_statusline].
    by rewrite andb_false_r. }
  destruct (negb _); [done|]. destruct (shortExpiry now) as [[e|]|]; try done.
  cbn [fmap option_fmap option_map cr_statusline cr_meters cr_dropped].
  intros E Hc Hw. apply (inj Some) in E. rewrite E in Hc.
  assert (Hd : sc_dropped (scan_usage root now) = false).
  { apply (inj Some) in Hc. bools. done. }
  pose proof (scan_usage_covers root now code Hn Hd Hw) as Hin.
  rewrite (so_seen now) in Hin by apply scan_usage_ok. unfold scan_meters in E.
  assert (Ems : map (fun input => buildMeter input now e internal_payload)
    (sc_found (scan_usage root now)) = ms) by (destruct (sc_found _); [done|by apply (inj Some) in E]).
  subst ms. rewrite map_map. apply (list_elem_of_fmap_2 JStr) in Hin.
  rewrite <- list_fmap_compose in Hin. done.
Qed.

(** ** The order of keys is immaterial *)

(** The locale tells the keys apart that are different. *)
Definition locale_distinguishes (keys : list string) : Prop :=
  forall a b, a ∈ keys -> b ∈ keys -> locale_compare (toLowerCase a) (toLowerCase b) = Eq ->
  toLowerCase a = toLowerCase b.

Lemma assoc_get_perm {K V} `{EqDecision K} (k : K) (m m' : list (K * V)) :
  NoDup m.*1 -> m ≡ₚ m' -> assoc_get k m = assoc_get k m'.
Proof.
  intros Hn Hp. assert (Hn' : NoDup m'.*1) by (by rewrite <- Hp).
  destruct (assoc_get k m') as [v|] eqn:E.
  - apply assoc_get_elem in E; [|done]. apply assoc_get_elem; [done|]. by rewrite Hp.
  - apply assoc_get_None. apply assoc_get_None in E. by rewrite Hp.
Qed.

#[local] Instance by_key_preorder :
  TotalPreorder (fun a b : string * string => locale_compare a.1 b.1).
Proof.
  split; [intros; apply (cmp_antisym (cmp := locale_compare))|].
  intros a b c. apply (cmp_trans (cmp := locale_compare)).
Qed.

Lemma NoDup_fst_eq {K V} (m : list (K * V)) x y : NoDup m.*1 -> x ∈ m -> y ∈ m -> x.1 = y.1 -> x = y.
Proof.
  intros Hn Hx Hy E. destruct x as [k v], y as [k' v']; simpl in E; subst k'. f_equal.
  apply list_elem_of_lookup in Hx as [i Hi], Hy as [j Hj].
  assert (i = j) by (apply (NoDup_lookup m.*1 i j k Hn); rewrite list_lookup_fmap;
    [by rewrite Hi|by rewrite Hj]). subst j. by rewrite Hi in Hj; injection Hj.
Qed.

Lemma ordered_perm m m' :
  NoDup m.*1 -> m ≡ₚ m' ->
  (forall x y, x ∈ m -> y ∈ m -> locale_compare x.1 y.1 = Eq -> x.1 = y.1) ->
  ordered m = ordered m'.
Proof.
  intros Hn Hp Hloc. unfold ordered. f_equal.
  - apply list_omap_ext, Forall_Forall2_diag, Forall_forall. intros k _. by apply assoc_get_perm.
  - f_equal. apply (StronglySorted_unique_strong (le_by (fun a b : string * string => locale_compare a.1 b.1))).
    + intros x y Hx Hy Hxy Hyx.
      apply elem_of_sort_by, list_elem_of_filter in Hx as [_ Hx].
      apply elem_of_sort_by, list_elem_of_filter in Hy as [_ Hy]. rewrite <- Hp in Hy.
      apply (NoDup_fst_eq m); try done. apply Hloc; try done. unfold le_by in *.
      rewrite (cmp_antisym (cmp := locale_compare) x.1 y.1) in Hyx.
      by destruct (locale_compare x.1 y.1).
    + apply (sort_by_sorted _ (TotalPreorder0 := by_key_preorder)).
    + apply (sort_by_sorted _ (TotalPreorder0 := by_key_preorder)).
    + by rewrite !sort_by_perm, Hp.
Qed.

Lemma orderedWindowKeys_perm root root' :
  root ≡ₚ root' -> NoDup (map toLowerCase root.*1) -> locale_distinguishes root.*1 ->
  orderedWindowKeys root = orderedWindowKeys root'.
Proof.
  intros Hp Hn Hloc.
  assert (Hn' : NoDup (map toLowerCase root'.*1)).
  { by rewrite <- (Permutation_map toLowerCase (fmap_Permutation fst _ _ Hp)). }
  unfold orderedWindowKeys. apply ordered_perm; [by apply bucket_keys_NoDup| |].
  - rewrite !bucket_keys_distinct by done. by rewrite Hp.
  - rewrite bucket_keys_distinct by done.
    intros x y (a & -> & Ha)%list_elem_of_fmap (b & -> & Hb)%list_elem_of_fmap.
    apply list_elem_of_filter in Ha as [_ Ha], Hb as [_ Hb]. simpl. by apply Hloc.
Qed.

Lemma existsb_perm {A} (f g : A -> bool) l l' :
  l ≡ₚ l' -> (forall x, f x = g x) -> existsb f l = existsb g l'.
Proof.
  intros Hp Hfg. apply eq_true_iff_eq. rewrite !existsb_exists.
  setoid_rewrite <- list_elem_of_In. setoid_rewrite Hp. by setoid_rewrite Hfg.
Qed.

Lemma NoDup_of_lower keys : NoDup (map toLowerCase keys) -> NoDup keys.
Proof. apply NoDup_fmap_1. Qed.

(** The meters and their order are this program's, never the document's. Two
    documents that differ in the order of their keys alone are read alike,
    whatever order a proxy or a new client writes them in, as long as no two
    keys differ by case alone and the locale's order tells keys apart. *)
Theorem the_order_of_keys_is_immaterial root root' now :
  root ≡ₚ root' -> NoDup (map toLowerCase root.*1) -> locale_distinguishes root.*1 ->
  readClaudeDocument (JObj root) now = readClaudeDocument (JObj root') now.
Proof.
  intros Hp Hn Hloc. pose proof (NoDup_of_lower _ Hn) as Hnd.
  assert (Hg : forall k, get root k = get root' k) by (intros k; by apply get_perm).
  assert (Hlooks : looksLikeUsageDocument root = looksLikeUsageDocument root').
  { unfold looksLikeUsageDocument. rewrite !Hg. f_equal.
    apply existsb_perm; [by rewrite Hp|]. intros k. by rewrite Hg. }
  assert (Htable : parseWindowTable root now no_scan = parseWindowTable root' now no_scan).
  { unfold parseWindowTable. rewrite (orderedWindowKeys_perm root root') by done.
    generalize (orderedWindowKeys root'), no_scan. intros keys.
    induction keys as [|k keys IH]; intros st; simpl; [done|]. rewrite IH. f_equal.
    unfold scan_bucket. by rewrite Hg. }
  assert (Hscan : scan_usage root now = scan_usage root' now).
  { unfold scan_usage. by rewrite Htable, !Hg. }
  unfold readClaudeDocument. cbn [record record_of]. by rewrite !Hg, Hlooks, Hscan.
Qed.
End Claude.

(** ** Witnesses *)

Definition sample_now : string := "2026-09-04T12:00:00.000Z".

Definition sample_window (percent : Z) (resets : string) : jsval :=
  JObj [("utilization", JNum (int percent)); ("resets_at", JStr resets)].

(** A weekly limit of one model. *)
Definition sample_limit (model : string) : jsval :=
  JObj [("kind", JStr "weekly_scoped"); ("percent", JNum (int 61));
        ("resets_at", JStr "2026-09-09T00:00:00.000Z");
        ("scope", JObj [("model", JObj [("display_name", JStr model)])])].

Definition sample_usage (model : string) : list (string * jsval) :=
  [("seven_day", sample_window 18 "2026-09-09T00:00:00.000Z");
   ("five_hour", sample_window 90 "2026-09-04T15:00:00.000Z");
   ("extra_usage", JObj [("used_amount", JNum (int 12)); ("limit_amount", JNum (int 20))]);
   ("limits", JArr [sample_limit model])].

Definition sample_meters (root : list (string * jsval)) : list jsval :=
  match parseClaudePayload (JObj root) sample_now with Some (Some ms) => ms | _ => [] end.

Example sample_meter_names :
  map meter_of (sample_meters (sample_usage "Opus 5")) =
  [JStr "FIVE_HOUR"; JStr "SEVEN_DAY"; JStr "SEVEN_DAY_OPUS_5"; JStr "EXTRA_USAGE"].
Proof. by vm_compute. Qed.

(** Reads a concrete document without unfolding its numbers. *)
Lemma sample_read root :
  sample_meters root <> [] ->
  parseClaudePayload (JObj root) sample_now = Some (Some (sample_meters root)).
Proof. unfold sample_meters. by destruct (parseClaudePayload _ _) as [[ms|]|]. Qed.

Lemma claude_meters_are_readings_witness :
  length (sample_meters (sample_usage "Opus 5")) = 4%nat /\
  NoDup (map meter_of (sample_meters (sample_usage "Opus 5"))) /\
  Forall (claude_meter sample_now) (sample_meters (sample_usage "Opus 5")).
Proof.
  split; [by vm_compute|].
  apply (claude_meters_are_readings (JObj (sample_usage "Opus 5")) sample_now); [by vm_compute|].
  apply sample_read. by vm_compute.
Defined.

Lemma a_complete_set_states_every_weekly_witness :
  claudeWeeklySetComplete (JObj (sample_usage "Opus 5")) sample_now = Some true /\
  JStr "SEVEN_DAY_OPUS_5" ∈ map meter_of (sample_meters (sample_usage "Opus 5")).
Proof.
  assert (E : claudeWeeklySetComplete (JObj (sample_usage "Opus 5")) sample_now = Some true)
    by (by vm_compute).
  split; [done|]. apply (a_complete_set_states_every_weekly (sample_usage "Opus 5") sample_now).
  - by apply (bool_decide_unpack _).
  - apply sample_read. by vm_compute.
  - done.
  - apply (states_limit _ _ [sample_limit "Opus 5"] (sample_limit "Opus 5")
      (default [] (record (sample_limit "Opus 5")))); [done|by left|done|by vm_compute].
Defined.

Lemma the_order_of_keys_is_immaterial_witness :
  readClaudeDocument (JObj (sample_usage "Opus 5")) sample_now =
  readClaudeDocument (JObj (reverse (sample_usage "Opus 5"))) sample_now.
Proof.
  apply the_order_of_keys_is_immaterial.
  - by rewrite reverse_Permutation.
  - by apply (bool_decide_unpack _).
  - intros a b _ _ E. by apply str_compare_eq.
Defined.

(** The document is called complete although a weekly bucket it states is lost:
    a scoped limit of a known family whose prefixed name exceeds what the
    normalizer accepts, and a root key too long to name a meter at all. *)
Theorem a_complete_set_can_lose_a_weekly :
  (exists root ms m,
     parseClaudePayload (JObj root) sample_now = Some (Some ms) /\
     claudeWeeklySetComplete (JObj root) sample_now = Some true /\
     m ∈ ms /\ normalizeMeter m = None) /\
  exists root key,
    claudeWeeklySetComplete (JObj root) sample_now = Some true /\
    key ∈ root.*1 /\ claudeWeeklyKey (toLowerCase key) = true /\ is_absent (get root key) = false /\
    bucket_meter key = None.
Proof.
  split.
  - exists (sample_usage "Opus for the longest of names"),
      (sample_meters (sample_usage "Opus for the longest of names")),
      (nth 2 (sample_meters (sample_usage "Opus for the longest of names")) JNull).
    split_and!; [apply sample_read; by vm_compute|by vm_compute| |by vm_compute].
    apply list_elem_of_In, nth_In. vm_compute. lia.
  - exists (sample_usage "Opus 5" ++
      [("seven_day_opus_for_the_longest_of_names", sample_window 1 "2026-09-09T00:00:00.000Z")]),
      "seven_day_opus_for_the_longest_of_names".
    split_and!; [by vm_compute|by apply (bool_decide_unpack _)|by vm_compute..].
Qed.
