(* ===== verification/CodexPayload.v ===== *)
(** * Codex's usage payloads ([packages/connectors/src/codex.ts])

    The answer of the app server, with one set of windows per limit, and the
    legacy usage document. A meter's name is built from the limit's own id. *)
From S2P Require Import Prelude JsNum JsDate JsValue Text Types Normalizer Files JsonText Connector.
Local Open Scope string_scope.
Local Open Scope Z_scope.
Local Open Scope list_scope.
Local Open Scope js_scope.

Definition codexLabels : ConnectorLabels :=
  {| lb_credentialOrigin := official_local_tool; lb_dataInterfaceStatus := documented_api_status;
     lb_automationRisk := risk_low; lb_verification := VERIFIED_FIXTURES;
     lb_verificationEvidence := None |}.

Definition legacyCodexLabels : ConnectorLabels :=
  {| lb_credentialOrigin := official_local_tool; lb_dataInterfaceStatus := internal_endpoint;
     lb_automationRisk := risk_high; lb_verification := UNVERIFIED; lb_verificationEvidence := None |}.

Definition CODEX_TOOL : option string := Some "Codex CLI".

(** ** Names *)

Definition meterIdForMinutes (minutes : option Z) (slot : string) : string :=
  match minutes with
  | None => toUpperCase slot
  | Some m => if m =? 300 then "FIVE_HOUR" else if m =? 10080 then "SEVEN_DAY" else toUpperCase slot
  end.

(** [replace(/([a-z0-9])([A-Z])/g, "$1_$2")]: the second unit of a match never
    begins another. *)
Fixpoint split_camel (s : string) : string :=
  match s with
  | String c (String d _ as s') =>
      if (is_lower c || is_digit c) && is_upper d then String c (String "_" (split_camel s'))
      else String c (split_camel s')
  | _ => s
  end.

Definition is_alphanumeric (c : ascii) : bool := is_upper c || is_lower c || is_digit c.

Definition readableLimitId (value : string) : option string :=
  let readable :=
    toUpperCase (strip_underscores (squeeze is_alphanumeric false (split_camel (trim value)))) in
  check 0 <? str_length readable;; Some readable.

Definition prefixedMeter (limitId duration : string) : string :=
  if str_eqb limitId "CODEX" then duration
  else
    let prefixLength := Z.max 1 (31 - str_length duration) in
    strip_trailing (str_prefix (Z.to_nat prefixLength) limitId) +:+ "_" +:+ duration.

Definition suffixedMeter (meter slot : string) : string :=
  let suffix := "_" +:+ toUpperCase slot in
  strip_trailing (str_prefix (Z.to_nat (32 - str_length suffix)) meter) +:+ suffix.

Example names :
  (readableLimitId " gpt-5.1Codex max ", readableLimitId "__", readableLimitId "codex") =
  (Some "GPT_5_1_CODEX_MAX", None, Some "CODEX") /\
  prefixedMeter "GPT_5_1_CODEX_MAX_PREVIEW" "FIVE_HOUR" = "GPT_5_1_CODEX_MAX_PREV_FIVE_HOUR" /\
  suffixedMeter "GPT_5_1_CODEX_MAX_PREV_FIVE_HOUR" "primary" = "GPT_5_1_CODEX_MAX_PREV_F_PRIMARY".
Proof. by vm_compute. Qed.

(** Digits without a leading zero and perhaps a fraction, nothing else. *)
Definition decimal_pattern (s : string) : bool :=
  let '(digits, rest) := take_run is_digit s in
  whole_digits digits &&
  match rest with
  | EmptyString => true
  | String c fraction =>
      (code c =? 46) && negb (str_eqb fraction "") && str_forall is_digit fraction
  end.

Definition decimal_text (value : jsval) : option num :=
  let? text := as_string value in
  check decimal_pattern text;;
  let parsed := js_number text in
  check is_finite parsed;; Some parsed.

(** A number, or a decimal in a text. *)
Definition stated_amount (value : jsval) : option num :=
  match value with JStr _ => decimal_text value | _ => boundedNumber value 1000000000000 end.

(** A nonzero length in minutes: [null] is unknown, anything else unreadable
    skips the window. *)
Definition window_minutes (value : jsval) : option (option Z) :=
  match value with
  | JNull => Some None
  | JNum n =>
      let? minutes := to_safe_int n in
      check (0 <? minutes) && (minutes <=? 525600);; Some (Some minutes)
  | _ => None
  end.

Definition rolling (seconds : option Z) : SnapshotWindow :=
  match seconds with
  | None => {| w_kind := w_unknown; w_durationSeconds := None |}
  | Some s => {| w_kind := w_rolling; w_durationSeconds := Some s |}
  end.

Definition is_missing (v : jsval) : bool := match v with JUndef | JNull => true | _ => false end.

Definition with_meter (meter : string) (i : RawMeterInput) : RawMeterInput :=
  {| ri_provider := ri_provider i; ri_meter := meter; ri_value := ri_value i; ri_window := ri_window i;
     ri_resetAt := ri_resetAt i; ri_source := ri_source i; ri_precision := ri_precision i;
     ri_observedAt := ri_observedAt i; ri_expiresAt := ri_expiresAt i; ri_labels := ri_labels i;
     ri_amounts := ri_amounts i |}.

(** How often each name occurs. *)
Definition count_names (ids : list string) : list (string * Z) :=
  foldl (fun counts id => assoc_set id (default 0 (assoc_get id counts) + 1) counts) [] ids.

(** Windows of one limit under one name get their slot appended. *)
Definition disambiguate (parsed : list (string * RawMeterInput)) : list RawMeterInput :=
  let counts := count_names (map (fun e => ri_meter e.2) parsed) in
  map (fun e : string * RawMeterInput =>
    if 1 <? default 0 (assoc_get (ri_meter e.2) counts)
    then with_meter (suffixedMeter (ri_meter e.2) e.1) e.2 else e.2) parsed.

(** The row that says credits are unlimited, and the one that states a balance. *)
Definition unlimited_credits (source : SnapshotSource) (labels : ConnectorLabels) (now expiresAt : string) :
    jsval :=
  availability_row CODEX "CREDITS" unlimited w_unknown source now expiresAt labels.

Definition credit_balance (balance : num) (now expiresAt : string) : jsval :=
  JObj [("provider", name CODEX); ("meter", JStr "CREDITS"); ("value", JNum balance);
        ("unit", name CREDITS); ("window", JObj [("kind", name w_lifetime)]); ("resetAt", JNull);
        ("source", name documented_api); ("precision", name p_exact); ("observedAt", JStr now);
        ("expiresAt", JStr expiresAt); ("labels", raw_of_labels codexLabels)].

Section Codex.
Context `{DateHost}.

Definition codex_window (window : list (string * jsval)) (limitId slot now expiresAt : string) :
    option RawMeterInput :=
  let? percent := boundedNumber (get window "usedPercent") 100 in
  let? minutes := window_minutes (get window "windowDurationMins") in
  let resetValue := get window "resetsAt" in
  let resetAt := futureInstantFromEpochSeconds resetValue now None in
  check is_missing resetValue || bool_decide (is_Some resetAt);;
  Some {| ri_provider := CODEX; ri_meter := prefixedMeter limitId (meterIdForMinutes minutes slot);
          ri_value := percent; ri_window := rolling ((fun m => m * 60) <$> minutes);
          ri_resetAt := if is_missing resetValue then None else resetAt;
          ri_source := documented_api; ri_precision := p_exact; ri_observedAt := now;
          ri_expiresAt := expiresAt; ri_labels := codexLabels; ri_amounts := None |}.

Definition slot_window (snapshot : list (string * jsval)) (limitId now expiresAt slot : string) :
    option (string * RawMeterInput) :=
  let? window := record (get snapshot slot) in
  let? input := codex_window window limitId slot now expiresAt in Some (slot, input).

Definition windowsFrom (snapshot : list (string * jsval)) (limitId now expiresAt : string) :
    list RawMeterInput :=
  disambiguate (omap (slot_window snapshot limitId now expiresAt) ["primary"; "secondary"]).

Definition monthlyCreditLimit (value : jsval) (now expiresAt : string) : option RawMeterInput :=
  let? limit := record value in
  let ceiling := stated_amount (get limit "limit") in
  let used := stated_amount (get limit "used") in
  let remaining := boundedNumber (get limit "remainingPercent") 100 in
  let resetAt := futureInstantFromEpochSeconds (get limit "resetsAt") now None in
  match ceiling, used, remaining, resetAt with
  | Some ceiling, Some used, Some remaining, Some resetAt =>
      check negb (ceiling <=# int 0) && negb (ceiling <# used);;
      Some {| ri_provider := CODEX; ri_meter := "MONTHLY_CREDIT_LIMIT";
              ri_value := nround ((int 100 ⊖ remaining) ⊗ int 1000000000000) ⊘ int 1000000000000;
              ri_window := {| w_kind := w_fixed; w_durationSeconds := None |};
              ri_resetAt := Some resetAt; ri_source := documented_api; ri_precision := p_exact;
              ri_observedAt := now; ri_expiresAt := expiresAt; ri_labels := codexLabels;
              ri_amounts := None |}
  | _, _, _, _ => None
  end.

(** The windows of one limit and its monthly credits. *)
Definition limit_meters (snapshot : list (string * jsval)) (limitId now expiresAt : string) :
    list RawMeterInput :=
  windowsFrom snapshot limitId now expiresAt ++
  option_list (monthlyCreditLimit (get snapshot "individualLimit") now expiresAt).

(** *** The legacy document *)

Definition resetFromCountdown (value : jsval) (now : string) (lengthSeconds : option Z) : option string :=
  let? n := as_num value in
  check is_finite n && negb (n <=# int 0);;
  check match lengthSeconds with
        | Some length => negb (int (plausibleResetHorizon length) <# n)
        | None => true
        end;;
  instantAfter now n.

(** [key.replace(/_window$/, "")] on a key that ends so. *)
Fixpoint before_window (key : string) : option string :=
  if str_eqb key "_window" then Some ""
  else match key with
       | String c key' => let? rest := before_window key' in Some (String c rest)
       | EmptyString => None
       end.

Definition meterIdFor (lengthSeconds : option Z) (stem : string) : string :=
  if bool_decide (lengthSeconds = Some 18000) then "FIVE_HOUR"
  else if bool_decide (lengthSeconds = Some 604800) then "SEVEN_DAY"
  else toUpperCase stem.

Definition legacy_window (limits : list (string * jsval)) (now expiresAt windowKey : string) :
    option RawMeterInput :=
  let? stem := before_window windowKey in
  let? windowRecord := record (get limits windowKey) in
  let? percent := boundedNumber (get windowRecord "used_percent") 100 in
  let length := windowSeconds (get windowRecord "limit_window_seconds") in
  let resetProvided := negb (is_missing (get windowRecord "reset_at")) in
  let countdownProvided := negb (is_missing (get windowRecord "reset_after_seconds")) in
  let resetAt :=
    if resetProvided
    then futureInstantFromEpochSeconds (get windowRecord "reset_at") now (plausibleResetHorizon <$> length)
    else if countdownProvided
    then resetFromCountdown (get windowRecord "reset_after_seconds") now length
    else None in
  check negb (resetProvided || countdownProvided) || bool_decide (is_Some resetAt);;
  Some {| ri_provider := CODEX; ri_meter := meterIdFor length stem; ri_value := percent;
          ri_window := rolling length; ri_resetAt := resetAt; ri_source := internal_payload;
          ri_precision := p_estimated; ri_observedAt := now; ri_expiresAt := expiresAt;
          ri_labels := legacyCodexLabels; ri_amounts := None |}.

Definition parseLegacyCodexPayload (root : list (string * jsval)) (now expiresAt : string) :
    option (list jsval) :=
  let limits := default [] (record (get root "rate_limit")) in
  let credits := default [] (record (get root "credits")) in
  let meters :=
    map rawMeter (omap (legacy_window limits now expiresAt) limits.*1) ++
    match get credits "unlimited" with
    | JBool true => [unlimited_credits internal_payload legacyCodexLabels now expiresAt]
    | _ => []
    end in
  check negb (bool_decide (meters = []));; Some meters.

(** *** The app server's answer *)

(** One entry of [rateLimitsByLimitId]: its meters, and whether it covered the
    default limit. *)
Definition limit_entry (defaultLimitId : option string) (now expiresAt : string)
    (entry : string * jsval) : list RawMeterInput * bool :=
  match record entry.2 with
  | None => ([], false)
  | Some snapshot =>
      let statedId := match get snapshot "limitId" with JStr id => id | _ => entry.1 end in
      match readableLimitId statedId with
      | None => ([], false)
      | Some limitId =>
          (limit_meters snapshot limitId now expiresAt,
           negb (bool_decide (windowsFrom snapshot limitId now expiresAt = [])) &&
           bool_decide (Some limitId = defaultLimitId))
      end
  end.

Definition credit_rows (credits : jsval) (now expiresAt : string) : list jsval :=
  let credits := default [] (record credits) in
  match get credits "unlimited", get credits "hasCredits" with
  | JBool true, _ => [unlimited_credits documented_api codexLabels now expiresAt]
  | _, JBool true =>
      match decimal_text (get credits "balance") with
      | Some balance => [credit_balance balance now expiresAt]
      | None => []
      end
  | _, _ => []
  end.

Definition codex_meters (root defaultLimits : list (string * jsval)) (now expiresAt : string) :
    list jsval :=
  let statedDefaultId := match get defaultLimits "limitId" with JStr id => id | _ => "codex" end in
  let defaultLimitId := readableLimitId statedDefaultId in
  let entries :=
    map (limit_entry defaultLimitId now expiresAt) (default [] (record (get root "rateLimitsByLimitId"))) in
  let defaultCovered := existsb snd entries in
  let defaults :=
    match defaultLimitId with
    | Some id => if defaultCovered then [] else limit_meters defaultLimits id now expiresAt
    | None => []
    end in
  map rawMeter (defaults ++ mjoin (map fst entries)) ++
  credit_rows (get defaultLimits "credits") now expiresAt.

(** The outer [None]: [shortExpiry] threw, which it does before anything else. *)
Definition parseCodexPayload (payload : jsval) (now : string) : option (option (list jsval)) :=
  let? expiresAt := shortExpiry now in
  Some (
    let? root := record payload in
    let? expiresAt := expiresAt in
    match record (get root "rateLimits") with
    | None => parseLegacyCodexPayload root now expiresAt
    | Some defaultLimits =>
        let meters := codex_meters root defaultLimits now expiresAt in
        check negb (bool_decide (meters = []));; Some meters
    end).

(** ** Names fit the normalizer's pattern *)

(** Only units of a meter, the first of them a letter or digit. *)
Definition limit_name (s : string) : Prop :=
  str_forall meter_char s = true /\ exists c s', s = String c s' /\ is_upper_or_digit c = true.

Lemma is_upper_or_digit_meter c : is_upper_or_digit c = true -> meter_char c = true.
Proof. unfold is_upper_or_digit, meter_char. by intros ->. Qed.

Lemma upper_or_digit_not_underscore c : is_upper_or_digit c = true -> is_underscore c = false.
Proof.
  unfold is_upper_or_digit, is_underscore, is_upper, is_digit, in_range. intros Hu.
  apply Z.eqb_neq. intros Hc. rewrite Hc in Hu. done.
Qed.

Lemma upper_alphanumeric c :
  is_alphanumeric c = true -> is_upper_or_digit (upper_char c) = true.
Proof.
  unfold is_alphanumeric, is_upper_or_digit, upper_char. destruct (is_lower c) eqn:Hl.
  - intros _. unfold is_lower, is_upper, is_digit, in_range in *. bools.
    rewrite code_chr by lia. rewrite (proj2 (Z.leb_le _ _)), (proj2 (Z.leb_le _ _)) by lia. done.
  - by rewrite orb_false_r.
Qed.

Lemma readableLimitId_name value id : readableLimitId value = Some id -> limit_name id.
Proof.
  unfold readableLimitId. set (s := squeeze _ _ _).
  assert (Hs : str_forall (fun c => is_alphanumeric c || is_underscore c) s = true) by apply squeeze_chars.
  clearbody s. intros E. destruct (0 <? _) eqn:Hl in E; [|done]. apply (inj Some) in E as <-.
  assert (Hall : str_forall (fun c => is_alphanumeric c || is_underscore c) (strip_underscores s) = true).
  { by apply strip_trailing_forall, strip_leading_forall. }
  split.
  - revert Hall. apply toUpperCase_forall. intros c [Hc|Hc]%orb_true_iff.
    + by apply is_upper_or_digit_meter, upper_alphanumeric.
    + by apply underscore_code in Hc as ->.
  - unfold strip_underscores in *.
    destruct (strip_leading_first s) as [E|(c & s' & E & Hc)]; rewrite E in *; [done|].
    destruct (strip_trailing_first c s' Hc) as [s'' E']. rewrite E' in *.
    simpl in Hall. apply andb_true_iff in Hall as [Hall _]. rewrite Hc, orb_false_r in Hall.
    exists (upper_char c), (toUpperCase s''). split; [done|]. by apply upper_alphanumeric.
Qed.

(** A name that fits, but may begin with a digit. *)
Definition code_shape (s : string) : Prop := limit_name s /\ str_length s <= 32.

Lemma code_shape_safe s :
  code_shape s -> safeMeter s = true \/ exists c s', s = String c s' /\ is_digit c = true.
Proof.
  intros [[Hall (c & s' & -> & Hc)] Hl]. unfold is_upper_or_digit in Hc.
  apply orb_true_iff in Hc as [Hc|Hc]; [left|right; eauto].
  by apply safeMeter_iff.
Qed.

(** A cut prefix of a name with a suffix is a name. *)
Lemma joined_name id n suffix :
  limit_name id -> (0 < n)%nat -> str_forall meter_char suffix = true ->
  limit_name (strip_trailing (str_prefix n id) +:+ suffix).
Proof.
  intros [Hall (c & s' & -> & Hc)] Hn Hs. destruct n as [|n]; [lia|]. split.
  - rewrite str_forall_app, Hs, andb_true_r. by apply strip_trailing_forall, str_prefix_forall.
  - cbn [str_prefix]. destruct (strip_trailing_first c (str_prefix n s')) as [s'' ->];
      [by apply upper_or_digit_not_underscore|]. exists c. by eexists.
Qed.

Lemma prefixedMeter_shape id duration :
  limit_name id -> limit_name duration -> str_length duration <= 30 ->
  code_shape (prefixedMeter id duration).
Proof.
  intros Hid Hd Hl. unfold prefixedMeter. destruct (str_eqb _ _); [split; [done|lia]|].
  split.
  - apply joined_name; [done|lia|]. destruct Hd as [Hd _]. by simpl.
  - rewrite str_length_app.
    pose proof (strip_trailing_length (str_prefix (Z.to_nat (Z.max 1 (31 - str_length duration))) id)).
    pose proof (str_prefix_length (Z.to_nat (Z.max 1 (31 - str_length duration))) id).
    rewrite str_length_app. simpl. lia.
Qed.

Definition slots : list string := ["primary"; "secondary"].

Lemma slot_suffix slot : slot ∈ slots ->
  str_forall meter_char ("_" +:+ toUpperCase slot) = true /\ str_length ("_" +:+ toUpperCase slot) <= 10.
Proof.
  intros [->|Hs]%elem_of_cons; [done|]. apply list_elem_of_singleton in Hs as ->. done.
Qed.

Lemma suffixedMeter_shape meter slot : code_shape meter -> slot ∈ slots -> code_shape (suffixedMeter meter slot).
Proof.
  intros [Hm Hl] Hs. apply slot_suffix in Hs as [Hc Hlen]. unfold suffixedMeter.
  generalize dependent ("_" +:+ toUpperCase slot). intros suffix Hc Hlen. split.
  - apply joined_name; [done|lia|done].
  - rewrite str_length_app.
    pose proof (strip_trailing_length (str_prefix (Z.to_nat (32 - str_length suffix)) meter)).
    pose proof (str_prefix_length (Z.to_nat (32 - str_length suffix)) meter). lia.
Qed.

Lemma meterIdForMinutes_shape minutes slot : slot ∈ slots ->
  limit_name (meterIdForMinutes minutes slot) /\ str_length (meterIdForMinutes minutes slot) <= 30.
Proof.
  intros Hs. assert (Hslot : limit_name (toUpperCase slot) /\ str_length (toUpperCase slot) <= 30).
  { apply elem_of_cons in Hs as [->|Hs]; [|apply list_elem_of_singleton in Hs as ->];
      (split; [split; [done|by do 2 eexists]|done]). }
  unfold meterIdForMinutes. destruct minutes as [m|]; [|done].
  destruct (m =? 300); [split; [split; [done|by do 2 eexists]|done]|].
  destruct (m =? 10080); [split; [split; [done|by do 2 eexists]|done]|done].
Qed.

(** ** Every meter is a reading *)

(** What a window states is checked but for its name. *)
Lemma codex_window_checked window id slot now e i :
  iso now -> shortExpiry now = Some (Some e) -> limit_name id -> slot ∈ slots ->
  codex_window window id slot now e = Some i ->
  code_shape (ri_meter i) /\ ri_provider i = CODEX /\ ri_observedAt i = now /\
  (forall code, safeMeter code = true -> checked (with_meter code i)).
Proof.
  intros Hnow He Hid Hs. unfold codex_window.
  destruct (boundedNumber _ 100) as [percent|] eqn:Ep; [|done].
  destruct (window_minutes _) as [minutes|] eqn:Em; [|done].
  destruct (is_missing _ || _) eqn:Er; [|done]. intros E. apply (inj Some) in E as <-.
  split_and!; [|done..|].
  - destruct (meterIdForMinutes_shape minutes slot Hs). by apply prefixedMeter_shape.
  - intros code Hcode. split; try done.
    + by apply boundedNumber_Some in Ep.
    + unfold window_minutes in Em. split_hyp Em. bools. simpl. unfold window_ok. simpl. lia.
    + cbn [ri_resetAt with_meter ri_observedAt]. destruct (is_missing _); [done|].
      destruct (futureInstantFromEpochSeconds _ _ _) as [r|] eqn:Eq; [|done].
      eexists. by eapply futureInstantFromEpochSeconds_ahead.
Qed.

(** Believed as a reading, or refused for a name that begins with a digit. *)
Definition codex_meter (now : string) (m : jsval) : Prop :=
  exists code, meter_of m = JStr code /\
    (believed CODEX now m \/ exists c s', code = String c s' /\ is_digit c = true).

Lemma with_meter_same i : with_meter (ri_meter i) i = i.
Proof. by destruct i. Qed.

(** A name of the right shape is enough for what was checked. *)
Lemma shaped_meter now i code :
  ri_provider i = CODEX -> ri_observedAt i = now -> code_shape code ->
  (safeMeter code = true -> checked (with_meter code i)) ->
  codex_meter now (rawMeter (with_meter code i)).
Proof.
  intros Hp Ho Hc Hk. exists code. split; [done|].
  destruct (code_shape_safe code Hc) as [Hs|Hd]; [left|by right].
  apply sound_believed. rewrite <- Hp, <- Ho. by apply (rawMeter_sound (with_meter code i)), Hk.
Qed.

Lemma elem_of_windows snapshot id now e x :
  x ∈ omap (slot_window snapshot id now e) slots ->
  x.1 ∈ slots /\ exists window, codex_window window id x.1 now e = Some x.2.
Proof.
  intros (slot & Hs & E)%list_elem_of_omap. unfold slot_window in E.
  destruct (record _) as [window|]; [|done].
  destruct (codex_window window id slot now e) as [i|] eqn:Ei; [|done].
  apply (inj Some) in E as <-. split; [done|]. by exists window.
Qed.

Lemma windowsFrom_ok snapshot id now e :
  iso now -> shortExpiry now = Some (Some e) -> limit_name id ->
  Forall (fun i => codex_meter now (rawMeter i)) (windowsFrom snapshot id now e).
Proof.
  intros Hnow He Hid. unfold windowsFrom, disambiguate. fold slots. apply Forall_fmap, Forall_forall.
  intros x Hx. apply elem_of_windows in Hx as (Hs & window & Hw).
  destruct (codex_window_checked _ _ _ _ _ _ Hnow He Hid Hs Hw) as (Hc & Hp & Ho & Hk). simpl.
  destruct (1 <? _).
  - apply shaped_meter; auto. by apply suffixedMeter_shape.
  - rewrite <- with_meter_same at 1. apply shaped_meter; auto.
Qed.

Lemma stated_amount_finite v n : stated_amount v = Some n -> is_finite n = true.
Proof.
  unfold stated_amount, decimal_text. destruct v as [| | |x|s| |]; try done.
  - intros E%boundedNumber_Some. by destruct E as (z & -> & _).
  - cbn [as_string]. destruct (decimal_pattern s); [|done].
    destruct (is_finite (js_number s)) eqn:Ef; [|done]. by intros [= <-].
Qed.

Lemma monthly_ok v now e i :
  iso now -> shortExpiry now = Some (Some e) -> monthlyCreditLimit v now e = Some i ->
  sound CODEX now (rawMeter i).
Proof.
  intros Hnow He. unfold monthlyCreditLimit. destruct (record v) as [limit|]; [|done].
  destruct (stated_amount (get limit "limit")), (stated_amount (get limit "used")); try done.
  destruct (boundedNumber _ 100) as [remaining|] eqn:Er; [|done].
  destruct (futureInstantFromEpochSeconds _ _ _) as [reset|] eqn:Es; [|done].
  destruct (negb _ && _); [|done]. intros E. apply (inj Some) in E as <-.
  apply boundedNumber_Some in Er. apply futureInstantFromEpochSeconds_ahead in Es.
  apply (rawMeter_sound {| ri_provider := CODEX; ri_observedAt := now |}). split; try done; [|by eexists].
  apply bounded_div; [|done|done]. apply bounded_round.
  apply bounded_mul; [by apply bounded_sub|done|done].
Qed.

Lemma limit_meters_ok snapshot id now e :
  iso now -> shortExpiry now = Some (Some e) -> limit_name id ->
  Forall (fun i => codex_meter now (rawMeter i)) (limit_meters snapshot id now e).
Proof.
  intros Hnow He Hid. unfold limit_meters. apply Forall_app. split; [by apply windowsFrom_ok|].
  destruct (monthlyCreditLimit _ _ _) as [i|] eqn:Ei; [|constructor]. apply Forall_singleton.
  assert (Hm : ri_meter i = "MONTHLY_CREDIT_LIMIT").
  { revert Ei. unfold monthlyCreditLimit. repeat case_match; try done. by intros [= <-]. }
  exists (ri_meter i). split; [done|]. left. by eapply sound_believed, monthly_ok.
Qed.

(** ** Rows about credits *)

Definition balance_snapshot (balance : num) (now e : string) : Snapshot :=
  {| s_provider := CODEX; s_meter := "CREDITS"; s_value := balance; s_unit := CREDITS;
     s_window := {| w_kind := w_lifetime; w_durationSeconds := None |}; s_resetAt := None;
     s_source := documented_api; s_precision := p_exact; s_observedAt := now; s_expiresAt := e;
     s_labels := codexLabels; s_usedAmount := None; s_limitAmount := None; s_currency := None;
     s_accountId := None; s_accountLabel := None; s_provenance := None; s_writer := None;
     s_kind := None; s_availability := None; s_retryAt := None |}.

Lemma unlimited_believed source labels now e :
  iso now -> shortExpiry now = Some (Some e) -> labels_ok labels ->
  believed CODEX now (unlimited_credits source labels now e).
Proof. intros. by apply sound_believed, availability_row_sound. Qed.

Lemma balance_believed balance now e :
  iso now -> shortExpiry now = Some (Some e) -> bounded 1000000000000 balance ->
  believed CODEX now (credit_balance balance now e).
Proof.
  intros Hnow He Hb. destruct (shortExpiry_Some _ _ He).
  destruct (reads_like (default [] (record_of (credit_balance balance now e)))
    (balance_snapshot balance now e)) as (s & Hs & Eh).
  - split; done.
  - intros k _. unfold credit_balance, snapshot_fields, raw_of_snapshot, get. simpl.
    repeat case_decide; by subst.
  - apply hard_part_fields in Eh as (? & _ & _ & _ & _ & ?). by exists s.
Qed.

(** *** The legacy windows *)

Lemma instantAfter_iso now n r : instantAfter now n = Some r -> iso r.
Proof.
  unfold instantAfter. destruct (date_parse now) as [c|]; [|done].
  destruct (time_clip _) as [t|] eqn:Et; [|done]. intros [= <-]. apply is_iso_instant_to_iso.
  unfold time_clip in Et. split_hyp Et.
Qed.

Lemma windowSeconds_ok v : window_ok (rolling (windowSeconds v)).
Proof.
  unfold window_ok. destruct (windowSeconds v) as [s|] eqn:E; [|done].
  apply windowSeconds_Some in E. unfold MAX_WINDOW_SECONDS in E. simpl. lia.
Qed.

Lemma legacy_window_ok limits now e key i :
  iso now -> shortExpiry now = Some (Some e) -> legacy_window limits now e key = Some i ->
  believed CODEX now (rawMeter i) \/ safeMeter (ri_meter i) = false.
Proof.
  intros Hnow He. unfold legacy_window. destruct (before_window key) as [stem|]; [|done].
  destruct (record _) as [w|]; [|done]. destruct (boundedNumber _ 100) as [percent|] eqn:Ep; [|done].
  set (resetAt := if negb (is_missing (get w "reset_at")) then _ else _).
  assert (Hr : from_option iso True resetAt).
  { unfold resetAt. destruct (negb (is_missing (get w "reset_at"))).
    - destruct (futureInstantFromEpochSeconds _ _ _) as [r|] eqn:Er; [|done].
      eapply ahead_iso. by eapply futureInstantFromEpochSeconds_ahead.
    - destruct (negb _); [|done]. destruct (resetFromCountdown _ _ _) as [r|] eqn:Er; [|done].
      revert Er. unfold resetFromCountdown. destruct (as_num _); [|done].
      destruct (is_finite n && _); [|done]. destruct (match windowSeconds _ with Some _ => _ | _ => _ end); [|done].
      apply instantAfter_iso. }
  clearbody resetAt. destruct (negb _ || _); [|done]. intros E. apply (inj Some) in E as <-.
  cbn [ri_meter]. destruct (safeMeter (meterIdFor _ _)) eqn:Hs; [left|by right].
  apply (rawMeter_believed {| ri_provider := CODEX; ri_observedAt := now |}).
  destruct (shortExpiry_Some _ _ He). split; try done; [|apply windowSeconds_ok].
  by apply boundedNumber_Some in Ep.
Qed.

(** Believed, or refused for its name, or a balance beyond the largest value. *)
Definition too_rich (now : string) (m : jsval) : Prop :=
  exists balance e, m = credit_balance balance now e /\ ~ bounded 1000000000000 balance.

Definition legacy_meter (now : string) (m : jsval) : Prop :=
  exists code, meter_of m = JStr code /\ (believed CODEX now m \/ safeMeter code = false).

Lemma bounded_dec hi n : bounded hi n \/ ~ bounded hi n.
Proof.
  destruct (int 0 <=# n) eqn:H1, (n <=# int hi) eqn:H2;
    [by left; apply bounded_iff|right; intros [? ?]%bounded_iff; congruence..].
Qed.

Lemma credit_rows_ok credits now e :
  iso now -> shortExpiry now = Some (Some e) ->
  Forall (fun m => codex_meter now m \/ too_rich now m) (credit_rows credits now e).
Proof.
  intros Hnow He. unfold credit_rows. set (fs := default [] (record credits)).
  assert (Hu : codex_meter now (unlimited_credits documented_api codexLabels now e)).
  { exists "CREDITS". split; [done|]. left. by apply unlimited_believed. }
  assert (Hb : Forall (fun m => codex_meter now m \/ too_rich now m)
    match decimal_text (get fs "balance") with Some b => [credit_balance b now e] | None => [] end).
  { destruct (decimal_text _) as [b|]; [|constructor]. apply Forall_singleton.
    destruct (bounded_dec 1000000000000 b) as [Hb|Hb]; [left|right; by exists b, e].
    exists "CREDITS". split; [done|]. left. by apply balance_believed. }
  destruct (get fs "unlimited") as [| |[]| | | |], (get fs "hasCredits") as [| |[]| | | |];
    try done; try constructor; auto; constructor.
Qed.

Lemma codex_meters_ok root defaults now e :
  iso now -> shortExpiry now = Some (Some e) ->
  Forall (fun m => codex_meter now m \/ too_rich now m) (codex_meters root defaults now e).
Proof.
  intros Hnow He. unfold codex_meters. apply Forall_app. split; [|by apply credit_rows_ok].
  apply Forall_fmap. apply (Forall_impl (fun i => codex_meter now (rawMeter i))); [|by left].
  apply Forall_app. split.
  - destruct (readableLimitId _) as [id|] eqn:Eid; [|constructor]. apply readableLimitId_name in Eid.
    destruct (existsb _ _); [constructor|by apply limit_meters_ok].
  - apply Forall_join, Forall_fmap, Forall_fmap, Forall_forall. intros entry _. simpl.
    unfold limit_entry. destruct (record entry.2) as [snapshot|]; [|constructor].
    destruct (readableLimitId _) as [id|] eqn:Eid; [|constructor]. apply readableLimitId_name in Eid.
    by apply limit_meters_ok.
Qed.

(** A payload that was understood holds at least one meter. Of the app server's
    answer each meter is a reading the normalizer believes, with a percentage in
    range, however its limit's id was cut to fit the pattern; refused are only
    those whose limit's id begins with a digit, and a credit balance beyond a
    million millions. Of the legacy document a meter is believed when its
    window's own key names it within the pattern. *)
Theorem codex_meters_are_readings payload now root ms :
  is_iso_instant now = true -> record_of payload = Some root ->
  parseCodexPayload payload now = Some (Some ms) ->
  ms <> [] /\
  if isRecord (get root "rateLimits") then Forall (fun m => codex_meter now m \/ too_rich now m) ms
  else Forall (legacy_meter now) ms.
Proof.
  intros Hnow Hroot. unfold parseCodexPayload, record. rewrite Hroot.
  destruct (shortExpiry now) as [[e|]|] eqn:He; try done. intros E. apply (inj Some) in E. revert E.
  replace (isRecord (get root "rateLimits")) with (bool_decide (is_Some (record_of (get root "rateLimits"))))
    by (by destruct (get root "rateLimits")).
  destruct (record_of (get root "rateLimits")) as [defaults|]; cbn [bool_decide].
  - cbv zeta. case_bool_decide as Hne; [done|]. intros E. apply (inj Some) in E as <-.
    split; [done|]. by apply codex_meters_ok.
  - unfold parseLegacyCodexPayload. cbv zeta. case_bool_decide as Hne; [done|].
    intros E. apply (inj Some) in E as <-. split; [done|]. clear Hne. apply Forall_app. split.
    + apply Forall_fmap, Forall_forall. intros i (key & _ & Ei)%list_elem_of_omap. simpl.
      exists (ri_meter i). split; [done|]. by eapply legacy_window_ok.
    + assert (Hu : legacy_meter now (unlimited_credits internal_payload legacyCodexLabels now e)).
      { exists "CREDITS". split; [done|]. left. by apply unlimited_believed. }
      destruct (get _ "unlimited") as [| |[]| | | |]; constructor; done.
Qed.

(** ** Windows of one limit have names of their own *)

Lemma slots_apart x y : suffixedMeter x "primary" <> suffixedMeter y "secondary".
Proof.
  unfold suffixedMeter. generalize (strip_trailing (str_prefix (Z.to_nat (32 - str_length ("_" +:+ toUpperCase "primary"))) x)).
  generalize (strip_trailing (str_prefix (Z.to_nat (32 - str_length ("_" +:+ toUpperCase "secondary"))) y)).
  clear. intros y x E. change ("_" +:+ toUpperCase "primary") with ("_PRIM" +:+ "ARY") in E.
  change ("_" +:+ toUpperCase "secondary") with ("_SECOND" +:+ "ARY") in E.
  rewrite !str_app_assoc in E. apply str_app_inj_r in E. apply (f_equal last_unit) in E.
  by rewrite !last_unit_app in E.
Qed.

Lemma omap_slots (f : string -> option (string * RawMeterInput)) :
  (forall slot x, f slot = Some x -> x.1 = slot) ->
  omap f slots = [] \/ (exists x, omap f slots = [x]) \/
  exists x y, omap f slots = [("primary", x); ("secondary", y)].
Proof.
  intros Hf. unfold slots. simpl. destruct (f "primary") as [[s1 x]|] eqn:E1, (f "secondary") as [[s2 y]|] eqn:E2;
    try apply Hf in E1; try apply Hf in E2; simpl in *; subst; eauto 6.
Qed.

(** No two windows of one limit share a name, even when the provider gives both
    the same length: then each is told apart by its slot. *)
Theorem windows_of_a_limit_have_distinct_names snapshot limitId now expiresAt :
  NoDup (map ri_meter (windowsFrom snapshot limitId now expiresAt)).
Proof.
  unfold windowsFrom, disambiguate. fold slots.
  destruct (omap_slots (slot_window snapshot limitId now expiresAt)) as [->|[[x ->]|(x & y & ->)]].
  - intros slot z E. unfold slot_window in E. destruct (record _); [|done].
    destruct (codex_window _ _ _ _ _); [|done]. by injection E as <-.
  - constructor.
  - apply NoDup_singleton.
  - unfold count_names. cbn [map foldl assoc_get assoc_set default fst snd].
    destruct (decide (ri_meter y = ri_meter x)) as [E|E]; cbn [assoc_get assoc_set fst snd map];
      rewrite ?E, ?decide_True by done; rewrite ?(decide_False (P := ri_meter x = ri_meter y)) by done;
      cbn [default id from_option map assoc_get]; rewrite ?decide_True by done; cbn.
    + apply NoDup_cons. split; [|apply NoDup_singleton].
      intros Hin%list_elem_of_singleton. by apply slots_apart in Hin.
    + rewrite decide_False, decide_True by done. cbn.
      apply NoDup_cons. split; [|apply NoDup_singleton]. by intros Hin%list_elem_of_singleton.
Qed.
End Codex.

(** ** Witnesses *)

Definition sample_codex_now : string := "2026-09-04T12:00:00.000Z".

Definition codex_sample_window (percent minutes : Z) : jsval :=
  JObj [("usedPercent", JNum (int percent)); ("windowDurationMins", JNum (int minutes)); ("resetsAt", JNull)].

(** A monthly limit that resets in October. *)
Definition codex_sample_monthly : jsval :=
  JObj [("limit", JStr "100"); ("used", JStr "12.5"); ("remainingPercent", JNum (int 87));
        ("resetsAt", JNum (int 1790812800))].

Definition codex_sample_limit (id : string) : jsval :=
  JObj [("limitId", JStr id); ("primary", codex_sample_window 12 300);
        ("secondary", codex_sample_window 34 10080); ("individualLimit", codex_sample_monthly)].

Definition codex_sample (limits : list string) : list (string * jsval) :=
  [("rateLimits", codex_sample_limit "codex");
   ("rateLimitsByLimitId", JObj (map (fun id => (id, codex_sample_limit id)) limits))].

Definition codex_sample_meters (limits : list string) : list jsval :=
  match parseCodexPayload (JObj (codex_sample limits)) sample_codex_now with Some (Some ms) => ms | _ => [] end.

Example codex_sample_names :
  map meter_of (codex_sample_meters ["codex"; "gpt-5-spark"]) =
  map JStr ["FIVE_HOUR"; "SEVEN_DAY"; "MONTHLY_CREDIT_LIMIT"; "GPT_5_SPARK_FIVE_HOUR";
            "GPT_5_SPARK_SEVEN_DAY"; "MONTHLY_CREDIT_LIMIT"].
Proof. by vm_compute. Qed.

Lemma codex_meters_are_readings_witness :
  length (codex_sample_meters ["gpt-5-spark"]) = 6%nat /\
  codex_sample_meters ["gpt-5-spark"] <> [] /\
  if isRecord (get (codex_sample ["gpt-5-spark"]) "rateLimits")
  then Forall (fun m => codex_meter sample_codex_now m \/ too_rich sample_codex_now m)
         (codex_sample_meters ["gpt-5-spark"])
  else Forall (legacy_meter sample_codex_now) (codex_sample_meters ["gpt-5-spark"]).
Proof.
  split; [by vm_compute|].
  apply (codex_meters_are_readings (JObj (codex_sample ["gpt-5-spark"])) sample_codex_now);
    [by vm_compute|done|].
  assert (Hne : codex_sample_meters ["gpt-5-spark"] <> []) by (by vm_compute). revert Hne.
  unfold codex_sample_meters. by destruct (parseCodexPayload _ _) as [[ms|]|].
Defined.

(** Two limits with credits of their own give two meters of one name, of which
    the cache keeps one; and a limit whose id begins with a digit gives meters
    the normalizer refuses. *)
Theorem codex_names_can_collide_or_be_refused :
  meter_of (nth 2 (codex_sample_meters ["codex"; "gpt-5-spark"]) JNull) =
  meter_of (nth 5 (codex_sample_meters ["codex"; "gpt-5-spark"]) JNull) /\
  meter_of (nth 0 (codex_sample_meters ["4o-mini"; "codex"]) JNull) = JStr "4O_MINI_FIVE_HOUR" /\
  normalizeMeter (nth 0 (codex_sample_meters ["4o-mini"; "codex"]) JNull) = None.
Proof. vm_compute. by split_and!. Qed.
