(* ===== verification/QuotaPayloads.v ===== *)
(** * The payloads of Kimi, Grok, OpenCode, Gemini CLI and a person

    [packages/connectors/src/kimi.ts], [grok.ts], [opencode.ts], [gemini-cli.ts]
    and [manual.ts]: each answers every meter or, but for the manual document,
    refuses the whole payload. *)
From S2P Require Import Prelude JsNum JsDate JsValue Text Types Normalizer Files Connector.
Local Open Scope string_scope.
Local Open Scope Z_scope.
Local Open Scope list_scope.
Local Open Scope js_scope.

(** The labels of a reader nobody has verified. *)
Definition unverified (origin : CredentialOrigin) (status : DataInterfaceStatus) (risk : AutomationRisk) :
    ConnectorLabels :=
  {| lb_credentialOrigin := origin; lb_dataInterfaceStatus := status; lb_automationRisk := risk;
     lb_verification := UNVERIFIED; lb_verificationEvidence := None |}.

Definition kimiLabels := unverified official_local_tool internal_endpoint risk_high.
Definition grokLabels := unverified official_local_tool internal_endpoint risk_high.
Definition opencodeLabels := unverified official_local_tool internal_endpoint risk_high.
Definition geminiCliLabels := unverified official_local_tool internal_endpoint risk_high.
Definition manualLabels := unverified user_entered manual_status risk_low.

Definition KIMI_TOOL : option string := Some "Kimi CLI".
Definition GROK_TOOL : option string := Some "Grok Build".
Definition OPENCODE_TOOL : option string := Some "OpenCode".
Definition GEMINI_CLI_TOOL : option string := Some "Gemini CLI".
Definition MANUAL_TOOL : option string := None.

(** A number or the text of one, from zero to a million millions. *)
Definition numeric (value : jsval) : option num :=
  let? parsed :=
    match value with
    | JStr s => if str_eqb (trim s) "" then None else Some (js_number s)
    | JNum n => Some n
    | _ => None
    end in
  check is_finite parsed && (int 0 <=# parsed) && (parsed <=# int 1000000000000);; Some parsed.

Definition has_field (fs : list (string * jsval)) (k : string) : bool := bool_decide (k ∈ fs.*1).

(** A meter of one of these readers. *)
Definition quota_meter (provider : ProviderCode) (labels : ConnectorLabels) (now expiresAt meter : string)
    (value : num) (window : SnapshotWindow) (resetAt : option string) : RawMeterInput :=
  {| ri_provider := provider; ri_meter := meter; ri_value := value; ri_window := window;
     ri_resetAt := resetAt; ri_source := internal_payload; ri_precision := p_estimated;
     ri_observedAt := now; ri_expiresAt := expiresAt; ri_labels := labels; ri_amounts := None |}.

Definition window_of (kind : WindowKind) (seconds : option Z) : SnapshotWindow :=
  {| w_kind := kind; w_durationSeconds := seconds |}.

(** ** Kimi *)

Definition unit_seconds (timeUnit : string) : option Z :=
  assoc_get timeUnit [("TIME_UNIT_MINUTE", 60); ("TIME_UNIT_HOUR", 3600);
                      ("TIME_UNIT_DAY", 86400); ("TIME_UNIT_WEEK", 604800)].

(** [String(value)], when it could name a unit: a text, or an array around one. *)
Fixpoint unit_text (value : jsval) : option string :=
  match value with
  | JStr s => Some s
  | JArr [v] => unit_text v
  | _ => None
  end.

Definition durationSeconds (value : jsval) : option Z :=
  let? window := record value in
  let? n := as_num (get window "duration") in
  let? duration := to_int n in
  check 0 <? duration;;
  let? timeUnit := unit_text (get window "timeUnit") in
  let? multiplier := unit_seconds timeUnit in
  let seconds := duration * multiplier in
  check seconds <=? 31536000;; Some seconds.

Definition meter_base (seconds : Z) : string :=
  if seconds =? 300 then "FIVE_MINUTE"
  else if seconds =? 18000 then "FIVE_HOUR"
  else if seconds =? 86400 then "DAILY"
  else if seconds =? 604800 then "SEVEN_DAY"
  else "WINDOW_" +:+ decimal seconds.

Definition meterName (seconds ordinal : Z) : option string :=
  let meter :=
    if ordinal =? 1 then meter_base seconds else meter_base seconds +:+ "_" +:+ decimal ordinal in
  check safeMeter meter;; Some meter.

Section Quotas.
Context `{DateHost}.

Definition quota (value : jsval) (now : string) (horizon : Z) : option (num * string) :=
  let? detail := record value in
  let? used := numeric (get detail "used") in
  let? limit := numeric (get detail "limit") in
  check negb (limit <=# int 0) && negb (limit <# used);;
  let? resetAt :=
    futureInstantFromRfc3339 (get detail "resetTime") now (Some (plausibleResetHorizon horizon)) in
  Some (used ⊘ limit ⊗ int 100, resetAt).

(** One entry of [limits]: refused, skipped, or a reading of a window. *)
Definition kimi_entry (entryValue : jsval) (now : string) : option (option (Z * (num * string))) :=
  let? entry := record entryValue in
  match record (get entry "detail") with
  | None => Some None
  | Some detail =>
      if existsb (has_field detail) ["used"; "limit"; "resetTime"] then
        let? seconds := durationSeconds (get entry "window") in
        let? reading := quota (get entry "detail") now seconds in
        Some (Some (seconds, reading))
      else Some None
  end.

Definition kimi_meter (now expiresAt meter : string) (seconds : Z) (reading : num * string) : RawMeterInput :=
  quota_meter KIMI kimiLabels now expiresAt meter reading.1 (window_of w_rolling (Some seconds))
    (Some reading.2).

(** The entries in order, with how many windows of each length came before. *)
Fixpoint kimi_limits (entries : list jsval) (ordinals : list (Z * Z)) (now expiresAt : string) :
    option (list RawMeterInput) :=
  match entries with
  | [] => Some []
  | entryValue :: entries =>
      let? read := kimi_entry entryValue now in
      match read with
      | None => kimi_limits entries ordinals now expiresAt
      | Some (seconds, reading) =>
          let ordinal := default 0 (assoc_get seconds ordinals) + 1 in
          let? meter := meterName seconds ordinal in
          let? rest := kimi_limits entries (assoc_set seconds ordinal ordinals) now expiresAt in
          Some (kimi_meter now expiresAt meter seconds reading :: rest)
      end
  end.

Definition parseKimiPayload (payload : jsval) (now : string) : option (option (list jsval)) :=
  let? expiresAt := shortExpiry now in
  Some (
    let? root := record payload in
    let? expiresAt := expiresAt in
    let? weekly := quota (get root "usage") now 604800 in
    let? entries :=
      (match get root "limits" with JUndef => Some [] | JArr entries => Some entries | _ => None end) in
    let? meters := kimi_limits entries [] now expiresAt in
    Some (map rawMeter (kimi_meter now expiresAt "WEEKLY" 604800 weekly :: meters))).

(** ** Grok *)

Definition objectValue (value : jsval) : option num :=
  let? object := record value in numeric (get object "val").

Definition percentage (used limit : num) : option num :=
  check negb (limit <=# int 0) && negb (limit <# used);;
  let value := used ⊘ limit ⊗ int 100 in
  check is_finite value && (int 0 <=# value) && (value <=# int 100);; Some value.

Definition currentPeriod (config : list (string * jsval)) (now : string) :
    option (string * SnapshotWindow * string) :=
  let? period := record (get config "currentPeriod") in
  let weekly := is_string (get period "type") "USAGE_PERIOD_TYPE_WEEKLY" in
  let monthly := is_string (get period "type") "USAGE_PERIOD_TYPE_MONTHLY" in
  check weekly || monthly;;
  let durationSeconds := if weekly then Some 604800 else None in
  let? resetAt :=
    futureInstantFromRfc3339 (get period "end") now
      (Some (plausibleResetHorizon (default 2678400 durationSeconds))) in
  Some (if weekly then "WEEKLY" else "MONTHLY", window_of w_fixed durationSeconds, resetAt).

Definition grok_meter := quota_meter GROK grokLabels.

(** The subscription's own meter. *)
Definition grok_first (config : list (string * jsval)) (now expiresAt : string) : option RawMeterInput :=
  match boundedNumber (get config "creditUsagePercent") 100 with
  | Some stated =>
      let? period := currentPeriod config now in
      Some (grok_meter now expiresAt period.1.1 stated period.1.2 (Some period.2))
  | None =>
      let? limit := objectValue (get config "monthlyLimit") in
      let? used := objectValue (get config "used") in
      let? value := percentage used limit in
      let stated := get config "billingPeriodEnd" in
      let resetAt :=
        if is_undef stated then None
        else futureInstantFromRfc3339 stated now (Some (plausibleResetHorizon 2678400)) in
      check is_undef stated || bool_decide (is_Some resetAt);;
      Some (grok_meter now expiresAt "MONTHLY" value (window_of w_fixed None) resetAt)
  end.

(** What was bought beyond it: nothing, a refusal, or a meter. *)
Definition grok_on_demand (config : list (string * jsval)) (now expiresAt : string) :
    option (list RawMeterInput) :=
  match objectValue (get config "onDemandCap"), objectValue (get config "onDemandUsed") with
  | None, None => Some []
  | Some cap, Some used =>
      if (cap ==# int 0) && (used ==# int 0) then Some []
      else
        let? value := percentage used cap in
        Some [grok_meter now expiresAt "ON_DEMAND_MONTHLY" value (window_of w_fixed None) None]
  | _, _ => None
  end.

Definition parseGrokPayload (payload : jsval) (now : string) : option (option (list jsval)) :=
  let? expiresAt := shortExpiry now in
  Some (
    let? root := record payload in
    let? config := record (get root "config") in
    let? expiresAt := expiresAt in
    let? first := grok_first config now expiresAt in
    let? more := grok_on_demand config now expiresAt in
    Some (map rawMeter (first :: more))).

(** ** OpenCode *)

Definition WINDOWS : list (string * string * Z * bool) :=
  [("rolling", "FIVE_HOUR", 18000, true); ("weekly", "SEVEN_DAY", 604800, true);
   ("monthly", "MONTHLY", 2592000, false)].

Definition opencode_window (value : jsval) (meter : string) (seconds : Z) (now expiresAt : string) :
    option RawMeterInput :=
  let? window := record value in
  check is_string (get window "status") "ok" || is_string (get window "status") "rate-limited";;
  let? percent := boundedNumber (get window "percent") 100 in
  Some (quota_meter OPENCODE opencodeLabels now expiresAt meter percent (window_of w_rolling (Some seconds))
          (futureInstantFromRfc3339 (get window "resetsAt") now (Some (plausibleResetHorizon seconds)))).

Fixpoint opencode_windows (usage : list (string * jsval)) (windows : list (string * string * Z * bool))
    (now expiresAt : string) : option (list RawMeterInput) :=
  match windows with
  | [] => Some []
  | (field, meter, seconds, required) :: windows =>
      if has_field usage field then
        let? input := opencode_window (get usage field) meter seconds now expiresAt in
        let? rest := opencode_windows usage windows now expiresAt in Some (input :: rest)
      else if required : bool then None
      else opencode_windows usage windows now expiresAt
  end.

Definition parseOpencodePayload (payload : jsval) (now : string) : option (option (list jsval)) :=
  let? expiresAt := shortExpiry now in
  Some (
    let? root := record payload in
    let? usage := record (get root "usage") in
    let? expiresAt := expiresAt in
    let? inputs := opencode_windows usage WINDOWS now expiresAt in
    Some (map rawMeter inputs)).

(** ** Gemini CLI *)

Definition MAX_MODEL_ID_BYTES : Z := 128.
Definition MAX_RESET_HORIZON_SECONDS : Z := 2678400 + 3600.

Definition is_model_unit (c : ascii) : bool :=
  is_upper c || is_lower c || is_digit c || (code c =? 46) || (code c =? 95) || (code c =? 45).

Definition meterFromModel (value : jsval) : option string :=
  let? value := as_string value in
  check (0 <? str_length value) && (str_length value <=? MAX_MODEL_ID_BYTES);;
  check str_forall is_model_unit value;;
  let meter := strip_underscores (squeeze is_upper_or_digit false (toUpperCase value)) in
  check safeMeter meter;; Some meter.

Definition validTokenType (value : jsval) : bool :=
  match value with
  | JStr s =>
      (0 <? str_length s) && (str_length s <=? 32) && str_forall (fun c => is_upper c || Ascii.eqb c "_") s
  | _ => false
  end.

Definition gemini_meter (now expiresAt meter : string) (remaining : num) (resetAt : string) : RawMeterInput :=
  quota_meter GEMINI_CLI geminiCliLabels now expiresAt meter
    (nround ((int 1 ⊖ remaining) ⊗ int 1000) ⊘ int 10) (window_of w_fixed None) (Some resetAt).

Fixpoint gemini_buckets (buckets : list jsval) (seen : list string) (now expiresAt : string) :
    option (list RawMeterInput) :=
  match buckets with
  | [] => Some []
  | value :: buckets =>
      let? bucket := record value in
      let? meter := meterFromModel (get bucket "modelId") in
      check negb (bool_decide (meter ∈ seen));;
      check is_undef (get bucket "tokenType") || validTokenType (get bucket "tokenType");;
      let? remaining := boundedFraction (get bucket "remainingFraction") in
      let? resetAt :=
        futureInstantFromRfc3339 (get bucket "resetTime") now (Some MAX_RESET_HORIZON_SECONDS) in
      let? rest := gemini_buckets buckets (meter :: seen) now expiresAt in
      Some (gemini_meter now expiresAt meter remaining resetAt :: rest)
  end.

Definition parseGeminiCliPayload (payload : jsval) (now : string) : option (option (list jsval)) :=
  let? expiresAt := shortExpiry now in
  Some (
    let? root := record payload in
    match get root "buckets" with
    | JArr (b :: bs) =>
        let? expiresAt := expiresAt in
        let? inputs := gemini_buckets (b :: bs) [] now expiresAt in
        Some (map rawMeter inputs)
    | _ => None
    end).

(** ** The document a person maintains *)

Definition MAX_ENTRIES : nat := 10.

Definition manual_entry_meter (now expiresAt : string) (entry : jsval) : option RawMeterInput :=
  let input := default [] (record entry) in
  let? name := as_string (get input "name") in
  check safeMeter name;;
  let? percent := boundedNumber (get input "used_percent") 100 in
  let? resetAt := futureInstant (get input "reset_at") now in
  Some {| ri_provider := MANUAL; ri_meter := name; ri_value := percent; ri_window := window_of w_fixed None;
          ri_resetAt := Some resetAt; ri_source := manual_entry; ri_precision := p_manual;
          ri_observedAt := now; ri_expiresAt := expiresAt; ri_labels := manualLabels; ri_amounts := None |}.

Definition parseManualPayload (payload : jsval) (now : string) : option (option (list jsval)) :=
  let? expiresAt := shortExpiry now in
  Some (
    let? root := record payload in
    match get root "meters" with
    | JArr (e :: es) =>
        let? expiresAt := expiresAt in
        let meters := map rawMeter (omap (manual_entry_meter now expiresAt) (take MAX_ENTRIES (e :: es))) in
        check negb (bool_decide (meters = []));; Some meters
    | _ => None
    end).

(** ** Every meter is a reading *)

(** The promise of a payload read whole: some meters, each of them checked. *)
Definition all_checked (p : ProviderCode) (now : string) (inputs : list RawMeterInput) : Prop :=
  Forall (fun i => checked i /\ ri_provider i = p /\ ri_observedAt i = now) inputs.

Lemma all_checked_sound p now inputs : all_checked p now inputs -> Forall (sound p now) (map rawMeter inputs).
Proof.
  intros Hall. apply Forall_fmap. eapply Forall_impl; [exact Hall|]. intros i (Hc & <- & <-).
  by apply rawMeter_sound.
Qed.

Lemma numeric_bounded v n : numeric v = Some n -> bounded 1000000000000 n.
Proof.
  unfold numeric. destruct (match v with JStr _ => _ | _ => _ end) as [x|]; [|done].
  destruct (is_finite x && _ && _) eqn:E; [|done]. intros [= <-]. bools. by apply bounded_iff.
Qed.

Lemma quota_meter_checked p labels now e meter value window resetAt :
  iso now -> shortExpiry now = Some (Some e) -> safeMeter meter = true -> bounded 100 value ->
  window_ok window -> from_option (fun r => exists m, ahead now r m) True resetAt -> labels_ok labels ->
  checked (quota_meter p labels now e meter value window resetAt).
Proof. by split. Qed.

Lemma quota_ok v now h r : quota v now h = Some r -> bounded 100 r.1 /\ exists m, ahead now r.2 m.
Proof.
  unfold quota. destruct (record v) as [detail|]; [|done].
  destruct (numeric (get detail "used")) as [used|] eqn:Eu; [|done].
  destruct (numeric (get detail "limit")) as [limit|] eqn:El; [|done].
  destruct (negb _ && _) eqn:Eb; [|done].
  destruct (futureInstantFromRfc3339 _ _ _) as [reset|] eqn:Er; [|done].
  intros E. apply (inj Some) in E as <-. bools. apply numeric_bounded in Eu, El. split.
  - by eapply bounded_percent.
  - eexists. by eapply futureInstantFromRfc3339_ahead.
Qed.

Lemma durationSeconds_Some v s : durationSeconds v = Some s -> 0 < s <= 31536000.
Proof.
  unfold durationSeconds. destruct (record v) as [w|]; [|done]. destruct (as_num _) as [n|]; [|done].
  destruct (to_int n) as [d|]; [|done]. destruct (0 <? d) eqn:Hd; [|done].
  destruct (unit_text _) as [u|]; [|done]. destruct (unit_seconds u) as [k|] eqn:Ek; [|done].
  destruct (_ <=? _) eqn:Hs; [|done]. intros [= <-]. bools.
  assert (0 < k). { revert Ek. unfold unit_seconds. cbn [assoc_get].
    repeat (case_decide; [by intros [= <-]|]). done. } nia.
Qed.

Lemma kimi_entry_Some v now s r :
  kimi_entry v now = Some (Some (s, r)) -> 0 < s <= 31536000 /\ bounded 100 r.1 /\ exists m, ahead now r.2 m.
Proof.
  unfold kimi_entry. destruct (record v) as [entry|]; [|done].
  destruct (record (get entry "detail")) as [detail|]; [|done]. destruct (existsb _ _); [|done].
  destruct (durationSeconds _) as [d|] eqn:Ed; [|done]. destruct (quota _ _ _) as [q|] eqn:Eq; [|done].
  intros E. apply (inj Some), (inj Some) in E. injection E as <- <-.
  split; [by eapply durationSeconds_Some|by eapply quota_ok].
Qed.

Lemma meterName_safe s o m : meterName s o = Some m -> safeMeter m = true.
Proof. unfold meterName. case_match eqn:E; [|done]. by intros [= <-]. Qed.

Lemma kimi_meter_checked now e meter s r :
  iso now -> shortExpiry now = Some (Some e) -> safeMeter meter = true -> 0 < s <= 31536000 ->
  bounded 100 r.1 -> (exists m, ahead now r.2 m) -> checked (kimi_meter now e meter s r).
Proof. intros. by apply quota_meter_checked. Qed.

Lemma kimi_limits_ok entries ordinals now e inputs :
  iso now -> shortExpiry now = Some (Some e) -> kimi_limits entries ordinals now e = Some inputs ->
  all_checked KIMI now inputs.
Proof.
  intros Hnow He. revert ordinals inputs.
  induction entries as [|v entries IH]; intros ordinals inputs; simpl; [intros [= <-]; constructor|].
  destruct (kimi_entry v now) as [[[s r]|]|] eqn:Ee; [|by apply IH|done].
  destruct (meterName _ _) as [m|] eqn:Em; [|done]. apply meterName_safe in Em.
  destruct (kimi_limits _ _ _ _) as [rest|] eqn:Er; [|done]. intros E. apply (inj Some) in E as <-.
  apply kimi_entry_Some in Ee as (Hs & Hr & Ha). constructor; [|by eapply IH].
  split_and!; [by apply kimi_meter_checked|done..].
Qed.

Lemma kimi_sound payload now ms :
  iso now -> parseKimiPayload payload now = Some (Some ms) -> ms <> [] /\ Forall (sound KIMI now) ms.
Proof.
  intros Hnow. unfold parseKimiPayload. destruct (shortExpiry now) as [e|] eqn:He; [|done].
  intros E. apply (inj Some) in E. revert E. destruct (record payload) as [root|]; [|done].
  destruct e as [e|]; [|done]. destruct (quota _ _ _) as [weekly|] eqn:Ew; [|done].
  destruct (match get root "limits" with JUndef => _ | _ => _ end) as [entries|]; [|done].
  destruct (kimi_limits _ _ _ _) as [rest|] eqn:Er; [|done]. intros E. apply (inj Some) in E as <-.
  split; [done|]. apply all_checked_sound. apply quota_ok in Ew as [Hb Ha].
  constructor; [|by eapply kimi_limits_ok]. split_and!; [by apply kimi_meter_checked|done..].
Qed.

Lemma percentage_bounded used limit v : percentage used limit = Some v -> bounded 100 v.
Proof.
  unfold percentage. destruct (negb _ && _); [|done]. cbv zeta.
  destruct (is_finite _ && _ && _) eqn:E; [|done]. intros [= <-]. bools. by apply bounded_iff.
Qed.

Lemma grok_first_ok config now e i :
  iso now -> shortExpiry now = Some (Some e) -> grok_first config now e = Some i ->
  (checked i /\ ri_provider i = GROK /\ ri_observedAt i = now) /\ ri_meter i ∈ ["WEEKLY"; "MONTHLY"].
Proof.
  intros Hnow He. unfold grok_first. destruct (boundedNumber _ 100) as [stated|] eqn:Es.
  - destruct (currentPeriod config now) as [[[m w] r]|] eqn:Ep; [|done]. intros [= <-].
    apply boundedNumber_Some in Es. revert Ep. unfold currentPeriod.
    destruct (record _) as [period|]; [|done].
    destruct (is_string (get period "type") "USAGE_PERIOD_TYPE_WEEKLY"); cbn [orb default id].
    + destruct (futureInstantFromRfc3339 _ _ _) eqn:Er; [|done]. intros [= <- <- <-].
      apply futureInstantFromRfc3339_ahead in Er. split; [|by left].
      split_and!; [apply quota_meter_checked; try done; by eexists|done..].
    + destruct (is_string _ _); [|done]. destruct (futureInstantFromRfc3339 _ _ _) eqn:Er; [|done].
      intros [= <- <- <-]. apply futureInstantFromRfc3339_ahead in Er. split; [|by right; left].
      split_and!; [apply quota_meter_checked; try done; by eexists|done..].
  - destruct (objectValue _); [|done]. destruct (objectValue _); [|done].
    destruct (percentage _ _) as [v|] eqn:Ev; [|done]. apply percentage_bounded in Ev.
    destruct (is_undef _ || _); [|done]. intros [= <-]. split; [|by right; left].
    split_and!; [|done..]. apply quota_meter_checked; try done. destruct (is_undef _); [done|].
    destruct (futureInstantFromRfc3339 _ _ _) eqn:Er; [|done].
    eexists. by eapply futureInstantFromRfc3339_ahead.
Qed.

Lemma grok_on_demand_ok config now e more :
  iso now -> shortExpiry now = Some (Some e) -> grok_on_demand config now e = Some more ->
  all_checked GROK now more /\ (more = [] \/ map ri_meter more = ["ON_DEMAND_MONTHLY"]).
Proof.
  intros Hnow He. unfold grok_on_demand.
  destruct (objectValue _) as [cap|], (objectValue _) as [used|]; try done.
  - destruct (_ && _); [intros [= <-]; split; [constructor|by left]|].
    destruct (percentage _ _) as [v|] eqn:Ev; [|done]. apply percentage_bounded in Ev.
    intros [= <-]. split; [|by right]. apply Forall_singleton.
    split_and!; [by apply quota_meter_checked|done..].
  - intros [= <-]. split; [constructor|by left].
Qed.

Lemma meters_of inputs : map meter_of (map rawMeter inputs) = map JStr (map ri_meter inputs).
Proof. rewrite !map_map. by apply map_ext. Qed.

Lemma distinct_names inputs : NoDup (map ri_meter inputs) -> NoDup (map meter_of (map rawMeter inputs)).
Proof. rewrite meters_of. apply (NoDup_fmap_2 JStr). Qed.

(** What a parser promises: meters, no two of one name, each a reading. *)
Definition readings (p : ProviderCode) (now : string) (ms : list jsval) : Prop :=
  ms <> [] /\ NoDup (map meter_of ms) /\ Forall (sound p now) ms.

Lemma readings_of p now inputs :
  inputs <> [] -> NoDup (map ri_meter inputs) -> all_checked p now inputs ->
  readings p now (map rawMeter inputs).
Proof.
  intros Hne Hd Hall. split_and!; [|by apply distinct_names|by apply all_checked_sound].
  by intros ?%map_eq_nil.
Qed.

Lemma grok_readings payload now ms :
  iso now -> parseGrokPayload payload now = Some (Some ms) -> readings GROK now ms.
Proof.
  intros Hnow. unfold parseGrokPayload. destruct (shortExpiry now) as [e|] eqn:He; [|done].
  intros E. apply (inj Some) in E. revert E. destruct (record payload) as [root|]; [|done].
  destruct (record _) as [config|]; [|done]. destruct e as [e|]; [|done].
  destruct (grok_first _ _ _) as [first|] eqn:Ef; [|done].
  destruct (grok_on_demand _ _ _) as [more|] eqn:Em; [|done]. intros E. apply (inj Some) in E as <-.
  apply (grok_first_ok _ _ _ _ Hnow He) in Ef as [Hf Hname].
  apply (grok_on_demand_ok _ _ _ _ Hnow He) in Em as [Hm Hnames].
  apply readings_of; [done| |by constructor].
  destruct Hnames as [->|Hnames]; [apply NoDup_singleton|]. simpl. rewrite Hnames.
  apply NoDup_cons. split; [|apply NoDup_singleton]. intros E%list_elem_of_singleton. rewrite E in Hname.
  apply elem_of_cons in Hname as [?|Hname]; [done|].
  by apply list_elem_of_singleton in Hname.
Qed.

Lemma opencode_window_ok v meter s now e i :
  iso now -> shortExpiry now = Some (Some e) -> safeMeter meter = true -> 0 < s <= 31536000 ->
  opencode_window v meter s now e = Some i ->
  (checked i /\ ri_provider i = OPENCODE /\ ri_observedAt i = now) /\ ri_meter i = meter.
Proof.
  intros Hnow He Hm Hs. unfold opencode_window. destruct (record v) as [w|]; [|done].
  destruct (is_string _ _ || _); [|done]. destruct (boundedNumber _ 100) as [percent|] eqn:Ep; [|done].
  apply boundedNumber_Some in Ep. intros [= <-]. split; [|done]. split_and!; [|done..].
  apply quota_meter_checked; try done. destruct (futureInstantFromRfc3339 _ _ _) eqn:Er; [|done].
  eexists. by eapply futureInstantFromRfc3339_ahead.
Qed.

Lemma opencode_windows_ok usage windows now e inputs :
  iso now -> shortExpiry now = Some (Some e) ->
  Forall (fun w => safeMeter w.1.1.2 = true /\ 0 < w.1.2 <= 31536000) windows ->
  opencode_windows usage windows now e = Some inputs ->
  all_checked OPENCODE now inputs /\ map ri_meter inputs `sublist_of` map (fun w => w.1.1.2) windows /\
  (Exists (fun w => w.2 = true) windows -> inputs <> []).
Proof.
  intros Hnow He Hall. revert inputs.
  induction Hall as [|[[[field meter] s] required] windows [Hm Hs] Hall IH]; intros inputs; simpl.
  { intros [= <-]. split_and!; [constructor|constructor|by intros ?%Exists_nil]. }
  simpl in Hm, Hs. destruct (has_field usage field).
  - destruct (opencode_window _ _ _ _ _) as [i|] eqn:Ei; [|done].
    destruct (opencode_windows _ _ _ _) as [rest|]; [|done]. intros [= <-].
    apply (opencode_window_ok _ _ _ _ _ _ Hnow He Hm Hs) in Ei as [Hi <-].
    destruct (IH rest eq_refl) as (Hr & Hsub & _). split_and!; [by constructor|by constructor|done].
  - destruct required; [done|]. intros E. destruct (IH inputs E) as (Hr & Hsub & Hex).
    split_and!; [done|by constructor|]. intros [?|?]%Exists_cons; [done|auto].
Qed.

Lemma opencode_readings payload now ms :
  iso now -> parseOpencodePayload payload now = Some (Some ms) -> readings OPENCODE now ms.
Proof.
  intros Hnow. unfold parseOpencodePayload. destruct (shortExpiry now) as [e|] eqn:He; [|done].
  intros E. apply (inj Some) in E. revert E. destruct (record payload) as [root|]; [|done].
  destruct (record _) as [usage|]; [|done]. destruct e as [e|]; [|done].
  destruct (opencode_windows _ _ _ _) as [inputs|] eqn:Ei; [|done]. intros E. apply (inj Some) in E as <-.
  apply (opencode_windows_ok _ _ _ _ _ Hnow He) in Ei as (Hall & Hsub & Hne).
  - apply readings_of; [apply Hne; by apply Exists_cons; left| |done].
    eapply sublist_NoDup; [|exact Hsub]. by apply (bool_decide_unpack _).
  - repeat (constructor; [by split|]). constructor.
Qed.

Lemma meterFromModel_safe v m : meterFromModel v = Some m -> safeMeter m = true.
Proof.
  unfold meterFromModel. destruct (as_string v); [|done]. destruct (_ && _); [|done].
  destruct (str_forall _ _); [|done]. cbv zeta. destruct (safeMeter _) eqn:Em; [|done]. by intros [= <-].
Qed.

Lemma gemini_buckets_ok buckets seen now e inputs :
  iso now -> shortExpiry now = Some (Some e) -> gemini_buckets buckets seen now e = Some inputs ->
  all_checked GEMINI_CLI now inputs /\ NoDup (map ri_meter inputs) /\
  Forall (fun i => ri_meter i ∉ seen) inputs /\ (buckets <> [] -> inputs <> []).
Proof.
  intros Hnow He. revert seen inputs.
  induction buckets as [|v buckets IH]; intros seen inputs; simpl.
  { intros [= <-]. split_and!; [constructor|constructor|constructor|done]. }
  destruct (record v) as [b|]; [|done]. destruct (meterFromModel _) as [m|] eqn:Em; [|done].
  case_bool_decide as Hm; [done|]. simpl. destruct (is_undef _ || _); [|done].
  destruct (boundedFraction _) as [remaining|] eqn:Ef; [|done].
  destruct (futureInstantFromRfc3339 _ _ _) as [reset|] eqn:Er; [|done].
  destruct (gemini_buckets _ _ _ _) as [rest|] eqn:Eg; [|done]. intros [= <-].
  destruct (IH _ _ Eg) as (Hall & Hd & Hs & _). apply meterFromModel_safe in Em.
  apply boundedFraction_Some in Ef. apply futureInstantFromRfc3339_ahead in Er.
  split_and!; [| | |done].
  - constructor; [|done]. split_and!; [|done..]. apply quota_meter_checked; try done; [|by eexists].
    by apply bounded_tenths.
  - simpl. apply NoDup_cons. split; [|done]. intros (i & E & Hi)%list_elem_of_fmap.
    rewrite Forall_forall in Hs. apply (Hs i Hi). rewrite <- E. by left.
  - constructor; [done|]. eapply Forall_impl; [exact Hs|]. intros i Hi Hin. apply Hi. by right.
Qed.

Lemma gemini_readings payload now ms :
  iso now -> parseGeminiCliPayload payload now = Some (Some ms) -> readings GEMINI_CLI now ms.
Proof.
  intros Hnow. unfold parseGeminiCliPayload. destruct (shortExpiry now) as [e|] eqn:He; [|done].
  intros E. apply (inj Some) in E. revert E. destruct (record payload) as [root|]; [|done].
  destruct (get root "buckets") as [| | | | |[|b bs]|]; try done. destruct e as [e|]; [|done].
  destruct (gemini_buckets _ _ _ _) as [inputs|] eqn:Ei; [|done]. intros E. apply (inj Some) in E as <-.
  apply (gemini_buckets_ok _ _ _ _ _ Hnow He) in Ei as (Hall & Hd & _ & Hne).
  apply readings_of; [by apply Hne|done|done].
Qed.

Lemma manual_sound payload now ms :
  iso now -> parseManualPayload payload now = Some (Some ms) -> ms <> [] /\ Forall (sound MANUAL now) ms.
Proof.
  intros Hnow. unfold parseManualPayload. destruct (shortExpiry now) as [e|] eqn:He; [|done].
  intros E. apply (inj Some) in E. revert E. destruct (record payload) as [root|]; [|done].
  destruct (get root "meters") as [| | | | |[|x xs]|]; try done. destruct e as [e|]; [|done].
  cbv zeta. case_bool_decide as Hne; [done|]. intros E. apply (inj Some) in E as <-. split; [done|].
  apply all_checked_sound, Forall_forall. intros i (entry & _ & Ei)%list_elem_of_omap.
  revert Ei. unfold manual_entry_meter. destruct (as_string _) as [name|]; [|done].
  destruct (safeMeter name) eqn:Hs; [|done]. destruct (boundedNumber _ 100) as [percent|] eqn:Ep; [|done].
  destruct (futureInstant _ _) as [r|] eqn:Er; [|done]. intros [= <-]. split_and!; [|done..].
  apply boundedNumber_Some in Ep. apply futureInstant_ahead in Er. split; try done. by eexists.
Qed.

(** ** Kimi's windows have names of their own *)

(** Reads a name back: the window's length and its ordinal. *)
Definition read_ordinal (s : string) : Z :=
  match s with String _ digits => digits_value 0 digits | EmptyString => 1 end.

Definition read_name_of (m : string) : option (Z * Z) :=
  match after_prefix "WINDOW_" m, after_prefix "FIVE_MINUTE" m, after_prefix "FIVE_HOUR" m,
        after_prefix "DAILY" m, after_prefix "SEVEN_DAY" m with
  | Some r, _, _, _, _ =>
      let '(digits, rest) := take_run is_digit r in Some (digits_value 0 digits, read_ordinal rest)
  | _, Some r, _, _, _ => Some (300, read_ordinal r)
  | _, _, Some r, _, _ => Some (18000, read_ordinal r)
  | _, _, _, Some r, _ => Some (86400, read_ordinal r)
  | _, _, _, _, Some r => Some (604800, read_ordinal r)
  | _, _, _, _, _ => None
  end.

Definition ordinal_text (o : Z) : string := if o =? 1 then "" else "_" +:+ decimal o.

Lemma read_ordinal_text o : 0 < o < 10 ^ 40 -> read_ordinal (ordinal_text o) = o.
Proof.
  intros Ho. unfold ordinal_text. destruct (Z.eqb_spec o 1) as [->|_]; [done|].
  change ("_" +:+ decimal o) with (String "_" (decimal o)). cbn [read_ordinal].
  destruct (decimal_plain o ltac:(lia)) as (_ & _ & E). exact E.
Qed.

Lemma meterName_text s o m : meterName s o = Some m -> m = meter_base s +:+ ordinal_text o.
Proof.
  unfold meterName, ordinal_text. cbv zeta. destruct (o =? 1), (safeMeter _); try done; intros [= <-];
    by rewrite ?str_app_nil_r.
Qed.

Lemma meterName_reads s o m :
  0 < s <= 31536000 -> 0 < o < 10 ^ 40 -> meterName s o = Some m -> read_name_of m = Some (s, o).
Proof.
  intros Hs Ho ->%meterName_text. pose proof (read_ordinal_text o Ho) as Eo.
  unfold meter_base. destruct (Z.eqb_spec s 300) as [->|_].
  { change (read_name_of ("FIVE_MINUTE" +:+ ordinal_text o)) with (Some (300, read_ordinal (ordinal_text o))).
    by rewrite Eo. }
  destruct (Z.eqb_spec s 18000) as [->|_].
  { change (read_name_of ("FIVE_HOUR" +:+ ordinal_text o)) with (Some (18000, read_ordinal (ordinal_text o))).
    by rewrite Eo. }
  destruct (Z.eqb_spec s 86400) as [->|_].
  { change (read_name_of ("DAILY" +:+ ordinal_text o)) with (Some (86400, read_ordinal (ordinal_text o))).
    by rewrite Eo. }
  destruct (Z.eqb_spec s 604800) as [->|_].
  { change (read_name_of ("SEVEN_DAY" +:+ ordinal_text o)) with (Some (604800, read_ordinal (ordinal_text o))).
    by rewrite Eo. }
  unfold read_name_of. rewrite <- str_app_assoc, after_prefix_app.
  destruct (decimal_plain s ltac:(lia)) as (_ & Hd & Ev).
  assert (Er : take_run is_digit (decimal s +:+ ordinal_text o) = (decimal s, ordinal_text o)).
  { unfold ordinal_text in *. destruct (o =? 1).
    - rewrite str_app_nil_r. by apply take_run_all.
    - change ("_" +:+ decimal o) with (String "_" (decimal o)). by apply take_run_app. }
  by rewrite Er, Ev, Eo.
Qed.

(** The ordinals count the windows of each length, and stay small. *)
Lemma kimi_limits_distinct entries ordinals now e inputs bound :
  0 <= bound -> bound + Z.of_nat (length entries) < 10 ^ 40 ->
  (forall s, 0 <= default 0 (assoc_get s ordinals) <= bound) ->
  kimi_limits entries ordinals now e = Some inputs ->
  NoDup (map ri_meter inputs) /\
  Forall (fun i => exists s o, read_name_of (ri_meter i) = Some (s, o) /\
                               default 0 (assoc_get s ordinals) < o) inputs.
Proof.
  intros Hb. revert ordinals inputs bound Hb.
  induction entries as [|v entries IH]; intros ordinals inputs bound Hb Hlen Hord; simpl;
    [intros [= <-]; split; constructor|].
  cbn [length] in Hlen. destruct (kimi_entry v now) as [[[s r]|]|] eqn:Ee; [|apply (IH _ _ bound); lia || done|done].
  apply kimi_entry_Some in Ee as (Hs & _).
  set (o := default 0 (assoc_get s ordinals) + 1). pose proof (Hord s) as Hos.
  destruct (meterName s o) as [m|] eqn:Em; [|done].
  apply meterName_reads in Em; [|done|unfold o; lia].
  destruct (kimi_limits _ _ _ _) as [rest|] eqn:Er; [|done]. intros E. apply (inj Some) in E as <-.
  destruct (IH (assoc_set s o ordinals) rest (bound + 1)) as [Hd Hall]; [lia|lia| |done|].
  { intros s'. rewrite assoc_get_set. pose proof (Hord s'). case_decide; simpl; unfold o; lia. }
  split.
  - simpl. apply NoDup_cons. split; [|done]. intros (i & E & Hi)%list_elem_of_fmap.
    rewrite Forall_forall in Hall. destruct (Hall i Hi) as (s' & o' & Ei & Ho).
    rewrite <- E, Em in Ei. injection Ei as <- <-. rewrite assoc_get_set, decide_True in Ho by done.
    simpl in Ho. lia.
  - constructor; [exists s, o; split; [done|unfold o; lia]|].
    eapply Forall_impl; [exact Hall|]. intros i (s' & o' & Ei & Ho). exists s', o'. split; [done|].
    rewrite assoc_get_set in Ho. case_decide; [subst; simpl in Ho; unfold o in *; lia|done].
Qed.

(** An array of the language holds fewer than 2^32 elements. *)
Definition language_array (v : jsval) : Prop :=
  match v with JArr l => Z.of_nat (length l) < 2 ^ 32 | _ => True end.

Definition limits_of (payload : jsval) : jsval := get (default [] (record payload)) "limits".

Lemma kimi_readings payload now ms :
  iso now -> language_array (limits_of payload) ->
  parseKimiPayload payload now = Some (Some ms) -> readings KIMI now ms.
Proof.
  intros Hnow Hlen E. destruct (kimi_sound payload now ms Hnow E) as [Hne Hall].
  split_and!; [done| |done]. revert E. unfold parseKimiPayload, limits_of in *.
  destruct (shortExpiry now) as [e|]; [|done]. intros E. apply (inj Some) in E. revert E.
  destruct (record payload) as [root|]; [|done]. destruct e as [e|]; [|done].
  destruct (quota _ _ _) as [weekly|]; [|done].
  destruct (match get root "limits" with JUndef => _ | _ => _ end) as [entries|] eqn:El; [|done].
  assert (Hl : Z.of_nat (length entries) < 2 ^ 32).
  { cbn [default from_option id] in Hlen. destruct (get root "limits"); simplify_eq/=; try done. }
  destruct (kimi_limits _ _ _ _) as [rest|] eqn:Er; [|done]. intros E. apply (inj Some) in E as <-.
  destruct (kimi_limits_distinct entries [] now e rest 0) as [Hd Hnames]; [lia|lia| |done|].
  { intros s. simpl. lia. }
  apply distinct_names. simpl. apply NoDup_cons. split; [|done].
  intros (i & Ei & Hi)%list_elem_of_fmap. rewrite Forall_forall in Hnames.
  destruct (Hnames i Hi) as (s & o & En & _). rewrite <- Ei in En. done.
Qed.

(** The parsers that answer every meter or none. *)
Definition whole_parsers : list (ProviderCode * (jsval -> string -> option (option (list jsval)))) :=
  [(KIMI, parseKimiPayload); (GROK, parseGrokPayload); (OPENCODE, parseOpencodePayload);
   (GEMINI_CLI, parseGeminiCliPayload)].

(** What these parsers answer is all readings: whatever the payload, an answer
    holds at least one meter, no two of one name, and the normalizer believes
    every one as a reading of that provider at that instant, with a percentage
    from zero to a hundred however the division rounds, and a reset strictly
    ahead. *)
Theorem whole_payloads_are_readings p parse payload now ms :
  (p, parse) ∈ whole_parsers -> is_iso_instant now = true -> language_array (limits_of payload) ->
  parse payload now = Some (Some ms) -> readings p now ms.
Proof.
  intros Hp Hnow Hlen E. unfold whole_parsers in Hp.
  repeat (apply elem_of_cons in Hp as [[= -> ->]|Hp];
    [by first [apply (kimi_readings payload)|apply (grok_readings payload)
              |apply (opencode_readings payload)|apply (gemini_readings payload)]|]).
  by apply elem_of_nil in Hp.
Qed.
End Quotas.

(** ** Witness *)

Definition sample_quota (used : Z) (resets : string) : list (string * jsval) :=
  [("used", JNum (int used)); ("limit", JStr "300"); ("resetTime", JStr resets)].

Definition kimi_sample : jsval :=
  JObj [("usage", JObj (sample_quota 100 "2026-09-09T00:00:00.000Z"));
        ("limits", JArr (repeat
           (JObj [("detail", JObj (sample_quota 1 "2026-09-04T13:00:00.000Z"));
                  ("window", JObj [("duration", JNum (int 5)); ("timeUnit", JStr "TIME_UNIT_HOUR")])]) 2))].

Definition kimi_sample_meters : list jsval :=
  match parseKimiPayload kimi_sample "2026-09-04T12:00:00.000Z" with Some (Some ms) => ms | _ => [] end.

Lemma whole_payloads_are_readings_witness :
  map meter_of kimi_sample_meters = map JStr ["WEEKLY"; "FIVE_HOUR"; "FIVE_HOUR_2"] /\
  readings KIMI "2026-09-04T12:00:00.000Z" kimi_sample_meters.
Proof.
  split; [by vm_compute|].
  apply (whole_payloads_are_readings KIMI parseKimiPayload kimi_sample); [by left|by vm_compute|done|].
  assert (Hne : kimi_sample_meters <> []) by (by vm_compute). revert Hne.
  unfold kimi_sample_meters. by destruct (parseKimiPayload _ _) as [[ms|]|].
Defined.
