(* ===== verification/AccountPayloads.v ===== *)
(** * The payloads of OpenRouter and Cursor

    [packages/connectors/src/openrouter.ts] and [cursor.ts]: limits in money
    whose period this program derives from the calendar, and a billing cycle
    the provider states. *)
From S2P Require Import Prelude JsNum JsDate JsValue Text Types Normalizer Files Connector QuotaPayloads.
Local Open Scope string_scope.
Local Open Scope Z_scope.
Local Open Scope list_scope.
Local Open Scope js_scope.

Definition openrouterLabels : ConnectorLabels := unverified user_key documented_api_status risk_low.
Definition OPENROUTER_TOOL : option string := None.

Definition cursorLabels : ConnectorLabels :=
  {| lb_credentialOrigin := official_local_tool; lb_dataInterfaceStatus := internal_endpoint;
     lb_automationRisk := risk_high; lb_verification := VERIFIED_FIXTURES;
     lb_verificationEvidence := None |}.

Definition MILLION_MILLION : Z := 1000000000000.

(** ** The next reset of a calendar period *)

(** [Date.UTC(year, month, day)], month counted from zero, day overflowing into
    later months; the years 0 to 99 mean 1900 to 1999. *)
Definition date_utc (year month day : Z) : option Z :=
  let year := if (0 <=? year) && (year <=? 99) then 1900 + year else year in
  let t := (day_of (year + month / 12) (month mod 12 + 1) 1 + (day - 1)) * day_ms in
  check valid_time t;; Some t.

(** The start of the next period, in UTC. *)
Definition next_period (period : string) (current : Z) : option Z :=
  let today := current / day_ms in
  let '(year, month, day) := civil today in
  if str_eqb period "daily" then date_utc year (month - 1) (day + 1)
  else if str_eqb period "weekly" then
    let rest := (8 - (today + 4) mod 7) mod 7 in
    date_utc year (month - 1) (day + (if rest =? 0 then 7 else rest))
  else if str_eqb period "monthly" then date_utc year month 1
  else None.

(** [Math.ceil(milliseconds / 1000)]: the quotient is far from where a double
    could round it over a whole number. *)
Definition ceil_seconds (milliseconds : Z) : Z := (milliseconds + 999) / 1000.

Definition roundedAmount (value : num) : num :=
  nround (value ⊗ int MILLION_MILLION) ⊘ int MILLION_MILLION.

(** ** Cursor's instants *)

(** A text against a template in which [d] stands for a digit. *)
Fixpoint after_template (template s : string) : option string :=
  match template, s with
  | EmptyString, _ => Some s
  | String t template', String c s' =>
      check (if Ascii.eqb t "d" then is_digit c else Ascii.eqb t c);; after_template template' s'
  | _, _ => None
  end.

(** [(?:\.\d{1,3})?] *)
Definition skip_fraction (s : string) : option string :=
  match s with
  | String c s' =>
      if code c =? 46 then
        match take_digits_upto 3 s' with (EmptyString, _) => None | (_, rest) => Some rest end
      else Some s
  | EmptyString => Some s
  end.

Definition instant_pattern (s : string) : bool :=
  match after_template "dddd-dd-ddTdd:dd:dd" s with
  | None => false
  | Some rest =>
      match skip_fraction rest with
      | None => false
      | Some (String c zone) =>
          if code c =? 90 then str_eqb zone ""
          else ((code c =? 43) || (code c =? 45)) && bool_decide (after_template "dd:dd" zone = Some "")
      | Some EmptyString => false
      end
  end.

Example instants :
  map instant_pattern ["2026-09-04T12:00:00Z"; "2026-09-04T12:00:00.123+02:00"; "2026-09-04T12:00:00.1234Z";
                       "2026-09-04"; "2026-09-04T12:00:00"] = [true; true; false; false; false].
Proof. by vm_compute. Qed.

Section Accounts.
Context `{DateHost}.

(** ** OpenRouter *)

Definition finiteLimitWindow (limitReset : jsval) (now : string) : option (SnapshotWindow * option string) :=
  let? current := date_parse now in
  match limitReset with
  | JNull | JUndef => Some (window_of w_lifetime None, None)
  | JStr period =>
      let? reset := next_period period current in
      let seconds := ceil_seconds (reset - current) in
      check 0 <? seconds;; Some (window_of w_fixed (Some seconds), Some (to_iso reset))
  | _ => None
  end.

Definition unavailableAccountBalance (now expiresAt : string) : jsval :=
  availability_row OPENROUTER "ACCOUNT_BALANCE" missing_credentials w_lifetime documented_api now expiresAt
    openrouterLabels.

Definition openrouter_meter (meter now expiresAt : string) (percent : num) (window : SnapshotWindow)
    (resetAt : option string) (used limit : num) : jsval :=
  rawMeter {| ri_provider := OPENROUTER; ri_meter := meter; ri_value := percent; ri_window := window;
              ri_resetAt := resetAt; ri_source := documented_api; ri_precision := p_exact;
              ri_observedAt := now; ri_expiresAt := expiresAt; ri_labels := openrouterLabels;
              ri_amounts := Some {| am_usedAmount := used; am_limitAmount := limit; am_currency := USD |} |}.

(** A percentage, when it is one. *)
Definition within_percent (percent : num) : option num :=
  check is_finite percent && negb (percent <# int 0) && negb (int 100 <# percent);; Some percent.

(** The key report. *)
Definition key_rows (data : list (string * jsval)) (now : string) (expiresAt : option string) :
    option (list jsval) :=
  let usage := boundedNumber (get data "usage") MILLION_MILLION in
  match get data "limit" with
  | JNull =>
      let? _ := usage in
      let? expiresAt := expiresAt in
      Some [availability_row OPENROUTER "KEY_LIMIT" unlimited w_lifetime documented_api now expiresAt
              openrouterLabels;
            unavailableAccountBalance now expiresAt]
  | limit =>
      let? credits := boundedNumber limit MILLION_MILLION in
      let? remaining := boundedNumber (get data "limit_remaining") MILLION_MILLION in
      let? reset := finiteLimitWindow (get data "limit_reset") now in
      let? _ := usage in
      let? expiresAt := expiresAt in
      check negb (credits <=# int 0) && negb (credits <# remaining);;
      let used := roundedAmount (credits ⊖ remaining) in
      let? percent := within_percent (roundedAmount (used ⊘ credits ⊗ int 100)) in
      Some [openrouter_meter "KEY_LIMIT" now expiresAt percent reset.1 reset.2 used credits;
            unavailableAccountBalance now expiresAt]
  end.

(** The credit report. *)
Definition credit_report (data : list (string * jsval)) (now : string) (expiresAt : option string) :
    option (list jsval) :=
  let? credits := boundedNumber (get data "total_credits") MILLION_MILLION in
  let? usage := boundedNumber (get data "total_usage") MILLION_MILLION in
  let? expiresAt := expiresAt in
  check negb (credits <=# int 0) && negb (credits <# usage);;
  let? percent := within_percent (usage ⊘ credits ⊗ int 100) in
  Some [openrouter_meter "ACCOUNT_BALANCE" now expiresAt percent (window_of w_lifetime None) None usage credits].

Definition parseOneOpenrouterPayload (payload : jsval) (now : string) : option (option (list jsval)) :=
  let data := default [] (record payload) in
  match record (get data "data") with
  | None => Some None
  | Some data =>
      let keyResponse := negb (has_field data "total_credits" || has_field data "total_usage") in
      let? expiresAt := shortExpiry now in
      Some (if keyResponse then key_rows data now expiresAt else credit_report data now expiresAt)
  end.

Definition field_of (m : jsval) (k : string) : jsval := get (default [] (record_of m)) k.

Definition is_balance (m : jsval) : bool := is_string (field_of m "meter") "ACCOUNT_BALANCE".
Definition measured_balance (m : jsval) : bool := is_balance m && is_undef (field_of m "availability").

(** With a key report and a credit report the measured balance replaces the
    placeholder. *)
Definition parseOpenrouterPayload (payload : jsval) (now : string) (previous : list jsval) :
    option (option (list jsval)) :=
  match previous with
  | first :: _ :: _ =>
      let? keyRows := parseOneOpenrouterPayload first now in
      let? read := parseOneOpenrouterPayload payload now in
      let balance := filter (fun m => measured_balance m = true) (default [] read) in
      match keyRows with
      | None => Some None
      | Some rows =>
          if bool_decide (balance = []) then Some (Some rows)
          else Some (Some (filter (fun m => is_balance m = false) rows ++ balance))
      end
  | _ => parseOneOpenrouterPayload payload now
  end.

(** ** Cursor *)

Definition cursor_numeric (value : jsval) : option num := boundedNumber value MILLION_MILLION.

Definition instant (value : jsval) : option Z :=
  let? s := as_string value in
  check instant_pattern s;; date_parse s.

(** A record, or nothing at all. *)
Definition optional_record (v : jsval) : option (option (list (string * jsval))) :=
  match v with
  | JUndef => Some None
  | JObj fs => Some (Some fs)
  | _ => None
  end.

(** The percentages of the plan, each refused when it is there and unreadable. *)
Fixpoint plan_rows (plan : list (string * jsval)) (fields : list (string * string)) :
    option (list (string * num)) :=
  match fields with
  | [] => Some []
  | (field, meter) :: fields =>
      if is_undef (get plan field) then plan_rows plan fields
      else
        let? value := cursor_numeric (get plan field) in
        let? rest := plan_rows plan fields in Some ((meter, value) :: rest)
  end.

Definition is_true (v : jsval) : bool := match v with JBool b => b | _ => false end.

(** The overall allowance, when it is there and finite. *)
Definition overall_rows (overall : option (list (string * jsval))) : option (list (string * num)) :=
  match overall with
  | None => Some []
  | Some overall =>
      if is_true (get overall "isUnlimited") then Some []
      else
        let? used := cursor_numeric (get overall "used") in
        let? limit := cursor_numeric (get overall "limit") in
        check negb (limit <=# int 0);;
        let percent := used ⊘ limit ⊗ int 100 in
        check is_finite percent && negb (int MILLION_MILLION <# percent);; Some [("INCLUDED", percent)]
  end.

(** One row, and its mark when the allowance has no end. *)
Definition cursor_row (now expiresAt : string) (start finish : Z) (unlimited_plan : bool)
    (row : string * num) : jsval :=
  JObj ([("provider", name CURSOR); ("meter", JStr row.1); ("value", JNum (nmin row.2 (int 100)));
         ("unit", name PERCENT);
         ("window", JObj [("kind", name w_fixed); ("durationSeconds", JNum (int (finish - start) ⊘ int 1000))]);
         ("resetAt", JStr (to_iso finish)); ("source", name internal_payload);
         ("precision", name (if str_eqb row.1 "INCLUDED" then p_estimated else p_exact));
         ("observedAt", JStr now); ("expiresAt", JStr expiresAt); ("labels", raw_of_labels cursorLabels);
         ("kind", name quota_percent)] ++
        if unlimited_plan then [("availability", name unlimited)] else []).

(** The percentages of a payload, whether it is unlimited, and its cycle. *)
Definition cursor_read (payload : jsval) (now : string) : option (list (string * num) * bool * Z * Z * Z) :=
  let? root := record payload in
  check is_undef (get root "error");;
  let? current := instant (JStr now) in
  let? start := instant (get root "billingCycleStart") in
  let? finish := instant (get root "billingCycleEnd") in
  check negb (current <? start) && negb (finish <=? current) && negb (finish <=? start) &&
        negb (366 * 86400000 <? finish - start);;
  let? individual := record (get root "individualUsage") in
  let? plan := optional_record (get individual "plan") in
  let? overall := optional_record (get individual "overall") in
  let? planned :=
    (match plan with
     | Some plan => plan_rows plan [("autoPercentUsed", "AUTO"); ("apiPercentUsed", "API")]
     | None => Some []
     end) in
  let? included := overall_rows overall in
  let rows := planned ++ included in
  let endless := is_true (get root "isUnlimited") || is_true (get individual "isUnlimited") ||
                 is_true (get (default [] overall) "isUnlimited") in
  check negb endless || bool_decide (rows = []);;
  let rows := if endless then [("AUTO", int 0)] else rows in
  check negb (bool_decide (rows = []));; Some (rows, endless, current, start, finish).

(** The outer [None]: the expiry lay beyond the last date. *)
Definition parseCursorPayload (payload : jsval) (now : string) : option (option (list jsval)) :=
  match cursor_read payload now with
  | None => Some None
  | Some (rows, endless, current, start, finish) =>
      let? expiresAt := iso_string (Some (current + 600000)) in
      Some (Some (map (cursor_row now expiresAt start finish endless) rows))
  end.

(** ** The calendar *)

Lemma day_of_first y m d : day_of y m d = day_of y m 1 + (d - 1).
Proof. unfold day_of. lia. Qed.

Lemma year_days y :
  let days y := y / 400 * 146097 + (y mod 400 * 365 + y mod 400 / 4 - y mod 400 / 100) in
  365 <= days (y + 1) - days y <= 366.
Proof.
  cbv zeta. pose proof (Z.mod_pos_bound y 400 ltac:(lia)) as Hm. pose proof (Z.div_mod y 400 ltac:(lia)) as Hy.
  destruct (Z.eq_dec (y mod 400) 399) as [E|E].
  - assert (E1 : (y + 1) / 400 = y / 400 + 1) by (symmetry; apply (Z.div_unique_pos _ _ _ 0); lia).
    assert (E2 : (y + 1) mod 400 = 0) by (symmetry; apply (Z.mod_unique_pos _ _ (y / 400 + 1)); lia).
    rewrite E1, E2, E. generalize (y / 400). intros q. Z.div_mod_to_equations. lia.
  - assert (E1 : (y + 1) / 400 = y / 400) by (symmetry; apply (Z.div_unique_pos _ _ _ (y mod 400 + 1)); lia).
    assert (E2 : (y + 1) mod 400 = y mod 400 + 1) by (symmetry; apply (Z.mod_unique_pos _ _ (y / 400)); lia).
    rewrite E1, E2. clear E1 E2 Hy E. revert Hm. generalize (y mod 400) (y / 400). intros r q Hr.
    Z.div_mod_to_equations. lia.
Qed.

(** No month is longer than 31 days. *)
Lemma next_month y m : 1 <= m <= 12 -> day_of (y + m / 12) (m mod 12 + 1) 1 - day_of y m 1 <= 31.
Proof.
  intros Hm. unfold day_of.
  pose proof (year_days (y - 1)) as Hy. cbv zeta in Hy. replace (y - 1 + 1) with y in Hy by lia.
  assert (Hsmall : forall k, 1 <= k <= 11 -> (y + k / 12) = y /\ k mod 12 + 1 = k + 1).
  { intros k Hk. rewrite Z.div_small, Z.mod_small by lia. lia. }
  destruct (Z.eq_dec m 12) as [->|Hm'].
  - change (12 / 12) with 1. change (12 mod 12 + 1) with 1. cbv zeta.
    change (12 <=? 2) with false. change (1 <=? 2) with true. cbn iota.
    replace (y + 1 - 1) with y by lia.
    change ((153 * (12 - 3) + 2) / 5) with 275. change ((153 * (1 + 9) + 2) / 5) with 306. lia.
  - destruct (Hsmall m) as [-> ->]; [lia|]. cbv zeta.
    destruct (Z.eq_dec m 2) as [->|Hm2].
    + change (2 <=? 2) with true. change (2 + 1 <=? 2) with false. cbn iota.
      change ((153 * (2 + 9) + 2) / 5) with 337. change ((153 * (2 + 1 - 3) + 2) / 5) with 0. lia.
    + clear Hy. assert (E : (m + 1 <=? 2) = (m <=? 2)) by lia. rewrite E. clear Hsmall.
      assert (Hd : forall k, (153 * (k + 1) + 2) / 5 <= (153 * k + 2) / 5 + 31)
        by (intros k; Z.div_mod_to_equations; lia).
      pose proof (Hd (m + 9)) as H1. pose proof (Hd (m - 3)) as H2.
      replace (m + 9 + 1) with (m + 1 + 9) in H1 by lia. replace (m - 3 + 1) with (m + 1 - 3) in H2 by lia.
      destruct (m <=? 2); lia.
Qed.

(** Since the epoch years have four digits at least. *)
Lemma civil_year day : 0 <= day -> 99 < (civil day).1.1.
Proof.
  intros Hd. pose proof (day_of_civil day) as E. pose proof (civil_bounds day) as Hb.
  destruct (civil day) as [[y m] d]. destruct Hb as (Hm & Hb). simpl.
  destruct (Z.lt_ge_cases 99 y) as [|Hy]; [done|exfalso]. revert E. unfold day_of.
  set (y' := if m <=? 2 then y - 1 else y). assert (Hy' : y' <= 99) by (unfold y'; case_match; lia).
  clearbody y'. set (mp := if m <=? 2 then m + 9 else m - 3).
  assert (Hmp : 0 <= mp <= 11) by (unfold mp; destruct (Z.leb_spec m 2); lia). clearbody mp.
  pose proof (Z.mod_pos_bound y' 400 ltac:(lia)). pose proof (Z.div_mod y' 400 ltac:(lia)).
  assert ((153 * mp + 2) / 5 <= 337) by (apply Z.div_le_upper_bound; lia).
  assert (0 <= (y' mod 400) / 100) by (apply Z.div_pos; lia).
  assert ((y' mod 400) / 4 <= 99) by (apply Z.lt_succ_r, Z.div_lt_upper_bound; lia).
  intros E. assert (y' / 400 <= 0) by lia. nia.
Qed.

Lemma date_utc_Some y m d t :
  99 < y -> date_utc y m d = Some t ->
  t = (day_of (y + m / 12) (m mod 12 + 1) 1 + (d - 1)) * day_ms /\ valid_time t = true.
Proof.
  intros Hy. unfold date_utc. rewrite (proj2 (Z.leb_gt y 99)), andb_false_r by done. cbv zeta.
  destruct (valid_time _) eqn:Hv; [|done]. intros [= <-]. done.
Qed.

(** A period ends within 31 days. *)
Lemma next_period_near period current reset :
  0 <= current -> next_period period current = Some reset ->
  reset - current <= 31 * day_ms /\ valid_time reset = true.
Proof.
  intros Hc. unfold next_period. set (today := current / day_ms).
  assert (Htoday : 0 <= today) by (apply Z.div_pos; unfold day_ms; lia).
  assert (Hday : today * day_ms <= current) by (unfold today; rewrite Z.mul_comm; apply Z.mul_div_le; unfold day_ms; lia).
  pose proof (civil_year today Htoday) as Hy. pose proof (day_of_civil today) as E.
  pose proof (civil_bounds today) as Hb. destruct (civil today) as [[y m] d]. simpl in Hy.
  destruct Hb as (Hm & Hd). rewrite day_of_first in E. clearbody today.
  assert (Hsame : forall k t, 1 <= k <= 7 -> date_utc y (m - 1) (d + k) = Some t ->
    t - current <= 31 * day_ms /\ valid_time t = true).
  { intros k t Hk Et. apply date_utc_Some in Et as [-> Hv]; [|done]. split; [|done].
    rewrite Z.div_small, Z.mod_small by lia.
    replace (y + 0) with y by lia. replace (m - 1 + 1) with m by lia. unfold day_ms in *. lia. }
  destruct (str_eqb period "daily"); [apply Hsame; lia|].
  destruct (str_eqb period "weekly").
  { apply Hsame. pose proof (Z.mod_pos_bound (8 - (today + 4) mod 7) 7 ltac:(lia)).
    destruct (Z.eqb_spec ((8 - (today + 4) mod 7) mod 7) 0); lia. }
  destruct (str_eqb period "monthly"); [|done]. intros Et. apply date_utc_Some in Et as [-> Hv]; [|done].
  split; [|done]. pose proof (next_month y m Hm). unfold day_ms in *. lia.
Qed.

(** ** OpenRouter's rows *)

Lemma ceil_seconds_bounds m hi : 0 < ceil_seconds m -> m <= hi * 1000 -> 0 < m /\ 0 < ceil_seconds m <= hi.
Proof.
  unfold ceil_seconds. intros Hc Hm. split; [|split; [done|]].
  - destruct (Z.lt_ge_cases 0 m); [done|]. assert ((m + 999) / 1000 < 1); [|lia].
    apply Z.div_lt_upper_bound; lia.
  - apply Z.lt_succ_r. apply Z.div_lt_upper_bound; lia.
Qed.

Lemma finiteLimitWindow_ok v now window reset :
  since_epoch now -> finiteLimitWindow v now = Some (window, reset) ->
  window_ok window /\ from_option (fun r => exists m, ahead now r m) True reset.
Proof.
  intros (t & Ht & Hpos). unfold finiteLimitWindow. rewrite Ht.
  destruct v as [| | | |period| |]; try done; [by intros [= <- <-]..|].
  destruct (next_period period t) as [r|] eqn:Er; [|done]. cbv zeta.
  apply next_period_near in Er as [Hnear Hv]; [|done].
  destruct (Z.ltb_spec 0 (ceil_seconds (r - t))) as [Hs|]; [|done]. intros [= <- <-].
  apply (ceil_seconds_bounds _ 2678400) in Hs as [Hlt Hs]; [|unfold day_ms in Hnear; lia].
  split; [change (0 < ceil_seconds (r - t) <= 31536000); lia|]. exists None, t, r. split_and!; [done..|lia|done].
Qed.

Lemma within_percent_Some n x : within_percent n = Some x -> bounded 100 x.
Proof.
  unfold within_percent. intros E. split_hyp E. bools. apply finite_Fin in H0 as [z ->].
  unfold int in *. rewrite nlt_Fin in *. bools. exists z. split; [done|lia].
Qed.

(** The two shapes an OpenRouter report takes. *)
Inductive openrouter_rows (now : string) : list jsval -> Prop :=
  | rows_of_key k b :
      sound OPENROUTER now k -> meter_of k = JStr "KEY_LIMIT" -> sound OPENROUTER now b ->
      meter_of b = JStr "ACCOUNT_BALANCE" -> measured_balance b = false -> openrouter_rows now [k; b]
  | rows_of_credits b :
      sound OPENROUTER now b -> meter_of b = JStr "ACCOUNT_BALANCE" -> openrouter_rows now [b].

Lemma unavailable_balance_rows now e k :
  iso now -> shortExpiry now = Some (Some e) -> sound OPENROUTER now k -> meter_of k = JStr "KEY_LIMIT" ->
  openrouter_rows now [k; unavailableAccountBalance now e].
Proof. intros. by constructor; [| |apply availability_row_sound| |]. Qed.

Lemma openrouter_meter_sound meter now e percent window reset used limit :
  iso now -> shortExpiry now = Some (Some e) -> safeMeter meter = true -> bounded 100 percent ->
  window_ok window -> from_option (fun r => exists m, ahead now r m) True reset ->
  sound OPENROUTER now (openrouter_meter meter now e percent window reset used limit).
Proof. intros. apply (rawMeter_sound {| ri_provider := OPENROUTER |}). by split. Qed.

Lemma key_rows_ok data now e ms :
  iso now -> since_epoch now -> shortExpiry now = Some e -> key_rows data now e = Some ms ->
  openrouter_rows now ms.
Proof.
  intros Hnow Ht He. unfold key_rows.
  assert (Hfinite : forall limit,
    (let? credits := boundedNumber limit MILLION_MILLION in
     let? remaining := boundedNumber (get data "limit_remaining") MILLION_MILLION in
     let? reset := finiteLimitWindow (get data "limit_reset") now in
     let? _ := boundedNumber (get data "usage") MILLION_MILLION in
     let? expiresAt := e in
     check negb (credits <=# int 0) && negb (credits <# remaining);;
     let used := roundedAmount (credits ⊖ remaining) in
     let? percent := within_percent (roundedAmount (used ⊘ credits ⊗ int 100)) in
     Some [openrouter_meter "KEY_LIMIT" now expiresAt percent reset.1 reset.2 used credits;
           unavailableAccountBalance now expiresAt]) = Some ms -> openrouter_rows now ms).
  { intros limit. destruct (boundedNumber limit _) as [credits|]; [|done].
    destruct (boundedNumber _ _) as [remaining|]; [|done].
    destruct (finiteLimitWindow _ _) as [[window reset]|] eqn:Ew; [|done].
    destruct (boundedNumber _ _); [|done]. destruct e as [e|]; [|done]. destruct (_ && _); [|done].
    cbv zeta. destruct (within_percent _) as [percent|] eqn:Ep; [|done].
    intros E. apply (inj Some) in E as <-. apply within_percent_Some in Ep.
    apply finiteLimitWindow_ok in Ew as [Hw Hr]; [|done].
    apply unavailable_balance_rows; [done..| |done]. by apply openrouter_meter_sound. }
  destruct (get data "limit") eqn:El; try apply Hfinite. clear Hfinite.
  destruct (boundedNumber (get data "usage") MILLION_MILLION); [|done]. destruct e as [e|]; [|done].
  intros E. apply (inj Some) in E as <-. apply unavailable_balance_rows; [done..| |done].
  by apply availability_row_sound.
Qed.

Lemma credit_report_ok data now e ms :
  iso now -> shortExpiry now = Some e -> credit_report data now e = Some ms -> openrouter_rows now ms.
Proof.
  intros Hnow He. unfold credit_report. destruct (boundedNumber _ _) as [credits|]; [|done].
  destruct (boundedNumber _ _) as [usage|]; [|done]. destruct e as [e|]; [|done].
  destruct (_ && _); [|done]. destruct (within_percent _) as [percent|] eqn:Ep; [|done].
  intros E. apply (inj Some) in E as <-. apply within_percent_Some in Ep.
  apply rows_of_credits; [|done]. by apply openrouter_meter_sound.
Qed.

Lemma parseOne_ok payload now ms :
  iso now -> since_epoch now -> parseOneOpenrouterPayload payload now = Some (Some ms) ->
  openrouter_rows now ms.
Proof.
  intros Hnow Ht. unfold parseOneOpenrouterPayload. cbv zeta. destruct (record _) as [data|]; [|done].
  destruct (shortExpiry now) as [e|] eqn:He; [|done]. intros E. apply (inj Some) in E. revert E.
  destruct (negb _); [by apply key_rows_ok|by apply credit_report_ok].
Qed.

Lemma two_rows_readings now k b :
  sound OPENROUTER now k -> meter_of k = JStr "KEY_LIMIT" -> sound OPENROUTER now b ->
  meter_of b = JStr "ACCOUNT_BALANCE" -> readings OPENROUTER now [k; b].
Proof.
  intros Hk Ek Hb Eb. split_and!; [done| |by repeat constructor]. simpl. rewrite Ek, Eb.
  apply (NoDup_fmap_2 JStr ["KEY_LIMIT"; "ACCOUNT_BALANCE"]). by apply (bool_decide_unpack _).
Qed.

Lemma openrouter_rows_readings now ms : openrouter_rows now ms -> readings OPENROUTER now ms.
Proof.
  intros [k b Hk Ek Hb Eb _|b Hb Eb]; [by apply two_rows_readings|].
  split_and!; [done|apply NoDup_singleton|by repeat constructor].
Qed.

Lemma is_balance_meter m s : meter_of m = JStr s -> is_balance m = str_eqb s "ACCOUNT_BALANCE".
Proof. unfold is_balance, field_of, meter_of. destruct (record_of m); [|done]. simpl. by intros ->. Qed.

(** The measured balance in the place of the placeholder. *)
Lemma merged_rows now rows read :
  openrouter_rows now rows -> openrouter_rows now read ->
  filter (fun m => measured_balance m = true) read <> [] ->
  readings OPENROUTER now
    (filter (fun m => is_balance m = false) rows ++ filter (fun m => measured_balance m = true) read).
Proof.
  intros Hrows Hread.
  destruct Hread as [k b Hk Ek _ _ Eb|b Hsb Eb].
  { assert (Ekb : measured_balance k = false) by (unfold measured_balance; by rewrite (is_balance_meter _ _ Ek)).
    by rewrite filter_cons_False, filter_cons_False by (by rewrite ?Eb, ?Ekb). }
  rewrite filter_cons, filter_nil. destruct (decide _) as [Hmb|]; [|done]. intros _.
  destruct Hrows as [k0 b0 Hk0 Ek0 _ Eb0 _|b0 _ Eb0].
  - rewrite filter_cons_True, filter_cons_False; [by apply two_rows_readings| |].
    + by rewrite (is_balance_meter _ _ Eb0).
    + by rewrite (is_balance_meter _ _ Ek0).
  - rewrite filter_cons_False by (by rewrite (is_balance_meter _ _ Eb0)). rewrite filter_nil. simpl.
    apply openrouter_rows_readings. by constructor.
Qed.

Lemma openrouter_readings payload now previous ms :
  is_iso_instant now = true -> since_epoch now ->
  parseOpenrouterPayload payload now previous = Some (Some ms) -> readings OPENROUTER now ms.
Proof.
  intros Hnow Ht. unfold parseOpenrouterPayload.
  assert (Hone : parseOneOpenrouterPayload payload now = Some (Some ms) -> readings OPENROUTER now ms)
    by (intros E; by eapply openrouter_rows_readings, parseOne_ok).
  destruct previous as [|first [|second previous]]; [exact Hone..|]. clear Hone.
  destruct (parseOneOpenrouterPayload first now) as [keyRows|] eqn:Ek; [|done].
  destruct (parseOneOpenrouterPayload payload now) as [read|] eqn:Er; [|done]. cbv zeta.
  destruct keyRows as [rows|]; [|done]. apply parseOne_ok in Ek; [|done..].
  case_bool_decide as Hb; intros E; apply (inj Some), (inj Some) in E as <-;
    [by apply openrouter_rows_readings|].
  destruct read as [read|]; [|done]. apply parseOne_ok in Er; [|done..]. by apply merged_rows.
Qed.

(** What the OpenRouter parser answers is all readings: one report or both, an
    answer holds at least one row and no name twice (the measured balance takes
    the place of the placeholder and never stands beside it), every row is
    believed, and a limit that starts again on the calendar does so within the
    window it states and ahead of the clock. *)
Theorem openrouter_rows_are_readings payload now previous ms :
  is_iso_instant now = true -> since_epoch now ->
  parseOpenrouterPayload payload now previous = Some (Some ms) -> readings OPENROUTER now ms.
Proof. apply openrouter_readings. Qed.

(** ** Cursor's rows *)

Definition share (n : num) : Prop := exists z, n = Fin z /\ 0 <= z.

Lemma nmin_share n : share n -> bounded 100 (nmin n (int 100)).
Proof.
  intros (z & -> & Hz). pose proof one_pos. unfold int. rewrite nmin_Fin. eexists. split; [done|]. lia.
Qed.

Lemma int_seconds k : Z.abs k < 2 ^ 53 -> int (1000 * k) ⊘ int 1000 = int k.
Proof.
  intros Hk. pose proof one_pos. unfold int. simpl. rewrite (proj2 (Z.eqb_neq (1000 * one) 0)) by lia.
  rewrite Z.sgn_pos, Z.abs_eq, Z.mul_1_r by lia. replace (1000 * k * one * one) with (k * one * (1000 * one)) by lia.
  apply round_exact; [lia|by apply representable_int].
Qed.

Lemma share_nonneg n : is_finite n = true -> (int 0 <=# n) = true -> share n.
Proof.
  intros [z ->]%finite_Fin. change (int 0) with (Fin 0). rewrite nle_Fin, Z.leb_le. intros Hz. by exists z.
Qed.

Lemma nmul_nonneg x k : (int 0 <=# x) = true -> 0 < k -> (int 0 <=# x ⊗ int k) = true.
Proof.
  intros Hx Hk. pose proof one_pos. destruct x as [|neg|z]; [done| |].
  - destruct neg; [done|]. unfold int. simpl. rewrite (proj2 (Z.eqb_neq (k * one) 0)) by nia.
    by rewrite (proj2 (Z.ltb_ge (k * one) 0)) by nia.
  - change (int 0) with (Fin 0) in Hx. rewrite nle_Fin, Z.leb_le in Hx. unfold int at 2. simpl.
    apply round_ratio_nonneg; nia.
Qed.

Lemma cursor_numeric_share v n : cursor_numeric v = Some n -> share n.
Proof. intros (z & -> & Hz)%boundedNumber_Some. exists z. split; [done|lia]. Qed.

Lemma plan_rows_ok plan fields rows :
  plan_rows plan fields = Some rows ->
  rows.*1 `sublist_of` fields.*2 /\ Forall (fun r => share r.2) rows.
Proof.
  revert rows. induction fields as [|[field meter] fields IH]; intros rows; simpl.
  { intros [= <-]. split; constructor. }
  destruct (is_undef _).
  - intros [Hs Hr]%IH. split; [by constructor|done].
  - destruct (cursor_numeric _) as [v|] eqn:Ev; [|done]. destruct (plan_rows _ _) as [rest|]; [|done].
    intros [= <-]. destruct (IH rest eq_refl) as [Hs Hr]. apply cursor_numeric_share in Ev.
    split; [by constructor|by constructor].
Qed.

Lemma overall_rows_ok overall rows :
  overall_rows overall = Some rows ->
  rows.*1 `sublist_of` ["INCLUDED"] /\ Forall (fun r => share r.2) rows.
Proof.
  assert (Hnil : forall l : list string, ([] : list (string * num)).*1 `sublist_of` l /\
    Forall (fun r => share r.2) ([] : list (string * num))) by (intros l; split; [apply sublist_nil_l|constructor]).
  unfold overall_rows. destruct overall as [o|]; [|intros [= <-]; apply Hnil].
  destruct (is_true _); [intros [= <-]; apply Hnil|].
  destruct (cursor_numeric (get o "used")) as [used|] eqn:Eu; [|done].
  destruct (cursor_numeric (get o "limit")) as [limit|] eqn:El; [|done].
  destruct (limit <=# int 0) eqn:Hpos; [done|]. cbn [negb]. cbv zeta. destruct (is_finite _) eqn:Hf; [|done].
  destruct (negb _); [|done]. intros E. apply (inj Some) in E as <-. split; [done|].
  apply Forall_singleton. apply cursor_numeric_share in Eu as (u & -> & Hu), El as (l & -> & Hl).
  change (int 0) with (Fin 0) in Hpos. rewrite nle_Fin in Hpos. bools.
  apply share_nonneg; [done|]. cbn [snd]. apply nmul_nonneg; [by apply ndiv_nonneg|done].
Qed.

Lemma cursor_read_Some payload now rows endless current start finish :
  cursor_read payload now = Some (rows, endless, current, start, finish) ->
  date_parse now = Some current /\ current < finish /\ start < finish /\
  finish - start <= 366 * 86400000 /\ valid_time finish = true /\
  rows <> [] /\ NoDup rows.*1 /\ Forall (fun r => safeMeter r.1 = true /\ share r.2) rows.
Proof.
  unfold cursor_read, instant. destruct (record payload) as [root|]; [|done]. destruct (is_undef _); [|done].
  cbn [as_string]. destruct (instant_pattern now); [|done]. destruct (date_parse now) as [c|]; [|done].
  destruct (as_string (get root "billingCycleStart")) as [s1|]; [|done]. destruct (instant_pattern s1); [|done].
  destruct (date_parse s1) as [st|]; [|done].
  destruct (as_string (get root "billingCycleEnd")) as [s2|]; [|done]. destruct (instant_pattern s2); [|done].
  destruct (date_parse s2) as [fi|] eqn:Ef; [|done]. destruct (_ && _) eqn:Hg; [|done].
  destruct (record (get root _)) as [individual|]; [|done]. destruct (optional_record _) as [plan|]; [|done].
  destruct (optional_record _) as [overall|]; [|done].
  destruct (match plan with Some _ => _ | None => _ end) as [planned|] eqn:Ep; [|done].
  destruct (overall_rows overall) as [included|] eqn:Eo; [|done]. cbv zeta.
  destruct (negb _ || _); [|done].
  set (endless' := is_true _ || _ || _). set (rows' := if endless' then _ else _).
  case_bool_decide as Hne; [done|]. cbn [negb]. intros E. apply (inj Some) in E. injection E as <- <- <- <- <-.
  bools. split_and!; [done|lia|lia|lia|by eapply date_parse_valid|done| |].
  all: assert (Hplan : planned.*1 `sublist_of` ["AUTO"; "API"] /\ Forall (fun r => share r.2) planned)
    by (destruct plan; [by apply (plan_rows_ok _ _ _ Ep)|injection Ep as <-; split; [apply sublist_nil_l|constructor]]);
    destruct Hplan as [Hps Hpv], (overall_rows_ok _ _ Eo) as [Hos Hov];
    assert (Hsub : rows'.*1 `sublist_of` ["AUTO"; "API"; "INCLUDED"])
    by (unfold rows'; destruct endless'; [by constructor; apply sublist_nil_l|];
        rewrite fmap_app; apply (sublist_app _ ["AUTO"; "API"] _ ["INCLUDED"]); done).
  - eapply sublist_NoDup; [|exact Hsub]. by apply (bool_decide_unpack _).
  - assert (Hval : Forall (fun r => share r.2) rows').
    { unfold rows'. destruct endless'; [|by apply Forall_app]. apply Forall_singleton. by exists 0. }
    rewrite Forall_forall in Hval |- *. intros r Hr. split; [|by apply Hval].
    assert (Hin : r.1 ∈ ["AUTO"; "API"; "INCLUDED"]) by (eapply elem_of_sublist; [by apply list_elem_of_fmap_2|exact Hsub]).
    repeat (apply elem_of_cons in Hin as [->|Hin]; [done|]). by apply elem_of_nil in Hin.
Qed.

Lemma cursor_row_sound now e start finish endless row current :
  iso now -> date_parse now = Some current -> iso_string (Some (current + 600000)) = Some e ->
  current < finish -> valid_time finish = true -> safeMeter row.1 = true -> share row.2 ->
  forall k, finish - start = 1000 * k -> 0 < k <= MAX_WINDOW_SECONDS ->
  sound CURSOR now (cursor_row now e start finish endless row).
Proof.
  intros Hnow Ht He Hlt Hv Hm Hs k Hk Hw. unfold iso_string in He.
  destruct (valid_time (current + 600000)) eqn:Hve; [|done]. injection He as <-.
  destruct (reads_like (default [] (record_of (cursor_row now (to_iso (current + 600000)) start finish endless row)))
    {| s_provider := CURSOR; s_meter := row.1; s_value := nmin row.2 (int 100); s_unit := PERCENT;
       s_window := window_of w_fixed (Some k); s_resetAt := Some (to_iso finish);
       s_source := internal_payload; s_precision := if str_eqb row.1 "INCLUDED" then p_estimated else p_exact;
       s_observedAt := now; s_expiresAt := to_iso (current + 600000);
       s_labels := cursorLabels; s_usedAmount := None; s_limitAmount := None; s_currency := None;
       s_accountId := None; s_accountLabel := None; s_provenance := None; s_writer := None;
       s_kind := Some quota_percent; s_availability := if endless then Some unlimited else None;
       s_retryAt := None |}) as (s & Hn & Eh).
  - split; simpl; try done.
    + by apply nmin_share.
    + by apply is_iso_instant_to_iso.
    + by apply is_iso_instant_to_iso.
    + rewrite Ht, date_parse_to_iso by done. simpl. apply Z.leb_le. lia.
  - intros key _. unfold cursor_row. rewrite Hk, int_seconds by (unfold MAX_WINDOW_SECONDS in Hw; lia).
    unfold snapshot_fields, raw_of_snapshot, get. destruct endless; simpl; repeat case_decide; by subst.
  - apply hard_part_fields in Eh as (Hp & _ & _ & _ & Hr & Ho). exists s. split_and!; [done..|].
    rewrite Hr. simpl. rewrite Ht, date_parse_to_iso by done. simpl. by apply Z.ltb_lt.
Qed.

Lemma no_window_no_reading fs :
  normalizeWindow (get fs "window") = None -> normalizeMeter (JObj fs) = None.
Proof.
  intros E. unfold normalizeMeter. cbn [record_of]. destruct (read_optional (get fs "kind")); [|done].
  destruct (read_optional (get fs "availability")); [|done]. destruct (read_retryAt _ _); [|done].
  destruct (read_name (get fs "provider")); [|done]. destruct (as_string (get fs "meter")) as [m|]; [|done].
  destruct (safeMeter m); [|done]. destruct (read_name (get fs "unit")); [|done].
  destruct (read_value _ _); [|done]. by rewrite E.
Qed.

Lemma cursor_row_refused now e start finish endless row k :
  finish - start = 1000 * k -> MAX_WINDOW_SECONDS < k < 2 ^ 53 ->
  normalizeMeter (cursor_row now e start finish endless row) = None.
Proof.
  intros Hk Hw. unfold cursor_row. rewrite Hk, int_seconds by (unfold MAX_WINDOW_SECONDS in Hw; lia).
  apply no_window_no_reading. unfold normalizeWindow, get. simpl. rewrite to_int_int.
  by rewrite (proj2 (Z.leb_gt k 31536000)), andb_false_r by (unfold MAX_WINDOW_SECONDS in Hw; lia).
Qed.

(** What becomes of a Cursor payload is decided by the length of its billing
    cycle: up to 365 days the rows are all readings, of distinct names; one of
    366 days, which the parser lets through, is past the longest window the
    normalizer takes, and every row of it is lost. *)
Theorem a_cursor_cycle_decides payload now rows endless current start finish k ms :
  is_iso_instant now = true ->
  cursor_read payload now = Some (rows, endless, current, start, finish) ->
  parseCursorPayload payload now = Some (Some ms) -> finish - start = 1000 * k ->
  if k <=? MAX_WINDOW_SECONDS then readings CURSOR now ms
  else Forall (fun m => normalizeMeter m = None) ms.
Proof.
  intros Hnow E. unfold parseCursorPayload. rewrite E.
  destruct (iso_string _) as [e|] eqn:He; [|done]. intros Em Hk. apply (inj Some), (inj Some) in Em as <-.
  apply cursor_read_Some in E as (Ht & Hlt & Hs & Hnear & Hv & Hne & Hd & Hall).
  destruct (Z.leb_spec k MAX_WINDOW_SECONDS) as [Hw|Hw].
  - split_and!; [by intros ?%map_eq_nil| |].
    + rewrite map_map. change (fun x => _) with (fun r : string * num => JStr r.1).
      rewrite <- (map_map fst JStr). by apply (NoDup_fmap_2 JStr).
    + apply Forall_fmap. eapply Forall_impl; [exact Hall|]. intros r [Hm Hsh].
      by apply (cursor_row_sound _ _ _ _ _ _ current Hnow Ht He Hlt Hv Hm Hsh k); [|lia].
  - apply Forall_fmap, Forall_forall. intros r _. by apply (cursor_row_refused _ _ _ _ _ _ k); [|lia].
Qed.
End Accounts.

(** ** Witnesses *)

Definition openrouter_key : jsval :=
  JObj [("data", JObj [("limit", JNum (int 50)); ("limit_remaining", JNum (int 20)); ("usage", JNum (int 30));
                       ("limit_reset", JStr "weekly")])].
Definition openrouter_credits : jsval :=
  JObj [("data", JObj [("total_credits", JNum (int 40)); ("total_usage", JNum (int 10))])].
Definition openrouter_sample_read : option (option (list jsval)) :=
  parseOpenrouterPayload openrouter_credits "2026-09-04T12:00:00.000Z" [openrouter_key; openrouter_credits].
Definition openrouter_sample_rows : list jsval := default [] (mjoin openrouter_sample_read).

Lemma openrouter_rows_are_readings_witness :
  map (fun m => (meter_of m, field_of m "value", field_of m "resetAt")) openrouter_sample_rows =
    [(JStr "KEY_LIMIT", JNum (int 60), JStr "2026-09-07T00:00:00.000Z");
     (JStr "ACCOUNT_BALANCE", JNum (int 25), JNull)] /\
  readings OPENROUTER "2026-09-04T12:00:00.000Z" openrouter_sample_rows.
Proof.
  split; [by vm_compute|].
  apply (openrouter_rows_are_readings openrouter_credits _ [openrouter_key; openrouter_credits]);
    [by vm_compute|by eexists; split; [vm_compute; reflexivity|]|].
  assert (Hne : openrouter_sample_rows <> []) by (by vm_compute). revert Hne.
  unfold openrouter_sample_rows, openrouter_sample_read. by destruct (parseOpenrouterPayload _ _ _) as [[ms|]|].
Defined.

(** A yearly plan, in an ordinary year and over a leap year. *)
Definition cursor_year (from to : string) : jsval :=
  JObj [("billingCycleStart", JStr from); ("billingCycleEnd", JStr to);
        ("individualUsage", JObj [("plan", JObj [("autoPercentUsed", JNum (int 12))])])].
Definition cursor_meters (payload : jsval) (now : string) : list jsval :=
  default [] (mjoin (parseCursorPayload payload now)).
Definition plain_year : jsval := cursor_year "2026-01-01T00:00:00.000Z" "2027-01-01T00:00:00.000Z".
Definition leap_year : jsval := cursor_year "2028-01-01T00:00:00.000Z" "2029-01-01T00:00:00.000Z".

Lemma a_cursor_cycle_decides_witness :
  readings CURSOR "2026-09-04T12:00:00.000Z" (cursor_meters plain_year "2026-09-04T12:00:00.000Z") /\
  cursor_meters leap_year "2028-09-04T12:00:00.000Z" <> [] /\
  Forall (fun m => normalizeMeter m = None) (cursor_meters leap_year "2028-09-04T12:00:00.000Z").
Proof.
  split_and!; [|by vm_compute|].
  - apply (a_cursor_cycle_decides plain_year "2026-09-04T12:00:00.000Z" [("AUTO", int 12)] false
      1788523200000 1767225600000 1798761600000 31536000); by vm_compute.
  - apply (a_cursor_cycle_decides leap_year "2028-09-04T12:00:00.000Z" [("AUTO", int 12)] false
      1851681600000 1830297600000 1861920000000 31622400); by vm_compute.
Defined.
