(* ===== verification/AntigravityPayload.v ===== *)
(** * The payload of Antigravity

    [packages/connectors/src/antigravity.ts] and
    [packages/core/src/acquire/antigravity-meters.ts]: the buckets of a status
    line and the meter code each one earns from its id. *)
From S2P Require Import Prelude JsNum JsDate JsValue Text Types Normalizer Json Sha256 Files Connector.
Local Open Scope string_scope.
Local Open Scope Z_scope.
Local Open Scope list_scope.
Local Open Scope js_scope.

Definition antigravityLabels : ConnectorLabels :=
  {| lb_credentialOrigin := official_local_tool; lb_dataInterfaceStatus := native_statusline_payload;
     lb_automationRisk := risk_low; lb_verification := UNVERIFIED; lb_verificationEvidence := None |}.
Definition ANTIGRAVITY_TOOL : option string := Some "Antigravity".

(** ** Meter codes *)

Definition reservedMeters : list string :=
  ["FIVE_HOUR"; "SEVEN_DAY"; "THIRD_PARTY_SESSION"; "THIRD_PARTY_WEEKLY"].

(** Around the last hyphen: [lastIndexOf] and the two [slice]s. *)
Fixpoint split_last (s : string) : option (string * string) :=
  match s with
  | EmptyString => None
  | String c s' =>
      match split_last s' with
      | Some (pool, period) => Some (String c pool, period)
      | None => check code c =? 45;; Some ("", s')
      end
  end.

Definition suffix (fiveHour : bool) : string := if fiveHour then "_SESSION" else "_WEEKLY".

(** [pool.replace(/-/gu, "_").toUpperCase()] *)
Definition named (pool : string) : string :=
  toUpperCase (str_map (fun c => if code c =? 45 then "_"%char else c) pool).

Definition pool_char (c : ascii) : bool := is_lower c || is_digit c || (code c =? 45).

Definition readable (pool : string) : bool :=
  match pool with
  | String c _ => is_lower c && str_forall pool_char pool
  | EmptyString => false
  end.

(** The bytes of a text, two uppercase digits each. *)
Definition encoded (pool : string) : string := toUpperCase (join "" (map (hex 2) (utf8 pool))).

Definition pool_code (pool : string) (fiveHour : bool) : string :=
  if str_eqb pool "gemini" then (if fiveHour then "FIVE_HOUR" else "SEVEN_DAY")
  else if str_eqb pool "3p" then "THIRD_PARTY" +:+ suffix fiveHour
  else
    let meter := named pool +:+ suffix fiveHour in
    if negb (readable pool) || starts_with "X_" (named pool) || bool_decide (meter ∈ reservedMeters)
    then "X_" +:+ encoded pool +:+ suffix fiveHour
    else meter.

Definition antigravityMeter (bucketId : string) : option (string * Z) :=
  let? (pool, period) := split_last bucketId in
  let period := toLowerCase period in
  check negb (str_eqb pool "") && (str_eqb period "5h" || str_eqb period "weekly");;
  let fiveHour := str_eqb period "5h" in
  let meter := pool_code pool fiveHour in
  check safeMeter meter;; Some (meter, if fiveHour then 18000 else 604800).

Example antigravity_codes :
  map antigravityMeter ["gemini-5h"; "3p-weekly"; "claude-code-weekly"; "third-party-5h"; "x-y-5H"; "gemini"; "-5h"] =
  [Some ("FIVE_HOUR", 18000); Some ("THIRD_PARTY_WEEKLY", 604800); Some ("CLAUDE_CODE_WEEKLY", 604800);
   Some ("X_74686972642D7061727479_SESSION", 18000); Some ("X_782D79_SESSION", 18000); None; None].
Proof. by vm_compute. Qed.

(** ** The payload *)

Definition remainingFraction (bucket : list (string * jsval)) : option num :=
  match get bucket "remaining_fraction", get bucket "remainingFraction" with
  | JNum n, _ => boundedFraction (JNum n)
  | _, JNum n => boundedFraction (JNum n)
  | _, _ => None
  end.

Section Antigravity.
Context `{DateHost}.

Definition resetInstant (bucket : list (string * jsval)) : option string :=
  let? value :=
    match get bucket "reset_time", get bucket "resetTime" with
    | JStr s, _ => Some s
    | _, JStr s => Some s
    | _, _ => None
    end in
  let? t := date_parse value in Some (to_iso t).

Definition antigravity_bucket (observedAt expiresAt : string) (entry : string * jsval) : option RawMeterInput :=
  let '(bucketId, value) := entry in
  let? bucket := record value in
  let? remaining := remainingFraction bucket in
  let? mapped := antigravityMeter bucketId in
  Some {| ri_provider := ANTIGRAVITY; ri_meter := mapped.1;
          ri_value := nround ((int 1 ⊖ remaining) ⊗ int 1000) ⊘ int 10;
          ri_window := {| w_kind := w_rolling; w_durationSeconds := Some mapped.2 |};
          ri_resetAt := resetInstant bucket; ri_source := native_payload; ri_precision := p_estimated;
          ri_observedAt := observedAt; ri_expiresAt := expiresAt; ri_labels := antigravityLabels;
          ri_amounts := None |}.

(** The outer [None]: the expiry lay beyond the last date. *)
Definition parseAntigravityPayload (payload : jsval) (observedAt : string) : option (option (list jsval)) :=
  let quota := record (get (default [] (record payload)) "quota") in
  let? expiresAt := shortExpiry observedAt in
  Some (let? quota := quota in
        let? expiresAt := expiresAt in
        let meters := omap (antigravity_bucket observedAt expiresAt) quota in
        check negb (bool_decide (meters = []));; Some (map rawMeter meters)).
End Antigravity.

(** ** Two texts of one code *)

Lemma str_map_app f x y : str_map f (x +:+ y) = str_map f x +:+ str_map f y.
Proof.
  induction x as [|c x IH]; [done|]. change (String c x +:+ y) with (String c (x +:+ y)).
  cbn [str_map]. by rewrite IH.
Qed.

(** A map that some function undoes on these characters loses nothing. *)
Lemma str_map_inj (p : ascii -> bool) (f g : ascii -> ascii) x y :
  (forall c, p c = true -> g (f c) = c) ->
  str_forall p x = true -> str_forall p y = true -> str_map f x = str_map f y -> x = y.
Proof.
  intros Hg. revert y. induction x as [|c x IH]; intros [|d y]; try done. cbn [str_forall str_map].
  rewrite !andb_true_iff. intros [Hc Hx] [Hd Hy] E. injection E as Ec E.
  rewrite <- (Hg c Hc), Ec, (Hg d Hd). f_equal. by apply IH.
Qed.

Definition upper_pool (c : ascii) : ascii := upper_char (if code c =? 45 then "_"%char else c).
Definition lower_pool (c : ascii) : ascii := if code c =? 95 then "-"%char else lower_char c.

Lemma lower_upper_pool c : pool_char c = true -> lower_pool (upper_pool c) = c.
Proof. by destruct c as [[] [] [] [] [] [] [] []]. Qed.

Lemma named_map pool : named pool = str_map upper_pool pool.
Proof.
  unfold named, toUpperCase. induction pool as [|c pool IH]; [done|]. cbn [str_map]. by rewrite IH.
Qed.

Lemma named_inj x y : readable x = true -> readable y = true -> named x = named y -> x = y.
Proof.
  intros Hx Hy. rewrite !named_map. unfold readable in *. destruct x as [|c x]; [done|].
  destruct y as [|d y]; [done|]. bools. by apply (str_map_inj pool_char _ lower_pool); [apply lower_upper_pool|..].
Qed.

Definition upper_hex (n : Z) : ascii := upper_char (hex_digit n).

Lemma upper_hex_value n : 0 <= n < 16 -> (if is_digit (upper_hex n) then code (upper_hex n) - 48 else code (upper_hex n) - 55) = n.
Proof.
  intros Hn. rewrite <- (Z2Nat.id n) by lia.
  assert (Hall : forallb (fun i => let c := upper_hex (Z.of_nat i) in
    (if is_digit c then code c - 48 else code c - 55) =? Z.of_nat i) (seq 0 16) = true) by (by vm_compute).
  rewrite forallb_forall in Hall. apply Z.eqb_eq, Hall, in_seq. lia.
Qed.

Lemma upper_hex_inj m n : 0 <= m < 16 -> 0 <= n < 16 -> upper_hex m = upper_hex n -> m = n.
Proof. intros Hm Hn E. rewrite <- (upper_hex_value m Hm), <- (upper_hex_value n Hn). by rewrite E. Qed.

Lemma encoded_cons b bytes :
  toUpperCase (join "" (map (hex 2) (b :: bytes))) =
  String (upper_hex (b / 16 mod 16)) (String (upper_hex (b mod 16)) (toUpperCase (join "" (map (hex 2) bytes)))).
Proof.
  cbn [map]. rewrite join_cons_nil. unfold toUpperCase. rewrite str_map_app. unfold hex at 1.
  change (16 ^ Z.of_nat 1) with 16. change (16 ^ Z.of_nat 0) with 1. rewrite Z.div_1_r. done.
Qed.

Lemma encoded_bytes_inj xs ys :
  Forall (fun b => 0 <= b < 256) xs -> Forall (fun b => 0 <= b < 256) ys ->
  toUpperCase (join "" (map (hex 2) xs)) = toUpperCase (join "" (map (hex 2) ys)) -> xs = ys.
Proof.
  intros Hx. revert ys. induction Hx as [|x xs Hx Hxs IH]; intros ys Hy E; destruct Hy as [|y ys Hy Hys];
    [done|by rewrite encoded_cons in E|by rewrite encoded_cons in E|].
  rewrite !encoded_cons in E. injection E as E1 E2 E. f_equal; [|by apply IH].
  apply upper_hex_inj in E1, E2; try (apply Z.mod_pos_bound; lia).
  rewrite !Z.mod_small in E1 by (split; [apply Z.div_pos|apply Z.div_lt_upper_bound]; lia).
  rewrite (Z.div_mod x 16), (Z.div_mod y 16) by lia. lia.
Qed.

Lemma code_inj c d : code c = code d -> c = d.
Proof.
  unfold code. intros E%N2Z.inj. rewrite <- (ascii_N_embedding c), E. apply ascii_N_embedding.
Qed.

Lemma utf8_inj x y : utf8 x = utf8 y -> x = y.
Proof.
  revert y. induction x as [|c x IH]; intros [|d y]; cbn [utf8]; [done|by destruct (code d <? 128)|
    by destruct (code c <? 128)|]. pose proof (code_range c). pose proof (code_range d).
  assert (0 <= code c / 64) by (apply Z.div_pos; lia). assert (0 <= code d / 64) by (apply Z.div_pos; lia).
  destruct (Z.ltb_spec (code c) 128), (Z.ltb_spec (code d) 128); simpl; intros E; injection E as E; try lia.
  - f_equal; [by apply code_inj|by apply IH].
  - f_equal; [|by apply IH]. apply code_inj. rewrite (Z.div_mod (code c) 64), (Z.div_mod (code d) 64) by lia. lia.
Qed.

Lemma encoded_inj x y : encoded x = encoded y -> x = y.
Proof. intros E. apply utf8_inj, encoded_bytes_inj; [apply utf8_bytes..|done]. Qed.

Lemma suffix_inj x y f f' : x +:+ suffix f = y +:+ suffix f' -> f = f' /\ x = y.
Proof.
  intros E. assert (Ef : f = f').
  { apply (f_equal last_unit) in E. destruct f, f'; try done; unfold suffix in E; by rewrite !last_unit_app in E. }
  subst f'. split; [done|]. by apply str_app_inj_r in E.
Qed.

(** The four ways a pool gets its code. *)
Inductive coded (fiveHour : bool) : string -> string -> Prop :=
  | coded_google : coded fiveHour "gemini" (if fiveHour then "FIVE_HOUR" else "SEVEN_DAY")
  | coded_third_party : coded fiveHour "3p" ("THIRD_PARTY" +:+ suffix fiveHour)
  | coded_readable pool :
      readable pool = true -> starts_with "X_" (named pool) = false ->
      (named pool +:+ suffix fiveHour) ∉ reservedMeters -> coded fiveHour pool (named pool +:+ suffix fiveHour)
  | coded_encoded pool : coded fiveHour pool ("X_" +:+ encoded pool +:+ suffix fiveHour).

Lemma pool_code_coded pool fiveHour : coded fiveHour pool (pool_code pool fiveHour).
Proof.
  unfold pool_code. destruct (str_eqb pool "gemini") eqn:E1; [apply str_eqb_eq in E1 as ->; constructor|].
  destruct (str_eqb pool "3p") eqn:E2; [apply str_eqb_eq in E2 as ->; constructor|]. cbv zeta.
  destruct (readable pool) eqn:Hr; [|constructor]. destruct (starts_with "X_" (named pool)) eqn:Hs; [constructor|].
  cbn [negb orb]. case_bool_decide; by constructor.
Qed.

Lemma fixed_code_reserved (f : bool) :
  (if f then "FIVE_HOUR" else "SEVEN_DAY") ∈ reservedMeters /\ ("THIRD_PARTY" +:+ suffix f) ∈ reservedMeters.
Proof. destruct f; split; by apply (bool_decide_unpack _). Qed.

Lemma readable_not_encoded pool x f f' :
  starts_with "X_" (named pool) = false -> named pool +:+ suffix f <> "X_" +:+ x +:+ suffix f'.
Proof.
  intros Hs E. rewrite str_app_assoc in E. apply suffix_inj in E as [_ E].
  rewrite E in Hs. assert (Ht : starts_with "X_" ("X_" +:+ x) = true) by (apply starts_with_iff; by exists x).
  by rewrite Ht in Hs.
Qed.

Lemma coded_inj f f' pool pool' m : coded f pool m -> coded f' pool' m -> pool = pool' /\ f = f'.
Proof.
  pose proof (fixed_code_reserved f) as [H1 H2]. pose proof (fixed_code_reserved f') as [H3 H4].
  intros [| |p Hr Hs Hn|p] Hm; inversion Hm as [Ep E|Ep E|p' Hr' Hs' Hn' Ep E|p' Ep E]; subst; try done;
    try (clear -E; by destruct f, f'); try (by rewrite E in Hn'); try (by rewrite <- E in Hn).
  - apply suffix_inj in E as [-> E]. split; [by apply named_inj|done].
  - symmetry in E. by apply readable_not_encoded in E.
  - by apply readable_not_encoded in E.
  - change (encoded pool' +:+ suffix f' = encoded p +:+ suffix f) in E. apply suffix_inj in E as [-> E]. split; [by apply encoded_inj|done].
Qed.

(** ** Properties *)

Lemma antigravityMeter_Some id m d :
  antigravityMeter id = Some (m, d) ->
  exists pool period, split_last id = Some (pool, period) /\ safeMeter m = true /\
    (toLowerCase period = "5h" \/ toLowerCase period = "weekly") /\
    let fiveHour := str_eqb (toLowerCase period) "5h" in
    m = pool_code pool fiveHour /\ d = if fiveHour then 18000 else 604800.
Proof.
  unfold antigravityMeter. destruct (split_last id) as [[pool period]|]; [|done]. cbv zeta.
  destruct (negb _ && _) eqn:Hg; [|done]. destruct (safeMeter _) eqn:Hs; [|done].
  intros E. apply (inj Some) in E. injection E as <- <-. exists pool, period. bools.
  apply orb_true_iff in H0 as [Hp|Hp]; apply str_eqb_eq in Hp; eauto 10.
Qed.

(** No two pools share a meter. A code the reader gives names one pool and one
    cadence, whatever the pool is called, even when it is called like one of
    the fixed codes or like an encoded name; and it is a name the normalizer
    takes. *)
Theorem no_two_pools_share_a_meter id id' m d d' :
  antigravityMeter id = Some (m, d) -> antigravityMeter id' = Some (m, d') ->
  safeMeter m = true /\ d = d' /\
  exists pool period period', split_last id = Some (pool, period) /\ split_last id' = Some (pool, period') /\
    toLowerCase period = toLowerCase period'.
Proof.
  intros (pool & period & Hs & Hm & Hp & Em & ->)%antigravityMeter_Some.
  intros (pool' & period' & Hs' & _ & Hp' & Em' & ->)%antigravityMeter_Some.
  destruct (coded_inj _ _ _ _ m (eq_ind_r _ (pool_code_coded _ _) Em) (eq_ind_r _ (pool_code_coded _ _) Em'))
    as [<- Ef].
  split_and!; [done|by rewrite Ef|]. exists pool, period, period'. split_and!; [done..|].
  destruct Hp as [Hp|Hp], Hp' as [Hp'|Hp']; rewrite Hp, Hp' in Ef |- *; done.
Qed.

Section Readings.
Context `{DateHost}.

Lemma resetInstant_iso bucket : from_option iso True (resetInstant bucket).
Proof.
  unfold resetInstant. destruct (match get bucket "reset_time" with JStr _ => _ | _ => _ end); [|done].
  destruct (date_parse s) eqn:Et; [|done]. apply is_iso_instant_to_iso. by eapply date_parse_valid.
Qed.

Lemma antigravity_bucket_ok now e entry i :
  iso now -> shortExpiry now = Some (Some e) -> antigravity_bucket now e entry = Some i ->
  well_formed (snapshot_of i) /\ ri_provider i = ANTIGRAVITY /\ ri_observedAt i = now.
Proof.
  intros Hnow He. destruct entry as [id v]. unfold antigravity_bucket. destruct (record v) as [bucket|]; [|done].
  destruct (remainingFraction bucket) as [remaining|] eqn:Er; [|done].
  destruct (antigravityMeter id) as [[m d]|] eqn:Em; [|done]. intros E. apply (inj Some) in E as <-.
  split; [|done]. destruct (shortExpiry_Some _ _ He).
  apply antigravityMeter_Some in Em as (? & ? & _ & Hm & _ & _ & ->).
  assert (Hb : bounded 1 remaining).
  { unfold remainingFraction in Er. destruct (get bucket "remaining_fraction"), (get bucket "remainingFraction");
      try done; by apply boundedFraction_Some in Er. }
  split; try done; simpl; [by apply bounded_tenths|by destruct (str_eqb _ _)|apply resetInstant_iso].
Qed.

Lemma antigravity_believed payload now ms :
  is_iso_instant now = true -> parseAntigravityPayload payload now = Some (Some ms) ->
  ms <> [] /\ Forall (believed ANTIGRAVITY now) ms.
Proof.
  intros Hnow. unfold parseAntigravityPayload. cbv zeta.
  destruct (shortExpiry now) as [e|] eqn:He; [|done]. intros E. apply (inj Some) in E. revert E.
  destruct (record _) as [quota|]; [|done]. destruct e as [e|]; [|done]. case_bool_decide as Hne; [done|].
  intros E. apply (inj Some) in E as <-. split; [by intros ?%map_eq_nil|].
  apply Forall_fmap, Forall_forall. intros i (entry & _ & Ei)%list_elem_of_omap.
  apply (antigravity_bucket_ok _ _ _ _ Hnow He) in Ei as (Hi & <- & <-). by apply rawMeter_believed.
Qed.
End Readings.

(** ** Witnesses *)

Lemma no_two_pools_share_a_meter_witness :
  antigravityMeter "third-party-5h" = Some ("X_74686972642D7061727479_SESSION", 18000) /\
  safeMeter "X_74686972642D7061727479_SESSION" = true.
Proof.
  split; [by vm_compute|].
  apply (no_two_pools_share_a_meter "third-party-5h" "third-party-5H" _ 18000 18000); by vm_compute.
Defined.
