(* ===== verification/Contract.v ===== *)
(** * The contract gate and the specifications a machine runs

    [packages/connectors/src/contract-gate.ts], and [acquisitionSpecs] of
    [packages/cli/src/cli.ts]: the place that joins each provider's requests
    with its parser. *)
From S2P Require Import Prelude JsNum JsDate JsValue Text Types Normalizer Files Identity Cadence Attempt Transport Providers Connector ClaudePayload CodexPayload QuotaPayloads AccountPayloads AntigravityPayload.
Local Open Scope string_scope.
Local Open Scope Z_scope.
Local Open Scope list_scope.
Local Open Scope js_scope.

(** ** The gate *)

Inductive ContractUnknownReason := no_payload | unknown_provider | shape_mismatch_reason | no_believable_meter.

Inductive ContractOutcome :=
  | contract_ok (provider : ProviderCode) (meters : list jsval)
  | contract_unknown (provider : ProviderCode) (reason : ContractUnknownReason).

Definition contractUnknownSentence (reason : ContractUnknownReason) : string :=
  match reason with
  | no_payload => "No response was read, so this provider's usage is unknown."
  | unknown_provider => "This build has no reader for this provider, so its usage is unknown."
  | shape_mismatch_reason =>
      "The provider answered, but not in a shape this build understands, so its " +:+
      "usage is unknown rather than guessed."
  | no_believable_meter =>
      "The provider answered, but nothing in the answer was a usage reading this " +:+
      "build could believe, so its usage is unknown."
  end.

Definition isContractUnknown (outcome : ContractOutcome) : bool :=
  match outcome with contract_unknown _ _ => true | contract_ok _ _ => false end.

(** A parser that does not look at earlier bodies. *)
Definition of_last (parse : jsval -> string -> option (option (list jsval))) : PayloadParser :=
  fun payload now _ => parse payload now.

Section Contract.
Context `{DateHost} `{LocaleHost} `{CryptoHost}.

Definition PARSER_BY_PROVIDER (provider : ProviderCode) : option PayloadParser :=
  match provider with
  | CLAUDE => Some (of_last parseClaudePayload)
  | OPENROUTER => Some parseOpenrouterPayload
  | CODEX => Some (of_last parseCodexPayload)
  | CURSOR => Some (of_last parseCursorPayload)
  | ANTIGRAVITY => Some (of_last parseAntigravityPayload)
  | GEMINI_CLI => Some (of_last parseGeminiCliPayload)
  | OPENCODE => Some (of_last parseOpencodePayload)
  | GROK => Some (of_last parseGrokPayload)
  | KIMI => Some (of_last parseKimiPayload)
  | MANUAL => Some (of_last parseManualPayload)
  end.

(** [None]: the parser threw. *)
Definition checkProviderContract (provider : ProviderCode) (payload : jsval) (now : string) :
    option ContractOutcome :=
  match PARSER_BY_PROVIDER provider with
  | None => Some (contract_unknown provider unknown_provider)
  | Some parser =>
      match payload with
      | JUndef | JNull => Some (contract_unknown provider no_payload)
      | _ =>
          let? meters := parser payload now [] in
          Some (match meters with
                | None => contract_unknown provider shape_mismatch_reason
                | Some meters =>
                    if (length (normalizeMeters meters) =? 0)%nat
                    then contract_unknown provider no_believable_meter
                    else contract_ok provider meters
                end)
      end
  end.

(** ** The specifications *)

Definition acquisitionSpecs (claudePoll : bool) : list Spec :=
  [claudeSpec (of_last parseClaudePayload) claudePoll (Some claudeWeeklySetComplete);
   codexSpec (of_last parseCodexPayload);
   cursorSpec (of_last parseCursorPayload);
   geminiCliSpec (of_last parseGeminiCliPayload);
   grokSpec (of_last parseGrokPayload);
   kimiSpec (of_last parseKimiPayload);
   openrouterSpec parseOpenrouterPayload].

(** ** Parsers that keep their promise *)

Lemma readings_sound p now ms : readings p now ms -> ms <> [] /\ Forall (believed p now) ms.
Proof. intros (Hne & _ & Hs). split; [done|]. eapply Forall_impl; [exact Hs|]. apply sound_believed. Qed.

Lemma Forall_sound p now ms : ms <> [] /\ Forall (sound p now) ms -> ms <> [] /\ Forall (believed p now) ms.
Proof. intros [Hne Hs]. split; [done|]. eapply Forall_impl; [exact Hs|]. apply sound_believed. Qed.

#[export] Instance kimi_parser : SoundParser KIMI (of_last parseKimiPayload).
Proof. intros payload now previous ms Hnow _ E. by eapply Forall_sound, kimi_sound. Qed.

#[export] Instance grok_parser : SoundParser GROK (of_last parseGrokPayload).
Proof. intros payload now previous ms Hnow _ E. by eapply readings_sound, grok_readings. Qed.

#[export] Instance opencode_parser : SoundParser OPENCODE (of_last parseOpencodePayload).
Proof. intros payload now previous ms Hnow _ E. by eapply readings_sound, opencode_readings. Qed.

#[export] Instance gemini_parser : SoundParser GEMINI_CLI (of_last parseGeminiCliPayload).
Proof. intros payload now previous ms Hnow _ E. by eapply readings_sound, gemini_readings. Qed.

#[export] Instance manual_parser : SoundParser MANUAL (of_last parseManualPayload).
Proof. intros payload now previous ms Hnow _ E. by eapply Forall_sound, manual_sound. Qed.

#[export] Instance openrouter_parser : SoundParser OPENROUTER parseOpenrouterPayload.
Proof. intros payload now previous ms Hnow Ht E. by eapply readings_sound, openrouter_readings. Qed.

#[export] Instance antigravity_parser : SoundParser ANTIGRAVITY (of_last parseAntigravityPayload).
Proof. intros payload now previous ms Hnow _ E. by eapply antigravity_believed. Qed.

(** The providers whose parsers promise that. *)
Definition whole_providers : list ProviderCode :=
  [OPENROUTER; ANTIGRAVITY; GEMINI_CLI; OPENCODE; GROK; KIMI; MANUAL].

Lemma whole_parser p parse :
  p ∈ whole_providers -> PARSER_BY_PROVIDER p = Some parse -> SoundParser p parse.
Proof.
  unfold whole_providers. rewrite !elem_of_cons, elem_of_nil.
  intros Hp E. destruct_or?; subst p; try done; apply (inj Some) in E as <-; apply _.
Qed.

Lemma kept_rows p now ms : Forall (believed p now) ms -> length (normalizeMeters ms) = length ms.
Proof. intros Hms. symmetry. eapply Forall2_length, believed_report, Hms. Qed.

(** The gate's last reason is not for these providers: whatever the payload, an
    answer is either a list of readings, every one believed, or a refusal of
    the shape, of the provider or of nothing at all. *)
Theorem the_gate_believes_what_it_passes p payload now outcome :
  p ∈ whole_providers -> is_iso_instant now = true -> since_epoch now ->
  checkProviderContract p payload now = Some outcome ->
  match outcome with
  | contract_ok q meters =>
      q = p /\ meters <> [] /\ Forall (believed p now) meters /\
      length (normalizeMeters meters) = length meters
  | contract_unknown q reason => q = p /\ (reason = no_payload \/ reason = shape_mismatch_reason)
  end.
Proof.
  intros Hp Hnow Ht. unfold checkProviderContract.
  destruct (PARSER_BY_PROVIDER p) as [parse|] eqn:Epar.
  - pose proof (whole_parser p parse Hp Epar) as Hsound.
    assert (Hread : (let? meters := parse payload now [] in
        Some (match meters with
              | None => contract_unknown p shape_mismatch_reason
              | Some meters => if (length (normalizeMeters meters) =? 0)%nat
                               then contract_unknown p no_believable_meter else contract_ok p meters
              end)) = Some outcome -> match outcome with
      | contract_ok q meters => q = p /\ meters <> [] /\ Forall (believed p now) meters /\
          length (normalizeMeters meters) = length meters
      | contract_unknown q reason => q = p /\ (reason = no_payload \/ reason = shape_mismatch_reason)
      end).
    { destruct (parse payload now []) as [[ms|]|] eqn:E; [| |done].
      - destruct (sound_parser payload now [] ms Hnow Ht E) as [Hne Hall].
        rewrite (kept_rows p now ms Hall). destruct ms as [|m ms]; [done|].
        intros Eo. apply (inj Some) in Eo as <-. split_and!; [done..|]. by apply (kept_rows p now).
      - intros Eo. apply (inj Some) in Eo as <-. auto. }
    destruct payload; try exact Hread; intros Eo; apply (inj Some) in Eo as <-; auto.
  - exfalso. unfold whole_providers in Hp. rewrite !elem_of_cons, elem_of_nil in Hp. by destruct_or?; subst p.
Qed.

(** ** A read keeps every row *)

Lemma attempt_parsed (spec : Spec) credential leased world now result :
  honest_steps spec -> attempt spec credential leased world now = Some result -> at_outcome result = oc_ok ->
  exists payload previous, spec_parse spec payload now previous = Some (Some (at_meters result)).
Proof.
  intros Hh. pose proof (attempt_steps_spec spec credential leased world (spec_steps spec) [] None Hh)
    as Hs. cbn [length] in Hs. specialize (Hs (ex_intro _ [] (conj eq_refl eq_refl))).
  specialize (Hs (fun i body Hb => ltac:(by rewrite lookup_nil in Hb))).
  unfold attempt. destruct (attempt_steps _ _ _ _ _ _ _ _) as [|r|bodies retry]; [done|by intros [= ->]|].
  intros E Ho. exists (default JUndef (last bodies)), bodies. revert E. cbv zeta.
  destruct (spec_parse spec _ now bodies) as [meters|]; [|by intros [= <-]].
  destruct (spec_complete spec) as [c|]; [destruct (c _ now); [|by intros [= <-]]|];
    destruct meters as [[|m ms]|]; by intros [= <-].
Qed.

Lemma specs_provided poll spec : spec ∈ acquisitionSpecs poll -> provided spec.
Proof.
  unfold acquisitionSpecs. rewrite !elem_of_cons, elem_of_nil. intros Hs. destruct_or?; subst; constructor.
Qed.

Lemma spec_parser poll spec :
  spec ∈ acquisitionSpecs poll -> PARSER_BY_PROVIDER (spec_provider spec) = Some (spec_parse spec).
Proof.
  unfold acquisitionSpecs. rewrite !elem_of_cons, elem_of_nil. intros Hs. by destruct_or?; subst.
Qed.

(** C33: From the request to the rows: a read of Gemini, Grok, Kimi or OpenRouter
    that succeeded, with the specifications this program wires together, loses
    nothing on the way. Every meter the parser made is a row of the report, in
    that order, of that provider and that instant, and none is refused. *)
Theorem a_successful_read_keeps_every_row poll spec credential leased world now result :
  spec ∈ acquisitionSpecs poll -> spec_provider spec ∈ whole_providers ->
  is_iso_instant now = true -> since_epoch now ->
  attempt spec credential leased world now = Some result -> at_outcome result = oc_ok ->
  normalizeMeters (at_meters result) <> [] /\
  Forall2 (fun m s => normalizeMeter m = Some s /\ s_provider s = spec_provider spec /\ s_observedAt s = now)
    (at_meters result) (normalizeMeters (at_meters result)).
Proof.
  intros Hspec Hp Hnow Ht E Ho.
  destruct (attempt_parsed spec credential leased world now result) as (payload & previous & Eparse);
    [by eapply provider_steps_are_honest, specs_provided|done..|].
  pose proof (whole_parser _ _ Hp (spec_parser _ _ Hspec)) as Hsound.
  destruct (sound_parser payload now previous _ Hnow Ht Eparse) as [Hne Hall].
  pose proof (believed_report _ _ _ Hall) as Hrows. split; [|done].
  intros En. rewrite En in Hrows. by inversion Hrows as [Em|].
Qed.
End Contract.

(** ** Outside the promise *)

(** The three other parsers can answer rows the normalizer refuses one and all;
    then the gate says so. A yearly Cursor plan over a leap year is such a
    payload, and so is a Codex answer whose one limit begins with a digit. *)
Theorem an_unbelievable_answer_is_named :
  checkProviderContract CURSOR leap_year "2028-09-04T12:00:00.000Z" =
    Some (contract_unknown CURSOR no_believable_meter) /\
  checkProviderContract CODEX
    (JObj [("rateLimits", JObj [("limitId", JStr "5pool");
       ("primary", JObj [("usedPercent", JNum (int 10)); ("windowDurationMins", JNum (int 300));
                         ("resetsAt", JNum (int 1788526800))])])]) "2026-09-04T12:00:00.000Z" =
    Some (contract_unknown CODEX no_believable_meter).
Proof. by vm_compute. Qed.

(** ** Witnesses *)

Definition kimi_gate : option ContractOutcome :=
  checkProviderContract KIMI kimi_sample "2026-09-04T12:00:00.000Z".

Definition passed (p : ProviderCode) (n : nat) (o : option ContractOutcome) : bool :=
  match o with Some (contract_ok q ms) => bool_decide (q = p) && (length ms =? n)%nat | _ => false end.

Lemma passed_true p n o :
  passed p n o = true -> exists ms, o = Some (contract_ok p ms) /\ length ms = n.
Proof.
  destruct o as [[q ms|]|]; try done. simpl. case_bool_decide as Hq; [|done]. subst q.
  intros Hl. exists ms. split; [done|by apply Nat.eqb_eq].
Qed.

Lemma the_gate_believes_what_it_passes_witness :
  exists meters, kimi_gate = Some (contract_ok KIMI meters) /\ length meters = 3%nat /\
    length (normalizeMeters meters) = length meters.
Proof.
  assert (Hok : passed KIMI 3 kimi_gate = true) by (by vm_compute).
  apply passed_true in Hok as (meters & E & Hl). exists meters. split; [exact E|]. split; [exact Hl|].
  apply (the_gate_believes_what_it_passes KIMI kimi_sample "2026-09-04T12:00:00.000Z"
    (contract_ok KIMI meters)); [by apply (bool_decide_unpack _)|by vm_compute|
    by eexists; split; [vm_compute; reflexivity|]|exact E].
Defined.

(** A world in which Kimi answers the sample. *)
Definition kimi_world : AttemptWorld AcquisitionRequest :=
  {| aw_at _ := Some (int 1788523200000); aw_owned _ := Some true;
     aw_reply _ _ := Some {| ry_status := 200; ry_body := Some kimi_sample; ry_retryAfterSeconds := None;
                             ry_outcome := None; ry_missingCredential := false |};
     aw_answeredAt _ := Some (int 1788523200000); aw_ownedAfter _ := Some true |}.

Definition kimi_attempt : option Attempt :=
  attempt (H0 := plain_crypto) (kimiSpec (of_last parseKimiPayload)) sample_credential true kimi_world
    "2026-09-04T12:00:00.000Z".

Definition read_rows (n : nat) (o : option Attempt) : bool :=
  match o with Some r => bool_decide (at_outcome r = oc_ok) && (length (at_meters r) =? n)%nat | None => false end.

Lemma read_rows_true n o :
  read_rows n o = true -> exists r, o = Some r /\ at_outcome r = oc_ok /\ length (at_meters r) = n.
Proof.
  destruct o as [r|]; [|done]. simpl. case_bool_decide as Ho; [|done].
  intros Hl. exists r. split_and!; [done..|by apply Nat.eqb_eq].
Qed.

Lemma a_successful_read_keeps_every_row_witness :
  exists result, kimi_attempt = Some result /\ length (at_meters result) = 3%nat /\
    normalizeMeters (at_meters result) <> [].
Proof.
  assert (Hok : read_rows 3 kimi_attempt = true) by (by vm_compute).
  apply read_rows_true in Hok as (result & E & Ho & Hl). exists result. split; [exact E|]. split; [exact Hl|].
  apply (a_successful_read_keeps_every_row (H1 := plain_crypto) false (kimiSpec (of_last parseKimiPayload))
    sample_credential true kimi_world "2026-09-04T12:00:00.000Z" result);
    [by do 5 right; left|by apply (bool_decide_unpack _)|by vm_compute|
     by eexists; split; [vm_compute; reflexivity|]|exact E|exact Ho].
Defined.
