(* ===== verification/Wire.v ===== *)
(** * Samples on the wire

    [packages/core/src/contracts/wire.ts]: the closed shape of a usage sample
    between devices (version 3), its validation, and its projections from a
    reading and from a received sample and back. A refusal is the field and the
    reason the source puts into its [TypeError]. *)
From S2P Require Import Prelude JsNum JsDate JsValue Text Json Types Normalizer.
Local Open Scope string_scope.
Local Open Scope Z_scope.
Local Open Scope list_scope.
Local Open Scope js_scope.

Definition WIRE_SCHEMA_VERSION_V3 : Z := 3.

(** Every key of a sample and its local name. *)
Definition LOCAL_KEYS : list (string * string) :=
  [("account_id", "accountId"); ("provider", "provider"); ("window_id", "windowId");
   ("observed_at", "observedAt"); ("stale", "stale"); ("meter", "meter"); ("code", "code");
   ("usage_percent", "usagePercent"); ("percent", "percent"); ("reset_at", "resetAt");
   ("resets_at", "resetsAt"); ("amount", "amount"); ("currency", "currency");
   ("source_period", "sourcePeriod"); ("source", "source"); ("precision", "precision");
   ("verification", "verification"); ("verification_evidence", "verificationEvidence");
   ("kind", "kind"); ("availability", "availability"); ("retry_at", "retryAt")].

Definition wire_keys : list string := LOCAL_KEYS.*1.

Definition SOURCES : list string :=
  ["native_payload"; "documented_api"; "internal_payload"; "authenticated_page"; "manual_entry"].
Definition PRECISIONS : list string := ["exact"; "estimated"; "manual"].
Definition CURRENCIES : list string := ["USD"; "CNY"].
Definition WIRE_AVAILABILITIES : list string :=
  ["network_failure"; "missing_credentials"; "expired_credentials"; "access_denied"; "missing_subscription";
   "unlimited"; "quota_unavailable"; "rate_limited"; "schema_drift"].
Definition WIRE_VERIFICATIONS : list string := map name_of (all_of (A:=Verification)).
Definition WIRE_KINDS : list string := map name_of (all_of (A:=SnapshotKind)).

(** ** Refusals *)

Record Refusal := { re_field : string; re_reason : string }.

Definition Complaint : Type := option Refusal.

Definition fail (field reason : string) : Complaint := Some {| re_field := field; re_reason := reason |}.

Definition fail_unless (b : bool) (field reason : string) : Complaint := if b then None else fail field reason.

(** The checks run in order and the first complaint is the one thrown. *)
Fixpoint first_complaint (checks : list Complaint) : Complaint :=
  match checks with
  | [] => None
  | Some refusal :: _ => Some refusal
  | None :: checks => first_complaint checks
  end.

(** ** The checks *)

Section Wire.
Context `{DateHost}.

(** Every key is known and has a value. *)
Definition closed (row : list (string * jsval)) (keys : list string) (field : string) : Complaint :=
  first_complaint (map (fun kv : string * jsval =>
    first_complaint
      [fail_unless (bool_decide (kv.1 ∈ keys)) (field +:+ "." +:+ kv.1) "is an unknown key";
       fail_unless (negb (is_undef (get row kv.1))) (field +:+ "." +:+ kv.1) "must not be undefined; omit it instead"])
    row).

Definition instant (v : jsval) (field : string) : Complaint :=
  fail_unless (isIsoInstant v) field "must be a canonical ISO instant".

Definition in_bounds (v : jsval) (max : Z) (exclusive : bool) : bool :=
  match v with
  | JNum n => is_finite n && negb (n <# int 0) && negb (if exclusive then int max <=# n else int max <# n)
  | _ => false
  end.

Definition numeric (v : jsval) (field : string) (max : Z) (exclusive : bool) : Complaint :=
  fail_unless (in_bounds v max exclusive) field
    ("must be a finite number from 0 to " +:+ decimal max +:+ (if exclusive then " (exclusive)" else "")).

Definition is_member (v : jsval) (values : list string) : bool :=
  match v with JStr s => bool_decide (s ∈ values) | _ => false end.

Definition member (v : jsval) (values : list string) (field : string) : Complaint :=
  fail_unless (is_member v values) field ("must be one of " +:+ join ", " values).

(** [value != null] *)
Definition present (v : jsval) : bool := match v with JUndef => false | JNull => false | _ => true end.

Definition nonempty_string (v : jsval) : bool :=
  match v with JStr s => negb (str_eqb s "") | _ => false end.

(** [===]; two objects are never one. *)
Definition strictly_equal (a b : jsval) : bool :=
  match a, b with
  | JUndef, JUndef => true
  | JNull, JNull => true
  | JBool a, JBool b => Bool.eqb a b
  | JNum a, JNum b => a ==# b
  | JStr a, JStr b => str_eqb a b
  | _, _ => false
  end.

Definition is_number (v : jsval) : bool := match v with JNum _ => true | _ => false end.
Definition is_text (v : jsval) : bool := match v with JStr _ => true | _ => false end.

Definition when (b : bool) (c : Complaint) : Complaint := if b then c else None.

(** A key the source guards with [!== undefined]. *)
Definition if_defined (v : jsval) (c : Complaint) : Complaint := when (negb (is_undef v)) c.

Definition aliases (row : list (string * jsval)) (left right : string) : Complaint :=
  when (negb (is_undef (get row left)) && negb (is_undef (get row right)))
    (fail_unless (strictly_equal (get row left) (get row right)) (left +:+ "/" +:+ right) "aliases must agree").

Definition period (v : jsval) : Complaint :=
  match v with
  | JArr [from; until] =>
      first_complaint
        [instant from "source_period[0]"; instant until "source_period[1]";
         fail_unless
           (match from, until with
            | JStr from, JStr until => negb (date_parse until <t date_parse from)
            | _, _ => true
            end) "source_period" "must be ordered"]
  | _ => fail "source_period" "must contain two ISO instants"
  end.

Definition evidence_keys : list string := ["provider_version"; "account_shape"; "os"; "date"].

Definition evidence (v : jsval) : Complaint :=
  match v with
  | JObj fields =>
      first_complaint
        ([closed fields evidence_keys "verification_evidence"] ++
         map (fun key => fail_unless (is_text (get fields key)) ("verification_evidence." +:+ key) "must be a string")
           ["provider_version"; "account_shape"; "os"] ++
         [instant (get fields "date") "verification_evidence.date"])
  | _ => fail "verification_evidence" "must be an object"
  end.

Definition account_alias (v : jsval) : bool := match v with JStr s => account_id_pattern s | _ => false end.

Definition is_boolean (v : jsval) : bool := match v with JBool _ => true | _ => false end.

Definition codex_credits (row : list (string * jsval)) : bool :=
  is_string (get row "provider") "CODEX" && is_string (get row "window_id") "CREDITS".

Definition one_sided (row : list (string * jsval)) : bool :=
  (present (get row "currency") && negb (present (get row "amount"))) ||
  (present (get row "amount") && negb (present (get row "currency")) && negb (codex_credits row)).

(** The checks of [validateSample] on an object, in order. *)
Definition sample_checks (row : list (string * jsval)) : list Complaint :=
  [closed row wire_keys "sample"] ++
  map (fun key => fail_unless (nonempty_string (get row key)) key "must be a nonempty string")
    ["account_id"; "provider"; "window_id"] ++
  [fail_unless (account_alias (get row "account_id")) "account_id" "must be a valid account alias";
   instant (get row "observed_at") "observed_at";
   fail_unless (is_boolean (get row "stale")) "stale" "must be a boolean"] ++
  map (fun key => if_defined (get row key) (fail_unless (nonempty_string (get row key)) key "must be a nonempty string"))
    ["meter"; "code"] ++
  [fail_unless (negb (is_undef (get row "meter") && is_undef (get row "code"))) "meter/code" "requires a meter identifier";
   aliases row "meter" "code"; aliases row "usage_percent" "percent"; aliases row "reset_at" "resets_at"] ++
  map (fun key => when (present (get row key)) (instant (get row key) key)) ["reset_at"; "resets_at"] ++
  map (fun key => when (present (get row key)) (numeric (get row key) key 100000 false)) ["usage_percent"; "percent"] ++
  [when (present (get row "amount")) (numeric (get row "amount") "amount" 100000000000000 true);
   when (present (get row "currency")) (member (get row "currency") CURRENCIES "currency");
   fail_unless (negb (one_sided row)) "amount/currency" "must be supplied together except for Codex credits";
   if_defined (get row "source_period") (period (get row "source_period"))] ++
  map (fun entry : string * list string => if_defined (get row entry.1) (member (get row entry.1) entry.2 entry.1))
    [("source", SOURCES); ("precision", PRECISIONS); ("verification", WIRE_VERIFICATIONS); ("kind", WIRE_KINDS);
     ("availability", WIRE_AVAILABILITIES)] ++
  [if_defined (get row "verification_evidence")
     (first_complaint
        [fail_unless (is_string (get row "verification") "VERIFIED_LIVE") "verification_evidence" "requires VERIFIED_LIVE";
         evidence (get row "verification_evidence")]);
   fail_unless (negb (negb (is_undef (get row "availability")) &&
                      (is_number (get row "usage_percent") || is_number (get row "percent"))))
     "availability" "cannot accompany a numeric percent";
   fail_unless (negb (is_undef (get row "availability") && negb (present (get row "usage_percent")) &&
                      negb (present (get row "percent")) && negb (present (get row "amount"))))
     "sample" "requires a numeric percent, an amount, or availability";
   if_defined (get row "retry_at")
     (first_complaint
        [fail_unless (is_string (get row "availability") "rate_limited") "retry_at" "requires rate_limited availability";
         instant (get row "retry_at") "retry_at"])].

(** The sample itself, or what is wrong with it. *)
Definition validateSample (v : jsval) : Refusal + list (string * jsval) :=
  match v with
  | JObj row => match first_complaint (sample_checks row) with Some refusal => inl refusal | None => inr row end
  | _ => inl {| re_field := "sample"; re_reason := "must be an object" |}
  end.

(** ** The projections *)

Definition local_key (key : string) : string := default key (assoc_get key LOCAL_KEYS).

Definition rename_evidence (from to : list string) (fields : list (string * jsval)) : jsval :=
  JObj (zip_with (fun source target => (target, get fields source)) from to).

Definition local_evidence_keys : list string := ["providerVersion"; "accountShape"; "os"; "date"].

(** The evidence of a sample, under its other names. *)
Definition set_evidence (key : string) (from to : list string) (source : jsval) (target : list (string * jsval)) :
    list (string * jsval) :=
  match source with
  | JObj fields => assoc_set key (rename_evidence from to fields) target
  | _ => target
  end.

Definition readWireSample (v : jsval) : Refusal + list (string * jsval) :=
  match validateSample v with
  | inl refusal => inl refusal
  | inr wire =>
      let local := map (fun kv : string * jsval => (local_key kv.1, kv.2)) wire in
      inr (set_evidence "verificationEvidence" evidence_keys local_evidence_keys (get wire "verification_evidence") local)
  end.

(** The keys of a sample received, in the table's order. *)
Definition listed (local : list (string * jsval)) : list (string * jsval) :=
  omap (fun key : string * string => if is_undef (get local key.2) then None else Some (key.1, get local key.2)) LOCAL_KEYS.

(** [toWireSampleV3] of a sample received. *)
Definition toWireSampleV3_local (local : list (string * jsval)) : Refusal + list (string * jsval) :=
  validateSample (JObj (set_evidence "verification_evidence" local_evidence_keys evidence_keys
    (get local "verificationEvidence") (listed local))).

Definition codexCredits (s : Snapshot) : bool :=
  bool_decide (s_provider s = CODEX) && str_eqb (s_meter s) "CREDITS" && bool_decide (s_unit s = CREDITS).

Definition set_if (b : bool) (key : string) (v : jsval) (wire : list (string * jsval)) : list (string * jsval) :=
  if b then assoc_set key v wire else wire.

Definition set_some {A} (key : string) (f : A -> jsval) (o : option A) (wire : list (string * jsval)) :
    list (string * jsval) :=
  match o with Some a => assoc_set key (f a) wire | None => wire end.

(** [!== undefined] *)
Definition defined {A} (o : option A) : bool := match o with Some _ => true | None => false end.

Definition is_available (s : Snapshot) : bool := negb (defined (s_availability s)).

Definition wire_of_evidence (e : VerificationEvidence) : jsval :=
  JObj [("provider_version", JStr (ev_providerVersion e)); ("account_shape", JStr (ev_accountShape e));
        ("os", JStr (ev_os e)); ("date", JStr (ev_date e))].

(** The object of a reading, before it is validated. *)
Definition wire_fields (s : Snapshot) (now : string) : list (string * jsval) :=
  let wire :=
    [("account_id", JStr (default "default" (s_accountId s))); ("provider", name (s_provider s));
     ("meter", JStr (s_meter s)); ("window_id", JStr (s_meter s)); ("observed_at", JStr (s_observedAt s));
     ("reset_at", match s_resetAt s with Some r => JStr r | None => JNull end);
     ("stale", JBool (date_parse (s_expiresAt s) <=t date_parse now));
     ("source", name (s_source s)); ("precision", name (s_precision s));
     ("verification", name (lb_verification (s_labels s)))] in
  let wire := set_if (is_available s && bool_decide (s_unit s = PERCENT)) "usage_percent" (JNum (s_value s)) wire in
  let wire := set_if (codexCredits s && is_available s) "amount" (JNum (s_value s)) wire in
  let wire := set_some "amount" JNum (s_usedAmount s) wire in
  let wire := set_some "currency" name (s_currency s) wire in
  let wire := set_some "kind" name (s_kind s) wire in
  let wire := set_some "availability" name (s_availability s) wire in
  let wire := set_some "retry_at" JStr (s_retryAt s) wire in
  set_some "verification_evidence" wire_of_evidence (lb_verificationEvidence (s_labels s)) wire.

(** [toWireSampleV3] of a reading. *)
Definition toWireSampleV3 (s : Snapshot) (now : string) : Refusal + list (string * jsval) :=
  match first_complaint
    [instant (JStr (s_expiresAt s)) "expiresAt"; instant (JStr now) "now";
     fail_unless (negb (negb (bool_decide (s_unit s = PERCENT)) && is_available s &&
                        negb (defined (s_usedAmount s)) && negb (codexCredits s)))
       "unit" "has no v2 usage representation; use an explicit amount projection"]
  with
  | Some refusal => inl refusal
  | None => validateSample (JObj (wire_fields s now))
  end.

(** Version 3 when the server takes it. *)
Definition chooseWireVersion (serverAccepted : list Z) : Z :=
  if bool_decide (WIRE_SCHEMA_VERSION_V3 ∈ serverAccepted) then WIRE_SCHEMA_VERSION_V3 else 2.

End Wire.

(** ** What the checks amount to *)

Lemma first_complaint_None checks : first_complaint checks = None <-> Forall (fun c => c = None) checks.
Proof.
  induction checks as [|[refusal|] checks IH]; simpl; [done|split; [done|by intros [? _]%Forall_cons]|].
  rewrite IH, Forall_cons. naive_solver.
Qed.

Lemma fail_unless_None b field reason : fail_unless b field reason = None <-> b = true.
Proof. by destruct b. Qed.

Lemma when_None b c : when b c = None <-> (b = true -> c = None).
Proof. destruct b; naive_solver. Qed.

Lemma get_in k fs : k ∈ fs.*1 -> (k, get fs k) ∈ fs.
Proof.
  induction fs as [|[k' v] fs IH]; csimpl; [by intros []%elem_of_nil|]. intros [->|Hk]%elem_of_cons.
  - rewrite get_cons_eq. by left.
  - destruct (decide (k = k')) as [->|Hne]; [rewrite get_cons_eq; by left|].
    rewrite get_cons_ne by done. right. by apply IH.
Qed.

(** Only known keys, each with a value. *)
Definition known (keys : list string) (kv : string * jsval) : Prop := kv.1 ∈ keys /\ is_undef kv.2 = false.

Lemma closed_known row keys field : Forall (known keys) row -> closed row keys field = None.
Proof.
  intros Hrow. apply first_complaint_None, Forall_fmap, Forall_forall. intros kv Hin. unfold compose.
  rewrite Forall_forall in Hrow. apply first_complaint_None. repeat constructor; apply fail_unless_None.
  - apply bool_decide_eq_true. by apply Hrow.
  - apply negb_true_iff. apply (Hrow (kv.1, get row kv.1)), get_in. by apply list_elem_of_fmap_2.
Qed.

Lemma closed_inv row keys field :
  closed row keys field = None -> forall kv, kv ∈ row -> kv.1 ∈ keys /\ is_undef (get row kv.1) = false.
Proof.
  intros Hc%first_complaint_None kv Hin. rewrite Forall_fmap, Forall_forall in Hc.
  specialize (Hc kv Hin). apply first_complaint_None in Hc.
  apply Forall_cons in Hc as [H1%fail_unless_None [H2%fail_unless_None _]%Forall_cons].
  apply bool_decide_eq_true in H1. by apply negb_true_iff in H2.
Qed.

Lemma known_set keys k v fs :
  k ∈ keys -> is_undef v = false -> Forall (known keys) fs -> Forall (known keys) (assoc_set k v fs).
Proof.
  intros Hk Hv. induction 1 as [|[k' v'] fs Hkv Hfs IH]; simpl; [by repeat constructor|].
  case_decide; by constructor.
Qed.

(** ** A reading on the wire *)

Section Reading.
Context `{DateHost}.

Definition sendable (s : Snapshot) : bool :=
  bool_decide (s_unit s = PERCENT) || defined (s_availability s) ||
  defined (s_usedAmount s) || codexCredits s.

(** What a reading says on the wire, key by key. *)
Definition sent_percent (s : Snapshot) : jsval :=
  if is_available s && bool_decide (s_unit s = PERCENT) then JNum (s_value s) else JUndef.

Definition sent_amount (s : Snapshot) : jsval :=
  match s_usedAmount s with
  | Some used => JNum used
  | None => if codexCredits s && is_available s then JNum (s_value s) else JUndef
  end.

Lemma get_set_if_eq b k v fs : get (set_if b k v fs) k = if b then v else get fs k.
Proof. unfold set_if. destruct b; [|done]. rewrite get_set. by case_decide. Qed.

Lemma get_set_if_ne b k k' v fs : k <> k' -> get (set_if b k' v fs) k = get fs k.
Proof. intros Hk. unfold set_if. destruct b; [|done]. rewrite get_set. by case_decide. Qed.

Lemma get_set_some_eq {A} k (f : A -> jsval) o fs :
  get (set_some k f o fs) k = match o with Some a => f a | None => get fs k end.
Proof. destruct o; [|done]. simpl. rewrite get_set. by case_decide. Qed.

Lemma get_set_some_ne {A} k k' (f : A -> jsval) o fs : k <> k' -> get (set_some k' f o fs) k = get fs k.
Proof. intros Hk. destruct o; [|done]. simpl. rewrite get_set. by case_decide. Qed.

Record sent (s : Snapshot) (now : string) (w : list (string * jsval)) : Prop := {
  se_known : Forall (known wire_keys) w;
  se_account : get w "account_id" = JStr (default "default" (s_accountId s));
  se_provider : get w "provider" = name (s_provider s);
  se_meter : get w "meter" = JStr (s_meter s);
  se_code : get w "code" = JUndef;
  se_window : get w "window_id" = JStr (s_meter s);
  se_observed : get w "observed_at" = JStr (s_observedAt s);
  se_reset : get w "reset_at" = match s_resetAt s with Some r => JStr r | None => JNull end;
  se_resets : get w "resets_at" = JUndef;
  se_stale : get w "stale" = JBool (date_parse (s_expiresAt s) <=t date_parse now);
  se_usage : get w "usage_percent" = sent_percent s;
  se_percent : get w "percent" = JUndef;
  se_amount : get w "amount" = sent_amount s;
  se_currency : get w "currency" = opt_val name (s_currency s);
  se_period : get w "source_period" = JUndef;
  se_source : get w "source" = name (s_source s);
  se_precision : get w "precision" = name (s_precision s);
  se_verification : get w "verification" = name (lb_verification (s_labels s));
  se_evidence : get w "verification_evidence" = opt_val wire_of_evidence (lb_verificationEvidence (s_labels s));
  se_kind : get w "kind" = opt_val name (s_kind s);
  se_availability : get w "availability" = opt_val name (s_availability s);
  se_retry : get w "retry_at" = opt_val JStr (s_retryAt s) }.

Lemma known_set_some {A} keys k (f : A -> jsval) o fs :
  k ∈ keys -> (forall a, is_undef (f a) = false) -> Forall (known keys) fs -> Forall (known keys) (set_some k f o fs).
Proof. intros. destruct o; [|done]. by apply known_set. Qed.

Lemma known_set_if keys b k v fs :
  k ∈ keys -> is_undef v = false -> Forall (known keys) fs -> Forall (known keys) (set_if b k v fs).
Proof. intros. destruct b; [|done]. by apply known_set. Qed.

Ltac in_keys := apply (bool_decide_unpack _); vm_compute; exact I.

(** Compute [get] through the fields set one after another. *)
Ltac solve_set :=
  repeat first
    [ rewrite get_set_some_eq | rewrite get_set_some_ne by discriminate
    | rewrite get_set_if_eq | rewrite get_set_if_ne by discriminate ]; solve_get.

Lemma wire_fields_sent s now : sent s now (wire_fields s now).
Proof.
  split; try (unfold wire_fields; cbv zeta; solve_set; fail).
  - unfold wire_fields. cbv zeta.
    repeat first [apply known_set_some; [in_keys|done|] | apply known_set_if; [in_keys|done|]].
    repeat (constructor; [split; [in_keys|try done]|]); [by destruct (s_resetAt s)|constructor].
Qed.

(** A believed number is within the wire's bounds. *)
Lemma bounded_in_bounds hi max exclusive n :
  bounded hi n -> 0 <= hi -> (if exclusive : bool then hi < max else hi <= max) -> in_bounds (JNum n) max exclusive = true.
Proof.
  intros (z & -> & Hz) Hhi Hmax. unfold in_bounds, int. cbn [is_finite]. pose proof one_pos.
  rewrite (nlt_Fin z (0 * one)), (proj2 (Z.ltb_ge z (0 * one))) by lia. cbn [negb andb].
  destruct exclusive.
  - rewrite nle_Fin, (proj2 (Z.leb_gt _ _)) by nia. done.
  - rewrite nlt_Fin, (proj2 (Z.ltb_ge _ _)) by nia. done.
Qed.

Lemma safeMeter_nonempty m : safeMeter m = true -> nonempty_string (JStr m) = true.
Proof. by destruct m. Qed.

Lemma alias_nonempty a : account_id_pattern a = true -> nonempty_string (JStr a) = true.
Proof. by destruct a. Qed.

Lemma is_member_name {A} `{Closed A} (a : A) (values : list string) :
  bool_decide (Forall (fun s => s ∈ values) (map name_of (all_of (A:=A)))) = true -> ClosedLaws A ->
  is_member (name a) values = true.
Proof.
  intros Hall%bool_decide_eq_true Hl. unfold is_member, name. apply bool_decide_eq_true.
  rewrite Forall_fmap, Forall_forall in Hall. apply (Hall a), all_complete.
Qed.

Lemma wire_of_evidence_ok e : evidence_ok e -> evidence (wire_of_evidence e) = None.
Proof.
  intros (_ & _ & _ & Hd). unfold evidence, wire_of_evidence. apply first_complaint_None. cbn [map app].
  constructor; [|repeat constructor].
  - apply closed_known. repeat (constructor; [split; [apply (bool_decide_unpack _); vm_compute; exact I|done]|]). constructor.
  - unfold instant. solve_get. apply fail_unless_None. exact Hd.
Qed.

(** The amounts of a sample agree with each other. *)
Lemma sent_two_sided s now w : well_formed s -> sent s now w -> one_sided w = false.
Proof.
  intros Hwf Hs. unfold one_sided, codex_credits. destruct Hs. rewrite se_amount0, se_currency0, se_provider0, se_window0.
  pose proof (wf_amounts s Hwf) as Ha. unfold amounts_ok in Ha. unfold sent_amount.
  destruct (s_usedAmount s), (s_limitAmount s), (s_currency s); try done. cbn [opt_val present].
  destruct (codexCredits s && is_available s) eqn:E; [|done]. cbn [present andb negb orb].
  apply andb_true_iff in E as [[[Hp Hm]%andb_true_iff _]%andb_true_iff _].
  apply bool_decide_eq_true in Hp. apply str_eqb_eq in Hm. by rewrite Hp, Hm.
Qed.

Lemma member_ok {A} `{ClosedLaws A} (o : option A) values field :
  bool_decide (Forall (fun s => s ∈ values) (map name_of (all_of (A:=A)))) = true ->
  if_defined (opt_val name o) (member (opt_val name o) values field) = None.
Proof.
  intros Hall. destruct o as [a|]; [|done]. apply when_None. intros _.
  apply fail_unless_None. by apply is_member_name.
Qed.

Lemma when_member_ok {A} `{ClosedLaws A} (o : option A) values field :
  bool_decide (Forall (fun s => s ∈ values) (map name_of (all_of (A:=A)))) = true ->
  when (present (opt_val name o)) (member (opt_val name o) values field) = None.
Proof. intros Hall. pose proof (member_ok o values field Hall) as E. by destruct o. Qed.

Lemma evidence_sent l :
  labels_ok l ->
  if_defined (opt_val wire_of_evidence (lb_verificationEvidence l))
    (first_complaint
       [fail_unless (is_string (name (lb_verification l)) "VERIFIED_LIVE") "verification_evidence" "requires VERIFIED_LIVE";
        evidence (opt_val wire_of_evidence (lb_verificationEvidence l))]) = None.
Proof.
  unfold labels_ok. destruct (lb_verificationEvidence l) as [e|]; [|done]. intros [-> He].
  apply when_None. intros _. apply first_complaint_None. repeat constructor. by apply wire_of_evidence_ok.
Qed.

Lemma retry_sent s :
  from_option (fun r => s_availability s = Some rate_limited /\ iso r) True (s_retryAt s) ->
  if_defined (opt_val JStr (s_retryAt s))
    (first_complaint
       [fail_unless (is_string (opt_val name (s_availability s)) "rate_limited") "retry_at" "requires rate_limited availability";
        instant (opt_val JStr (s_retryAt s)) "retry_at"]) = None.
Proof.
  destruct (s_retryAt s) as [r|]; [|done]. intros [-> Hr]. apply when_None. intros _. apply first_complaint_None.
  repeat constructor. by apply fail_unless_None.
Qed.

Lemma aliases_ok row left right : get row right = JUndef -> aliases row left right = None.
Proof. intros E. unfold aliases. by rewrite E, andb_false_r. Qed.

Lemma sent_percent_bounds s : well_formed s -> present (sent_percent s) = true -> in_bounds (sent_percent s) 100000 false = true.
Proof.
  intros Hwf. pose proof (wf_value s Hwf) as Hv. unfold sent_percent.
  destruct (is_available s && bool_decide (s_unit s = PERCENT)) eqn:E; [|done]. intros _.
  apply andb_true_iff in E as [_ E%bool_decide_eq_true]. rewrite decide_True in Hv by done.
  by apply (bounded_in_bounds 100).
Qed.

Lemma sent_amount_bounds s :
  well_formed s -> present (sent_amount s) = true -> in_bounds (sent_amount s) 100000000000000 true = true.
Proof.
  intros Hwf. pose proof (wf_value s Hwf) as Hv. pose proof (wf_amounts s Hwf) as Ha. unfold amounts_ok in Ha.
  unfold sent_amount. destruct (s_usedAmount s) as [used|].
  - intros _. destruct (s_limitAmount s), (s_currency s); try done. by apply (bounded_in_bounds 1000000); [apply Ha|..].
  - destruct (codexCredits s && is_available s); [|done]. intros _.
    by destruct (decide (s_unit s = PERCENT)); eapply bounded_in_bounds.
Qed.

(** A sample without availability has something to show. *)
Lemma sent_something s :
  sendable s = true -> s_availability s = None -> present (sent_percent s) || present (sent_amount s) = true.
Proof.
  unfold sendable, sent_percent, sent_amount, is_available. intros Hr E. rewrite E in *.
  destruct (s_usedAmount s); [by rewrite orb_true_r|].
  by destruct (bool_decide (s_unit s = PERCENT)), (codexCredits s).
Qed.

Lemma sent_valid s now w :
  well_formed s -> sendable s = true -> sent s now w -> validateSample (JObj w) = inr w.
Proof.
  intros Hwf Hr Hs. pose proof (sent_two_sided s now w Hwf Hs) as Htwo. unfold validateSample.
  enough (E : first_complaint (sample_checks w) = None) by (by rewrite E).
  apply first_complaint_None. unfold sample_checks. cbn [map app fst snd]. rewrite Htwo.
  pose proof (sent_percent_bounds s Hwf) as Hp. pose proof (sent_amount_bounds s Hwf) as Ha.
  pose proof (sent_something s Hr) as Hsome. destruct Hs, Hwf.
  rewrite se_account0, se_provider0, se_meter0, se_code0, se_window0, se_observed0, se_reset0, se_resets0, se_stale0,
    se_usage0, se_percent0, se_amount0, se_currency0, se_period0, se_source0, se_precision0, se_verification0,
    se_evidence0, se_kind0, se_availability0, se_retry0.
  assert (Halias : account_id_pattern (default "default" (s_accountId s)) = true) by (by destruct (s_accountId s)).
  repeat (apply Forall_cons_2; [first
    [ done | by apply closed_known | by apply fail_unless_None, alias_nonempty | by apply fail_unless_None, safeMeter_nonempty
    | by apply aliases_ok | by apply when_None; intros; apply fail_unless_None; auto
    | by apply member_ok | by apply when_member_ok | by apply evidence_sent | by apply retry_sent | idtac ]|]);
    [by destruct (s_provider s)|by apply fail_unless_None|by apply fail_unless_None| | | | | | |constructor].
  - destruct (s_resetAt s); [|done]. apply when_None. intros _. by apply fail_unless_None.
  - apply (member_ok (Some (s_source s))). by vm_compute.
  - apply (member_ok (Some (s_precision s))). by vm_compute.
  - apply (member_ok (Some (lb_verification (s_labels s)))). by vm_compute.
  - apply fail_unless_None. unfold sent_percent, is_available. by destruct (s_availability s).
  - apply fail_unless_None. destruct (s_availability s); [done|]. specialize (Hsome eq_refl).
    cbn [opt_val is_undef negb andb present]. by destruct (present (sent_percent s)), (present (sent_amount s)).
Qed.

(** ** A sample received *)

Lemma get_rename (f : string -> string) row k :
  (forall k', k' ∈ row.*1 -> f k' = f k -> k' = k) ->
  get (map (fun kv : string * jsval => (f kv.1, kv.2)) row) (f k) = get row k.
Proof.
  induction row as [|[k' v] row IH]; intros Hf; [done|]. cbn [map fst snd]. destruct (decide (k' = k)) as [->|Hne].
  - by rewrite !get_cons_eq.
  - rewrite !get_cons_ne; [apply IH; intros; apply Hf; [by right|done]|done|].
    intros E. apply Hne, Hf; [by left|done].
Qed.

Lemma local_key_inj k k' : k ∈ wire_keys -> k' ∈ wire_keys -> local_key k = local_key k' -> k = k'.
Proof.
  intros Hk Hk' E.
  assert (Hall : Forall (fun a => Forall (fun b => local_key a = local_key b -> a = b) wire_keys) wire_keys)
    by (apply (bool_decide_unpack _); vm_compute; exact I).
  rewrite Forall_forall in Hall. specialize (Hall k Hk). rewrite Forall_forall in Hall. by apply Hall.
Qed.

Lemma validateSample_inv v row :
  validateSample v = inr row -> v = JObj row /\ Forall (fun c => c = None) (sample_checks row).
Proof.
  unfold validateSample. destruct v as [| | | | | |fields]; try done.
  destruct (first_complaint (sample_checks fields)) eqn:E; [done|]. intros [= ->].
  by apply first_complaint_None in E.
Qed.

Lemma sample_known row : Forall (fun c => c = None) (sample_checks row) -> forall k, k ∈ row.*1 -> k ∈ wire_keys /\ is_undef (get row k) = false.
Proof.
  intros [Hc _]%Forall_cons k Hk. apply list_elem_of_fmap in Hk as (kv & -> & Hkv). by apply (closed_inv _ _ _ Hc).
Qed.

(** What a received sample says, key by key. *)
Lemma local_gets v row local k :
  validateSample v = inr row -> readWireSample v = inr local -> k ∈ wire_keys -> k <> "verification_evidence" ->
  get local (local_key k) = get row k.
Proof.
  intros Hv Hl Hk Hne. unfold readWireSample in Hl. rewrite Hv in Hl. injection Hl as <-.
  apply validateSample_inv in Hv as [-> Hchecks]. pose proof (sample_known _ Hchecks) as Hknown.
  assert (Hget : get (map (fun kv : string * jsval => (local_key kv.1, kv.2)) row) (local_key k) = get row k).
  { apply get_rename. intros k' Hk' E. apply local_key_inj; [by apply Hknown|done|done]. }
  rewrite <- Hget. unfold set_evidence. destruct (get row "verification_evidence"); try done.
  rewrite get_set, decide_False; [done|]. change "verificationEvidence" with (local_key "verification_evidence").
  intros E. by apply local_key_inj in E; [|done|apply (bool_decide_unpack _); vm_compute; exact I].
Qed.

(** The evidence of a sample that passed is an object of exactly its four keys. *)
Lemma sample_evidence row :
  Forall (fun c => c = None) (sample_checks row) ->
  get row "verification_evidence" = JUndef \/
  exists fields, get row "verification_evidence" = JObj fields /\
    (forall k, k ∈ fields.*1 -> k ∈ evidence_keys) /\ (forall k, k ∈ evidence_keys -> is_undef (get fields k) = false).
Proof.
  intros Hchecks. rewrite Forall_forall in Hchecks.
  assert (Hc : if_defined (get row "verification_evidence")
     (first_complaint
        [fail_unless (is_string (get row "verification") "VERIFIED_LIVE") "verification_evidence" "requires VERIFIED_LIVE";
         evidence (get row "verification_evidence")]) = None)
    by (apply Hchecks; unfold sample_checks; do 9 (apply elem_of_app; right); by left).
  destruct (get row "verification_evidence") as [| | | | | |fields]; [by left|..]; right; unfold if_defined in Hc;
    rewrite when_None in Hc; specialize (Hc eq_refl);
    apply first_complaint_None, Forall_cons in Hc as [_ [He _]%Forall_cons]; try done.
  exists fields. split; [done|]. unfold evidence in He. apply first_complaint_None in He.
  apply Forall_app in He as [[Hclosed _]%Forall_cons He]. cbn [map app] in He.
  apply Forall_cons in He as [Hv He]. apply Forall_cons in He as [Hs He].
  apply Forall_cons in He as [Ho He]. apply Forall_cons in He as [Hd _].
  apply fail_unless_None in Hv, Hs, Ho, Hd. split.
  - intros k Hk. apply list_elem_of_fmap in Hk as (kv & -> & Hkv). by apply (closed_inv _ _ _ Hclosed).
  - intros k Hk. unfold evidence_keys in Hk. rewrite !elem_of_cons in Hk.
    destruct Hk as [->|[->|[->|[->|[]%elem_of_nil]]]];
      match goal with |- is_undef ?v = false => by destruct v end.
Qed.

Lemma local_evidence v row local :
  validateSample v = inr row -> readWireSample v = inr local ->
  get local "verificationEvidence" =
  match get row "verification_evidence" with
  | JObj fields => rename_evidence evidence_keys local_evidence_keys fields
  | _ => JUndef
  end.
Proof.
  intros Hv Hl. unfold readWireSample in Hl. rewrite Hv in Hl. injection Hl as <-.
  apply validateSample_inv in Hv as [-> Hchecks]. pose proof (sample_known _ Hchecks) as Hknown.
  destruct (sample_evidence row Hchecks) as [E|(fields & E & _)]; rewrite E; unfold set_evidence.
  - change "verificationEvidence" with (local_key "verification_evidence"). rewrite get_rename, E; [done|].
    intros k' Hk' Ek. apply local_key_inj in Ek; [done|by apply Hknown|]. apply (bool_decide_unpack _). vm_compute. exact I.
  - rewrite get_set. by case_decide.
Qed.

Lemma get_omap_keys (g : string -> jsval) keys k :
  NoDup keys.*1 ->
  get (omap (fun key : string * string => if is_undef (g key.2) then None else Some (key.1, g key.2)) keys) k =
  match assoc_get k keys with Some source => g source | None => JUndef end.
Proof.
  induction keys as [|[target source] keys IH]; csimpl; [done|]. intros [Hn Hk]%NoDup_cons.
  destruct (is_undef (g source)) eqn:E.
  - rewrite IH by done. case_decide as Ek; [|done]. subst. apply assoc_get_None in Hn. rewrite Hn.
    by destruct (g source).
  - case_decide as Ek; [subst; by rewrite get_cons_eq|]. rewrite get_cons_ne by done. by apply IH.
Qed.

Lemma wire_keys_distinct : NoDup LOCAL_KEYS.*1.
Proof. apply (bool_decide_unpack _). vm_compute. exact I. Qed.

Lemma get_listed local k : k ∈ wire_keys -> get (listed local) k = get local (local_key k).
Proof.
  intros Hk. unfold listed. rewrite get_omap_keys by apply wire_keys_distinct. unfold local_key.
  destruct (assoc_get k LOCAL_KEYS) eqn:E; [done|]. by apply assoc_get_None in E.
Qed.

Lemma listed_known local : Forall (known wire_keys) (listed local) /\ NoDup (listed local).*1.
Proof.
  assert (Hgen : forall keys, NoDup keys.*1 ->
    let l := omap (fun key : string * string => if is_undef (get local key.2) then None else Some (key.1, get local key.2)) keys in
    Forall (fun kv => kv.1 ∈ keys.*1 /\ is_undef kv.2 = false) l /\ NoDup l.*1); [|apply Hgen, wire_keys_distinct].
  induction keys as [|[target source] keys IH]; csimpl; [repeat constructor|]. intros [Hn Hk]%NoDup_cons.
  destruct (IH Hk) as [Hf Hd].
  assert (Hf' : Forall (fun kv => kv.1 ∈ target :: keys.*1 /\ is_undef kv.2 = false)
     (omap (fun key : string * string => if is_undef (get local key.2) then None else Some (key.1, get local key.2)) keys)).
  { eapply Forall_impl; [exact Hf|]. intros kv [Hin Hu]. split; [by right|done]. }
  destruct (is_undef (get local source)) eqn:E; [done|]. csimpl. split.
  - constructor; [split; [by left|done]|done].
  - apply NoDup_cons. split; [|done]. intros Hin. apply list_elem_of_fmap in Hin as (kv & -> & Hkv).
    rewrite Forall_forall in Hf. by apply Hn, (Hf kv).
Qed.

(** The checks see only what the keys say. *)
Lemma checks_transfer row wire :
  Forall (fun c => c = None) (sample_checks row) -> Forall (known wire_keys) wire ->
  (forall k, bool_decide (k ∈ wire_keys) && negb (str_eqb k "verification_evidence") = true -> get wire k = get row k) ->
  (evidence (get row "verification_evidence") = None -> evidence (get wire "verification_evidence") = None) ->
  is_undef (get wire "verification_evidence") = is_undef (get row "verification_evidence") ->
  Forall (fun c => c = None) (sample_checks wire).
Proof.
  intros Hrow Hknown Hget Hev Hundef. unfold sample_checks in *. cbn [map app fst snd] in *.
  unfold aliases, one_sided, codex_credits, if_defined in *.
  repeat match goal with |- context [get wire ?k] => rewrite (Hget k) by reflexivity end.
  rewrite Hundef. apply Forall_cons in Hrow as [_ Hrow]. apply Forall_cons_2; [by apply closed_known|].
  repeat (apply Forall_cons in Hrow as [? Hrow]; apply Forall_cons_2; [first [assumption|idtac]|]).
  - match goal with Hr : when _ (first_complaint _) = None |- _ => rename Hr into Hevidence end.
    rewrite when_None in *. intros Hd. specialize (Hevidence Hd). rewrite first_complaint_None in *.
    apply Forall_cons in Hevidence as [Hlive [He _]%Forall_cons]. repeat constructor; auto.
  - constructor.
Qed.

(** ** The same document *)

Lemma get_notin k (fs : list (string * jsval)) : k ∉ fs.*1 -> get fs k = JUndef.
Proof. intros Hk. unfold get. apply assoc_get_None in Hk. by rewrite Hk. Qed.

Definition all_defined (fs : list (string * jsval)) : Prop := Forall (fun kv => is_undef kv.2 = false) fs.

Lemma assoc_get_sorted k (fs : list (string * jsval)) :
  assoc_get k (map (fun kv => (kv.1, sortDeep kv.2)) fs) = sortDeep <$> assoc_get k fs.
Proof. induction fs as [|[k' v] fs IH]; [done|]. cbn [map fst snd assoc_get]. by case_decide. Qed.

Lemma assoc_get_defined k fs :
  all_defined fs -> sortDeep <$> assoc_get k fs =
  if is_undef (sortDeep (get fs k)) then None else Some (sortDeep (get fs k)).
Proof.
  intros Hd. unfold get. induction Hd as [|[k' v] fs Hv Hd IH]; [done|]. cbn [assoc_get]. case_decide; [|exact IH].
  cbn [fmap option_fmap option_map default from_option]. simpl in Hv. by destruct v.
Qed.

(** Two objects whose keys say the same have one sorted form. *)
Lemma sortDeep_same fs fs' :
  NoDup fs.*1 -> NoDup fs'.*1 -> all_defined fs -> all_defined fs' ->
  (forall k, sortDeep (get fs k) = sortDeep (get fs' k)) -> sortDeep (JObj fs) = sortDeep (JObj fs').
Proof.
  intros Hn Hn' Hd Hd' Hget. cbn [sortDeep]. f_equal.
  set (l := map (fun kv => (kv.1, sortDeep kv.2)) fs). set (l' := map (fun kv => (kv.1, sortDeep kv.2)) fs').
  assert (Hl : NoDup l.*1) by (unfold l; by rewrite sorted_keys).
  assert (Hl' : NoDup l'.*1) by (unfold l'; by rewrite sorted_keys).
  assert (Hp : l ≡ₚ l').
  { apply NoDup_Permutation; [by apply (NoDup_fmap_1 fst)..|]. intros [k v]. rewrite <- !assoc_get_elem by done.
    unfold l, l'. rewrite !assoc_get_sorted, !assoc_get_defined by done. by rewrite Hget. }
  apply (StronglySorted_unique_strong (le_by key_compare));
    [|apply sort_by_sorted; apply _..|by rewrite !sort_by_perm, Hp].
  intros [k v] [k' v'] Hx%elem_of_sort_by Hy%elem_of_sort_by Hxy Hyx. rewrite <- Hp in Hy.
  assert (E : k = k').
  { apply str_compare_eq. unfold le_by, key_compare in *. simpl in *. rewrite str_compare_antisym in Hyx.
    by destruct (str_compare k k'). }
  subst k'. f_equal. apply (assoc_get_elem _ _ _ Hl) in Hx, Hy. rewrite Hx in Hy. by injection Hy.
Qed.

(** Evidence with its keys in the source's order. *)
Definition ordered_evidence (fields : list (string * jsval)) : list (string * jsval) :=
  map (fun key => (key, get fields key)) evidence_keys.

Lemma evidence_there_and_back fields :
  rename_evidence local_evidence_keys evidence_keys
    (zip_with (fun source target => (target, get fields source)) evidence_keys local_evidence_keys) =
  JObj (ordered_evidence fields).
Proof. unfold rename_evidence, ordered_evidence, evidence_keys, local_evidence_keys. cbn [zip_with map]. by solve_get. Qed.

Lemma get_ordered_evidence fields k : k ∈ evidence_keys -> get (ordered_evidence fields) k = get fields k.
Proof.
  intros Hk. unfold evidence_keys in Hk. rewrite !elem_of_cons in Hk. unfold ordered_evidence, evidence_keys. cbn [map].
  destruct Hk as [->|[->|[->|[->|[]%elem_of_nil]]]]; by solve_get.
Qed.

Lemma ordered_evidence_known fields :
  (forall k, k ∈ evidence_keys -> is_undef (get fields k) = false) -> Forall (known evidence_keys) (ordered_evidence fields).
Proof. intros Hd. apply Forall_fmap, Forall_forall. intros k Hk. split; [done|by apply Hd]. Qed.

Lemma ordered_evidence_ok fields :
  (forall k, k ∈ evidence_keys -> is_undef (get fields k) = false) ->
  evidence (JObj fields) = None -> evidence (JObj (ordered_evidence fields)) = None.
Proof.
  intros Hd He. unfold evidence in *. rewrite first_complaint_None in *. cbn [map app] in *.
  rewrite !get_ordered_evidence by (apply (bool_decide_unpack _); vm_compute; exact I).
  apply Forall_cons in He as [_ He]. apply Forall_cons_2; [by apply closed_known, ordered_evidence_known|exact He].
Qed.

Lemma ordered_evidence_same fields :
  NoDup fields.*1 -> (forall k, k ∈ fields.*1 -> k ∈ evidence_keys) ->
  (forall k, k ∈ evidence_keys -> is_undef (get fields k) = false) ->
  sortDeep (JObj (ordered_evidence fields)) = sortDeep (JObj fields).
Proof.
  intros Hn Hk Hd. apply sortDeep_same; [|done| | |].
  - replace (ordered_evidence fields).*1 with evidence_keys by done. apply (bool_decide_unpack _). vm_compute. exact I.
  - eapply Forall_impl; [by apply ordered_evidence_known|]. by intros kv [_ ?].
  - apply Forall_forall. intros [k v] Hin. assert (Hk' : k ∈ fields.*1) by (by apply (list_elem_of_fmap_2 fst) in Hin).
    apply Hk, Hd in Hk'. apply (assoc_get_elem _ _ _ Hn) in Hin. unfold get in Hk'. by rewrite Hin in Hk'.
  - intros k. destruct (decide (k ∈ evidence_keys)) as [Hin|Hnin]; [by rewrite get_ordered_evidence|].
    rewrite !get_notin; [done|by intros ?%Hk|]. by replace (ordered_evidence fields).*1 with evidence_keys.
Qed.

Lemma plain_key k :
  bool_decide (k ∈ wire_keys) && negb (str_eqb k "verification_evidence") = true ->
  k ∈ wire_keys /\ k <> "verification_evidence".
Proof.
  intros [Hk%bool_decide_eq_true Hne%negb_true_iff]%andb_true_iff. split; [done|]. intros ->. by rewrite str_eqb_refl in Hne.
Qed.

Lemma evidence_key : "verification_evidence" ∈ wire_keys.
Proof. apply (bool_decide_unpack _). vm_compute. exact I. Qed.

(** The two ways a sample's evidence comes back. *)
Lemma sent_back v row local :
  validateSample v = inr row -> readWireSample v = inr local ->
  let wire := set_evidence "verification_evidence" local_evidence_keys evidence_keys
                (get local "verificationEvidence") (listed local) in
  Forall (known wire_keys) wire /\ NoDup wire.*1 /\
  (forall k, k ∈ wire_keys -> k <> "verification_evidence" -> get wire k = get row k) /\
  get wire "verification_evidence" =
    match get row "verification_evidence" with JObj fields => JObj (ordered_evidence fields) | _ => JUndef end.
Proof.
  intros Hv Hl. cbv zeta. pose proof (local_evidence _ _ _ Hv Hl) as Hev. destruct (listed_known local) as [Hk Hd].
  assert (Hgets : forall k, k ∈ wire_keys -> k <> "verification_evidence" -> get (listed local) k = get row k)
    by (intros k Hin Hne; rewrite get_listed by done; by apply (local_gets v)).
  assert (Hg : get (listed local) "verification_evidence" = get local "verificationEvidence")
    by (rewrite get_listed by apply evidence_key; done).
  rewrite Hev in *. destruct (get row "verification_evidence") as [| | | | | |fields]; try done.
  change (set_evidence _ _ _ _ _) with (assoc_set "verification_evidence"
    (rename_evidence local_evidence_keys evidence_keys
      (zip_with (fun source target => (target, get fields source)) evidence_keys local_evidence_keys)) (listed local)).
  rewrite evidence_there_and_back. split_and!.
  - apply known_set; [apply evidence_key|done|done].
  - by apply assoc_set_NoDup.
  - intros k Hin Hne. rewrite get_set. case_decide; [done|by apply Hgets].
  - rewrite get_set. by case_decide.
Qed.

(** C22: A sample survives the trip: whatever an accepted sample says, its local
    form is turned back into an accepted sample with the same canonical text.
    Nothing is lost, added or renamed, whatever the order of its keys and with
    or without evidence. *)
Theorem a_sample_survives_the_round_trip v row :
  unique_keys v -> validateSample v = inr row ->
  exists local wire, readWireSample v = inr local /\ toWireSampleV3_local local = inr wire /\
    canonicalJson (JObj wire) = canonicalJson v.
Proof.
  intros Hu Hv. destruct (readWireSample v) as [refusal|local] eqn:Hl; [unfold readWireSample in Hl; by rewrite Hv in Hl|].
  destruct (sent_back v row local Hv Hl) as (Hknown & Hd & Hgets & Hev).
  set (wire := set_evidence "verification_evidence" local_evidence_keys evidence_keys
                 (get local "verificationEvidence") (listed local)) in *.
  pose proof (validateSample_inv _ _ Hv) as [-> Hchecks]. destruct Hu as [Hn Hu].
  pose proof (sample_known _ Hchecks) as Hrow. exists local, wire. split; [done|].
  pose proof (sample_evidence row Hchecks) as Hcases.
  assert (Hdrow : all_defined row).
  { apply Forall_forall. intros [k x] Hin. pose proof (list_elem_of_fmap_2 fst _ _ Hin) as Hk. cbn [fst] in Hk. apply Hrow in Hk as [_ Hk].
    apply (assoc_get_elem _ _ _ Hn) in Hin. unfold get in Hk. by rewrite Hin in Hk. }
  assert (Hok : validateSample (JObj wire) = inr wire).
  { unfold validateSample. enough (Hc : first_complaint (sample_checks wire) = None) by (by rewrite Hc).
    apply first_complaint_None, (checks_transfer row); [done|done|by intros k [? ?]%plain_key; apply Hgets|..];
      rewrite Hev; destruct Hcases as [->|(fields & -> & _ & Hfd)]; try done.
    by apply ordered_evidence_ok. }
  split; [unfold toWireSampleV3_local; fold wire; exact Hok|]. unfold canonicalJson. f_equal. apply sortDeep_same; try done.
  - eapply Forall_impl; [exact Hknown|]. by intros kv [_ ?].
  - intros k. destruct (decide (k ∈ wire_keys)) as [Hk|Hk].
    + destruct (decide (k = "verification_evidence")) as [->|Hne]; [|by rewrite Hgets].
      rewrite Hev. destruct Hcases as [->|(fields & E & Hf & Hfd)]; [done|]. rewrite E.
      apply ordered_evidence_same; [|done..]. pose proof (unique_keys_get (JObj row) row "verification_evidence") as Hx.
      rewrite E in Hx. apply Hx; done.
    + rewrite !get_notin; [done|by intros [? _]%Hrow|]. intros Hin. apply list_elem_of_fmap in Hin as (kv & -> & Hkv).
      rewrite Forall_forall in Hknown. by apply Hk, (Hknown kv).
Qed.

(** C23: Every believed reading travels, and arrives as it was sent. A percentage,
    an unavailable meter, a metered amount and the credits of Codex pass every
    check of the wire, whatever else the reading states; each key says what the
    reading says (the unnamed account as [default], stale when it expired before
    the instant of sending), and the receiver's local sample has it under its
    own name. Every other reading is refused for its unit, by name. *)
Theorem a_believed_reading_travels s now :
  well_formed s -> iso now ->
  (sendable s = true ->
   exists wire local, toWireSampleV3 s now = inr wire /\ sent s now wire /\
     readWireSample (JObj wire) = inr local /\
     (forall k, k ∈ wire_keys -> k <> "verification_evidence" -> get local (local_key k) = get wire k) /\
     get local "verificationEvidence" = opt_val raw_of_evidence (lb_verificationEvidence (s_labels s))) /\
  (sendable s = false ->
   toWireSampleV3 s now =
     inl {| re_field := "unit"; re_reason := "has no v2 usage representation; use an explicit amount projection" |}).
Proof.
  intros Hwf Hnow. pose proof (wf_expires s Hwf) as Hexp. unfold iso in *. unfold toWireSampleV3, instant, isIsoInstant.
  rewrite Hexp, Hnow. cbn [fail_unless first_complaint].
  replace (negb (bool_decide (s_unit s = PERCENT)) && is_available s && negb (defined (s_usedAmount s)) && negb (codexCredits s))
    with (negb (sendable s))
    by (unfold sendable, is_available; by destruct (bool_decide (s_unit s = PERCENT)), (defined (s_availability s)),
          (defined (s_usedAmount s)), (codexCredits s)).
  split; intros Hr; rewrite Hr; cbn [negb fail_unless]; [|done].
  pose proof (wire_fields_sent s now) as Hsent. pose proof (sent_valid s now _ Hwf Hr Hsent) as Hv.
  set (wire := wire_fields s now) in *. destruct (readWireSample (JObj wire)) as [refusal|local] eqn:Hl;
    [unfold readWireSample in Hl; by rewrite Hv in Hl|].
  exists wire, local. split_and!; [done..| |].
  - intros k Hk Hne. by apply (local_gets (JObj wire)).
  - rewrite (local_evidence _ _ _ Hv Hl). rewrite (se_evidence _ _ _ Hsent).
    destruct (lb_verificationEvidence (s_labels s)) as [e|]; [|done]. cbn [opt_val].
    unfold wire_of_evidence, rename_evidence, evidence_keys, local_evidence_keys. cbn [zip_with]. by solve_get.
Qed.

End Reading.

Definition sample_wire : jsval :=
  JObj [("provider", JStr "CLAUDE"); ("verification_evidence",
           JObj [("date", JStr "2026-01-01T00:00:00.000Z"); ("os", JStr "linux"); ("account_shape", JStr "max");
                 ("provider_version", JStr "2.0")]);
        ("account_id", JStr "work"); ("window_id", JStr "FIVE_HOUR"); ("meter", JStr "FIVE_HOUR");
        ("observed_at", JStr "2026-01-01T00:00:00.000Z"); ("stale", JBool false); ("percent", JNum (int 42));
        ("verification", JStr "VERIFIED_LIVE"); ("resets_at", JNull)].

Lemma a_sample_survives_the_round_trip_witness :
  exists local wire, readWireSample (H:=strict_host) sample_wire = inr local /\
    toWireSampleV3_local (H:=strict_host) local = inr wire /\
    canonicalJson (JObj wire) = canonicalJson sample_wire.
Proof.
  apply (a_sample_survives_the_round_trip (H:=strict_host) sample_wire (default [] (record_of sample_wire))).
  - repeat first [exact I | apply (bool_decide_unpack _); vm_compute; exact I | split].
  - by vm_compute.
Defined.

Lemma a_believed_reading_travels_witness :
  exists wire local, toWireSampleV3 (H:=strict_host) sample_row "2026-01-01T00:30:00.000Z" = inr wire /\
    readWireSample (H:=strict_host) (JObj wire) = inr local /\ get local "usagePercent" = JNum (int 42).
Proof.
  assert (E : normalizeMeter (H:=strict_host) (raw_of_snapshot sample_row) = Some sample_row) by (by vm_compute).
  destruct (a_believed_reading_travels (H:=strict_host) sample_row "2026-01-01T00:30:00.000Z") as [Hsent _].
  - exact (normalizeMeter_wf _ _ E).
  - by vm_compute.
  - destruct (Hsent eq_refl) as (wire & local & Hw & Hs & Hl & Hgets & _). exists wire, local. split_and!; [done..|].
    change "usagePercent" with (local_key "usage_percent"). rewrite Hgets; [|apply (bool_decide_unpack _); vm_compute; exact I|done].
    exact (se_usage _ _ _ Hs).
Defined.
