(* ===== verification/Surfaces.v ===== *)
(** * The rows every surface shows

    [packages/core/src/contracts/surfaces.ts]: the closed shape of an account
    row, the band of a percentage, and the one number of the tray. A row is a
    document until [isSurfaceAccountRow] says what it is. *)
From S2P Require Import Prelude JsNum JsDate JsValue Types Activity Wire.
Local Open Scope string_scope.
Local Open Scope Z_scope.
Local Open Scope list_scope.
Local Open Scope js_scope.

Definition MAX_LIVE_ACTIVITY_SESSIONS : Z := 64.

(** [USAGE_BAND_THRESHOLDS] *)
Record BandThresholds := { bt_yellow : Z; bt_orange : Z; bt_red : Z }.
Definition USAGE_BAND_THRESHOLDS : BandThresholds := {| bt_yellow := 60; bt_orange := 80; bt_red := 90 |}.

Inductive SurfaceBand := green | yellow | orange | red | sb_stale.

#[export] Instance SurfaceBand_eq : EqDecision SurfaceBand. Proof. solve_decision. Defined.

#[export] Instance surface_bands : Closed SurfaceBand := {
  all_of := [green; yellow; orange; red; sb_stale];
  name_of b :=
    match b with
    | green => "green" | yellow => "yellow" | orange => "orange" | red => "red" | sb_stale => "stale"
    end }.
#[export] Instance surface_bands_laws : ClosedLaws SurfaceBand. Proof. solve_closed. Qed.

(** A percentage of a row: a finite number from 0 to 100. *)
Definition is_percent (used : num) : bool :=
  is_finite used && negb (used <# int 0) && negb (int 100 <# used).

Definition usageBand (used : num) (freshness : string) : SurfaceBand :=
  if negb (str_eqb freshness "fresh") || negb (is_percent used) then sb_stale
  else if int (bt_red USAGE_BAND_THRESHOLDS) <=# used then red
  else if int (bt_orange USAGE_BAND_THRESHOLDS) <=# used then orange
  else if int (bt_yellow USAGE_BAND_THRESHOLDS) <=# used then yellow
  else green.

(** Consumption, when the row has one that counts. *)
Definition usedPercent (row : list (string * jsval)) : option num :=
  check is_string (get row "kind") "quota_percent" && is_string (get row "availability") "available" &&
        is_string (get row "freshness") "fresh";;
  let? value := as_num (get row "value") in
  check is_percent value;;
  Some (if is_string (get row "meaning") "remaining" then int 100 ⊖ value else value).

Definition shortText (v : jsval) : bool :=
  match v with
  | JStr s =>
      (0 <? str_length s) && (str_length s <=? 256) &&
      str_forall (fun c => negb ((code c <? 32) || (code c =? 127))) s
  | _ => false
  end.

Definition row_keys : list string :=
  ["provider"; "account"; "headlineMeterId"; "kind"; "value"; "meaning"; "windowLabel"; "resetAt"; "freshness";
   "availability"; "band"; "precision"; "fidelityMarker"; "sessions"].

Definition session_keys : list string := ["busy"; "waiting"; "done"; "idle"; "unknown"].

Definition session_count (v : jsval) : bool :=
  match as_safe_int v with Some n => 0 <=? n | None => false end.

Definition sessions_ok (v : jsval) : bool :=
  match v with
  | JObj sessions =>
      hasOnlyContractKeys sessions session_keys &&
      forallb (fun key => session_count (get sessions key)) session_keys &&
      negb (int MAX_LIVE_ACTIVITY_SESSIONS <#
            foldl (fun total key => total ⊕ default NaN (as_num (get sessions key))) (int 0) session_keys)
  | _ => false
  end.

(** [null] or a text, [null] or an instant. *)
Definition null_or (p : jsval -> bool) (v : jsval) : bool := match v with JNull => true | _ => p v end.

(** The rules between a row's value and the rest of it. *)
Definition row_value_ok (row : list (string * jsval)) : bool :=
  null_or (fun v => match v with JNum n => is_finite n && negb (n <# int 0) | _ => false end) (get row "value") &&
  (is_string (get row "availability") "available" || match get row "value" with JNull => true | _ => false end) &&
  negb (is_string (get row "kind") "quota_percent" &&
        match get row "value" with JNum n => int 100 <# n | _ => false end).

Definition expected_marker (row : list (string * jsval)) : jsval :=
  if is_string (get row "precision") "exact" then JNull else get row "precision".

Section Surfaces.
Context `{DateHost}.

Definition isSurfaceAccountRow (v : jsval) : bool :=
  match v with
  | JObj row =>
      hasOnlyContractKeys row row_keys && Activity.member ProviderCode (get row "provider") &&
      null_or shortText (get row "account") && shortText (get row "headlineMeterId") &&
      shortText (get row "windowLabel") && null_or isContractInstant (get row "resetAt") &&
      is_member (get row "kind") (map name_of (all_of (A:=SnapshotKind)) ++ ["unknown"]) &&
      is_member (get row "meaning") ["used"; "remaining"] &&
      is_member (get row "freshness") ["fresh"; "stale"; "unknown"] &&
      is_member (get row "availability") ("available" :: map name_of (all_of (A:=SnapshotAvailability))) &&
      is_member (get row "precision") ["exact"; "estimated"; "manual"; "unknown"] &&
      row_value_ok row && strictly_equal (get row "fidelityMarker") (expected_marker row) &&
      sessions_ok (get row "sessions") &&
      is_string (get row "band")
        (name_of (match usedPercent row with None => sb_stale | Some used => usageBand used "fresh" end))
  | _ => false
  end.

(** The consumption a row contributes to the tray; [None]: it is passed over. *)
Definition contributes (v : jsval) : option num :=
  check isSurfaceAccountRow v;; let? row := record_of v in usedPercent row.

Record TraySummary := {
  ty_selected : option jsval;
  ty_value : option num;
  ty_band : SurfaceBand;
  ty_partial : bool;
  ty_includedRows : Z;
  ty_excludedRows : Z }.

(** The best so far: the row, its consumption, and how many rows counted. *)
Definition tray_step (best : option jsval * num * Z) (row : jsval) : option jsval * num * Z :=
  let '(selected, maximum, included) := best in
  match contributes row with
  | None => best
  | Some used => if maximum <# used then (Some row, used, included + 1) else (selected, maximum, included + 1)
  end.

Definition traySummary (rows : list jsval) : TraySummary :=
  let '(selected, maximum, includedRows) := foldl tray_step (None, int (-1), 0) rows in
  let excludedRows := Z.of_nat (length rows) - includedRows in
  let partial := (0 <? includedRows) && (0 <? excludedRows) in
  match selected with
  | None =>
      {| ty_selected := None; ty_value := None; ty_band := sb_stale; ty_partial := partial;
         ty_includedRows := 0; ty_excludedRows := excludedRows |}
  | Some row =>
      {| ty_selected := Some row; ty_value := Some maximum; ty_band := usageBand maximum "fresh";
         ty_partial := partial; ty_includedRows := includedRows; ty_excludedRows := excludedRows |}
  end.

(** ** What the tray shows *)

Lemma is_percent_range used : is_percent used = true <-> exists z, used = Fin z /\ 0 <= z <= 100 * one.
Proof.
  unfold is_percent, int. split.
  - intros Hp. apply andb_true_iff in Hp as [[Hf H0]%andb_true_iff H1]. apply finite_Fin in Hf as [z ->].
    rewrite !nlt_Fin in *. bools. exists z. split; [done|lia].
  - intros (z & -> & Hz). rewrite !nlt_Fin, !(proj2 (Z.ltb_ge _ _)) by lia. done.
Qed.

(** What is left of a hundred is a percentage too. *)
Lemma left_of_hundred z : 0 <= z <= 100 * one -> is_percent (int 100 ⊖ Fin z) = true.
Proof.
  intros Hz. unfold int, nsub, nneg, nadd. apply is_percent_range.
  assert (E0 : round_ratio 0 1 = Fin 0) by (by apply round_ratio_0).
  assert (E1 : round_ratio (100 * one * 1) 1 = Fin (100 * one)) by (apply round_exact; [lia|by apply representable_int]).
  pose proof (round_ratio_mono 0 1 (100 * one + - z) 1 ltac:(lia) ltac:(lia) ltac:(lia)) as Hlo.
  pose proof (round_ratio_mono (100 * one + - z) 1 (100 * one * 1) 1 ltac:(lia) ltac:(lia) ltac:(lia)) as Hhi.
  rewrite E0 in Hlo. rewrite E1 in Hhi. destruct (nle_between _ _ _ Hlo Hhi) as (y & E & Hy). exists y. split; [exact E|lia].
Qed.

Lemma usedPercent_range row used : usedPercent row = Some used -> is_percent used = true.
Proof.
  unfold usedPercent. intros E. guard_hyp E as Hg. destruct (as_num (get row "value")) as [v|]; [|done].
  guard_hyp E as Hv. injection E as <-. destruct (is_string (get row "meaning") "remaining"); [|done].
  apply is_percent_range in Hv as (z & -> & Hz). by apply left_of_hundred.
Qed.

Lemma usageBand_percent used : is_percent used = true -> usageBand used "fresh" <> sb_stale.
Proof. intros Hp. unfold usageBand. rewrite Hp, str_eqb_refl. cbn [negb orb]. by repeat case_match. Qed.

(** A row that contributes carries the band of its consumption. *)
Lemma contributes_band v used :
  contributes v = Some used ->
  is_percent used = true /\ exists row, v = JObj row /\ get row "band" = name (usageBand used "fresh").
Proof.
  unfold contributes. intros E. guard_hyp E as Hrow. destruct v as [| | | | | |row]; try done.
  cbn [record_of] in E. split; [by apply (usedPercent_range row)|]. exists row. split; [done|].
  unfold isSurfaceAccountRow in Hrow. rewrite E in Hrow. apply andb_true_iff in Hrow as [_ Hband].
  unfold is_string in Hband. destruct (get row "band"); try done. apply str_eqb_eq in Hband. by subst.
Qed.

Lemma percent_above_start used : is_percent used = true -> (int (-1) <# used) = true.
Proof.
  intros (z & -> & Hz)%is_percent_range. unfold int. rewrite nlt_Fin. apply Z.ltb_lt. pose proof one_pos. lia.
Qed.

(** What the fold holds after some rows. *)
Definition tray_so_far (rows : list jsval) (best : option jsval * num * Z) : Prop :=
  let '(selected, maximum, included) := best in
  included = Z.of_nat (length (omap contributes rows)) /\
  match selected with
  | None => maximum = int (-1) /\ omap contributes rows = []
  | Some row =>
      contributes row = Some maximum /\
      exists before after, rows = before ++ row :: after /\
        (forall r used, r ∈ before -> contributes r = Some used -> (used <# maximum) = true) /\
        (forall r used, r ∈ after -> contributes r = Some used -> (maximum <# used) = false)
  end.

Lemma tray_fold rows : tray_so_far rows (foldl tray_step (None, int (-1), 0) rows).
Proof.
  induction rows as [|row rows IH] using rev_ind; [done|]. rewrite foldl_app. cbn [foldl].
  destruct (foldl tray_step _ rows) as [[selected maximum] included]. destruct IH as [-> IH].
  unfold tray_step, tray_so_far. rewrite !omap_app, !length_app. cbn [omap list_omap].
  destruct (contributes row) as [used|] eqn:E.
  - pose proof (contributes_band _ _ E) as [Hp _]. destruct (maximum <# used) eqn:Hlt.
    + split; [simpl; lia|]. split; [done|]. exists rows, []. split_and!; [done| |by intros ? ? []%elem_of_nil].
      intros r u Hr Eu. destruct selected as [s|].
      * destruct IH as (Es & before & after & -> & Hb & Ha). pose proof (contributes_band _ _ Es) as [Hm _].
        pose proof (contributes_band _ _ Eu) as [Hu _].
        apply is_percent_range in Hp as (x & -> & _), Hm as (y & -> & _), Hu as (z & -> & _).
        apply elem_of_app in Hr as [Hr|[->|Hr]%elem_of_cons].
        -- specialize (Hb _ _ Hr Eu). rewrite nlt_Fin in *. lia.
        -- rewrite Es in Eu. injection Eu as ->. done.
        -- specialize (Ha _ _ Hr Eu). rewrite nlt_Fin in *. lia.
      * destruct IH as [_ IH]. assert (Hin : u ∈ omap contributes rows) by (apply list_elem_of_omap; by exists r).
        rewrite IH in Hin. by apply elem_of_nil in Hin.
    + split; [simpl; lia|]. destruct selected as [s|].
      * destruct IH as (Es & before & after & -> & Hb & Ha). split; [done|]. exists before, (after ++ [row]).
        split_and!; [by rewrite <- app_assoc|done|]. intros r u Hr Eu.
        rewrite elem_of_app, list_elem_of_singleton in Hr. destruct Hr as [Hr| ->]; [by eapply Ha|].
        rewrite E in Eu. by injection Eu as <-.
      * destruct IH as [-> _]. by rewrite percent_above_start in Hlt.
  - split; [simpl; lia|]. destruct selected as [s|]; [|by rewrite app_nil_r].
    destruct IH as (Es & before & after & -> & Hb & Ha). split; [done|]. exists before, (after ++ [row]).
    split_and!; [by rewrite <- app_assoc|done|]. intros r u Hr Eu.
    rewrite elem_of_app, list_elem_of_singleton in Hr. destruct Hr as [Hr| ->]; [by eapply Ha|]. by rewrite E in Eu.
Qed.

(** The tray shows the highest fresh quota consumption and nothing else. Its row
    is one of the rows that count, no row that counts is higher, and of equal
    ones it is the first; its band is the one the row itself carries, and never
    the stale one. Rows that count and rows passed over add up to all of them,
    and without a row that counts the tray shows no number. *)
Theorem the_tray_shows_the_highest rows :
  ty_includedRows (traySummary rows) + ty_excludedRows (traySummary rows) = Z.of_nat (length rows) /\
  ty_includedRows (traySummary rows) = Z.of_nat (length (omap contributes rows)) /\
  (ty_partial (traySummary rows) = true <->
     0 < ty_includedRows (traySummary rows) /\ 0 < ty_excludedRows (traySummary rows)) /\
  (ty_selected (traySummary rows) = None <-> forall row, row ∈ rows -> contributes row = None) /\
  (ty_selected (traySummary rows) = None ->
     ty_value (traySummary rows) = None /\ ty_band (traySummary rows) = sb_stale) /\
  forall row, ty_selected (traySummary rows) = Some row ->
    exists used fields before after, rows = before ++ row :: after /\
      ty_value (traySummary rows) = Some used /\ contributes row = Some used /\ is_percent used = true /\
      row = JObj fields /\ get fields "band" = name (ty_band (traySummary rows)) /\
      ty_band (traySummary rows) <> sb_stale /\
      (forall r u, r ∈ before -> contributes r = Some u -> (u <# used) = true) /\
      (forall r u, r ∈ after -> contributes r = Some u -> (used <# u) = false).
Proof.
  pose proof (tray_fold rows) as Hfold. unfold traySummary.
  destruct (foldl tray_step _ rows) as [[selected maximum] included]. destruct Hfold as [Ei Hs].
  destruct selected as [s|]; cbn [ty_selected ty_value ty_band ty_partial ty_includedRows ty_excludedRows].
  - destruct Hs as (Es & before & after & Erows & Hb & Ha). destruct (contributes_band _ _ Es) as (Hp & fields & -> & Hband).
    split_and!; [lia|done|rewrite andb_true_iff, !Z.ltb_lt; done| |done|].
    + split; [done|]. intros Hnone. rewrite Hnone in Es; [done|]. rewrite Erows. apply elem_of_app. right. by left.
    + intros row [= <-]. exists maximum, fields, before, after. split_and!; try done. by apply usageBand_percent.
  - destruct Hs as [_ Hnil]. rewrite Hnil in Ei. simpl in Ei. subst included. split_and!; try done.
    + lia.
    + by rewrite Hnil.
    + rewrite andb_true_iff, !Z.ltb_lt. lia.
    + split; [|done]. intros _ row Hrow. destruct (contributes row) as [u|] eqn:E; [|done].
      assert (Hin : u ∈ omap contributes rows) by (apply list_elem_of_omap; by exists row).
      rewrite Hnil in Hin. by apply elem_of_nil in Hin.
Qed.

End Surfaces.

Definition sample_surface_row (value : Z) (meaning band : string) : jsval :=
  JObj [("provider", JStr "CLAUDE"); ("account", JNull); ("headlineMeterId", JStr "FIVE_HOUR");
        ("kind", JStr "quota_percent"); ("value", JNum (int value)); ("meaning", JStr meaning);
        ("windowLabel", JStr "5h"); ("resetAt", JNull); ("freshness", JStr "fresh"); ("availability", JStr "available");
        ("band", JStr band); ("precision", JStr "exact"); ("fidelityMarker", JNull);
        ("sessions", JObj [("busy", JNum (int 1)); ("waiting", JNum (int 0)); ("done", JNum (int 0));
                           ("idle", JNum (int 0)); ("unknown", JNum (int 0))])].

Example tray_of_three :
  ty_band (traySummary (H:=strict_host)
    [sample_surface_row 61 "used" "yellow"; sample_surface_row 15 "remaining" "orange"; JNull]) = orange.
Proof. by vm_compute. Qed.
