(* ===== verification/Notify.v ===== *)
(** * Notifications

    [packages/core/src/contracts/notify.ts]: the keys that keep one event from
    being notified twice, the closed shapes of a submission and of the
    preferences, and when a submission may be shown here or sent away. *)
From S2P Require Import Prelude JsNum JsDate JsValue Text Json JsonText ReadBack Types Activity Wire.
Local Open Scope string_scope.
Local Open Scope Z_scope.
Local Open Scope list_scope.
Local Open Scope js_scope.

Definition NOTIFICATION_PROVIDERS : list string := map name_of (all_of (A:=ProviderCode)) ++ ["MUSE"; "CURSOR"].
Definition NOTIFICATION_KINDS : list string := ["threshold"; "limit_reached"; "reset"; "agent_waiting"; "agent_done"].

Definition textId (v : jsval) : bool :=
  match v with
  | JStr s =>
      (0 <? str_length s) && (str_length s <=? 256) &&
      str_forall (fun c => negb ((code c <? 32) || (code c =? 127))) s
  | _ => false
  end.

Definition provider (v : jsval) : bool := is_member v NOTIFICATION_PROVIDERS.

Definition account (v : jsval) : bool := match v with JNull => true | _ => textId v end.

(** ** Keys *)

Definition or_null {A} (f : A -> jsval) (o : option A) : jsval := match o with Some a => f a | None => JNull end.

(** [None]: it throws. *)
Definition thresholdDedupeKey (provider : string) (account : option string) (meterId cycleId kind : string)
    (threshold : option Z) : option string :=
  check Bool.eqb (str_eqb kind "threshold") (match threshold with Some _ => true | None => false end);;
  Some ("threshold:" +:+ text_of (JArr [JStr provider; or_null JStr account; JStr meterId; JStr cycleId; JStr kind;
                                       or_null (fun t => JNum (int t)) threshold])).

Definition activityDedupeKey (provider : string) (account : option string) (sessionId : string) (sequence : Z)
    (kind : string) : string :=
  "activity:" +:+ text_of (JArr [JStr provider; or_null JStr account; JStr sessionId; JNum (int sequence); JStr kind]).

Definition is_activity (value : list (string * jsval)) : bool :=
  is_string (get value "kind") "agent_waiting" || is_string (get value "kind") "agent_done".

Definition nth_part (parts : list jsval) (i : nat) : jsval := default JUndef (parts !! i).

Definition is_one_of (v : jsval) (values : list Z) : bool :=
  match v with JNum n => existsb (fun value => n ==# int value) values | _ => false end.

(** What the parts of a key must agree with. *)
Definition parts_ok (value : list (string * jsval)) (activity : bool) (parts : list jsval) : bool :=
  (length parts =? (if activity then 5 else 6))%nat && strictly_equal (nth_part parts 0) (get value "provider") &&
  strictly_equal (nth_part parts 1) (get value "account") && strictly_equal (nth_part parts 4) (get value "kind") &&
  textId (nth_part parts 2) &&
  (if activity then match as_safe_int (nth_part parts 3) with Some n => 0 <=? n | None => false end
   else textId (nth_part parts 3) &&
        (if is_string (get value "kind") "threshold" then is_one_of (nth_part parts 5) [60; 80; 90]
         else match nth_part parts 5 with JNull => true | _ => false end)).

Definition validDedupeKey (value : list (string * jsval)) : bool :=
  match get value "dedupeKey" with
  | JStr key =>
      let activity := is_activity value in
      let prefix := if activity then "activity:" else "threshold:" in
      (str_length key <=? 2048) &&
      match after_prefix prefix key with
      | None => false
      | Some text =>
          match json_parse text with
          | Some (JArr parts) => str_eqb key (prefix +:+ text_of (JArr parts)) && parts_ok value activity parts
          | _ => false
          end
      end
  | _ => false
  end.

Definition submission_keys : list string :=
  ["kind"; "dedupeKey"; "provider"; "account"; "localChannel"; "remoteChannel"].

Definition isNotificationSubmission (v : jsval) : bool :=
  match v with
  | JObj value =>
      hasOnlyContractKeys value submission_keys && is_member (get value "kind") NOTIFICATION_KINDS &&
      provider (get value "provider") && account (get value "account") &&
      is_member (get value "localChannel") ["popup"; "none"] && is_boolean (get value "remoteChannel") &&
      validDedupeKey value
  | _ => false
  end.

(** ** Preferences *)

(** [Number.isInteger], within bounds. *)
Definition integer_from (lo hi : Z) (v : jsval) : bool :=
  match as_num v ≫= to_int with Some n => (lo <=? n) && (n <=? hi) | None => false end.

Definition quiet_keys : list string := ["startMinute"; "endMinute"; "utcOffsetMinutes"].

Definition quiet_ok (v : jsval) : bool :=
  match v with
  | JObj q =>
      hasOnlyContractKeys q quiet_keys && integer_from 0 1439 (get q "startMinute") &&
      integer_from 0 1439 (get q "endMinute") && integer_from (-840) 840 (get q "utcOffsetMinutes")
  | _ => false
  end.

Definition channel_keys : list string := ["enabled"; "quietHours"; "snoozedUntil"; "mutedProviders"].

Section Notify.
Context `{DateHost}.

Definition isChannelPreferences (v : jsval) : bool :=
  match v with
  | JObj value =>
      hasOnlyContractKeys value channel_keys && is_boolean (get value "enabled") &&
      match get value "snoozedUntil" with JNull => true | v => isContractInstant v end &&
      match get value "mutedProviders" with JArr muted => forallb provider muted | _ => false end &&
      match get value "quietHours" with JNull => true | q => quiet_ok q end
  | _ => false
  end.

Definition isNotificationPreferences (v : jsval) : bool :=
  match v with
  | JObj value =>
      hasOnlyContractKeys value ["local"; "remote"] && isChannelPreferences (get value "local") &&
      isChannelPreferences (get value "remote")
  | _ => false
  end.

(** [%] of two doubles: exact, with the sign of the left one. *)
Definition nrem (x y : num) : num :=
  match x, y with
  | Fin a, Fin b => if b =? 0 then NaN else Fin (Z.rem a b)
  | Fin a, Inf _ => Fin a
  | _, _ => NaN
  end.

Definition number_of (v : jsval) : num := default NaN (as_num v).

(** The minute of the day at an offset. *)
Definition minute_of (now offset : num) : num :=
  nrem (nrem (nfloor (now ⊘ int 60000) ⊕ offset) (int 1440) ⊕ int 1440) (int 1440).

Definition in_quiet (q : list (string * jsval)) (now : num) : bool :=
  let start := number_of (get q "startMinute") in
  let stop := number_of (get q "endMinute") in
  let minute := minute_of now (number_of (get q "utcOffsetMinutes")) in
  if start ==# stop then false
  else if start <# stop then (start <=# minute) && (minute <# stop)
  else (start <=# minute) || (minute <# stop).

Definition is_true (v : jsval) : bool := match v with JBool b => b | _ => false end.

Definition is_muted (preferences submission : list (string * jsval)) : bool :=
  match get preferences "mutedProviders" with
  | JArr muted => existsb (fun p => strictly_equal p (get submission "provider")) muted
  | _ => false
  end.

Definition is_snoozed (preferences : list (string * jsval)) (now : num) : bool :=
  match get preferences "snoozedUntil" with JStr until => now <# time_num (date_parse until) | _ => false end.

Definition permits (submission preferences : jsval) (now : num) : bool :=
  match submission, preferences with
  | JObj s, JObj p =>
      isNotificationSubmission submission && isChannelPreferences preferences && is_finite now &&
      is_true (get p "enabled") && negb (is_muted p s) && negb (is_snoozed p now) &&
      match get p "quietHours" with JObj q => negb (in_quiet q now) | _ => true end
  | _, _ => false
  end.

Definition fields_of (v : jsval) : list (string * jsval) := default [] (record_of v).

Definition shouldNotifyLocally (submission preferences : jsval) (now : num) : bool :=
  is_string (get (fields_of submission) "localChannel") "popup" &&
  permits submission (get (fields_of preferences) "local") now.

Definition shouldSendRemote (submission preferences : jsval) (now : num) (remoteNotifications : bool) : bool :=
  remoteNotifications && is_true (get (fields_of submission) "remoteChannel") &&
  permits submission (get (fields_of preferences) "remote") now.

End Notify.

(** ** Keys name events *)

(** What is notified: a change of a meter's window or of a session. *)
Inductive Event :=
| meter_event (provider : string) (account : option string) (meterId cycleId kind : string) (threshold : option Z)
| session_event (provider : string) (account : option string) (sessionId : string) (sequence : Z) (kind : string).

Definition dedupe_key (e : Event) : option string :=
  match e with
  | meter_event p a m c k t => thresholdDedupeKey p a m c k t
  | session_event p a s n k => Some (activityDedupeKey p a s n k)
  end.

Definition parts_of (e : Event) : list jsval :=
  match e with
  | meter_event p a m c k t =>
      [JStr p; or_null JStr a; JStr m; JStr c; JStr k; or_null (fun t => JNum (int t)) t]
  | session_event p a s n k => [JStr p; or_null JStr a; JStr s; JNum (int n); JStr k]
  end.

Definition key_prefix (e : Event) : string := match e with meter_event _ _ _ _ _ _ => "threshold:" | _ => "activity:" end.

(** Its numbers are safe integers. *)
Definition counted (e : Event) : Prop :=
  match e with
  | meter_event _ _ _ _ _ t => from_option (fun t => Z.abs t <= 2 ^ 53 - 1) True t
  | session_event _ _ _ n _ => Z.abs n <= 2 ^ 53 - 1
  end.

Lemma dedupe_key_text e key : dedupe_key e = Some key -> key = key_prefix e +:+ text_of (JArr (parts_of e)).
Proof.
  destruct e; cbn [dedupe_key]; [unfold thresholdDedupeKey; intros E; guard_hyp E as Hk; revert E|]; by intros [= <-].
Qed.

Definition plain_part (v : jsval) : Prop := readable_numbers v /\ unique_keys v /\ plain v = v.

Lemma parts_plain_each e : counted e -> Forall plain_part (parts_of e).
Proof.
  assert (Hnum : forall n, Z.abs n <= 2 ^ 53 - 1 -> plain_part (JNum (int n))).
  { intros n Hn. split_and!; [|done..]. apply representable_int. lia. }
  assert (Hstr : forall s, plain_part (JStr s)) by done. assert (Hnull : plain_part JNull) by done.
  destruct e as [p a m c k t|p a s n k]; intros Hc; cbn [parts_of];
    repeat apply Forall_cons_2; try apply Forall_nil_2; auto; [by destruct a|destruct t; [by apply Hnum|done]|by destruct a].
Qed.

Lemma plain_parts l : Forall plain_part l -> json_parse (text_of (JArr l)) = Some (JArr l).
Proof.
  intros Hl. rewrite json_parse_text.
  - cbn [plain]. do 2 f_equal. induction Hl as [|v l (_ & _ & E) _ IH]; [done|]. cbn [map]. by rewrite E, IH.
  - cbn [readable_numbers]. apply foldr_conj. eapply Forall_impl; [exact Hl|]. by intros v [? _].
  - cbn [unique_keys]. apply foldr_conj. eapply Forall_impl; [exact Hl|]. by intros v (_ & ? & _).
Qed.

Lemma parts_plain e : counted e -> json_parse (text_of (JArr (parts_of e))) = Some (JArr (parts_of e)).
Proof. intros Hc. by apply plain_parts, parts_plain_each. Qed.

(** Two events with one key are one event. *)
Lemma dedupe_key_inj e e' key :
  counted e -> counted e' -> dedupe_key e = Some key -> dedupe_key e' = Some key -> e = e'.
Proof.
  intros Hc Hc' E%dedupe_key_text E'%dedupe_key_text. rewrite E in E'.
  assert (Hint : forall a b, a * one = b * one -> a = b) by (intros a b Eab; pose proof one_pos; nia).
  assert (Hparts : key_prefix e = key_prefix e' -> parts_of e = parts_of e').
  { intros Ep. rewrite Ep in E'. apply str_app_inj_l in E'. pose proof (parts_plain e Hc) as Hp.
    rewrite E', (parts_plain e' Hc') in Hp. by injection Hp. }
  destruct e as [p a m c k t|p a s n k], e' as [p' a' m' c' k' t'|p' a' s' n' k']; try done; specialize (Hparts eq_refl);
    injection Hparts.
  - intros Ht -> -> -> Ha ->. f_equal; [destruct a, a'; try done; by injection Ha as ->|].
    destruct t as [t|], t' as [t'|]; try done. by injection Ht as ->%Hint.
  - intros -> Hn -> Ha ->. apply Hint in Hn as ->. f_equal. destruct a, a'; try done. by injection Ha as ->.
Qed.

(** ** Keys are short *)

Lemma quote_char_short c : negb ((code c <? 32) || (code c =? 127)) = true -> str_length (quote_char c) <= 2.
Proof. by destruct c as [[] [] [] [] [] [] [] []]. Qed.

Lemma quoted_short s :
  str_forall (fun c => negb ((code c <? 32) || (code c =? 127))) s = true -> str_length (quoted s) <= 2 + 2 * str_length s.
Proof.
  intros Hs. unfold quoted. rewrite !str_length_app. change (str_length double_quote) with 1.
  enough (str_length (str_concat_map quote_char s) <= 2 * str_length s) by lia.
  induction s as [|c s IH]; [done|]. cbn [str_forall] in Hs. apply andb_true_iff in Hs as [Hc Hs].
  cbn [str_concat_map str_length]. rewrite str_length_app. pose proof (quote_char_short c Hc). specialize (IH Hs). lia.
Qed.

Lemma natural_text_short n : 0 <= n <= 2 ^ 53 - 1 -> str_length (text_of (JNum (int n))) <= 25.
Proof.
  intros Hn. change (text_of (JNum (int n))) with (number_text (int n)). unfold number_text, int. pose proof one_pos.
  destruct (Z.eqb_spec (n * one) 0); [done|]. rewrite (proj2 (Z.ltb_ge _ _)) by nia.
  apply positive_text_short; [apply representable_int; lia|nia].
Qed.

(** ** Keys are accepted *)

(** What the callers hand over: a provider, texts that are identifiers, a kind
    of its group and the number the kind asks for. *)
Definition valid_event (e : Event) : Prop :=
  match e with
  | meter_event p a m c k t =>
      p ∈ NOTIFICATION_PROVIDERS /\ account (or_null JStr a) = true /\ textId (JStr m) = true /\ textId (JStr c) = true /\
      ((k = "threshold" /\ exists n, t = Some n /\ (n = 60 \/ n = 80 \/ n = 90)) \/
       ((k = "limit_reached" \/ k = "reset") /\ t = None))
  | session_event p a s n k =>
      p ∈ NOTIFICATION_PROVIDERS /\ account (or_null JStr a) = true /\ textId (JStr s) = true /\ 0 <= n <= 2 ^ 53 - 1 /\
      (k = "agent_waiting" \/ k = "agent_done")
  end.

Definition event_provider (e : Event) : string :=
  match e with meter_event p _ _ _ _ _ => p | session_event p _ _ _ _ => p end.
Definition event_account (e : Event) : option string :=
  match e with meter_event _ a _ _ _ _ => a | session_event _ a _ _ _ => a end.
Definition event_kind (e : Event) : string :=
  match e with meter_event _ _ _ _ k _ => k | session_event _ _ _ _ k => k end.

Definition submission (e : Event) (key channel : string) (remote : bool) : list (string * jsval) :=
  [("kind", JStr (event_kind e)); ("dedupeKey", JStr key); ("provider", JStr (event_provider e));
   ("account", or_null JStr (event_account e)); ("localChannel", JStr channel); ("remoteChannel", JBool remote)].

Lemma valid_counted e : valid_event e -> counted e.
Proof.
  destruct e as [p a m c k t|p a s n k]; simpl.
  - by intros (_ & _ & _ & _ & [(_ & n & -> & Hn)|[_ ->]]); [simpl; lia|].
  - intros (_ & _ & _ & Hn & _). lia.
Qed.

Lemma valid_has_key e : valid_event e -> exists key, dedupe_key e = Some key.
Proof.
  destruct e as [p a m c k t|p a s n k]; simpl; [|by eexists].
  intros (_ & _ & _ & _ & [(-> & n & -> & _)|[[->| ->] ->]]); by eexists.
Qed.

Lemma textId_short s : textId (JStr s) = true -> str_length (text_of (JStr s)) <= 514.
Proof.
  unfold textId. intros Ht. apply andb_true_iff in Ht as [[_ Hl%Z.leb_le]%andb_true_iff Hf].
  change (text_of (JStr s)) with (quoted s). pose proof (quoted_short s Hf). lia.
Qed.

Lemma account_short a : account (or_null JStr a) = true -> str_length (text_of (or_null JStr a)) <= 514.
Proof. destruct a as [a|]; [apply textId_short|]. intros _. by vm_compute. Qed.

Lemma provider_short p : p ∈ NOTIFICATION_PROVIDERS -> str_length (text_of (JStr p)) <= 13.
Proof.
  assert (Hall : forallb (fun p => str_length (text_of (JStr p)) <=? 13) NOTIFICATION_PROVIDERS = true) by by vm_compute.
  intros Hp%list_elem_of_In. rewrite forallb_forall in Hall. specialize (Hall p Hp). lia.
Qed.

Lemma array_text_short l :
  str_length (text_of (JArr l)) <= 2 + foldr (fun s n => str_length s + 1 + n) 0 (map text_of l).
Proof.
  change (text_of (JArr l)) with ("[" +:+ join "," (map text_of l) +:+ "]").
  rewrite !str_length_app. change (str_length "[") with 1. change (str_length "]") with 1.
  pose proof (join_short (map text_of l)). lia.
Qed.

Lemma valid_key_short e key : valid_event e -> dedupe_key e = Some key -> str_length key <= 2048.
Proof.
  intros Hv ->%dedupe_key_text. rewrite str_length_app. pose proof (array_text_short (parts_of e)) as Ha.
  destruct e as [p a m c k t|p a s n k]; cbn [valid_event parts_of map foldr key_prefix] in *.
  - destruct Hv as (Hp%provider_short & Hac%account_short & Hm%textId_short & Hc%textId_short & Hk).
    assert (Hks : str_length (text_of (JStr k)) <= 15) by (by destruct Hk as [(-> & _)|[[->| ->] _]]).
    assert (Hts : str_length (text_of (or_null (fun t => JNum (int t)) t)) <= 4)
      by (by destruct Hk as [(_ & n & -> & [->|[->| ->]])|[_ ->]]; vm_compute).
    change (str_length "threshold:") with 10. lia.
  - destruct Hv as (Hp%provider_short & Hac%account_short & Hs%textId_short & Hn%natural_text_short & Hk).
    assert (Hks : str_length (text_of (JStr k)) <= 15) by (by destruct Hk as [->| ->]).
    change (str_length "activity:") with 9. lia.
Qed.

Lemma parts_agree e key channel remote :
  valid_event e -> parts_ok (submission e key channel remote) (is_activity (submission e key channel remote)) (parts_of e) = true.
Proof.
  intros Hv. unfold parts_ok, is_activity, submission.
  repeat (rewrite get_cons_eq || rewrite get_cons_ne by discriminate).
  destruct e as [p a m c k t|p a s n k]; cbn [valid_event parts_of event_provider event_account event_kind] in *.
  - destruct Hv as (_ & _ & Hm & Hc & Hk).
    assert (Ha : strictly_equal (or_null JStr a) (or_null JStr a) = true) by (destruct a; [apply str_eqb_refl|done]).
    destruct Hk as [(-> & n & -> & Hn)|[[->| ->] ->]]; unfold nth_part; cbn; rewrite str_eqb_refl, Ha; simpl in Hm, Hc;
      rewrite Hm, Hc; cbn; try done. by destruct Hn as [->|[->| ->]]; vm_compute.
  - destruct Hv as (_ & _ & Hs & Hn & Hk).
    assert (Ha : strictly_equal (or_null JStr a) (or_null JStr a) = true) by (destruct a; [apply str_eqb_refl|done]).
    assert (Hi : as_safe_int (JNum (int n)) = Some n) by (unfold as_safe_int; cbn; apply to_safe_int_int; lia).
    destruct Hk as [->| ->]; unfold nth_part; cbn -[as_safe_int int]; rewrite Hi;
      cbn; rewrite Ha; simpl in Hs; rewrite Hs; rewrite !andb_true_iff; split_and!;
      first [apply str_eqb_refl|rewrite (proj2 (Z.leb_le 0 n) (proj1 Hn)); by vm_compute|done].
Qed.

Lemma submission_accepted e key channel remote :
  valid_event e -> dedupe_key e = Some key -> channel = "popup" \/ channel = "none" ->
  isNotificationSubmission (JObj (submission e key channel remote)) = true.
Proof.
  intros Hv Hk Hch. pose proof (valid_key_short e key Hv Hk) as Hshort. pose proof (dedupe_key_text e key Hk) as Htext.
  pose proof (parts_agree e key channel remote Hv) as Hparts. pose proof (parts_plain e (valid_counted e Hv)) as Hplain.
  unfold isNotificationSubmission. rewrite !andb_true_iff. split_and!.
  - apply forallb_forall. intros kv Hin%list_elem_of_In. apply bool_decide_eq_true.
    unfold submission in Hin. rewrite !elem_of_cons in Hin. destruct Hin as [->|[->|[->|[->|[->|[->|[]%elem_of_nil]]]]]];
      apply (bool_decide_unpack _); vm_compute; exact I.
  - unfold submission. rewrite get_cons_eq. unfold is_member. apply bool_decide_eq_true.
    destruct e as [p a m c k t|p a s n k]; simpl in *;
      [destruct Hv as (_ & _ & _ & _ & [(-> & _)|[[->| ->] _]])|destruct Hv as (_ & _ & _ & _ & [->| ->])];
      apply (bool_decide_unpack _); vm_compute; exact I.
  - unfold submission. repeat (rewrite get_cons_eq || rewrite get_cons_ne by discriminate).
    apply bool_decide_eq_true. destruct e; apply Hv.
  - unfold submission. repeat (rewrite get_cons_eq || rewrite get_cons_ne by discriminate). destruct e; apply Hv.
  - unfold submission. repeat (rewrite get_cons_eq || rewrite get_cons_ne by discriminate). by destruct Hch as [->| ->].
  - unfold submission. by repeat (rewrite get_cons_eq || rewrite get_cons_ne by discriminate).
  - unfold validDedupeKey. set (value := submission e key channel remote) in *.
    assert (Eg : get value "dedupeKey" = JStr key)
      by (unfold value, submission; by repeat (rewrite get_cons_eq || rewrite get_cons_ne by discriminate)).
    rewrite Eg. cbv zeta. rewrite (proj2 (Z.leb_le _ _) Hshort).
    assert (Ep : (if is_activity value then "activity:" else "threshold:") = key_prefix e).
    { unfold is_activity, value, submission. rewrite get_cons_eq.
      destruct e as [p a m c k t|p a s n k]; simpl in *;
        [by destruct Hv as (_ & _ & _ & _ & [(-> & _)|[[->| ->] _]])|by destruct Hv as (_ & _ & _ & _ & [->| ->])]. }
    rewrite Ep. assert (Ea : after_prefix (key_prefix e) key = Some (text_of (JArr (parts_of e))))
      by (by apply after_prefix_Some).
    rewrite Ea, Hplain, <- Htext, str_eqb_refl. exact Hparts.
Qed.

(** C26: A key names one event, and the boundary takes it. Of every event the callers
    can hand over, whatever texts its identifiers are made of, a key is made
    that is short enough, parses back to the event's parts and passes every
    check of a submission; and no other event has the same key. *)
Theorem a_key_names_one_event e :
  valid_event e ->
  exists key, dedupe_key e = Some key /\
    (forall channel remote, channel = "popup" \/ channel = "none" ->
       isNotificationSubmission (JObj (submission e key channel remote)) = true) /\
    (forall e', valid_event e' -> dedupe_key e' = Some key -> e' = e).
Proof.
  intros Hv. destruct (valid_has_key e Hv) as [key Hk]. exists key. split; [done|]. split.
  - intros channel remote. by apply submission_accepted.
  - intros e' Hv' Hk'. apply (dedupe_key_inj e' e key); try done; by apply valid_counted.
Qed.

Lemma a_key_names_one_event_witness :
  exists key, dedupe_key (meter_event "CLAUDE" None "FIVE_HOUR" "cycle" "threshold" (Some 80)) = Some key /\
    isNotificationSubmission
      (JObj (submission (meter_event "CLAUDE" None "FIVE_HOUR" "cycle" "threshold" (Some 80)) key "popup" true)) = true.
Proof.
  destruct (a_key_names_one_event (meter_event "CLAUDE" None "FIVE_HOUR" "cycle" "threshold" (Some 80))) as (key & Hk & Hs & _).
  - split_and!; [apply (bool_decide_unpack _); vm_compute; exact I|by vm_compute..|]. left. split; [done|]. exists 80. auto.
  - exists key. split; [exact Hk|]. apply Hs. by left.
Defined.

(** ** Quiet hours *)

Section Quiet.
Context `{DateHost}.

(** The minute of the day of an instant in milliseconds. *)
Definition local_minute (n offset : Z) : Z := (n / 60000 + offset) mod 1440.

(** The quotient of a division is never rounded up to the next minute. *)
Lemma whole_minutes n : 0 <= n < 2 ^ 37 * 60000 -> nfloor (int n ⊘ int 60000) = int (n / 60000).
Proof.
  intros Hn. pose proof one_pos as H1. set (q := n / 60000).
  assert (Hq : 0 <= q < 2 ^ 37 /\ q * 60000 <= n < q * 60000 + 60000) by (unfold q; Z.div_mod_to_equations; lia).
  set (half := 2 ^ 1058). assert (Hhalf : one = 65536 * half) by (by vm_compute). assert (0 < half) by (by vm_compute).
  set (y := ((q + 1) * 65536 - 1) * half).
  assert (Hy : representable y).
  { split.
    - assert (Hb : overflow_bound = 2 ^ 1040 * half) by (by vm_compute).
      assert (2 ^ 54 < 2 ^ 1040) by (by vm_compute). rewrite Hb, Z.abs_eq by (unfold y; nia). unfold y. nia.
    - exists ((q + 1) * 65536 - 1), 1058. split_and!; [lia|lia| |rewrite Z.abs_eq by (unfold y; nia); done].
      change (2 ^ 53) with (2 ^ 37 * 65536). lia. }
  assert (Ed : int n ⊘ int 60000 = round_ratio (n * one * one) (60000 * one)).
  { unfold int, ndiv. rewrite (proj2 (Z.eqb_neq (60000 * one) 0)) by lia. by rewrite Z.sgn_pos, Z.mul_1_r, Z.abs_eq by lia. }
  assert (Hlo : (Fin (q * one) <=# int n ⊘ int 60000) = true).
  { rewrite Ed, <- (round_exact (q * one) 1) by (lia || apply representable_int; lia). apply round_ratio_mono; nia. }
  assert (Hhi : (int n ⊘ int 60000 <=# Fin y) = true).
  { rewrite Ed, <- (round_exact y 1) by (lia || done). apply round_ratio_mono; [nia|lia|].
    unfold y. rewrite Hhalf. assert (65536 * n <= 60000 * ((q + 1) * 65536 - 1)) by lia. nia. }
  destruct (nle_between _ _ _ Hlo Hhi) as (w & -> & Hw). unfold nfloor, int. do 2 f_equal.
  symmetry. apply Z.div_unique with (w - q * one); [|lia]. left. unfold y in Hw. nia.
Qed.

Lemma nrem_int a b : b <> 0 -> nrem (int a) (int b) = int (Z.rem a b).
Proof.
  intros Hb. pose proof one_pos. unfold nrem, int. rewrite (proj2 (Z.eqb_neq _ _)) by nia.
  by rewrite Z.mul_rem_distr_r by lia.
Qed.

Lemma minute_exact n offset :
  0 <= n < 2 ^ 37 * 60000 -> -840 <= offset <= 840 -> minute_of (int n) (int offset) = int (local_minute n offset).
Proof.
  intros Hn Ho. unfold minute_of. rewrite whole_minutes by done.
  assert (Hq : 0 <= n / 60000 < 2 ^ 37) by (Z.div_mod_to_equations; lia).
  set (m := n / 60000 + offset). rewrite nadd_int by lia. fold m. rewrite nrem_int by done.
  pose proof (Z.rem_bound_abs m 1440 ltac:(done)). rewrite nadd_int, nrem_int by lia. f_equal.
  unfold local_minute. fold m. rewrite Z.rem_mod_nonneg by lia.
  pose proof (Z.quot_rem' m 1440) as Em.
  rewrite <- (Z.mod_add (Z.rem m 1440 + 1440) (Z.quot m 1440 - 1) 1440) by done. f_equal. lia.
Qed.

(** Before [start], on a clock that turns every day, or not before [stop]. *)
Lemma quiet_cycle start stop minute :
  0 <= start < 1440 -> 0 <= stop < 1440 -> 0 <= minute < 1440 ->
  (if start =? stop then false
   else if start <? stop then (start <=? minute) && (minute <? stop) else (start <=? minute) || (minute <? stop)) =
  ((minute - start) mod 1440 <? (stop - start) mod 1440).
Proof.
  intros Hs Ht Hm.
  assert (Hmod : forall a, -1440 < a < 1440 -> a mod 1440 = if a <? 0 then a + 1440 else a).
  { intros a Ha. destruct (Z.ltb_spec a 0); [|by rewrite Z.mod_small by lia].
    rewrite <- (Z.mod_add a 1 1440) by done. by rewrite Z.mod_small by lia. }
  rewrite !Hmod by lia. destruct (Z.ltb_spec (minute - start) 0), (Z.ltb_spec (stop - start) 0);
    destruct (Z.eqb_spec start stop); [subst| |subst| |subst| |subst|];
    repeat match goal with |- context [?a <? ?b] => destruct (Z.ltb_spec a b); try lia
           | |- context [?a <=? ?b] => destruct (Z.leb_spec a b); try lia end; done.
Qed.
Lemma integer_from_int lo hi v : integer_from lo hi v = true -> exists n, v = JNum (int n) /\ lo <= n <= hi.
Proof.
  unfold integer_from. destruct v as [| | |x| | |]; try done. cbn [as_num mbind option_bind].
  destruct (to_int x) as [n|] eqn:E; [|done]. intros Hn. exists n. split; [f_equal; by apply to_int_Some|]. bools. lia.
Qed.

(** What quiet hours say: minutes, and an offset of at most fourteen hours. *)
Lemma quiet_fields q :
  quiet_ok (JObj q) = true ->
  exists start stop offset, get q "startMinute" = JNum (int start) /\ get q "endMinute" = JNum (int stop) /\
    get q "utcOffsetMinutes" = JNum (int offset) /\ 0 <= start < 1440 /\ 0 <= stop < 1440 /\ -840 <= offset <= 840.
Proof.
  unfold quiet_ok. intros Hq. apply andb_true_iff in Hq as [[[_ Hs]%andb_true_iff He]%andb_true_iff Ho].
  apply integer_from_int in Hs as (start & Es & Hs), He as (stop & Ee & He), Ho as (offset & Eo & Ho).
  exists start, stop, offset. split_and!; (done || lia).
Qed.

Lemma in_quiet_cycle q n start stop offset :
  0 <= n < 2 ^ 37 * 60000 -> 0 <= start < 1440 -> 0 <= stop < 1440 -> -840 <= offset <= 840 ->
  get q "startMinute" = JNum (int start) -> get q "endMinute" = JNum (int stop) ->
  get q "utcOffsetMinutes" = JNum (int offset) ->
  in_quiet q (int n) = ((local_minute n offset - start) mod 1440 <? (stop - start) mod 1440).
Proof.
  intros Hn Hs Ht Ho Es Et Eo. unfold in_quiet, number_of. rewrite Es, Et, Eo. cbn [as_num from_option]. unfold id.
  rewrite minute_exact, !int_eq, !int_lt, !int_le by done. apply quiet_cycle; try done.
  unfold local_minute. by apply Z.mod_pos_bound.
Qed.

(** C27: A submission is shown or sent exactly when its channel is on, its provider
    is not muted, the snooze is over, and the local minute is outside the quiet
    hours. Those are an interval of the day's cycle: from the start up to but
    not including the end, over midnight when the end comes first, and nothing
    when both are one minute. This holds for every instant from 1970 for more
    than two hundred thousand years: no division is rounded to a wrong minute. *)
Theorem quiet_hours_are_a_cycle s p n :
  isNotificationSubmission (JObj s) = true -> isChannelPreferences (JObj p) = true -> 0 <= n < 2 ^ 37 * 60000 ->
  permits (JObj s) (JObj p) (int n) = true <->
    get p "enabled" = JBool true /\ is_muted p s = false /\
    (forall until, get p "snoozedUntil" = JStr until -> exists t, date_parse until = Some t /\ t <= n) /\
    (forall q start stop offset, get p "quietHours" = JObj q ->
       get q "startMinute" = JNum (int start) -> get q "endMinute" = JNum (int stop) ->
       get q "utcOffsetMinutes" = JNum (int offset) ->
       (stop - start) mod 1440 <= (local_minute n offset - start) mod 1440).
Proof.
  intros Hs Hp Hn. unfold permits. rewrite Hs, Hp. cbn [andb is_finite int].
  unfold isChannelPreferences in Hp. rewrite !andb_true_iff in Hp. destruct Hp as [[[[_ Hen] Hsn] _] Hq].
  rewrite !andb_true_iff, !negb_true_iff.
  assert (Een : is_true (get p "enabled") = true <-> get p "enabled" = JBool true)
    by (destruct (get p "enabled") as [| |[]| | | |]; split; done || by intros [=]).
  assert (Esn : is_snoozed p (int n) = false <->
    forall until, get p "snoozedUntil" = JStr until -> exists t, date_parse until = Some t /\ t <= n).
  { unfold is_snoozed. destruct (get p "snoozedUntil") as [| | | |until| |]; try (split; [by intros _ ? [=]|done]).
    unfold isContractInstant in Hsn. apply andb_true_iff in Hsn as [_ Hiso].
    destruct (is_iso_instant_parse until Hiso) as (t & Et & _). rewrite Et. cbn [time_num]. rewrite int_lt, Z.ltb_ge. split.
    - intros Ht ? [= <-]. by exists t.
    - intros Hall. destruct (Hall until eq_refl) as (t' & Et' & Ht). rewrite Et in Et'. by injection Et' as <-. }
  assert (Equ : match get p "quietHours" with JObj q => negb (in_quiet q (int n)) | _ => true end = true <->
    forall q start stop offset, get p "quietHours" = JObj q ->
       get q "startMinute" = JNum (int start) -> get q "endMinute" = JNum (int stop) ->
       get q "utcOffsetMinutes" = JNum (int offset) -> (stop - start) mod 1440 <= (local_minute n offset - start) mod 1440).
  { destruct (get p "quietHours") as [| | | | | |q]; try (split; [by intros _ ? ? ? ? [=]|done]).
    destruct (quiet_fields q Hq) as (start & stop & offset & Es & Et & Eo & Hst & Hsp & Hof).
    rewrite (in_quiet_cycle q n start stop offset), negb_true_iff, Z.ltb_ge by done. split.
    - intros Hle ? start' stop' offset' [= <-]. rewrite Es, Et, Eo. intros E1 E2 E3. injection E1 as E1. injection E2 as E2.
      injection E3 as E3. pose proof one_pos. assert (start' = start /\ stop' = stop /\ offset' = offset) as (-> & -> & ->) by nia.
      exact Hle.
    - intros Hall. by apply (Hall q). }
  rewrite Een, Esn, Equ. naive_solver.
Qed.

End Quiet.

Definition sample_event : Event := meter_event "CLAUDE" None "FIVE_HOUR" "cycle" "threshold" (Some 80).

Definition sample_submission : list (string * jsval) :=
  submission sample_event (default "" (dedupe_key sample_event)) "popup" true.

(** Quiet from ten in the evening to seven in the morning, two hours east. *)
Definition sample_preferences : list (string * jsval) :=
  [("enabled", JBool true); ("snoozedUntil", JNull); ("mutedProviders", JArr [JStr "GROK"]);
   ("quietHours", JObj [("startMinute", JNum (int 1320)); ("endMinute", JNum (int 420));
                        ("utcOffsetMinutes", JNum (int 120))])].

(** Noon of the first of January 2026, and eleven hours later. *)
Lemma quiet_hours_are_a_cycle_witness :
  permits (H:=strict_host) (JObj sample_submission) (JObj sample_preferences) (int 1767268800000) = true /\
  permits (H:=strict_host) (JObj sample_submission) (JObj sample_preferences) (int 1767308400000) = false.
Proof.
  split; [|by vm_compute].
  apply (quiet_hours_are_a_cycle (H:=strict_host) sample_submission sample_preferences 1767268800000);
    [by vm_compute|by vm_compute|lia|].
  split_and!; [done|by vm_compute|by intros ? [=]|].
  intros q start stop offset [= <-]. cbn. intros E1 E2 E3. injection E1 as E1. injection E2 as E2. injection E3 as E3.
  pose proof one_pos. assert (start = 1320 /\ stop = 420 /\ offset = 120) as (-> & -> & ->) by nia. by vm_compute.
Defined.
