(* ===== verification/Config.v ===== *)
(** * The stored configuration

    [cli/src/config.ts], the [config] command of [cli/src/cli.ts] and
    [terminalVisibility] of [cli/src/terminal.ts]: how the statusline layout and
    the Claude request switch are read from a file anyone may have edited, how
    one key is set from the command line, what [config get] prints, and what
    every command leaves on disk.

    A file system call may fail: an operation that writes takes, as [fate], the
    outcome of its lock checks and of its writes. The objects [hosts] and
    [visibility] are lists in insertion order, with distinct keys; [equiv]
    forgets that order, as the canonical text of a document does. *)
From S2P Require Import Prelude JsNum JsDate JsValue Text Json ReadBack Files Store.
Local Open Scope string_scope.
Local Open Scope Z_scope.
Local Open Scope list_scope.
Local Open Scope js_scope.

(** ** The vocabularies *)

Inductive StatuslineMeters := worst | every_meter.
Inductive StatuslineColor := color_auto | color_always | color_never.
Inductive StatuslineStyle := style_bar | style_cells.
Inductive StatuslineCaptions := captions_short | captions_tagged.
Inductive StatuslineKey :=
| key_order | key_meters | key_width | key_rows | key_bars | key_color | key_style | key_captions
| key_show | key_hosts.
Inductive ShowMode := show_auto | show_explicit.

#[export] Instance StatuslineMeters_eq : EqDecision StatuslineMeters.
Proof. solve_decision. Defined.
#[export] Instance StatuslineColor_eq : EqDecision StatuslineColor.
Proof. solve_decision. Defined.
#[export] Instance StatuslineStyle_eq : EqDecision StatuslineStyle.
Proof. solve_decision. Defined.
#[export] Instance StatuslineCaptions_eq : EqDecision StatuslineCaptions.
Proof. solve_decision. Defined.
#[export] Instance StatuslineKey_eq : EqDecision StatuslineKey.
Proof. solve_decision. Defined.
#[export] Instance ShowMode_eq : EqDecision ShowMode.
Proof. solve_decision. Defined.

#[export] Instance statusline_meters : Closed StatuslineMeters := {
  all_of := [worst; every_meter];
  name_of m := match m with worst => "worst" | every_meter => "all" end }.

#[export] Instance statusline_colors : Closed StatuslineColor := {
  all_of := [color_auto; color_always; color_never];
  name_of c :=
    match c with color_auto => "auto" | color_always => "always" | color_never => "never" end }.

#[export] Instance statusline_styles : Closed StatuslineStyle := {
  all_of := [style_bar; style_cells];
  name_of s := match s with style_bar => "bar" | style_cells => "cells" end }.

#[export] Instance statusline_captions : Closed StatuslineCaptions := {
  all_of := [captions_short; captions_tagged];
  name_of c := match c with captions_short => "short" | captions_tagged => "tagged" end }.

#[export] Instance STATUSLINE_KEYS : Closed StatuslineKey := {
  all_of := [key_order; key_meters; key_width; key_rows; key_bars; key_color; key_style;
             key_captions; key_show; key_hosts];
  name_of k :=
    match k with
    | key_order => "order" | key_meters => "meters" | key_width => "width" | key_rows => "rows"
    | key_bars => "bars" | key_color => "color" | key_style => "style"
    | key_captions => "captions" | key_show => "show" | key_hosts => "hosts"
    end }.

#[export] Instance statusline_meters_laws : ClosedLaws StatuslineMeters.
Proof. solve_closed. Qed.
#[export] Instance statusline_colors_laws : ClosedLaws StatuslineColor.
Proof. solve_closed. Qed.
#[export] Instance statusline_styles_laws : ClosedLaws StatuslineStyle.
Proof. solve_closed. Qed.
#[export] Instance statusline_captions_laws : ClosedLaws StatuslineCaptions.
Proof. solve_closed. Qed.
#[export] Instance STATUSLINE_KEYS_laws : ClosedLaws StatuslineKey.
Proof. solve_closed. Qed.

(** [connectors.map((connector) => connector.id)] *)
Definition connectorIds : list string :=
  ["claude"; "openrouter"; "codex"; "cursor"; "antigravity"; "gemini_cli"; "opencode"; "grok";
   "kimi"; "manual"].

Definition TERMINAL_SEGMENTS : list string := ["model"; "effort"; "dir"; "ctx"; "style"; "5h"; "7d"].
Definition TERMINAL_METER_SEGMENTS : list string :=
  ["fable"; "opus"; "sonnet"; "haiku"; "oauth-apps"; "extra"].

Definition MONEY_TAGS : list (string * string) :=
  [("openai", "oa"); ("anthropic", "an"); ("xai", "xa"); ("moonshot", "ms"); ("deepseek", "ds")].

(** What a visibility switch may name. *)
Definition visibility_keys : list string :=
  TERMINAL_SEGMENTS ++ TERMINAL_METER_SEGMENTS ++ connectorIds ++ MONEY_TAGS.*1.

(** [PROVIDER_SHORT_TAGS], by the provider's code in lower case. *)
Definition PROVIDER_SHORT_TAGS : list (string * string) :=
  [("claude", "cl"); ("codex", "cx"); ("antigravity", "ag"); ("gemini_cli", "gm"); ("grok", "gk");
   ("kimi", "km"); ("cursor", "cu"); ("opencode", "oc"); ("openrouter", "or"); ("manual", "mn")].

Definition MIN_STATUSLINE_WIDTH : Z := 40.
Definition MAX_STATUSLINE_WIDTH : Z := 400.

(** [toLowerCase] over every one byte unit: the letters of Latin-1 too. *)
Definition latin_lower (c : ascii) : ascii :=
  if is_upper c || in_range 192 222 c && negb (code c =? 215) then chr (code c + 32) else c.
Definition lowerCase : string -> string := str_map latin_lower.

(** ** The statusline section *)

Record StatuslineConfig := {
  sl_order : list string;
  sl_meters : StatuslineMeters;
  sl_width : Z;
  sl_rows : Z;
  sl_wrap : option bool;
  sl_bars : bool;
  sl_color : StatuslineColor;
  sl_style : StatuslineStyle;
  sl_captions : StatuslineCaptions;
  sl_show : list string;
  sl_showMode : option ShowMode;
  sl_visibility : option (list (string * bool));
  sl_hosts : list (string * string) }.

Definition DEFAULT_STATUSLINE : StatuslineConfig :=
  {| sl_order := []; sl_meters := every_meter; sl_width := 140; sl_rows := 2; sl_wrap := None;
     sl_bars := true; sl_color := color_auto; sl_style := style_bar;
     sl_captions := captions_short; sl_show := []; sl_showMode := None; sl_visibility := None;
     sl_hosts := [] |}.

Fixpoint read_order (entries : list jsval) (order : list string) : option (list string) :=
  match entries with
  | [] => Some order
  | entry :: entries =>
      let? s := as_string entry in
      let id := lowerCase s in
      check bool_decide (id ∈ connectorIds) && negb (bool_decide (id ∈ order));;
      read_order entries (order ++ [id])
  end.

Definition normalizeOrder (v : jsval) : option (list string) :=
  let? entries := as_array v in
  check (length entries <=? length connectorIds)%nat;;
  read_order entries [].

(** A whole number within these bounds is a safe integer. *)
Definition normalizeWidth (v : jsval) : option Z :=
  let? n := as_safe_int v in
  check (MIN_STATUSLINE_WIDTH <=? n) && (n <=? MAX_STATUSLINE_WIDTH);;
  Some n.

Definition push_shown (show : list string) (id : string) : list string :=
  if negb (str_eqb id "") && negb (bool_decide (id ∈ show)) then show ++ [id] else show.

Fixpoint read_show (entries : list jsval) (show : list string) : option (list string) :=
  match entries with
  | [] => Some show
  | entry :: entries =>
      let? s := as_string entry in read_show entries (push_shown show (trim (lowerCase s)))
  end.

Definition normalizeShow (v : jsval) : option (list string) :=
  let? entries := as_array v in read_show entries [].

(** [hosts[k] = v]: on a plain object the key [__proto__] is the prototype's
    accessor, which ignores a string. *)
Definition set_host (hosts : list (string * string)) (k v : string) : list (string * string) :=
  if str_eqb k "__proto__" then hosts else assoc_set k v hosts.

Definition normalizeHosts (v : jsval) : list (string * string) :=
  match v with
  | JObj fs =>
      foldl (fun hosts kv =>
        match kv.2 with JStr s => set_host hosts (lowerCase kv.1) s | _ => hosts end) [] fs
  | _ => sl_hosts DEFAULT_STATUSLINE
  end.

(** [Object.fromEntries] *)
Definition from_entries {V} (entries : list (string * V)) : list (string * V) :=
  foldl (fun m kv => assoc_set kv.1 kv.2 m) [] entries.

Definition visibility_entry (kv : string * jsval) : option (string * bool) :=
  match kv.2 with
  | JBool b => check bool_decide (kv.1 ∈ visibility_keys);; Some (kv.1, b)
  | _ => None
  end.

Definition as_bool (v : jsval) : option bool := match v with JBool b => Some b | _ => None end.

Definition normalizeStatusline (v : jsval) : StatuslineConfig :=
  match v with
  | JObj fs =>
      let d := DEFAULT_STATUSLINE in
      {| sl_order := default (sl_order d) (normalizeOrder (get fs "order"));
         sl_meters := default (sl_meters d) (read_name (get fs "meters"));
         sl_width := default (sl_width d) (normalizeWidth (get fs "width"));
         sl_rows :=
           if is_number (get fs "rows") 1 then 1
           else if is_number (get fs "rows") 2 then 2 else sl_rows d;
         sl_wrap := match get fs "wrap" with JBool false => Some false | _ => None end;
         sl_bars := default (sl_bars d) (as_bool (get fs "bars"));
         sl_color := default (sl_color d) (read_name (get fs "color"));
         sl_style := default (sl_style d) (read_name (get fs "style"));
         sl_captions := default (sl_captions d) (read_name (get fs "captions"));
         sl_show := default (sl_show d) (normalizeShow (get fs "show"));
         sl_showMode :=
           if is_string (get fs "showMode") "explicit" then Some show_explicit else None;
         sl_visibility :=
           (let? entries := record_of (get fs "visibility") in
            Some (from_entries (omap visibility_entry entries)));
         sl_hosts := normalizeHosts (get fs "hosts") |}
  | _ => DEFAULT_STATUSLINE
  end.

(** ** One key as text *)

Definition list_text (l : list string) : string :=
  match l with [] => "NONE" | _ => join "," l end.

Definition bool_text (b : bool) : string := if b then "true" else "false".

Definition statuslineValueText (sl : StatuslineConfig) (key : StatuslineKey) : string :=
  match key with
  | key_order => list_text (sl_order sl)
  | key_meters => name_of (sl_meters sl)
  | key_width => decimal (sl_width sl)
  | key_rows => decimal (sl_rows sl)
  | key_bars => bool_text (sl_bars sl)
  | key_color => name_of (sl_color sl)
  | key_style => name_of (sl_style sl)
  | key_captions => name_of (sl_captions sl)
  | key_show => list_text (sl_show sl)
  | key_hosts => list_text (map (fun kv => kv.1 +:+ ":" +:+ kv.2) (sl_hosts sl))
  end.

Definition is_none (value : string) : bool :=
  str_eqb value "" || str_eqb value "NONE" || str_eqb value "none".

(** [value.split(",")] *)
Definition pieces (value : string) : list string := split_on "," value "".

Definition strings (l : list string) : jsval := JArr (map JStr l).

Definition host_pair (hosts : list (string * string)) (pair : string) : list (string * string) :=
  match split_on ":" pair "" with
  | [h; s] =>
      if negb (str_eqb (trim h) "") && negb (str_eqb (trim s) "")
      then set_host hosts (lowerCase (trim h)) (trim s) else hosts
  | _ => hosts
  end.

(** [/^\d{1,4}$/u.test(value) ? normalizeWidth(Number(value)) : null] *)
Definition width_of (value : string) : option Z :=
  check negb (str_eqb value "") && str_forall is_digit value && (str_length value <=? 4);;
  normalizeWidth (JNum (int (digits_value 0 value))).

Definition rows_of (value : string) : option Z :=
  if str_eqb value "1" then Some 1 else if str_eqb value "2" then Some 2 else None.

Definition bool_of (value : string) : option bool :=
  if str_eqb value "true" then Some true else if str_eqb value "false" then Some false else None.

(** [{ ...statusline, key: value }] *)
Definition with_order (sl : StatuslineConfig) (x : list string) : StatuslineConfig :=
  {| sl_order := x; sl_meters := sl_meters sl; sl_width := sl_width sl; sl_rows := sl_rows sl;
     sl_wrap := sl_wrap sl; sl_bars := sl_bars sl; sl_color := sl_color sl;
     sl_style := sl_style sl; sl_captions := sl_captions sl; sl_show := sl_show sl;
     sl_showMode := sl_showMode sl; sl_visibility := sl_visibility sl;
     sl_hosts := sl_hosts sl |}.

Definition with_meters (sl : StatuslineConfig) (x : StatuslineMeters) : StatuslineConfig :=
  {| sl_order := sl_order sl; sl_meters := x; sl_width := sl_width sl; sl_rows := sl_rows sl;
     sl_wrap := sl_wrap sl; sl_bars := sl_bars sl; sl_color := sl_color sl;
     sl_style := sl_style sl; sl_captions := sl_captions sl; sl_show := sl_show sl;
     sl_showMode := sl_showMode sl; sl_visibility := sl_visibility sl;
     sl_hosts := sl_hosts sl |}.

Definition with_width (sl : StatuslineConfig) (x : Z) : StatuslineConfig :=
  {| sl_order := sl_order sl; sl_meters := sl_meters sl; sl_width := x; sl_rows := sl_rows sl;
     sl_wrap := sl_wrap sl; sl_bars := sl_bars sl; sl_color := sl_color sl;
     sl_style := sl_style sl; sl_captions := sl_captions sl; sl_show := sl_show sl;
     sl_showMode := sl_showMode sl; sl_visibility := sl_visibility sl;
     sl_hosts := sl_hosts sl |}.

Definition with_rows (sl : StatuslineConfig) (x : Z) : StatuslineConfig :=
  {| sl_order := sl_order sl; sl_meters := sl_meters sl; sl_width := sl_width sl; sl_rows := x;
     sl_wrap := sl_wrap sl; sl_bars := sl_bars sl; sl_color := sl_color sl;
     sl_style := sl_style sl; sl_captions := sl_captions sl; sl_show := sl_show sl;
     sl_showMode := sl_showMode sl; sl_visibility := sl_visibility sl;
     sl_hosts := sl_hosts sl |}.

Definition with_bars (sl : StatuslineConfig) (x : bool) : StatuslineConfig :=
  {| sl_order := sl_order sl; sl_meters := sl_meters sl; sl_width := sl_width sl;
     sl_rows := sl_rows sl; sl_wrap := sl_wrap sl; sl_bars := x; sl_color := sl_color sl;
     sl_style := sl_style sl; sl_captions := sl_captions sl; sl_show := sl_show sl;
     sl_showMode := sl_showMode sl; sl_visibility := sl_visibility sl;
     sl_hosts := sl_hosts sl |}.

Definition with_color (sl : StatuslineConfig) (x : StatuslineColor) : StatuslineConfig :=
  {| sl_order := sl_order sl; sl_meters := sl_meters sl; sl_width := sl_width sl;
     sl_rows := sl_rows sl; sl_wrap := sl_wrap sl; sl_bars := sl_bars sl; sl_color := x;
     sl_style := sl_style sl; sl_captions := sl_captions sl; sl_show := sl_show sl;
     sl_showMode := sl_showMode sl; sl_visibility := sl_visibility sl;
     sl_hosts := sl_hosts sl |}.

Definition with_style (sl : StatuslineConfig) (x : StatuslineStyle) : StatuslineConfig :=
  {| sl_order := sl_order sl; sl_meters := sl_meters sl; sl_width := sl_width sl;
     sl_rows := sl_rows sl; sl_wrap := sl_wrap sl; sl_bars := sl_bars sl;
     sl_color := sl_color sl; sl_style := x; sl_captions := sl_captions sl;
     sl_show := sl_show sl; sl_showMode := sl_showMode sl; sl_visibility := sl_visibility sl;
     sl_hosts := sl_hosts sl |}.

Definition with_captions (sl : StatuslineConfig) (x : StatuslineCaptions) : StatuslineConfig :=
  {| sl_order := sl_order sl; sl_meters := sl_meters sl; sl_width := sl_width sl;
     sl_rows := sl_rows sl; sl_wrap := sl_wrap sl; sl_bars := sl_bars sl;
     sl_color := sl_color sl; sl_style := sl_style sl; sl_captions := x; sl_show := sl_show sl;
     sl_showMode := sl_showMode sl; sl_visibility := sl_visibility sl;
     sl_hosts := sl_hosts sl |}.

Definition with_visibility (sl : StatuslineConfig) (x : option (list (string * bool))) : StatuslineConfig :=
  {| sl_order := sl_order sl; sl_meters := sl_meters sl; sl_width := sl_width sl;
     sl_rows := sl_rows sl; sl_wrap := sl_wrap sl; sl_bars := sl_bars sl;
     sl_color := sl_color sl; sl_style := sl_style sl; sl_captions := sl_captions sl;
     sl_show := sl_show sl; sl_showMode := sl_showMode sl; sl_visibility := x;
     sl_hosts := sl_hosts sl |}.

Definition with_hosts (sl : StatuslineConfig) (x : list (string * string)) : StatuslineConfig :=
  {| sl_order := sl_order sl; sl_meters := sl_meters sl; sl_width := sl_width sl;
     sl_rows := sl_rows sl; sl_wrap := sl_wrap sl; sl_bars := sl_bars sl;
     sl_color := sl_color sl; sl_style := sl_style sl; sl_captions := sl_captions sl;
     sl_show := sl_show sl; sl_showMode := sl_showMode sl; sl_visibility := sl_visibility sl;
     sl_hosts := x |}.

Definition with_show (sl : StatuslineConfig) (x : list string) : StatuslineConfig :=
  {| sl_order := sl_order sl; sl_meters := sl_meters sl; sl_width := sl_width sl;
     sl_rows := sl_rows sl; sl_wrap := sl_wrap sl; sl_bars := sl_bars sl;
     sl_color := sl_color sl; sl_style := sl_style sl; sl_captions := sl_captions sl;
     sl_show := x; sl_showMode := Some show_explicit; sl_visibility := sl_visibility sl;
     sl_hosts := sl_hosts sl |}.

(** ** Setting one key *)

Definition order_message : string :=
  "statusline.order must be a comma separated list of provider ids from " +:+
  join ", " connectorIds +:+ ", each named once, or NONE for the built in order.".
Definition width_message : string :=
  "statusline.width must be a whole number from " +:+ decimal MIN_STATUSLINE_WIDTH +:+ " to " +:+
  decimal MAX_STATUSLINE_WIDTH +:+ ".".
Definition key_list : string :=
  join ", " (map name_of (all_of : list StatuslineKey)).

(** [{ ok: false, message }] or [{ ok: true, statusline }] *)
Definition StatuslineUpdate : Type := string + StatuslineConfig.

Definition accepted_or (message : string) (result : option StatuslineConfig) : StatuslineUpdate :=
  match result with Some sl => inr sl | None => inl message end.

(** The part of [setStatuslineValue] behind the test of the key. *)
Definition set_key (sl : StatuslineConfig) (key : StatuslineKey) (value : string) :
    StatuslineUpdate :=
  match key with
  | key_order =>
      if is_none value then inr (with_order sl [])
      else accepted_or order_message
             (with_order sl <$> normalizeOrder (strings (map trim (pieces value))))
  | key_meters =>
      accepted_or "statusline.meters must be worst or all." (with_meters sl <$> of_name value)
  | key_width => accepted_or width_message (with_width sl <$> width_of value)
  | key_rows => accepted_or "statusline.rows must be 1 or 2." (with_rows sl <$> rows_of value)
  | key_bars =>
      accepted_or "statusline.bars must be true or false." (with_bars sl <$> bool_of value)
  | key_style =>
      accepted_or "statusline.style must be bar or cells." (with_style sl <$> of_name value)
  | key_captions =>
      accepted_or "statusline.captions must be short or tagged." (with_captions sl <$> of_name value)
  | key_show =>
      if is_none value then inr (with_show sl [])
      else accepted_or "statusline.show must be a comma separated list of provider ids or NONE."
             (with_show sl <$> normalizeShow (strings (map trim (pieces value))))
  | key_hosts =>
      if is_none value then inr (with_hosts sl [])
      else inr (with_hosts sl (foldl host_pair [] (pieces value)))
  | key_color =>
      accepted_or "statusline.color must be auto, always, or never."
        (with_color sl <$> of_name value)
  end.

Definition setStatuslineValue (sl : StatuslineConfig) (key value : string) : StatuslineUpdate :=
  match of_name key with
  | None => inl ("unknown statusline key. Known keys: " +:+ key_list +:+ ".")
  | Some key => set_key sl key value
  end.

(** ** The whole document *)

Record ProvidersConfig := { pv_poll : bool; pv_recorded : bool }.

Definition DEFAULT_PROVIDERS : ProvidersConfig := {| pv_poll := false; pv_recorded := false |}.

Definition PROVIDER_KEY : string := "claude.poll".

Definition normalizeProviders (v : jsval) : ProvidersConfig :=
  match v with
  | JObj fs =>
      match get fs "claude" with
      | JObj claude =>
          {| pv_poll := default false (as_bool (get claude "poll"));
             pv_recorded :=
               match get claude "poll", get claude "recorded" with
               | JBool _, JBool recorded => recorded
               | JBool _, JUndef => true
               | _, _ => false
               end |}
      | _ => {| pv_poll := false; pv_recorded := false |}
      end
  | _ => DEFAULT_PROVIDERS
  end.

Record ConfigConnector := { cc_id : string; cc_detected : bool }.

Record OpenLimiterConfig := {
  oc_connectors : list ConfigConnector;
  oc_statusline : StatuslineConfig;
  oc_providers : ProvidersConfig }.

Definition push_row (rows : list ConfigConnector) (entry : jsval) : list ConfigConnector :=
  match entry with
  | JObj fs =>
      match get fs "id" with
      | JStr id =>
          if bool_decide (id ∈ connectorIds) && negb (bool_decide (id ∈ cc_id <$> rows))
          then rows ++ [{| cc_id := id;
                           cc_detected := match get fs "detected" with JBool b => b | _ => false end |}]
          else rows
      | _ => rows
      end
  | _ => rows
  end.

Definition normalizeConnectors (v : jsval) : list ConfigConnector :=
  match v with
  | JArr entries => foldl push_row [] (take (length connectorIds) entries)
  | _ => []
  end.

(** The object each writer prints. *)
Definition optional (k : string) (v : option jsval) : list (string * jsval) :=
  match v with Some v => [(k, v)] | None => [] end.

Definition statusline_json (sl : StatuslineConfig) : jsval :=
  JObj ([("order", strings (sl_order sl)); ("meters", JStr (name_of (sl_meters sl)));
         ("width", JNum (int (sl_width sl))); ("rows", JNum (int (sl_rows sl)));
         ("bars", JBool (sl_bars sl)); ("color", JStr (name_of (sl_color sl)));
         ("style", JStr (name_of (sl_style sl))); ("captions", JStr (name_of (sl_captions sl)));
         ("show", strings (sl_show sl));
         ("hosts", JObj (map (fun kv => (kv.1, JStr kv.2)) (sl_hosts sl)))] ++
        optional "showMode"
          ((fun m => JStr match m with show_auto => "auto" | show_explicit => "explicit" end) <$>
           sl_showMode sl) ++
        optional "wrap" (JBool <$> sl_wrap sl) ++
        optional "visibility"
          ((fun vis => JObj (map (fun kv => (kv.1, JBool kv.2)) vis)) <$> sl_visibility sl)).

Definition row_json (row : ConfigConnector) : jsval :=
  JObj [("id", JStr (cc_id row)); ("enabled", JBool true); ("detected", JBool (cc_detected row))].

Definition config_json (c : OpenLimiterConfig) : jsval :=
  JObj [("version", JNum (int 1)); ("connectors", JArr (map row_json (oc_connectors c)));
        ("statusline", statusline_json (oc_statusline c));
        ("providers",
         JObj [("claude", JObj [("poll", JBool (pv_poll (oc_providers c)));
                                ("recorded", JBool (pv_recorded (oc_providers c)))])])].

(** ** The state directory *)

(** [lstat] of a path the code refuses to follow: a symbolic link, or one that
    cannot be inspected. *)
Inductive Entry := refused_path | regular_path (file : JsonFile).

Record StateDir := {
  sd_refused : bool;     (** the directory itself is such a path *)
  sd_config : Entry;     (** [openlimiter-config.json] *)
  sd_poll : Entry }.     (** [claude-poll.json] *)

Definition read_entry (e : Entry) : JsonFile :=
  match e with refused_path => unsafe | regular_path file => file end.

Definition readConfig (d : StateDir) : CacheFailure + OpenLimiterConfig :=
  if sd_refused d then inl cf_unsafe
  else
    match read_entry (sd_config d) with
    | missing => inl cf_missing
    | corrupt => inl cf_corrupt
    | unsafe => inl cf_unsafe
    | present (JObj fs) =>
        if is_number (get fs "version") 1
        then inr {| oc_connectors := normalizeConnectors (get fs "connectors");
                    oc_statusline := normalizeStatusline (get fs "statusline");
                    oc_providers := normalizeProviders (get fs "providers") |}
        else inl cf_corrupt
    | present _ => inl cf_corrupt
    end.

Definition readStatuslineConfig (d : StateDir) : StatuslineConfig :=
  match readConfig d with inr c => oc_statusline c | inl _ => DEFAULT_STATUSLINE end.

Definition readProvidersConfig (d : StateDir) : ProvidersConfig :=
  match readConfig d with inr c => oc_providers c | inl _ => DEFAULT_PROVIDERS end.

(** What a writing operation meets: does the lock still belong to it before
    each write, and does each write itself go through. *)
Record Fate := {
  fa_locked : bool;       (** the lock is obtained *)
  fa_owned_store : bool; fa_store : bool;
  fa_owned_mirror : bool; fa_mirror : bool }.

Definition kind_fate : Fate :=
  {| fa_locked := true; fa_owned_store := true; fa_store := true; fa_owned_mirror := true;
     fa_mirror := true |}.

Definition MAX_JSON_FILE_BYTES : Z := 1048576.

(** What a writer puts on disk, in bytes. *)
Definition document_bytes (v : jsval) : Z := byte_length (default "" (canonicalJson v)).

(** [opened.size > maximumBytes] does not hold of it. Of a value of readable
    numbers [room] is never less than its bytes, so that only a large one has
    to be printed to tell ([ConfigLaws.within_limit_exact]). *)
Definition within_limit (v : jsval) : bool :=
  if room (sortDeep v) <=? MAX_JSON_FILE_BYTES then true else document_bytes v <=? MAX_JSON_FILE_BYTES.

(** The document as the next reader finds it: one over the limit is corrupt. *)
Definition written (v : jsval) : JsonFile := if within_limit v then write_json v else corrupt.

(** [writeFileAtomically] behind [rejectSymlink]: [None] when it throws. *)
Definition replace_entry (goes_through : bool) (e : Entry) (v : jsval) : option Entry :=
  match e with
  | refused_path => None
  | regular_path _ => check goes_through;; Some (regular_path (written v))
  end.

Definition writeConfig (goes_through : bool) (c : OpenLimiterConfig) (d : StateDir) :
    option StateDir :=
  check negb (sd_refused d);;
  let? e := replace_entry goes_through (sd_config d) (config_json c) in
  Some {| sd_refused := sd_refused d; sd_config := e; sd_poll := sd_poll d |}.

(** [connector.detect(environment)], by the id of the connector. *)
Section Machine.
Context (detect : string -> bool).

Definition connectorRows : list ConfigConnector :=
  map (fun id => {| cc_id := id; cc_detected := detect id |}) connectorIds.

Definition defaultConfig : OpenLimiterConfig :=
  {| oc_connectors := connectorRows; oc_statusline := DEFAULT_STATUSLINE;
     oc_providers := DEFAULT_PROVIDERS |}.

(** The configuration a writer starts from: [None] when it throws. *)
Definition current_config (d : StateDir) : option OpenLimiterConfig :=
  match readConfig d with
  | inr c => Some c
  | inl cf_missing => Some defaultConfig
  | inl _ => None
  end.

Definition updateConfig (fate : Fate) (mutate : OpenLimiterConfig -> OpenLimiterConfig)
    (d : StateDir) : option (StateDir * OpenLimiterConfig) :=
  check fa_locked fate && negb (sd_refused d);;
  let? current := current_config d in
  let? d' := writeConfig (fa_store fate) (mutate current) d in
  Some (d', mutate current).

Definition with_statusline (c : OpenLimiterConfig) (sl : StatuslineConfig) : OpenLimiterConfig :=
  {| oc_connectors := oc_connectors c; oc_statusline := sl; oc_providers := oc_providers c |}.
Definition with_providers (c : OpenLimiterConfig) (p : ProvidersConfig) : OpenLimiterConfig :=
  {| oc_connectors := oc_connectors c; oc_statusline := oc_statusline c; oc_providers := p |}.
Definition with_connectors (c : OpenLimiterConfig) (rows : list ConfigConnector) :
    OpenLimiterConfig :=
  {| oc_connectors := rows; oc_statusline := oc_statusline c; oc_providers := oc_providers c |}.

(** [credentialStore.get]: [None] when it throws, [Some false] when empty. *)
Definition initialize (fate : Fate) (secret : option bool) (d : StateDir) :
    option (StateDir * OpenLimiterConfig * bool) :=
  let? (d', c) := updateConfig fate (fun current => with_connectors current connectorRows) d in
  Some (d', c,
        existsb (fun row => str_eqb (cc_id row) "openrouter" && cc_detected row) (oc_connectors c) &&
        default false secret).

(** ** The Claude request switch *)

Definition poll_json (enabled : bool) : jsval :=
  JObj [("enabled", JBool enabled); ("version", JNum (int 1))].

Definition claudePollText (d : StateDir) : string :=
  match read_entry (sd_poll d) with
  | missing => "unset"
  | file => bool_text (readClaudePoll file)
  end.

Definition writeClaudePollDocument (goes_through : bool) (enabled : bool) (d : StateDir) :
    option StateDir :=
  let? e := replace_entry goes_through (sd_poll d) (poll_json enabled) in
  Some {| sd_refused := sd_refused d; sd_config := sd_config d; sd_poll := e |}.

(** The mirror: the directory it leaves, and [mirrored]. *)
Definition mirror_poll (fate : Fate) (enabled : bool) (d : StateDir) : StateDir * bool :=
  match current_config d with
  | None => (d, false)
  | Some current =>
      if fa_owned_mirror fate then
        match writeConfig (fa_mirror fate)
                (with_providers current {| pv_poll := enabled; pv_recorded := true |}) d with
        | Some d' => (d', true)
        | None => (d, false)
        end
      else (d, false)
  end.

(** [None] when it throws; nothing was written then. *)
Definition setClaudePoll (fate : Fate) (enabled : bool) (d : StateDir) :
    option (StateDir * bool) :=
  check fa_locked fate && negb (sd_refused d) && fa_owned_store fate;;
  let? d' := writeClaudePollDocument (fa_store fate) enabled d in
  Some (mirror_poll fate enabled d').

Definition migration_due (d : StateDir) : bool :=
  match read_entry (sd_poll d) with
  | missing => pv_recorded (readProvidersConfig d) && pv_poll (readProvidersConfig d)
  | _ => false
  end.

(** [seen] is the directory as first read, [d] as it is under the lock; a
    failure is caught by the caller. *)
Definition migrateLegacyClaudePoll (fate : Fate) (seen d : StateDir) : StateDir :=
  if migration_due seen && fa_locked fate && negb (sd_refused d) && migration_due d &&
     fa_owned_store fate
  then default d (writeClaudePollDocument (fa_store fate) true d)
  else d.

Definition setProviderValue (key value : string) : string + bool :=
  if negb (str_eqb key PROVIDER_KEY)
  then inl ("unknown providers key. Known keys: " +:+ PROVIDER_KEY +:+ ".")
  else
    match bool_of value with
    | Some enabled => inr enabled
    | None => inl "providers.claude.poll must be true or false."
    end.

(** ** The [config] command *)

Record CliResult := { exitCode : Z; stdout : string; stderr : string }.

Definition EXIT_OK : Z := 0.
Definition EXIT_FAILURE : Z := 1.
Definition EXIT_USAGE : Z := 2.

Definition succeed (text : string) : CliResult :=
  {| exitCode := EXIT_OK; stdout := text; stderr := "" |}.
Definition fail (code : Z) (message : string) : CliResult :=
  {| exitCode := code; stdout := ""; stderr := message |}.

Definition NEWLINE : string := String (chr 10) "".
Definition CONFIG_SECTION : string := "statusline".
Definition PROVIDERS_SECTION : string := "providers".

Definition configUsage : string :=
  join NEWLINE
    ["openlimiter config: use one of";
     "  openlimiter config get statusline[.<key>]";
     "  openlimiter config set statusline.<key> <value>";
     "  openlimiter config get providers[.<key>]";
     "  openlimiter config set providers.<key> <value>";
     "Statusline keys: " +:+ key_list +:+ ".";
     "Providers keys: " +:+ PROVIDER_KEY +:+ "."].

Inductive ConfigAction := action_get | action_set.

Definition action_of (argument : option string) : option ConfigAction :=
  let? a := argument in
  if str_eqb a "get" then Some action_get
  else if str_eqb a "set" then Some action_set else None.

(** The section, and the key behind the first dot. *)
Fixpoint cut_at_dot (s : string) : string * option string :=
  match s with
  | EmptyString => ("", None)
  | String c s =>
      if Ascii.eqb c "." then ("", Some s)
      else ((String c (cut_at_dot s).1), (cut_at_dot s).2)
  end.

Definition parseConfigPath (target : option string) : option (string * option string) :=
  let? t := target in
  check negb (str_eqb t "");;
  Some (cut_at_dot t).

Definition configGet (keys : list StatuslineKey) (sl : StatuslineConfig) : string :=
  join NEWLINE
    (map (fun key => CONFIG_SECTION +:+ "." +:+ name_of key +:+ "=" +:+ statuslineValueText sl key)
       keys).

Definition CLAUDE_POLL_MIRROR_FAILED : string :=
  "openlimiter config: saved, but the copy an older OpenLimiter on this computer reads could not be written, so an older version may keep your previous choice.".

Definition poll_line (text : string) : string :=
  PROVIDERS_SECTION +:+ "." +:+ PROVIDER_KEY +:+ "=" +:+ text.

Definition providersConfigCommand (fate : Fate) (action : ConfigAction)
    (key value : option string) (d : StateDir) : StateDir * CliResult :=
  match key with
  | Some k =>
      if negb (str_eqb k PROVIDER_KEY)
      then (d, fail EXIT_USAGE ("openlimiter config: unknown providers key. Known keys: " +:+
                                PROVIDER_KEY +:+ "."))
      else
        match action with
        | action_get => (d, succeed (poll_line (claudePollText d)))
        | action_set =>
            match value with
            | None => (d, fail EXIT_USAGE "openlimiter config: set needs a value.")
            | Some value =>
                match setProviderValue k value with
                | inl message => (d, fail EXIT_USAGE ("openlimiter config: " +:+ message))
                | inr enabled =>
                    match setClaudePoll fate enabled d with
                    | None =>
                        (d, fail EXIT_FAILURE
                              "openlimiter config: configuration could not be written.")
                    | Some (d', mirrored) =>
                        (d', {| exitCode := EXIT_OK; stdout := poll_line (bool_text enabled);
                                stderr := if mirrored then "" else CLAUDE_POLL_MIRROR_FAILED |})
                    end
                end
            end
        end
  | None =>
      match action with
      | action_get => (d, succeed (poll_line (claudePollText d)))
      | action_set =>
          (d, fail EXIT_USAGE "openlimiter config: set needs a key, as in providers.claude.poll.")
      end
  end.

(** The statusline section, its key known; [seen] is the directory as the
    command first reads it, [d] as it is under the lock. *)
Definition statuslineCommand (fate : Fate) (action : ConfigAction) (key : option StatuslineKey)
    (value : option string) (seen d : StateDir) : StateDir * CliResult :=
  match current_config seen with
  | None => (d, fail EXIT_FAILURE "openlimiter config: configuration could not be read.")
  | Some config =>
      match action, key, value with
      | action_get, _, _ =>
          (d, succeed (configGet (match key with None => all_of | Some key => [key] end)
                         (oc_statusline config)))
      | action_set, None, _ =>
          (d, fail EXIT_USAGE "openlimiter config: set needs a key, as in statusline.width.")
      | action_set, Some _, None =>
          (d, fail EXIT_USAGE "openlimiter config: set needs a value.")
      | action_set, Some key, Some value =>
          match setStatuslineValue (oc_statusline config) (name_of key) value with
          | inl message => (d, fail EXIT_USAGE ("openlimiter config: " +:+ message))
          | inr chosen =>
              match updateConfig fate (fun latest =>
                      with_statusline latest
                        match setStatuslineValue (oc_statusline latest) (name_of key) value with
                        | inr next => next
                        | inl _ => chosen
                        end) d with
              | None =>
                  (d, fail EXIT_FAILURE "openlimiter config: configuration could not be written.")
              | Some (d', _) => (d', succeed (configGet [key] chosen))
              end
          end
      end
  end.

Definition configCommand (fate : Fate) (arguments : list string) (seen d : StateDir) :
    StateDir * CliResult :=
  match action_of (arguments !! 1%nat), parseConfigPath (arguments !! 2%nat) with
  | Some action, Some (section, key) =>
      if str_eqb section PROVIDERS_SECTION
      then providersConfigCommand fate action key (arguments !! 3%nat) d
      else if negb (str_eqb section CONFIG_SECTION)
      then (d, fail EXIT_USAGE
                 "openlimiter config: only the statusline and providers sections can be read or written.")
      else
        match key with
        | None => statuslineCommand fate action None (arguments !! 3%nat) seen d
        | Some k =>
            match of_name k with
            | None =>
                (d, fail EXIT_USAGE ("openlimiter config: unknown statusline key. Known keys: " +:+
                                     key_list +:+ "."))
            | Some key => statuslineCommand fate action (Some key) (arguments !! 3%nat) seen d
            end
        end
  | _, _ => (d, fail EXIT_USAGE configUsage)
  end.

(** ** Showing and hiding *)

Definition aliases : list (string * string) :=
  from_entries
    (flat_map (fun pt => [(pt.1, pt.1); (pt.2, pt.1)]) PROVIDER_SHORT_TAGS ++
     flat_map (fun nt => [(nt.1, nt.1); (nt.2, nt.1)]) MONEY_TAGS).

Definition resolve (id : string) : string :=
  default (lowerCase id) (assoc_get (lowerCase id) aliases).

Definition known_ids : list string := TERMINAL_SEGMENTS ++ TERMINAL_METER_SEGMENTS ++ aliases.*2.

Definition show_ids (enabled : bool) (ids : list string) (sl : StatuslineConfig) :
    StatuslineConfig :=
  with_visibility sl
    (Some (foldl (fun vis id => assoc_set id enabled vis) (default [] (sl_visibility sl)) ids)).

(** [None]: nothing was written. *)
Definition terminalVisibility (fate : Fate) (ids : list string) (enabled : bool) (d : StateDir) :
    option StateDir :=
  let resolved := map resolve ids in
  check negb (bool_decide (resolved = [])) && forallb (fun id => bool_decide (id ∈ known_ids)) resolved;;
  let? (d', _) :=
    updateConfig fate (fun latest =>
      with_statusline latest (show_ids enabled resolved (oc_statusline latest))) d in
  Some d'.
End Machine.
