(* ===== verification/ConfigLaws.v ===== *)
(** * What the stored configuration promises

    A configuration read from any file is valid; the document a command writes
    reads back as the configuration it meant, so that the file implements it;
    what [config set] prints is what [config get] prints next; what [config
    get] prints, [config set] accepts and restores; the Claude request switch
    has one value wherever it is read. *)
From S2P Require Import Prelude JsNum JsDate JsValue Text Json ReadBack Files Store Config.
Local Open Scope string_scope.
Local Open Scope Z_scope.
Local Open Scope list_scope.
Local Open Scope js_scope.

(** ** Trimmed, lowered names *)

Lemma latin_lower_idem c : latin_lower (latin_lower c) = latin_lower c.
Proof. destruct c as [[] [] [] [] [] [] [] []]; vm_compute; reflexivity. Qed.

Lemma lowerCase_idem s : lowerCase (lowerCase s) = lowerCase s.
Proof.
  unfold lowerCase. induction s as [|c s IH]; cbn [str_map]; [done|].
  by rewrite latin_lower_idem, IH.
Qed.

Definition lowered (s : string) : Prop := lowerCase s = s.

Lemma lowered_forall s : lowered s <-> str_forall (fun c => Ascii.eqb (latin_lower c) c) s = true.
Proof.
  unfold lowered, lowerCase. induction s as [|c s IH]; cbn [str_map str_forall]; [done|].
  rewrite andb_true_iff, Ascii.eqb_eq, <- IH. split; [by intros [= -> ->]|by intros [-> ->]].
Qed.

Lemma trim_start_forall p s : str_forall p s = true -> str_forall p (trim_start s) = true.
Proof.
  induction s as [|c s IH]; [done|]. cbn [trim_start]. intros Hs. destruct (is_space c); [|done].
  apply IH. cbn in Hs. by bools.
Qed.

Lemma trim_end_forall p s : str_forall p s = true -> str_forall p (trim_end s) = true.
Proof.
  induction s as [|c s IH]; [done|]. cbn [trim_end]. intros Hs.
  destruct (str_forall is_space (String c s)); [done|]. cbn in *. bools.
  by rewrite IH, andb_true_r.
Qed.

Lemma trim_forall p s : str_forall p s = true -> str_forall p (trim s) = true.
Proof. intros Hs. by apply trim_end_forall, trim_start_forall. Qed.

Definition starts_plain (s : string) : Prop :=
  match s with String c _ => is_space c = false | EmptyString => True end.

Lemma trim_start_plain s : starts_plain (trim_start s).
Proof. induction s as [|c s IH]; cbn; [done|]. by destruct (is_space c) eqn:E. Qed.

Lemma trim_start_id s : starts_plain s -> trim_start s = s.
Proof. destruct s as [|c s]; [done|]. cbn. by intros ->. Qed.

Lemma trim_end_plain s : starts_plain s -> starts_plain (trim_end s).
Proof. destruct s as [|c s]; [done|]. cbn. intros Hc. by rewrite Hc. Qed.

Lemma trim_end_space s : str_forall is_space (trim_end s) = str_forall is_space s.
Proof.
  induction s as [|c s IH]; [done|]. cbn [trim_end].
  destruct (str_forall is_space (String c s)) eqn:E; [done|]. cbn in *. by rewrite IH.
Qed.

Lemma trim_end_idem s : trim_end (trim_end s) = trim_end s.
Proof.
  induction s as [|c s IH]; [done|]. cbn [trim_end].
  destruct (str_forall is_space (String c s)) eqn:E; [done|]. cbn [trim_end].
  cbn [str_forall] in *. by rewrite trim_end_space, E, IH.
Qed.

Lemma trim_idem s : trim (trim s) = trim s.
Proof.
  unfold trim. by rewrite (trim_start_id (trim_end _)), trim_end_idem
    by apply trim_end_plain, trim_start_plain.
Qed.

(** ** Valid configurations *)

(** A name as [normalizeShow] leaves it. *)
Definition clean (s : string) : Prop := lowered s /\ trim s = s /\ s <> "".

Lemma clean_shown s : trim (lowerCase s) <> "" -> clean (trim (lowerCase s)).
Proof.
  intros Hs. split; [|split; [apply trim_idem|done]].
  apply lowered_forall, trim_forall, lowered_forall, lowerCase_idem.
Qed.

Definition valid_hosts (hosts : list (string * string)) : Prop :=
  NoDup hosts.*1 /\ Forall (fun k => lowered k /\ k <> "__proto__") hosts.*1.

Definition valid_visibility (vis : list (string * bool)) : Prop :=
  NoDup vis.*1 /\ Forall (fun k => k ∈ visibility_keys) vis.*1.

Record valid_statusline (sl : StatuslineConfig) : Prop := {
  valid_order : NoDup (sl_order sl) /\ Forall (fun id => id ∈ connectorIds) (sl_order sl);
  valid_width : MIN_STATUSLINE_WIDTH <= sl_width sl <= MAX_STATUSLINE_WIDTH;
  valid_rows : sl_rows sl = 1 \/ sl_rows sl = 2;
  valid_wrap : sl_wrap sl = None \/ sl_wrap sl = Some false;
  valid_show : NoDup (sl_show sl) /\ Forall clean (sl_show sl);
  valid_showMode : sl_showMode sl = None \/ sl_showMode sl = Some show_explicit;
  valid_switches : from_option valid_visibility True (sl_visibility sl);
  valid_host_map : valid_hosts (sl_hosts sl) }.

Definition valid_rows_of (rows : list ConfigConnector) : Prop :=
  NoDup (cc_id <$> rows) /\ Forall (fun id => id ∈ connectorIds) (cc_id <$> rows).

Record valid_config (c : OpenLimiterConfig) : Prop := {
  valid_connectors : valid_rows_of (oc_connectors c);
  valid_section : valid_statusline (oc_statusline c) }.

Lemma default_valid : valid_statusline DEFAULT_STATUSLINE.
Proof.
  constructor; cbn; auto; try (split; constructor).
  unfold MIN_STATUSLINE_WIDTH, MAX_STATUSLINE_WIDTH. lia.
Qed.

Lemma NoDup_snoc {A} (l : list A) x : NoDup l -> x ∉ l -> NoDup (l ++ [x]).
Proof.
  intros Hl Hx. apply NoDup_app. split_and!; [done| |apply NoDup_singleton].
  by intros y Hy ->%list_elem_of_singleton.
Qed.

Lemma Forall_snoc' {A} (P : A -> Prop) l x : Forall P l -> P x -> Forall P (l ++ [x]).
Proof. intros. apply Forall_app. auto. Qed.

Lemma read_order_valid entries order order' :
  NoDup order /\ Forall (fun id => id ∈ connectorIds) order ->
  read_order entries order = Some order' ->
  NoDup order' /\ Forall (fun id => id ∈ connectorIds) order'.
Proof.
  revert order. induction entries as [|e entries IH]; intros order Hv; cbn [read_order].
  { by intros [= <-]. }
  destruct (as_string e) as [s|]; [|done].
  destruct (_ && _) eqn:E; [|done]. bools. destruct Hv as [Hn Hf].
  apply IH. split; [by apply NoDup_snoc|by apply Forall_snoc'].
Qed.

Lemma normalizeOrder_valid v order :
  normalizeOrder v = Some order -> NoDup order /\ Forall (fun id => id ∈ connectorIds) order.
Proof.
  unfold normalizeOrder. destruct (as_array v); [|done]. destruct (_ <=? _)%nat; [|done].
  apply read_order_valid. split; constructor.
Qed.

Lemma push_shown_valid show s :
  NoDup show /\ Forall clean show ->
  NoDup (push_shown show (trim (lowerCase s))) /\ Forall clean (push_shown show (trim (lowerCase s))).
Proof.
  intros [Hn Hf]. unfold push_shown. destruct (_ && _) eqn:E; [|done]. bools.
  split; [by apply NoDup_snoc|]. apply Forall_snoc'; [done|]. apply clean_shown.
  intros Hs. by rewrite Hs in *.
Qed.

Lemma read_show_valid entries show show' :
  NoDup show /\ Forall clean show -> read_show entries show = Some show' ->
  NoDup show' /\ Forall clean show'.
Proof.
  revert show. induction entries as [|e entries IH]; intros show Hv; cbn [read_show].
  { by intros [= <-]. }
  destruct (as_string e) as [s|]; [|done]. by apply IH, push_shown_valid.
Qed.

Lemma normalizeShow_valid v show :
  normalizeShow v = Some show -> NoDup show /\ Forall clean show.
Proof.
  unfold normalizeShow. destruct (as_array v); [|done]. apply read_show_valid. split; constructor.
Qed.

Lemma normalizeWidth_valid v n :
  normalizeWidth v = Some n -> MIN_STATUSLINE_WIDTH <= n <= MAX_STATUSLINE_WIDTH.
Proof.
  unfold normalizeWidth. destruct (as_safe_int v) as [k|]; [|done].
  destruct (_ && _) eqn:E; [|done]. bools. by intros [= <-].
Qed.

Lemma set_host_valid hosts k v : lowered k -> valid_hosts hosts -> valid_hosts (set_host hosts k v).
Proof.
  intros Hk [Hn Hf]. unfold set_host. destruct (str_eqb k "__proto__") eqn:E; [done|].
  split; [by apply assoc_set_NoDup|]. apply Forall_forall.
  intros k' [->|Hin]%elem_of_assoc_set_keys; [|by eapply Forall_forall in Hf].
  split; [done|]. intros ->. by rewrite str_eqb_refl in E.
Qed.

Lemma foldl_invariant {A B} (P : A -> Prop) (f : A -> B -> A) l a :
  (forall a b, P a -> P (f a b)) -> P a -> P (foldl f a l).
Proof. intros Hf. revert a. induction l as [|b l IH]; cbn; auto. Qed.

Lemma no_hosts_valid : valid_hosts [].
Proof. split; constructor. Qed.

Lemma normalizeHosts_valid v : valid_hosts (normalizeHosts v).
Proof.
  destruct v; try apply no_hosts_valid. cbn. apply foldl_invariant; [|apply no_hosts_valid].
  intros hosts [k []] Hv; cbn; try done. apply set_host_valid; [apply lowerCase_idem|done].
Qed.

Lemma from_entries_keys {V} (entries : list (string * V)) :
  NoDup (from_entries entries).*1 /\ (from_entries entries).*1 ⊆ entries.*1.
Proof.
  unfold from_entries.
  enough (forall m : list (string * V), NoDup m.*1 ->
    NoDup (foldl (fun m kv => assoc_set kv.1 kv.2 m) m entries).*1 /\
    (foldl (fun m kv => assoc_set kv.1 kv.2 m) m entries).*1 ⊆ m.*1 ++ entries.*1) as Hall.
  { destruct (Hall [] (NoDup_nil_2)) as [H1 H2]. by split. }
  induction entries as [|[k v] entries IH]; intros m Hm; cbn [foldl].
  { split; [done|]. set_solver. }
  destruct (IH (assoc_set k v m)) as [H1 H2]; [by apply assoc_set_NoDup|]. split; [done|].
  intros x Hx. apply H2, elem_of_app in Hx. csimpl.
  rewrite elem_of_assoc_set_keys in Hx. set_solver.
Qed.

Lemma entries_valid fs : valid_visibility (from_entries (omap visibility_entry fs)).
Proof.
  destruct (from_entries_keys (omap visibility_entry fs)) as [Hn Hsub]. split; [done|].
  apply Forall_forall. intros k Hk. apply Hsub, list_elem_of_fmap in Hk as ([k' b] & -> & Hin).
  apply list_elem_of_omap in Hin as ([k v] & _ & E). unfold visibility_entry in E. cbn in E.
  destruct v; try done. destruct (bool_decide _) eqn:Ed; [|done]. injection E as <- <-.
  by apply bool_decide_eq_true in Ed.
Qed.

Lemma normalizeStatusline_valid v : valid_statusline (normalizeStatusline v).
Proof.
  destruct v; try apply default_valid. constructor; cbn [sl_order sl_width sl_rows sl_wrap sl_show
    sl_showMode sl_visibility sl_hosts normalizeStatusline].
  - destruct (normalizeOrder _) eqn:E; [by apply normalizeOrder_valid in E|apply default_valid].
  - destruct (normalizeWidth _) eqn:E; [by apply normalizeWidth_valid in E|apply default_valid].
  - destruct (is_number _ 1); [auto|]. destruct (is_number _ 2); auto.
  - destruct (get _ "wrap") as [| |[]| | | |]; auto.
  - destruct (normalizeShow _) eqn:E; [by apply normalizeShow_valid in E|apply default_valid].
  - destruct (is_string _ _); auto.
  - destruct (record_of _); cbn; [apply entries_valid|done].
  - apply normalizeHosts_valid.
Qed.

Lemma push_row_valid rows e : valid_rows_of rows -> valid_rows_of (push_row rows e).
Proof.
  intros [Hn Hf]. unfold push_row. destruct e; try done. destruct (get _ "id"); try done.
  destruct (_ && _) eqn:E; [|done]. bools. unfold valid_rows_of. rewrite fmap_app. cbn.
  split; [by apply NoDup_snoc|by apply Forall_snoc'].
Qed.

Lemma normalizeConnectors_valid v : valid_rows_of (normalizeConnectors v).
Proof.
  destruct v; try (split; constructor). cbn. apply foldl_invariant; [apply push_row_valid|].
  split; constructor.
Qed.

Lemma connectorRows_ids detect : cc_id <$> connectorRows detect = connectorIds.
Proof. reflexivity. Qed.

Lemma connectorRows_valid detect : valid_rows_of (connectorRows detect).
Proof.
  unfold valid_rows_of. rewrite connectorRows_ids.
  split; apply (bool_decide_unpack _); vm_compute; exact I.
Qed.

Lemma readConfig_valid d c : readConfig d = inr c -> valid_config c.
Proof.
  unfold readConfig. destruct (sd_refused d); [done|].
  destruct (read_entry _) as [| | |v]; try done. destruct v; try done.
  destruct (is_number _ _); [|done]. intros [= <-].
  constructor; [apply normalizeConnectors_valid|apply normalizeStatusline_valid].
Qed.

Lemma current_config_valid detect d c : current_config detect d = Some c -> valid_config c.
Proof.
  unfold current_config. destruct (readConfig d) as [[]|c'] eqn:E; try done; intros [= <-].
  - constructor; [apply connectorRows_valid|apply default_valid].
  - by eapply readConfig_valid.
Qed.

(** ** The same configuration, whatever the order of its objects *)

Record same_statusline (a b : StatuslineConfig) : Prop := {
  same_keys : with_hosts (with_visibility a None) [] = with_hosts (with_visibility b None) [];
  same_hosts : sl_hosts a ≡ₚ sl_hosts b;
  same_switches : option_Forall2 Permutation (sl_visibility a) (sl_visibility b) }.

#[export] Instance statusline_equiv : Equiv StatuslineConfig := same_statusline.

#[export] Instance statusline_equivalence : Equivalence (≡@{StatuslineConfig}).
Proof.
  split.
  - intros a. split; done.
  - intros a b [H1 H2 H3]. split; by symmetry.
  - intros a b c [H1 H2 H3] [K1 K2 K3]. split; by etrans.
Qed.

Record same_config (a b : OpenLimiterConfig) : Prop := {
  same_rows : oc_connectors a = oc_connectors b;
  same_section : oc_statusline a ≡ oc_statusline b;
  same_providers : oc_providers a = oc_providers b }.

#[export] Instance config_equiv : Equiv OpenLimiterConfig := same_config.

#[export] Instance config_equivalence : Equivalence (≡@{OpenLimiterConfig}).
Proof.
  split.
  - intros a. split; done.
  - intros a b [H1 H2 H3]. split; by symmetry.
  - intros a b c [H1 H2 H3] [K1 K2 K3]. split; by etrans.
Qed.

Lemma same_field {A} (f : StatuslineConfig -> A) a b :
  (forall sl vis hosts, f (with_hosts (with_visibility sl vis) hosts) = f sl) -> a ≡ b -> f a = f b.
Proof. intros Hf [E _ _]. rewrite <- (Hf a None []), E. apply Hf. Qed.

#[export] Instance with_statusline_proper : Proper ((≡) ==> (≡) ==> (≡)) with_statusline.
Proof. intros a b [H1 H2 H3] s t Hs. by split. Qed.

#[export] Instance with_visibility_proper :
  Proper ((≡) ==> option_Forall2 Permutation ==> (≡)) with_visibility.
Proof.
  intros a b [E Eh Ev] v w Hvw. split; [|done|done]. unfold with_visibility, with_hosts in *. cbn in *.
  by injection E as -> -> -> -> -> -> -> -> -> -> ->.
Qed.

(** The keys other than [hosts] read the same on equivalent sections. *)
Lemma text_proper a b key :
  a ≡ b -> key <> key_hosts -> statuslineValueText a key = statuslineValueText b key.
Proof.
  intros E Hk. apply (same_field (fun sl => statuslineValueText sl key)); [|done].
  intros sl vis hosts. by destruct key.
Qed.

Definition same_update (u v : StatuslineUpdate) : Prop :=
  match u, v with
  | inl m, inl n => m = n
  | inr a, inr b => a ≡ b
  | _, _ => False
  end.

#[export] Instance setStatuslineValue_proper :
  Proper ((≡) ==> (=) ==> (=) ==> same_update) setStatuslineValue.
Proof.
  intros a b [E Eh Ev] key ? <- value ? <-. unfold setStatuslineValue.
  destruct (of_name key) as [k|]; [|done].
  destruct a as [o m w r wr ba co st ca sh sm vi ho], b as [o' m' w' r' wr' ba' co' st' ca' sh' sm' vi' ho'].
  unfold with_visibility, with_hosts in E. cbn in E, Eh, Ev.
  injection E as -> -> -> -> -> -> -> -> -> -> ->.
  destruct k; cbn [set_key]; try destruct (is_none value);
    try (match goal with |- same_update (accepted_or _ (_ <$> ?x)) _ => destruct x end);
    cbn [accepted_or same_update fmap option_fmap option_map]; try done;
    (split; [done|first [done|exact Eh]|exact Ev]).
Qed.

(** ** The document reads back *)

Lemma assoc_sets {V} (m acc : list (string * V)) :
  NoDup (acc ++ m).*1 -> foldl (fun m kv => assoc_set kv.1 kv.2 m) acc m = acc ++ m.
Proof.
  revert acc. induction m as [|[k v] m IH]; intros acc Hn; cbn [foldl].
  { by rewrite app_nil_r. }
  rewrite cons_middle, app_assoc in Hn |- *. cbn [fst snd].
  rewrite assoc_set_new, IH; [done|done|].
  rewrite !fmap_app, <- app_assoc in Hn. apply NoDup_app in Hn as (_ & Hd & _).
  intros Hk. apply (Hd k Hk). cbn. left.
Qed.

Lemma object_reads {V} (f : V -> jsval) (m : list (string * V)) :
  (forall v, sortDeep (f v) = f v) ->
  exists m', m' ≡ₚ m /\
    sortDeep (JObj (map (fun kv => (kv.1, f kv.2)) m)) = JObj (map (fun kv => (kv.1, f kv.2)) m').
Proof.
  intros Hf. cbn [sortDeep]. rewrite map_map.
  rewrite (map_ext _ (fun kv => (kv.1, f kv.2))) by (intros [k v]; cbn; by rewrite Hf).
  pose proof (sort_by_perm key_compare (map (fun kv => (kv.1, f kv.2)) m)) as Hp.
  apply Permutation_map_inv in Hp as (m' & -> & Hm). exists m'. by split.
Qed.

Lemma strings_sorted l : sortDeep (strings l) = strings l.
Proof. unfold strings. cbn [sortDeep]. by rewrite map_map. Qed.

Lemma connectorIds_lowered : Forall lowered connectorIds.
Proof. repeat constructor. Qed.

Lemma read_order_strings l acc :
  Forall (fun id => id ∈ connectorIds) l -> NoDup (acc ++ l) ->
  read_order (map JStr l) acc = Some (acc ++ l).
Proof.
  revert acc. induction l as [|id l IH]; intros acc Hf Hn; cbn [map read_order as_string].
  { by rewrite app_nil_r. }
  apply Forall_cons in Hf as [Hid Hf].
  rewrite (proj1 (Forall_forall lowered connectorIds) connectorIds_lowered id Hid).
  rewrite !bool_decide_true by done. rewrite bool_decide_false.
  - cbn. rewrite IH, <- app_assoc; [done|done|]. by rewrite <- app_assoc.
  - apply NoDup_app in Hn as (_ & Hd & _). intros Hin. apply (Hd id Hin). left.
Qed.

Lemma NoDup_bounded (l k : list string) :
  NoDup l -> Forall (fun x => x ∈ k) l -> (length l <= length k)%nat.
Proof.
  intros Hn Hf. apply submseteq_length, NoDup_submseteq; [done|].
  intros x Hx. by eapply Forall_forall in Hf.
Qed.

Lemma normalizeOrder_strings l :
  NoDup l -> Forall (fun id => id ∈ connectorIds) l -> normalizeOrder (strings l) = Some l.
Proof.
  intros Hn Hf. unfold normalizeOrder, strings. cbn [as_array]. rewrite length_map.
  pose proof (NoDup_bounded _ _ Hn Hf) as Hl. apply Nat.leb_le in Hl. rewrite Hl.
  by rewrite read_order_strings.
Qed.

Lemma read_show_strings l acc :
  Forall clean l -> NoDup (acc ++ l) -> read_show (map JStr l) acc = Some (acc ++ l).
Proof.
  revert acc. induction l as [|id l IH]; intros acc Hf Hn; cbn [map read_show as_string].
  { by rewrite app_nil_r. }
  apply Forall_cons in Hf as [(Hlow & Htrim & Hne) Hf]. rewrite Hlow, Htrim.
  unfold push_shown. rewrite bool_decide_false.
  - destruct (str_eqb id "") eqn:E; [by apply str_eqb_eq in E|]. cbn.
    rewrite IH, <- app_assoc; [done|done|]. by rewrite <- app_assoc.
  - apply NoDup_app in Hn as (_ & Hd & _). intros Hin. apply (Hd id Hin). left.
Qed.

Lemma normalizeShow_strings l :
  NoDup l -> Forall clean l -> normalizeShow (strings l) = Some l.
Proof. intros Hn Hf. unfold normalizeShow, strings. cbn [as_array]. by rewrite read_show_strings. Qed.

Lemma normalizeWidth_int n :
  MIN_STATUSLINE_WIDTH <= n <= MAX_STATUSLINE_WIDTH -> normalizeWidth (JNum (int n)) = Some n.
Proof.
  unfold MIN_STATUSLINE_WIDTH, MAX_STATUSLINE_WIDTH. intros Hn.
  unfold normalizeWidth, as_safe_int. cbn [as_num]. rewrite to_safe_int_int by lia.
  unfold MIN_STATUSLINE_WIDTH, MAX_STATUSLINE_WIDTH.
  by rewrite !(proj2 (Z.leb_le _ _)) by lia.
Qed.

Lemma read_hosts hosts acc :
  valid_hosts (acc ++ hosts) ->
  foldl (fun hosts kv =>
    match kv.2 with JStr s => set_host hosts (lowerCase kv.1) s | _ => hosts end)
    acc (map (fun kv => (kv.1, JStr kv.2)) hosts) = acc ++ hosts.
Proof.
  revert acc. induction hosts as [|[k v] hosts IH]; intros acc [Hn Hf]; cbn [map foldl fst snd].
  { by rewrite app_nil_r. }
  assert (Hk : lowered k /\ k <> "__proto__").
  { eapply (proj1 (Forall_forall _ _) Hf). rewrite fmap_app. apply elem_of_app. right. left. }
  destruct Hk as [Hlow Hproto]. rewrite Hlow. unfold set_host.
  destruct (str_eqb k "__proto__") eqn:E; [by apply str_eqb_eq in E|].
  rewrite assoc_set_new.
  { rewrite IH, <- app_assoc; [done|]. split; by rewrite <- app_assoc. }
  rewrite fmap_app in Hn. apply NoDup_app in Hn as (_ & Hd & _).
  intros Hin. apply (Hd k Hin). cbn. left.
Qed.

#[export] Instance valid_hosts_perm : Proper (Permutation ==> iff) valid_hosts.
Proof. intros a b E. unfold valid_hosts. by rewrite E. Qed.

#[export] Instance valid_visibility_perm : Proper (Permutation ==> iff) valid_visibility.
Proof. intros a b E. unfold valid_visibility. by rewrite E. Qed.

Lemma hosts_read_back hosts :
  valid_hosts hosts ->
  normalizeHosts (sortDeep (JObj (map (fun kv => (kv.1, JStr kv.2)) hosts))) ≡ₚ hosts.
Proof.
  intros Hv. destruct (object_reads JStr hosts) as (hosts' & Hp & ->); [done|].
  cbn [normalizeHosts]. rewrite (read_hosts hosts' []); [done|]. by rewrite app_nil_l, Hp.
Qed.

Lemma visibility_read_back vis :
  valid_visibility vis ->
  exists fs, sortDeep (JObj (map (fun kv => (kv.1, JBool kv.2)) vis)) = JObj fs /\
    from_entries (omap visibility_entry fs) ≡ₚ vis.
Proof.
  intros Hv. destruct (object_reads JBool vis) as (vis' & Hp & ->); [done|].
  eexists. split; [done|]. rewrite <- Hp in Hv |- *. destruct Hv as [Hn Hf].
  replace (omap _ _) with vis'; [unfold from_entries; by rewrite (assoc_sets vis' [])|].
  clear Hp Hn. induction vis' as [|[k b] vis' IH]; [done|].
  csimpl in Hf. apply Forall_cons in Hf as [Hk Hf]. cbn [map omap list_omap].
  unfold visibility_entry at 1. cbn. by rewrite bool_decide_true, <- IH.
Qed.

Definition statusline_fields (sl : StatuslineConfig) : list (string * jsval) :=
  default [] (record_of (statusline_json sl)).

Lemma statusline_keys_distinct sl : NoDup (statusline_fields sl).*1.
Proof.
  destruct sl as [o m w r wr b co st ca sh [sm|] [vi|] ho]; destruct wr;
    apply (bool_decide_unpack _); vm_compute; exact I.
Qed.

(** Reading one key of the printed section. *)
Lemma statusline_field sl k v :
  get (statusline_fields sl) k = v -> get (sort_fields (statusline_fields sl)) k = sortDeep v.
Proof. intros <-. apply get_sort_fields, statusline_keys_distinct. Qed.

Lemma statusline_sorted sl :
  sortDeep (statusline_json sl) = JObj (sort_fields (statusline_fields sl)).
Proof. reflexivity. Qed.

Lemma statusline_reads_back sl :
  valid_statusline sl -> normalizeStatusline (sortDeep (statusline_json sl)) ≡ sl.
Proof.
  intros [[On Of] Hw Hr Hwr [Sn Sf] Hm Hv Hh]. rewrite statusline_sorted.
  pose proof (statusline_field sl) as Hget.
  set (fs := sort_fields (statusline_fields sl)) in *.
  destruct (visibility_read_back (default [] (sl_visibility sl))) as (vis & Ev & Hvis).
  { by destruct (sl_visibility sl); [|split; constructor]. }
  destruct sl as [o m w r wr b co st ca sh sm vi ho].
  cbn [sl_order sl_width sl_rows sl_wrap sl_show sl_showMode sl_visibility sl_hosts] in *.
  assert (Hread : normalizeStatusline (JObj fs) =
    {| sl_order := o; sl_meters := m; sl_width := w; sl_rows := r; sl_wrap := wr; sl_bars := b;
       sl_color := co; sl_style := st; sl_captions := ca; sl_show := sh; sl_showMode := sm;
       sl_visibility := (fun _ => from_entries (omap visibility_entry vis)) <$> vi;
       sl_hosts := normalizeHosts (sortDeep (JObj (map (fun kv => (kv.1, JStr kv.2)) ho))) |}).
  { cbn [normalizeStatusline].
    rewrite (Hget "order" (strings o)), strings_sorted, normalizeOrder_strings by done.
    rewrite (Hget "meters" (JStr (name_of m))), (Hget "color" (JStr (name_of co))),
      (Hget "style" (JStr (name_of st))), (Hget "captions" (JStr (name_of ca))) by done.
    rewrite (Hget "width" (JNum (int w))), (Hget "rows" (JNum (int r))) by done.
    rewrite (Hget "bars" (JBool b)) by done.
    rewrite (Hget "show" (strings sh)), strings_sorted, normalizeShow_strings by done.
    rewrite (Hget "hosts" (JObj (map (fun kv => (kv.1, JStr kv.2)) ho))) by done.
    rewrite (Hget "wrap" (default JUndef (JBool <$> wr)))
      by (destruct sm, wr, vi; reflexivity).
    rewrite (Hget "showMode" (match sm with None => JUndef | _ => JStr "explicit" end))
      by (destruct Hm as [-> | ->], wr, vi; reflexivity).
    rewrite (Hget "visibility"
      (match vi with None => JUndef | Some v => JObj (map (fun kv => (kv.1, JBool kv.2)) v) end))
      by (destruct sm, wr, vi; reflexivity).
    cbn [sortDeep]. rewrite normalizeWidth_int, !read_name_of by done. cbn [default].
    f_equal.
    - by destruct Hr as [-> | ->].
    - by destruct Hwr as [-> | ->].
    - by destruct Hm as [-> | ->].
    - destruct vi as [vi|]; [|done]. cbn [default from_option id sortDeep] in *. rewrite Ev. done. }
  rewrite Hread. split; cbn; [done|by apply hosts_read_back|].
  destruct vi as [vi|]; constructor. done.
Qed.

Lemma rows_read rows acc :
  valid_rows_of (acc ++ rows) -> foldl push_row acc (map sortDeep (map row_json rows)) = acc ++ rows.
Proof.
  revert acc. induction rows as [|row rows IH]; intros acc [Hn Hf]; cbn [map foldl].
  { by rewrite app_nil_r. }
  destruct row as [id detected].
  assert (Hid : id ∈ connectorIds).
  { eapply (proj1 (Forall_forall _ _) Hf). rewrite fmap_app. apply elem_of_app. right. left. }
  assert (Hnew : id ∉ cc_id <$> acc).
  { rewrite fmap_app in Hn. apply NoDup_app in Hn as (_ & Hd & _).
    intros Hin. apply (Hd id Hin). left. }
  unfold push_row at 2. cbn [row_json sortDeep map cc_id cc_detected fst snd].
  change (get (sort_by _ _) "id") with (JStr id).
  change (get (sort_by _ _) "detected") with (JBool detected).
  cbn iota. rewrite bool_decide_true, bool_decide_false by done. cbn [andb negb].
  rewrite IH, <- app_assoc; [done|]. split; by rewrite <- app_assoc.
Qed.

Lemma connectors_read_back rows :
  valid_rows_of rows -> normalizeConnectors (sortDeep (JArr (map row_json rows))) = rows.
Proof.
  intros [Hn Hf]. cbn [sortDeep normalizeConnectors]. rewrite take_ge.
  - by apply (rows_read rows []).
  - rewrite !length_map, <- (length_fmap cc_id). by apply NoDup_bounded.
Qed.

(** *** The size limit *)

Lemma within_limit_exact v :
  readable_numbers v -> unique_keys v -> is_undef v = false ->
  within_limit v = (document_bytes v <=? MAX_JSON_FILE_BYTES).
Proof.
  intros Hr Hu Hv. unfold within_limit.
  assert (Hb : document_bytes v <= room (sortDeep v)).
  { unfold document_bytes, canonicalJson. rewrite stringify_text.
    assert (is_undef (sortDeep v) = false) as -> by (by destruct v).
    apply text_room. by destruct (sortDeep_ok v Hr Hu). }
  destruct (Z.leb_spec (room (sortDeep v)) MAX_JSON_FILE_BYTES); [|done].
  symmetry. apply Z.leb_le. lia.
Qed.

Lemma within_written v : within_limit v = true -> written v = write_json v.
Proof. unfold written. by intros ->. Qed.

Lemma poll_written enabled : written (poll_json enabled) = write_json (poll_json enabled).
Proof. apply within_written. by destruct enabled. Qed.

(** What a writer prints, the next reader reads. *)
Lemma config_reads_back c refused poll :
  valid_config c -> refused = false ->
  exists c', readConfig {| sd_refused := refused; sd_config := regular_path (write_json (config_json c));
                           sd_poll := poll |} = inr c' /\ c' ≡ c.
Proof.
  intros [Hrows Hsl] ->. unfold readConfig. cbn [sd_refused sd_config read_entry write_json].
  unfold config_json.
  set (fs := [("version", JNum (int 1)); _; _; _]). unfold write_json.
  change (sortDeep (JObj fs)) with (JObj (sort_fields fs)). cbn iota.
  assert (Hget : forall k v, get fs k = v -> get (sort_fields fs) k = sortDeep v).
  { intros k v <-. apply get_sort_fields. apply (bool_decide_unpack _). vm_compute. exact I. }
  rewrite (Hget "version" (JNum (int 1))) by done. cbn [sortDeep]. rewrite is_number_int.
  rewrite (Hget "connectors" (JArr (map row_json (oc_connectors c)))) by done.
  rewrite (Hget "statusline" (statusline_json (oc_statusline c))) by done.
  rewrite (Hget "providers" _ eq_refl). eexists. split; [reflexivity|]. split; cbn.
  - by apply connectors_read_back.
  - by apply statusline_reads_back.
  - by destruct (oc_providers c).
Qed.

(** ** The operations *)

Lemma host_pair_valid hosts pair : valid_hosts hosts -> valid_hosts (host_pair hosts pair).
Proof.
  intros Hv. unfold host_pair. destruct (split_on _ _ _) as [|h [|s [|]]]; try done.
  destruct (_ && _); [|done]. apply set_host_valid; [apply lowerCase_idem|done].
Qed.

Lemma accepted_inr message r sl : accepted_or message r = inr sl -> r = Some sl.
Proof. unfold accepted_or. destruct r; [by intros [= <-]|done]. Qed.

Lemma rows_of_valid value n : rows_of value = Some n -> n = 1 \/ n = 2.
Proof. unfold rows_of. destruct (str_eqb value "1"), (str_eqb value "2"); intros [= <-]; auto. Qed.

Lemma width_of_valid value n :
  width_of value = Some n -> MIN_STATUSLINE_WIDTH <= n <= MAX_STATUSLINE_WIDTH.
Proof. unfold width_of. destruct (_ && _); [apply normalizeWidth_valid|done]. Qed.

#[local] Hint Resolve rows_of_valid width_of_valid normalizeOrder_valid normalizeShow_valid : js.

Lemma nothing_listed {A} (P : A -> Prop) : NoDup (@nil A) /\ Forall P [].
Proof. split; constructor. Qed.

Lemma setStatuslineValue_valid sl key value sl' :
  valid_statusline sl -> setStatuslineValue sl key value = inr sl' -> valid_statusline sl'.
Proof.
  intros [Ho Hw Hr Hwr Hs Hm Hvi Hh]. unfold setStatuslineValue.
  destruct (of_name key) as [k|]; [|done].
  destruct k; cbn [set_key]; try (destruct (is_none value); [intros [= <-]|]);
    try (intros H%accepted_inr; apply fmap_Some in H as (? & E & ->)); try (intros [= <-]);
    constructor; cbn; eauto using nothing_listed, no_hosts_valid with js.
  apply foldl_invariant; [apply host_pair_valid|apply no_hosts_valid].
Qed.

Lemma known_ids_switch id : id ∈ known_ids -> id ∈ visibility_keys.
Proof.
  revert id. apply (Forall_forall (fun id => id ∈ visibility_keys) known_ids).
  apply (bool_decide_unpack _). vm_compute. exact I.
Qed.

Lemma switches_valid enabled ids vis :
  Forall (fun id => id ∈ known_ids) ids -> valid_visibility vis ->
  valid_visibility (foldl (fun vis id => assoc_set id enabled vis) vis ids).
Proof.
  intros Hids. revert vis. induction Hids as [|id ids Hid _ IH]; intros vis [Hn Hf]; [done|].
  apply IH. split; [by apply assoc_set_NoDup|]. apply Forall_forall.
  intros k [->|Hk]%elem_of_assoc_set_keys; [by apply known_ids_switch|by eapply Forall_forall in Hf].
Qed.

Lemma show_ids_valid enabled ids sl :
  Forall (fun id => id ∈ known_ids) ids -> valid_statusline sl -> valid_statusline (show_ids enabled ids sl).
Proof.
  intros Hids [Ho Hw Hr Hwr Hs Hm Hvi Hh]. constructor; cbn; auto.
  apply switches_valid; [done|]. by destruct (sl_visibility sl); [|split; constructor].
Qed.

Lemma assoc_set_perm {V} k (v : V) (m m' : list (string * V)) :
  NoDup m.*1 -> m ≡ₚ m' -> assoc_set k v m ≡ₚ assoc_set k v m'.
Proof.
  intros Hn Hp. assert (Hn' : NoDup m'.*1) by (by rewrite <- Hp).
  apply NoDup_Permutation; try (by eapply NoDup_fmap_1, assoc_set_NoDup).
  intros [k' v']. rewrite <- !assoc_get_elem by (by apply assoc_set_NoDup).
  rewrite !assoc_get_set. case_decide; [done|]. by rewrite !assoc_get_elem, Hp.
Qed.

Lemma switches_perm enabled ids (vis vis' : list (string * bool)) :
  NoDup vis.*1 -> vis ≡ₚ vis' ->
  foldl (fun vis id => assoc_set id enabled vis) vis ids ≡ₚ
  foldl (fun vis id => assoc_set id enabled vis) vis' ids.
Proof.
  revert vis vis'. induction ids as [|id ids IH]; intros vis vis' Hn Hp; [done|].
  apply IH; [by apply assoc_set_NoDup|by apply assoc_set_perm].
Qed.

Lemma show_ids_same enabled ids a b :
  valid_statusline a -> a ≡ b -> show_ids enabled ids a ≡ show_ids enabled ids b.
Proof.
  intros Ha E. unfold show_ids. apply with_visibility_proper; [done|]. constructor.
  apply valid_switches in Ha. destruct E as [_ _ Hv].
  destruct Hv; cbn in *; [|done]. apply switches_perm; [apply Ha|done].
Qed.

(** ** The file implements the configuration *)

Inductive ConfigOp :=
| op_set (key value : string)                  (** [config set statusline.key value] *)
| op_switch (enabled : bool) (ids : list string)   (** [terminal show], [terminal hide] *)
| op_init                                      (** [init] *)
| op_poll (enabled : bool).                    (** [config set providers.claude.poll] *)

Section Implementation.
Context (detect : string -> bool).

(** What each command means, on the configuration alone. *)
Definition apply_op (c : OpenLimiterConfig) (op : ConfigOp) : OpenLimiterConfig :=
  match op with
  | op_set key value =>
      match setStatuslineValue (oc_statusline c) key value with
      | inr sl => with_statusline c sl
      | inl _ => c
      end
  | op_switch enabled ids =>
      with_statusline c (show_ids enabled (map resolve ids) (oc_statusline c))
  | op_init => with_connectors c (connectorRows detect)
  | op_poll enabled => with_providers c {| pv_poll := enabled; pv_recorded := true |}
  end.

(** How a command ends: [rp_warned] exits with 0 and says on standard error
    that the copy in this document could not be written. *)
Inductive Reported := rp_failed | rp_done | rp_warned.

Definition reported (r : CliResult) : Reported :=
  if exitCode r =? EXIT_OK then if str_eqb (stderr r) "" then rp_done else rp_warned else rp_failed.

(** What each command does to the state directory, and how it ends. *)
Definition run_op (fate : Fate) (d : StateDir) (op : ConfigOp) : StateDir * Reported :=
  match op with
  | op_set key value =>
      let r := configCommand detect fate
                 ["config"; "set"; "statusline." +:+ key; value] d d in
      (r.1, reported r.2)
  | op_switch enabled ids =>
      match terminalVisibility detect fate ids enabled d with
      | Some d' => (d', rp_done)
      | None => (d, rp_failed)
      end
  | op_init =>
      match initialize detect fate None d with
      | Some (d', _, _) => (d', rp_done)
      | None => (d, rp_failed)
      end
  | op_poll enabled =>
      let r := configCommand detect fate
                 ["config"; "set"; "providers.claude.poll"; bool_text enabled] d d in
      (r.1, reported r.2)
  end.

(** A history of commands, each with its fate: the directory it leaves, and
    the commands that exited with 0 without a warning. *)
Fixpoint run_ops (history : list (Fate * ConfigOp)) (d : StateDir) : StateDir * list ConfigOp :=
  match history with
  | [] => (d, [])
  | (fate, op) :: history =>
      let '(d', ended) := run_op fate d op in
      let '(d'', done) := run_ops history d' in
      (d'', match ended with rp_done => op :: done | _ => done end)
  end.

(** What an operation makes of a configuration is within the limit of the
    reader, and so is all that a history writes. *)
Definition op_fits (c : OpenLimiterConfig) (op : ConfigOp) : bool := within_limit (config_json (apply_op c op)).

Fixpoint history_fits (history : list (Fate * ConfigOp)) (d : StateDir) : bool :=
  match history with
  | [] => true
  | (fate, op) :: history =>
      match current_config detect d with Some c => op_fits c op | None => true end &&
      history_fits history (run_op fate d op).1
  end.

(** The directory holds a configuration: the file's, or the default one. *)
Definition holds_config (d : StateDir) (c : OpenLimiterConfig) : Prop :=
  exists c', current_config detect d = Some c' /\ c' ≡ c.

Lemma write_holds goes_through c d d' :
  valid_config c -> within_limit (config_json c) = true -> writeConfig goes_through c d = Some d' ->
  holds_config d' c /\ sd_refused d = false /\ goes_through = true.
Proof.
  intros Hv Hw. unfold writeConfig, replace_entry.
  destruct (sd_refused d) eqn:Er; [done|]. cbn [negb].
  destruct (sd_config d), goes_through; try done. intros [= <-]. rewrite (within_written _ Hw).
  destruct (config_reads_back c false (sd_poll d) Hv eq_refl) as (c' & Hc & Hs).
  split; [|done]. exists c'. unfold current_config. by rewrite Hc.
Qed.

Lemma update_holds fate mutate d d' c n :
  current_config detect d = Some c -> valid_config (mutate c) ->
  within_limit (config_json (mutate c)) = true ->
  updateConfig detect fate mutate d = Some (d', n) -> holds_config d' (mutate c) /\ n = mutate c.
Proof.
  intros Hc Hv Hw. unfold updateConfig. destruct (_ && _); [|done]. rewrite Hc.
  destruct (writeConfig _ _ d) eqn:E; [|done]. intros [= <- <-].
  by destruct (write_holds _ _ _ _ Hv Hw E).
Qed.

(** A setting that goes through, in terms of the configuration it found. *)
Lemma set_command fate key value seen d config :
  current_config detect seen = Some config ->
  configCommand detect fate ["config"; "set"; "statusline." +:+ key; value] seen d =
  match of_name key, setStatuslineValue (oc_statusline config) key value with
  | None, _ => (d, fail EXIT_USAGE ("openlimiter config: unknown statusline key. Known keys: " +:+
                                    key_list +:+ "."))
  | _, inl message => (d, fail EXIT_USAGE ("openlimiter config: " +:+ message))
  | Some k, inr chosen =>
      match updateConfig detect fate (fun latest =>
              with_statusline latest
                match setStatuslineValue (oc_statusline latest) key value with
                | inr next => next
                | inl _ => chosen
                end) d with
      | None => (d, fail EXIT_FAILURE "openlimiter config: configuration could not be written.")
      | Some (d', _) => (d', succeed (configGet [k] chosen))
      end
  end.
Proof.
  intros Hc. unfold configCommand.
  change (parseConfigPath _) with (Some ("statusline", Some key)).
  change (action_of _) with (Some action_set). cbn iota.
  change (str_eqb "statusline" PROVIDERS_SECTION) with false.
  change (str_eqb "statusline" CONFIG_SECTION) with true. cbn [negb].
  destruct (of_name key) as [k|] eqn:Ek; [|done]. unfold statuslineCommand. rewrite Hc.
  apply of_name_Some in Ek as <-. done.
Qed.

Lemma refused_command code message : code <> EXIT_OK -> (exitCode (fail code message) =? EXIT_OK) = false.
Proof. intros Hc. by apply Z.eqb_neq. Qed.

Lemma apply_op_valid c op :
  match op with op_switch _ ids => Forall (fun id => id ∈ known_ids) (map resolve ids) | _ => True end ->
  valid_config c -> valid_config (apply_op c op).
Proof.
  intros Hop [Hr Hs]. destruct op; cbn [apply_op].
  - destruct (setStatuslineValue _ _ _) eqn:E; [done|].
    constructor; [done|]. by eapply setStatuslineValue_valid.
  - constructor; [done|]. by apply show_ids_valid.
  - constructor; [apply connectorRows_valid|done].
  - by constructor.
Qed.

Lemma apply_op_same c c' op : valid_config c -> c ≡ c' -> apply_op c op ≡ apply_op c' op.
Proof.
  intros [_ Hv] [E1 E2 E3]. destruct op; cbn [apply_op].
  - pose proof (setStatuslineValue_proper _ _ E2 _ _ (eq_refl key) _ _ (eq_refl value)) as Hs.
    destruct (setStatuslineValue _ _ _), (setStatuslineValue _ _ _); by try split.
  - split; [done| |done]. by apply show_ids_same.
  - by split.
  - by split.
Qed.

Lemma update_op fate mutate d d' c n op :
  current_config detect d = Some c -> mutate c = apply_op c op -> valid_config (apply_op c op) ->
  op_fits c op = true -> updateConfig detect fate mutate d = Some (d', n) -> holds_config d' (apply_op c op).
Proof. unfold op_fits. intros Hc Hm Hv Hw Hu. rewrite <- Hm in *. by eapply update_holds. Qed.

Lemma poll_entry goes_through enabled d d' :
  writeClaudePollDocument goes_through enabled d = Some d' ->
  sd_refused d' = sd_refused d /\ sd_config d' = sd_config d /\
  sd_poll d' = regular_path (write_json (poll_json enabled)).
Proof.
  unfold writeClaudePollDocument, replace_entry. destruct (sd_poll d), goes_through; try done.
  rewrite poll_written. by intros [= <-].
Qed.

Lemma current_config_ext d d' :
  sd_refused d' = sd_refused d -> sd_config d' = sd_config d ->
  current_config detect d' = current_config detect d.
Proof. unfold current_config, readConfig. by intros -> ->. Qed.

Lemma poll_command fate enabled d :
  configCommand detect fate ["config"; "set"; "providers.claude.poll"; bool_text enabled] d d =
  match setClaudePoll detect fate enabled d with
  | None => (d, fail EXIT_FAILURE "openlimiter config: configuration could not be written.")
  | Some (d', mirrored) =>
      (d', {| exitCode := EXIT_OK; stdout := poll_line (bool_text enabled);
              stderr := if mirrored then "" else CLAUDE_POLL_MIRROR_FAILED |})
  end.
Proof. by destruct enabled. Qed.

Lemma run_op_holds fate d op d' ended c :
  current_config detect d = Some c -> op_fits c op = true -> run_op fate d op = (d', ended) ->
  if ended is rp_done then valid_config (apply_op c op) /\ holds_config d' (apply_op c op)
  else current_config detect d' = Some c.
Proof.
  intros Hc Hfit. pose proof (current_config_valid _ _ _ Hc) as Hv.
  destruct op as [key value|enabled ids| |enabled]; cbn [run_op].
  - rewrite (set_command fate key value d d c Hc).
    pose proof (apply_op_valid c (op_set key value) I Hv) as Hv'. cbn [apply_op] in Hv'.
    destruct (of_name key) as [k|]; [|by intros [= <- <-]].
    destruct (setStatuslineValue _ _ _) as [m|chosen] eqn:E; [by intros [= <- <-]|].
    destruct (updateConfig _ _ _ _) as [[d1 n]|] eqn:Eu; intros [= <- <-]; [|done].
    cbn [apply_op]. rewrite E. split; [done|].
    eapply (update_op _ _ _ _ _ _ (op_set key value)) in Eu; try done; cbn [apply_op] in *; by rewrite ?E in *.
  - unfold terminalVisibility.
    destruct (_ && _) eqn:Eg; [|by intros [= <- <-]]. apply andb_true_iff in Eg as [_ Ek].
    assert (Hk : Forall (fun id => id ∈ known_ids) (map resolve ids)).
    { apply Forall_forall. intros id Hid. apply forallb_forall with (x := id) in Ek.
      - by apply bool_decide_eq_true in Ek.
      - by apply list_elem_of_In. }
    pose proof (apply_op_valid c (op_switch enabled ids) Hk Hv) as Hv'.
    destruct (updateConfig _ _ _ _) as [[d1 n]|] eqn:Eu; intros [= <- <-]; [|done].
    split; [done|]. by eapply (update_op _ _ _ _ _ _ (op_switch enabled ids)) in Eu.
  - unfold initialize. pose proof (apply_op_valid c op_init I Hv) as Hv'.
    destruct (updateConfig _ _ _ _) as [[d1 n]|] eqn:Eu; intros [= <- <-]; [|done].
    split; [done|]. by eapply (update_op _ _ _ _ _ _ op_init) in Eu.
  - rewrite poll_command. unfold setClaudePoll. destruct (_ && _); [|by intros [= <- <-]].
    destruct (writeClaudePollDocument _ _ d) as [d1|] eqn:Ew; [|by intros [= <- <-]].
    apply poll_entry in Ew as (Er & Ec & _).
    pose proof (current_config_ext d d1 Er Ec) as Hd1. rewrite Hc in Hd1.
    unfold mirror_poll. rewrite Hd1. destruct (fa_owned_mirror fate); [|by intros [= <- <-]].
    pose proof (apply_op_valid c (op_poll enabled) I Hv) as Hv'.
    destruct (writeConfig _ _ d1) as [d2|] eqn:E; intros [= <- <-]; [|done].
    split; [done|]. by apply (write_holds _ _ _ _ Hv' Hfit) in E as [E _].
Qed.

(** C9: the file implements the configuration. Whatever readable document a
    directory starts with, and whatever becomes of the locks and writes of each
    command, after any history of [config set], [terminal show], [terminal
    hide], [init] and [config set providers.claude.poll] whose documents stay
    within the reader's limit of [MAX_JSON_FILE_BYTES], the next reader finds a
    valid configuration: the one that the commands which exited with 0 make of
    the first, up to the order of the keys of [hosts] and [visibility]. One
    exit with 0 is not counted: the switch of the poll whose copy here could
    not be written, which says so on standard error and changes its own
    document alone. *)
Theorem the_file_implements_the_configuration history d c d' done :
  current_config detect d = Some c -> history_fits history d = true -> run_ops history d = (d', done) ->
  exists c', current_config detect d' = Some c' /\ valid_config c' /\ c' ≡ foldl apply_op c done.
Proof.
  intros Hc. enough (forall c0, valid_config c -> c ≡ c0 -> history_fits history d = true ->
    run_ops history d = (d', done) ->
    exists c', current_config detect d' = Some c' /\ c' ≡ foldl apply_op c0 done) as Hall.
  { intros Hf Hr. destruct (Hall c (current_config_valid _ _ _ Hc) ltac:(done) Hf Hr) as (c' & Hc' & E).
    exists c'. split_and!; [done|by eapply current_config_valid|done]. }
  clear -Hc. revert d c d' done Hc. induction history as [|[fate op] history IH];
    intros d c d' ops Hc c0 Hv E; cbn [run_ops history_fits].
  { intros _ [= <- <-]. by exists c. }
  rewrite Hc. intros [Hfit Hfits]%andb_true_iff.
  destruct (run_op fate d op) as [d1 ended] eqn:E1. cbn [fst] in Hfits.
  destruct (run_ops history d1) as [d2 ops'] eqn:E2. intros [= <- <-].
  pose proof (run_op_holds fate d op d1 ended c Hc Hfit E1) as H1.
  destruct ended; cbn [foldl]; [by apply (IH d1 c d2 ops' H1 c0)| |by apply (IH d1 c d2 ops' H1 c0)].
  destruct H1 as [Hv1 (c1 & Hc1 & Hs1)].
  apply (IH d1 c1 d2 ops' Hc1 _ (current_config_valid _ _ _ Hc1)); [|done..].
  etrans; [exact Hs1|]. by apply apply_op_same.
Qed.
End Implementation.

(** ** What a command prints *)

Lemma set_key_frame sl key value sl' k k' :
  of_name key = Some k -> setStatuslineValue sl key value = inr sl' -> k' <> k ->
  statuslineValueText sl' k' = statuslineValueText sl k'.
Proof.
  unfold setStatuslineValue. intros ->.
  destruct k; cbn [set_key]; try (destruct (is_none value); [intros [= <-]|]);
    try (intros H%accepted_inr; apply fmap_Some in H as (? & _ & ->)); try (intros [= <-]);
    by destruct k'.
Qed.

Lemma get_command detect fate k seen d config :
  current_config detect seen = Some config ->
  configCommand detect fate ["config"; "get"; "statusline." +:+ name_of k] seen d =
  (d, succeed (configGet [k] (oc_statusline config))).
Proof.
  intros Hc. unfold configCommand.
  change (parseConfigPath _) with (Some ("statusline", Some (name_of k))).
  change (action_of _) with (Some action_get). cbn iota.
  change (str_eqb "statusline" PROVIDERS_SECTION) with false.
  change (str_eqb "statusline" CONFIG_SECTION) with true. cbn [negb].
  rewrite of_name_of. unfold statuslineCommand. by rewrite Hc.
Qed.

Lemma one_line a b k :
  statuslineValueText a k = statuslineValueText b k -> configGet [k] a = configGet [k] b.
Proof. unfold configGet. cbn. by intros ->. Qed.

(** The line a setting of [hosts] prints. *)
Definition hosts_line (hosts : list (string * string)) : string :=
  "statusline.hosts=" +:+ list_text (map (fun kv => kv.1 +:+ ":" +:+ kv.2) hosts).

Lemma configGet_hosts sl : configGet [key_hosts] sl = hosts_line (sl_hosts sl).
Proof. done. Qed.

(** C15: what [config set] prints is what [config get] prints next. A setting
    that exits with 0, of a document within the reader's limit, leaves a file
    from which the key set reads exactly as the command printed it, and every
    other key exactly as it read before. [hosts], an object the writer sorts,
    is the one key whose entries may come back in another order: the same
    entries, each as often. *)
Theorem set_prints_what_get_prints detect fate fate' key value d d' r k :
  configCommand detect fate ["config"; "set"; "statusline." +:+ key; value] d d = (d', r) ->
  exitCode r = EXIT_OK -> history_fits detect [(fate, op_set key value)] d = true ->
  let get d := configCommand detect fate' ["config"; "get"; "statusline." +:+ name_of k] d d in
  let expected := if str_eqb (name_of k) key then r else (get d).2 in
  if bool_decide (k = key_hosts) then
    exists hosts hosts', hosts' ≡ₚ hosts /\ expected = succeed (hosts_line hosts) /\
      get d' = (d', succeed (hosts_line hosts'))
  else get d' = (d', expected).
Proof.
  intros Hr Hok Hfit. destruct (current_config detect d) as [c|] eqn:Hc.
  2:{ exfalso. unfold configCommand in Hr.
      change (parseConfigPath _) with (Some ("statusline", Some key)) in Hr.
      change (action_of _) with (Some action_set) in Hr. cbn iota in Hr.
      change (str_eqb "statusline" PROVIDERS_SECTION) with false in Hr.
      change (str_eqb "statusline" CONFIG_SECTION) with true in Hr. cbn [negb] in Hr.
      unfold statuslineCommand in Hr. rewrite Hc in Hr.
      destruct (of_name key); injection Hr as <- <-; discriminate Hok. }
  cbn [history_fits] in Hfit. rewrite Hc in Hfit. apply andb_true_iff in Hfit as [Hfit _].
  pose proof (run_op_holds detect fate d (op_set key value) d' (reported r) c Hc Hfit) as Hrun.
  cbn [run_op] in Hrun. rewrite Hr in Hrun. cbn [fst snd] in Hrun. specialize (Hrun eq_refl).
  rewrite (set_command detect fate key value d d c Hc) in Hr.
  destruct (of_name key) as [k0|] eqn:Ek; [|injection Hr as <- <-; discriminate Hok].
  destruct (setStatuslineValue _ _ _) as [m|chosen] eqn:E; [injection Hr as <- <-; discriminate Hok|].
  destruct (updateConfig _ _ _ _) as [[d1 n]|]; [|injection Hr as <- <-; discriminate Hok].
  injection Hr as -> <-. destruct Hrun as [_ (c' & Hc' & Hs)]. cbn [apply_op] in Hs. rewrite E in Hs.
  destruct Hs as [_ Hs _]. cbn [with_statusline oc_statusline] in Hs. intros get expected.
  assert (Hnext : get d' = (d', succeed (configGet [k] (oc_statusline c'))))
    by (by apply (get_command detect fate' k)).
  assert (Hexp : expected = succeed (configGet [k] chosen)).
  { unfold expected. destruct (str_eqb (name_of k) key) eqn:En.
    - apply str_eqb_eq in En as <-. rewrite of_name_of in Ek. by injection Ek as ->.
    - unfold get. rewrite (get_command detect fate' k d d c Hc). cbn [snd]. f_equal. symmetry.
      apply one_line, (set_key_frame _ _ _ _ _ _ Ek E).
      intros ->. apply of_name_Some in Ek. by rewrite Ek, str_eqb_refl in En. }
  case_bool_decide as Hk.
  - subst k. exists (sl_hosts chosen), (sl_hosts (oc_statusline c')). rewrite Hnext, Hexp, !configGet_hosts.
    split_and!; [by apply same_hosts|done|done].
  - rewrite Hnext, Hexp. do 2 f_equal. by apply one_line, text_proper.
Qed.

(** ** Text and back *)

Definition free_of (u : ascii) (s : string) : Prop :=
  str_forall (fun c => negb (Ascii.eqb c u)) s = true.

Lemma split_on_end u x acc : free_of u x -> split_on u x acc = [acc +:+ x].
Proof.
  unfold free_of. revert acc. induction x as [|c x IH]; intros acc Hx; cbn [split_on].
  { by rewrite str_app_nil_r. }
  cbn in Hx. bools. rewrite (proj2 (Ascii.eqb_neq c u)); [|by apply Ascii.eqb_neq].
  by rewrite IH, <- str_app_assoc.
Qed.

Lemma split_on_first u x y acc :
  free_of u x -> split_on u (x +:+ String u y) acc = (acc +:+ x) :: split_on u y "".
Proof.
  unfold free_of. revert acc. induction x as [|c x IH]; intros acc Hx.
  { change ("" +:+ String u y) with (String u y). cbn [split_on].
    by rewrite Ascii.eqb_refl, str_app_nil_r. }
  cbn in Hx. bools. change (String c x +:+ String u y) with (String c (x +:+ String u y)).
  cbn [split_on]. rewrite (proj2 (Ascii.eqb_neq c u)); [|by apply Ascii.eqb_neq].
  by rewrite IH, <- str_app_assoc.
Qed.

Lemma pieces_join l : l <> [] -> Forall (free_of ",") l -> pieces (join "," l) = l.
Proof.
  unfold pieces. induction l as [|x l IH]; [done|]. intros _ [Hx Hl]%Forall_cons.
  destruct l as [|y l]; [by apply split_on_end|].
  change (join "," (x :: y :: l)) with (x +:+ String "," (join "," (y :: l))).
  by rewrite split_on_first, IH.
Qed.

(** A list that reads as none is one of three. *)
Lemma none_text l :
  l <> [] -> Forall (free_of ",") l -> is_none (join "," l) = true -> l = [""] \/ l = ["NONE"] \/ l = ["none"].
Proof.
  intros Hne Hf Hn. rewrite <- (pieces_join l Hne Hf). unfold is_none in Hn.
  apply orb_true_iff in Hn as [Hn|Hn]; [apply orb_true_iff in Hn as [Hn|Hn]|];
    apply str_eqb_eq in Hn as ->; auto.
Qed.

(** A part of a host pair as [config set] stores it. *)
Definition pair_part (s : string) : Prop := trim s = s /\ s <> "" /\ free_of "," s /\ free_of ":" s.

(** What a section must not hold for its text to be unambiguous: a comma in a
    shown name, the one name [none], a blank or a separator in a host pair. *)
Record printable (sl : StatuslineConfig) : Prop := {
  printable_show : Forall (free_of ",") (sl_show sl) /\ sl_show sl <> ["none"];
  printable_hosts : Forall (fun kv => pair_part kv.1 /\ pair_part kv.2) (sl_hosts sl) }.

Lemma connectorIds_plain : Forall (fun id => trim id = id /\ free_of "," id) connectorIds.
Proof. repeat constructor. Qed.

Lemma connectorIds_named id : id ∈ connectorIds -> ~ id ∈ [""; "NONE"; "none"].
Proof.
  revert id. apply (Forall_forall (fun id => ~ id ∈ [""; "NONE"; "none"]) connectorIds).
  apply (bool_decide_unpack _). vm_compute. exact I.
Qed.

Lemma map_trim l : Forall (fun s => trim s = s) l -> map trim l = l.
Proof. induction 1 as [|s l Hs Hl IH]; cbn; by rewrite ?Hs, ?IH. Qed.

Lemma free_of_app u x y : free_of u x -> free_of u y -> free_of u (x +:+ y).
Proof. unfold free_of. intros Hx Hy. by rewrite str_forall_app, Hx, Hy. Qed.

Lemma pair_reads hosts acc :
  Forall (fun kv => pair_part kv.1 /\ pair_part kv.2) hosts -> valid_hosts (acc ++ hosts) ->
  foldl host_pair acc (map (fun kv => kv.1 +:+ ":" +:+ kv.2) hosts) = acc ++ hosts.
Proof.
  intros Hp. revert acc. induction Hp as [|[k v] hosts [Hk Hv] Hp IH]; intros acc [Hn Hf].
  { by rewrite app_nil_r. }
  cbn [map foldl fst snd] in *.
  assert (Hkey : lowered k /\ k <> "__proto__").
  { eapply (proj1 (Forall_forall _ _) Hf). rewrite fmap_app. apply elem_of_app. right. left. }
  destruct Hkey as [Hlow Hproto], Hk as (Tk & Nk & _ & Ck), Hv as (Tv & Nv & _ & Cv).
  unfold host_pair at 2. change (":" +:+ v) with (String ":" v).
  rewrite split_on_first, split_on_end by done.
  change ("" +:+ k) with k. change ("" +:+ v) with v. rewrite Tk, Tv, Hlow.
  destruct (str_eqb k "") eqn:E1; [by apply str_eqb_eq in E1|].
  destruct (str_eqb v "") eqn:E2; [by apply str_eqb_eq in E2|]. cbn [negb andb].
  unfold set_host. destruct (str_eqb k "__proto__") eqn:E; [by apply str_eqb_eq in E|].
  rewrite assoc_set_new.
  { rewrite IH, <- app_assoc; [done|]. split; by rewrite <- app_assoc. }
  rewrite fmap_app in Hn. apply NoDup_app in Hn as (_ & Hd & _).
  intros Hin. apply (Hd k Hin). cbn. left.
Qed.

Lemma width_text n :
  MIN_STATUSLINE_WIDTH <= n <= MAX_STATUSLINE_WIDTH -> width_of (decimal n) = Some n.
Proof.
  unfold MIN_STATUSLINE_WIDTH, MAX_STATUSLINE_WIDTH. intros Hn.
  destruct (decimal_plain n) as (Hne & Hd & Hval); [lia|]. unfold width_of.
  assert (Hall : Forall (fun n => (str_length (decimal n) <=? 4) = true) (map Z.of_nat (seq 40 361))).
  { apply (bool_decide_unpack _). vm_compute. exact I. }
  rewrite Hd, Hval, (proj1 (Forall_forall _ _) Hall n).
  - destruct (str_eqb (decimal n) "") eqn:E; [by apply str_eqb_eq in E|]. by apply normalizeWidth_int.
  - apply list_elem_of_fmap. exists (Z.to_nat n). split; [lia|]. apply elem_of_seq. lia.
Qed.

Lemma listed_text (l : list string) :
  l <> [] -> Forall (free_of ",") l -> l <> [""] -> l <> ["NONE"] -> l <> ["none"] ->
  list_text l = join "," l /\ is_none (join "," l) = false /\ pieces (join "," l) = l.
Proof.
  intros Hne Hf H1 H2 H3. split; [by destruct l|]. split; [|by apply pieces_join].
  destruct (is_none _) eqn:E; [|done]. apply none_text in E; naive_solver.
Qed.

(** What [config get] prints, [config set] accepts and restores: for every
    key of a valid section whose texts hold no separator, setting the text
    printed gives the section back ([show] becomes an explicit choice). *)
Theorem get_prints_what_set_accepts sl key :
  valid_statusline sl -> printable sl ->
  setStatuslineValue sl (name_of key) (statuslineValueText sl key) =
  inr (if decide (key = key_show) then with_show sl (sl_show sl) else sl).
Proof.
  intros [[On Of] Hw Hr Hwr [Sn Sf] Hm Hvi Hh] [[Pf Pn] Ph]. unfold setStatuslineValue.
  rewrite of_name_of. destruct key; cbn [statuslineValueText set_key];
    rewrite ?of_name_of; try (by destruct sl).
  - destruct (decide (sl_order sl = [])) as [E|E]; [rewrite E; destruct sl; cbn in E; by subst|].
    pose proof (Forall_impl _ _ _ Of (proj1 (Forall_forall _ _) connectorIds_plain)) as Hp.
    apply Forall_and in Hp as [Ht Hc].
    destruct (listed_text (sl_order sl)) as (-> & -> & ->); try done.
    1-3: intros El; rewrite El in Of; apply Forall_cons in Of as [Of _];
      apply (connectorIds_named _ Of), (bool_decide_unpack _); vm_compute; exact I.
    rewrite map_trim, normalizeOrder_strings by done. by destruct sl.
  - rewrite width_text by done. by destruct sl.
  - destruct Hr as [E|E]; rewrite E; destruct sl; cbn in E; by subst.
  - by destruct sl as [? ? ? ? ? [] ? ? ? ? ? ? ?].
  - destruct (decide (sl_show sl = [])) as [E|E]; [by rewrite E|].
    destruct (listed_text (sl_show sl)) as (-> & -> & ->); try done.
    { intros El. rewrite El in Sf. apply Forall_cons in Sf as [(_ & _ & Hne) _]. done. }
    { intros El. rewrite El in Sf. apply Forall_cons in Sf as [(Hl & _) _]. done. }
    rewrite map_trim by (eapply Forall_impl; [exact Sf|]; by intros s (_ & Ht & _)).
    by rewrite normalizeShow_strings.
  - destruct (decide (sl_hosts sl = [])) as [E|E]; [rewrite E; destruct sl; cbn in E; by subst|].
    set (l := map _ (sl_hosts sl)).
    assert (Hc : Forall (free_of ",") l).
    { apply Forall_map. eapply Forall_impl; [exact Ph|].
      intros [k v] [(_ & _ & Hk & _) (_ & _ & Hv & _)]. by repeat apply free_of_app. }
    assert (Hlong : forall s, str_length s <= 0 \/ free_of ":" s -> l <> [s]).
    { intros s Hs El. unfold l in El. destruct (sl_hosts sl) as [|[k v] [|]]; try done.
      cbn in El. injection El as <-. destruct Hs as [Hs|Hs].
      - rewrite !str_length_app in Hs. pose proof (str_length_nonneg k).
        pose proof (str_length_nonneg v). change (str_length ":") with 1 in Hs. lia.
      - unfold free_of in Hs. rewrite !str_forall_app in Hs. bools. done. }
    destruct (listed_text l) as (-> & -> & ->); try done.
    + intros El. apply map_eq_nil in El. done.
    + apply Hlong. left. done.
    + apply Hlong. right. done.
    + apply Hlong. right. done.
    + unfold l. rewrite (pair_reads _ []) by done. by destruct sl.
Qed.

(** ** One switch *)

Lemma poll_reads_back enabled : readClaudePoll (write_json (poll_json enabled)) = enabled.
Proof.
  change (write_json (poll_json enabled)) with (present (poll_json enabled)).
  unfold poll_json, readClaudePoll.
  change (get _ "version") with (JNum (int 1)). change (get _ "enabled") with (JBool enabled).
  rewrite is_number_int. by destruct enabled.
Qed.

(** A switch that was written. *)
Definition switched (d : StateDir) (enabled : bool) : Prop :=
  sd_poll d = regular_path (write_json (poll_json enabled)).

Lemma switched_reads d enabled :
  switched d enabled ->
  claudePollText d = bool_text enabled /\ readClaudePoll (read_entry (sd_poll d)) = enabled /\
  migration_due d = false.
Proof.
  intros E. unfold claudePollText, migration_due. rewrite E. cbn [read_entry write_json].
  pose proof (poll_reads_back enabled) as Hp. unfold write_json in Hp. by rewrite Hp.
Qed.

Lemma writeConfig_poll goes_through c d d' :
  writeConfig goes_through c d = Some d' -> sd_poll d' = sd_poll d.
Proof.
  unfold writeConfig. destruct (negb _); [|done]. destruct (replace_entry _ _ _); [|done].
  by intros [= <-].
Qed.

Lemma mirror_keeps_switch detect fate enabled d : sd_poll (mirror_poll detect fate enabled d).1 = sd_poll d.
Proof.
  unfold mirror_poll. destruct (current_config _ _), (fa_owned_mirror fate); try done.
  destruct (writeConfig _ _ _) eqn:E; [by apply writeConfig_poll in E|done].
Qed.

(** A set or a migration, as the locked steps they are; a migration acts on a
    first look that may be stale. *)
Inductive PollStep :=
| poll_set (fate : Fate) (enabled : bool)
| poll_migrate (fate : Fate) (seen : StateDir).

(** The directory, and the last choice a set made stand. *)
Definition poll_step (detect : string -> bool) (state : StateDir * option bool) (step : PollStep) :
    StateDir * option bool :=
  match step with
  | poll_set fate enabled =>
      match setClaudePoll detect fate enabled state.1 with
      | Some (d, _) => (d, Some enabled)
      | None => state
      end
  | poll_migrate fate seen => (migrateLegacyClaudePoll fate seen state.1, state.2)
  end.

Definition poll_invariant (d0 : StateDir) (state : StateDir * option bool) : Prop :=
  match state.2 with
  | Some enabled => switched state.1 enabled
  | None => state.1 = d0 \/ migration_due d0 = true /\ switched state.1 true
  end.

Lemma poll_step_invariant detect d0 state step :
  poll_invariant d0 state -> poll_invariant d0 (poll_step detect state step).
Proof.
  destruct state as [d choice]. intros Hi. destruct step as [fate enabled|fate seen]; cbn [poll_step fst snd].
  - destruct (setClaudePoll _ _ _ _) as [[d' mirrored]|] eqn:E; [|done].
    unfold setClaudePoll in E. destruct (_ && _); [|done].
    destruct (writeClaudePollDocument _ _ d) as [d1|] eqn:Ew; [|done]. injection E as E.
    apply poll_entry in Ew as (_ & _ & Hp). unfold poll_invariant, switched. cbn [fst snd].
    rewrite <- Hp, <- (mirror_keeps_switch detect fate enabled d1). by rewrite E.
  - unfold migrateLegacyClaudePoll.
    destruct (migration_due seen && _ && _ && _ && _) eqn:Eg; [|done].
    destruct (writeClaudePollDocument _ _ d) as [d1|] eqn:Ew; [|done].
    apply poll_entry in Ew as (_ & _ & Hp). bools.
    unfold poll_invariant in *. cbn [fst snd default] in *. destruct choice as [enabled|].
    + apply switched_reads in Hi as (_ & _ & Hi). congruence.
    + right. split; [|done]. destruct Hi as [->|[Hd Hs]]; [done|done].
Qed.

(** The last choice stands. Through any sequence of [setClaudePoll] and of
    migrations of the legacy record, whatever their locks and writes become and
    however old the first look of a migration is: once a set has gone through,
    every reader finds the value last set; before that, the switch is as it
    was, unless there was no choice at all and a recorded on moved in. *)
Theorem the_last_choice_stands detect steps d0 :
  let '(d, choice) := foldl (poll_step detect) (d0, None) steps in
  match choice with
  | Some enabled =>
      claudePollText d = bool_text enabled /\ readClaudePoll (read_entry (sd_poll d)) = enabled
  | None =>
      d = d0 \/
      claudePollText d0 = "unset" /\ readProvidersConfig d0 = {| pv_poll := true; pv_recorded := true |} /\
      claudePollText d = "true" /\ readClaudePoll (read_entry (sd_poll d)) = true
  end.
Proof.
  assert (Hi : poll_invariant d0 (foldl (poll_step detect) (d0, None) steps)).
  { apply foldl_invariant; [apply poll_step_invariant|by left]. }
  destruct (foldl _ _ _) as [d choice]. unfold poll_invariant in Hi. cbn [fst snd] in Hi.
  destruct choice as [enabled|].
  - by apply switched_reads in Hi as (? & ? & _).
  - destruct Hi as [->|[Hd Hs]]; [by left|right].
    apply switched_reads in Hs as (Ht & Hr & _). split_and!; [| |done|done].
    + unfold migration_due in Hd. unfold claudePollText. by destruct (read_entry _).
    + unfold migration_due in Hd. destruct (read_entry _); try done. bools.
      destruct (readProvidersConfig d0). cbn in *. by subst.
Qed.

(** ** Witnesses *)

Definition bare_machine (id : string) : bool := str_eqb id "codex".

Definition bare_dir : StateDir :=
  {| sd_refused := false; sd_config := regular_path missing; sd_poll := regular_path missing |}.

Definition lost_lock : Fate :=
  {| fa_locked := true; fa_owned_store := true; fa_store := true; fa_owned_mirror := false;
     fa_mirror := true |}.

Definition sample_commands : list (Fate * ConfigOp) :=
  [(kind_fate, op_init); (kind_fate, op_set "order" "Codex, claude");
   (kind_fate, op_set "width" "39"); (kind_fate, op_set "hosts" "Zed:b,Alpha:a");
   (kind_fate, op_switch false ["cx"; "5h"]); (lost_lock, op_poll true)].

Lemma the_file_implements_the_configuration_witness :
  (run_ops bare_machine sample_commands bare_dir).2 =
    [op_init; op_set "order" "Codex, claude"; op_set "hosts" "Zed:b,Alpha:a";
     op_switch false ["cx"; "5h"]] /\
  exists c',
    current_config bare_machine (run_ops bare_machine sample_commands bare_dir).1 = Some c' /\
    valid_config c' /\
    c' ≡ foldl (apply_op bare_machine) (defaultConfig bare_machine)
           (run_ops bare_machine sample_commands bare_dir).2.
Proof.
  split; [vm_compute; reflexivity|].
  apply (the_file_implements_the_configuration bare_machine sample_commands bare_dir
           (defaultConfig bare_machine) (run_ops bare_machine sample_commands bare_dir).1
           (run_ops bare_machine sample_commands bare_dir).2); [reflexivity|vm_compute; reflexivity|].
  apply surjective_pairing.
Defined.

Definition width_set : StateDir * CliResult :=
  configCommand bare_machine kind_fate ["config"; "set"; "statusline." +:+ "width"; "80"]
    bare_dir bare_dir.

Definition hosts_set : StateDir * CliResult :=
  configCommand bare_machine kind_fate ["config"; "set"; "statusline." +:+ "hosts"; "Zed:b,Alpha:a"]
    bare_dir bare_dir.

Lemma set_prints_what_get_prints_witness :
  (stdout width_set.2 = "statusline.width=80" /\
   configCommand bare_machine kind_fate ["config"; "get"; "statusline." +:+ name_of key_width]
     width_set.1 width_set.1 = (width_set.1, width_set.2)) /\
  exists hosts hosts', hosts' ≡ₚ hosts /\ hosts_set.2 = succeed (hosts_line hosts) /\
    configCommand bare_machine kind_fate ["config"; "get"; "statusline." +:+ name_of key_hosts]
      hosts_set.1 hosts_set.1 = (hosts_set.1, succeed (hosts_line hosts')).
Proof.
  split; [split; [vm_compute; reflexivity|]|].
  - apply (set_prints_what_get_prints bare_machine kind_fate kind_fate "width" "80" bare_dir
             width_set.1 width_set.2 key_width); [apply surjective_pairing| |];
      vm_compute; reflexivity.
  - apply (set_prints_what_get_prints bare_machine kind_fate kind_fate "hosts" "Zed:b,Alpha:a" bare_dir
             hosts_set.1 hosts_set.2 key_hosts); [apply surjective_pairing| |];
      vm_compute; reflexivity.
Defined.

Definition sample_section : StatuslineConfig :=
  with_hosts (with_show (with_order DEFAULT_STATUSLINE ["codex"; "claude"]) ["ctx"; "5h"])
    [("alpha", "a"); ("zed", "b")].

Lemma get_prints_what_set_accepts_witness :
  setStatuslineValue sample_section "hosts" "alpha:a,zed:b" = inr sample_section.
Proof.
  apply (get_prints_what_set_accepts sample_section key_hosts).
  - constructor; cbn; auto.
    + split; apply (bool_decide_unpack _); vm_compute; exact I.
    + unfold MIN_STATUSLINE_WIDTH, MAX_STATUSLINE_WIDTH. lia.
    + split; [apply (bool_decide_unpack _); vm_compute; exact I|].
      repeat constructor; discriminate.
    + split; [apply (bool_decide_unpack _); vm_compute; exact I|].
      repeat constructor; discriminate.
  - split; cbn.
    + split; [repeat constructor|discriminate].
    + repeat constructor; discriminate.
Defined.
