(* ===== verification/Spool.v ===== *)
(** * The activity spool

    [core/src/activity/spool.ts]: the directory in which the hooks of the agents
    leave one file per event and from which the desktop reads them. A writer
    takes the lock directory [.writer], clears what is a day old, measures what
    is left, draws the next sequence number and publishes its event by renaming
    a temporary file.

    The directory is the list of its entries, in the order [readdir] gives. A
    file's text is [None] when its bytes are not UTF-8 or cannot be read.
    Sequence numbers are whole numbers: a value that is not a safe integer is
    refused before it is used, rounded or not. Where the calls of a writer
    stop, a lock not obtained, a check point that aborts, the process killed
    before the lock is removed again, in the scan or while it writes the
    temporary file, is part of its [WriteFate]. A temporary file is cut at a
    whole unit. *)
From S2P Require Import Prelude JsNum JsDate JsValue Text Json JsonText Activity ClaudePayload.
Local Open Scope string_scope.
Local Open Scope Z_scope.
Local Open Scope list_scope.
Local Open Scope js_scope.

Definition MAX_ENTRIES : Z := 65536.

Inductive EntryKind :=
| ek_regular      (** [regular(info)]: a plain file, one link, the owner's alone *)
| ek_directory    (** a directory, not a link *)
| ek_other.

#[export] Instance EntryKind_eq : EqDecision EntryKind. Proof. solve_decision. Defined.

Record SpoolEntry := {
  se_name : string;
  se_kind : EntryKind;
  se_size : Z;
  se_mtime : num;
  se_text : option string }.

(** ** Names *)

(** The first [n] units of [s], all in [p], and the rest. *)
Fixpoint take_exact (n : nat) (p : ascii -> bool) (s : string) : option (string * string) :=
  match n, s with
  | O, _ => Some ("", s)
  | S n, String c s => check p c;; let? (x, r) := take_exact n p s in Some (String c x, r)
  | S _, EmptyString => None
  end.

(** [[a-f0-9-]] *)
Definition uuid_unit (c : ascii) : bool := is_digit c || in_range 97 102 c || Ascii.eqb c "-".

(** [EVENT_NAME]: the sequence number of an event's name. *)
Definition event_sequence (name : string) : option Z :=
  let? (digits, r) := take_exact 16 is_digit name in
  let? r := after_prefix "-" r in
  let? (_, r) := take_exact 36 uuid_unit r in
  check str_eqb r ".json";;
  Some (digits_value 0 digits).

(** [TEMP_NAME] *)
Definition temporary_name (name : string) : bool :=
  match (let? r := after_prefix "." name in take_exact 36 uuid_unit r) with
  | Some (_, r) => str_eqb r ".tmp"
  | None => false
  end.

(** [String(n).padStart(16, "0")] *)
Definition pad16 (n : Z) : string := zeros (16 - str_length (decimal n)) +:+ decimal n.

Definition event_name (sequence : Z) (id : string) : string :=
  pad16 sequence +:+ "-" +:+ id +:+ ".json".

Definition is_writer_lock (e : SpoolEntry) : bool := str_eqb (se_name e) ".writer".

(** ** Reading one event *)

Section Spool.
Context `{DateHost}.

Definition readActivityEvent (serialized : string) (now : num) (origin : Origin) : option jsval :=
  check byte_length serialized <=? MAX_ACTIVITY_EVENT_BYTES;;
  let? value := json_parse serialized in
  check isActivityEvent value now origin;;
  Some value.

Definition from_the_hook (event : jsval) : bool :=
  match event with JObj fs => is_string (get fs "source") "hook" | _ => false end.

Definition origin_of (event : jsval) : Origin :=
  if from_the_hook event then from_hook else from_desktop.

(** [readFile]: [None] when it throws. *)
Definition readFile (e : SpoolEntry) (now : num) : option jsval :=
  check bool_decide (se_kind e = ek_regular) && (se_size e <=? MAX_ACTIVITY_EVENT_BYTES);;
  let? serialized := se_text e in
  let? event := readActivityEvent serialized now from_desktop in
  check negb (from_the_hook event) || isActivityEvent event now from_hook;;
  Some event.

(** ** Writing *)

Inductive WriteEnd :=
| we_done                          (** published *)
| we_failed                        (** a call throws: the temporary file is removed *)
| we_killed (temporary : option Z).
    (** the process dies: the lock stays, and of a temporary file that was
        opened the units written so far *)

Record WriteFate := {
  wf_prepared : bool;         (** the directory is safe, the lock obtained *)
  wf_scanned : option nat;    (** the scan stops before this entry *)
  wf_mtime : num;             (** the time the file system gives the file *)
  wf_end : WriteEnd }.

Definition writer_lock : SpoolEntry :=
  {| se_name := ".writer"; se_kind := ek_directory; se_size := 0; se_mtime := int 0;
     se_text := None |}.

(** [owned && now - info.mtimeMs > MAX_ACTIVITY_EVENT_AGE_MS] *)
Definition is_stale (now : Z) (e : SpoolEntry) : bool :=
  match event_sequence (se_name e) with
  | Some _ => true
  | None => temporary_name (se_name e)
  end && (int MAX_ACTIVITY_EVENT_AGE_MS <# (int now ⊖ se_mtime e)).

Definition next_sequence (sequence : Z) (e : SpoolEntry) : Z :=
  match event_sequence (se_name e) with
  | Some held => Z.max sequence (held + 1)
  | None => sequence
  end.

(** The entries left, and the size and the next sequence number found; no
    number when the scan throws. *)
Fixpoint scan (now : Z) (stop : option nat) (entries : list SpoolEntry) (total sequence : Z) :
    list SpoolEntry * option (Z * Z) :=
  match entries with
  | [] => ([], Some (total, sequence))
  | e :: rest =>
      match stop with
      | Some O => (entries, None)
      | _ =>
          let stop := Nat.pred <$> stop in
          if is_writer_lock e then
            let '(kept, found) := scan now stop rest total sequence in (e :: kept, found)
          else if negb (bool_decide (se_kind e = ek_regular)) then (entries, None)
          else if is_stale now e then scan now stop rest total sequence
          else if MAX_ACTIVITY_EVENT_BYTES <? se_size e then (entries, None)
          else
            let '(kept, found) :=
              scan now stop rest (total + se_size e) (next_sequence sequence e) in
            (e :: kept, found)
      end
  end.

(** [{ ...event, sequence }] *)
Definition with_sequence (event : jsval) (sequence : Z) : jsval :=
  match event with
  | JObj fs => JObj (assoc_set "sequence" (JNum (int sequence)) fs)
  | _ => event
  end.

Definition sequence_of (event : jsval) : Z :=
  match event with JObj fs => default 0 (as_safe_int (get fs "sequence")) | _ => 0 end.

Definition unlocked (entries : list SpoolEntry) : list SpoolEntry :=
  filter (fun e => is_writer_lock e = false) entries.

Definition spool_file (name text : string) (mtime : num) : SpoolEntry :=
  {| se_name := name; se_kind := ek_regular; se_size := byte_length text; se_mtime := mtime;
     se_text := Some text |}.

(** [rename] onto a name: whatever had it is replaced. *)
Definition publish (entries : list SpoolEntry) (e : SpoolEntry) : list SpoolEntry :=
  filter (fun held => se_name held <> se_name e) entries ++ [e].

(** The record to store and its text, from what the scan found. *)
Definition record_to_store (event : jsval) (now : Z) (found : Z * Z) : option (jsval * string) :=
  let stored := with_sequence event found.2 in
  check isActivityEvent stored (int now) (origin_of event);;
  let? text := stringify stored in
  check (byte_length text <=? MAX_ACTIVITY_EVENT_BYTES) &&
        (found.1 + byte_length text <=? MAX_ACTIVITY_SPOOL_BYTES);;
  Some (stored, text).

(** The entries once the writer is gone: it removes the lock, unless it dies. *)
Definition gone (fate : WriteFate) (entries : list SpoolEntry) : list SpoolEntry :=
  match wf_end fate with we_killed _ => entries | _ => unlocked entries end.

(** [id] is the writer's [randomUUID()]. *)
Definition writeActivityEvent (event : jsval) (now : Z) (id : string) (fate : WriteFate)
    (spool : list SpoolEntry) : list SpoolEntry * option jsval :=
  if negb (isActivityEvent event (int now) (origin_of event)) || negb (wf_prepared fate)
  then (spool, None)
  else
    let entries := writer_lock :: unlocked spool in
    if MAX_ENTRIES <? Z.of_nat (length entries) then (gone fate entries, None)
    else
      let '(kept, found) :=
        scan now (wf_scanned fate) entries 0 (Z.max (sequence_of event) (now * 1000)) in
      match (let? found := found in
             let? record := record_to_store event now found in Some (found.2, record)) with
      | None => (gone fate kept, None)
      | Some (sequence, (stored, text)) =>
          match wf_end fate with
          | we_done =>
              (publish (unlocked kept) (spool_file (event_name sequence id) text (wf_mtime fate)),
               Some stored)
          | we_failed => (unlocked kept, None)
          | we_killed (Some units) =>
              (kept ++ [spool_file ("." +:+ id +:+ ".tmp") (str_take units text) (wf_mtime fate)], None)
          | we_killed None => (kept, None)
          end
      end.

(** ** Reading the spool *)

Record SpoolReading := { sr_events : list jsval; sr_skipped : Z }.

Definition add_event (event : jsval) (r : SpoolReading) : SpoolReading :=
  {| sr_events := event :: sr_events r; sr_skipped := sr_skipped r |}.
Definition skip_if (b : bool) (r : SpoolReading) : SpoolReading :=
  {| sr_events := sr_events r; sr_skipped := sr_skipped r + (if b then 1 else 0) |}.

Fixpoint read_entries (win32 : bool) (now : num) (index total : Z) (entries : list SpoolEntry) :
    SpoolReading :=
  match entries with
  | [] => {| sr_events := []; sr_skipped := 0 |}
  | e :: rest =>
      let on := read_entries win32 now (index + 1) in
      if str_eqb (se_name e) ".acl-verified" && win32 then
        skip_if (negb (bool_decide (se_kind e = ek_regular)) ||
                 (MAX_ACTIVITY_EVENT_BYTES <? se_size e)) (on total rest)
      else if is_writer_lock e then
        skip_if (negb (bool_decide (se_kind e = ek_directory))) (on total rest)
      else if (MAX_ENTRIES <=? index) || bool_decide (event_sequence (se_name e) = None)
      then skip_if true (on total rest)
      else
        let total := total + se_size e in
        if MAX_ACTIVITY_SPOOL_BYTES <? total then skip_if true (on total rest)
        else
          match readFile e now with
          | Some event => add_event event (on total rest)
          | None => skip_if true (on total rest)
          end
  end.

Definition text_field (event : jsval) (k : string) : string :=
  match event with JObj fs => default "" (as_string (get fs k)) | _ => "" end.

Context `{LocaleHost}.

(** The order of the events: by sequence, then by the locale's order of the
    instants and of the identifiers. *)
Definition event_compare (a b : jsval) : comparison :=
  match sequence_of a ?= sequence_of b with
  | Eq =>
      match locale_compare (text_field a "observedAt") (text_field b "observedAt") with
      | Eq => locale_compare (text_field a "eventId") (text_field b "eventId")
      | c => c
      end
  | c => c
  end.

(** [None]: the spool directory is missing; a
    directory that is not safe counts as one skipped record. *)
Definition readActivitySpool (win32 : bool) (now : num) (safe : bool)
    (spool : option (list SpoolEntry)) : SpoolReading :=
  match spool with
  | None => {| sr_events := []; sr_skipped := 0 |}
  | Some entries =>
      if safe then
        let r := read_entries win32 now 0 0 entries in
        {| sr_events := sort_by event_compare (sr_events r); sr_skipped := sr_skipped r |}
      else {| sr_events := []; sr_skipped := 1 |}
  end.
End Spool.
