(* ===== verification/SpoolLaws.v ===== *)
(** * What the activity spool promises

    Whatever the writers do and wherever they are stopped, the spool stays
    within its bounds and no two of its events share a sequence number; an event
    once published is what the desktop reads last; a spool of whatever records
    takes events again when they are a day old. *)
From S2P Require Import Prelude JsNum JsDate JsValue Text Json JsonText ReadBack Activity ClaudePayload Spool.
Local Open Scope string_scope.
Local Open Scope Z_scope.
Local Open Scope list_scope.
Local Open Scope js_scope.

(** ** Names *)

Lemma take_exact_app n p x y :
  str_forall p x = true -> str_length x = Z.of_nat n -> take_exact n p (x +:+ y) = Some (x, y).
Proof.
  revert n. induction x as [|c x IH]; intros n Hp Hl.
  { destruct n; [done|]. cbn [str_length] in Hl. lia. }
  destruct n as [|n]; [cbn [str_length] in Hl; pose proof (str_length_nonneg x); lia|].
  cbn [str_forall str_length] in Hp, Hl. apply andb_true_iff in Hp as [Hc Hp].
  change (String c x +:+ y) with (String c (x +:+ y)). cbn [take_exact]. rewrite Hc.
  rewrite IH by (try done; lia). done.
Qed.

Lemma digits_between m n : 0 < n < 10 ^ Z.of_nat m -> exists k, 1 <= k <= Z.of_nat m /\ 10 ^ (k - 1) <= n < 10 ^ k.
Proof.
  induction m as [|m IH]; intros Hn; [change (10 ^ Z.of_nat 0) with 1 in Hn; lia|].
  destruct (Z.lt_ge_cases n (10 ^ Z.of_nat m)) as [Hlt|Hge].
  - destruct IH as (k & Hk & Hb); [lia|]. exists k. split; [lia|done].
  - exists (Z.of_nat (S m)). replace (Z.of_nat (S m) - 1) with (Z.of_nat m) by lia. lia.
Qed.

Lemma decimal_within n :
  0 <= n < 10 ^ 16 ->
  1 <= str_length (decimal n) <= 16 /\ str_forall is_digit (decimal n) = true /\ digits_value 0 (decimal n) = n.
Proof.
  intros Hn. destruct (Z.eq_dec n 0) as [->|Hne].
  { change (decimal 0) with "0". split_and!; [| |done|done]; cbn; lia. }
  destruct (digits_between 16 n) as (k & Hk & Hb); [change (Z.of_nat 16) with 16; lia|].
  change (Z.of_nat 16) with 16 in Hk.
  destruct (decimal_numeral k n ltac:(lia) Hb) as [Hl Hd Hv _]. rewrite Hl. split_and!; [lia|lia|done|done].
Qed.

Lemma pad16_shape n :
  0 <= n < 10 ^ 16 ->
  str_length (pad16 n) = 16 /\ str_forall is_digit (pad16 n) = true /\ digits_value 0 (pad16 n) = n.
Proof.
  intros Hn. destruct (decimal_within n Hn) as (Hl & Hd & Hv). unfold pad16.
  destruct (zeros_spec (16 - str_length (decimal n))) as (Zl & Zd & Zv); [lia|].
  rewrite str_length_app, str_forall_app, digits_value_app, Zl, Zd, Zv, Z.mul_0_l.
  split_and!; [lia|done|done].
Qed.

(** A text [randomUUID] gives. *)
Definition uuid (id : string) : Prop := str_length id = 36 /\ str_forall uuid_unit id = true.

Lemma published_name sequence id :
  0 <= sequence < 10 ^ 16 -> uuid id -> event_sequence (event_name sequence id) = Some sequence.
Proof.
  intros Hs [Hl Hu]. destruct (pad16_shape sequence Hs) as (Pl & Pd & Pv).
  unfold event_sequence, event_name. rewrite take_exact_app by done.
  rewrite after_prefix_app, take_exact_app by done. by rewrite str_eqb_refl, Pv.
Qed.

Lemma temporary_no_event r : event_sequence ("." +:+ r) = None.
Proof. reflexivity. Qed.

Lemma published_not_lock sequence id :
  0 <= sequence < 10 ^ 16 -> uuid id -> str_eqb (event_name sequence id) ".writer" = false.
Proof.
  intros Hs Hu. destruct (str_eqb _ _) eqn:E; [|done]. apply str_eqb_eq in E.
  pose proof (published_name sequence id Hs Hu) as Hn. rewrite E in Hn. discriminate Hn.
Qed.

(** ** Texts *)

(** An object as [JSON.parse] gives it: what its text holds is all of it. *)
Definition literal (v : jsval) : Prop := unique_keys v /\ readable_numbers v /\ plain v = v.

Lemma safe_number x k : to_safe_int x = Some k -> x = int k /\ Z.abs k < 2 ^ 53.
Proof.
  unfold to_safe_int. destruct (to_int x) as [n|] eqn:E; [|done].
  destruct (Z.ltb_spec (Z.abs n) (2 ^ 53)); [|done]. intros [= <-]. by apply to_int_Some in E.
Qed.

Section Laws.
Context `{DateHost}.

Ltac goals := repeat match goal with Hb : _ && _ = true |- _ => apply andb_true_iff in Hb as [? ?] end.

Lemma process_from_desktop observedAt v :
  process_ok from_hook observedAt v = true -> process_ok from_desktop observedAt v = true.
Proof.
  destruct v; try done. unfold process_ok. cbv zeta. intros G. goals.
  repeat (apply andb_true_intro; split); done.
Qed.

(** What a hook may send, the desktop takes. *)
Lemma hook_from_desktop v now : isActivityEvent v now from_hook = true -> isActivityEvent v now from_desktop = true.
Proof.
  unfold isActivityEvent. destruct v as [| | | | | |fs]; try done. intros G.
  repeat (apply andb_true_iff in G as [G ?]).
  repeat (apply andb_true_intro; split); try done.
  destruct (get fs "observedAt"); try done. cbv zeta in *.
  match goal with Hb : _ && process_ok _ _ _ = true |- _ => apply andb_true_iff in Hb as [? Hp] end.
  apply andb_true_intro; split; [done|]. by apply process_from_desktop.
Qed.

Lemma event_object v now origin : isActivityEvent v now origin = true -> exists fs, v = JObj fs.
Proof. destruct v; try done. eauto. Qed.

Lemma event_sequence_safe fs now origin :
  isActivityEvent (JObj fs) now origin = true ->
  exists k, as_safe_int (get fs "sequence") = Some k /\ 0 <= k.
Proof.
  unfold isActivityEvent. intros G. repeat (apply andb_true_iff in G as [G ?]).
  unfold as_safe_int. destruct (get fs "sequence") as [| | |n| | |]; try done. cbn [as_num].
  destruct (to_safe_int n) as [k|] eqn:E; [|done].
  match goal with Hk : (0 <=? k) = true |- _ => exists k; split; [done|lia] end.
Qed.

(** The record stored for an accepted event. *)
Record stored_record (event : jsval) (now : Z) (found : Z * Z) (stored : jsval) (text : string) : Prop := {
  st_is : stored = with_sequence event found.2;
  st_accepted : isActivityEvent stored (int now) (origin_of event) = true;
  st_text : stringify stored = Some text;
  st_short : byte_length text <= MAX_ACTIVITY_EVENT_BYTES;
  st_fits : found.1 + byte_length text <= MAX_ACTIVITY_SPOOL_BYTES }.

Lemma record_to_store_spec event now found stored text :
  record_to_store event now found = Some (stored, text) -> stored_record event now found stored text.
Proof.
  unfold record_to_store. cbv zeta. destruct (isActivityEvent _ _ _) eqn:E; [|done].
  destruct (stringify _) as [t|] eqn:Et; [|done]. destruct (_ && _) eqn:Eb; [|done].
  bools. intros [= <- <-]. by constructor.
Qed.

(** Its sequence number is the one drawn, a safe integer. *)
Lemma stored_sequence event now origin n :
  isActivityEvent (with_sequence event n) (int now) origin = true ->
  sequence_of (with_sequence event n) = n /\ 0 <= n < 2 ^ 53.
Proof.
  intros Ha. destruct event as [| | | | | |fs]; try done. cbn [with_sequence] in *.
  destruct (event_sequence_safe _ _ _ Ha) as (k & Hk & Hpos). cbn [sequence_of]. rewrite Hk.
  rewrite get_set in Hk. destruct (decide _); [|done]. cbn in Hk.
  pose proof Hk as Hr. apply to_safe_int_int_Some in Hk as ->. apply safe_number in Hr as [_ Hr].
  cbn. lia.
Qed.

Lemma foldr_set (P : string * jsval -> Prop) k v (fs : list (string * jsval)) :
  P (k, v) -> Forall P fs -> Forall P (assoc_set k v fs).
Proof.
  intros Hv. induction 1 as [|[k' w] fs Hw Hf IH]; cbn; [by constructor|].
  case_decide; constructor; auto.
Qed.

Lemma omap_length_le {A B} (f : A -> option B) l : (length (omap f l) <= length l)%nat.
Proof. induction l as [|x l IH]; cbn; [lia|]. destruct (f x); cbn; lia. Qed.

Lemma plain_fields fs :
  plain (JObj fs) = JObj fs <-> Forall (fun kv => is_undef kv.2 = false /\ plain kv.2 = kv.2) fs.
Proof.
  cbn [plain]. split.
  - intros [= E]. assert (Hl : length (omap (fun kv : string * jsval =>
      if is_undef kv.2 then None else Some (kv.1, plain kv.2)) fs) = length fs) by (by rewrite E).
    revert E Hl. induction fs as [|[k v] fs IH]; intros E Hl; [constructor|].
    cbn in *. destruct (is_undef v) eqn:Eu.
    + pose proof (omap_length_le (fun kv : string * jsval =>
        if is_undef kv.2 then None else Some (kv.1, plain kv.2)) fs). lia.
    + cbn in *. injection E as Ev E. constructor; [done|]. apply IH; [done|lia].
  - intros Hf. f_equal. induction Hf as [|[k v] fs [Hu Hp] Hf IH]; [done|].
    cbn in *. by rewrite Hu, Hp, IH.
Qed.

Lemma with_sequence_literal event n :
  literal event -> Z.abs n < 2 ^ 53 -> literal (with_sequence event n).
Proof.
  intros (Hu & Hr & Hp) Hn. destruct event as [| | | | | |fs]; try done. cbn [with_sequence].
  split_and!.
  - cbn [unique_keys] in *. destruct Hu as [Hk Hu]. split; [by apply assoc_set_NoDup|].
    apply (foldr_conj (fun kv => unique_keys kv.2)), foldr_set; [done|].
    by apply (foldr_conj (fun kv => unique_keys kv.2)) in Hu.
  - cbn [readable_numbers] in *. apply (foldr_conj (fun kv => readable_numbers kv.2)), foldr_set.
    + cbn. by apply representable_int.
    + by apply (foldr_conj (fun kv => readable_numbers kv.2)) in Hr.
  - apply plain_fields, foldr_set; [done|]. by apply plain_fields.
Qed.

Lemma literal_text v text : literal v -> stringify v = Some text -> json_parse text = Some v.
Proof.
  intros (Hu & Hr & Hp) Ht. rewrite stringify_text in Ht. destruct (is_undef v); [done|].
  injection Ht as <-. rewrite <- Hp at 2. by apply json_parse_text.
Qed.

Lemma origin_of_stored event n : origin_of (with_sequence event n) = origin_of event.
Proof.
  unfold origin_of, from_the_hook. destruct event as [| | | | | |fs]; try done.
  cbn [with_sequence]. by rewrite get_set.
Qed.

(** The file a writer publishes reads as the event it stored. *)
Lemma published_reads event now found stored text name mtime :
  literal event -> stored_record event now found stored text ->
  readFile (spool_file name text mtime) (int now) = Some stored.
Proof.
  intros Hl [Es Ha Ht Hs _]. unfold readFile, spool_file. cbn [se_kind se_size se_text].
  rewrite bool_decide_true by done. rewrite (proj2 (Z.leb_le _ _) Hs). cbn [andb].
  pose proof Ha as Hseq. rewrite Es in Hseq. apply stored_sequence in Hseq as [_ Hn].
  assert (Hlit : literal stored) by (rewrite Es; apply with_sequence_literal; [done|lia]).
  unfold readActivityEvent. rewrite (proj2 (Z.leb_le _ _) Hs), (literal_text _ _ Hlit Ht).
  assert (Ho : origin_of stored = origin_of event) by (rewrite Es; apply origin_of_stored).
  rewrite <- Ho in Ha. unfold origin_of in Ha. destruct (from_the_hook stored) eqn:Eh.
  - rewrite (hook_from_desktop _ _ Ha). cbv iota. by rewrite Eh, Ha.
  - rewrite Ha. cbv iota. by rewrite Eh.
Qed.

(** ** Lists in the order of another *)

Lemma sublist_omap {A B} (f : A -> option B) l k : l `sublist_of` k -> omap f l `sublist_of` omap f k.
Proof.
  induction 1 as [|x l k H1 IH|x l k H1 IH]; [done| |]; cbn; destruct (f x); try done.
  - by apply sublist_skip.
  - by apply sublist_cons.
Qed.

Lemma sublist_unlocked l k : l `sublist_of` k -> unlocked l `sublist_of` unlocked k.
Proof.
  unfold unlocked. induction 1 as [|x l k H1 IH|x l k H1 IH]; [done| |];
    rewrite !filter_cons; destruct (decide _); try done.
  - by apply sublist_skip.
  - by apply sublist_cons.
Qed.

Lemma sublist_all {A} (P : A -> Prop) l k : l `sublist_of` k -> Forall P k -> Forall P l.
Proof. induction 1; [done| |]; intros [? ?]%Forall_cons; [constructor|]; auto. Qed.

(** ** The scan *)

Definition size_of (entries : list SpoolEntry) : Z :=
  foldr (fun e n => se_size e + n) 0 (unlocked entries).

Lemma unlocked_cons e l :
  unlocked (e :: l) = if is_writer_lock e then unlocked l else e :: unlocked l.
Proof. unfold unlocked. rewrite filter_cons. by destruct (is_writer_lock e). Qed.

Lemma size_cons e l :
  size_of (e :: l) = (if is_writer_lock e then 0 else se_size e) + size_of l.
Proof. unfold size_of. rewrite unlocked_cons. by destruct (is_writer_lock e). Qed.

(** An entry the scan of a whole directory leaves. *)
Definition measured (e : SpoolEntry) : Prop :=
  is_writer_lock e = true \/ se_kind e = ek_regular /\ se_size e <= MAX_ACTIVITY_EVENT_BYTES.

Lemma scan_sublist now stop entries total sequence :
  (scan now stop entries total sequence).1 `sublist_of` entries.
Proof.
  revert stop total sequence. induction entries as [|e rest IH]; intros stop total sequence; [done|].
  cbn [scan]. destruct stop as [[|n]|]; [done| |];
    (destruct (is_writer_lock e);
      [destruct (scan _ _ _ _ _) as [kept found] eqn:E; cbn;
       apply sublist_skip; by rewrite <- (f_equal fst E : _ = kept)|]);
    (destruct (negb _); [done|]); (destruct (is_stale now e); [by apply sublist_cons|]);
    (destruct (_ <? _); [done|]);
    (destruct (scan _ _ _ _ _) as [kept found] eqn:E; cbn;
     apply sublist_skip; by rewrite <- (f_equal fst E : _ = kept)).
Qed.

Record scanned (kept : list SpoolEntry) (total sequence total' sequence' : Z) : Prop := {
  sc_total : total' = total + size_of kept;
  sc_from : sequence <= sequence';
  sc_above : Forall (fun e => forall s, event_sequence (se_name e) = Some s -> s < sequence') kept;
  sc_measured : Forall measured kept }.

Lemma scan_found now stop entries total sequence kept total' sequence' :
  scan now stop entries total sequence = (kept, Some (total', sequence')) ->
  scanned kept total sequence total' sequence'.
Proof.
  revert stop total sequence kept. induction entries as [|e rest IH]; intros stop total sequence kept.
  { intros [= <- <- <-]. constructor; try constructor; cbn; lia. }
  cbn [scan]. set (stop' := Nat.pred <$> stop). intros E.
  destruct stop as [[|n]|]; [done| |]; fold stop' in E;
    (destruct (is_writer_lock e) eqn:El;
     [destruct (scan now stop' rest total sequence) as [kept1 found] eqn:Es; injection E as <- ->;
      apply IH in Es as [H1 H2 H3 H4]; constructor; [rewrite size_cons, El; lia|lia| |];
      constructor; try done; [|by left];
      intros s Hs; unfold is_writer_lock in El; apply str_eqb_eq in El; by rewrite El in Hs|]);
    (destruct (negb _) eqn:Ek; [done|]; bools);
    (destruct (is_stale now e); [by apply IH in E|]);
    (destruct (MAX_ACTIVITY_EVENT_BYTES <? se_size e) eqn:Em; [done|]);
    (destruct (scan now stop' rest _ _) as [kept1 found] eqn:Es; injection E as <- ->;
     apply IH in Es as [H1 H2 H3 H4]; unfold next_sequence in H2;
     constructor; [rewrite size_cons, El; lia| |constructor; [|done]|constructor; [|done]];
     [destruct (event_sequence _); lia| |by right; split; [|bools; lia]];
     intros s Hs; rewrite Hs in H2; lia).
Qed.

(** ** The invariant *)

(** What the event files of the spool hold. *)
Definition named (e : SpoolEntry) : Prop :=
  forall s, event_sequence (se_name e) = Some s ->
  exists text v, se_text e = Some text /\ json_parse text = Some v /\ sequence_of v = s.

Definition sequences (entries : list SpoolEntry) : list Z :=
  omap (fun e => event_sequence (se_name e)) entries.

Record spool_ok (entries : list SpoolEntry) : Prop := {
  so_size : size_of entries <= MAX_ACTIVITY_SPOOL_BYTES;
  so_count : Z.of_nat (length (unlocked entries)) <= MAX_ENTRIES;
  so_distinct : NoDup (sequences entries);
  so_named : Forall named entries;
  so_sizes : Forall (fun e => 0 <= se_size e) entries }.

Lemma size_mono l k :
  l `sublist_of` k -> Forall (fun e => 0 <= se_size e) k -> 0 <= size_of l <= size_of k.
Proof.
  induction 1 as [|x l k H1 IH|x l k H1 IH]; [cbn; lia| |]; intros [? Hk]%Forall_cons;
    specialize (IH Hk); rewrite !size_cons; destruct (is_writer_lock x); lia.
Qed.

Lemma ok_sublist l k : l `sublist_of` k -> spool_ok k -> spool_ok l.
Proof.
  intros Hs [H1 H2 H3 H4 H5]. constructor.
  - pose proof (size_mono l k Hs H5). lia.
  - pose proof (sublist_length _ _ (sublist_unlocked l k Hs)). lia.
  - eapply sublist_NoDup; [exact H3|]. by apply sublist_omap.
  - by eapply sublist_all.
  - by eapply sublist_all.
Qed.

Lemma size_perm l k : l ≡ₚ k -> size_of l = size_of k.
Proof. induction 1; rewrite ?size_cons; repeat case_match; congruence || lia. Qed.

#[export] Instance spool_ok_perm : Proper (Permutation ==> impl) spool_ok.
Proof.
  intros l k E [H1 H2 H3 H4 H5]. constructor.
  - by rewrite <- (size_perm l k E).
  - unfold unlocked in *. by rewrite <- E.
  - unfold sequences in *. by rewrite <- E.
  - by rewrite <- E.
  - by rewrite <- E.
Qed.

Lemma unlocked_idem l : unlocked (unlocked l) = unlocked l.
Proof. apply filter_id. intros e He. by apply list_elem_of_filter in He as [? _]. Qed.

Lemma size_unlocked l : size_of (unlocked l) = size_of l.
Proof. unfold size_of. by rewrite unlocked_idem. Qed.

Lemma ok_lock l : spool_ok l -> spool_ok (writer_lock :: unlocked l).
Proof.
  intros Hl. assert (Hu : spool_ok (unlocked l)) by (eapply ok_sublist; [apply sublist_filter|done]).
  destruct Hu as [H1 H2 H3 H4 H5]. constructor.
  - by rewrite size_cons.
  - rewrite unlocked_cons. exact H2.
  - exact H3.
  - constructor; [by intros s Hs|done].
  - by constructor.
Qed.

(** A file behind what the scan left. *)
Lemma ok_with_file kept e :
  spool_ok kept -> size_of kept + se_size e <= MAX_ACTIVITY_SPOOL_BYTES ->
  Z.of_nat (length (unlocked kept)) < MAX_ENTRIES -> 0 <= se_size e -> named e ->
  Forall (fun k => forall s, event_sequence (se_name e) = Some s -> event_sequence (se_name k) <> Some s) kept ->
  spool_ok (kept ++ [e]).
Proof.
  intros Hk Hs Hc Hpos Hn Hnew. assert (Ep : kept ++ [e] ≡ₚ e :: kept) by (by rewrite Permutation_app_comm).
  destruct Hk as [H1 H2 H3 H4 H5]. rewrite Ep. constructor; try (by constructor).
  - rewrite size_cons. destruct (is_writer_lock e); lia.
  - rewrite unlocked_cons. destruct (is_writer_lock e); cbn [length]; lia.
  - unfold sequences in *. cbn [omap list_omap]. destruct (event_sequence (se_name e)) as [s|] eqn:E; [|done].
    constructor; [|done]. intros (k & Hk & Es)%list_elem_of_omap.
    eapply Forall_forall in Hnew; [|exact Hk]. by apply (Hnew s).
Qed.

(** What the entries a writer measures come down to. *)
Record written (event : jsval) (now : Z) (spool kept : list SpoolEntry) (stored : jsval) (text : string)
    (total sequence : Z) : Prop := {
  wr_kept : kept `sublist_of` writer_lock :: unlocked spool;
  wr_count : Z.of_nat (length (writer_lock :: unlocked spool)) <= MAX_ENTRIES;
  wr_scan : scanned kept 0 (Z.max (sequence_of event) (now * 1000)) total sequence;
  wr_record : stored_record event now (total, sequence) stored text }.

Lemma write_cases event now id fate spool spool' r :
  writeActivityEvent event now id fate spool = (spool', r) ->
  (r = None /\ (spool' `sublist_of` spool \/ spool' `sublist_of` writer_lock :: unlocked spool)) \/
  exists kept stored text total sequence,
    written event now spool kept stored text total sequence /\
    match wf_end fate with
    | we_done =>
        r = Some stored /\
        spool' = publish (unlocked kept) (spool_file (event_name sequence id) text (wf_mtime fate))
    | we_failed => r = None /\ spool' = unlocked kept
    | we_killed (Some units) =>
        r = None /\ spool' = kept ++ [spool_file ("." +:+ id +:+ ".tmp") (str_take units text) (wf_mtime fate)]
    | we_killed None => r = None /\ spool' = kept
    end.
Proof.
  assert (Hu : unlocked spool `sublist_of` spool) by apply sublist_filter.
  assert (Hgone : forall kept, kept `sublist_of` writer_lock :: unlocked spool ->
    gone fate kept `sublist_of` spool \/ gone fate kept `sublist_of` writer_lock :: unlocked spool).
  { intros kept Hs. unfold gone. destruct (wf_end fate); [| |by right];
      left; (trans (unlocked spool); [|done]); apply sublist_unlocked in Hs; rewrite unlocked_cons in Hs;
      cbn [is_writer_lock se_name writer_lock] in Hs; (trans (unlocked (unlocked spool)); [exact Hs|]);
      apply sublist_filter. }
  unfold writeActivityEvent. destruct (_ || _); [intros [= <- <-]; left; split; [done|by left]|]. cbv zeta.
  destruct (MAX_ENTRIES <? _) eqn:Ec; [intros [= <- <-]; left; split; [done|by apply Hgone]|]. bools.
  pose proof (scan_sublist now (wf_scanned fate) (writer_lock :: unlocked spool) 0
                (Z.max (sequence_of event) (now * 1000))) as Hs.
  destruct (scan _ _ _ _ _) as [kept found] eqn:Es. cbn [fst] in Hs.
  destruct found as [[total sequence]|]; [|intros [= <- <-]; left; split; [done|by apply Hgone]].
  destruct (record_to_store event now (total, sequence)) as [[stored text]|] eqn:Er;
    [|intros [= <- <-]; left; split; [done|by apply Hgone]].
  apply scan_found in Es. apply record_to_store_spec in Er. cbn [snd]. intros Hend. right.
  exists kept, stored, text, total, sequence. split; [by constructor|].
  destruct (wf_end fate) as [| |[]]; by injection Hend as <- <-.
Qed.

Lemma written_sequence event now spool kept stored text total sequence :
  written event now spool kept stored text total sequence ->
  sequence_of stored = sequence /\ 0 <= sequence < 10 ^ 16.
Proof.
  intros [_ _ _ [Es Ha _ _ _]]. rewrite Es in *. cbn [snd] in *.
  apply stored_sequence in Ha as [Hq Hb]. split; [done|]. lia.
Qed.

Lemma publish_new kept e s :
  event_sequence (se_name e) = Some s ->
  Forall (fun k => forall n, event_sequence (se_name k) = Some n -> n < s) kept ->
  publish kept e = kept ++ [e].
Proof.
  intros He Hk. unfold publish. f_equal. apply filter_id. intros k Hin En.
  eapply Forall_forall in Hk; [|exact Hin]. rewrite En in Hk. specialize (Hk s He). lia.
Qed.

Lemma written_unlocked event now spool kept stored text total sequence :
  written event now spool kept stored text total sequence ->
  size_of kept = total /\ Z.of_nat (length (unlocked kept)) < MAX_ENTRIES.
Proof.
  intros [Hs Hc [Ht _ _ _] _]. split; [lia|].
  apply sublist_unlocked in Hs. rewrite unlocked_cons in Hs. cbn [is_writer_lock se_name writer_lock] in Hs.
  pose proof (sublist_length _ _ Hs) as H1.
  pose proof (sublist_length _ _ (sublist_filter (fun e => is_writer_lock e = false) (unlocked spool))) as H2.
  fold (unlocked (unlocked spool)) in H2. cbn [length] in Hc.
  change (str_eqb ".writer" ".writer") with true in H1. cbn iota in H1. lia.
Qed.

(** What was written of a text when its writer died. *)
Lemma str_take_prefix n s : exists rest, s = str_take n s +:+ rest.
Proof.
  unfold str_take. generalize (Z.to_nat n) as m. induction s as [|c s IH]; intros m; [by destruct m; exists ""|].
  destruct m as [|m]; [by exists (String c s)|]. destruct (IH m) as [rest E]. exists rest.
  change (String c s = String c (String.substring 0 m s +:+ rest)). by rewrite <- E.
Qed.

Lemma str_take_bytes n s : byte_length (str_take n s) <= byte_length s.
Proof.
  destruct (str_take_prefix n s) as [rest E]. rewrite E at 2. rewrite byte_length_app.
  pose proof (byte_length_nonneg rest). lia.
Qed.

(** A write keeps the spool in order, whatever becomes of it. *)
Lemma write_ok event now id fate spool :
  spool_ok spool -> uuid id -> literal event ->
  spool_ok (writeActivityEvent event now id fate spool).1.
Proof.
  intros Hok Hid Hlit. destruct (writeActivityEvent _ _ _ _ _) as [spool' r] eqn:E.
  apply write_cases in E as [[-> [Hs|Hs]]|(kept & stored & text & total & sequence & Hw & E)];
    [by eapply ok_sublist|by eapply ok_sublist, ok_lock|]. cbn [fst].
  assert (Hkept : spool_ok kept) by (eapply ok_sublist; [apply Hw|by apply ok_lock]).
  assert (Hu : spool_ok (unlocked kept)) by (eapply ok_sublist; [apply sublist_filter|done]).
  pose proof (written_unlocked _ _ _ _ _ _ _ _ Hw) as [Ht Hc].
  pose proof (written_sequence _ _ _ _ _ _ _ _ Hw) as [Hq Hr].
  destruct Hw as [_ _ [_ _ Habove _] [Es Ha Htext _ Hfit]]. cbn [fst snd] in *.
  destruct (wf_end fate) as [| |[temporary|]]; destruct E as [-> ->]; try done.
  - assert (Hname : event_sequence (event_name sequence id) = Some sequence) by (by apply published_name).
    assert (Hbelow : Forall (fun k => forall n, event_sequence (se_name k) = Some n -> n < sequence) (unlocked kept)).
    { eapply sublist_all; [apply sublist_filter|exact Habove]. }
    rewrite (publish_new _ _ sequence) by done. apply ok_with_file; try done.
    + rewrite size_unlocked, Ht. exact Hfit.
    + by rewrite unlocked_idem.
    + apply byte_length_nonneg.
    + intros n Hn. cbn [se_name spool_file] in Hn. rewrite Hname in Hn. injection Hn as <-.
      exists text, stored. split_and!; [done| |done]. eapply literal_text; [|done].
      rewrite Es. apply with_sequence_literal; [done|]. rewrite Es in Ha.
      apply stored_sequence in Ha as [_ Ha]. lia.
    + eapply Forall_impl; [exact Hbelow|]. intros k Hk n Hn Hkn. cbn [se_name spool_file] in Hn.
      rewrite Hname in Hn. injection Hn as <-. specialize (Hk _ Hkn). lia.
  - apply ok_with_file; [done| |done|apply byte_length_nonneg|by intros n Hn|].
    { rewrite Ht. cbn [se_size spool_file]. pose proof (str_take_bytes temporary text). lia. }
    apply Forall_forall. intros k _ n Hn. discriminate Hn.
Qed.

(** ** Histories *)

(** A spool the writers of a machine can have left: each write at its own
    instant, with its own fate; [readdir] may list the entries in any order. *)
Inductive reachable : list SpoolEntry -> Prop :=
| reachable_empty : reachable []
| reachable_write event now id fate spool :
    reachable spool -> uuid id -> literal event ->
    reachable (writeActivityEvent event now id fate spool).1
| reachable_order spool spool' : reachable spool -> spool ≡ₚ spool' -> reachable spool'.

Lemma reachable_spool_ok spool : reachable spool -> spool_ok spool.
Proof.
  induction 1 as [|event now id fate spool _ IH Hid Hl|spool spool' _ IH E].
  - constructor; cbn; try constructor; done.
  - by apply write_ok.
  - by rewrite <- E.
Qed.

(** C12: the spool stays within its bounds. After any history of writers, of
    which any may be refused, fail or be killed with its lock and its temporary
    file left behind: the files together hold at most sixteen megabytes, there
    are at most 65536 of them, no two events share a sequence number, and each
    event file holds an event with the number of its name. *)
Theorem the_spool_stays_in_bounds spool :
  reachable spool ->
  size_of spool <= MAX_ACTIVITY_SPOOL_BYTES /\
  Z.of_nat (length (unlocked spool)) <= MAX_ENTRIES /\
  NoDup (sequences spool) /\
  forall e s, e ∈ spool -> event_sequence (se_name e) = Some s ->
    exists text v, se_text e = Some text /\ json_parse text = Some v /\ sequence_of v = s.
Proof.
  intros [H1 H2 H3 H4 _]%reachable_spool_ok. split_and!; [done..|]. intros e s He Hs.
  by apply (proj1 (Forall_forall _ _) H4 e He).
Qed.

(** ** Reading *)

Lemma readFile_text e now v :
  readFile e now = Some v -> exists text, se_text e = Some text /\ json_parse text = Some v.
Proof.
  unfold readFile, readActivityEvent. destruct (_ && _); [|done].
  destruct (se_text e) as [text|]; [|done]. destruct (_ <=? _); [|done].
  destruct (json_parse text) as [w|] eqn:Ep; [|done]. destruct (isActivityEvent _ _ _); [|done].
  destruct (_ || _); [|done]. intros [= <-]. eauto.
Qed.

Lemma named_reads e now s v :
  named e -> event_sequence (se_name e) = Some s -> readFile e now = Some v -> sequence_of v = s.
Proof.
  intros Hn Hs Hv. apply readFile_text in Hv as (text & Et & Ep).
  destruct (Hn s Hs) as (text' & v' & Et' & Ep' & Hq). congruence.
Qed.

(** The events read, in the order of the directory, have the numbers of some of
    its names. *)
Lemma read_sequences win32 now index total entries :
  Forall named entries ->
  map sequence_of (sr_events (read_entries win32 now index total entries)) `sublist_of` sequences entries.
Proof.
  intros Hn. revert index total. induction Hn as [|e entries He Hn IH]; intros index total; [done|].
  cbn [read_entries]. unfold sequences. cbn [omap list_omap]. fold (sequences entries).
  assert (Hskip : forall i t, map sequence_of (sr_events (read_entries win32 now i t entries)) `sublist_of`
    match event_sequence (se_name e) with Some s => s :: sequences entries | None => sequences entries end).
  { intros i t. destruct (event_sequence _); [apply sublist_cons|]; apply IH. }
  destruct (_ && _); [apply Hskip|]. destruct (is_writer_lock e); [apply Hskip|].
  destruct (_ || _) eqn:Eg; [apply Hskip|]. apply orb_false_iff in Eg as [_ Eg].
  apply bool_decide_eq_false in Eg. cbv zeta. destruct (_ <? _); [apply Hskip|].
  destruct (readFile e now) as [v|] eqn:Ev; [|apply Hskip].
  destruct (event_sequence (se_name e)) as [s|] eqn:Es; [|done].
  cbn [add_event sr_events map]. rewrite (named_reads e now s v He Es Ev). apply sublist_skip, IH.
Qed.

(** Within the bounds, every readable event file is read. *)
Lemma read_all win32 now index total entries e v :
  Forall (fun e => 0 <= se_size e) entries ->
  index + Z.of_nat (length entries) <= MAX_ENTRIES ->
  total + size_of entries <= MAX_ACTIVITY_SPOOL_BYTES ->
  Forall (fun e => is_writer_lock e = false) entries ->
  e ∈ entries -> event_sequence (se_name e) <> None -> readFile e now = Some v ->
  v ∈ sr_events (read_entries win32 now index total entries).
Proof.
  intros Hsz Hix Htot Hul He Hname Hv. revert index total Hix Htot.
  induction entries as [|k entries IH]; intros index total Hix Htot; [by apply elem_of_nil in He|].
  apply Forall_cons in Hsz as [Hk Hsz]. apply Forall_cons in Hul as [Hlk Hul].
  pose proof (size_mono entries entries ltac:(done) Hsz) as Hpos.
  rewrite size_cons, Hlk in Htot. cbn [length] in Hix.
  cbn [read_entries]. rewrite Hlk.
  assert (Hrest : e ∈ entries -> forall t, t <= total + se_size k ->
    v ∈ sr_events (read_entries win32 now (index + 1) t entries)).
  { intros Hin t Ht. apply IH; try done; lia. }
  apply elem_of_cons in He as [<-|He].
  - destruct (str_eqb (se_name e) ".acl-verified") eqn:Ea.
    { apply str_eqb_eq in Ea. by rewrite Ea in Hname. }
    cbn [andb]. rewrite bool_decide_false by done. rewrite (proj2 (Z.leb_gt _ _)) by lia. cbn [orb].
    cbv zeta. rewrite (proj2 (Z.ltb_ge _ _)) by lia. rewrite Hv. left.
  - destruct (_ && _); [apply Hrest; [done|lia]|].
    destruct (_ || _); [apply Hrest; [done|lia]|]. cbv zeta.
    destruct (_ <? _); [apply Hrest; [done|lia]|].
    destruct (readFile k now); [right|]; apply Hrest; done || lia.
Qed.

Context `{!LocaleHost}.

Lemma by_key_preorder {A B} (f : A -> B) (cmp : B -> B -> comparison) :
  TotalPreorder cmp -> TotalPreorder (fun x y => cmp (f x) (f y)).
Proof. intros [H1 H2]. by split; eauto. Qed.

Lemma lexicographic_preorder {A} (f g : A -> A -> comparison) :
  TotalPreorder f -> TotalPreorder g ->
  TotalPreorder (fun x y => match f x y with Eq => g x y | c => c end).
Proof.
  intros [Fa Ft] [Ga Gt']. split.
  - intros x y. rewrite Fa. destruct (f x y); cbn; [apply Ga|done|done].
  - intros x y z Hxy Hyz.
    assert (H1 : f x y <> Gt) by (by destruct (f x y)). assert (H2 : f y z <> Gt) by (by destruct (f y z)).
    pose proof (Ft x y z H1 H2) as H3. destruct (f x z) eqn:Exz; [|done|done].
    assert (Hzx : f z x <> Gt) by (by rewrite Fa, Exz).
    assert (Exy : f x y = Eq).
    { pose proof (Ft y z x H2 Hzx) as Hyx. rewrite Fa in Hyx. by destruct (f x y). }
    assert (Eyz : f y z = Eq).
    { pose proof (Ft z x y Hzx H1) as Hzy. rewrite Fa in Hzy. by destruct (f y z). }
    rewrite Exy in Hxy. rewrite Eyz in Hyz. by apply (Gt' x y z).
Qed.

#[export] Instance Zcompare_preorder : TotalPreorder Z.compare.
Proof. split; [intros; apply Z.compare_antisym|]. intros x y z. rewrite !Z.compare_gt_iff. lia. Qed.

#[export] Instance event_compare_preorder : TotalPreorder event_compare.
Proof.
  apply (lexicographic_preorder (fun a b => sequence_of a ?= sequence_of b)
    (fun a b => match locale_compare (text_field a "observedAt") (text_field b "observedAt") with
                | Eq => locale_compare (text_field a "eventId") (text_field b "eventId")
                | c => c
                end)); [apply by_key_preorder, _|].
  apply (lexicographic_preorder
    (fun a b => locale_compare (text_field a "observedAt") (text_field b "observedAt"))
    (fun a b => locale_compare (text_field a "eventId") (text_field b "eventId")));
    apply by_key_preorder, _.
Qed.

(** In a sorted list the one element above all others is last. *)
Lemma sorted_last (l : list jsval) v :
  StronglySorted (le_by event_compare) l -> v ∈ l ->
  NoDup (map sequence_of l) -> (forall w, w ∈ l -> sequence_of w <= sequence_of v) ->
  exists before, l = before ++ [v].
Proof.
  intros Hs Hv Hn Hmax. apply list_elem_of_split in Hv as (before & after & ->).
  exists before. f_equal. f_equal. destruct after as [|w after]; [done|]. exfalso.
  assert (Hle : event_compare v w <> Gt).
  { clear Hn Hmax. induction before as [|x before IH]; cbn in Hs; inversion Hs as [|? ? Hs' Hall]; subst.
    - by apply Forall_cons in Hall as [? _].
    - by apply IH. }
  assert (Hw : sequence_of w <= sequence_of v) by (apply Hmax; set_solver).
  assert (Hne : sequence_of v <> sequence_of w).
  { rewrite map_app in Hn. apply NoDup_app in Hn as (_ & _ & Hn). cbn in Hn.
    apply NoDup_cons in Hn as [Hn _]. intros E. apply Hn. rewrite E. left. }
  unfold event_compare in Hle. rewrite (proj2 (Z.compare_gt_iff _ _)) in Hle by lia. done.
Qed.

(** C10: what is written is read, and read last. When a write into a spool the
    writers left goes through, the desktop reading at that instant, whatever
    order the directory lists, finds the event stored, behind every other
    event it finds; the event is the one handed over, with the number drawn. *)
Theorem a_written_event_is_read_last event now id fate spool spool' listed stored win32 :
  reachable spool -> uuid id -> literal event ->
  writeActivityEvent event now id fate spool = (spool', Some stored) -> listed ≡ₚ spool' ->
  exists before,
    sr_events (readActivitySpool win32 (int now) true (Some listed)) = before ++ [stored] /\
    stored = with_sequence event (sequence_of stored) /\
    now * 1000 <= sequence_of stored /\ sequence_of event <= sequence_of stored /\
    Forall (fun v => sequence_of v < sequence_of stored) before.
Proof.
  intros Hreach Hid Hlit Hw Hp.
  assert (Hok : spool_ok spool').
  { pose proof (reachable_spool_ok _ (reachable_write event now id fate spool Hreach Hid Hlit)) as Hok.
    by rewrite Hw in Hok. }
  apply write_cases in Hw as [[? _]|(kept & stored' & text & total & sequence & Hw & E)]; [done|].
  destruct (wf_end fate) as [| |[]]; destruct E as [Er Es]; try done. injection Er as <-.
  pose proof (written_sequence _ _ _ _ _ _ _ _ Hw) as [Hq Hr].
  destruct Hw as [_ _ [_ Hfrom Habove _] Hrec]. pose proof Hrec as [Est _ _ _ _]. cbn [fst snd] in *.
  set (e := spool_file (event_name sequence id) text (wf_mtime fate)) in *.
  assert (Hname : event_sequence (se_name e) = Some sequence) by (by apply published_name).
  assert (Hbelow : Forall (fun k => forall n, event_sequence (se_name k) = Some n -> n < sequence) (unlocked kept)).
  { eapply sublist_all; [apply sublist_filter|exact Habove]. }
  rewrite (publish_new _ _ sequence Hname Hbelow) in Es.
  assert (Hlisted : spool_ok listed) by (by rewrite Hp). destruct Hlisted as [L1 L2 L3 L4 L5].
  assert (Hul : Forall (fun e => is_writer_lock e = false) listed).
  { rewrite Hp, Es. apply Forall_app. split.
    - apply Forall_forall. intros k Hk. by apply list_elem_of_filter in Hk as [? _].
    - constructor; [|constructor]. by apply published_not_lock. }
  assert (Hcount : unlocked listed = listed).
  { apply filter_id. by apply Forall_forall. }
  set (r := read_entries win32 (int now) 0 0 listed).
  assert (Hin : stored ∈ sr_events r).
  { apply (read_all win32 (int now) 0 0 listed e stored); try done.
    - rewrite Hcount in L2. lia.
    - rewrite Hp, Es. apply elem_of_app. right. left.
    - by rewrite Hname.
    - by apply (published_reads event now (total, sequence)). }
  pose proof (read_sequences win32 (int now) 0 0 listed L4) as Hsub. fold r in Hsub.
  assert (Hnd : NoDup (map sequence_of (sr_events r))) by (by eapply sublist_NoDup).
  assert (Hmax : forall w, w ∈ sr_events r -> sequence_of w <= sequence_of stored).
  { intros w Hwin. assert (Hws : sequence_of w ∈ sequences listed).
    { eapply sublist_subseteq; [exact Hsub|]. apply list_elem_of_fmap. eauto. }
    apply list_elem_of_omap in Hws as (k & Hk & Hks). rewrite Hp, Es in Hk.
    apply elem_of_app in Hk as [Hk|Hk%list_elem_of_singleton].
    - eapply Forall_forall in Hbelow; [|exact Hk]. specialize (Hbelow _ Hks). lia.
    - subst k. rewrite Hname in Hks. injection Hks as <-. lia. }
  pose proof (sort_by_perm event_compare (sr_events r)) as Hperm.
  destruct (sorted_last (sort_by event_compare (sr_events r)) stored) as [before Eb].
  - apply sort_by_sorted, _.
  - by rewrite Hperm.
  - by rewrite Hperm.
  - intros w Hwin. apply Hmax. by rewrite <- Hperm.
  - exists before. cbn [readActivitySpool sr_events]. fold r. split_and!; [done|by rewrite Hq|lia|lia|].
    rewrite <- Hperm, Eb, map_app in Hnd. apply NoDup_app in Hnd as (_ & Hd & _).
    apply Forall_forall. intros w Hwb.
    assert (Hle : sequence_of w <= sequence_of stored).
    { apply Hmax. rewrite <- Hperm, Eb. apply elem_of_app. by left. }
    assert (Hne : sequence_of w <> sequence_of stored).
    { intros Ew. apply (Hd (sequence_of w)); [apply list_elem_of_fmap; eauto|]. rewrite Ew. left. }
    lia.
Qed.

(** ** A day later *)

Lemma assoc_set_same {V} k (v : V) (m : list (string * V)) : assoc_get k m = Some v -> assoc_set k v m = m.
Proof.
  induction m as [|[k' w] m IH]; [done|]. cbn. case_decide as E; [by intros [= ->]; subst|].
  intros Hm. by rewrite IH.
Qed.

Lemma with_own_sequence event now origin :
  isActivityEvent event now origin = true -> with_sequence event (sequence_of event) = event.
Proof.
  intros Ha. destruct (event_object _ _ _ Ha) as [fs ->].
  destruct (event_sequence_safe _ _ _ Ha) as (k & Hk & _). cbn [with_sequence sequence_of]. rewrite Hk.
  cbn [default from_option id]. f_equal. apply assoc_set_same. unfold get, as_safe_int in Hk.
  destruct (assoc_get "sequence" fs) as [[| | |x| | |]|]; try done. cbn in Hk.
  by apply safe_number in Hk as [-> _].
Qed.

Lemma event_text event now origin :
  isActivityEvent event now origin = true ->
  exists text, stringify event = Some text /\ byte_length text <= MAX_ACTIVITY_EVENT_BYTES.
Proof.
  intros Ha. destruct (event_object _ _ _ Ha) as [fs ->]. unfold isActivityEvent in Ha.
  repeat (apply andb_true_iff in Ha as [Ha ?]).
  destruct (stringify (JObj fs)) as [text|]; [|done]. bools. eauto.
Qed.

(** A writer's file of more than a day ago, or a lock left behind. *)
Definition removable (now : Z) (e : SpoolEntry) : Prop :=
  is_writer_lock e = true \/
  se_kind e = ek_regular /\ (event_sequence (se_name e) <> None \/ temporary_name (se_name e) = true) /\
  (int (24 * 60 * 60 * 1000) <# (int now ⊖ se_mtime e)) = true.

Lemma removable_stale now e :
  event_sequence (se_name e) <> None \/ temporary_name (se_name e) = true ->
  (int (24 * 60 * 60 * 1000) <# (int now ⊖ se_mtime e)) = true -> is_stale now e = true.
Proof.
  intros Hn Ho. unfold is_stale.
  change MAX_ACTIVITY_EVENT_AGE_MS with (24 * 60 * 60 * 1000)%Z. rewrite Ho, andb_true_r.
  destruct Hn as [Hn|Hn]; by destruct (event_sequence (se_name e)).
Qed.

(** A file no writer owns that the scan can pass: the stamp [.acl-verified] of
    a Windows directory is one, of no bytes. *)
Definition owned_name (name : string) : bool :=
  bool_decide (is_Some (event_sequence name)) || temporary_name name.

Definition bystander (e : SpoolEntry) : Prop :=
  is_writer_lock e = false /\ se_kind e = ek_regular /\ owned_name (se_name e) = false /\
  0 <= se_size e <= MAX_ACTIVITY_EVENT_BYTES.

Definition bystanders (spool : list SpoolEntry) : list SpoolEntry :=
  List.filter (fun e => negb (owned_name (se_name e))) (unlocked spool).

Lemma owned_removable now e : is_writer_lock e = false -> removable now e -> owned_name (se_name e) = true.
Proof.
  intros Hl [Hw|(_ & [Hn|Hn] & _)]; [congruence| |]; unfold owned_name; [|by rewrite Hn, orb_true_r].
  destruct (event_sequence (se_name e)); [|done]. by rewrite bool_decide_true.
Qed.

Lemma bystander_passes now e : bystander e ->
  event_sequence (se_name e) = None /\ is_stale now e = false.
Proof.
  intros (_ & _ & Hn & _). unfold owned_name in Hn. apply orb_false_iff in Hn as [Hn Ht].
  apply bool_decide_eq_false in Hn. unfold is_stale.
  destruct (event_sequence (se_name e)); [by destruct Hn|]. by rewrite Ht.
Qed.

Lemma scan_a_day_later now entries total sequence :
  Forall (fun e => is_writer_lock e = false /\ (removable now e \/ bystander e)) entries ->
  scan now None entries total sequence =
  (bystanders entries, Some (total + size_of (bystanders entries), sequence)).
Proof.
  intros Hall. revert total. induction Hall as [|e entries [Hl He] _ IH]; intros total.
  { unfold size_of, bystanders. cbn. by rewrite Z.add_0_r. }
  unfold bystanders in *. rewrite unlocked_cons, Hl. cbn [List.filter scan]. rewrite Hl.
  destruct He as [Hr|Hb].
  - rewrite (owned_removable now e Hl Hr). cbn [negb]. destruct Hr as [Hw|(Hk & Hs & Ho)]; [congruence|].
    rewrite bool_decide_true by done. rewrite removable_stale by done. apply IH.
  - pose proof Hb as (_ & Hk & Hn & Hsz). destruct (bystander_passes now e Hb) as [Hq Hst].
    rewrite Hn, Hst, bool_decide_true by done. cbn [negb fmap option_fmap option_map].
    rewrite (proj2 (Z.ltb_ge _ _)) by lia. unfold next_sequence. rewrite Hq, IH, size_cons, Hl. f_equal.
    do 2 f_equal. lia.
Qed.

Lemma bystanders_names spool e : e ∈ bystanders spool -> event_sequence (se_name e) = None.
Proof.
  unfold bystanders. intros [_ Hn]%list_elem_of_In%filter_In. apply negb_true_iff in Hn.
  unfold owned_name in Hn. apply orb_false_iff in Hn as [Hn _]. apply bool_decide_eq_false in Hn.
  destruct (event_sequence (se_name e)); [by destruct Hn|done].
Qed.

Lemma bystanders_idem spool : bystanders (unlocked spool) = bystanders spool.
Proof. unfold bystanders. by rewrite unlocked_idem. Qed.

Lemma bystanders_unlocked spool : unlocked (bystanders spool) = bystanders spool.
Proof.
  apply filter_id. intros e He%list_elem_of_In. unfold bystanders in He.
  apply filter_In in He as [He%list_elem_of_In _]. by apply list_elem_of_filter in He as [? _].
Qed.

(** C14: no record of a writer blocks the spool for longer than a day. Once
    every event and temporary file of a spool is more than a day old, whatever
    it holds, whatever its number and however large all of them are, the next
    event is accepted with the number it came with, and is the one record the
    spool holds then. What the scan never removes must leave it room: the files
    that are no writer's, such as the stamp of a Windows directory, are ordinary
    ones no larger than an event and together leave room for one, and there are
    fewer than [MAX_ENTRIES] entries in all. *)
Theorem a_day_clears_the_spool event now id mtime spool :
  isActivityEvent event (int now) (origin_of event) = true -> now * 1000 <= sequence_of event ->
  uuid id -> Forall (fun e => removable now e \/ bystander e) spool ->
  size_of (bystanders spool) + MAX_ACTIVITY_EVENT_BYTES <= MAX_ACTIVITY_SPOOL_BYTES ->
  Z.of_nat (length (unlocked spool)) < MAX_ENTRIES ->
  exists text,
    stringify event = Some text /\
    writeActivityEvent event now id
      {| wf_prepared := true; wf_scanned := None; wf_mtime := mtime; wf_end := we_done |} spool =
    (bystanders spool ++ [spool_file (event_name (sequence_of event) id) text mtime], Some event).
Proof.
  intros Ha Hs Hid Hf Hroom Hc. destruct (event_text _ _ _ Ha) as (text & Ht & Hb).
  exists text. split; [done|].
  unfold writeActivityEvent. rewrite Ha. cbn [wf_prepared wf_scanned wf_mtime wf_end negb orb length].
  rewrite (proj2 (Z.ltb_ge _ _)) by lia.
  change (scan now None (writer_lock :: unlocked spool) 0 (Z.max (sequence_of event) (now * 1000)))
    with (let '(kept, found) := scan now None (unlocked spool) 0 (Z.max (sequence_of event) (now * 1000)) in
          (writer_lock :: kept, found)).
  rewrite scan_a_day_later, Z.max_l, bystanders_idem by
    (first [lia|apply Forall_forall; intros e He; apply list_elem_of_filter in He as [? He];
                split; [done|by eapply (proj1 (Forall_forall _ _) Hf)]]).
  unfold record_to_store. cbv zeta. cbn [snd fst]. rewrite (with_own_sequence _ _ _ Ha), Ha, Ht.
  rewrite !(proj2 (Z.leb_le _ _)) by (done || lia). cbn [andb mbind option_bind snd].
  rewrite unlocked_cons. cbn [is_writer_lock se_name writer_lock]. rewrite bystanders_unlocked.
  assert (Hsafe : 0 <= sequence_of event < 10 ^ 16).
  { pose proof (with_own_sequence _ _ _ Ha) as Es. rewrite <- Es in Ha.
    apply stored_sequence in Ha as [_ Hq]. lia. }
  f_equal. apply (publish_new _ _ (sequence_of event)); [by apply published_name|].
  apply Forall_forall. intros e He n Hn. by rewrite (bystanders_names spool e He) in Hn.
Qed.

(** A spool of [MAX_ENTRIES] files is full for good: the count is refused
    before anything old is removed. *)
Lemma a_full_count_is_never_cleared event now id fate spool :
  MAX_ENTRIES <= Z.of_nat (length (unlocked spool)) ->
  exists spool', writeActivityEvent event now id fate spool = (spool', None) /\
    unlocked spool' = unlocked spool.
Proof.
  intros Hc. unfold writeActivityEvent. destruct (_ || _); [by eexists|]. cbn [length].
  rewrite (proj2 (Z.ltb_lt _ _)) by lia. eexists. split; [done|].
  assert (E : unlocked (writer_lock :: unlocked spool) = unlocked spool).
  { rewrite unlocked_cons. change (is_writer_lock writer_lock) with true. cbn iota. apply unlocked_idem. }
  unfold gone. destruct (wf_end fate); rewrite ?unlocked_idem; exact E.
Qed.
End Laws.

(** ** Witnesses *)

Definition sample_now_ms : Z := 1000.

Definition sample_id : string := "0123abcd-0000-4000-8000-0123456789ab".

Definition sample_hook_event : jsval :=
  JObj [("version", JNum (int 1)); ("eventId", JStr sample_id); ("sessionId", JStr "s-1");
        ("sequence", JNum (int (sample_now_ms * 1000))); ("agent", JStr "codex");
        ("observedAt", JStr "1970-01-01T00:00:01.000Z"); ("state", JStr "busy");
        ("source", JStr "hook"); ("confidence", JStr "explicit");
        ("process", JObj [("ppid", JNum (int 42))]); ("signal", JStr "observation")].

Definition plain_fate : WriteFate :=
  {| wf_prepared := true; wf_scanned := None; wf_mtime := int sample_now_ms; wf_end := we_done |}.

Definition killed_fate : WriteFate :=
  {| wf_prepared := true; wf_scanned := None; wf_mtime := int sample_now_ms; wf_end := we_killed (Some 20) |}.

Lemma sample_literal : literal sample_hook_event.
Proof.
  assert (R : forall n, Z.abs n < 2 ^ 53 -> readable (int n)) by (intros n Hn; by apply representable_int).
  unfold literal, sample_hook_event. split; [|split; [|reflexivity]];
    cbn [unique_keys readable_numbers foldr snd];
    repeat lazymatch goal with |- _ /\ _ => split end;
    first [exact I|apply R; reflexivity|apply (bool_decide_unpack _); vm_compute; exact I].
Qed.

Lemma sample_uuid : uuid sample_id.
Proof. split; reflexivity. Qed.

(** A writer killed before the rename, then one that publishes. *)
Definition left_behind : list SpoolEntry :=
  (writeActivityEvent sample_hook_event sample_now_ms sample_id killed_fate []).1.

Lemma left_behind_reachable : reachable left_behind.
Proof. apply reachable_write; [constructor|apply sample_uuid|apply sample_literal]. Qed.

Lemma the_spool_stays_in_bounds_witness :
  size_of left_behind <= MAX_ACTIVITY_SPOOL_BYTES /\ NoDup (sequences left_behind).
Proof.
  pose proof (the_spool_stays_in_bounds left_behind left_behind_reachable) as (H1 & _ & H3 & _).
  split; [exact H1|exact H3].
Defined.

Definition published : list SpoolEntry :=
  (writeActivityEvent sample_hook_event sample_now_ms sample_id plain_fate []).1.

Lemma a_written_event_is_read_last_witness :
  exists before,
    sr_events (readActivitySpool false (int sample_now_ms) true (Some published)) =
    before ++ [sample_hook_event].
Proof.
  destruct (a_written_event_is_read_last sample_hook_event sample_now_ms sample_id plain_fate []
              published published sample_hook_event false) as (before & Hb & _).
  - constructor.
  - apply sample_uuid.
  - apply sample_literal.
  - vm_compute. reflexivity.
  - reflexivity.
  - exists before. exact Hb.
Defined.

Definition old_file : SpoolEntry :=
  {| se_name := event_name 9007199254740991 sample_id; se_kind := ek_regular; se_size := 20000000;
     se_mtime := int (sample_now_ms - 86400001); se_text := None |}.

(** The stamp of a Windows directory. *)
Definition acl_stamp : SpoolEntry := spool_file ".acl-verified" "" (int 0).

Lemma a_day_clears_the_spool_witness :
  exists text,
    writeActivityEvent sample_hook_event sample_now_ms sample_id
      {| wf_prepared := true; wf_scanned := None; wf_mtime := int 0; wf_end := we_done |}
      [acl_stamp; old_file] =
    ([acl_stamp; spool_file (event_name (sequence_of sample_hook_event) sample_id) text (int 0)],
     Some sample_hook_event).
Proof.
  destruct (a_day_clears_the_spool sample_hook_event sample_now_ms sample_id (int 0) [acl_stamp; old_file])
    as (text & _ & E).
  - vm_compute. reflexivity.
  - vm_compute. discriminate.
  - apply sample_uuid.
  - constructor; [right; split_and!; [reflexivity|reflexivity|reflexivity|vm_compute; discriminate|vm_compute; discriminate]|].
    constructor; [left; right; split; [reflexivity|split; [left; vm_compute; discriminate|vm_compute; reflexivity]]|constructor].
  - vm_compute. discriminate.
  - vm_compute. reflexivity.
  - exists text. exact E.
Defined.
