(* ===== verification/HookEvent.v ===== *)
(** * From an agent's hook to the spool

    [cli/src/activity/event.ts]: what one invocation of a hook says about its
    session, [mapHookActivity], and the [event] command that writes it to the
    spool. The command never fails its host: every refusal and every exception
    leaves exit code 0 and no output, so the model has one [None] for them. *)
From S2P Require Import Prelude JsNum JsDate JsValue Text Json JsonText Activity ClaudePayload Files Spool.
Local Open Scope string_scope.
Local Open Scope Z_scope.
Local Open Scope list_scope.
Local Open Scope js_scope.

Definition EVENT_INPUT_MAX_BYTES : Z := 65536.

(** The objects [agents] and [events]. A name every object inherits has no list
    of events: looking it up throws. *)
Definition agents : list (string * ActivityAgent) :=
  [("claude", claude_code); ("codex", codex); ("muse", muse); ("gemini", gemini_cli);
   ("cursor", cursor)].

Definition hook_events (agent : ActivityAgent) : list string :=
  match agent with
  | claude_code => ["SessionStart"; "UserPromptSubmit"; "Notification"; "Stop"; "SessionEnd"]
  | codex => ["SessionStart"; "UserPromptSubmit"; "PermissionRequest"; "Stop"; "SessionEnd"]
  | muse =>
      ["SessionStart"; "UserPromptSubmit"; "PermissionRequest"; "Notification"; "Stop"; "SessionEnd"]
  | gemini_cli => ["SessionStart"; "BeforeAgent"; "Notification"; "AfterAgent"; "SessionEnd"]
  | cursor => ["sessionStart"; "beforeSubmitPrompt"; "stop"; "sessionEnd"]
  | kimi | grok | antigravity => []
  end.

(** [a ?? b] *)
Definition or_else (a b : jsval) : jsval := match a with JUndef | JNull => b | _ => a end.

Definition session_field (agent : ActivityAgent) (payload : list (string * jsval)) : jsval :=
  if bool_decide (agent = cursor)
  then or_else (get payload "conversation_id") (get payload "session_id")
  else get payload "session_id".

(** Neither slash nor backslash, and not a directory's name. *)
Definition opaque_id (s : string) : bool :=
  str_forall (fun c => negb ((code c =? 47) || (code c =? 92))) s &&
  negb (str_eqb s ".") && negb (str_eqb s "..").

(** What an invocation says: the fields the code assigns. *)
Record HookReading := {
  hr_state : ActivityState;
  hr_confidence : ActivityConfidence;
  hr_signal : ActivitySignal;
  hr_outcome : option ActivityOutcome }.

Definition says (state : ActivityState) : HookReading :=
  {| hr_state := state; hr_confidence := explicit; hr_signal := observation; hr_outcome := None |}.

Definition signals (signal : ActivitySignal) (state : ActivityState) : HookReading :=
  {| hr_state := state; hr_confidence := explicit; hr_signal := signal; hr_outcome := None |}.

Definition ends_as (outcome : option ActivityOutcome) (signal : ActivitySignal) : HookReading :=
  {| hr_state := unknown; hr_confidence := explicit; hr_signal := signal; hr_outcome := outcome |}.

Definition notification (agent : ActivityAgent) (kind : jsval) : option HookReading :=
  if bool_decide (agent = gemini_cli) && is_string kind "ToolPermission" ||
     (bool_decide (agent = claude_code) || bool_decide (agent = muse)) &&
     is_string kind "permission_prompt"
  then Some (says waiting)
  else if bool_decide (agent = claude_code) && is_string kind "elicitation_dialog"
  then Some (signals user_question waiting)
  else if bool_decide (agent = claude_code) && is_string kind "idle_prompt"
  then Some {| hr_state := idle; hr_confidence := inferred; hr_signal := observation;
               hr_outcome := None |}
  else None.

Definition session_end (agent : ActivityAgent) (reason : jsval) : HookReading :=
  ends_as
    (if bool_decide (agent = cursor) && is_string reason "error" then Some failed
     else if bool_decide (agent = cursor) && is_string reason "aborted" then Some cancelled
     else None) session_ended.

Definition is_true (v : jsval) : bool := match v with JBool b => b | _ => false end.

Definition hook_reading (agent : ActivityAgent) (eventName : string)
    (payload : list (string * jsval)) : option HookReading :=
  if str_eqb eventName "SessionStart" || str_eqb eventName "sessionStart" then Some (says idle)
  else if bool_decide (eventName ∈ ["UserPromptSubmit"; "BeforeAgent"; "beforeSubmitPrompt"])
  then Some (says busy)
  else if str_eqb eventName "PermissionRequest" then Some (says waiting)
  else if str_eqb eventName "Notification"
  then notification agent (get payload "notification_type")
  else if str_eqb eventName "SessionEnd" || str_eqb eventName "sessionEnd"
  then Some (session_end agent (get payload "reason"))
  else if bool_decide (agent = cursor) then
    let status := get payload "status" in
    if is_string status "completed" then Some (says done_)
    else if is_string status "aborted" then Some (ends_as (Some cancelled) observation)
    else if is_string status "error" then Some (ends_as (Some failed) observation)
    else None
  else if is_true (get payload "stop_hook_active") then Some (says busy)
  else Some (if bool_decide (agent = claude_code) then signals claude_stop done_ else says done_).

(** [(agent === "codex" || agent === "claude_code") && typeof payload["agent_id"] === "string"] *)
Definition is_child (agent : ActivityAgent) (payload : list (string * jsval)) : bool :=
  (bool_decide (agent = codex) || bool_decide (agent = claude_code)) &&
  match get payload "agent_id" with JStr _ => true | _ => false end.

(** The object, its fields in the order of assignment. The number [now * 1000]
    is exact when it is safe, and refused when it is not. *)
Definition hook_event (eventId sessionId : string) (agent : ActivityAgent) (now ppid : Z)
    (observedAt : string) (r : HookReading) (child : bool) : jsval :=
  JObj ([("version", JNum (int 1)); ("eventId", JStr eventId); ("sessionId", JStr sessionId);
         ("sequence", JNum (int (now * 1000))); ("agent", JStr (name_of agent));
         ("observedAt", JStr observedAt); ("state", JStr (name_of (hr_state r)));
         ("source", JStr "hook"); ("confidence", JStr (name_of (hr_confidence r)));
         ("process", JObj [("ppid", JNum (int ppid))]); ("signal", JStr (name_of (hr_signal r)))] ++
        match hr_outcome r with Some o => [("outcome", JStr (name_of o))] | None => [] end ++
        if child then [("isSidechain", JBool true)] else []).

Section HookEvent.
Context `{DateHost}.

Definition mapHookActivity (agentName eventName : string) (payload : jsval) (now : Z)
    (eventId : string) (ppid : Z) : option jsval :=
  let? agent := assoc_get agentName agents in
  check bool_decide (eventName ∈ hook_events agent);;
  let? fs := record_of payload in
  check is_undef (get fs "hook_event_name") || is_string (get fs "hook_event_name") eventName;;
  let? sessionId := as_string (session_field agent fs) in
  check opaque_id sessionId;;
  let? observedAt := iso_string (Some now) in
  let? reading := hook_reading agent eventName fs in
  let event := hook_event eventId sessionId agent now ppid observedAt reading (is_child agent fs) in
  check isActivityEvent event (int now) from_hook;;
  Some event.

(** The value behind a flag, or the empty text. *)
Fixpoint flag (name : string) (arguments : list string) : string :=
  match arguments with
  | [] => ""
  | a :: rest => if str_eqb a name then default "" (head rest) else flag name rest
  end.

(** [raw] is the standard input, [None] past the deadline; the two identifiers
    are those of the event and of its file. *)
Definition eventCommand (arguments : list string) (raw : option string) (now : Z)
    (eventId fileId : string) (ppid : Z) (fate : WriteFate) (spool : list SpoolEntry) :
    list SpoolEntry :=
  match (let? raw := raw in
         check byte_length raw <=? EVENT_INPUT_MAX_BYTES;;
         let? payload := json_parse raw in
         mapHookActivity (flag "--agent" arguments) (flag "--event" arguments) payload now eventId
           ppid) with
  | Some event => (writeActivityEvent event now fileId fate spool).1
  | None => spool
  end.
End HookEvent.
