(* ===== verification/HookLaws.v ===== *)
(** * What the hooks leave

    An event depends on the structure of its payload alone; every invocation
    that says something makes an event the spool takes; whatever reaches the
    command, the files it leaves hold structural events and nothing else. *)
From S2P Require Import Prelude JsNum JsDate JsValue Text Json JsonText ReadBack Activity ClaudePayload Files Notify Spool SpoolLaws HookEvent.
Local Open Scope string_scope.
Local Open Scope Z_scope.
Local Open Scope list_scope.
Local Open Scope js_scope.

(** ** Free text is not looked at *)

(** Everything [mapHookActivity] can tell of a payload: whether it names this
    event, the session's identifier, and for each field a choice among the
    literals of the code. *)
Record Structure := {
  pl_names_event : bool;
  pl_session : option string;
  pl_kind : list bool; pl_reason : list bool; pl_status : list bool;
  pl_stop : bool; pl_agent : bool }.

Definition literals (v : jsval) (l : list string) : list bool := map (is_string v) l.

Definition structure (agent : ActivityAgent) (eventName : string) (fs : list (string * jsval)) :
    Structure :=
  {| pl_names_event := is_undef (get fs "hook_event_name") || is_string (get fs "hook_event_name") eventName;
     pl_session := as_string (session_field agent fs);
     pl_kind := literals (get fs "notification_type")
                  ["ToolPermission"; "permission_prompt"; "elicitation_dialog"; "idle_prompt"];
     pl_reason := literals (get fs "reason") ["aborted"; "error"];
     pl_status := literals (get fs "status") ["completed"; "aborted"; "error"];
     pl_stop := is_true (get fs "stop_hook_active");
     pl_agent := match get fs "agent_id" with JStr _ => true | _ => false end |}.


Section Structure.
Context `{DateHost}.

Lemma notification_literals agent v w :
  literals v ["ToolPermission"; "permission_prompt"; "elicitation_dialog"; "idle_prompt"] =
  literals w ["ToolPermission"; "permission_prompt"; "elicitation_dialog"; "idle_prompt"] ->
  notification agent v = notification agent w.
Proof. unfold notification. cbn [literals map]. by intros [= -> -> -> ->]. Qed.

Lemma session_end_literals agent v w :
  literals v ["aborted"; "error"] = literals w ["aborted"; "error"] ->
  session_end agent v = session_end agent w.
Proof. unfold session_end. cbn [literals map]. by intros [= -> ->]. Qed.

Lemma hook_reading_structure agent eventName fs fs' :
  structure agent eventName fs = structure agent eventName fs' ->
  hook_reading agent eventName fs = hook_reading agent eventName fs'.
Proof.
  intros E. pose proof (f_equal pl_kind E) as Ek. pose proof (f_equal pl_reason E) as Er.
  pose proof (f_equal pl_status E) as Es. pose proof (f_equal pl_stop E) as Et.
  cbn [structure pl_kind pl_reason pl_status pl_stop] in *. unfold hook_reading.
  rewrite (notification_literals agent _ _ Ek), (session_end_literals agent _ _ Er), Et.
  unfold literals in Es. cbn [map] in Es. injection Es as E1 E2 E3. cbv zeta. by rewrite E1, E2, E3.
Qed.

(** Free text is not looked at. Two payloads of the same structure, the
    same session identifier and, field by field, the same choice among the
    literals of the code, make the same event: no prompt, message, path or tool
    name of a payload can reach the event or change it. *)
Theorem free_text_is_not_looked_at agentName agent eventName fs fs' now eventId ppid :
  assoc_get agentName agents = Some agent ->
  structure agent eventName fs = structure agent eventName fs' ->
  mapHookActivity agentName eventName (JObj fs) now eventId ppid =
  mapHookActivity agentName eventName (JObj fs') now eventId ppid.
Proof.
  intros Ha E. unfold mapHookActivity. rewrite Ha. cbn [record_of].
  rewrite (hook_reading_structure _ _ _ _ E).
  pose proof (f_equal pl_names_event E) as En. pose proof (f_equal pl_session E) as Es.
  pose proof (f_equal pl_agent E) as Eg.
  cbn [structure pl_names_event pl_session pl_agent] in *. unfold is_child. by rewrite En, Es, Eg.
Qed.
End Structure.

(** ** The size of an event *)

(** A bound on the text of a value whose numbers print short. *)
Fixpoint text_size (v : jsval) : Z :=
  match v with
  | JStr s => 2 + 6 * str_length s
  | JArr l => 2 + foldr (fun x n => text_size x + 1 + n) 0 l
  | JObj fs => 2 + foldr (fun kv n => 3 + 6 * str_length kv.1 + text_size kv.2 + 1 + n) 0 fs
  | _ => 25
  end.

Fixpoint prints_short (v : jsval) : Prop :=
  match v with
  | JNum _ => str_length (text_of v) <= 25
  | JArr l => foldr (fun x P => prints_short x /\ P) True l
  | JObj fs => foldr (fun kv P => prints_short kv.2 /\ P) True fs
  | _ => True
  end.

Lemma quote_char_size c : str_length (quote_char c) <= 6.
Proof. destruct c as [[] [] [] [] [] [] [] []]; vm_compute; discriminate. Qed.

Lemma quoted_size s : str_length (quoted s) <= 2 + 6 * str_length s.
Proof.
  unfold quoted. rewrite !str_length_app. change (str_length double_quote) with 1.
  enough (str_length (str_concat_map quote_char s) <= 6 * str_length s) by lia.
  induction s as [|c s IH]; [done|]. cbn [str_concat_map str_length]. rewrite str_length_app.
  pose proof (quote_char_size c). lia.
Qed.

Lemma join_size (l : list string) : str_length (join "," l) <= foldr (fun x n => str_length x + 1 + n) 0 l.
Proof.
  induction l as [|x l IH]; [done|]. destruct l as [|y l].
  - cbn. lia.
  - change (join "," (x :: y :: l)) with (x +:+ "," +:+ join "," (y :: l)).
    rewrite !str_length_app. change (str_length ",") with 1. cbn [foldr] in *. lia.
Qed.

Lemma text_size_bound v : prints_short v -> str_length (text_of v) <= text_size v.
Proof.
  revert v. apply (jsval_nested (fun v => prints_short v -> str_length (text_of v) <= text_size v)).
  - done.
  - done.
  - by intros [].
  - intros x Hx. exact Hx.
  - intros s _. apply quoted_size.
  - intros l IH Hs. change (text_of (JArr l)) with ("[" +:+ join "," (map text_of l) +:+ "]").
    rewrite !str_length_app. change (str_length "[") with 1. change (str_length "]") with 1.
    pose proof (join_size (map text_of l)) as Hj. cbn [text_size].
    enough (foldr (fun x n => str_length x + 1 + n) 0 (map text_of l) <=
            foldr (fun x n => text_size x + 1 + n) 0 l) by lia.
    clear Hj. cbn [prints_short] in Hs. induction IH as [|x l Hx _ IHl]; [done|].
    cbn [map foldr] in *. destruct Hs as [H1 H2]. specialize (Hx H1). specialize (IHl H2). lia.
  - intros fs IH Hs.
    set (texts := omap (fun kv => (fun t => quoted kv.1 +:+ ":" +:+ t) <$> stringify kv.2) fs).
    change (text_of (JObj fs)) with ("{" +:+ join "," texts +:+ "}"). rewrite !str_length_app.
    change (str_length "{") with 1. change (str_length "}") with 1. cbn [text_size]. pose proof (join_size texts) as Hj.
    enough (foldr (fun x n => str_length x + 1 + n) 0 texts <=
            foldr (fun kv n => 3 + 6 * str_length kv.1 + text_size kv.2 + 1 + n) 0 fs) by lia.
    clear Hj. subst texts. cbn [prints_short] in Hs.
    induction IH as [|[k x] fs Hx _ IHl]; [done|]. cbn [foldr fst snd] in *.
    destruct Hs as [H1 H2]. specialize (Hx H1). specialize (IHl H2).
    pose proof (quoted_size k). pose proof (str_length_nonneg k).
    pose proof (str_length_nonneg (text_of x)).
    cbn [omap list_omap fst snd]. rewrite stringify_text. destruct (is_undef x); cbn [fmap option_fmap option_map foldr].
    + lia.
    + rewrite !str_length_app. change (str_length ":") with 1. lia.
Qed.

(** ** Every recognised invocation makes an event *)

Lemma is_digit_mod n : is_digit (digit (n mod 10)) = true.
Proof.
  pose proof (Z.mod_pos_bound n 10 eq_refl) as Hb. unfold digit. set (d := n mod 10) in *.
  assert (Hd : d = 0 \/ d = 1 \/ d = 2 \/ d = 3 \/ d = 4 \/ d = 5 \/ d = 6 \/ d = 7 \/ d = 8 \/ d = 9) by lia.
  by destruct Hd as [-> | [-> | [-> | [-> | [-> | [-> | [-> | [-> | [-> | ->]]]]]]]]].
Qed.

Definition year_of (t : Z) : Z := (civil (t / day_ms)).1.1.

#[local] Transparent to_iso.
Lemma four_digit_instant t :
  0 <= year_of t <= 9999 -> matches_template instant_template (to_iso t) = true /\ str_length (to_iso t) = 24.
Proof.
  unfold year_of, to_iso. destruct (civil (t / day_ms)) as [[y m] d]. cbn [fst]. intros Hy.
  unfold year_text. rewrite !(proj2 (Z.leb_le _ _)) by lia. cbn [andb digits].
  cbv beta iota zeta delta [instant_template String.append matches_template str_length].
  split; [|done]. rewrite !is_digit_mod. done.
Qed.

#[local] Opaque to_iso.

Section Accepted.
Context `{DateHost}.

Lemma contract_instant t :
  0 <= year_of t <= 9999 -> valid_time t = true -> isContractInstant (JStr (to_iso t)) = true.
Proof.
  intros Hy Hv. unfold isContractInstant. rewrite (proj1 (four_digit_instant t Hy)).
  by apply is_iso_instant_to_iso.
Qed.

(** What the code can say of an invocation. *)
Record reading_ok (agent : ActivityAgent) (r : HookReading) : Prop := {
  rd_explicit : hr_confidence r = explicit \/ hr_state r = idle /\ hr_signal r = observation;
  rd_stop : hr_signal r = claude_stop -> agent = claude_code;
  rd_outcome : hr_outcome r <> None -> hr_state r = unknown }.

Lemma hook_reading_ok agent eventName fs r :
  hook_reading agent eventName fs = Some r -> reading_ok agent r.
Proof.
  unfold hook_reading, notification, session_end. cbv zeta. intros E.
  repeat match type of E with
  | (if ?b then _ else _) = Some _ => destruct b eqn:?
  end; try discriminate E; injection E as <-;
    try destruct (bool_decide (agent = claude_code)) eqn:?; bools;
    constructor; cbn; auto; done.
Qed.

Lemma hook_reading_None agent eventName fs :
  eventName ∈ hook_events agent -> hook_reading agent eventName fs = None ->
  eventName = "Notification" \/ agent = cursor /\ eventName = "stop".
Proof.
  intros Hin E. destruct (is_true (get fs "stop_hook_active")) eqn:Et;
    destruct agent; cbn [hook_events] in Hin;
    repeat (apply elem_of_cons in Hin as [->|Hin]); try (by apply elem_of_nil in Hin);
    first [discriminate E|by left|by right|unfold hook_reading in E; rewrite Et in E; discriminate E].
Qed.

Lemma name_size {A} `{Closed A} (l : list A) n :
  Forall (fun a => str_length (name_of a) <= n) l -> forall a, a ∈ l -> str_length (name_of a) <= n.
Proof. apply Forall_forall. Qed.

Lemma uuid_identifier id : uuid id -> identifier (JStr id) = true.
Proof.
  intros [Hl Hu]. unfold identifier. rewrite Hl. cbn [andb].
  apply (str_forall_impl uuid_unit); [|done]. intros c Hc.
  unfold uuid_unit, is_digit, in_range in Hc. apply negb_true_iff, orb_false_iff.
  rewrite Z.ltb_ge, Z.eqb_neq.
  apply orb_true_iff in Hc as [Hc|Hc]; [apply orb_true_iff in Hc as [Hc|Hc]|]; bools; try lia.
  apply Ascii.eqb_eq in Hc as ->. by vm_compute.
Qed.

(** An invocation of a real process at a real instant. *)
Record real_call (now ppid : Z) (eventId sessionId : string) : Prop := {
  rc_year : 0 <= year_of now <= 9999;
  rc_time : valid_time now = true;
  rc_number : 0 <= now * 1000 < 2 ^ 53;
  rc_ppid : 0 < ppid < 2 ^ 53;
  rc_event : uuid eventId;
  rc_opaque : opaque_id sessionId = true;
  rc_session : identifier (JStr sessionId) = true }.

Section Event.
Context (eventId sessionId : string) (agent : ActivityAgent) (now ppid : Z) (r : HookReading)
  (child : bool) (Hc : real_call now ppid eventId sessionId) (Hr : reading_ok agent r).

Definition hook_fields : list (string * jsval) :=
  default [] (record_of (hook_event eventId sessionId agent now ppid (to_iso now) r child)).

Lemma identifier_length s : identifier (JStr s) = true -> str_length s <= 256.
Proof. unfold identifier. intros Hs. by bools. Qed.

Lemma small_names :
  str_length (name_of agent) <= 20 /\ str_length (name_of (hr_state r)) <= 20 /\
  str_length (name_of (hr_confidence r)) <= 20 /\ str_length (name_of (hr_signal r)) <= 20 /\
  (forall o, str_length (name_of (A := ActivityOutcome) o) <= 20).
Proof.
  split_and!; [destruct agent|destruct (hr_state r)|destruct (hr_confidence r)|destruct (hr_signal r)|intros []];
    vm_compute; discriminate.
Qed.

Lemma event_fits :
  exists text, stringify (JObj hook_fields) = Some text /\ byte_length text <= MAX_ACTIVITY_EVENT_BYTES.
Proof.
  exists (text_of (JObj hook_fields)). split; [done|].
  pose proof (byte_length_bound (text_of (JObj hook_fields))) as Hb.
  destruct Hc as [Hy Hv Hn Hp [Hl _] _ Hs]. apply identifier_length in Hs.
  pose proof (proj2 (four_digit_instant now Hy)) as Hi.
  destruct small_names as (N1 & N2 & N3 & N4 & N5).
  pose proof (text_size_bound (JObj hook_fields)) as Ht.
  enough (text_size (JObj hook_fields) <= 4000 /\ prints_short (JObj hook_fields)) as [H1 H2].
  { specialize (Ht H2). unfold MAX_ACTIVITY_EVENT_BYTES. lia. }
  assert (Hp1 : str_length (text_of (JNum (int 1))) <= 25) by (apply natural_text_short; lia).
  assert (Hp2 : str_length (text_of (JNum (int (now * 1000)))) <= 25) by (apply natural_text_short; lia).
  assert (Hp3 : str_length (text_of (JNum (int ppid))) <= 25) by (apply natural_text_short; lia).
  unfold hook_fields, hook_event. clear Ht Hb.
  destruct (hr_outcome r) as [o|]; [specialize (N5 o)|]; destruct child;
    cbn [default from_option id record_of app text_size prints_short foldr fst snd];
    change (str_length "hook") with 4;
    repeat match goal with |- context [str_length (String ?a ?b)] =>
      let n := eval vm_compute in (str_length (String a b)) in change (str_length (String a b)) with n end.
  all: split; [clear Hp1 Hp2 Hp3 Hc Hr; lia|].
  all: repeat split; assumption.
Qed.

Lemma event_keys_only : hasOnlyContractKeys hook_fields event_keys = true.
Proof. unfold hook_fields, hook_event. destruct (hr_outcome r), child; vm_compute; reflexivity. Qed.

(** The fields of the event, read back. *)
Definition field (k : string) (v : jsval) : Prop := get hook_fields k = v.

Lemma fields :
  (field "version" (JNum (int 1)) /\ field "eventId" (JStr eventId) /\ field "sessionId" (JStr sessionId) /\
   field "sequence" (JNum (int (now * 1000))) /\ field "agent" (JStr (name_of agent)) /\
   field "observedAt" (JStr (to_iso now)) /\ field "state" (JStr (name_of (hr_state r)))) /\
  (field "source" (JStr "hook") /\ field "confidence" (JStr (name_of (hr_confidence r))) /\
   field "process" (JObj [("ppid", JNum (int ppid))]) /\ field "signal" (JStr (name_of (hr_signal r))) /\
   field "accountAlias" JUndef /\ field "parentSessionId" JUndef) /\
  field "outcome" (default JUndef ((fun o => JStr (name_of o)) <$> hr_outcome r)) /\
  field "isSidechain" (if child then JBool true else JUndef).
Proof.
  unfold field, hook_fields, hook_event. destruct (hr_outcome r), child; split_and!; reflexivity.
Qed.

Lemma safe_int_of n : 0 <= n < 2 ^ 53 -> to_safe_int (int n) = Some n.
Proof. intros Hn. apply to_safe_int_int. lia. Qed.

Lemma process_accepted observedAt :
  0 < ppid < 2 ^ 53 -> process_ok from_hook observedAt (JObj [("ppid", JNum (int ppid))]) = true.
Proof.
  intros Hp. unfold process_ok. cbv zeta. change (get _ "ppid") with (JNum (int ppid)).
  change (get _ "pid") with JUndef. change (get _ "startedAt") with JUndef.
  unfold Activity.pid. rewrite safe_int_of by lia. rewrite (proj2 (Z.ltb_lt _ _)) by lia. reflexivity.
Qed.

Lemma same_instant : int now ⊖ int now = Fin 0.
Proof.
  unfold int. change (Fin (now * one) ⊖ Fin (now * one)) with (round_ratio (now * one + - (now * one)) 1).
  rewrite Z.add_opp_diag_r. by vm_compute.
Qed.

Lemma stop_is_claude's :
  negb (is_string (JStr (name_of (hr_signal r))) "claude_stop" &&
        negb (is_string (JStr (name_of agent)) "claude_code")) = true.
Proof. destruct Hr as [_ R2 _]. destruct (hr_signal r); try reflexivity. by rewrite (R2 eq_refl). Qed.

Lemma outcome_not_done :
  let outcome := default JUndef ((fun o => JStr (name_of o)) <$> hr_outcome r) in
  (is_undef outcome || member ActivityOutcome outcome) &&
  negb (negb (is_undef outcome) && is_string (JStr (name_of (hr_state r))) "done") = true.
Proof.
  destruct Hr as [_ _ R3]. destruct (hr_outcome r) as [o|]; [|reflexivity]. rewrite R3 by done.
  by destruct o.
Qed.

Lemma done_is_explicit :
  negb ((is_string (JStr (name_of (hr_state r))) "done" ||
         is_string (JStr (name_of (hr_signal r))) "user_question" ||
         is_string (JStr (name_of (hr_signal r))) "claude_stop") &&
        negb (is_string (JStr (name_of (hr_confidence r))) "explicit")) = true.
Proof.
  destruct Hr as [[E | [E1 E2]] _ _]; [rewrite E|by rewrite E1, E2].
  by rewrite andb_false_r.
Qed.

Lemma event_accepted : isActivityEvent (JObj hook_fields) (int now) from_hook = true.
Proof.
  destruct fields as ((F1 & F2 & F3 & F4 & F5 & F6 & F7) & (G1 & G2 & G3 & G4 & G5 & G6) & H1 & H2).
  unfold field in *. destruct event_fits as (text & Ht & Hb). destruct Hc as [Hy Hv Hn Hp Hid _ Hs].
  pose proof outcome_not_done as Ho. cbv zeta in Ho. apply andb_true_iff in Ho as [Ho1 Ho2].
  unfold isActivityEvent. rewrite event_keys_only, Ht, F1, F2, F3, F4, F5, F6, F7, G1, G2, G3, G4, G5, G6, H1, H2.
  rewrite (proj2 (Z.leb_le _ _) Hb), int_eq, (uuid_identifier _ Hid), Hs, safe_int_of by lia.
  rewrite (contract_instant now Hy Hv), date_parse_to_iso by done.
  rewrite (member_name agent : member ActivityAgent (JStr (name_of agent)) = true).
  rewrite (member_name (hr_state r) : member ActivityState (JStr (name_of (hr_state r))) = true).
  rewrite (member_name (hr_confidence r) : member ActivityConfidence (JStr (name_of (hr_confidence r))) = true).
  rewrite (member_name (hr_signal r) : member ActivitySignal (JStr (name_of (hr_signal r))) = true).
  rewrite (process_accepted _ Hp), (proj2 (Z.leb_le 0 _)) by lia. cbv zeta. cbn [time_num].
  rewrite same_instant, stop_is_claude's, Ho1, Ho2, done_is_explicit.
  by destruct child.
Qed.

(** The event is all its text. *)
Lemma event_literal : literal (JObj hook_fields).
Proof.
  destruct Hc as [_ _ Hn Hp _ _ _]. unfold literal, hook_fields, hook_event.
  assert (R1 : readable (int 1)) by (apply representable_int; lia).
  assert (R2 : readable (int (now * 1000))) by (apply representable_int; lia).
  assert (R3 : readable (int ppid)) by (apply representable_int; lia).
  destruct (hr_outcome r), child; cbn [default from_option id record_of app];
    (split; [|split; [|reflexivity]]); cbn [unique_keys readable_numbers foldr snd];
    repeat lazymatch goal with |- _ /\ _ => split end;
    first [assumption|exact I|apply (bool_decide_unpack _); vm_compute; exact I].
Qed.
End Event.

(** C13: every recognised invocation makes an event. For a hook of the table, a
    payload that names the event and a session, at a real instant, the event is
    the one the code assembles and the boundary never refuses it; nothing is
    said only of a notification or of Cursor's stop of an unknown kind. *)
Theorem every_recognised_hook_makes_an_event agentName agent eventName fs now eventId ppid sessionId :
  assoc_get agentName agents = Some agent -> eventName ∈ hook_events agent ->
  is_undef (get fs "hook_event_name") || is_string (get fs "hook_event_name") eventName = true ->
  session_field agent fs = JStr sessionId -> real_call now ppid eventId sessionId ->
  mapHookActivity agentName eventName (JObj fs) now eventId ppid =
    (fun r => hook_event eventId sessionId agent now ppid (to_iso now) r (is_child agent fs)) <$>
    hook_reading agent eventName fs /\
  (hook_reading agent eventName fs = None ->
   eventName = "Notification" \/ agent = cursor /\ eventName = "stop").
Proof.
  intros Ha Hin Hn Hs Hc. split; [|by apply hook_reading_None].
  unfold mapHookActivity. rewrite Ha, bool_decide_true by done. cbn [record_of]. rewrite Hn, Hs.
  cbn [as_string]. pose proof Hc as [_ Hv _ _ _ Ho _]. rewrite Ho. unfold iso_string. rewrite Hv.
  destruct (hook_reading agent eventName fs) as [r|] eqn:Er; [|done]. cbv zeta.
  pose proof (event_accepted eventId sessionId agent now ppid r (is_child agent fs) Hc
                (hook_reading_ok _ _ _ _ Er)) as Hok.
  change (JObj (hook_fields eventId sessionId agent now ppid r (is_child agent fs)))
    with (hook_event eventId sessionId agent now ppid (to_iso now) r (is_child agent fs)) in Hok.
  by rewrite Hok.
Qed.
End Accepted.

(** ** What is on disk *)

Section Disk.
Context `{DateHost}.

Lemma mapped_event agentName eventName payload now eventId ppid event :
  mapHookActivity agentName eventName payload now eventId ppid = Some event ->
  exists agent fs sessionId r,
    assoc_get agentName agents = Some agent /\ payload = JObj fs /\
    session_field agent fs = JStr sessionId /\ opaque_id sessionId = true /\
    hook_reading agent eventName fs = Some r /\
    event = hook_event eventId sessionId agent now ppid (to_iso now) r (is_child agent fs) /\
    isActivityEvent event (int now) from_hook = true.
Proof.
  unfold mapHookActivity. destruct (assoc_get _ _) as [agent|]; [|done].
  destruct (bool_decide _); [|done]. destruct payload as [| | | | | |fs]; try done. cbn [record_of].
  destruct (_ || _); [|done]. destruct (session_field agent fs) as [| | | |s| |] eqn:Es; try done. cbn [as_string].
  destruct (opaque_id s) eqn:Eo; [|done]. unfold iso_string. destruct (valid_time now); [|done].
  destruct (hook_reading _ _ _) as [r|] eqn:Er; [|done]. cbv zeta.
  destruct (isActivityEvent _ _ _) eqn:Ea; [|done]. intros [= <-]. by exists agent, fs, s, r.
Qed.

Lemma mapped_literal eventId sessionId agent now ppid observedAt r child :
  Z.abs (now * 1000) < 2 ^ 53 -> 0 < ppid < 2 ^ 53 ->
  literal (hook_event eventId sessionId agent now ppid observedAt r child).
Proof.
  intros Hn Hp. unfold literal, hook_event.
  assert (R1 : readable (int 1)) by (apply representable_int; lia).
  assert (R2 : readable (int (now * 1000))) by (apply representable_int; lia).
  assert (R3 : readable (int ppid)) by (apply representable_int; lia).
  destruct (hr_outcome r), child; cbn [app];
    (split; [|split; [|reflexivity]]); cbn [unique_keys readable_numbers foldr snd];
    repeat lazymatch goal with |- _ /\ _ => split end;
    first [assumption|exact I|apply (bool_decide_unpack _); vm_compute; exact I].
Qed.

(** One run of the hook entry: its arguments and input are whatever the host
    gives. *)
Record Invocation := {
  in_arguments : list string; in_raw : option string; in_now : Z;
  in_eventId : string; in_fileId : string; in_ppid : Z; in_fate : WriteFate }.

Definition run_hook (spool : list SpoolEntry) (i : Invocation) : list SpoolEntry :=
  eventCommand (in_arguments i) (in_raw i) (in_now i) (in_eventId i) (in_fileId i) (in_ppid i)
    (in_fate i) spool.

(** What the machine gives: an instant, a process, a [randomUUID()]. *)
Definition of_the_machine (i : Invocation) : Prop :=
  Z.abs (in_now i * 1000) < 2 ^ 53 /\ 0 < in_ppid i < 2 ^ 53 /\ uuid (in_fileId i).

(** A text that holds the event of one of the invocations and nothing else: of
    the input it has the identifier in its session field, once that is no path;
    all the rest is the machine's, or chosen among the literals of the code by
    the agent, the event and the fields [hook_reading] and [is_child] look at. *)
Definition structural (invocations : list Invocation) (text : string) : Prop :=
  exists i raw fs agent sessionId r n,
    i ∈ invocations /\ in_raw i = Some raw /\ json_parse raw = Some (JObj fs) /\
    assoc_get (flag "--agent" (in_arguments i)) agents = Some agent /\
    session_field agent fs = JStr sessionId /\ opaque_id sessionId = true /\
    hook_reading agent (flag "--event" (in_arguments i)) fs = Some r /\
    json_parse text = Some (with_sequence
      (hook_event (in_eventId i) sessionId agent (in_now i) (in_ppid i) (to_iso (in_now i)) r
        (is_child agent fs)) n).

(** A text that is structural, or in a temporary file the beginning of one: its
    writer died over it. *)
Definition structure_only (invocations : list Invocation) (e : SpoolEntry) : Prop :=
  forall text, se_text e = Some text ->
  exists rest, structural invocations (text +:+ rest) /\
    (rest = "" \/ event_sequence (se_name e) = None).

Lemma write_texts event now id fate spool e text :
  literal event -> e ∈ (writeActivityEvent event now id fate spool).1 -> se_text e = Some text ->
  e ∈ spool \/ exists n rest, json_parse (text +:+ rest) = Some (with_sequence event n) /\
    (rest = "" \/ event_sequence (se_name e) = None).
Proof.
  intros Hl. destruct (writeActivityEvent _ _ _ _ _) as [spool' r] eqn:E. cbn [fst].
  assert (Hkept : forall kept k, kept `sublist_of` writer_lock :: unlocked spool -> k ∈ kept ->
    se_text k = Some text -> k ∈ spool).
  { intros kept k Hs Hk Hkt. eapply sublist_subseteq in Hk; [|exact Hs].
    apply elem_of_cons in Hk as [->|Hk]; [done|]. by apply list_elem_of_filter in Hk as [_ ?]. }
  apply write_cases in E as [[_ [Hs|Hs]]|(kept & stored & t & total & sequence & Hw & E)]; intros He Ht.
  { left. by eapply sublist_subseteq. }
  { left. by eapply Hkept. }
  assert (Hks : kept `sublist_of` writer_lock :: unlocked spool) by apply Hw.
  assert (Hparse : json_parse t = Some (with_sequence event sequence)).
  { destruct Hw as [_ _ _ [Es Ha Hst _ _]]. cbn [snd] in Es. rewrite <- Es.
    apply (literal_text stored); [|done]. rewrite Es in Ha |- *.
    apply stored_sequence in Ha as [_ Hb]. apply with_sequence_literal; [done|lia]. }
  destruct (wf_end fate) as [| |[units|]]; destruct E as [_ ->].
  - unfold publish in He. apply elem_of_app in He as [He|He%list_elem_of_singleton].
    + apply list_elem_of_filter in He as [_ He]. apply list_elem_of_filter in He as [_ He]. left. by eapply Hkept.
    + right. subst e. cbn in Ht. injection Ht as <-. exists sequence, "". rewrite str_app_nil_r. split; [done|by left].
  - apply list_elem_of_filter in He as [_ He]. left. by eapply Hkept.
  - apply elem_of_app in He as [He|He%list_elem_of_singleton]; [left; by eapply Hkept|right].
    subst e.    cbn in Ht. injection Ht as <-. destruct (str_take_prefix units t) as [rest Et].
    exists sequence, rest. rewrite <- Et. split; [done|by right].
  - left. by eapply Hkept.
Qed.

Lemma run_hook_keeps invocations spool i :
  of_the_machine i -> i ∈ invocations -> reachable spool -> Forall (structure_only invocations) spool ->
  reachable (run_hook spool i) /\ Forall (structure_only invocations) (run_hook spool i).
Proof.
  intros (Hn & Hp & Hu) Hi Hr Hs. unfold run_hook, eventCommand.
  destruct (in_raw i) as [raw|] eqn:Eraw; [|done]. cbn [mbind option_bind].
  destruct (byte_length raw <=? _); [|done].
  destruct (json_parse raw) as [payload|] eqn:Ep; [|done]. cbn [mbind option_bind].
  destruct (mapHookActivity _ _ _ _ _ _) as [event|] eqn:Em; [|done].
  apply mapped_event in Em as (agent & fs & s & r & Ea & -> & Es & Ho & Er & -> & _).
  pose proof (mapped_literal (in_eventId i) s agent (in_now i) (in_ppid i) (to_iso (in_now i)) r
    (is_child agent fs) Hn Hp) as Hl.
  split; [by apply reachable_write|]. apply Forall_forall. intros e He text Ht.
  eapply write_texts in He as [He|(n & rest & Hj & Hrest)]; [| |done|done].
  - rewrite Forall_forall in Hs. by apply (Hs e He).
  - exists rest. split; [|done]. by exists i, raw, fs, agent, s, r, n.
Qed.

(** C11: the spool holds structure only. Whatever arguments and whatever input
    reach the hook entry, in any number of runs, each refused, failing or killed
    anywhere: the spool stays within its bounds with distinct sequence numbers,
    and every text in it is the structural event of one of the runs, in a
    temporary file left behind perhaps the beginning of one only. Of the
    payload such an event holds the text of its session field, which is no
    path, and beside it choices among the literals of the code. *)
Theorem the_spool_holds_structure_only invocations spool :
  Forall of_the_machine invocations -> spool = foldl run_hook [] invocations ->
  size_of spool <= MAX_ACTIVITY_SPOOL_BYTES /\ Z.of_nat (length (unlocked spool)) <= MAX_ENTRIES /\
  NoDup (sequences spool) /\ Forall (structure_only invocations) spool.
Proof.
  intros Hall ->.
  enough (Hinv : forall l spool, l ⊆ invocations -> reachable spool ->
    Forall (structure_only invocations) spool ->
    reachable (foldl run_hook spool l) /\ Forall (structure_only invocations) (foldl run_hook spool l)).
  { destruct (Hinv invocations []) as [Hr Ht]; [done|constructor|constructor|].
    apply reachable_spool_ok in Hr as [H1 H2 H3 _ _]. by split_and!. }
  induction l as [|i l IH]; intros spool Hl Hr Hs; [done|]. cbn [foldl].
  assert (Hi : i ∈ invocations) by set_solver.
  destruct (run_hook_keeps invocations spool i) as [Hr' Hs']; try done.
  { by eapply Forall_forall in Hall. }
  apply IH; [set_solver|done|done].
Qed.
End Disk.

(** ** Witnesses *)

Definition prompt_payload (prompt : string) : list (string * jsval) :=
  [("session_id", JStr "s-1"); ("hook_event_name", JStr "UserPromptSubmit"); ("prompt", JStr prompt);
   ("transcript_path", JStr ("/home/" +:+ prompt))].

Lemma free_text_is_not_looked_at_witness :
  mapHookActivity "codex" "UserPromptSubmit" (JObj (prompt_payload "a secret")) sample_now_ms sample_id 42 =
  mapHookActivity "codex" "UserPromptSubmit" (JObj (prompt_payload "another")) sample_now_ms sample_id 42.
Proof.
  apply (free_text_is_not_looked_at "codex" codex "UserPromptSubmit"); vm_compute; reflexivity.
Defined.

Lemma sample_call : real_call sample_now_ms 42 sample_id "s-1".
Proof.
  constructor; try (vm_compute; reflexivity); try (split; vm_compute; discriminate || reflexivity).
Qed.

Lemma every_recognised_hook_makes_an_event_witness :
  mapHookActivity "codex" "UserPromptSubmit" (JObj (prompt_payload "x")) sample_now_ms sample_id 42 =
  Some (hook_event sample_id "s-1" codex sample_now_ms 42 (to_iso sample_now_ms) (says busy) false).
Proof.
  apply (every_recognised_hook_makes_an_event "codex" codex "UserPromptSubmit" (prompt_payload "x")
           sample_now_ms sample_id 42 "s-1").
  - reflexivity.
  - apply (bool_decide_unpack _). vm_compute. exact I.
  - reflexivity.
  - reflexivity.
  - apply sample_call.
Defined.

Definition sample_invocation (end_ : WriteEnd) : Invocation :=
  {| in_arguments := ["--agent"; "codex"; "--event"; "UserPromptSubmit"];
     in_raw := canonicalJson (JObj (prompt_payload "a secret")); in_now := sample_now_ms;
     in_eventId := sample_id; in_fileId := sample_id; in_ppid := 42;
     in_fate := {| wf_prepared := true; wf_scanned := None; wf_mtime := int 0; wf_end := end_ |} |}.

Definition sample_runs : list Invocation :=
  [sample_invocation (we_killed (Some 40)); sample_invocation we_failed; sample_invocation we_done].

Lemma the_spool_holds_structure_only_witness :
  Forall (structure_only sample_runs) (foldl run_hook [] sample_runs).
Proof.
  destruct (the_spool_holds_structure_only sample_runs (foldl run_hook [] sample_runs)) as (_ & _ & _ & Ht);
    [repeat constructor|reflexivity|]. exact Ht.
Defined.
