(* ===== verification/HookCommand.v ===== *)
(** * The command lines of installed hooks

    [adapters/src/hook-installation.ts], its first half: how the arguments of a
    hook are rendered for either platform and read back, and by what shape a
    handler found in a configuration is recognised as this program's own. *)
From S2P Require Import Prelude JsNum JsDate JsValue Text Json Files.
Local Open Scope string_scope.
Local Open Scope Z_scope.
Local Open Scope list_scope.
Local Open Scope js_scope.

(** ** Agents *)

Inductive AgentId :=
| id_antigravity | id_claude | id_codex | id_gemini | id_grok | id_kimi | id_muse | id_cursor
| id_opencode.

#[export] Instance AgentId_eq : EqDecision AgentId. Proof. solve_decision. Defined.

#[export] Instance agent_ids : Closed AgentId := {
  all_of := [id_antigravity; id_claude; id_codex; id_gemini; id_grok; id_kimi; id_muse; id_cursor;
             id_opencode];
  name_of a :=
    match a with
    | id_antigravity => "antigravity" | id_claude => "claude" | id_codex => "codex"
    | id_gemini => "gemini" | id_grok => "grok" | id_kimi => "kimi" | id_muse => "muse"
    | id_cursor => "cursor" | id_opencode => "opencode"
    end }.

#[export] Instance agent_ids_laws : ClosedLaws AgentId.
Proof. solve_closed. Qed.

(** The options of a change that the rendered handlers depend on, the defaults
    of [process] filled in; the stamp is there when all its parts are. *)
Record HookInstallOptions := {
  ho_nodeExecutable : string;
  ho_openLimiterScript : string;
  ho_agentExecutable : option string;
  ho_agentFileSize : option num;
  ho_agentMtimeMilliseconds : option num;
  ho_windows : bool }.

(** ** Rendering *)

Definition APOSTROPHE : string := "'".
Definition backslashes (n : nat) : string := join "" (repeat "\" n).
Definition is_backslash (c : ascii) : bool := code c =? 92.
Definition is_quote (c : ascii) : bool := code c =? 34.
Definition is_apostrophe (c : ascii) : bool := code c =? 39.
Definition is_blank (c : ascii) : bool := code c =? 32.

(** White space or a quote in the argument, as the pattern of the source. *)
Definition needs_quotes (s : string) : bool :=
  negb (str_forall (fun c => negb (is_space c || is_quote c)) s).

(** The loop of [quoteWindows], the backslashes seen held back until it is
    known what follows them. *)
Fixpoint quote_rest (slashes : nat) (s : string) : string :=
  match s with
  | EmptyString => backslashes (slashes * 2) +:+ double_quote
  | String c s =>
      if is_backslash c then quote_rest (S slashes) s
      else if is_quote c then backslashes (slashes * 2 + 1) +:+ String c (quote_rest 0 s)
      else backslashes slashes +:+ String c (quote_rest 0 s)
  end.

Definition quoteWindows (argument : string) : string :=
  if negb (str_eqb argument "") && negb (needs_quotes argument) then argument
  else double_quote +:+ quote_rest 0 argument.

Definition quotePosix (argument : string) : string :=
  APOSTROPHE +:+ replaceAll APOSTROPHE "'\''" argument +:+ APOSTROPHE.

Definition quoteHookArgument (windows : bool) (argument : string) : string :=
  if windows then quoteWindows argument else quotePosix argument.

Definition stamp_arguments (o : HookInstallOptions) : list string :=
  match ho_agentExecutable o, ho_agentFileSize o, ho_agentMtimeMilliseconds o with
  | Some executable, Some size, Some mtime =>
      ["--agent-executable"; executable; "--agent-file-size"; number_text size;
       "--agent-mtime-ms"; number_text mtime]
  | _, _, _ => []
  end.

Definition MANAGED_MARKER_FLAG : string := "--managed-hook".
Definition MANAGED_MARKER_VALUE : string := "openlimiter-v1".
Definition MANAGED_ARGUMENT_COUNT : nat := 9.
Definition MANAGED_STAMPED_ARGUMENT_COUNT : nat := 15.

Record Command := { command_text : string; command_argv : list string }.

Definition render (windows : bool) (argv : list string) : string :=
  join " " (map (quoteHookArgument windows) argv).

Definition hookCommand (agent : AgentId) (version : string) (o : HookInstallOptions) : Command :=
  let argv :=
    [ho_nodeExecutable o; ho_openLimiterScript o; "hook"; "--agent"; name_of agent;
     "--host-version"; version] ++
    stamp_arguments o ++ [MANAGED_MARKER_FLAG; MANAGED_MARKER_VALUE] in
  {| command_text := render (ho_windows o) argv; command_argv := argv |}.

(** ** Reading back *)

(** A quoted Windows argument after its opening quote: the argument, and the
    text after the closing quote. *)
Fixpoint read_quoted (slashes : nat) (s : string) : option (string * string) :=
  match s with
  | EmptyString => None
  | String c s =>
      if is_backslash c then read_quoted (S slashes) s
      else if is_quote c then
        if Nat.odd slashes then
          let? read := read_quoted 0 s in
          Some (backslashes ((slashes - 1) / 2) +:+ String c read.1, read.2)
        else Some (backslashes (slashes / 2), s)
      else let? read := read_quoted 0 s in Some (backslashes slashes +:+ String c read.1, read.2)
  end.

(** An argument without quotes, up to the next space. *)
Fixpoint read_bare (s : string) : option (string * string) :=
  match s with
  | EmptyString => Some ("", "")
  | String c s' =>
      if is_blank c then Some ("", s)
      else if is_quote c then None
      else let? read := read_bare s' in Some (String c read.1, read.2)
  end.

Definition windows_token (s : string) : option (string * string) :=
  match s with
  | EmptyString => None
  | String c s' =>
      if is_blank c then None else if is_quote c then read_quoted 0 s' else read_bare s
  end.

(** A single quoted argument after its opening apostrophe. *)
Fixpoint read_single (s : string) : option (string * string) :=
  match s with
  | EmptyString => None
  | String c s1 =>
      if is_apostrophe c then
        match s1 with
        | String c2 (String c3 (String c4 s4)) =>
            if is_backslash c2 && is_apostrophe c3 && is_apostrophe c4 then
              let? read := read_single s4 in Some (String c read.1, read.2)
            else Some ("", s1)
        | _ => Some ("", s1)
        end
      else let? read := read_single s1 in Some (String c read.1, read.2)
  end.

Definition posix_token (s : string) : option (string * string) :=
  match s with
  | EmptyString => None
  | String c s => check is_apostrophe c;; read_single s
  end.

(** The loop both readers share: arguments separated by one space. *)
Fixpoint split_tokens (token : string -> option (string * string)) (fuel : nat) (s : string) :
    option (list string) :=
  match fuel with
  | O => None
  | S fuel =>
      let? read := token s in
      match read.2 with
      | EmptyString => Some [read.1]
      | String c rest =>
          check is_blank c && negb (str_eqb rest "");;
          let? more := split_tokens token fuel rest in Some (read.1 :: more)
      end
  end.

Definition splitWindowsCommand (command : string) : option (list string) :=
  check negb (str_eqb command "");; split_tokens windows_token (String.length command) command.

Definition splitPosixCommand (command : string) : option (list string) :=
  check negb (str_eqb command "");; split_tokens posix_token (String.length command) command.

Definition split_command (windows : bool) : string -> option (list string) :=
  if windows then splitWindowsCommand else splitPosixCommand.

Example windows_command :
  map (fun argv => splitWindowsCommand (render true argv))
    [["C:\Program Files\node.exe"; "a\b"; ""; "x\\"]; ["quo" +:+ double_quote +:+ "te\"; "y z\"]] =
  [Some ["C:\Program Files\node.exe"; "a\b"; ""; "x\\"];
   Some ["quo" +:+ double_quote +:+ "te\"; "y z\"]].
Proof. by vm_compute. Qed.

Example posix_command :
  render false ["/usr/bin/node"; "it's"] = "'/usr/bin/node' 'it'\''s'" /\
  splitPosixCommand "'/usr/bin/node' 'it'\''s'" = Some ["/usr/bin/node"; "it's"].
Proof. split; by vm_compute. Qed.

(** ** Recognising a handler *)

Definition is_separator (c : ascii) : bool := (code c =? 47) || (code c =? 92).

(** [path.win32.isAbsolute(value) || path.posix.isAbsolute(value)] *)
Definition absolute_path (s : string) : bool :=
  match s with
  | EmptyString => false
  | String c s' =>
      is_separator c ||
      match s' with
      | String colon (String separator _) =>
          (is_upper c || is_lower c) && (code colon =? 58) && is_separator separator
      | _ => false
      end
  end.

Definition absoluteArgument (value : option string) : bool :=
  match value with Some s => absolute_path s | None => false end.

(** [argv[i] === s] *)
Definition is_argument (argv : list string) (i : nat) (s : string) : bool :=
  bool_decide (argv !! i = Some s).

(** [/^\d{1,16}$/] and [/^\d{1,16}(?:\.\d{1,6})?$/] *)
Definition digits_upto (n : Z) (s : string) : bool :=
  negb (str_eqb s "") && str_forall is_digit s && (str_length s <=? n).

Definition size_text (s : string) : bool := digits_upto 16 s.

Definition mtime_text (s : string) : bool :=
  let '(whole, rest) := take_run is_digit s in
  digits_upto 16 whole &&
  match rest with
  | EmptyString => true
  | String c fraction => (code c =? 46) && digits_upto 6 fraction
  end.

Definition version_text (value : option string) : bool :=
  match value with
  | Some s => negb (str_eqb s "") && str_forall (fun c => negb (is_space c)) s
  | None => false
  end.

Definition managedArgv (argv : list string) (agent : AgentId) : bool :=
  let n := length argv in
  ((n =? MANAGED_ARGUMENT_COUNT)%nat || (n =? MANAGED_STAMPED_ARGUMENT_COUNT)%nat) &&
  is_argument argv (n - 2) MANAGED_MARKER_FLAG && is_argument argv (n - 1) MANAGED_MARKER_VALUE &&
  absoluteArgument (argv !! 0%nat) && absoluteArgument (argv !! 1%nat) &&
  is_argument argv 2 "hook" && is_argument argv 3 "--agent" && is_argument argv 4 (name_of agent) &&
  is_argument argv 5 "--host-version" && version_text (argv !! 6%nat) &&
  ((n =? MANAGED_ARGUMENT_COUNT)%nat ||
   is_argument argv 7 "--agent-executable" && absoluteArgument (argv !! 8%nat) &&
   is_argument argv 9 "--agent-file-size" && size_text (default "" (argv !! 10%nat)) &&
   is_argument argv 11 "--agent-mtime-ms" && mtime_text (default "" (argv !! 12%nat))).

(** Both readings of a command text. *)
Definition readings (command : string) : list (list string) :=
  omap id [splitWindowsCommand command; splitPosixCommand command].

Definition managedHandler (v : jsval) (agent : AgentId) : bool :=
  match v with
  | JObj handler =>
      match get handler "command" with
      | JStr command =>
          negb (str_eqb command "") &&
          match get handler "args" with
          | JUndef => existsb (fun argv => managedArgv argv agent) (readings command)
          | JArr items =>
              match mapM as_string items with
              | Some args => managedArgv (command :: args) agent
              | None => false
              end
          | _ => false
          end
      | _ => false
      end
  | _ => false
  end.

(** The shape of an activity handler's arguments. *)
Definition activity_argv (agent : AgentId) (event : string) (argv : list string) : bool :=
  (length argv =? 9)%nat && absoluteArgument (argv !! 0%nat) && absoluteArgument (argv !! 1%nat) &&
  is_argument argv 2 "event" && is_argument argv 3 "--agent" && is_argument argv 4 (name_of agent) &&
  is_argument argv 5 "--event" && is_argument argv 6 event &&
  is_argument argv 7 "--managed-hook" && is_argument argv 8 "openlimiter-activity-v1".

Definition managedActivityHandler (agent : AgentId) (event : string) (v : jsval) : bool :=
  match v with
  | JObj handler =>
      match get handler "command" with
      | JStr command =>
          (is_undef (get handler "commandWindows") || is_string (get handler "commandWindows") command) &&
          existsb (activity_argv agent event)
            match get handler "args" with
            | JUndef => readings command
            | JArr items => match mapM as_string items with Some args => [command :: args] | None => [] end
            | _ => []
            end
      | _ => false
      end
  | _ => false
  end.

(** ** The handlers installed *)

(** [argv[0]] and [argv.slice(1)], each argument a text of its own. *)
Definition spread (argv : list string) : list (string * jsval) :=
  [("command", match argv with a :: _ => JStr a | [] => JUndef end);
   ("args", JArr (map JStr (tail argv)))].

Definition activity_arguments (agent : AgentId) (event : string) (o : HookInstallOptions) :
    list string :=
  [ho_nodeExecutable o; ho_openLimiterScript o; "event"; "--agent"; name_of agent; "--event"; event;
   "--managed-hook"; "openlimiter-activity-v1"].

Definition activityHandler (agent : AgentId) (event : string) (o : HookInstallOptions) : jsval :=
  let argv := activity_arguments agent event o in
  let command := ("command", JStr (render (ho_windows o) argv)) in
  JObj match agent with
       | id_claude => ("type", JStr "command") :: spread argv ++ [("timeout", JNum (int 1))]
       | id_cursor => [command; ("timeout", JNum (int 1))]
       | id_gemini =>
           [("type", JStr "command"); command; ("timeout", JNum (int 500));
            ("name", JStr ("openlimiter-activity-" +:+ event))]
       | _ => [("type", JStr "command"); command; ("timeout", JNum (int 1))]
       end.

Definition jsonHandler (agent : AgentId) (timeout : Z) (command : Command) (windows : bool) : jsval :=
  JObj match agent with
       | id_claude =>
           ("type", JStr "command") :: spread (command_argv command) ++ [("timeout", JNum (int timeout))]
       | id_gemini =>
           [("type", JStr "command"); ("command", JStr (command_text command));
            ("name", JStr "openlimiter"); ("description", JStr "OpenLimiter routing context");
            ("timeout", JNum (int timeout))]
       | _ =>
           [("type", JStr "command"); ("command", JStr (command_text command))] ++
           (if windows then [("commandWindows", JStr (command_text command))] else []) ++
           [("timeout", JNum (int timeout)); ("additionalContextLimit", JNum (int 2400))]
       end.
