(* ===== verification/HookCommandLaws.v ===== *)
(** * Laws of the command lines

    A rendered command reads back as its arguments on either platform, whatever
    characters they hold; the readers stop on every text; and the shapes by
    which handlers are recognised tell the two kinds of handlers apart. *)
From S2P Require Import Prelude JsNum JsDate JsValue Text Json ReadBack HookCommand.
Local Open Scope string_scope.
Local Open Scope Z_scope.
Local Open Scope list_scope.
Local Open Scope js_scope.

(** ** Backslashes *)

Lemma backslashes_S n : backslashes (S n) = String "\" (backslashes n).
Proof. unfold backslashes. cbn [repeat]. by rewrite join_cons_nil. Qed.

Lemma backslashes_shift n s : backslashes n +:+ String "\" s = backslashes (S n) +:+ s.
Proof.
  induction n as [|n IH]; [done|]. rewrite (backslashes_S n), (backslashes_S (S n)).
  change (String "\" (backslashes n +:+ String "\" s) = String "\" (backslashes (S n) +:+ s)).
  by rewrite IH.
Qed.

Lemma read_quoted_slashes a n t : read_quoted a (backslashes n +:+ t) = read_quoted (a + n) t.
Proof.
  revert a. induction n as [|n IH]; intros a; [by rewrite Nat.add_0_r|].
  rewrite backslashes_S. change (String "\" (backslashes n) +:+ t) with (String "\" (backslashes n +:+ t)).
  cbn [read_quoted]. change (is_backslash "\") with true. cbv iota. rewrite IH. f_equal. lia.
Qed.

(** A closing quote after an even run of backslashes, a quote of the argument
    after an odd one. *)
Lemma read_quoted_close k rest :
  read_quoted 0 (backslashes (k * 2) +:+ (double_quote +:+ rest)) = Some (backslashes k, rest).
Proof.
  rewrite read_quoted_slashes. change (double_quote +:+ rest) with (String (chr 34) rest).
  cbn [read_quoted]. change (is_backslash (chr 34)) with false. change (is_quote (chr 34)) with true.
  cbv iota. rewrite Nat.add_0_l, Nat.odd_mul, andb_false_r. by rewrite Nat.div_mul.
Qed.

Lemma is_quote_chr c : is_quote c = true -> c = chr 34.
Proof.
  unfold is_quote, code. intros H%Z.eqb_eq. rewrite <- (ascii_N_embedding c). unfold chr. f_equal. lia.
Qed.

Lemma is_backslash_chr c : is_backslash c = true -> c = "\"%char.
Proof.
  unfold is_backslash, code. intros H%Z.eqb_eq. rewrite <- (ascii_N_embedding c).
  change "\"%char with (chr 92). unfold chr. f_equal. lia.
Qed.

Lemma is_apostrophe_chr c : is_apostrophe c = true -> c = "'"%char.
Proof.
  unfold is_apostrophe, code. intros H%Z.eqb_eq. rewrite <- (ascii_N_embedding c).
  change "'"%char with (chr 39). unfold chr. f_equal. lia.
Qed.

Lemma read_quote_rest k s rest :
  read_quoted 0 (quote_rest k s +:+ rest) = Some (backslashes k +:+ s, rest).
Proof.
  revert k. induction s as [|c s IH]; intros k; cbn [quote_rest].
  - rewrite <- str_app_assoc, read_quoted_close. by rewrite str_app_nil_r.
  - destruct (is_backslash c) eqn:Hb.
    { apply is_backslash_chr in Hb as ->. by rewrite IH, backslashes_shift. }
    destruct (is_quote c) eqn:Hq; rewrite <- str_app_assoc, read_quoted_slashes;
      change (String c (quote_rest 0 s) +:+ rest) with (String c (quote_rest 0 s +:+ rest));
      cbn [read_quoted]; rewrite Hb, Hq, IH.
    + replace (0 + (k * 2 + 1))%nat with (S (2 * k)) by lia.
      rewrite Nat.odd_succ, Nat.even_mul. cbn [Nat.even orb fst snd].
      replace ((S (2 * k) - 1) / 2)%nat with k; [done|].
      rewrite Nat.sub_succ, Nat.sub_0_r, Nat.mul_comm. by rewrite Nat.div_mul.
    + done.
Qed.

(** ** Arguments *)

(** What follows an argument: nothing, or the space before the next. *)
Definition ends_argument (rest : string) : Prop :=
  match rest with EmptyString => True | String c _ => is_blank c = true end.

Lemma read_bare_app s rest :
  str_forall (fun c => negb (is_space c || is_quote c)) s = true -> ends_argument rest ->
  read_bare (s +:+ rest) = Some (s, rest).
Proof.
  intros Hs Hrest. induction s as [|c s IH].
  - destruct rest as [|c rest]; [done|]. change ("" +:+ String c rest) with (String c rest).
    cbn [read_bare]. unfold ends_argument in Hrest. by rewrite Hrest.
  - cbn [str_forall] in Hs. bools. change (String c s +:+ rest) with (String c (s +:+ rest)).
    cbn [read_bare]. assert (is_blank c = false) as ->.
    { unfold is_space in *. bools. unfold is_blank. by apply Z.eqb_neq. }
    rewrite IH by done. by replace (is_quote c) with false.
Qed.

Lemma windows_token_quoted s rest :
  ends_argument rest -> windows_token (quoteWindows s +:+ rest) = Some (s, rest).
Proof.
  intros Hrest. unfold quoteWindows, needs_quotes.
  destruct (negb (str_eqb s "") && negb _) eqn:Hplain.
  - apply andb_true_iff in Hplain as [Hne Hs]. rewrite negb_involutive in Hs.
    destruct s as [|c s]; [done|]. change (String c s +:+ rest) with (String c (s +:+ rest)).
    unfold windows_token. pose proof (read_bare_app _ _ Hs Hrest) as Hr.
    change (String c s +:+ rest) with (String c (s +:+ rest)) in Hr. rewrite Hr. clear Hr.
    cbn [str_forall] in Hs. bools. assert (is_blank c = false) as ->.
    { unfold is_space in *. bools. unfold is_blank. by apply Z.eqb_neq. }
    by replace (is_quote c) with false.
  - change ((double_quote +:+ quote_rest 0 s) +:+ rest) with (String (chr 34) (quote_rest 0 s +:+ rest)).
    unfold windows_token. change (is_blank (chr 34)) with false. change (is_quote (chr 34)) with true.
    cbv iota. by rewrite read_quote_rest.
Qed.

Definition quote_unit (c : ascii) : string :=
  if is_apostrophe c then "'\''" else String c "".

Lemma replace_apostrophes before s :
  replace_all_at APOSTROPHE "'\''" before s 0 = str_concat_map quote_unit s.
Proof.
  revert before. induction s as [|c s IH]; intros before; [done|].
  cbn [replace_all_at str_concat_map]. unfold APOSTROPHE in *. cbn [after_prefix].
  unfold quote_unit at 1. destruct (is_apostrophe c) eqn:Hc.
  - apply is_apostrophe_chr in Hc as ->. cbn [Ascii.eqb Bool.eqb].
    change (String.length "'" - 1)%nat with 0%nat. by rewrite IH.
  - destruct (Ascii.eqb_spec "'" c) as [<-|_]; [done|]. by rewrite IH.
Qed.

Lemma read_single_quoted s rest :
  ends_argument rest ->
  read_single (str_concat_map quote_unit s +:+ (APOSTROPHE +:+ rest)) = Some (s, rest).
Proof.
  intros Hrest. induction s as [|c s IH].
  - change (str_concat_map quote_unit "" +:+ (APOSTROPHE +:+ rest)) with (String "'" rest).
    cbn [read_single]. change (is_apostrophe "'") with true. cbv iota.
    destruct rest as [|c2 [|c3 [|c4 rest]]]; try done. unfold ends_argument in Hrest.
    assert (is_backslash c2 = false) as ->; [|done].
    unfold is_blank, is_backslash in *. bools. apply Z.eqb_neq. lia.
  - cbn [str_concat_map]. rewrite <- str_app_assoc. unfold quote_unit at 1.
    destruct (is_apostrophe c) eqn:Hc.
    + apply is_apostrophe_chr in Hc as ->.
      change ("'\''" +:+ ?t) with (String "'" (String "\" (String "'" (String "'" t)))).
      cbn [read_single]. change (is_apostrophe "'") with true. change (is_backslash "\") with true.
      cbn [andb]. by rewrite IH.
    + change (String c "" +:+ ?t) with (String c t). cbn [read_single]. by rewrite Hc, IH.
Qed.

Lemma posix_token_quoted s rest :
  ends_argument rest -> posix_token (quotePosix s +:+ rest) = Some (s, rest).
Proof.
  intros Hrest. unfold quotePosix. unfold replaceAll. rewrite replace_apostrophes, <- !str_app_assoc.
  change (APOSTROPHE +:+ ?t) with (String "'" t) at 1. unfold posix_token.
  change (is_apostrophe "'") with true. cbv iota. by apply read_single_quoted.
Qed.

Definition token_of (windows : bool) : string -> option (string * string) :=
  if windows then windows_token else posix_token.

Lemma token_quoted windows s rest :
  ends_argument rest -> token_of windows (quoteHookArgument windows s +:+ rest) = Some (s, rest).
Proof. destruct windows; [apply windows_token_quoted|apply posix_token_quoted]. Qed.

Lemma quoted_nonempty windows s : quoteHookArgument windows s <> "".
Proof.
  destruct windows; cbn [quoteHookArgument]; [|done]. unfold quoteWindows.
  destruct (negb (str_eqb s "") && _) eqn:H; [|done]. bools. by intros ->.
Qed.

(** ** Commands *)

Lemma render_cons windows a b argv :
  render windows (a :: b :: argv) =
  quoteHookArgument windows a +:+ String " " (render windows (b :: argv)).
Proof. done. Qed.

Lemma render_nonempty windows a argv : render windows (a :: argv) <> "".
Proof.
  pose proof (quoted_nonempty windows a) as Ha. destruct argv as [|b argv]; [done|].
  rewrite render_cons. by destruct (quoteHookArgument windows a).
Qed.

Lemma split_rendered windows argv fuel :
  argv <> [] -> (length argv <= fuel)%nat ->
  split_tokens (token_of windows) fuel (render windows argv) = Some argv.
Proof.
  revert fuel. induction argv as [|a argv IH]; [done|]. intros [|fuel] _ Hf; cbn [length] in Hf; [lia|].
  cbn [split_tokens]. destruct argv as [|b argv].
  - change (render windows [a]) with (quoteHookArgument windows a).
    rewrite <- (str_app_nil_r (quoteHookArgument windows a)). by rewrite token_quoted.
  - rewrite render_cons, token_quoted by done. cbn [fst snd]. change (is_blank " ") with true.
    rewrite (IH fuel) by (done || (cbn [length] in *; lia)).
    unfold str_eqb. by rewrite bool_decide_false by apply render_nonempty.
Qed.

Lemma length_render windows argv : (length argv <= String.length (render windows argv))%nat.
Proof.
  enough (Z.of_nat (length argv) <= str_length (render windows argv)).
  { rewrite <- length_str_length in H. lia. }
  assert (Hq : forall a, 1 <= str_length (quoteHookArgument windows a)).
  { intros a. pose proof (quoted_nonempty windows a). destruct (quoteHookArgument windows a) as [|c s]; [done|].
    cbn [str_length]. pose proof (str_length_nonneg s). lia. }
  induction argv as [|a [|b argv] IH]; [done|apply Hq|].
  rewrite render_cons, str_length_app. cbn [str_length]. specialize (Hq a). cbn [length] in *. lia.
Qed.

Lemma split_command_rendered windows argv :
  argv <> [] -> split_command windows (render windows argv) = Some argv.
Proof.
  intros Hne. pose proof (length_render windows argv) as Hl.
  assert (Hr : str_eqb (render windows argv) "" = false).
  { destruct argv; [done|]. apply bool_decide_false, render_nonempty. }
  pose proof (split_rendered windows argv _ Hne Hl) as Hs.
  destruct windows; cbn [split_command token_of] in *;
    [unfold splitWindowsCommand|unfold splitPosixCommand]; by rewrite Hr.
Qed.

(** The fuel is never what stops a reader: an argument is at least one unit, so
    any more fuel reads the same. *)
Lemma read_quoted_shorter n s t rest : read_quoted n s = Some (t, rest) -> str_length rest < str_length s.
Proof.
  revert n t rest. induction s as [|c s IH]; intros n t rest; [done|]. cbn [read_quoted str_length].
  destruct (is_backslash c); [intros H%IH; lia|].
  destruct (is_quote c), (Nat.odd n); try (destruct (read_quoted 0 s) as [[t' r']|] eqn:E; [|done];
    intros [= <- <-]; apply IH in E; cbn [snd]; lia).
  intros [= <- <-]. lia.
Qed.

Lemma read_bare_shorter s t rest : read_bare s = Some (t, rest) -> str_length rest <= str_length s.
Proof.
  revert t rest. induction s as [|c s IH]; intros t rest; cbn [read_bare]; [by intros [= <- <-]|].
  destruct (is_blank c); [by intros [= <- <-]|]. destruct (is_quote c); [done|].
  destruct (read_bare s) as [[t' r']|]; [|done]. intros [= <- <-]. specialize (IH _ _ eq_refl).
  cbn [snd str_length]. lia.
Qed.

Lemma read_single_shorter s t rest : read_single s = Some (t, rest) -> str_length rest < str_length s.
Proof.
  remember (String.length s) as n eqn:Hn. revert s t rest Hn.
  induction n as [n IH] using lt_wf_ind. intros s t rest ->. destruct s as [|c s]; [done|].
  cbn [read_single].
  assert (Hrec : forall s' t' r', (String.length s' < String.length (String c s))%nat ->
    read_single s' = Some (t', r') -> str_length r' < str_length s') by (intros; by eapply IH).
  destruct (is_apostrophe c).
  - assert (Hclose : Some ("", s) = Some (t, rest) -> str_length rest < str_length (String c s)).
    { intros [= _ <-]. cbn [str_length]. lia. }
    destruct s as [|c2 [|c3 [|c4 s]]]; try exact Hclose.
    destruct (is_backslash c2 && _ && _); [|exact Hclose].
    destruct (read_single s) as [[t' r']|] eqn:E; [|done]. intros [= <- <-].
    apply Hrec in E; [|cbn [String.length]; lia]. cbn [snd str_length]. lia.
  - destruct (read_single s) as [[t' r']|] eqn:E; [|done]. intros [= <- <-].
    apply Hrec in E; [|cbn [String.length]; lia]. cbn [snd str_length]. lia.
Qed.

Lemma token_shorter windows s t rest : token_of windows s = Some (t, rest) -> str_length rest <= str_length s.
Proof.
  destruct s as [|c s]; [by destruct windows|]. destruct windows; cbn [token_of].
  - unfold windows_token. destruct (is_blank c); [done|]. destruct (is_quote c).
    + intros H%read_quoted_shorter. cbn [str_length]. lia.
    + apply read_bare_shorter.
  - unfold posix_token. destruct (is_apostrophe c); [|done]. intros H%read_single_shorter.
    cbn [str_length]. lia.
Qed.

Lemma split_tokens_fuel windows s fuel fuel' :
  s <> "" -> (String.length s <= fuel)%nat -> (String.length s <= fuel')%nat ->
  split_tokens (token_of windows) fuel s = split_tokens (token_of windows) fuel' s.
Proof.
  revert s fuel'. induction fuel as [|fuel IH]; intros s fuel' Hs Hf Hf'.
  { destruct s; [done|]. cbn [String.length] in Hf. lia. }
  destruct fuel' as [|fuel']; [destruct s; [done|]; cbn [String.length] in Hf'; lia|].
  cbn [split_tokens]. destruct (token_of windows s) as [[t rest]|] eqn:E; [|done].
  apply token_shorter in E. cbn [fst snd]. destruct rest as [|c rest]; [done|].
  destruct (is_blank c && negb (str_eqb rest "")) eqn:Hb; [|done]. bools.
  apply bool_decide_eq_false in H0. rewrite <- !length_str_length in E. cbn [String.length] in E.
  rewrite (IH rest fuel'); [done|done|lia|lia].
Qed.

(** ** The reading by the other platform's grammar *)

Lemma split_tokens_head windows fuel s argv :
  split_tokens (token_of windows) fuel s = Some argv ->
  exists t rest, token_of windows s = Some (t, rest) /\ head argv = Some t.
Proof.
  destruct fuel as [|fuel]; [done|]. cbn [split_tokens].
  destruct (token_of windows s) as [[t rest]|]; [|done]. cbn [fst snd]. intros H. exists t, rest.
  split; [done|]. destruct rest as [|c rest]; [by injection H as <-|].
  destruct (is_blank c && _); [|done]. destruct (split_tokens _ _ _); [|done]. by injection H as <-.
Qed.

Lemma absolute_not_apostrophe s : absolute_path (String "'" s) = false.
Proof.
  cbn [absolute_path]. change (is_separator "'") with false. cbn [orb].
  destruct s as [|c [|d s]]; try done.
Qed.

Lemma absolute_head s : absolute_path s = true -> exists c r, s = String c r /\ is_apostrophe c = false.
Proof.
  destruct s as [|c s]; [done|]. intros H. exists c, s. split; [done|].
  destruct (is_apostrophe c) eqn:E; [|done]. apply is_apostrophe_chr in E as ->.
  by rewrite absolute_not_apostrophe in H.
Qed.

Lemma render_head windows a argv :
  exists rest, render windows (a :: argv) = quoteHookArgument windows a +:+ rest.
Proof. destruct argv; [exists ""; by rewrite str_app_nil_r|by eexists]. Qed.

(** The grammar of the other platform reads no absolute path at the head. *)
Lemma other_reading windows a argv r :
  absolute_path a = true -> split_command (negb windows) (render windows (a :: argv)) = Some r ->
  absoluteArgument (r !! 0%nat) = false.
Proof.
  intros Ha Hr. destruct (render_head windows a argv) as [rest E].
  assert (Hs : exists fuel, split_tokens (token_of (negb windows)) fuel (render windows (a :: argv)) = Some r).
  { destruct windows; cbn [negb split_command token_of] in *;
      [unfold splitPosixCommand in Hr|unfold splitWindowsCommand in Hr];
      (destruct (negb _); [by eexists|done]). }
  destruct Hs as [fuel (t & rest' & Ht & Hh)%split_tokens_head]. rewrite E in Ht.
  assert (r !! 0%nat = Some t) as -> by (by destruct r). cbn [absoluteArgument].
  destruct windows; cbn [negb token_of quoteHookArgument] in Ht.
  - exfalso. unfold quoteWindows in Ht. destruct (negb (str_eqb a "") && _); [|done].
    destruct (absolute_head a Ha) as (c & s & -> & Hc).
    change (String c s +:+ rest) with (String c (s +:+ rest)) in Ht. unfold posix_token in Ht.
    by rewrite Hc in Ht.
  - unfold quotePosix in Ht. rewrite <- !str_app_assoc in Ht.
    change (APOSTROPHE +:+ ?t) with (String "'" t) in Ht at 1. unfold windows_token in Ht.
    change (is_blank "'") with false in Ht. change (is_quote "'") with false in Ht.
    cbn [read_bare] in Ht. change (is_blank "'") with false in Ht.
    change (is_quote "'") with false in Ht. cbv iota in Ht.
    destruct (read_bare _) as [[t' r']|]; [|done]. injection Ht as <- _. apply absolute_not_apostrophe.
Qed.

(** So a shape that asks for an absolute path first is looked for in the
    arguments rendered, and nowhere else. *)
Lemma existsb_readings (p : list string -> bool) windows a argv :
  absolute_path a = true -> (forall r, p r = true -> absoluteArgument (r !! 0%nat) = true) ->
  existsb p (readings (render windows (a :: argv))) = p (a :: argv).
Proof.
  intros Ha Hp. pose proof (split_command_rendered windows (a :: argv) ltac:(done)) as Hown.
  assert (Hother : match split_command (negb windows) (render windows (a :: argv)) with
                   | Some r => p r = false | None => True end).
  { destruct (split_command (negb windows) _) as [r|] eqn:E; [|done].
    pose proof (other_reading _ _ _ _ Ha E) as Hno. destruct (p r) eqn:Ep; [|done].
    apply Hp in Ep. congruence. }
  unfold readings. destruct windows; cbn [negb split_command] in *; rewrite Hown.
  - destruct (splitPosixCommand _) as [r|]; cbn; [rewrite Hother|]; by rewrite ?orb_false_r.
  - destruct (splitWindowsCommand _) as [r|]; cbn; [rewrite Hother|]; by rewrite ?orb_false_r.
Qed.

Lemma managedArgv_absolute agent r : managedArgv r agent = true -> absoluteArgument (r !! 0%nat) = true.
Proof. unfold managedArgv. intros H. by bools. Qed.

Lemma activity_argv_absolute agent event r :
  activity_argv agent event r = true -> absoluteArgument (r !! 0%nat) = true.
Proof. unfold activity_argv. intros H. by bools. Qed.

(** ** The handlers installed are told apart *)

(** What an installation has checked of its options: the two files are given by
    absolute paths, and a stamp prints as it is read. *)
Definition stamp_reads (o : HookInstallOptions) : bool :=
  match ho_agentExecutable o, ho_agentFileSize o, ho_agentMtimeMilliseconds o with
  | Some executable, Some size, Some mtime =>
      absolute_path executable && size_text (number_text size) && mtime_text (number_text mtime)
  | _, _, _ => true
  end.

Record installable (version : string) (o : HookInstallOptions) : Prop := {
  in_node : absolute_path (ho_nodeExecutable o) = true;
  in_script : absolute_path (ho_openLimiterScript o) = true;
  in_version : version_text (Some version) = true;
  in_stamp : stamp_reads o = true }.

Lemma is_argument_refl argv i s : argv !! i = Some s -> is_argument argv i s = true.
Proof. intros H. by apply bool_decide_eq_true. Qed.

Lemma is_argument_Some argv i s : is_argument argv i s = true -> argv !! i = Some s.
Proof. apply bool_decide_eq_true. Qed.

Lemma managed_own agent version o :
  installable version o -> managedArgv (command_argv (hookCommand agent version o)) agent = true.
Proof.
  intros [Hn Hs Hv Hst]. unfold managedArgv, hookCommand, stamp_arguments, stamp_reads in *.
  cbn [command_argv]. destruct (ho_agentExecutable o) as [x|], (ho_agentFileSize o) as [size|],
    (ho_agentMtimeMilliseconds o) as [mtime|]; bools;
    repeat (rewrite is_argument_refl by reflexivity);
    cbn [app length lookup list_lookup absoluteArgument default Nat.sub Nat.eqb orb andb
         MANAGED_ARGUMENT_COUNT MANAGED_STAMPED_ARGUMENT_COUNT];
    rewrite ?Hn, ?Hs, ?Hv; cbn [andb orb]; try done.
  all: unfold id; repeat match goal with H : ?b = true |- context [?b] => rewrite H end; done.
Qed.

Lemma activity_own agent event o :
  absolute_path (ho_nodeExecutable o) = true -> absolute_path (ho_openLimiterScript o) = true ->
  activity_argv agent event (activity_arguments agent event o) = true.
Proof.
  intros Hn Hs. unfold activity_argv, activity_arguments.
  repeat (rewrite is_argument_refl by reflexivity).
  cbn [length lookup list_lookup absoluteArgument Nat.eqb andb]. by rewrite Hn, Hs.
Qed.

(** The verb tells the two kinds of arguments apart. *)
Lemma verb_managed argv agent : managedArgv argv agent = true -> argv !! 2%nat = Some "hook".
Proof. unfold managedArgv. intros H. bools. by apply is_argument_Some. Qed.

Lemma verb_activity argv agent event :
  activity_argv agent event argv = true -> argv !! 2%nat = Some "event".
Proof. unfold activity_argv. intros H. bools. by apply is_argument_Some. Qed.

Lemma mapM_strings l : mapM as_string (map JStr l) = Some l.
Proof. induction l as [|s l IH]; [done|]. cbn [map mapM]. by rewrite IH. Qed.

Lemma get_here (k : string) (v : jsval) fs : get ((k, v) :: fs) k = v.
Proof. unfold get. cbn. by rewrite decide_True. Qed.

Section Handler.
Variables (fs : list (string * jsval)) (agent : AgentId) (a : string) (argv : list string).
Hypothesis Habs : absolute_path a = true.

Lemma absolute_nonempty : str_eqb a "" = false.
Proof. apply bool_decide_false. intros ->. discriminate Habs. Qed.

Lemma render_not_empty windows : str_eqb (render windows (a :: argv)) "" = false.
Proof. apply bool_decide_false, render_nonempty. Qed.

Lemma managed_text windows :
  get fs "command" = JStr (render windows (a :: argv)) -> get fs "args" = JUndef ->
  managedHandler (JObj fs) agent = managedArgv (a :: argv) agent.
Proof.
  intros Hc Ha. cbn [managedHandler]. rewrite Hc, Ha, render_not_empty. cbn [negb andb].
  apply existsb_readings; [done|]. apply managedArgv_absolute.
Qed.

Lemma managed_spread :
  get fs "command" = JStr a -> get fs "args" = JArr (map JStr argv) ->
  managedHandler (JObj fs) agent = managedArgv (a :: argv) agent.
Proof.
  intros Hc Ha. cbn [managedHandler]. by rewrite Hc, Ha, absolute_nonempty, mapM_strings.
Qed.

Lemma activity_text windows event :
  get fs "command" = JStr (render windows (a :: argv)) -> get fs "args" = JUndef ->
  get fs "commandWindows" = JUndef \/ get fs "commandWindows" = get fs "command" ->
  managedActivityHandler agent event (JObj fs) = activity_argv agent event (a :: argv).
Proof.
  intros Hc Ha Hw. cbn [managedActivityHandler]. rewrite Hc, Ha in *.
  assert (is_undef (get fs "commandWindows") || is_string (get fs "commandWindows")
            (render windows (a :: argv)) = true) as ->.
  { destruct Hw as [-> | ->]; [done|]. cbn. by rewrite str_eqb_refl. }
  cbn [andb]. apply existsb_readings; [done|]. apply activity_argv_absolute.
Qed.

Lemma activity_spread event :
  get fs "command" = JStr a -> get fs "args" = JArr (map JStr argv) ->
  get fs "commandWindows" = JUndef ->
  managedActivityHandler agent event (JObj fs) = activity_argv agent event (a :: argv).
Proof.
  intros Hc Ha Hw. cbn [managedActivityHandler]. rewrite Hc, Ha, Hw, mapM_strings.
  cbn. by rewrite orb_false_r.
Qed.
End Handler.

(** The arguments of a command start with an absolute path. *)
Lemma hookCommand_argv agent version o :
  exists rest, command_argv (hookCommand agent version o) = ho_nodeExecutable o :: rest /\ command_text (hookCommand agent version o) =
               render (ho_windows o) (ho_nodeExecutable o :: rest).
Proof. by eexists. Qed.

Ltac handler_case :=
  first
    [ eapply managed_spread; [eassumption|reflexivity|reflexivity]
    | eapply managed_text; [eassumption|reflexivity|reflexivity]
    | eapply activity_spread; reflexivity
    | eapply activity_text; [eassumption|reflexivity|reflexivity|by left]
    | eapply activity_text; [eassumption|reflexivity|reflexivity|by right] ].

Lemma json_handler_managed agent agent' timeout version o windows :
  absolute_path (ho_nodeExecutable o) = true ->
  managedHandler (jsonHandler agent timeout (hookCommand agent version o) windows) agent' =
  managedArgv (command_argv (hookCommand agent version o)) agent'.
Proof.
  intros Hn. destruct (hookCommand_argv agent version o) as (rest & Ha & Ht). unfold jsonHandler, spread.
  destruct agent; cbn [app]; rewrite ?Ha, ?Ht; try destruct windows; cbn [app tail]; handler_case.
Qed.

Lemma json_handler_activity agent agent' event timeout version o windows :
  absolute_path (ho_nodeExecutable o) = true ->
  managedActivityHandler agent' event (jsonHandler agent timeout (hookCommand agent version o) windows) =
  activity_argv agent' event (command_argv (hookCommand agent version o)).
Proof.
  intros Hn. destruct (hookCommand_argv agent version o) as (rest & Ha & Ht). unfold jsonHandler, spread.
  destruct agent; cbn [app]; rewrite ?Ha, ?Ht; try destruct windows; cbn [app tail]; handler_case.
Qed.

Lemma activity_handler_activity agent agent' event event' o :
  absolute_path (ho_nodeExecutable o) = true ->
  managedActivityHandler agent' event' (activityHandler agent event o) =
  activity_argv agent' event' (activity_arguments agent event o).
Proof. intros Hn. unfold activityHandler, spread. destruct agent; cbn [app]; handler_case. Qed.

Lemma activity_handler_managed agent agent' event o :
  absolute_path (ho_nodeExecutable o) = true ->
  managedHandler (activityHandler agent event o) agent' =
  managedArgv (activity_arguments agent event o) agent'.
Proof. intros Hn. unfold activityHandler, spread. destruct agent; cbn [app]; handler_case. Qed.

(** No handler is of both kinds: of the two readings of a text at most one
    starts with an absolute path, and the verb of that one is one or the other. *)
Lemma readings_unique command r r' :
  r ∈ readings command -> r' ∈ readings command ->
  absoluteArgument (r !! 0%nat) = true -> absoluteArgument (r' !! 0%nat) = true -> r = r'.
Proof.
  assert (Hex : forall a b, splitWindowsCommand command = Some a -> splitPosixCommand command = Some b ->
    absoluteArgument (a !! 0%nat) = true -> False).
  { intros a b Ha Hb Habs. unfold splitWindowsCommand, splitPosixCommand in *.
    destruct (negb (str_eqb command "")); [|done].
    apply (split_tokens_head false) in Hb as (t & rest & Ht & _).
    apply (split_tokens_head true) in Ha as (t' & rest' & Ht' & Hh).
    destruct command as [|c command]; [done|]. cbn [token_of posix_token] in Ht.
    destruct (is_apostrophe c) eqn:Hc; [|done]. apply is_apostrophe_chr in Hc as ->.
    cbn [token_of] in Ht'. unfold windows_token in Ht'.
    change (is_blank "'") with false in Ht'. change (is_quote "'") with false in Ht'.
    cbn [read_bare] in Ht'. change (is_blank "'") with false in Ht'.
    change (is_quote "'") with false in Ht'. cbv iota in Ht'.
    destruct (read_bare command) as [[u v]|]; [|done]. injection Ht' as <- _.
    assert (E : a !! 0%nat = Some (String "'" u)) by (by destruct a).
    rewrite E in Habs. cbn [absoluteArgument fst] in Habs. by rewrite absolute_not_apostrophe in Habs. }
  unfold readings. destruct (splitWindowsCommand command) as [a|] eqn:Ea,
    (splitPosixCommand command) as [b|] eqn:Eb; cbn;
    rewrite ?elem_of_cons, ?elem_of_nil; intros Hr Hr' H H'; destruct_or?; subst; try done.
  - by destruct (Hex a b eq_refl eq_refl H').
  - by destruct (Hex a b eq_refl eq_refl H).
Qed.

Lemma handlers_exclusive h agent agent' event :
  managedHandler h agent = true -> managedActivityHandler agent' event h = false.
Proof.
  intros Hm. destruct (managedActivityHandler agent' event h) eqn:Ha; [exfalso|done].
  destruct h as [| | | | | |fs]; try done. cbn [managedHandler managedActivityHandler] in *.
  destruct (get fs "command") as [| | | |command| |]; try done.
  apply andb_true_iff in Hm as [_ Hm]. apply andb_true_iff in Ha as [_ Ha].
  destruct (get fs "args") as [| | | | |l|]; try done.
  - apply existsb_exists in Hm as (r & Hr & Hm). apply existsb_exists in Ha as (r' & Hr' & Ha).
    assert (r = r') as <-.
    { eapply readings_unique; [by apply list_elem_of_In|by apply list_elem_of_In| |].
      - by eapply managedArgv_absolute.
      - by eapply activity_argv_absolute. }
    apply verb_managed in Hm. apply verb_activity in Ha. congruence.
  - destruct (mapM as_string l) as [args|]; [|done]. cbn [existsb] in Ha. rewrite orb_false_r in Ha.
    apply verb_managed in Hm. apply verb_activity in Ha. congruence.
Qed.

(** C19: a rendered command reads back. Whatever the arguments hold, white
    space, quotes, apostrophes, backslashes, nothing at all, the command line
    rendered for Windows or for the others is read by the grammar of the same
    platform as exactly those arguments. *)
Theorem a_rendered_command_reads_back windows argv :
  argv <> [] -> split_command windows (render windows argv) = Some argv.
Proof. apply split_command_rendered. Qed.

Lemma a_rendered_command_reads_back_witness :
  split_command true (render true ["C:\Program Files\node.exe"; "ends in \"; ""; "a" +:+ double_quote]) =
  Some ["C:\Program Files\node.exe"; "ends in \"; ""; "a" +:+ double_quote].
Proof. by apply a_rendered_command_reads_back. Defined.

(** C20: an installed handler is known for what it is. Of the handlers the
    program writes, with the two files given by absolute paths, each is
    recognised under its own agent and, when it reports activity, under its own
    event, and under no other; the two kinds are never taken for each other. So
    a removal finds what an installation wrote on either platform. *)
Theorem an_installed_handler_is_known agent agent' event event' timeout version o windows :
  installable version o ->
  managedHandler (jsonHandler agent timeout (hookCommand agent version o) windows) agent' =
    bool_decide (agent = agent') /\
  managedActivityHandler agent' event' (activityHandler agent event o) =
    bool_decide (agent = agent' /\ event = event') /\
  managedHandler (activityHandler agent event o) agent' = false /\
  managedActivityHandler agent' event' (jsonHandler agent timeout (hookCommand agent version o) windows) = false.
Proof.
  intros Hin. assert (Hin' := Hin). destruct Hin' as [Hn Hs _ _].
  rewrite json_handler_managed, activity_handler_activity, activity_handler_managed, json_handler_activity by done.
  split_and!.
  - case_bool_decide as Ha; [subst; by apply managed_own|]. apply not_true_iff_false. intros Hm.
    apply Ha. apply name_of_inj. unfold managedArgv in Hm. bools.
    repeat match goal with H : is_argument _ _ _ = true |- _ => apply is_argument_Some in H end.
    cbn in *. congruence.
  - case_bool_decide as Ha; [destruct Ha; subst; by apply activity_own|]. apply not_true_iff_false. intros Hm.
    apply Ha. unfold activity_argv in Hm. bools.
    repeat match goal with H : is_argument _ _ _ = true |- _ => apply is_argument_Some in H end.
    cbn in *. split; [apply name_of_inj|]; congruence.
  - apply not_true_iff_false. intros Hm%verb_managed. discriminate Hm.
  - apply not_true_iff_false. intros Hm%verb_activity. discriminate Hm.
Qed.

Definition sample_hook_options : HookInstallOptions :=
  {| ho_nodeExecutable := "/usr/bin/node"; ho_openLimiterScript := "/home/o'neill/openlimiter.js";
     ho_agentExecutable := Some "/usr/bin/codex"; ho_agentFileSize := Some (int 120);
     ho_agentMtimeMilliseconds := Some (lit 3425 2); ho_windows := false |}.

Lemma sample_installable : installable "0.152.0" sample_hook_options.
Proof. constructor; vm_compute; reflexivity. Qed.

Lemma an_installed_handler_is_known_witness :
  managedHandler (jsonHandler id_codex 1 (hookCommand id_codex "0.152.0" sample_hook_options) false) id_codex = true /\
  managedHandler (activityHandler id_codex "Stop" sample_hook_options) id_codex = false.
Proof.
  destruct (an_installed_handler_is_known id_codex id_codex "Stop" "Stop" 1 "0.152.0" sample_hook_options false
              sample_installable) as (H1 & _ & H3 & _).
  split; [rewrite H1; by apply bool_decide_eq_true|exact H3].
Defined.
