(* ===== verification/HookInstall.v ===== *)
(** * Hooks in the configurations of agents

    [adapters/src/hook-installation.ts], its second half: the documents into
    which hooks are installed and from which they are removed, the change of a
    file that others may edit meanwhile, and the gates in front of it
    ([adapters/src/stubs.ts]). A function that throws returns [None]; the text
    of a file that does not exist is [None] too. Where a path has no symbolic
    links, and whether a write succeeds, are answers of the world. *)
From S2P Require Import Prelude JsNum JsDate JsValue Text Json JsonText ReadBack Documents Files HookCommand.
Local Open Scope string_scope.
Local Open Scope Z_scope.
Local Open Scope list_scope.
Local Open Scope js_scope.

Definition CONFIG_MAX_BYTES : Z := 1048576.

(** ** Targets *)

Inductive Format := format_antigravity | format_json | format_kimi | format_opencode.

#[export] Instance Format_eq : EqDecision Format. Proof. solve_decision. Defined.

(** The path is given by its segments under the home directory, or for Muse
    under the project's when there is one. *)
Record AgentTarget := {
  tg_format : Format;
  tg_path : list string;
  tg_event : string;
  tg_timeout : Z }.

Definition json_target (path : list string) (event : string) (timeout : Z) : option AgentTarget :=
  Some {| tg_format := format_json; tg_path := path; tg_event := event; tg_timeout := timeout |}.

Definition targetFor (agent : AgentId) (project : bool) : option AgentTarget :=
  match agent with
  | id_muse =>
      json_target (if project then [".muse"; "hooks.json"] else [".config"; "muse"; "settings.json"])
        "SessionStart" 1
  | id_cursor => json_target [".cursor"; "hooks.json"] "sessionStart" 1
  | id_claude => json_target [".claude"; "settings.json"] "UserPromptSubmit" 1
  | id_codex => json_target [".codex"; "hooks.json"] "UserPromptSubmit" 1
  | id_gemini => json_target [".gemini"; "settings.json"] "BeforeAgent" 500
  | id_antigravity =>
      Some {| tg_format := format_antigravity; tg_path := [".gemini"; "config"; "hooks.json"];
              tg_event := ""; tg_timeout := 1 |}
  | id_kimi =>
      Some {| tg_format := format_kimi; tg_path := [".kimi"; "config.toml"]; tg_event := "";
              tg_timeout := 1 |}
  | id_opencode =>
      Some {| tg_format := format_opencode; tg_path := [".config"; "opencode"; "plugins"; "openlimiter.js"];
              tg_event := ""; tg_timeout := 0 |}
  | id_grok => None
  end.

Definition ACTIVITY_HOOK_EVENTS (agent : AgentId) : option (list string) :=
  match agent with
  | id_claude => Some ["SessionStart"; "UserPromptSubmit"; "Notification"; "Stop"; "SessionEnd"]
  | id_codex => Some ["SessionStart"; "UserPromptSubmit"; "PermissionRequest"; "Stop"; "SessionEnd"]
  | id_muse =>
      Some ["SessionStart"; "UserPromptSubmit"; "PermissionRequest"; "Notification"; "Stop"; "SessionEnd"]
  | id_gemini => Some ["SessionStart"; "BeforeAgent"; "Notification"; "AfterAgent"; "SessionEnd"]
  | id_cursor => Some ["sessionStart"; "beforeSubmitPrompt"; "stop"; "sessionEnd"]
  | _ => None
  end.

Inductive Action := install | uninstall.

#[export] Instance Action_eq : EqDecision Action. Proof. solve_decision. Defined.

(** ** Documents *)

Definition parseRoot (text : option string) : option (list (string * jsval)) :=
  match text with
  | None => Some []
  | Some t => if negb (not_blank t) then Some [] else let? v := json_parse t in record_of v
  end.

(** [canonicalJson(root) + "\n"] *)
Definition print_root (root : list (string * jsval)) : string :=
  default "" (canonicalJson (JObj root)) +:+ LINE_END.

(** [record(v) ?? {}], and the same of an array. *)
Definition fields_or_empty (v : jsval) : list (string * jsval) := default [] (record_of v).
Definition items_or_empty (v : jsval) : list jsval := match v with JArr l => l | _ => [] end.
Definition is_array (v : jsval) : bool := match v with JArr _ => true | _ => false end.

(** [flatMap] over a list by a callback that keeps a state. *)
Fixpoint walk {S A} (step : S -> A -> list A * S) (s : S) (l : list A) : list A * S :=
  match l with
  | [] => ([], s)
  | x :: l =>
      let '(xs, s) := step s x in
      let '(rest, s) := walk step s l in (xs ++ rest, s)
  end.

(** A group with its list of handlers; anything else is passed over. *)
Definition group_handlers (entry : jsval) : option (list (string * jsval) * list jsval) :=
  match entry with
  | JObj fs => match get fs "hooks" with JArr handlers => Some (fs, handlers) | _ => None end
  | _ => None
  end.

Definition with_handlers (fs : list (string * jsval)) (handlers : list jsval) : jsval :=
  JObj (assoc_set "hooks" (JArr handlers) fs).

Definition group_step {S} (step : S -> jsval -> list jsval * S) (s : S) (entry : jsval) :
    list jsval * S :=
  match group_handlers entry with
  | None => ([entry], s)
  | Some (fs, handlers) =>
      let '(handlers, s) := walk step s handlers in
      (match handlers with [] => [] | _ => [with_handlers fs handlers] end, s)
  end.

Definition new_group (handler : jsval) : jsval := JObj [("hooks", JArr [handler])].

(** ** The budget hook *)

(** [found] and [changed] as the handlers of all groups go by. *)
Definition install_step (agent : AgentId) (desired : jsval) (s : bool * bool) (handler : jsval) :
    list jsval * (bool * bool) :=
  let '(found, changed) := s in
  if negb (managedHandler handler agent) then ([handler], s)
  else if found then ([], (found, true))
  else ([desired], (true, changed || negb (bool_decide (canonicalJson handler = canonicalJson desired)))).

Definition jsonInstall (original : option string) (agent : AgentId) (target : AgentTarget)
    (command : Command) (windows : bool) : option string :=
  let? root := parseRoot original in
  let hooks := fields_or_empty (get root "hooks") in
  let groups := items_or_empty (get hooks (tg_event target)) in
  let desired := jsonHandler agent (tg_timeout target) command windows in
  let '(updated, (found, changed)) := walk (group_step (install_step agent desired)) (false, false) groups in
  match found && negb changed, original with
  | true, Some text => Some text
  | _, _ =>
      let updated := if found then updated else updated ++ [new_group desired] in
      Some (print_root (assoc_set "hooks" (JObj (assoc_set (tg_event target) (JArr updated) hooks)) root))
  end.

Definition uninstall_step (agent : AgentId) (removed : bool) (handler : jsval) : list jsval * bool :=
  if managedHandler handler agent then ([], true) else ([handler], removed).

Definition jsonUninstall (original : option string) (agent : AgentId) (target : AgentTarget) :
    option (option string) :=
  match original with
  | None => Some None
  | Some _ =>
      let? root := parseRoot original in
      match record_of (get root "hooks") with
      | None => Some original
      | Some hooks =>
          match get hooks (tg_event target) with
          | JArr groups =>
              let '(groups, removed) := walk (group_step (uninstall_step agent)) false groups in
              if negb removed then Some original
              else Some (Some (print_root
                (assoc_set "hooks" (JObj (assoc_set (tg_event target) (JArr groups) hooks)) root)))
          | _ => Some original
          end
      end
  end.

(** ** The activity hooks *)

Definition activity_step (agent : AgentId) (event : string) (action : Action) (desired : jsval)
    (found : bool) (handler : jsval) : list jsval * bool :=
  if negb (managedActivityHandler agent event handler) then ([handler], found)
  else if bool_decide (action = uninstall) || found then ([], found)
  else ([desired], true).

(** The first group without a matcher that has the budget hook. *)
Definition budget_group (agent : AgentId) (entry : jsval) : option (list (string * jsval) * list jsval) :=
  let? group := group_handlers entry in
  check is_undef (get group.1 "matcher") && existsb (fun h => managedHandler h agent) group.2;;
  Some group.

Fixpoint push_to_budget_group (agent : AgentId) (desired : jsval) (groups : list jsval) : list jsval :=
  match groups with
  | [] => [new_group desired]
  | entry :: groups =>
      match budget_group agent entry with
      | Some (fs, handlers) => with_handlers fs (handlers ++ [desired]) :: groups
      | None => entry :: push_to_budget_group agent desired groups
      end
  end.

Definition update_entries (agent : AgentId) (action : Action) (o : HookInstallOptions)
    (event : string) (entries : list jsval) : list jsval :=
  let desired := activityHandler agent event o in
  let step := activity_step agent event action desired in
  let cursor := bool_decide (agent = id_cursor) in
  let '(updated, found) := if cursor then walk step false entries else walk (group_step step) false entries in
  if bool_decide (action = install) && negb found then
    if cursor then updated ++ [desired] else push_to_budget_group agent desired updated
  else updated.

Definition update_event (agent : AgentId) (action : Action) (o : HookInstallOptions)
    (hooks : list (string * jsval)) (event : string) : option (list (string * jsval)) :=
  check is_undef (get hooks event) || is_array (get hooks event);;
  let updated := update_entries agent action o event (items_or_empty (get hooks event)) in
  Some (if negb (bool_decide (updated = [])) || negb (is_undef (get hooks event))
        then assoc_set event (JArr updated) hooks else hooks).

Fixpoint update_events (agent : AgentId) (action : Action) (o : HookInstallOptions)
    (hooks : list (string * jsval)) (events : list string) : option (list (string * jsval)) :=
  match events with
  | [] => Some hooks
  | event :: events =>
      let? hooks := update_event agent action o hooks event in update_events agent action o hooks events
  end.

Definition activityJson (original : option string) (agent : AgentId) (action : Action)
    (o : HookInstallOptions) : option (option string) :=
  match ACTIVITY_HOOK_EVENTS agent, original, action with
  | None, _, _ | _, None, uninstall => Some original
  | Some lifecycle, _, _ =>
      let? root := parseRoot original in
      let cursor := bool_decide (agent = id_cursor) in
      check is_undef (get root "hooks") || isRecord (get root "hooks");;
      check negb (cursor && negb (is_undef (get root "version")) && negb (is_number (get root "version") 1));;
      let? hooks := update_events agent action o (fields_or_empty (get root "hooks")) lifecycle in
      let changed := assoc_set "hooks" (JObj hooks) root in
      let changed :=
        if cursor && bool_decide (action = install)
        then assoc_set "version" (JNum (int 1)) changed else changed in
      match original with
      | Some _ =>
          if bool_decide (canonicalJson (JObj root) = canonicalJson (JObj changed)) then Some original
          else Some (Some (print_root changed))
      | None => Some (Some (print_root changed))
      end
  end.

(** ** Antigravity *)

Definition ANTIGRAVITY_KEY : string := "openlimiter-managed-v1".

Definition antigravity_group (command : string) : jsval :=
  JObj [("PreInvocation",
         JArr [JObj [("type", JStr "command"); ("command", JStr command); ("timeout", JNum (int 1))]])].

Definition antigravity_managed (managed : jsval) : bool :=
  match managed with
  | JObj fs => existsb (fun h => managedHandler h id_antigravity) (items_or_empty (get fs "PreInvocation"))
  | _ => false
  end.

Definition antigravityInstall (original : option string) (command : string) : option string :=
  let? root := parseRoot original in
  let managed := get root ANTIGRAVITY_KEY in
  let desired := antigravity_group command in
  match isRecord managed && bool_decide (canonicalJson managed = canonicalJson desired), original with
  | true, Some text => Some text
  | _, _ =>
      check is_undef managed || antigravity_managed managed;;
      Some (print_root (assoc_set ANTIGRAVITY_KEY desired root))
  end.

Definition antigravityUninstall (original : option string) : option (option string) :=
  match original with
  | None => Some None
  | Some _ =>
      let? root := parseRoot original in
      if antigravity_managed (get root ANTIGRAVITY_KEY)
      then Some (Some (print_root (filter (fun kv => kv.1 <> ANTIGRAVITY_KEY) root)))
      else Some original
  end.

(** ** Kimi *)

Definition KIMI_BEGIN : string := "# openlimiter hook begin v1".
Definition KIMI_END : string := "# openlimiter hook end v1".

(** [s.indexOf(sub)] and [s.slice(n)] *)
Fixpoint index_of (sub s : string) : option nat :=
  if starts_with sub s then Some 0%nat
  else match s with EmptyString => None | String _ s => S <$> index_of sub s end.

Fixpoint str_suffix (n : nat) (s : string) : string :=
  match n, s with S n, String _ s => str_suffix n s | _, _ => s end.

Fixpoint ends_with_newline (s : string) : bool :=
  match s with
  | EmptyString => false
  | String c EmptyString => code c =? 10
  | String _ s => ends_with_newline s
  end.

Definition kimiBlock (command : string) : string :=
  join LINE_END
    [KIMI_BEGIN; "[[hooks]]"; quote_text "event = 'UserPromptSubmit'"; "command = " +:+ quoted command;
     "timeout = 1"; KIMI_END].

Definition kimiInstall (original : option string) (command : string) : option string :=
  let text := default "" original in
  let desired := kimiBlock command in
  match index_of KIMI_BEGIN text, index_of KIMI_END text with
  | None, None =>
      Some (text +:+ (if str_eqb text "" || ends_with_newline text then "" else LINE_END) +:+
            desired +:+ LINE_END)
  | Some start, Some stop =>
      check (start <=? stop)%nat;;
      let after := (stop + String.length KIMI_END)%nat in
      if str_eqb (str_prefix (after - start) (str_suffix start text)) desired then Some text
      else Some (str_prefix start text +:+ desired +:+ str_suffix after text)
  | _, _ => None
  end.

Definition kimiUninstall (original : option string) : option (option string) :=
  match original with
  | None => Some None
  | Some text =>
      match index_of KIMI_BEGIN text, index_of KIMI_END text with
      | None, None => Some original
      | Some start, Some stop =>
          check (start <=? stop)%nat;;
          let after := (stop + String.length KIMI_END)%nat in
          let rest := str_suffix after text in
          let consumeNewline :=
            if starts_with (String (chr 13) LINE_END) rest then 2%nat
            else if starts_with LINE_END rest then 1%nat else 0%nat in
          Some (Some (str_prefix start text +:+ str_suffix (after + consumeNewline) text))
      | _, _ => None
      end
  end.

(** ** OpenCode *)

Definition OPENCODE_MARKER : string := "// openlimiter experimental hook v1".

Definition opencodePlugin (command : Command) : string :=
  join LINE_END
    [OPENCODE_MARKER;
     "export const OpenLimiter = async ({ directory }) => ({";
     quote_text "  'experimental.chat.system.transform': async (input, output) => {";
     quote_text "    if (process.env.OPENLIMITER_EXPERIMENTAL_OPENCODE !== '1') return;";
     "    const child = Bun.spawn({";
     "      cmd: " +:+ text_of (JArr (map JStr (command_argv command))) +:+ ",";
     quote_text "      stdin: new Blob([JSON.stringify({ hook_event_name: 'OpenCodeSystemTransform', session_id: input.sessionID, cwd: directory })]),";
     quote_text "      stdout: 'pipe',";
     quote_text "      stderr: 'ignore'";
     "    });";
     "    const timer = setTimeout(() => child.kill(), 500);";
     "    try {";
     "      const text = await new Response(child.stdout).text();";
     quote_text "      if ((await child.exited) === 0 && text.startsWith('<openlimiter_untrusted_data version=\'1\'>')) output.system.push(text.trim());";
     "    } finally { clearTimeout(timer); }";
     "  }";
     "});";
     ""].

(** ** What a change makes of a text *)

Definition next_text (agent : AgentId) (action : Action) (version : string) (o : HookInstallOptions)
    (target : AgentTarget) (original : option string) : option (option string) :=
  let command := hookCommand agent version o in
  match tg_format target, action with
  | format_json, _ =>
      let? next :=
        if bool_decide (agent = id_muse) || bool_decide (agent = id_cursor) then Some original
        else match action with
             | install => Some <$> jsonInstall original agent target command (ho_windows o)
             | uninstall => jsonUninstall original agent target
             end in
      activityJson next agent action o
  | format_antigravity, install => Some <$> antigravityInstall original (command_text command)
  | format_antigravity, uninstall => antigravityUninstall original
  | format_kimi, install => Some <$> kimiInstall original (command_text command)
  | format_kimi, uninstall => kimiUninstall original
  | format_opencode, install =>
      check match original with Some text => starts_with OPENCODE_MARKER text | None => true end;;
      Some (Some (opencodePlugin command))
  | format_opencode, uninstall =>
      match original with
      | Some text => if starts_with OPENCODE_MARKER text then Some (Some "") else Some original
      | None => Some None
      end
  end.

(** ** The change of a file *)

(** The configuration and its backup, as texts of files that may not exist. *)
Record HookFiles := { configuration : option string; saved : option string }.

(** What the world does during one attempt: whether the paths are free of links
    and the executables plain files, what others make of the configuration
    between the two reads and between the second read and the write, and whether
    the two writes succeed. *)
Record AttemptWorld := {
  aw_safe : bool;
  aw_meanwhile : option string -> option string;
  aw_still_safe : bool;
  aw_late : option string -> option string;
  aw_backed_up : bool;
  aw_written : bool }.

Inductive MutationResult := mutation_threw | mutation_done (changed : bool) (backup : bool).

(** A text that is too long is refused. *)
Definition readBounded (text : option string) : option (option string) :=
  match text with
  | Some t => check byte_length t <=? CONFIG_MAX_BYTES;; Some text
  | None => Some None
  end.

(** The first backup stays; [None]: the write failed. *)
Definition backup (original : option string) (w : AttemptWorld) (files : HookFiles) : option HookFiles :=
  match original with
  | None => Some files
  | Some text =>
      let? existing := readBounded (saved files) in
      match existing with
      | Some _ => Some files
      | None =>
          check aw_backed_up w;;
          Some {| configuration := configuration files; saved := Some text |}
      end
  end.

Definition with_configuration (text : option string) (files : HookFiles) : HookFiles :=
  {| configuration := text; saved := saved files |}.

Definition unchanged (original next : option string) : bool :=
  bool_decide (next = original) ||
  bool_decide (original = None) && (bool_decide (next = None) || bool_decide (next = Some "")).

Definition removes_file (target : AgentTarget) (action : Action) (original : option string) : bool :=
  bool_decide (tg_format target = format_opencode) && bool_decide (action = uninstall) &&
  match original with Some text => starts_with OPENCODE_MARKER text | None => false end.

(** One attempt after another, [retries] of them left after this one. *)
Fixpoint mutate (next_of : option string -> option (option string)) (target : AgentTarget)
    (action : Action) (retries : nat) (world : nat -> AttemptWorld) (files : HookFiles) :
    HookFiles * MutationResult :=
  let w := world retries in
  match (check aw_safe w;; readBounded (configuration files)) with
  | None => (files, mutation_threw)
  | Some original =>
      match next_of original with
      | None => (files, mutation_threw)
      | Some next =>
          if unchanged original next then (files, mutation_done false false)
          else
            match backup original w files with
            | None => (files, mutation_threw)
            | Some files =>
                let files := with_configuration (aw_meanwhile w (configuration files)) files in
                match (check aw_still_safe w;; readBounded (configuration files)) with
                | None => (files, mutation_threw)
                | Some again =>
                    if bool_decide (again = original) then
                      let files := with_configuration (aw_late w (configuration files)) files in
                      let result := mutation_done true (negb (bool_decide (original = None))) in
                      if removes_file target action original then
                        if aw_written w then (with_configuration None files, result)
                        else (files, mutation_threw)
                      else
                        match next with
                        | None => (files, result)
                        | Some text =>
                            if aw_written w then (with_configuration (Some text) files, result)
                            else (files, mutation_threw)
                        end
                    else
                      match retries with
                      | O => (files, mutation_threw)
                      | S retries => mutate next_of target action retries world files
                      end
                end
            end
      end
  end.

Definition MUTATION_RETRIES : nat := 3.

(** ** The gates *)

Inductive LaunchState := included | gated | experimental | excluded.

#[export] Instance LaunchState_eq : EqDecision LaunchState. Proof. solve_decision. Defined.

Record AgentCompatibilityGate := {
  minimumTestedVersion : option string;
  launchState : LaunchState }.

Definition AGENT_COMPATIBILITY (agent : AgentId) : AgentCompatibilityGate :=
  let gate version state := {| minimumTestedVersion := version; launchState := state |} in
  match agent with
  | id_claude => gate (Some "2.1.257") included
  | id_muse => gate None included
  | id_cursor => gate None included
  | id_codex => gate (Some "0.152.0") included
  | id_gemini => gate None gated
  | id_antigravity => gate (Some "1.1.27") excluded
  | id_kimi => gate None gated
  | id_opencode => gate (Some "1.18.11") experimental
  | id_grok => gate (Some "1.0.4") excluded
  end.

Inductive AgentVersionCompatibility := newer | older | supported | unsupported.

#[export] Instance AgentVersionCompatibility_eq : EqDecision AgentVersionCompatibility.
Proof. solve_decision. Defined.

(** [0|[1-9]\d*], as a number that is a safe integer. *)
Definition version_part (s : string) : option Z :=
  check whole_digits s && str_forall is_digit s;;
  let n := digits_value 0 s in
  check n <=? 9007199254740991;; Some n.

Definition semanticVersion (value : string) : option (Z * Z * Z) :=
  match split_on "." value "" with
  | [a; b; c] =>
      let? x := version_part a in
      let? y := version_part b in
      let? z := version_part c in Some (x, y, z)
  | _ => None
  end.

Definition agentVersionCompatibility (agent : AgentId) (version : string) : AgentVersionCompatibility :=
  match semanticVersion version, (let? m := minimumTestedVersion (AGENT_COMPATIBILITY agent) in semanticVersion m) with
  | Some (a, b, c), Some (a', b', c') =>
      if a' <? a then newer else if a <? a' then older
      else if b' <? b then newer else if b <? b' then older
      else if c' <? c then newer else if c <? c' then older
      else supported
  | _, _ => unsupported
  end.

(** What was found of the agent: its version, its executable, size and time. *)
Record AgentInstallation := {
  ai_version : string;
  ai_executable : string;
  ai_fileSize : num;
  ai_mtimeMilliseconds : num }.

Record ChangeOptions := {
  co_hook : HookInstallOptions;
  co_project : bool;
  (* [None]: not given; [Some None]: given as null *)
  co_detectedVersion : option (option string);
  co_experimental : bool }.

(** [detectAgentInstallation] reads the machine: its answer is an argument. *)
Definition detected_agent (agent : AgentId) (action : Action) (options : ChangeOptions)
    (installation : option AgentInstallation) : option AgentInstallation :=
  let o := co_hook options in
  if bool_decide (action = uninstall) || bool_decide (agent = id_muse) || bool_decide (agent = id_cursor)
  then None
  else
    match co_detectedVersion options with
    | None => installation
    | Some version =>
        let? version := version in
        let? executable := ho_agentExecutable o in
        let? size := ho_agentFileSize o in
        let? mtime := ho_agentMtimeMilliseconds o in
        Some {| ai_version := version; ai_executable := executable; ai_fileSize := size;
                ai_mtimeMilliseconds := mtime |}
    end.

Definition with_stamp (o : HookInstallOptions) (detected : option AgentInstallation) : HookInstallOptions :=
  match detected with
  | None => o
  | Some a =>
      {| ho_nodeExecutable := ho_nodeExecutable o; ho_openLimiterScript := ho_openLimiterScript o;
         ho_agentExecutable := Some (ai_executable a); ho_agentFileSize := Some (ai_fileSize a);
         ho_agentMtimeMilliseconds := Some (ai_mtimeMilliseconds a); ho_windows := ho_windows o |}
  end.

(** Why an installation is refused before any file is looked at. *)
Definition gate_message (agent : AgentId) (options : ChangeOptions) (version : option string)
    (detected : option AgentInstallation) : option string :=
  let state := launchState (AGENT_COMPATIBILITY agent) in
  if bool_decide (state = excluded) then Some "Dynamic injection is excluded for this agent."
  else if bool_decide (state = gated) then
    Some "This agent has no passing Windows live fixture for installation."
  else if bool_decide (state = experimental) && negb (co_experimental options) then
    Some "Experimental OpenCode support is disabled."
  else
    let tested :=
      match version with
      | Some v =>
          match agentVersionCompatibility agent v with supported | newer => true | _ => false end
      | None => false
      end in
    if negb tested then
      Some "The detected agent version is older than the minimum tested version or is not a valid release version."
    else
      match detected with
      | None => Some "The agent executable could not be pinned safely."
      | Some _ => None
      end.

Record HookMutationResult := {
  hm_changed : bool;
  hm_supported : bool;
  hm_backup : bool;
  hm_version : option string;
  hm_message : string }.

Definition refused (version : option string) (message : string) : HookMutationResult :=
  {| hm_changed := false; hm_supported := false; hm_backup := false; hm_version := version;
     hm_message := message |}.

(** The version a result names. *)
Definition reported_version (options : ChangeOptions) (detected : option AgentInstallation) : option string :=
  match detected with
  | Some a => Some (ai_version a)
  | None => default None (co_detectedVersion options)
  end.

Definition changeAgentHook (agent : AgentId) (action : Action) (options : ChangeOptions)
    (installation : option AgentInstallation) (world : nat -> AttemptWorld) (files : HookFiles) :
    HookFiles * HookMutationResult :=
  match targetFor agent (co_project options) with
  | None =>
      (files, refused None "Grok Build discards hook stdout; use openlimiter status --agent-context.")
  | Some target =>
      let detected := detected_agent agent action options installation in
      let version := reported_version options detected in
      let gate :=
        if bool_decide (action = install) && negb (bool_decide (agent = id_muse)) &&
           negb (bool_decide (agent = id_cursor))
        then gate_message agent options version detected else None in
      match gate with
      | Some message => (files, refused version message)
      | None =>
          let o := with_stamp (co_hook options) detected in
          let '(files, result) :=
            mutate (next_text agent action (default "unknown" version) o target) target action
              MUTATION_RETRIES world files in
          (files,
           match result with
           | mutation_threw => refused version "Configuration was rejected as unreadable or unsafe."
           | mutation_done changed backup =>
               {| hm_changed := changed; hm_supported := true; hm_backup := backup;
                  hm_version := version;
                  hm_message :=
                    if changed then "Configuration changed atomically."
                    else "Configuration already matched the requested state." |}
           end)
      end
  end.

(** [readAgentHookStatus], of the text read. *)
Definition hook_installed (agent : AgentId) (target : AgentTarget) (text : string) : option bool :=
  match tg_format target with
  | format_kimi =>
      Some (negb (bool_decide (index_of KIMI_BEGIN text = None)) &&
            negb (bool_decide (index_of KIMI_END text = None)))
  | format_opencode => Some (starts_with OPENCODE_MARKER text)
  | format_antigravity =>
      let? root := parseRoot (Some text) in Some (antigravity_managed (get root ANTIGRAVITY_KEY))
  | format_json =>
      let? root := parseRoot (Some text) in
      let groups := items_or_empty (get (fields_or_empty (get root "hooks")) (tg_event target)) in
      Some (existsb (fun candidate =>
        if bool_decide (agent = id_cursor) then managedActivityHandler agent (tg_event target) candidate
        else match group_handlers candidate with
             | Some (_, handlers) =>
                 existsb (fun h => managedHandler h agent ||
                                   managedActivityHandler agent (tg_event target) h) handlers
             | None => false
             end) groups)
  end.

Definition readAgentHookStatus (agent : AgentId) (project safe : bool) (text : option string) : bool :=
  match targetFor agent project with
  | None => false
  | Some target =>
      match (check safe;; let? read := readBounded text in let? t := read in hook_installed agent target t) with
      | Some installed => installed
      | None => false
      end
  end.

(** The same without the gates, for hosts that are tested before they are
    approved. *)
Definition changeAgentHookFixture (agent : AgentId) (action : Action) (options : ChangeOptions)
    (world : nat -> AttemptWorld) (files : HookFiles) : HookFiles * HookMutationResult :=
  let version := default "fixture" (default None (co_detectedVersion options)) in
  match targetFor agent (co_project options) with
  | None => (files, refused (Some version) "This agent has no hook configuration target.")
  | Some target =>
      let '(files, result) :=
        mutate (next_text agent action version (co_hook options) target) target action
          MUTATION_RETRIES world files in
      (files,
       match result with
       | mutation_threw => refused (Some version) "Fixture configuration was rejected."
       | mutation_done changed backup =>
           {| hm_changed := changed; hm_supported := true; hm_backup := backup;
              hm_version := Some version;
              hm_message :=
                if changed then "Fixture configuration changed."
                else "Fixture configuration was unchanged." |}
       end)
  end.
