(* ===== verification/HookViews.v ===== *)
(** * Views of a configuration

    The entries of an event, seen three ways: what is not this program's
    ([others]), what is ([mine]), and that no group is empty ([solid]); and that
    a text printed and read again shows the same. *)
From S2P Require Import Prelude JsNum JsDate JsValue Text Json JsonText ReadBack Documents Files HookCommand HookCommandLaws HookInstall.
Local Open Scope string_scope.
Local Open Scope Z_scope.
Local Open Scope list_scope.
Local Open Scope js_scope.

(** ** Walking *)

Section Walk.
Context {S A B : Type}.

Lemma walk_app (step : S -> A -> list A * S) s l k :
  walk step s (l ++ k) =
  ((walk step s l).1 ++ (walk step (walk step s l).2 k).1, (walk step (walk step s l).2 k).2).
Proof.
  revert s. induction l as [|x l IH]; intros s; cbn [app walk fst snd]; [by destruct (walk step s k)|].
  destruct (step s x) as [xs s']. rewrite IH. destruct (walk step s' l) as [r t]. cbn [fst snd].
  destruct (walk step t k). by rewrite app_assoc.
Qed.

(** A view that takes each element apart sees through a walk whose steps it
    does not notice. *)
Lemma walk_view (view : list A -> list B) (step : S -> A -> list A * S) s l :
  view [] = [] -> (forall l k, view (l ++ k) = view l ++ view k) ->
  (forall s x, x ∈ l -> view (step s x).1 = view [x]) -> view (walk step s l).1 = view l.
Proof.
  intros Hnil Happ. revert s. induction l as [|x l IH]; intros s Hstep; [done|]. cbn [walk].
  specialize (Hstep s x ltac:(left)) as Hx. destruct (step s x) as [xs s'].
  specialize (IH s' (fun s y Hy => Hstep s y ltac:(by right))). destruct (walk step s' l) as [rest t].
  cbn [fst] in *. rewrite Happ, Hx, IH. by rewrite <- Happ.
Qed.

Lemma walk_forall (P : A -> Prop) (step : S -> A -> list A * S) s l :
  (forall s x, P x -> Forall P (step s x).1) -> Forall P l -> Forall P (walk step s l).1.
Proof.
  intros Hstep. revert s. induction l as [|x l IH]; intros s Hl; [done|]. cbn [walk].
  apply Forall_cons in Hl as [Hx Hl]. specialize (Hstep s x Hx). destruct (step s x) as [xs s'].
  specialize (IH s' Hl). destruct (walk step s' l). cbn [fst] in *. by apply Forall_app.
Qed.
End Walk.

Lemma assoc_set_set {V} (k : string) (v w : V) m : assoc_set k w (assoc_set k v m) = assoc_set k w m.
Proof.
  induction m as [|[k' u] m IH]; cbn [assoc_set]; [by rewrite decide_True|].
  case_decide as Hk; cbn [assoc_set]; [by rewrite decide_True|]. by rewrite decide_False, IH.
Qed.

(** ** The three views *)

Definition handlers_of (entry : jsval) : list jsval :=
  match group_handlers entry with Some (_, handlers) => handlers | None => [] end.

Definition strip (p : jsval -> bool) (entry : jsval) : list jsval :=
  match group_handlers entry with
  | None => [entry]
  | Some (fs, handlers) =>
      match List.filter (fun h => negb (p h)) handlers with
      | [] => []
      | rest => [with_handlers fs rest]
      end
  end.

(** Cursor lists its handlers; the other agents list groups of them. *)
Definition others (cursor : bool) (p : jsval -> bool) (entries : list jsval) : list jsval :=
  if cursor then List.filter (fun h => negb (p h)) entries else flat_map (strip p) entries.

Definition mine (cursor : bool) (p : jsval -> bool) (entries : list jsval) : list jsval :=
  List.filter p (if cursor then entries else flat_map handlers_of entries).

Definition solid_entry (entry : jsval) : bool :=
  match group_handlers entry with Some (_, []) => false | _ => true end.

Definition solid (cursor : bool) (entries : list jsval) : bool := cursor || forallb solid_entry entries.

Lemma group_with_handlers fs handlers :
  group_handlers (with_handlers fs handlers) = Some (assoc_set "hooks" (JArr handlers) fs, handlers).
Proof. unfold group_handlers, with_handlers. by rewrite get_set, decide_True. Qed.

Lemma with_handlers_again fs handlers rest :
  with_handlers (assoc_set "hooks" (JArr handlers) fs) rest = with_handlers fs rest.
Proof. unfold with_handlers. by rewrite assoc_set_set. Qed.

Lemma others_app cursor p l k : others cursor p (l ++ k) = others cursor p l ++ others cursor p k.
Proof. destruct cursor; cbn [others]; [apply List.filter_app|apply flat_map_app]. Qed.

Lemma mine_app cursor p l k : mine cursor p (l ++ k) = mine cursor p l ++ mine cursor p k.
Proof.
  unfold mine. destruct cursor; [apply List.filter_app|]. by rewrite flat_map_app, List.filter_app.
Qed.

Lemma solid_app cursor l k : solid cursor (l ++ k) = solid cursor l && solid cursor k.
Proof. destruct cursor; [done|]. apply forallb_app. Qed.

(** A step hides from [others] when what it makes of a handler differs only in
    handlers of the program. *)
Definition hidden {S} (p : jsval -> bool) (step : S -> jsval -> list jsval * S) : Prop :=
  forall s h, List.filter (fun h => negb (p h)) (step s h).1 = List.filter (fun h => negb (p h)) [h].

Lemma hidden_group {S} p (step : S -> jsval -> list jsval * S) s entry :
  hidden p step -> others false p (group_step step s entry).1 = others false p [entry].
Proof.
  intros Hh. unfold group_step. destruct (group_handlers entry) as [[fs handlers]|] eqn:E; [|done].
  pose proof (walk_view (List.filter (fun h => negb (p h))) step s handlers eq_refl
    (List.filter_app _) (fun s x _ => Hh s x)) as Hw.
  destruct (walk step s handlers) as [handlers' s']. cbn [fst] in *. cbn [others flat_map].
  unfold strip at 2. rewrite E, <- Hw, app_nil_r. destruct handlers' as [|h' handlers']; [done|].
  cbn [flat_map]. unfold strip. rewrite group_with_handlers, app_nil_r.
  destruct (List.filter _ (h' :: handlers')); [done|]. by rewrite with_handlers_again.
Qed.

Lemma hidden_groups {S} p (step : S -> jsval -> list jsval * S) s entries :
  hidden p step -> others false p (walk (group_step step) s entries).1 = others false p entries.
Proof.
  intros Hh. apply (walk_view (others false p)); [done|apply others_app|].
  intros. by apply hidden_group.
Qed.

Lemma hidden_list {S} p (step : S -> jsval -> list jsval * S) s entries :
  hidden p step -> others true p (walk step s entries).1 = others true p entries.
Proof. intros Hh. apply (walk_view (others true p)); [done|apply others_app|intros; apply Hh]. Qed.

(** The groups left by a walk are not empty. *)
Lemma solid_groups {S} (step : S -> jsval -> list jsval * S) s entries :
  solid false (walk (group_step step) s entries).1 = true.
Proof.
  revert s. induction entries as [|entry entries IH]; intros s; [done|]. cbn [walk].
  destruct (group_step step s entry) as [xs s'] eqn:E. specialize (IH s').
  destruct (walk _ s' entries) as [rest t]. cbn [fst] in *. rewrite solid_app, IH, andb_true_r.
  unfold group_step in E. destruct (group_handlers entry) as [[fs handlers]|] eqn:Eg.
  - destruct (walk step s handlers) as [[|h hs] t']; injection E as <- <-; [done|].
    cbn. unfold solid_entry. by rewrite group_with_handlers.
  - injection E as <- <-. cbn. unfold solid_entry. by rewrite Eg.
Qed.

(** The handlers a walk leaves are those it leaves of all handlers together. *)
Lemma handlers_step {S} (step : S -> jsval -> list jsval * S) s entry :
  flat_map handlers_of (group_step step s entry).1 = (walk step s (handlers_of entry)).1 /\
  (group_step step s entry).2 = (walk step s (handlers_of entry)).2.
Proof.
  unfold group_step, handlers_of at 2 3. destruct (group_handlers entry) as [[fs handlers]|] eqn:E.
  - destruct (walk step s handlers) as [[|h hs] s']; [done|]. cbn [fst snd flat_map].
    unfold handlers_of. by rewrite group_with_handlers, app_nil_r.
  - cbn [fst snd flat_map walk]. unfold handlers_of. by rewrite E.
Qed.

Lemma handlers_walk {S} (step : S -> jsval -> list jsval * S) s entries :
  flat_map handlers_of (walk (group_step step) s entries).1 = (walk step s (flat_map handlers_of entries)).1 /\
  (walk (group_step step) s entries).2 = (walk step s (flat_map handlers_of entries)).2.
Proof.
  revert s. induction entries as [|entry entries IH]; intros s; [done|]. cbn [walk flat_map].
  rewrite walk_app. destruct (handlers_step step s entry) as [H1 H2].
  destruct (group_step step s entry) as [xs s']. cbn [fst snd] in *. subst s'.
  destruct (IH (walk step s (handlers_of entry)).2) as [I1 I2].
  destruct (walk (group_step step) _ entries) as [rest t]. cbn [fst snd] in *.
  by rewrite flat_map_app, H1, I1, I2.
Qed.

(** ** The views of a text read again *)

Lemma canon_field_string v s : canon_field v = JStr s <-> v = JStr s.
Proof.
  unfold canon_field. destruct v as [| | |x| | |]; try done.
  unfold canon. cbn [sortDeep plain is_undef]. by destruct (is_finite x).
Qed.

Lemma canon_field_undef v : is_undef (canon_field v) = is_undef v.
Proof.
  unfold canon_field. destruct v as [| | |x| | |]; try done.
  unfold canon. cbn [sortDeep plain is_undef]. by destruct (is_finite x).
Qed.

Lemma as_string_canon v : as_string (canon v) = as_string v.
Proof. destruct v as [| | |x| | |]; try done. unfold canon. cbn. by destruct (is_finite x). Qed.

Lemma strings_canon l : mapM as_string (map canon l) = mapM as_string l.
Proof. induction l as [|v l IH]; [done|]. cbn [map mapM]. by rewrite as_string_canon, IH. Qed.

Lemma canon_not_object v : isRecord v = false -> isRecord (canon v) = false.
Proof. destruct v as [| | |x| | |]; try done. unfold canon. cbn. by destruct (is_finite x). Qed.

(** What depends on a handler's texts alone is the same of its canonical form. *)
Definition respects (p : jsval -> bool) : Prop := forall h, document h -> p (canon h) = p h.

(** The arguments a handler gives. *)
Definition given_arguments (v : jsval) : option (option (list string)) :=
  match v with JUndef => Some None | JArr l => (let? args := mapM as_string l in Some (Some args)) | _ => None end.

Lemma given_arguments_canon v : given_arguments (canon_field v) = given_arguments v.
Proof.
  unfold canon_field. destruct v as [| | |x| |l|fs]; try done.
  - unfold canon. cbn [sortDeep plain is_undef]. by destruct (is_finite x).
  - cbn [is_undef]. rewrite canon_array. cbn [given_arguments]. by rewrite strings_canon.
Qed.

Lemma managedHandler_arguments fs agent :
  managedHandler (JObj fs) agent =
  match get fs "command", given_arguments (get fs "args") with
  | JStr command, Some None =>
      negb (str_eqb command "") && existsb (fun argv => managedArgv argv agent) (readings command)
  | JStr command, Some (Some args) => negb (str_eqb command "") && managedArgv (command :: args) agent
  | _, _ => false
  end.
Proof.
  cbn [managedHandler]. destruct (get fs "command"); try done.
  destruct (get fs "args") as [| | | | |l|]; cbn [given_arguments]; rewrite ?andb_false_r; try done.
  destruct (mapM as_string l); by rewrite ?andb_false_r.
Qed.

Lemma managedHandler_respects agent : respects (fun h => managedHandler h agent).
Proof.
  intros h Hd. destruct (isRecord h) eqn:Hr.
  - destruct h as [| | | | | |fs]; try done. rewrite canon_object by done.
    rewrite !managedHandler_arguments, !get_canon, given_arguments_canon by done.
    destruct (get fs "command") as [| | |x| | |] eqn:E; try done.
    unfold canon_field, canon. cbn [sortDeep plain is_undef]. by destruct (is_finite x).
  - pose proof (canon_not_object h Hr). by destruct h, (canon _).
Qed.

Lemma managedActivity_arguments fs agent event :
  managedActivityHandler agent event (JObj fs) =
  match get fs "command" with
  | JStr command =>
      (is_undef (get fs "commandWindows") || is_string (get fs "commandWindows") command) &&
      match given_arguments (get fs "args") with
      | Some None => existsb (activity_argv agent event) (readings command)
      | Some (Some args) => activity_argv agent event (command :: args)
      | None => false
      end
  | _ => false
  end.
Proof.
  cbn [managedActivityHandler]. destruct (get fs "command"); try done. f_equal.
  destruct (get fs "args") as [| | | | |l|]; cbn [given_arguments]; try done.
  destruct (mapM as_string l); [|done]. cbn [existsb]. by rewrite orb_false_r.
Qed.

Lemma is_string_canon v s : is_string (canon_field v) s = is_string v s.
Proof.
  unfold canon_field. destruct v as [| | |x| | |]; try done. unfold canon.
  cbn [sortDeep plain is_undef]. by destruct (is_finite x).
Qed.

Lemma managedActivity_respects agent event : respects (managedActivityHandler agent event).
Proof.
  intros h Hd. destruct (isRecord h) eqn:Hr.
  - destruct h as [| | | | | |fs]; try done. rewrite canon_object by done.
    rewrite !managedActivity_arguments, !get_canon, given_arguments_canon, canon_field_undef by done.
    destruct (get fs "command") as [| | |x|s| |] eqn:E; try done.
    + unfold canon_field, canon. cbn [sortDeep plain is_undef]. by destruct (is_finite x).
    + rewrite (proj2 (canon_field_string (JStr s) s) eq_refl). by rewrite is_string_canon.
  - pose proof (canon_not_object h Hr). by destruct h, (canon _).
Qed.

Lemma group_canon entry :
  document entry ->
  group_handlers (canon entry) = (fun g => (canon_fields g.1, map canon g.2)) <$> group_handlers entry.
Proof.
  intros Hd. destruct (isRecord entry) eqn:Hr.
  - destruct entry as [| | | | | |fs]; try done. rewrite canon_object by done. cbn [group_handlers].
    rewrite get_canon by done. destruct (get fs "hooks") as [| | |x| |l|gs] eqn:E; try done.
    + unfold canon_field, canon. cbn [sortDeep plain is_undef]. by destruct (is_finite x).
    + unfold canon_field. cbn [is_undef]. by rewrite canon_array.
  - pose proof (canon_not_object entry Hr). by destruct entry, (canon _).
Qed.

Lemma group_document entry fs handlers :
  document entry -> group_handlers entry = Some (fs, handlers) ->
  entry = JObj fs /\ document (JObj fs) /\ Forall document handlers.
Proof.
  intros Hd. destruct entry as [| | | | | |gs]; try done. cbn [group_handlers].
  destruct (get gs "hooks") as [| | | | |l|] eqn:E; try done. intros [= <- <-]. split_and!; [done..|].
  destruct (document_get gs "hooks" Hd) as [H|H]; rewrite E in H; [done|]. by apply document_array.
Qed.

Lemma filter_canon p l :
  respects p -> Forall document l -> List.filter p (map canon l) = map canon (List.filter p l).
Proof.
  intros Hp. induction 1 as [|h l Hh Hl IH]; [done|]. cbn [map List.filter]. rewrite Hp, IH by done.
  by destruct (p h).
Qed.

Lemma entry_canon entry :
  document entry ->
  handlers_of (canon entry) = map canon (handlers_of entry) /\ Forall document (handlers_of entry).
Proof.
  intros He. unfold handlers_of. rewrite group_canon by done.
  destruct (group_handlers entry) as [[fs handlers]|] eqn:E; [|done].
  split; [done|]. by eapply group_document.
Qed.

Lemma handlers_canon entries :
  Forall document entries ->
  flat_map handlers_of (map canon entries) = map canon (flat_map handlers_of entries) /\
  Forall document (flat_map handlers_of entries).
Proof.
  induction 1 as [|entry entries He Hes [IH1 IH2]]; [done|]. cbn [map flat_map].
  destruct (entry_canon entry He) as [H1 H2]. rewrite map_app, IH1, H1.
  split; [done|]. by apply Forall_app.
Qed.

Lemma mine_canon cursor p entries :
  respects p -> Forall document entries ->
  mine cursor p (map canon entries) = map canon (mine cursor p entries).
Proof.
  intros Hp Hd. unfold mine. destruct cursor; [by apply filter_canon|].
  destruct (handlers_canon entries Hd) as [-> Hh]. by apply filter_canon.
Qed.

Lemma solid_canon cursor entries :
  Forall document entries -> solid cursor (map canon entries) = solid cursor entries.
Proof.
  intros Hd. destruct cursor; [done|]. cbn [solid orb].
  induction Hd as [|entry entries He Hes IH]; [done|]. cbn [map forallb]. rewrite IH. f_equal.
  unfold solid_entry. rewrite group_canon by done. by destruct (group_handlers entry) as [[fs [|h hs]]|].
Qed.

Lemma document_with_handlers fs handlers :
  document (JObj fs) -> Forall document handlers -> document (with_handlers fs handlers).
Proof. intros Hf Hh. apply document_set; [done|]. by apply document_array. Qed.

Lemma canon_with_handlers fs handlers :
  document (JObj fs) -> Forall document handlers ->
  canon (with_handlers (canon_fields fs) (map canon handlers)) = canon (with_handlers fs handlers).
Proof.
  intros Hf Hh. assert (Hcf : document (JObj (canon_fields fs))).
  { rewrite <- canon_object by done. by apply canon_document. }
  assert (Hch : Forall document (map canon handlers)).
  { apply Forall_map. eapply Forall_impl; [exact Hh|]. apply canon_document. }
  apply canon_ext; [by apply document_with_handlers..|]. intros k. rewrite !get_set.
  case_decide.
  - unfold canon_field. cbn [is_undef]. rewrite !canon_array, map_map. f_equal.
    apply map_ext_in. intros h Hin%list_elem_of_In. rewrite Forall_forall in Hh. by apply canon_idem, Hh.
  - rewrite get_canon by done. unfold canon_field. destruct (is_undef (get fs k)) eqn:E; [done|].
    destruct (document_get fs k Hf) as [Hu|Hu]; [by rewrite Hu in E|].
    rewrite document_defined by (by apply canon_document). by apply canon_idem.
Qed.

Lemma others_canon cursor p entries :
  respects p -> Forall document entries ->
  map canon (others cursor p (map canon entries)) = map canon (others cursor p entries).
Proof.
  intros Hp Hd. assert (Hn : respects (fun h => negb (p h))) by (intros h Hh; by rewrite Hp).
  assert (Hid : forall l, Forall document l -> map canon (map canon l) = map canon l).
  { intros l Hl. rewrite map_map. apply map_ext_in. intros x Hx%list_elem_of_In.
    rewrite Forall_forall in Hl. by apply canon_idem, Hl. }
  assert (Hsub : forall l, Forall document l -> Forall document (List.filter (fun h => negb (p h)) l)).
  { intros l Hl. rewrite Forall_forall in *. intros x Hx. apply list_elem_of_In, filter_In in Hx as [Hx _].
    by apply Hl, list_elem_of_In. }
  destruct cursor; cbn [others].
  { rewrite filter_canon by done. by apply Hid, Hsub. }
  induction Hd as [|entry entries He Hes IH]; [done|]. cbn [map flat_map]. rewrite !map_app, IH. f_equal.
  unfold strip. rewrite group_canon by done.
  destruct (group_handlers entry) as [[fs handlers]|] eqn:E; cbn [fmap option_fmap option_map fst snd].
  - destruct (group_document _ _ _ He E) as (-> & Hf & Hh). rewrite filter_canon by done.
    pose proof (Hsub _ Hh) as Hs. destruct (List.filter _ handlers) as [|h hs]; [done|].
    cbn [map]. f_equal. change (canon h :: map canon hs) with (map canon (h :: hs)).
    by apply canon_with_handlers.
  - cbn [map]. by rewrite canon_idem.
Qed.
