(* ===== verification/HookInstallLaws.v ===== *)
(** * What becomes of a configuration

    Each operation described by what it does to the views of an event's
    entries, and what follows for a whole change: it keeps every other hook, it
    settles, and the status says what was done last. *)
From S2P Require Import Prelude JsNum JsDate JsValue Text Json JsonText ReadBack Documents Files HookCommand HookCommandLaws HookInstall HookViews.
Local Open Scope string_scope.
Local Open Scope Z_scope.
Local Open Scope list_scope.
Local Open Scope js_scope.

(** ** Lists of handlers *)

(** The first of the program's handlers becomes the desired one, the rest go. *)
Section Activity.
Variables (agent : AgentId) (event : string) (desired : jsval).
Notation act := (managedActivityHandler agent event).
Hypothesis desired_act : act desired = true.

Lemma activity_uninstall found l :
  walk (activity_step agent event uninstall desired) found l =
  (List.filter (fun h => negb (act h)) l, found).
Proof.
  induction l as [|h l IH]; [done|]. cbn [walk List.filter]. unfold activity_step at 1.
  destruct (act h); cbn [negb orb]; [rewrite bool_decide_true by done; cbn [orb]|]; by rewrite IH.
Qed.

Lemma activity_found action found l :
  action = install -> (walk (activity_step agent event action desired) found l).2 = found || existsb act l.
Proof.
  intros ->. revert found. induction l as [|h l IH]; intros found; [by rewrite orb_false_r|].
  cbn [walk existsb]. unfold activity_step at 1. rewrite bool_decide_false by done.
  destruct (act h); cbn [negb orb].
  - destruct found; cbn [orb]; specialize (IH true);
      destruct (walk _ true l); cbn [snd] in *; by rewrite IH.
  - specialize (IH found). destruct (walk _ found l). cbn [snd] in *. by rewrite IH.
Qed.

Lemma activity_mine found l :
  List.filter act (walk (activity_step agent event install desired) found l).1 =
  if negb found && existsb act l then [desired] else [].
Proof.
  revert found. induction l as [|h l IH]; intros found; [by rewrite andb_false_r|].
  cbn [walk existsb]. unfold activity_step at 1. rewrite bool_decide_false by done.
  destruct (act h) eqn:Hh; cbn [negb orb].
  - destruct found; cbn [orb andb]; specialize (IH true); destruct (walk _ true l); cbn [fst] in *.
    + done.
    + cbn [app List.filter]. by rewrite desired_act, IH.
  - specialize (IH found). destruct (walk _ found l). cbn [fst] in *. cbn [app List.filter]. by rewrite Hh, IH.
Qed.

(** Where one is there already, as it should be, nothing changes. *)
Definition settled_from (found : bool) (l : list jsval) : Prop :=
  List.filter act l = [] \/
  found = false /\ exists h, List.filter act l = [h] /\ canon h = canon desired.

Lemma existsb_filter l : existsb act l = negb (bool_decide (List.filter act l = [])).
Proof.
  induction l as [|h l IH]; [done|]. cbn [existsb List.filter]. destruct (act h); [done|]. exact IH.
Qed.

Lemma settled_app found l k :
  settled_from found (l ++ k) ->
  settled_from found l /\ settled_from (found || existsb act l) k.
Proof.
  unfold settled_from. rewrite List.filter_app, existsb_filter.
  intros [[-> ->]%app_eq_nil|(-> & h & E & Hc)]; [split; by left|].
  destruct (List.filter act l) as [|h' l']; cbn in E.
  - split; [by left|]. right. split; [done|]. by exists h.
  - injection E as -> [-> ->]%app_eq_nil. split; [right; split; [done|]; by exists h|by left].
Qed.

Lemma activity_settled found l :
  settled_from found l ->
  map canon (walk (activity_step agent event install desired) found l).1 = map canon l.
Proof.
  revert found. induction l as [|h l IH]; intros found Hs; [done|].
  destruct (settled_app found [h] l Hs) as [Hh Hl]. cbn [walk]. unfold activity_step at 1.
  rewrite bool_decide_false by done. unfold settled_from in Hh. cbn [existsb List.filter] in *.
  destruct (act h) eqn:Ha; cbn [negb orb].
  - destruct Hh as [Hh|(-> & h' & [= <-] & Hc)]; [done|]. cbn [orb] in *.
    specialize (IH true Hl). destruct (walk _ true l). cbn [fst map app] in *. by rewrite IH, Hc.
  - rewrite !orb_false_r in Hl. specialize (IH found Hl). destruct (walk _ found l). cbn [fst map app] in *.
    by rewrite IH.
Qed.

Lemma activity_settled_groups found entries :
  settled_from found (flat_map handlers_of entries) -> forallb solid_entry entries = true ->
  Forall document entries -> document desired ->
  map canon (walk (group_step (activity_step agent event install desired)) found entries).1 = map canon entries.
Proof.
  intros Hs Hsolid Hd Hdes. revert found Hs. induction Hd as [|entry entries He Hes IH]; intros found Hs; [done|].
  cbn [flat_map forallb] in *. apply andb_true_iff in Hsolid as [Hse Hsolid]. specialize (IH Hsolid).
  apply settled_app in Hs as [Hs1 Hs2]. cbn [walk]. unfold group_step at 1.
  destruct (group_handlers entry) as [[fs handlers]|] eqn:E.
  - assert (Hh : handlers_of entry = handlers) by (unfold handlers_of; by rewrite E). rewrite Hh in *.
    pose proof (activity_settled found handlers Hs1) as Hw.
    pose proof (activity_found install found handlers eq_refl) as Hf.
    assert (Hdw : Forall document (walk (activity_step agent event install desired) found handlers).1).
    { apply walk_forall; [|by eapply (group_document entry)]. intros f h Hh'. unfold activity_step.
      destruct (negb _); [by constructor|]. destruct (_ || f); by repeat constructor. }
    destruct (walk _ found handlers) as [handlers' found']. cbn [fst snd] in *. subst found'.
    specialize (IH _ Hs2). destruct (walk _ (found || _) entries). cbn [fst map] in *.
    destruct handlers' as [|h' handlers'].
    { destruct handlers; [|done]. unfold solid_entry in Hse. by rewrite E in Hse. }
    cbn [app map]. rewrite IH. f_equal. destruct (group_document _ _ _ He E) as (-> & Hf & Hhs).
    unfold with_handlers. apply canon_ext; [by apply document_with_handlers|done|].
    intros k. rewrite get_set. case_decide as Hk; [|done]. subst k. cbn [group_handlers] in E.
    destruct (get fs "hooks"); try done. injection E as ->. unfold canon_field. cbn [is_undef].
    by rewrite !canon_array, Hw.
  - unfold handlers_of in Hs2 at 1. rewrite E in Hs2. cbn [existsb] in Hs2. rewrite orb_false_r in Hs2.
    specialize (IH _ Hs2). destruct (walk _ found entries). cbn [fst map app] in *. by rewrite IH.
Qed.
End Activity.

(** It hides from every view that passes over such handlers. *)
Lemma activity_hidden agent event desired action p :
  (action = install -> managedActivityHandler agent event desired = true) ->
  (forall h, managedActivityHandler agent event h = true -> p h = true) ->
  hidden p (activity_step agent event action desired).
Proof.
  intros Hdes Hp found h. unfold activity_step.
  destruct (managedActivityHandler agent event h) eqn:Hh; [|done]. cbn [negb].
  assert (List.filter (fun h => negb (p h)) [h] = []) as -> by (cbn; by rewrite (Hp h Hh)).
  destruct action; [rewrite bool_decide_false by done|by rewrite bool_decide_true].
  destruct found; [done|]. cbn [orb fst List.filter]. by rewrite (Hp desired (Hdes eq_refl)).
Qed.

Section Budget.
Variables (agent : AgentId) (desired : jsval).
Notation managed := (fun h => managedHandler h agent).
Hypothesis desired_managed : managedHandler desired agent = true.

Lemma install_mine found changed l :
  List.filter managed (walk (install_step agent desired) (found, changed) l).1 =
    (if negb found && existsb managed l then [desired] else []) /\
  (walk (install_step agent desired) (found, changed) l).2.1 = found || existsb managed l.
Proof.
  revert found changed. induction l as [|h l IH]; intros found changed.
  { by rewrite andb_false_r, orb_false_r. }
  cbn [walk existsb]. unfold install_step at 1 3. destruct (managedHandler h agent) eqn:Hh; cbn [negb orb].
  - destruct found; cbn [orb andb negb].
    + destruct (IH true true) as [IH1 IH2]. destruct (walk _ (true, true) l). cbn [fst snd app] in *. by rewrite IH1, IH2.
    + set (c := changed || _). destruct (IH true c) as [IH1 IH2]. destruct (walk _ (true, c) l). cbn [fst snd app] in *.
      cbn [List.filter]. by rewrite desired_managed, IH1, IH2.
  - destruct (IH found changed) as [IH1 IH2]. destruct (walk _ (found, changed) l). cbn [fst snd app] in *.
    cbn [List.filter]. by rewrite Hh, IH1, IH2.
Qed.

(** What [changed] means. *)
Lemma install_unchanged found changed l :
  (walk (install_step agent desired) (found, changed) l).2 = (true, false) ->
  changed = false /\
  if found then List.filter managed l = []
  else exists h, List.filter managed l = [h] /\ canonicalJson h = canonicalJson desired.
Proof.
  revert found changed. induction l as [|h l IH]; intros found changed; [by intros [= -> ->]|].
  cbn [walk List.filter]. unfold install_step at 1. destruct (managedHandler h agent) eqn:Hh; cbn [negb].
  - destruct found.
    + specialize (IH true true). destruct (walk _ (true, true) l). intros E. by destruct (IH E).
    + set (c := changed || _). specialize (IH true c). destruct (walk _ (true, c) l). intros E.
      destruct (IH E) as [Hc ->]. unfold c in Hc. apply orb_false_iff in Hc as [-> Hc]. split; [done|].
      exists h. split; [done|]. apply negb_false_iff in Hc. by apply bool_decide_eq_true in Hc.
  - specialize (IH found changed). destruct (walk _ (found, changed) l). intros E. by apply IH.
Qed.

Lemma install_quiet found (l : list jsval) :
  (if found : bool then List.filter managed l = []
   else exists h : jsval, List.filter managed l = [h] /\ canonicalJson h = canonicalJson desired) ->
  (walk (install_step agent desired) (found, false) l).2 = (true, false).
Proof.
  revert found. induction l as [|h l IH]; intros found Hl; [destruct found; [done|by destruct Hl as (? & ? & _)]|].
  cbn [walk List.filter] in *. unfold install_step at 1. destruct (managedHandler h agent) eqn:Hh; cbn [negb].
  - destruct found; [done|]. destruct Hl as (h' & [= <- Hl] & Hc). rewrite bool_decide_true by done.
    cbn [negb orb]. specialize (IH true Hl). by destruct (walk _ (true, false) l).
  - specialize (IH found Hl). by destruct (walk _ (found, false) l).
Qed.

Lemma install_hidden p :
  (forall h, managedHandler h agent = true -> p h = true) -> hidden p (install_step agent desired).
Proof.
  intros Hp [found changed] h. unfold install_step. destruct (managedHandler h agent) eqn:Hh; [|done]. cbn [negb].
  assert (List.filter (fun h => negb (p h)) [h] = []) as -> by (cbn; by rewrite (Hp h Hh)).
  destruct found; [done|]. cbn. by rewrite (Hp desired desired_managed).
Qed.

Lemma uninstall_walk removed l :
  walk (uninstall_step agent) removed l =
  (List.filter (fun h => negb (managedHandler h agent)) l, removed || existsb managed l).
Proof.
  revert removed. induction l as [|h l IH]; intros removed; [by rewrite orb_false_r|].
  cbn [walk List.filter existsb]. unfold uninstall_step at 1.
  destruct (managedHandler h agent); cbn [negb orb]; rewrite IH; by rewrite ?orb_true_r.
Qed.

Lemma uninstall_hidden p :
  (forall h, managedHandler h agent = true -> p h = true) -> hidden p (uninstall_step agent).
Proof.
  intros Hp removed h. unfold uninstall_step. destruct (managedHandler h agent) eqn:Hh; [|done].
  cbn. by rewrite (Hp h Hh).
Qed.
End Budget.

Lemma filter_filter_none {A} (p : A -> bool) l : List.filter p (List.filter (fun h => negb (p h)) l) = [].
Proof.
  induction l as [|h l IH]; [done|]. cbn [List.filter]. destruct (p h) eqn:E; cbn [negb]; [done|].
  cbn [List.filter]. by rewrite E.
Qed.

Lemma filter_none_all {A} (p : A -> bool) l :
  List.filter p l = [] -> List.filter (fun h => negb (p h)) l = l.
Proof.
  induction l as [|h l IH]; [done|]. cbn [List.filter]. destruct (p h); [done|]. cbn [negb].
  intros H. by rewrite IH.
Qed.

(** ** Joining the group of the budget hook *)

Lemma group_new h : group_handlers (new_group h) = Some ([("hooks", JArr [h])], [h]).
Proof. done. Qed.

Lemma handlers_group entry fs hs : group_handlers entry = Some (fs, hs) -> handlers_of entry = hs.
Proof. unfold handlers_of. by intros ->. Qed.

Lemma handlers_with fs hs : handlers_of (with_handlers fs hs) = hs.
Proof. eapply handlers_group, group_with_handlers. Qed.

Section Push.
Variables (agent : AgentId) (desired : jsval).

Lemma budget_group_handlers entry g : budget_group agent entry = Some g -> group_handlers entry = Some g.
Proof.
  unfold budget_group. destruct (group_handlers entry) as [[fs hs]|]; [|done].
  destruct (is_undef _ && _); [|done]. done.
Qed.

Lemma others_push p groups :
  p desired = true -> others false p (push_to_budget_group agent desired groups) = others false p groups.
Proof.
  intros Hp. cbn [others]. induction groups as [|entry groups IH].
  - cbn [push_to_budget_group flat_map]. unfold strip. rewrite group_new. cbn [List.filter].
    by rewrite Hp.
  - cbn [push_to_budget_group]. destruct (budget_group agent entry) as [[fs hs]|] eqn:E.
    + apply budget_group_handlers in E. cbn [flat_map]. f_equal. unfold strip. rewrite E, group_with_handlers.
      rewrite List.filter_app. cbn [List.filter]. rewrite Hp. cbn [negb]. rewrite app_nil_r.
      destruct (List.filter _ hs); [done|]. by rewrite with_handlers_again.
    + cbn [flat_map]. by rewrite IH.
Qed.

(** The handlers after it are those before, with the new one among them. *)
Lemma mine_push q groups :
  exists l k, flat_map handlers_of groups = l ++ k /\
    mine false q (push_to_budget_group agent desired groups) = List.filter q (l ++ desired :: k).
Proof.
  unfold mine. induction groups as [|entry groups (l & k & E & Hm)]; [by exists [], []|].
  cbn [push_to_budget_group]. destruct (budget_group agent entry) as [[fs hs]|] eqn:Eb.
  - apply budget_group_handlers in Eb. exists hs, (flat_map handlers_of groups). cbn [flat_map].
    rewrite (handlers_group _ _ _ Eb), handlers_with. split; [done|]. by rewrite <- app_assoc.
  - exists (handlers_of entry ++ l), k. cbn [flat_map]. rewrite E, app_assoc. split; [done|].
    rewrite List.filter_app, Hm, <- app_assoc. by rewrite (List.filter_app q (handlers_of entry)).
Qed.

Lemma solid_push groups :
  solid false groups = true -> solid false (push_to_budget_group agent desired groups) = true.
Proof.
  cbn [solid orb]. induction groups as [|entry groups IH]; [done|]. cbn [push_to_budget_group forallb].
  intros [He Hg]%andb_true_iff. destruct (budget_group agent entry) as [[fs hs]|] eqn:Eb; cbn [forallb].
  - rewrite Hg, andb_true_r. unfold solid_entry. rewrite group_with_handlers. by destruct hs.
  - by rewrite He, IH.
Qed.

Lemma document_push groups :
  document desired -> Forall document groups ->
  Forall document (push_to_budget_group agent desired groups).
Proof.
  intros Hd. induction 1 as [|entry groups He Hg IH]; cbn [push_to_budget_group].
  - constructor; [|done]. apply document_object. split; [apply NoDup_singleton|].
    constructor; [|done]. apply document_array. by constructor.
  - destruct (budget_group agent entry) as [[fs hs]|] eqn:Eb; [|by constructor].
    apply budget_group_handlers in Eb. destruct (group_document _ _ _ He Eb) as (-> & Hf & Hh).
    constructor; [|done]. apply document_with_handlers; [done|]. apply Forall_app. by repeat constructor.
Qed.
End Push.

Lemma assoc_set_there {V} (k : string) (v : V) m : assoc_get k m = Some v -> assoc_set k v m = m.
Proof.
  induction m as [|[k' w] m IH]; [done|]. cbn [assoc_get assoc_set]. case_decide as Hk.
  - subst. by intros [= ->].
  - intros H. by rewrite IH.
Qed.

(** ** The entries of one event *)

Lemma fst_walk_documents {S} (step : S -> jsval -> list jsval * S) s entries :
  (forall s h, document h -> Forall document (step s h).1) -> Forall document entries ->
  Forall document (walk (group_step step) s entries).1.
Proof.
  intros Hstep. apply walk_forall. intros s' entry He. unfold group_step.
  destruct (group_handlers entry) as [[fs hs]|] eqn:E; [|by constructor].
  destruct (group_document _ _ _ He E) as (-> & Hf & Hh).
  pose proof (walk_forall document step s' hs Hstep Hh) as Hw.
  destruct (walk step s' hs) as [[|h hs'] t]; [done|]. constructor; [|done]. by apply document_with_handlers.
Qed.

Lemma installing b : bool_decide (install = install) && b = b.
Proof. done. Qed.

Lemma removing b : bool_decide (uninstall = install) && b = false.
Proof. done. Qed.

Section Event.
Variables (agent : AgentId) (action : Action) (o : HookInstallOptions) (event : string).
Notation cursor := (bool_decide (agent = id_cursor)).
Notation act := (managedActivityHandler agent event).
Notation desired := (activityHandler agent event o).
Hypothesis desired_act : action = install -> act desired = true.
Hypothesis desired_document : document desired.

Lemma update_others p entries :
  (forall h, act h = true -> p h = true) ->
  others cursor p (update_entries agent action o event entries) = others cursor p entries.
Proof.
  intros Hp. pose proof (activity_hidden agent event desired action p desired_act Hp) as Hh.
  unfold update_entries. destruct (bool_decide_reflect (agent = id_cursor)).
  - pose proof (hidden_list p _ false entries Hh) as Hw. destruct (walk _ false entries) as [updated found].
    cbn [fst] in Hw. destruct action; cbn; [|done]. destruct found; cbn [negb]; [done|].
    change (others true p (updated ++ [desired]) = others true p entries).
    rewrite others_app, Hw. cbn [others List.filter].
    rewrite (Hp _ (desired_act eq_refl)). cbn [negb]. by rewrite app_nil_r.
  - pose proof (hidden_groups p _ false entries Hh) as Hw.
    destruct (walk (group_step _) false entries) as [updated found]. cbn [fst] in Hw.
    destruct action; [rewrite installing|by rewrite removing]. destruct found; cbn [negb]; [done|].
    change (others false p (push_to_budget_group agent desired updated) = others false p entries).
    rewrite others_push; [done|]. by apply Hp, desired_act.
Qed.

(** Exactly one handler of its own after an installation, none after a removal. *)
Lemma update_mine entries :
  mine cursor act (update_entries agent action o event entries) =
  match action with install => [desired] | uninstall => [] end.
Proof.
  unfold update_entries, mine. destruct (bool_decide_reflect (agent = id_cursor)).
  - destruct action.
    + pose proof (activity_mine agent event desired (desired_act eq_refl) false entries) as Hm.
      pose proof (activity_found agent event desired install false entries eq_refl) as Hf.
      destruct (walk _ false entries) as [updated found]. cbn [fst snd orb andb negb] in *. subst found.
      rewrite installing. destruct (existsb act entries); cbn [negb]; [done|].
      rewrite List.filter_app, Hm. cbn [List.filter]. by rewrite desired_act.
    + rewrite activity_uninstall, removing. apply filter_filter_none.
  - destruct (handlers_walk (activity_step agent event action desired) false entries) as [H1 H2].
    destruct (walk (group_step _) false entries) as [updated found]. cbn [fst snd] in *.
    set (hs := flat_map handlers_of entries) in *. destruct action.
    + rewrite (activity_found agent event desired install false hs eq_refl) in H2. cbn [orb] in H2. subst found.
      pose proof (activity_mine agent event desired (desired_act eq_refl) false hs) as Hm.
      rewrite <- H1 in Hm. cbn [negb andb] in Hm. rewrite installing.
      destruct (existsb act hs); cbn [negb]; [done|].
      destruct (mine_push agent desired act updated) as (l & k & E & Hp). unfold mine in Hp. rewrite Hp.
      rewrite E in Hm. rewrite List.filter_app in Hm |- *. apply app_eq_nil in Hm as [-> Hk].
      cbn [List.filter]. rewrite desired_act by done. by rewrite Hk.
    + rewrite activity_uninstall in H1. cbn [fst] in H1. rewrite removing, H1. apply filter_filter_none.
Qed.

(** Handlers of the other kind stay. *)
Lemma update_budget entries :
  agent <> id_cursor ->
  mine false (fun h => managedHandler h agent) (update_entries agent action o event entries) =
  mine false (fun h => managedHandler h agent) entries.
Proof.
  intros Hc. unfold update_entries. rewrite bool_decide_false by done.
  destruct (handlers_walk (activity_step agent event action desired) false entries) as [H1 _].
  destruct (walk (group_step _) false entries) as [updated found]. cbn [fst] in *.
  assert (Hexcl : forall h, act h = true -> managedHandler h agent = false).
  { intros h Ha. destruct (managedHandler h agent) eqn:E; [|done].
    by rewrite (handlers_exclusive h agent agent event E) in Ha. }
  assert (Hw : mine false (fun h => managedHandler h agent) updated =
               mine false (fun h => managedHandler h agent) entries).
  { unfold mine. rewrite H1. apply walk_view; [done|apply List.filter_app|].
    intros f h _. unfold activity_step. destruct (act h) eqn:Ha; [|done]. cbn [negb List.filter].
    rewrite (Hexcl h Ha). destruct action; [rewrite bool_decide_false by done|by rewrite bool_decide_true].
    destruct f; [done|]. cbn [orb fst List.filter]. by rewrite (Hexcl desired (desired_act eq_refl)). }
  destruct action; [rewrite installing|by rewrite removing]. destruct found; cbn [negb]; [done|].
  destruct (mine_push agent desired (fun h => managedHandler h agent) updated) as (l & k & E & ->).
  rewrite List.filter_app. cbn [List.filter]. rewrite (Hexcl desired (desired_act eq_refl)).
  rewrite <- List.filter_app, <- E. exact Hw.
Qed.

Lemma update_solid entries : solid cursor (update_entries agent action o event entries) = true.
Proof.
  destruct (bool_decide_reflect (agent = id_cursor)) as [|Hc]; [done|].
  unfold update_entries. rewrite bool_decide_false by done.
  pose proof (solid_groups (activity_step agent event action desired) false entries) as Hs.
  destruct (walk (group_step _) false entries) as [updated found]. cbn [fst] in Hs.
  destruct (bool_decide (action = install) && negb found); [|done]. by apply solid_push.
Qed.

Lemma update_documents entries :
  Forall document entries -> Forall document (update_entries agent action o event entries).
Proof.
  intros Hd. assert (Hstep : forall f h, document h ->
    Forall document (activity_step agent event action desired f h).1).
  { intros f h Hh. unfold activity_step. destruct (negb _); [by constructor|].
    destruct (_ || f); [apply Forall_nil_2|by apply Forall_singleton]. }
  unfold update_entries. destruct (bool_decide_reflect (agent = id_cursor)).
  - pose proof (walk_forall document _ false entries Hstep Hd) as Hw.
    destruct (walk _ false entries) as [updated found]. cbn [fst] in Hw.
    destruct (bool_decide (action = install) && negb found); [|done].
    apply Forall_app. split; [done|]. by apply Forall_singleton.
  - pose proof (fst_walk_documents _ false entries Hstep Hd) as Hw.
    destruct (walk (group_step _) false entries) as [updated found]. cbn [fst] in Hw.
    destruct (bool_decide (action = install) && negb found); [|done]. by apply document_push.
Qed.

(** What a change leaves, it leaves as it is when repeated. *)
Definition settled (entries : list jsval) : Prop :=
  solid cursor entries = true /\
  match action with
  | install => exists h, mine cursor act entries = [h] /\ canon h = canon desired
  | uninstall => mine cursor act entries = []
  end.

Lemma update_settled entries :
  settled entries -> Forall document entries ->
  map canon (update_entries agent action o event entries) = map canon entries.
Proof.
  intros [Hs Hm] Hd. unfold update_entries, mine in *.
  destruct (bool_decide_reflect (agent = id_cursor)).
  - destruct action.
    + destruct Hm as (h & Hm & Hc).
      assert (Hf : existsb act entries = true).
      { rewrite existsb_filter, Hm. done. }
      pose proof (activity_found agent event desired install false entries eq_refl) as Hw.
      assert (Hst : settled_from agent event desired false entries) by (right; split; [done|]; by exists h).
      pose proof (activity_settled agent event desired false entries Hst) as He.
      destruct (walk _ false entries) as [updated found]. cbn [fst snd] in *.
      rewrite Hf in Hw. subst found. by rewrite bool_decide_true.
    + rewrite activity_uninstall. cbn. by rewrite filter_none_all.
  - destruct (handlers_walk (activity_step agent event action desired) false entries) as [_ H2].
    set (hs := flat_map handlers_of entries) in *. cbn [solid orb] in Hs. destruct action.
    + destruct Hm as (h & Hm & Hc).
      assert (Hf : existsb act hs = true) by (by rewrite existsb_filter, Hm).
      rewrite (activity_found agent event desired install false hs eq_refl), Hf in H2.
      assert (Hst : settled_from agent event desired false hs) by (right; split; [done|]; by exists h).
      pose proof (activity_settled_groups agent event desired false entries Hst Hs Hd desired_document) as He.
      destruct (walk (group_step _) false entries) as [updated found]. cbn [fst snd] in *.
      subst found. by rewrite bool_decide_true.
    + assert (Hw : (walk (group_step (activity_step agent event uninstall desired)) false entries).1 = entries).
      { clear H2. subst hs. induction entries as [|entry entries IH]; [done|]. cbn [walk forallb flat_map] in *.
        apply andb_true_iff in Hs as [Hse Hs]. rewrite List.filter_app in Hm.
        apply app_eq_nil in Hm as [Hm1 Hm2]. apply Forall_cons in Hd as [He Hd].
        unfold group_step at 1. destruct (group_handlers entry) as [[fs hs]|] eqn:E.
        - rewrite (handlers_group _ _ _ E) in Hm1. rewrite activity_uninstall, filter_none_all by done.
          specialize (IH Hs Hm2 Hd). destruct (walk _ false entries). cbn [fst] in *. subst.
          destruct hs as [|h hs]; [unfold solid_entry in Hse; by rewrite E in Hse|]. cbn [app]. f_equal.
          destruct entry as [| | | | | |gs]; try done. cbn [group_handlers] in E. unfold with_handlers.
          destruct (get gs "hooks") eqn:Eg; try done. injection E as <- <-. f_equal.
          apply assoc_set_there. unfold get in Eg. destruct (assoc_get "hooks" gs); [|done]. by rewrite <- Eg.
        - specialize (IH Hs Hm2 Hd). destruct (walk _ false entries). cbn [fst] in *. by subst. }
      destruct (walk (group_step _) false entries). cbn in *. by subst.
Qed.
End Event.
