(* ===== verification/HookChange.v ===== *)
(** * Whole changes of a configuration

    A change of a JSON configuration is one or two operations, each of which
    prints its result for the next to parse. [keeps] is what none of them may
    touch; [installed_in] and [removed_from] are what they leave. *)
From S2P Require Import Prelude JsNum JsDate JsValue Text Json JsonText ReadBack Documents Files HookCommand HookCommandLaws HookInstall HookViews HookInstallLaws.
Local Open Scope string_scope.
Local Open Scope Z_scope.
Local Open Scope list_scope.
Local Open Scope js_scope.

(** ** Roots *)

Definition hooks_of (root : list (string * jsval)) : list (string * jsval) :=
  fields_or_empty (get root "hooks").
Definition entries_of (root : list (string * jsval)) (event : string) : list jsval :=
  items_or_empty (get (hooks_of root) event).

Definition lifecycle (agent : AgentId) : list string := default [] (ACTIVITY_HOOK_EVENTS agent).

Lemma parseRoot_document original root : parseRoot original = Some root -> document (JObj root).
Proof.
  unfold parseRoot. destruct original as [t|]; [|intros [= <-]; by repeat constructor].
  destruct (negb (not_blank t)); [intros [= <-]; by repeat constructor|].
  destruct (json_parse t) as [v|] eqn:E; [|done]. apply json_parse_document in E.
  by destruct v; try done; intros [= <-].
Qed.

Lemma parse_print root :
  document (JObj root) -> parseRoot (Some (print_root root)) = Some (canon_fields root).
Proof.
  intros Hd. unfold print_root. rewrite canonicalJson_text by done. unfold default, id, parseRoot.
  assert (Hb : not_blank (canonical_text (JObj root) +:+ LINE_END) = true) by done.
  rewrite Hb. cbn [negb]. rewrite json_parse_line, canon_object by done. done.
Qed.

Lemma document_hooks root : document (JObj root) -> document (JObj (hooks_of root)).
Proof.
  intros Hd. unfold hooks_of, fields_or_empty.
  destruct (document_get root "hooks" Hd) as [->|H]; [by repeat constructor|].
  destruct (get root "hooks"); try (by repeat constructor). done.
Qed.

Lemma document_items fs k : document (JObj fs) -> Forall document (items_or_empty (get fs k)).
Proof.
  intros Hd. destruct (document_get fs k Hd) as [->|H]; [constructor|].
  destruct (get fs k); try constructor. by apply document_array.
Qed.

Lemma document_entries root event : document (JObj root) -> Forall document (entries_of root event).
Proof. intros Hd. by apply document_items, document_hooks. Qed.

(** Roots of one canonical text. *)
Lemma hooks_canon root :
  document (JObj root) -> fields_or_empty (canon_field (get root "hooks")) = canon_fields (hooks_of root).
Proof.
  intros Hd. unfold hooks_of. destruct (document_get root "hooks" Hd) as [->|H]; [done|].
  destruct (get root "hooks") as [| | |x| |l|fs]; try done.
  - unfold canon_field, canon. cbn [sortDeep plain is_undef]. by destruct (is_finite x).
  - unfold canon_field. cbn [is_undef]. by rewrite canon_object.
Qed.

Lemma items_canon v : document v \/ v = JUndef -> items_or_empty (canon_field v) = map canon (items_or_empty v).
Proof.
  intros [Hd | ->]; [|done]. destruct v as [| | |x| |l|fs]; try done.
  - unfold canon_field, canon. cbn [sortDeep plain is_undef]. by destruct (is_finite x).
  - unfold canon_field. cbn [is_undef]. by rewrite canon_array.
Qed.

Section Same.
Variables (root root' : list (string * jsval)).
Hypothesis (Hd : document (JObj root)) (Hd' : document (JObj root')).
Hypothesis Hsame : canon (JObj root) = canon (JObj root').

Lemma same_fields : canon_fields root = canon_fields root'.
Proof. rewrite !canon_object in Hsame by done. congruence. Qed.

Lemma same_get k : canon_field (get root k) = canon_field (get root' k).
Proof. by rewrite <- !get_canon, same_fields. Qed.

Lemma same_hooks event : canon_field (get (hooks_of root) event) = canon_field (get (hooks_of root') event).
Proof.
  rewrite <- !get_canon by (by apply document_hooks). by rewrite <- !hooks_canon, same_get.
Qed.

Lemma same_entries event : map canon (entries_of root event) = map canon (entries_of root' event).
Proof.
  unfold entries_of. assert (Hdoc : forall r e, document (JObj r) ->
    document (get (hooks_of r) e) \/ get (hooks_of r) e = JUndef).
  { intros r e H. destruct (document_get _ e (document_hooks r H)); [by right|by left]. }
  rewrite <- !items_canon by auto. by rewrite same_hooks.
Qed.
End Same.

(** Views of entries that agree canonically. *)
Lemma others_same cursor p l k :
  respects p -> Forall document l -> Forall document k -> map canon l = map canon k ->
  map canon (others cursor p l) = map canon (others cursor p k).
Proof. intros Hp Hl Hk E. by rewrite <- (others_canon cursor p l), <- (others_canon cursor p k), E. Qed.

Lemma mine_same cursor p l k :
  respects p -> Forall document l -> Forall document k -> map canon l = map canon k ->
  map canon (mine cursor p l) = map canon (mine cursor p k).
Proof. intros Hp Hl Hk E. by rewrite <- (mine_canon cursor p l), <- (mine_canon cursor p k), E. Qed.

Lemma solid_same cursor l k :
  Forall document l -> Forall document k -> map canon l = map canon k -> solid cursor l = solid cursor k.
Proof. intros Hl Hk E. by rewrite <- (solid_canon cursor l), <- (solid_canon cursor k), E. Qed.

(** ** What a change may not touch *)

Section Keeps.
Variables (agent : AgentId) (target : AgentTarget).
Notation cursor := (bool_decide (agent = id_cursor)).

(** Muse and Cursor have activity hooks alone. *)
Definition has_budget : bool :=
  negb (bool_decide (agent = id_muse)) && negb (bool_decide (agent = id_cursor)).

(** A handler of the program under an event. *)
Definition owned (event : string) (h : jsval) : bool :=
  managedActivityHandler agent event h ||
  has_budget && str_eqb event (tg_event target) && managedHandler h agent.

(** Everything else: the other settings, the other events, and in each event of
    the lifecycle every handler of others, in its group and in its place. *)
Record keeps (root root' : list (string * jsval)) : Prop := {
  keeps_settings k :
    k <> "hooks" -> k <> "version" \/ agent <> id_cursor ->
    canon_field (get root' k) = canon_field (get root k);
  keeps_events event :
    event ∉ lifecycle agent ->
    canon_field (get (hooks_of root') event) = canon_field (get (hooks_of root) event);
  keeps_others event :
    event ∈ lifecycle agent ->
    map canon (others cursor (owned event) (entries_of root' event)) =
    map canon (others cursor (owned event) (entries_of root event)) }.

#[export] Instance keeps_preorder : PreOrder keeps.
Proof.
  split.
  - intros root. by constructor.
  - intros r1 r2 r3 [a1 b1 c1] [a2 b2 c2].
    constructor; intros; [rewrite a2, a1|rewrite b2, b1|rewrite c2, c1]; done.
Qed.

Lemma owned_respects event : respects (owned event).
Proof.
  intros h Hd. unfold owned. rewrite (managedActivity_respects agent event h Hd).
  by rewrite (managedHandler_respects agent h Hd).
Qed.

Lemma same_keeps root root' :
  document (JObj root) -> document (JObj root') -> canon (JObj root) = canon (JObj root') ->
  keeps root root'.
Proof.
  intros Hd Hd' E. constructor.
  - intros k _ _. symmetry. by apply same_get.
  - intros event _. symmetry. by apply same_hooks.
  - intros event _. apply others_same; [apply owned_respects|by apply document_entries..|].
    symmetry. by apply same_entries.
Qed.

(** New hooks under one root. *)
Lemma keeps_hooks root hooks :
  (forall event, event ∉ lifecycle agent -> canon_field (get hooks event) = canon_field (get (hooks_of root) event)) ->
  (forall event, event ∈ lifecycle agent ->
    map canon (others cursor (owned event) (items_or_empty (get hooks event))) =
    map canon (others cursor (owned event) (entries_of root event))) ->
  keeps root (assoc_set "hooks" (JObj hooks) root).
Proof.
  intros He Ho. assert (Hh : hooks_of (assoc_set "hooks" (JObj hooks) root) = hooks).
  { unfold hooks_of. by rewrite get_set, decide_True. }
  constructor.
  - intros k Hk _. by rewrite get_set, decide_False.
  - intros event Hev. rewrite Hh. by apply He.
  - intros event Hev. unfold entries_of at 1. rewrite Hh. by apply Ho.
Qed.

End Keeps.

(** ** The activity hooks of a root *)

(** The root as changed, and the version of a Cursor file that is accepted. *)
Definition root_after (agent : AgentId) (action : Action) (root hooks : list (string * jsval)) :
    list (string * jsval) :=
  let changed := assoc_set "hooks" (JObj hooks) root in
  if bool_decide (agent = id_cursor) && bool_decide (action = install)
  then assoc_set "version" (JNum (int 1)) changed else changed.

Definition version_accepted (agent : AgentId) (root : list (string * jsval)) : bool :=
  negb (bool_decide (agent = id_cursor) && negb (is_undef (get root "version")) &&
        negb (is_number (get root "version") 1)).

Section Activities.
Variables (agent : AgentId) (action : Action) (o : HookInstallOptions).
Notation cursor := (bool_decide (agent = id_cursor)).
Notation changed_root := (root_after agent action).
Notation version_ok := (version_accepted agent).

Definition updated (event : string) (entries : list jsval) : list jsval :=
  update_entries agent action o event entries.

Definition listed (hooks : list (string * jsval)) (event : string) : bool :=
  is_undef (get hooks event) || is_array (get hooks event).

(** An event that is not there is not added to hold nothing. *)
Definition event_value (before : jsval) (entries : list jsval) : jsval :=
  if is_undef before && bool_decide (entries = []) then JUndef else JArr entries.

Lemma items_event_value before entries : items_or_empty (event_value before entries) = entries.
Proof. unfold event_value. destruct (is_undef before), entries; done. Qed.

Lemma update_event_spec hooks event hooks' :
  update_event agent action o hooks event = Some hooks' ->
  listed hooks event = true /\ listed hooks' event = true /\
  get hooks' event = event_value (get hooks event) (updated event (items_or_empty (get hooks event))) /\
  forall k, k <> event -> get hooks' k = get hooks k.
Proof.
  unfold update_event. fold (listed hooks event). destruct (listed hooks event) eqn:Hl; [|done].
  fold (updated event (items_or_empty (get hooks event))). set (u := updated event _).
  intros [= <-]. split; [done|].
  unfold event_value. rewrite <- negb_andb, andb_comm.
  destruct (is_undef (get hooks event) && bool_decide (u = [])) eqn:Hs; cbn [negb].
  - split_and!; [done| |done]. apply andb_true_iff in Hs as [Hn _]. by destruct (get hooks event).
  - split_and!; [unfold listed; by rewrite get_set, decide_True|by rewrite get_set, decide_True|].
    intros k Hk. by rewrite get_set, decide_False.
Qed.

Lemma update_events_spec events hooks hooks' :
  NoDup events -> update_events agent action o hooks events = Some hooks' ->
  (forall event, event ∈ events ->
     listed hooks event = true /\ listed hooks' event = true /\
     get hooks' event = event_value (get hooks event) (updated event (items_or_empty (get hooks event)))) /\
  (forall k, k ∉ events -> get hooks' k = get hooks k).
Proof.
  revert hooks. induction events as [|event events IH]; intros hooks Hn; cbn [update_events].
  { intros [= <-]. split; [|done]. by intros event ?%elem_of_nil. }
  apply NoDup_cons in Hn as [Hnot Hn]. destruct (update_event _ _ _ hooks event) as [mid|] eqn:E; [|done].
  apply update_event_spec in E as (H1 & H2 & H3 & H4). intros Hrest.
  destruct (IH mid Hn Hrest) as [I1 I2]. split.
  - intros e [->|He]%elem_of_cons; [unfold listed in *; by rewrite (I2 event)|].
    destruct (I1 e He) as (J1 & J2 & J3). assert (e <> event) by (by intros ->).
    unfold listed in J1 |- *. rewrite H4 in J1, J3 by done. done.
  - intros k Hk. apply not_elem_of_cons in Hk as [Hne Hk]. rewrite I2 by done. by apply H4.
Qed.

Lemma update_events_some events hooks :
  NoDup events -> (forall event, event ∈ events -> listed hooks event = true) ->
  exists hooks', update_events agent action o hooks events = Some hooks'.
Proof.
  revert hooks. induction events as [|event events IH]; intros hooks Hn Hl; [by eexists|].
  apply NoDup_cons in Hn as [Hnot Hn]. cbn [update_events].
  destruct (update_event agent action o hooks event) as [mid|] eqn:E.
  - apply update_event_spec in E as (_ & _ & _ & H4). apply IH; [done|]. intros e He.
    unfold listed. rewrite H4 by (by intros ->). apply Hl. by right.
  - unfold update_event in E. fold (listed hooks event) in E. by rewrite (Hl event ltac:(left)) in E.
Qed.

Hypothesis desired_document : forall event, document (activityHandler agent event o).

Lemma update_event_document hooks event hooks' :
  document (JObj hooks) -> update_event agent action o hooks event = Some hooks' -> document (JObj hooks').
Proof.
  intros Hd. unfold update_event. destruct (_ || _); [|done]. intros [= <-].
  destruct (_ || _); [|done]. apply document_set; [done|]. apply document_array.
  apply update_documents; [done|]. by apply document_items.
Qed.

Lemma update_events_document events hooks hooks' :
  document (JObj hooks) -> update_events agent action o hooks events = Some hooks' -> document (JObj hooks').
Proof.
  revert hooks. induction events as [|event events IH]; intros hooks Hd; cbn [update_events].
  { by intros [= <-]. }
  destruct (update_event _ _ _ hooks event) as [mid|] eqn:E; [|done].
  apply IH. by eapply update_event_document.
Qed.

Lemma hooks_changed root hooks : hooks_of (changed_root root hooks) = hooks.
Proof.
  unfold hooks_of, root_after. destruct (cursor && _); rewrite !get_set.
  - by rewrite decide_False, decide_True.
  - by rewrite decide_True.
Qed.

Lemma changed_document root hooks :
  document (JObj root) -> document (JObj hooks) -> document (JObj (changed_root root hooks)).
Proof.
  intros Hr Hh. unfold root_after. destruct (cursor && _); repeat apply document_set; try done.
  by apply int_document.
Qed.

Lemma activityJson_spec original text events :
  ACTIVITY_HOOK_EVENTS agent = Some events ->
  activityJson original agent action o = Some (Some text) ->
  exists root hooks root',
    parseRoot original = Some root /\ version_ok root = true /\
    update_events agent action o (hooks_of root) events = Some hooks /\
    parseRoot (Some text) = Some root' /\ canon (JObj root') = canon (JObj (changed_root root hooks)).
Proof.
  intros Hev. unfold activityJson. rewrite Hev.
  assert (Hgo : forall original, match parseRoot original with Some root =>
      check is_undef (get root "hooks") || isRecord (get root "hooks");;
      check version_ok root;;
      match update_events agent action o (hooks_of root) events with Some hooks =>
        match original with
        | Some _ =>
            if bool_decide (canonicalJson (JObj root) = canonicalJson (JObj (changed_root root hooks)))
            then Some original else Some (Some (print_root (changed_root root hooks)))
        | None => Some (Some (print_root (changed_root root hooks)))
        end | None => None end | None => None end = Some (Some text) ->
    exists root hooks root',
      parseRoot original = Some root /\ version_ok root = true /\
      update_events agent action o (hooks_of root) events = Some hooks /\
      parseRoot (Some text) = Some root' /\ canon (JObj root') = canon (JObj (changed_root root hooks))).
  { clear original. intros original. destruct (parseRoot original) as [root|] eqn:Ep; [|done].
    destruct (_ || _); [|done]. destruct (version_ok root) eqn:Hv; [|done].
    destruct (update_events _ _ _ _ _) as [hooks|] eqn:Eu; [|done].
    pose proof (parseRoot_document _ _ Ep) as Hd.
    pose proof (update_events_document _ _ _ (document_hooks root Hd) Eu) as Hh.
    pose proof (changed_document root hooks Hd Hh) as Hc.
    assert (Hprint : text = print_root (changed_root root hooks) -> exists root',
      parseRoot (Some text) = Some root' /\ canon (JObj root') = canon (JObj (changed_root root hooks))).
    { intros ->. exists (canon_fields (changed_root root hooks)). split; [by apply parse_print|].
      rewrite <- canon_object by done. by apply canon_idem. }
    intros E. exists root, hooks. destruct original as [t|].
    - case_bool_decide as Hsame.
      + injection E as ->. exists root. split_and!; [done..|].
        rewrite !canonicalJson_text in Hsame by done. apply Some_inj in Hsame.
        exact (proj1 (canonical_text_eq _ _ Hd Hc) Hsame).
      + injection E as <-. destruct (Hprint eq_refl) as (r & ? & ?). by exists r.
    - injection E as <-. destruct (Hprint eq_refl) as (r & ? & ?). by exists r. }
  intros H. destruct original as [t|], action; try discriminate H;
    [exact (Hgo (Some t) H)|exact (Hgo (Some t) H)|exact (Hgo None H)].
Qed.
End Activities.

Lemma lifecycle_of agent events : ACTIVITY_HOOK_EVENTS agent = Some events -> lifecycle agent = events.
Proof. unfold lifecycle. by intros ->. Qed.

Lemma lifecycle_distinct agent : NoDup (lifecycle agent).
Proof. destruct agent; apply (bool_decide_unpack _); vm_compute; exact I. Qed.

(** ** After the activity hooks *)

Section AfterActivity.
Variables (agent : AgentId) (target : AgentTarget) (action : Action) (o : HookInstallOptions).
Notation cursor := (bool_decide (agent = id_cursor)).
Hypothesis desired_act : action = install -> forall event,
  managedActivityHandler agent event (activityHandler agent event o) = true.
Hypothesis desired_document : forall event, document (activityHandler agent event o).
Hypothesis with_lifecycle : ACTIVITY_HOOK_EVENTS agent = Some (lifecycle agent).

(** What a repetition finds: the hooks are a record, the events lists of the
    settled shape, and a Cursor file has its version. *)
Record at_rest (root : list (string * jsval)) : Prop := {
  rest_hooks : isRecord (get root "hooks") = true;
  rest_version : version_accepted agent root = true;
  rest_cursor : agent = id_cursor -> action = install -> get root "version" = JNum (int 1);
  rest_listed event : event ∈ lifecycle agent -> listed (hooks_of root) event = true;
  rest_settled event : event ∈ lifecycle agent -> settled agent action o event (entries_of root event) }.

Lemma settled_same event l k :
  Forall document l -> Forall document k -> map canon l = map canon k ->
  settled agent action o event l -> settled agent action o event k.
Proof.
  intros Hl Hk E [Hs Hm]. pose proof (managedActivity_respects agent event) as Hr.
  pose proof (mine_same cursor _ _ _ Hr Hl Hk E) as Hmine. split.
  - by rewrite <- (solid_same cursor _ _ Hl Hk E).
  - destruct action.
    + destruct Hm as (h & Hm & Hc). rewrite Hm in Hmine. cbn [map] in Hmine.
      destruct (mine cursor _ k) as [|h' [|]]; try done. exists h'. split; [done|].
      injection Hmine as E'. by rewrite <- E'.
    + rewrite Hm in Hmine. by destruct (mine cursor _ k).
Qed.

Lemma is_number_canon v n : canon_field v = JNum (int n) <-> v = JNum (int n).
Proof.
  unfold canon_field, canon. destruct v as [| | |x| | |]; try done.
  cbn [is_undef sortDeep plain]. destruct x as [| |z]; try done; cbn [is_finite]; split; try done.
Qed.

Lemma is_number_one v n : is_number v n = true <-> v = JNum (int n).
Proof.
  split; [|intros ->; apply is_number_int].
  unfold is_number. destruct v as [| | |x| | |]; try done. unfold int.
  destruct x as [| |z]; [done|by destruct negative|]. rewrite neq_Fin. intros E%Z.eqb_eq. by subst.
Qed.

Lemma version_same root root' :
  canon_field (get root "version") = canon_field (get root' "version") ->
  version_accepted agent root = version_accepted agent root'.
Proof.
  intros E. unfold version_accepted. rewrite <- (canon_field_undef (get root "version")), E, canon_field_undef.
  do 2 f_equal. destruct (is_number (get root "version") 1) eqn:H, (is_number (get root' "version") 1) eqn:H';
    try done; cbn.
  - apply is_number_one in H. rewrite H in E. symmetry in E.
    rewrite (proj2 (is_number_canon (JNum (int 1)) 1) eq_refl) in E. apply (proj1 (is_number_canon _ _)) in E.
    rewrite E, is_number_int in H'. done.
  - apply is_number_one in H'. rewrite H' in E.
    rewrite (proj2 (is_number_canon (JNum (int 1)) 1) eq_refl) in E. apply (proj1 (is_number_canon _ _)) in E.
    rewrite E, is_number_int in H. done.
Qed.

Lemma after_activity original text :
  activityJson original agent action o = Some (Some text) ->
  exists root root',
    parseRoot original = Some root /\ parseRoot (Some text) = Some root' /\
    keeps agent target root root' /\ at_rest root' /\
    (agent <> id_cursor -> forall event, event ∈ lifecycle agent ->
       map canon (mine false (fun h => managedHandler h agent) (entries_of root' event)) =
       map canon (mine false (fun h => managedHandler h agent) (entries_of root event))).
Proof.
  intros H. destruct (activityJson_spec agent action o desired_document original text _ with_lifecycle H)
    as (root & hooks & root' & Hp & Hv & Hu & Hp' & Hc). exists root, root'.
  pose proof (parseRoot_document _ _ Hp) as Hd. pose proof (parseRoot_document _ _ Hp') as Hd'.
  pose proof (document_hooks root Hd) as Hdh.
  pose proof (update_events_document agent action o desired_document _ _ _ Hdh Hu) as Hdn.
  pose proof (changed_document agent action root hooks Hd Hdn) as Hdc.
  destruct (update_events_spec agent action o _ _ _ (lifecycle_distinct agent) Hu) as [Hin Hout].
  set (mid := root_after agent action root hooks) in *.
  assert (Hmid : forall event, event ∈ lifecycle agent ->
    entries_of mid event = update_entries agent action o event (entries_of root event)).
  { intros event He. unfold entries_of, mid. rewrite hooks_changed. destruct (Hin event He) as (_ & _ & ->). apply items_event_value. }
  assert (Hkeep : keeps agent target root mid).
  { assert (Hk : keeps agent target root (assoc_set "hooks" (JObj hooks) root)).
    { apply keeps_hooks.
      - intros event He. by rewrite Hout.
      - intros event He. destruct (Hin event He) as (_ & _ & ->). rewrite items_event_value. f_equal. apply update_others.
        + intros Ha. by apply desired_act.
        + intros h Hh. unfold owned. by rewrite Hh. }
    unfold mid, root_after. destruct (bool_decide_reflect (agent = id_cursor)) as [Hcur|]; [|done].
    destruct (bool_decide_reflect (action = install)) as [|]; [|done]. cbn [andb]. transitivity (assoc_set "hooks" (JObj hooks) root); [done|].
    constructor.
    - intros k Hk1 [Hk2|Hk2]; [|done]. by rewrite get_set, decide_False.
    - intros event _. unfold hooks_of. by rewrite (get_set "hooks" "version"), decide_False.
    - intros event _. unfold entries_of, hooks_of. by rewrite (get_set "hooks" "version"), decide_False. }
  split_and!; [done..| | |].
  - transitivity mid; [done|]. by apply same_keeps.
  - assert (Hget : forall k, canon_field (get root' k) = canon_field (get mid k)) by (intros; by apply same_get).
    assert (Hvm : get mid "version" = get root "version" \/ get mid "version" = JNum (int 1)).
    { unfold mid, root_after. destruct (bool_decide (agent = id_cursor) && _).
      - right. by rewrite get_set, decide_True.
      - left. by rewrite get_set, decide_False. }
    constructor.
    + specialize (Hget "hooks"). assert (Hm : exists hs, get mid "hooks" = JObj hs).
      { unfold mid, root_after. destruct (bool_decide (agent = id_cursor) && _);
          eexists; rewrite !get_set; [rewrite decide_False by done|]; by rewrite decide_True. }
      destruct Hm as [hs Em]. rewrite Em in Hget. unfold canon_field at 2 in Hget. cbn [is_undef] in Hget.
      destruct (get root' "hooks") as [| | |x| | |] eqn:E; try done.
      unfold canon_field, canon in Hget. cbn [is_undef sortDeep plain] in Hget. by destruct (is_finite x).
    + rewrite (version_same root' mid) by (by rewrite Hget). unfold version_accepted in *.
      destruct Hvm as [-> | ->]; [done|]. rewrite is_number_int. cbn [negb]. by rewrite andb_false_r.
    + intros Ha Hi. specialize (Hget "version").
      assert (Em : get mid "version" = JNum (int 1)).
      { unfold mid, root_after. rewrite !bool_decide_true by done. cbn [andb]. by rewrite get_set, decide_True. }
      rewrite Em in Hget. rewrite (proj2 (is_number_canon (JNum (int 1)) 1) eq_refl) in Hget.
      by apply (proj1 (is_number_canon _ _)) in Hget.
    + intros event He. destruct (Hin event He) as (_ & Hl & _).
      pose proof (same_hooks root' mid Hd' Hdc Hc event) as Hsame. unfold mid in Hsame. rewrite hooks_changed in Hsame.
      unfold listed in *. rewrite <- (canon_field_undef (get (hooks_of root') event)), Hsame, canon_field_undef.
      apply orb_true_iff in Hl as [-> | Hl]; [done|]. rewrite orb_true_iff. right.
      destruct (get hooks event) as [| | | | |l|]; try done. unfold canon_field at 2 in Hsame.
      cbn [is_undef] in Hsame. rewrite canon_array in Hsame.
      destruct (get (hooks_of root') event) as [| | |x| | |]; try done.
      unfold canon_field, canon in Hsame. cbn [is_undef sortDeep plain] in Hsame. by destruct (is_finite x).
    + intros event He. apply (settled_same event (entries_of mid event));
        [by apply document_entries..|symmetry; by apply same_entries|]. rewrite Hmid by done. split.
      * apply update_solid.
      * pose proof (update_mine agent action o event (fun Ha => desired_act Ha event) (entries_of root event)) as Hm.
        destruct action; [|done]. by eexists.
  - intros Hcur event He.
    rewrite (mine_same false _ (entries_of root' event) (entries_of mid event));
      [|apply managedHandler_respects|by apply document_entries..|by apply same_entries].
    rewrite Hmid by done. f_equal. apply update_budget; [|done]. intros Ha. by apply desired_act.
Qed.

(** A repetition changes nothing. *)
Lemma activity_at_rest text root :
  parseRoot (Some text) = Some root -> at_rest root ->
  activityJson (Some text) agent action o = Some (Some text).
Proof.
  intros Hp [Hh Hv Hc Hl Hs]. pose proof (parseRoot_document _ _ Hp) as Hd.
  pose proof (document_hooks root Hd) as Hdh.
  destruct (update_events_some agent action o (lifecycle agent) (hooks_of root) (lifecycle_distinct agent) Hl)
    as [hooks Hu].
  destruct (update_events_spec agent action o _ _ _ (lifecycle_distinct agent) Hu) as [Hin Hout].
  pose proof (update_events_document agent action o desired_document _ _ _ Hdh Hu) as Hdn.
  pose proof (changed_document agent action root hooks Hd Hdn) as Hdc.
  assert (Hcanon : canon (JObj hooks) = canon (JObj (hooks_of root))).
  { apply canon_ext; [done..|]. intros event. destruct (decide (event ∈ lifecycle agent)) as [He|He].
    - destruct (Hin event He) as (H1 & H2 & H3).
      pose proof (update_settled agent action o event (fun Ha => desired_act Ha event) (desired_document event) _
        (Hs event He) (document_entries root event Hd)) as Hup.
      unfold entries_of in Hup. rewrite H3. unfold updated, listed in *.
      set (u := update_entries agent action o event (items_or_empty (get (hooks_of root) event))) in *.
      destruct (get (hooks_of root) event) as [| | | | |l|]; try done.
      + cbn [items_or_empty map] in Hup. unfold event_value. cbn [is_undef andb]. by destruct u.
      + cbn [items_or_empty] in Hup. unfold event_value. cbn [is_undef andb]. unfold canon_field.
        cbn [is_undef]. by rewrite !canon_array, Hup.
    - by rewrite Hout. }
  assert (Hsame : canonicalJson (JObj root) = canonicalJson (JObj (root_after agent action root hooks))).
  { rewrite !canonicalJson_text by done. f_equal. apply canonical_text_eq; [done..|].
    apply canon_ext; [done..|]. intros k. unfold root_after.
    assert (Hhk : canon_field (get root "hooks") = canon_field (JObj hooks)).
    { unfold hooks_of, fields_or_empty in Hcanon. by destruct (get root "hooks"). }
    destruct (bool_decide_reflect (agent = id_cursor)) as [Ha|], (bool_decide_reflect (action = install)) as [Hi|];
      cbn [andb]; rewrite !get_set; repeat case_decide; subst; try done. by rewrite (Hc eq_refl eq_refl). }
  unfold activityJson. rewrite with_lifecycle, Hp.
  change (fields_or_empty (get root "hooks")) with (hooks_of root). rewrite Hu, Hh, orb_true_r.
  change (negb (_ && _ && _)) with (version_accepted agent root). rewrite Hv.
  fold (root_after agent action root hooks). rewrite bool_decide_true by exact Hsame. by destruct action.
Qed.
End AfterActivity.

(** ** After the budget hook *)

Lemma filter_of_existsb {A} (p : A -> bool) l : existsb p l = false -> List.filter p l = [].
Proof.
  induction l as [|x l IH]; [done|]. cbn [existsb List.filter]. by destruct (p x).
Qed.

Section AfterBudget.
Variables (agent : AgentId) (target : AgentTarget).
Notation managed := (fun h => managedHandler h agent).
Notation event := (tg_event target).
Hypothesis budget_agent : has_budget agent = true.
Hypothesis event_listed : event ∈ lifecycle agent.

Lemma not_cursor : agent <> id_cursor.
Proof. unfold has_budget in budget_agent. bools. done. Qed.

Lemma owned_managed h : managedHandler h agent = true -> owned agent target event h = true.
Proof.
  intros Hh. unfold owned. by rewrite budget_agent, str_eqb_refl, Hh, orb_true_r.
Qed.

(** Hooks with one event replaced, printed and read again. *)
Lemma replaced_event root entries :
  document (JObj root) -> Forall document entries ->
  others false (owned agent target event) entries =
    others false (owned agent target event) (entries_of root event) ->
  let root' := assoc_set "hooks" (JObj (assoc_set event (JArr entries) (hooks_of root))) root in
  exists after,
    parseRoot (Some (print_root root')) = Some after /\ keeps agent target root after /\
    map canon (entries_of after event) = map canon entries.
Proof.
  intros Hd He Ho root'.
  assert (Hdn : document (JObj (assoc_set event (JArr entries) (hooks_of root)))).
  { apply document_set; [by apply document_hooks|by apply document_array]. }
  assert (Hd' : document (JObj root')) by (by apply document_set).
  assert (Hd'' : document (JObj (canon_fields root'))).
  { rewrite <- canon_object by done. by apply canon_document. }
  assert (Hc : canon (JObj root') = canon (JObj (canon_fields root'))).
  { rewrite <- (canon_object root') by done. by rewrite canon_idem. }
  exists (canon_fields root'). split_and!; [by apply parse_print| |].
  - transitivity root'; [|by apply same_keeps]. apply keeps_hooks.
    + intros k Hk. rewrite get_set. case_decide as Hke; [subst k|done].
      done.
    + intros k Hk. rewrite get_set. case_decide as Hke; [|done]. subst k.
      rewrite bool_decide_false by apply not_cursor. cbn [items_or_empty]. by rewrite Ho.
  - rewrite <- (same_entries root' _ Hd' Hd'' Hc). unfold entries_of, hooks_of, root'.
    rewrite get_set, decide_True by done. cbn [fields_or_empty record_of default id].
    by rewrite get_set, decide_True.
Qed.

Lemma after_install original text command windows :
  managedHandler (jsonHandler agent (tg_timeout target) command windows) agent = true ->
  document (jsonHandler agent (tg_timeout target) command windows) ->
  jsonInstall original agent target command windows = Some text ->
  exists root after h,
    parseRoot original = Some root /\ parseRoot (Some text) = Some after /\
    keeps agent target root after /\ mine false managed (entries_of after event) = [h] /\
    canon h = canon (jsonHandler agent (tg_timeout target) command windows).
Proof.
  set (desired := jsonHandler _ _ _ _). intros Hm Hdes. unfold jsonInstall.
  destruct (parseRoot original) as [root|] eqn:Hp; [|done].
  change (fields_or_empty (get root "hooks")) with (hooks_of root).
  change (items_or_empty (get (hooks_of root) event)) with (entries_of root event).
  fold desired. pose proof (parseRoot_document _ _ Hp) as Hd.
  pose proof (document_entries root event Hd) as Hde.
  pose proof (install_hidden agent desired Hm (owned agent target event) owned_managed) as Hh.
  pose proof (hidden_groups _ _ (false, false) (entries_of root event) Hh) as Ho.
  destruct (handlers_walk (install_step agent desired) (false, false) (entries_of root event)) as [H1 H2].
  destruct (install_mine agent desired Hm false false (flat_map handlers_of (entries_of root event))) as [Hmine Hfound].
  pose proof (fst_walk_documents (install_step agent desired) (false, false) (entries_of root event)) as Hdw.
  destruct (walk (group_step _) (false, false) (entries_of root event)) as [updated [found changed]] eqn:Ew.
  cbn [fst snd] in *. rewrite <- H2 in Hfound. cbn [fst] in Hfound.
  assert (Hdu : Forall document updated).
  { apply Hdw; [|done]. intros [f c] h Hdh. unfold install_step.
    destruct (managedHandler h agent); cbn [negb]; [|by apply Forall_singleton].
    destruct f; cbn [fst]; [constructor|by apply Forall_singleton]. }
  clear Hdw. set (result := if found then updated else updated ++ [new_group desired]).
  assert (Hnew : document (new_group desired)).
  { apply document_object. split; [apply NoDup_singleton|]. apply Forall_singleton. apply document_array.
    by apply Forall_singleton. }
  assert (Hprinted : text = print_root (assoc_set "hooks" (JObj (assoc_set event (JArr result) (hooks_of root))) root) ->
    exists after h, parseRoot (Some text) = Some after /\ keeps agent target root after /\
      mine false managed (entries_of after event) = [h] /\ canon h = canon desired).
  { intros ->. assert (Hdr : Forall document result).
    { unfold result. destruct found; [done|]. apply Forall_app. split; [done|by apply Forall_singleton]. }
    assert (Hor : others false (owned agent target event) result =
                  others false (owned agent target event) (entries_of root event)).
    { unfold result. destruct found; [done|]. rewrite others_app, Ho. cbn [others flat_map].
      unfold strip. rewrite group_new. cbn [List.filter]. rewrite (owned_managed desired Hm). cbn [negb app].
      by rewrite app_nil_r. }
    destruct (replaced_event root result Hd Hdr Hor) as (after & Ha & Hk & He).
    assert (Hmr : mine false managed result = [desired]).
    { unfold mine, result. cbn [negb andb] in Hmine. rewrite <- H1 in Hmine. cbn [orb] in Hfound.
      rewrite <- Hfound in Hmine. destruct found; [done|].
      rewrite flat_map_app, List.filter_app, Hmine. cbn [flat_map]. unfold handlers_of. rewrite group_new.
      cbn [app List.filter]. by rewrite Hm. }
    pose proof (parseRoot_document _ _ Ha) as Hda.
    pose proof (mine_same false _ _ _ (managedHandler_respects agent) (document_entries after event Hda) Hdr He) as Hms.
    rewrite Hmr in Hms. destruct (mine false managed (entries_of after event)) as [|h [|]] eqn:Em; try done.
    exists after, h. split_and!; [done..|]. by injection Hms. }
  intros E. destruct (found && negb changed) eqn:Hfc, original as [t|].
  2, 4: injection E as <-; destruct (Hprinted eq_refl) as (after & h & ? & ? & ? & ?); by exists root, after, h.
  - injection E as <-. apply andb_true_iff in Hfc as [-> Hc]. apply negb_true_iff in Hc as ->.
    destruct (install_unchanged agent desired false false (flat_map handlers_of (entries_of root event)))
      as (_ & h & Hh1 & Hh2); [by rewrite <- H2|].
    exists root, root, h. split_and!; [done..|done| |]; [exact Hh1|].
    assert (Hdh : document h).
    { destruct (handlers_canon _ Hde) as [_ Hall]. rewrite Forall_forall in Hall. apply Hall, list_elem_of_In.
      apply (filter_In managed h). rewrite Hh1. by left. }
    rewrite !canonicalJson_text in Hh2 by done. apply Some_inj in Hh2. by apply canonical_text_eq.
  - injection E as <-. destruct (Hprinted eq_refl) as (after & h & ? & ? & ? & ?). by exists root, after, h.
Qed.

Lemma after_uninstall original text :
  jsonUninstall original agent target = Some (Some text) ->
  exists root after,
    parseRoot original = Some root /\ parseRoot (Some text) = Some after /\
    keeps agent target root after /\ mine false managed (entries_of after event) = [].
Proof.
  unfold jsonUninstall. destruct original as [t|]; [|done].
  destruct (parseRoot (Some t)) as [root|] eqn:Hp; [|done].
  pose proof (parseRoot_document _ _ Hp) as Hd. pose proof (document_entries root event Hd) as Hde.
  assert (Hsame : mine false managed (entries_of root event) = [] -> Some (Some t) = Some (Some text) ->
    exists r after, Some root = Some r /\ parseRoot (Some text) = Some after /\
      keeps agent target r after /\ mine false managed (entries_of after event) = []).
  { intros Hm [= <-]. by exists root, root. }
  destruct (record_of (get root "hooks")) as [hooks|] eqn:Eh.
  2: { apply Hsame. unfold entries_of, hooks_of, fields_or_empty. by rewrite Eh. }
  assert (Hhk : hooks = hooks_of root) by (unfold hooks_of, fields_or_empty; by rewrite Eh).
  destruct (get hooks event) as [| | | | |groups|] eqn:Eg;
    try (apply Hsame; unfold entries_of; by rewrite <- Hhk, Eg).
  assert (Hgr : groups = entries_of root event) by (unfold entries_of; by rewrite <- Hhk, Eg).
  rewrite Hgr, Hhk.
  pose proof (hidden_groups _ _ false (entries_of root event) (uninstall_hidden agent _ owned_managed)) as Ho.
  destruct (handlers_walk (uninstall_step agent) false (entries_of root event)) as [H1 H2].
  rewrite uninstall_walk in H1, H2. cbn [fst snd orb] in H1, H2.
  pose proof (fst_walk_documents (uninstall_step agent) false (entries_of root event)) as Hdw.
  destruct (walk (group_step _) false (entries_of root event)) as [updated removed]. cbn [fst snd] in *.
  destruct removed; cbn [negb].
  - intros [= <-]. assert (Hdu : Forall document updated).
    { apply Hdw; [|done]. intros r h Hdh. unfold uninstall_step.
      destruct (managedHandler h agent); cbn [fst]; [constructor|by apply Forall_singleton]. }
    destruct (replaced_event root updated Hd Hdu Ho) as (after & Ha & Hk & He).
    exists root, after. split_and!; [done..|].
    pose proof (mine_same false _ _ _ (managedHandler_respects agent)
      (document_entries after event (parseRoot_document _ _ Ha)) Hdu He) as Hms.
    unfold mine in Hms at 2. rewrite H1, filter_filter_none in Hms.
    by destruct (mine false managed (entries_of after event)).
  - apply Hsame. unfold mine. symmetry in H2. by apply filter_of_existsb.
Qed.
End AfterBudget.
