(* ===== verification/HookTheorems.v ===== *)
(** * The hooks of agents, as theorems

    What a change of a JSON configuration keeps, that it settles, what the
    status says; the block in Kimi's configuration; and that a change is made of
    what is there, whoever else writes the file. *)
From S2P Require Import Prelude JsNum JsDate JsValue Text Json JsonText ReadBack Documents Files HookCommand HookCommandLaws HookInstall HookViews HookInstallLaws HookChange.
Local Open Scope string_scope.
Local Open Scope Z_scope.
Local Open Scope list_scope.
Local Open Scope js_scope.

(** ** The handlers are documents *)

Lemma document_strings l : document (JArr (map JStr l)).
Proof. apply document_array, Forall_map, Forall_true. done. Qed.

Ltac solve_document :=
  apply document_object; split;
  [apply (bool_decide_unpack _); vm_compute; exact I
  |repeat (apply Forall_cons_2; [first [exact I|apply document_strings|apply int_document; vm_compute; reflexivity]|]);
   apply Forall_nil_2].

Lemma activityHandler_document agent event o : document (activityHandler agent event o).
Proof. unfold activityHandler, spread, activity_arguments. destruct agent; cbn [app]; solve_document. Qed.

Lemma jsonHandler_document agent timeout version o windows :
  timeout = 1 \/ timeout = 500 -> document (jsonHandler agent timeout (hookCommand agent version o) windows).
Proof.
  intros Ht. unfold jsonHandler, spread, hookCommand. cbn [command_argv command_text].
  destruct Ht as [-> | ->], agent, windows; cbn [app]; solve_document.
Qed.

(** ** The agents with a JSON configuration *)

(** What a change leaves in the file. *)
Record leaves (agent : AgentId) (target : AgentTarget) (version : string) (o : HookInstallOptions)
    (action : Action) (root : list (string * jsval)) : Prop := {
  leaves_rest : at_rest agent action o root;
  leaves_budget :
    has_budget agent = true ->
    let mine_there := mine false (fun h => managedHandler h agent) (entries_of root (tg_event target)) in
    match action with
    | install =>
        exists h, mine_there = [h] /\
          canon h = canon (jsonHandler agent (tg_timeout target) (hookCommand agent version o) (ho_windows o))
    | uninstall => mine_there = []
    end }.

Section Json.
Variables (agent : AgentId) (project : bool) (target : AgentTarget) (version : string)
  (o : HookInstallOptions) (action : Action).
Hypothesis target_found : targetFor agent project = Some target.
Hypothesis target_json : tg_format target = format_json.
Hypothesis checked : action = install -> installable version o.
Notation cursor := (bool_decide (agent = id_cursor)).
Notation managed := (fun h => managedHandler h agent).
Notation event := (tg_event target).
Notation desired := (jsonHandler agent (tg_timeout target) (hookCommand agent version o) (ho_windows o)).

Lemma json_agent :
  ACTIVITY_HOOK_EVENTS agent = Some (lifecycle agent) /\ event ∈ lifecycle agent /\
  (tg_timeout target = 1 \/ tg_timeout target = 500).
Proof.
  unfold targetFor, json_target in *. destruct agent; try destruct project; try done;
    injection target_found as <-; try discriminate target_json;
    (split_and!; [reflexivity|apply (bool_decide_unpack _); vm_compute; exact I|first [by left|by right]]).
Qed.

Lemma desired_act : action = install -> forall e,
  managedActivityHandler agent e (activityHandler agent e o) = true.
Proof.
  intros Hi e. destruct (checked Hi) as [Hn Hs _ _]. rewrite activity_handler_activity by done.
  by apply activity_own.
Qed.

Lemma desired_managed : action = install -> managedHandler desired agent = true.
Proof.
  intros Hi. destruct (checked Hi) as [Hn Hs Hv Hst] eqn:E. rewrite json_handler_managed by done.
  by apply managed_own.
Qed.

Lemma change_spec original text :
  next_text agent action version o target original = Some (Some text) ->
  exists root after,
    parseRoot original = Some root /\ parseRoot (Some text) = Some after /\
    keeps agent target root after /\ leaves agent target version o action after.
Proof.
  destruct json_agent as (Hlife & Hev & Ht). unfold next_text. rewrite target_json.
  pose proof (after_activity agent target action o desired_act (fun e => activityHandler_document agent e o) Hlife) as Hact.
  assert (Hdes : document desired) by (by apply jsonHandler_document).
  pose proof desired_managed as Hdm. destruct (has_budget agent) eqn:Hb; unfold has_budget in Hb.
  - assert (Hb' := Hb). apply andb_true_iff in Hb' as [Hmu Hcu]. apply negb_true_iff in Hmu, Hcu. rewrite Hmu, Hcu.
    cbn [orb]. apply bool_decide_eq_false in Hcu. destruct action.
    + destruct (jsonInstall _ _ _ _ _) as [t1|] eqn:E1; [|done]. cbn [fmap option_fmap option_map]. intros E2.
      destruct (after_install agent target Hb Hev original t1 _ _ (Hdm eq_refl) Hdes E1)
        as (root & mid & h & Hp & Hm & Hk & Hmine & Hc).
      destruct (Hact _ _ E2) as (mid' & after & Hm' & Ha & Hk' & Hrest & Hbud). assert (mid' = mid) as -> by congruence.
      exists root, after. split_and!; [done..|by etransitivity|]. constructor; [done|]. intros _.
      specialize (Hbud Hcu event Hev). rewrite Hmine in Hbud. cbn [map] in Hbud.
      destruct (mine false managed (entries_of after event)) as [|h' [|]]; try done. exists h'.
      split; [done|]. by injection Hbud as ->.
    + destruct (jsonUninstall _ _ _) as [[t1|]|] eqn:E1; [| |done]; intros E2.
      * destruct (after_uninstall agent target Hb Hev original t1 E1) as (root & mid & Hp & Hm & Hk & Hmine).
        destruct (Hact _ _ E2) as (mid' & after & Hm' & Ha & Hk' & Hrest & Hbud). assert (mid' = mid) as -> by congruence.
        exists root, after. split_and!; [done..|by etransitivity|]. constructor; [done|]. intros _.
        specialize (Hbud Hcu event Hev). rewrite Hmine in Hbud.
        by destruct (mine false managed (entries_of after event)).
      * exfalso. unfold activityJson in E2. by rewrite Hlife in E2.
  - assert (Hb' : bool_decide (agent = id_muse) || bool_decide (agent = id_cursor) = true).
    { apply andb_false_iff in Hb as [H|H]; apply negb_false_iff in H; rewrite H; [done|apply orb_true_r]. }
    rewrite Hb'. intros E2. destruct (Hact _ _ E2) as (root & after & Hp & Ha & Hk & Hrest & _).
    exists root, after. split_and!; [done..|]. constructor; [done|]. unfold has_budget. by rewrite Hb.
Qed.

Lemma install_repeat text root :
  parseRoot (Some text) = Some root ->
  (exists h, mine false managed (entries_of root event) = [h] /\ canon h = canon desired) ->
  jsonInstall (Some text) agent target (hookCommand agent version o) (ho_windows o) = Some text.
Proof.
  intros Hp (h & Hm & Hc). destruct json_agent as (_ & _ & Ht). unfold jsonInstall. rewrite Hp.
  change (items_or_empty (get (fields_or_empty (get root "hooks")) event)) with (entries_of root event).
  destruct (handlers_walk (install_step agent desired) (false, false) (entries_of root event)) as [_ H2].
  rewrite install_quiet in H2.
  - destruct (walk (group_step _) _ _) as [updated s]. cbn [snd] in H2. by subst s.
  - exists h. split; [done|]. pose proof (document_entries root event (parseRoot_document _ _ Hp)) as Hde.
    assert (Hdh : document h).
    { destruct (handlers_canon _ Hde) as [_ Hall]. rewrite Forall_forall in Hall. apply Hall, list_elem_of_In.
      apply (filter_In managed h). unfold mine in Hm. rewrite Hm. by left. }
    assert (Hdd : document desired) by (by apply jsonHandler_document).
    rewrite !canonicalJson_text by done. f_equal. by apply canonical_text_eq.
Qed.

Lemma uninstall_repeat text root :
  parseRoot (Some text) = Some root -> mine false managed (entries_of root event) = [] ->
  jsonUninstall (Some text) agent target = Some (Some text).
Proof.
  intros Hp Hm. unfold jsonUninstall. rewrite Hp.
  destruct (record_of (get root "hooks")) as [hooks|] eqn:Eh; [|done].
  destruct (get hooks event) as [| | | | |groups|] eqn:Eg; try done.
  assert (Hg : groups = entries_of root event).
  { unfold entries_of, hooks_of, fields_or_empty. rewrite Eh. cbn [default id]. by rewrite Eg. }
  subst groups. destruct (handlers_walk (uninstall_step agent) false (entries_of root event)) as [_ H2].
  rewrite uninstall_walk in H2. cbn [snd orb] in H2.
  destruct (walk (group_step _) _ _) as [updated s]. cbn [snd] in H2. subst s.
  assert (existsb managed (flat_map handlers_of (entries_of root event)) = false) as ->; [|done].
  apply not_true_iff_false. intros (h & Hh & Hmh)%existsb_exists.
  assert (Hin : In h (mine false managed (entries_of root event))) by (by apply filter_In).
  by rewrite Hm in Hin.
Qed.

Lemma change_repeat text root :
  parseRoot (Some text) = Some root -> leaves agent target version o action root ->
  next_text agent action version o target (Some text) = Some (Some text).
Proof.
  intros Hp [Hrest Hbud]. destruct json_agent as (Hlife & Hev & Ht). unfold next_text. rewrite target_json.
  pose proof (activity_at_rest agent action o desired_act (fun e => activityHandler_document agent e o) Hlife text root Hp Hrest) as Hact.
  destruct (bool_decide (agent = id_muse) || bool_decide (agent = id_cursor)) eqn:Hb; [exact Hact|].
  assert (Hb' : has_budget agent = true).
  { unfold has_budget. apply orb_false_iff in Hb as [-> ->]. done. }
  specialize (Hbud Hb'). destruct action.
  - by rewrite (install_repeat text root).
  - by rewrite (uninstall_repeat text root).
Qed.
End Json.

(** ** The status *)

Lemma existsb_groups p entries :
  existsb (fun entry => match group_handlers entry with Some (_, hs) => existsb p hs | None => false end) entries =
  existsb p (flat_map handlers_of entries).
Proof.
  induction entries as [|entry entries IH]; [done|]. cbn [existsb flat_map].
  rewrite existsb_app, IH. f_equal. unfold handlers_of. by destruct (group_handlers entry) as [[fs hs]|].
Qed.

Lemma existsb_orb {A} (p q : A -> bool) l : existsb (fun x => p x || q x) l = existsb p l || existsb q l.
Proof.
  induction l as [|x l IH]; [done|]. cbn [existsb]. rewrite IH. by destruct (p x), (q x), (existsb p l).
Qed.

Lemma existsb_nonempty {A} (p : A -> bool) l x : List.filter p l = [x] -> existsb p l = true.
Proof.
  intros E. apply existsb_exists. exists x. apply filter_In. rewrite E. by left.
Qed.

Lemma existsb_empty {A} (p : A -> bool) l : List.filter p l = [] -> existsb p l = false.
Proof.
  intros E. apply not_true_iff_false. intros (x & Hx)%existsb_exists. apply filter_In in Hx. by rewrite E in Hx.
Qed.

Lemma status_left agent target version o action text root :
  tg_format target = format_json -> tg_event target ∈ lifecycle agent ->
  (agent = id_muse -> action = install) ->
  parseRoot (Some text) = Some root -> leaves agent target version o action root ->
  hook_installed agent target text = Some (bool_decide (action = install)).
Proof.
  intros Hj Hev Hmuse Hp [[_ _ _ _ Hs] Hb]. unfold hook_installed. rewrite Hj, Hp. f_equal.
  destruct (Hs _ Hev) as [_ Hm]. clear Hs. unfold mine in *.
  change (items_or_empty (get (fields_or_empty (get root "hooks")) (tg_event target)))
    with (entries_of root (tg_event target)).
  destruct (bool_decide_reflect (agent = id_cursor)) as [Hc|Hc].
  - change (existsb (managedActivityHandler agent (tg_event target)) (entries_of root (tg_event target)) =
            bool_decide (action = install)).
    destruct action; [destruct Hm as (h & Hm & _); by rewrite (existsb_nonempty _ _ _ Hm)|].
    by rewrite (existsb_empty _ _ Hm).
  - rewrite existsb_groups, existsb_orb. destruct action.
    + destruct Hm as (h & Hm & _). rewrite (existsb_nonempty _ _ _ Hm). by rewrite orb_true_r.
    + assert (Hha : has_budget agent = true).
      { unfold has_budget. rewrite !bool_decide_false; [done|done|]. intros Ha. by specialize (Hmuse Ha). }
      specialize (Hb Hha). cbn in Hb. unfold mine in Hb.
      by rewrite (existsb_empty _ _ Hm), (existsb_empty _ _ Hb).
Qed.

(** *** What is written over *)

(** The hooks are an object, or not there, and so is each event a list. *)
Definition hooks_listed (agent : AgentId) (root : list (string * jsval)) : Prop :=
  is_undef (get root "hooks") || isRecord (get root "hooks") = true /\
  forall event, event ∈ lifecycle agent -> listed (hooks_of root) event = true.

(** An installation with a budget hook takes hooks that are no object for none,
    and an event of that hook that is no list for an empty one. *)
Definition overwrites (agent : AgentId) (action : Action) (target : AgentTarget)
    (root : list (string * jsval)) : bool :=
  has_budget agent && bool_decide (action = install) &&
  negb ((is_undef (get root "hooks") || isRecord (get root "hooks")) && listed (hooks_of root) (tg_event target)).

Lemma activityJson_listed agent action o original text root :
  ACTIVITY_HOOK_EVENTS agent = Some (lifecycle agent) ->
  activityJson original agent action o = Some (Some text) -> parseRoot original = Some root ->
  hooks_listed agent root.
Proof.
  intros Hl E Hp. unfold activityJson in E. rewrite Hl in E.
  assert (H : (check is_undef (get root "hooks") || isRecord (get root "hooks");;
               update_events agent action o (hooks_of root) (lifecycle agent)) <> None).
  { unfold hooks_of. destruct original as [t|], action; try discriminate E; rewrite Hp in E;
      (destruct (is_undef (get root "hooks") || isRecord (get root "hooks")); [|done]);
      (destruct (negb (_ && _ && _)); [|done]);
      by destruct (update_events _ _ _ _ _). }
  unfold hooks_listed. destruct (is_undef (get root "hooks") || isRecord (get root "hooks")); [|done].
  split; [done|]. destruct (update_events _ _ _ _ _) as [hooks|] eqn:Eu; [|done].
  destruct (update_events_spec agent action o _ _ _ (lifecycle_distinct agent) Eu) as [Hin _].
  intros event He. by destruct (Hin event He).
Qed.

Lemma listed_field v : is_undef (canon_field v) || is_array (canon_field v) = is_undef v || is_array v.
Proof.
  unfold canon_field. destruct v as [| | |x| | |]; try done. cbn [is_undef]. unfold canon. cbn [sortDeep plain].
  by destruct (is_finite x).
Qed.

(** The events beside the one that was written read as before. *)
Lemma printed_listed root event entries after e :
  document (JObj root) -> Forall document entries -> e <> event ->
  parseRoot (Some (print_root
    (assoc_set "hooks" (JObj (assoc_set event (JArr entries) (hooks_of root))) root))) = Some after ->
  listed (hooks_of after) e = listed (hooks_of root) e.
Proof.
  intros Hd He Hne. set (root' := assoc_set "hooks" _ root).
  assert (Hdn : document (JObj (assoc_set event (JArr entries) (hooks_of root)))).
  { apply document_set; [by apply document_hooks|by apply document_array]. }
  assert (Hd' : document (JObj root')) by (by apply document_set).
  rewrite parse_print by done. intros [= <-]. unfold listed.
  change (hooks_of (canon_fields root')) with (fields_or_empty (get (canon_fields root') "hooks")).
  rewrite get_canon by done. rewrite hooks_canon by done. rewrite get_canon by (by apply document_hooks).
  rewrite listed_field.
  assert (hooks_of root' = assoc_set event (JArr entries) (hooks_of root)) as ->.
  { unfold hooks_of at 1, root'. by rewrite get_set, decide_True. }
  by rewrite get_set, decide_False.
Qed.

Lemma jsonInstall_listed agent target original text command windows root after e :
  document (jsonHandler agent (tg_timeout target) command windows) ->
  jsonInstall original agent target command windows = Some text ->
  parseRoot original = Some root -> parseRoot (Some text) = Some after -> e <> tg_event target ->
  listed (hooks_of after) e = listed (hooks_of root) e.
Proof.
  intros Hdes E Hp Ha Hne. unfold jsonInstall in E. rewrite Hp in E.
  pose proof (parseRoot_document _ _ Hp) as Hd.
  change (fields_or_empty (get root "hooks")) with (hooks_of root) in E.
  change (items_or_empty (get (hooks_of root) (tg_event target))) with (entries_of root (tg_event target)) in E.
  pose proof (document_entries root (tg_event target) Hd) as Hde.
  set (desired := jsonHandler _ _ _ _) in *.
  pose proof (fst_walk_documents (install_step agent desired) (false, false) (entries_of root (tg_event target))) as Hdw.
  destruct (walk (group_step _) _ _) as [updated [found changed]]. cbn [fst] in Hdw.
  assert (Hdu : Forall document updated).
  { apply Hdw; [|done]. intros [f c] h Hdh. unfold install_step.
    destruct (managedHandler h agent); cbn [negb]; [|by apply Forall_singleton].
    destruct f; cbn [fst]; [constructor|by apply Forall_singleton]. }
  assert (Hnew : document (new_group desired)).
  { apply document_object. split; [apply NoDup_singleton|]. apply Forall_singleton. apply document_array.
    by apply Forall_singleton. }
  assert (Hr : Forall document (if found then updated else updated ++ [new_group desired])).
  { destruct found; [done|]. apply Forall_app. split; [done|by apply Forall_singleton]. }
  destruct (found && negb changed), original as [t|]; injection E as <-;
    first [by (replace after with root by congruence)
          |by apply (printed_listed _ _ _ _ _ Hd Hr Hne)].
Qed.

Lemma jsonUninstall_listed agent target original text root after :
  jsonUninstall original agent target = Some (Some text) ->
  parseRoot original = Some root -> parseRoot (Some text) = Some after ->
  hooks_listed agent after -> hooks_listed agent root.
Proof.
  intros E Hp Ha Hl. unfold jsonUninstall in E. destruct original as [t|]; [|done]. rewrite Hp in E.
  assert (Hsame : Some (Some t) = Some (Some text) -> hooks_listed agent root).
  { intros [= <-]. by replace root with after by congruence. }
  destruct (record_of (get root "hooks")) as [hooks|] eqn:Eh; [|by apply Hsame].
  assert (Hhk : hooks = hooks_of root) by (unfold hooks_of, fields_or_empty; by rewrite Eh).
  destruct (get hooks (tg_event target)) as [| | | | |groups|] eqn:Eg; try (by apply Hsame).
  pose proof (parseRoot_document _ _ Hp) as Hd.
  assert (Hde : Forall document groups).
  { pose proof (document_entries root (tg_event target) Hd) as Hde. unfold entries_of in Hde.
    by rewrite <- Hhk, Eg in Hde. }
  pose proof (fst_walk_documents (uninstall_step agent) false groups) as Hdw.
  destruct (walk (group_step (uninstall_step agent)) false groups) as [updated removed]. cbn [fst] in Hdw.
  destruct removed; cbn [negb] in E; [|by apply Hsame]. injection E as <-.
  assert (Hdu : Forall document updated).
  { apply Hdw; [|done]. intros r h Hdh. unfold uninstall_step.
    destruct (managedHandler h agent); cbn [fst]; [constructor|by apply Forall_singleton]. }
  destruct Hl as [_ Hl]. split.
  - by destruct (get root "hooks").
  - intros e He. destruct (decide (e = tg_event target)) as [->|Hne].
    + unfold listed. rewrite <- Hhk, Eg. done.
    + rewrite Hhk in Ha. rewrite <- (printed_listed _ _ _ _ _ Hd Hdu Hne Ha). by apply Hl.
Qed.

Lemma change_listed agent project target version o action original text root :
  targetFor agent project = Some target -> tg_format target = format_json ->
  next_text agent action version o target original = Some (Some text) -> parseRoot original = Some root ->
  hooks_listed agent root \/ overwrites agent action target root = true.
Proof.
  intros Ht Hj Hn Hp. destruct (json_agent agent project target Ht Hj) as (Hlife & Hev & Htm).
  unfold next_text in Hn. rewrite Hj in Hn. unfold overwrites, has_budget.
  destruct (bool_decide (agent = id_muse)), (bool_decide (agent = id_cursor)) eqn:Ec; cbn [orb negb andb] in *;
    try (left; by eapply activityJson_listed).
  destruct action; cbn [bool_decide] in *.
  - destruct (jsonInstall _ _ _ _ _) as [t1|] eqn:E1; [|done]. cbn [fmap option_fmap option_map mbind option_bind] in Hn.
    destruct (parseRoot (Some t1)) as [mid|] eqn:Hm.
    2:{ unfold activityJson in Hn. by rewrite Hlife, Hm in Hn. }
    pose proof (activityJson_listed _ _ _ _ _ _ Hlife Hn Hm) as [_ Hmid].
    destruct (is_undef (get root "hooks") || isRecord (get root "hooks")) eqn:Eh; [|by right].
    destruct (listed (hooks_of root) (tg_event target)) eqn:El; [|by right].
    left. split; [done|]. intros e He. destruct (decide (e = tg_event target)) as [->|Hne]; [done|].
    rewrite <- (jsonInstall_listed _ _ _ _ _ _ _ _ _ (jsonHandler_document _ _ _ _ _ Htm) E1 Hp Hm Hne).
    by apply Hmid.
  - destruct (jsonUninstall _ _ _) as [[t1|]|] eqn:E1; [| |done]; cbn [mbind option_bind] in Hn.
    + destruct (parseRoot (Some t1)) as [mid|] eqn:Hm.
      2:{ unfold activityJson in Hn. by rewrite Hlife, Hm in Hn. }
      left. eapply jsonUninstall_listed; [exact E1|done..|]. by eapply activityJson_listed.
    + unfold activityJson in Hn. by rewrite Hlife in Hn.
Qed.

(** C16: a change keeps every hook that is not the program's. Whatever the JSON
    configuration of an agent holds, when an installation or a removal writes
    it, the new file is a document too, and every other setting, every event
    outside the lifecycle, and in each event of the lifecycle every handler of
    others, in its group and in its order, reads as before; of the settings
    Cursor's [version] alone is set, and a group without a handler may go.
    What is not of the expected shape, hooks that are no object or an event
    that is no list, is never written over, with one exception: an installation
    with a budget hook replaces hooks that are no object, and what is no list
    under the event of that hook. *)
Theorem a_change_keeps_every_other_hook agent project target version o action original text :
  targetFor agent project = Some target -> tg_format target = format_json ->
  (action = install -> installable version o) ->
  next_text agent action version o target original = Some (Some text) ->
  exists root after,
    parseRoot original = Some root /\ parseRoot (Some text) = Some after /\
    keeps agent target root after /\
    (hooks_listed agent root \/ overwrites agent action target root = true).
Proof.
  intros Ht Hj Hc Hn.
  destruct (change_spec agent project target version o action Ht Hj Hc original text Hn)
    as (root & after & Hp & Ha & Hk & _).
  exists root, after. split_and!; [done..|]. by eapply change_listed.
Qed.

(** C18: a change of a JSON configuration settles. What an installation or a
    removal writes there, the same change leaves byte for byte as it is, so a
    repetition finds nothing to do; and the status read from the file says what
    was done last. A removal of Muse's hooks is left out: a budget hook under
    Muse's name, which this program never installs there, would keep its
    status. *)
Theorem a_change_settles agent project target version o action original text :
  targetFor agent project = Some target -> tg_format target = format_json ->
  (action = install -> installable version o) -> (agent = id_muse -> action = install) ->
  next_text agent action version o target original = Some (Some text) ->
  next_text agent action version o target (Some text) = Some (Some text) /\
  hook_installed agent target text = Some (bool_decide (action = install)).
Proof.
  intros Ht Hj Hc Hm Hn.
  destruct (change_spec agent project target version o action Ht Hj Hc original text Hn)
    as (root & after & _ & Ha & _ & Hl).
  split; [by eapply (change_repeat agent project)|]. destruct (json_agent agent project target Ht Hj) as (_ & Hev & _).
  by eapply status_left.
Qed.

(** ** The change of a file others write too *)

Section World.
Variable world : nat -> AttemptWorld.

(** [begins retries start n current]: of the attempts from [retries] on, the
    first of which finds [start], the one with [n] left finds [current]: every
    attempt before it found another text when it looked again. *)
Inductive begins : nat -> option string -> nat -> option string -> Prop :=
| begins_now retries text : begins retries text retries text
| begins_again retries text n current :
    aw_meanwhile (world (S retries)) text <> text ->
    begins retries (aw_meanwhile (world (S retries)) text) n current ->
    begins (S retries) text n current.

(** The file a change leaves, from the text it was made of. *)
Definition left_by (target : AgentTarget) (action : Action) (late : option string -> option string)
    (current next : option string) : option string :=
  if removes_file target action current then None
  else match next with Some text => Some text | None => late current end.

(** The backup is a text an attempt found, and stays. *)
Definition backup_kept (retries : nat) (start : option string) (before after : option string) : Prop :=
  match before with
  | Some text => after = Some text
  | None => match after with Some text => exists n, begins retries start n (Some text) | None => True end
  end.

(** What a run of attempts comes to, from a configuration and a backup. *)
Record outcome (next_of : option string -> option (option string)) (target : AgentTarget)
    (action : Action) (retries : nat) (files files' : HookFiles) (result : MutationResult) : Prop := {
  outcome_configuration :
    exists n current, begins retries (configuration files) n current /\
    match result with
    | mutation_threw =>
        configuration files' = current \/
        configuration files' = aw_meanwhile (world n) current \/
        aw_meanwhile (world n) current = current /\ configuration files' = aw_late (world n) current
    | mutation_done false _ =>
        configuration files' = current /\
        exists next, next_of current = Some next /\ unchanged current next = true
    | mutation_done true kept =>
        aw_meanwhile (world n) current = current /\
        exists next,
          next_of current = Some next /\ unchanged current next = false /\
          configuration files' = left_by target action (aw_late (world n)) current next /\
          kept = negb (bool_decide (current = None)) /\
          (kept = true -> saved files' <> None)
    end;
  outcome_backup : backup_kept retries (configuration files) (saved files) (saved files') }.

Lemma backup_spec original w files files' :
  backup original w files = Some files' ->
  configuration files' = configuration files /\
  (saved files' = saved files \/ saved files = None /\ saved files' = original) /\
  (original <> None -> saved files' <> None).
Proof.
  unfold backup. destruct original as [t|]; [|intros [= <-]; split_and!; [done|by left|done]].
  unfold readBounded. destruct (saved files) as [b|] eqn:Es.
  - destruct (byte_length b <=? CONFIG_MAX_BYTES); [|done]. intros [= <-].
    split_and!; [done|by left|]. by rewrite Es.
  - destruct (aw_backed_up w); [|done]. intros [= <-]. split_and!; [done|by right|done].
Qed.

Lemma readBounded_Some text read : readBounded text = Some read -> read = text.
Proof. unfold readBounded. destruct text as [t|]; [destruct (_ <=? _); [|done]|]; by intros [= <-]. Qed.

Lemma outcome_again next_of target action retries files m files' result :
  configuration m = aw_meanwhile (world (S retries)) (configuration files) ->
  configuration m <> configuration files ->
  backup_kept (S retries) (configuration files) (saved files) (saved m) ->
  outcome next_of target action retries m files' result ->
  outcome next_of target action (S retries) files files' result.
Proof.
  intros Hm Hne Hbk [(n & current & Hc & Hr) Hb]. rewrite Hm in Hne, Hc.
  constructor; [exists n, current; split; [by constructor|done]|].
  unfold backup_kept in *. destruct (saved files) as [b|]; [by rewrite Hbk in Hb|].
  destruct (saved m) as [b|]; [by rewrite Hb|]. destruct (saved files'); [|done].
  destruct Hb as [k Hk]. rewrite Hm in Hk. exists k. by constructor.
Qed.

Lemma mutate_outcome next_of target action retries files files' result :
  mutate next_of target action retries world files = (files', result) ->
  outcome next_of target action retries files files' result.
Proof.
  revert files. induction retries as [|retries IH]; intros files; cbn [mutate].
  all: match goal with |- context [world ?k] => pose (r := k); set (w := world k) end.
  all: assert (Hstay : outcome next_of target action r files files mutation_threw) by
    (constructor; [exists r, (configuration files); split; [constructor|by left]|];
     unfold backup_kept; by destruct (saved files)).
  all: destruct (aw_safe w); [|by intros [= <- <-]];
    destruct (readBounded (configuration files)) as [original|] eqn:Er; [|by intros [= <- <-]];
    apply readBounded_Some in Er as ->;
    destruct (next_of (configuration files)) as [next|] eqn:En; [|by intros [= <- <-]];
    destruct (unchanged (configuration files) next) eqn:Eu;
      [intros [= <- <-]; constructor;
        [exists r, (configuration files); split_and!; [constructor|done|by exists next]
        |unfold backup_kept; by destruct (saved files)]|];
    destruct (backup _ w files) as [m|] eqn:Eb; [|by intros [= <- <-]];
    destruct (backup_spec _ _ _ _ Eb) as (Hmc & Hms & Hmn).
  all: assert (Hbk : backup_kept r (configuration files) (saved files) (saved m)) by
    (unfold backup_kept; destruct Hms as [-> | [-> Hs]]; [by destruct (saved files)|];
     rewrite Hs; destruct (configuration files); [eexists; constructor|done]).
  all: assert (Hthrew : forall c, c = configuration files \/ c = aw_meanwhile w (configuration files) \/
      aw_meanwhile w (configuration files) = configuration files /\ c = aw_late w (configuration files) ->
    outcome next_of target action r files (with_configuration c m) mutation_threw) by
    (intros c Hc; constructor; [exists r, (configuration files); split; [constructor|exact Hc]|exact Hbk]).
  all: cbn [with_configuration configuration] in *; rewrite Hmc.
  all: destruct (aw_still_safe w); [|intros [= <- <-]; apply Hthrew; by auto].
  all: destruct (readBounded (aw_meanwhile w _)) as [again|] eqn:Ea; [|intros [= <- <-]; apply Hthrew; by auto].
  all: apply readBounded_Some in Ea as ->.
  all: destruct (bool_decide_reflect (aw_meanwhile w (configuration files) = configuration files)) as [Hsame|Hne];
    [|first [intros H%IH; refine (outcome_again _ _ _ _ _ _ _ _ _ _ _ H); [done|exact Hne|exact Hbk]
          |intros [= <- <-]; apply Hthrew; by auto]].
  all: rewrite Hsame.
  all: assert (Hdone : forall c, c = left_by target action (aw_late w) (configuration files) next ->
    outcome next_of target action r files (with_configuration c m)
      (mutation_done true (negb (bool_decide (configuration files = None))))) by
    (intros c ->; constructor; [|exact Hbk]; exists r, (configuration files);
     split; [constructor|]; split; [done|]; exists next; split_and!; try done;
     intros Hk; apply Hmn; intros Hnone; by rewrite Hnone in Hk).
  all: unfold left_by in Hdone; destruct (removes_file target action (configuration files));
    [destruct (aw_written w); intros [= <- <-]; [by apply Hdone|apply Hthrew; by auto]|].
  all: destruct next as [text|]; [destruct (aw_written w)|]; intros [= <- <-];
    first [by apply Hdone|apply Hthrew; by auto].
Qed.
End World.

(** C17: a change is made of what is there. Whoever else writes the
    configuration while it is read, checked and written: a change that is made
    is made of the text found both at the first and at the second look of one
    attempt, all attempts before it having found it changing; what it leaves is
    what the change makes of that very text. A change that is not made leaves
    the file as the others left it. The backup is the text an attempt found and
    is never replaced. What others write in the moment between the second look
    and the write is lost. *)
Theorem a_change_is_of_what_is_there world agent action options installation files files' r target :
  changeAgentHook agent action options installation world files = (files', r) ->
  targetFor agent (co_project options) = Some target ->
  let detected := detected_agent agent action options installation in
  let version := default "unknown" (reported_version options detected) in
  let o := with_stamp (co_hook options) detected in
  (hm_supported r = false /\ files' = files) \/
  exists result,
    outcome world (next_text agent action version o target) target action MUTATION_RETRIES files files' result /\
    (hm_supported r = true <-> result <> mutation_threw) /\
    (hm_changed r = true <-> exists kept, result = mutation_done true kept).
Proof.
  intros H Ht. cbn zeta. unfold changeAgentHook in H. rewrite Ht in H.
  destruct (if (_ && _ && _) : bool then _ else _) as [message|]; [injection H as <- <-; by left|]. right.
  destruct (mutate _ _ _ _ _ _) as [m result] eqn:Em. injection H as <- <-.
  exists result. split; [by eapply mutate_outcome|].
  destruct result as [|[] kept]; cbn; split; split; try done; try (by intros [? ?]).
  intros _. by exists kept.
Qed.

(** Only agents whose hooks were tested are given one: an installation that is
    not refused is of Muse or Cursor, or of a version not below the tested one
    whose executable is pinned. *)
Definition version_le (a b : Z * Z * Z) : Prop :=
  let '(a1, a2, a3) := a in
  let '(b1, b2, b3) := b in
  a1 < b1 \/ a1 = b1 /\ (a2 < b2 \/ a2 = b2 /\ a3 <= b3).

Lemma compatibility_spec agent version :
  agentVersionCompatibility agent version = supported \/ agentVersionCompatibility agent version = newer ->
  exists minimum m v,
    minimumTestedVersion (AGENT_COMPATIBILITY agent) = Some minimum /\
    semanticVersion minimum = Some m /\ semanticVersion version = Some v /\ version_le m v.
Proof.
  unfold agentVersionCompatibility.
  destruct (semanticVersion version) as [[[a b] c]|]; [|by intros [?|?]].
  destruct (minimumTestedVersion _) as [minimum|]; [|by intros [?|?]].
  destruct (semanticVersion minimum) as [[[a' b'] c']|] eqn:Em; [|by intros [?|?]].
  intros H. exists minimum, (a', b', c'), (a, b, c). split_and!; [done..|]. unfold version_le.
  repeat match type of H with
  | context [?x <? ?y] => destruct (Z.ltb_spec x y)
  end; try lia; by destruct H.
Qed.

Theorem only_tested_versions_are_hooked agent options installation world files :
  hm_supported (changeAgentHook agent install options installation world files).2 = true ->
  agent = id_muse \/ agent = id_cursor \/
  (launchState (AGENT_COMPATIBILITY agent) = included \/
   launchState (AGENT_COMPATIBILITY agent) = experimental /\ co_experimental options = true) /\
  exists found minimum m v,
    detected_agent agent install options installation = Some found /\
    minimumTestedVersion (AGENT_COMPATIBILITY agent) = Some minimum /\ semanticVersion minimum = Some m /\
    semanticVersion (ai_version found) = Some v /\ version_le m v.
Proof.
  unfold changeAgentHook. destruct (targetFor agent _) as [target|]; [|done].
  destruct (bool_decide_reflect (agent = id_muse)) as [|Hm]; [by left|].
  destruct (bool_decide_reflect (agent = id_cursor)) as [|Hc]; [by right; left|].
  rewrite bool_decide_true by done. cbn [andb negb]. intros H. right. right.
  destruct (gate_message agent options _ _) as [message|] eqn:Eg; [done|]. clear H.
  unfold gate_message in Eg. set (state := launchState _) in *.
  destruct (bool_decide_reflect (state = excluded)); [done|].
  destruct (bool_decide_reflect (state = gated)); [done|].
  destruct (bool_decide (state = experimental) && negb (co_experimental options)) eqn:Ee; [done|].
  destruct (detected_agent agent install options installation) as [found|] eqn:Ed; cbn [reported_version] in Eg.
  2:{ by destruct (match default None (co_detectedVersion options) with Some _ => _ | None => _ end). }
  split.
  - destruct state; try done; [by left|]. right. split; [done|]. by destruct (co_experimental options).
  - destruct (compatibility_spec agent (ai_version found)) as (minimum & m & v & ? & ? & ? & ?).
    { by destruct (agentVersionCompatibility agent (ai_version found)); auto. }
    by exists found, minimum, m, v.
Qed.

(** ** The block in Kimi's configuration *)

Fixpoint free_of (c : ascii) (s : string) : bool :=
  match s with EmptyString => true | String d s => negb (Ascii.eqb d c) && free_of c s end.

(** A text without line ends is found within one line. *)
Lemma starts_with_stops sub c a rest :
  free_of c sub = true -> starts_with sub (a +:+ String c rest) = starts_with sub a.
Proof.
  revert a. induction sub as [|d sub IH]; intros a; [done|]. cbn [free_of]. intros [Hd Hs]%andb_true_iff.
  destruct a as [|e a]; cbn [starts_with].
  - change ("" +:+ String c rest) with (String c rest). cbn [starts_with].
    apply negb_true_iff in Hd. by rewrite Hd.
  - change (String e a +:+ String c rest) with (String e (a +:+ String c rest)). cbn [starts_with]. by rewrite IH.
Qed.

Lemma index_of_line sub c a rest :
  free_of c sub = true -> sub <> "" ->
  index_of sub (a +:+ String c rest) =
  match index_of sub a with
  | Some n => Some n
  | None => (fun n => (String.length a + 1 + n)%nat) <$> index_of sub rest
  end.
Proof.
  intros Hf Hne. induction a as [|d a IH].
  - change ("" +:+ String c rest) with (String c rest). cbn [index_of String.length].
    destruct sub as [|e sub]; [done|]. cbn [starts_with].
    cbn [free_of] in Hf. apply andb_true_iff in Hf as [He _]. apply negb_true_iff in He. by rewrite He.
  - change (String d a +:+ String c rest) with (String d (a +:+ String c rest)).
    cbn [index_of]. change (String d (a +:+ String c rest)) with (String d a +:+ String c rest).
    rewrite starts_with_stops by done. destruct (starts_with sub (String d a)); [done|]. rewrite IH.
    destruct (index_of sub a); [done|]. by destruct (index_of sub rest).
Qed.

Lemma index_of_head sub rest : index_of sub (sub +:+ rest) = Some 0%nat.
Proof.
  assert (starts_with sub (sub +:+ rest) = true) as Hs by (apply starts_with_iff; by eexists).
  destruct (sub +:+ rest); cbn [index_of]; by rewrite Hs.
Qed.

Lemma string_length_app a b : String.length (a +:+ b) = (String.length a + String.length b)%nat.
Proof.
  induction a as [|c a IH]; [done|].
  change (S (String.length (a +:+ b)) = (S (String.length a) + String.length b)%nat). by rewrite IH.
Qed.

Lemma str_prefix_app a b : str_prefix (String.length a) (a +:+ b) = a.
Proof.
  induction a as [|c a IH]; [by destruct b|].
  change (String c (str_prefix (String.length a) (a +:+ b)) = String c a). by rewrite IH.
Qed.

Lemma str_suffix_app a b n : str_suffix (String.length a + n) (a +:+ b) = str_suffix n b.
Proof. induction a as [|c a IH]; [done|]. exact IH. Qed.

Lemma str_suffix_0 a : str_suffix 0 a = a.
Proof. by destruct a. Qed.

(** A text with its last line ended. *)
Definition line_ended (text : string) : string :=
  text +:+ (if str_eqb text "" || ends_with_newline text then "" else LINE_END).

Lemma code_newline c : code c = 10 -> c = chr 10.
Proof. unfold code. intros H. rewrite <- (ascii_N_embedding c). unfold chr. f_equal. lia. Qed.

Lemma ends_with_newline_split text :
  ends_with_newline text = true -> exists a, text = a +:+ LINE_END.
Proof.
  induction text as [|c text IH]; [done|]. destruct text as [|d text].
  - cbn. intros H%Z.eqb_eq. exists "". by rewrite (code_newline c H).
  - intros H. destruct (IH H) as [a E]. exists (String c a). rewrite E. done.
Qed.

Lemma line_ended_cases text :
  line_ended text = "" /\ text = "" \/
  exists a, line_ended text = a +:+ LINE_END /\ (text = a \/ text = a +:+ LINE_END).
Proof.
  unfold line_ended. destruct (str_eqb text "") eqn:E; cbn [orb].
  { apply bool_decide_eq_true in E as ->. by left. }
  right. destruct (ends_with_newline text) eqn:En.
  - destruct (ends_with_newline_split text En) as [a ->]. exists a. rewrite str_app_nil_r. split; [done|by right].
  - exists text. split; [done|by left].
Qed.

(** A marker after a text without it is found where the text ends. *)
Lemma index_after sub text rest :
  free_of (chr 10) sub = true -> sub <> "" -> index_of sub text = None ->
  index_of sub (line_ended text +:+ rest) = (fun n => (String.length (line_ended text) + n)%nat) <$> index_of sub rest.
Proof.
  intros Hf Hne Hn. destruct (line_ended_cases text) as [[-> ->]|(a & -> & Ha)].
  { change ("" +:+ rest) with rest. by destruct (index_of sub rest). }
  assert (Hna : index_of sub a = None).
  { destruct Ha as [->| ->]; [done|]. unfold LINE_END in Hn. rewrite index_of_line in Hn by done.
    by destruct (index_of sub a). }
  rewrite <- str_app_assoc. change (LINE_END +:+ rest) with (String (chr 10) rest).
  rewrite index_of_line, Hna by done. rewrite string_length_app. cbn [String.length LINE_END].
  by destruct (index_of sub rest).
Qed.

(** The lines of the block, up to its last. *)
Definition kimi_lines (command : string) : list string :=
  [KIMI_BEGIN; "[[hooks]]"; quote_text "event = 'UserPromptSubmit'"; "command = " +:+ quoted command;
   "timeout = 1"].

Definition lines_text (lines : list string) : string :=
  foldr (fun line rest => line +:+ String (chr 10) rest) "" lines.

Lemma join_lines lines last rest :
  join LINE_END (lines ++ [last]) +:+ rest = lines_text lines +:+ (last +:+ rest).
Proof.
  induction lines as [|line lines IH]; [done|]. cbn [app]. destruct (lines ++ [last]) as [|l ls] eqn:E.
  { by destruct lines. }
  change (join LINE_END (line :: l :: ls)) with (line +:+ String (chr 10) (join LINE_END (l :: ls))).
  rewrite <- str_app_assoc.
  change (String (chr 10) (join LINE_END (l :: ls)) +:+ rest) with (String (chr 10) (join LINE_END (l :: ls) +:+ rest)).
  rewrite IH. cbn [lines_text foldr]. fold (lines_text lines). rewrite <- str_app_assoc. done.
Qed.

Lemma kimiBlock_split command rest :
  kimiBlock command +:+ rest = lines_text (kimi_lines command) +:+ (KIMI_END +:+ rest).
Proof. apply (join_lines (kimi_lines command) KIMI_END). Qed.

Lemma index_of_lines sub lines rest :
  free_of (chr 10) sub = true -> sub <> "" -> Forall (fun line => index_of sub line = None) lines ->
  index_of sub (lines_text lines +:+ rest) =
  (fun n => (String.length (lines_text lines) + n)%nat) <$> index_of sub rest.
Proof.
  intros Hf Hne. induction 1 as [|line lines Hl Hls IH].
  { change (lines_text [] +:+ rest) with rest. by destruct (index_of sub rest). }
  cbn [lines_text foldr]. fold (lines_text lines). rewrite <- str_app_assoc.
  change (String (chr 10) (lines_text lines) +:+ rest) with (String (chr 10) (lines_text lines +:+ rest)).
  rewrite index_of_line, Hl, IH by done. rewrite string_length_app. cbn [String.length].
  destruct (index_of sub rest); [|done]. cbn. f_equal. lia.
Qed.

(** C21: the block leaves no trace. In a configuration of Kimi without the
    markers an installation adds its block after the last line; installing again
    with whatever command writes what a first installation would, and a removal
    gives the text back, its last line ended. *)
Theorem a_removed_block_restores_the_file text command :
  index_of KIMI_BEGIN text = None -> index_of KIMI_END text = None ->
  index_of KIMI_END ("command = " +:+ quoted command) = None ->
  exists installed,
    kimiInstall (Some text) command = Some installed /\
    (forall command', kimiInstall (Some installed) command' = kimiInstall (Some text) command') /\
    kimiUninstall (Some installed) = Some (Some (line_ended text)).
Proof.
  intros Hb He Hc. set (t := line_ended text).
  assert (Hfirst : forall c, kimiInstall (Some text) c = Some (t +:+ (kimiBlock c +:+ LINE_END))).
  { intros c. unfold kimiInstall. cbn [default id]. rewrite Hb, He.
    f_equal. unfold t, line_ended. by rewrite <- str_app_assoc. }
  set (block := kimiBlock command). exists (t +:+ (block +:+ LINE_END)). split; [apply Hfirst|].
  assert (Hbegin : index_of KIMI_BEGIN (t +:+ (block +:+ LINE_END)) = Some (String.length t)).
  { unfold t. rewrite index_after by done. unfold block. rewrite kimiBlock_split. cbn [lines_text kimi_lines foldr].
    rewrite <- str_app_assoc, index_of_head. cbn. f_equal. lia. }
  assert (Hlines : Forall (fun line => index_of KIMI_END line = None) (kimi_lines command)).
  { repeat (apply Forall_cons_2; [first [exact Hc|reflexivity]|]). apply Forall_nil_2. }
  assert (Hblock : String.length block = (String.length (lines_text (kimi_lines command)) + String.length KIMI_END)%nat).
  { rewrite <- (str_app_nil_r block). unfold block. rewrite kimiBlock_split, str_app_nil_r. apply string_length_app. }
  assert (Hend : index_of KIMI_END (t +:+ (block +:+ LINE_END)) =
                 Some (String.length t + String.length (lines_text (kimi_lines command)))%nat).
  { unfold t. rewrite index_after by done. unfold block. rewrite kimiBlock_split, index_of_lines by done.
    rewrite index_of_head. cbn. f_equal. lia. }
  assert (Hafter : (String.length t + String.length (lines_text (kimi_lines command)) + String.length KIMI_END)%nat =
                   (String.length t + (String.length block + 0))%nat) by lia.
  split.
  - intros c. rewrite Hfirst. unfold kimiInstall. cbn [default id]. rewrite Hbegin, Hend, Hafter.
    rewrite (proj2 (Nat.leb_le _ _)) by lia.
    rewrite <- (Nat.add_0_r (String.length t)) at 3. rewrite !str_suffix_app, !str_suffix_0.
    rewrite str_prefix_app.
    replace (String.length t + (String.length block + 0) - String.length t)%nat with (String.length block) by lia.
    rewrite str_prefix_app. destruct (str_eqb block (kimiBlock c)) eqn:E.
    + apply bool_decide_eq_true in E. by rewrite <- E.
    + by rewrite <- ?str_app_assoc.
  - unfold kimiUninstall. rewrite Hbegin, Hend, Hafter. rewrite (proj2 (Nat.leb_le _ _)) by lia.
    rewrite !str_suffix_app, str_suffix_0, str_prefix_app.
    change (starts_with (String (chr 13) LINE_END) LINE_END) with false.
    change (starts_with LINE_END LINE_END) with true. cbv iota.
    rewrite <- !Nat.add_assoc, !str_suffix_app. change (str_suffix (0 + 1) LINE_END) with "".
    by rewrite str_app_nil_r.
Qed.

(** ** Witnesses *)

Definition sample_configuration : string :=
  quote_text "{'theme':'dark','hooks':{'UserPromptSubmit':[{'hooks':[{'command':'/n','args':['/s','hook','--agent','codex','--host-version','1','--managed-hook','openlimiter-v1']},{'command':'mine'}],'matcher':'x'}]}}".

Definition codex_target : AgentTarget :=
  {| tg_format := format_json; tg_path := [".codex"; "hooks.json"]; tg_event := "UserPromptSubmit";
     tg_timeout := 1 |}.

Definition plain_options : HookInstallOptions :=
  {| ho_nodeExecutable := "/n"; ho_openLimiterScript := "/s"; ho_agentExecutable := None;
     ho_agentFileSize := None; ho_agentMtimeMilliseconds := None; ho_windows := false |}.

Definition changed_text (action : Action) (original : option string) : string :=
  default "" (default None (next_text id_codex action "0.152.0" plain_options codex_target original)).

Lemma a_change_keeps_every_other_hook_witness :
  exists root after,
    parseRoot (Some sample_configuration) = Some root /\
    parseRoot (Some (changed_text uninstall (Some sample_configuration))) = Some after /\
    keeps id_codex codex_target root after /\ hooks_listed id_codex root.
Proof.
  destruct (a_change_keeps_every_other_hook id_codex false codex_target "0.152.0" plain_options uninstall
    (Some sample_configuration) (changed_text uninstall (Some sample_configuration)))
    as (root & after & Hp & Ha & Hk & Hl).
  - reflexivity.
  - reflexivity.
  - discriminate.
  - vm_compute. reflexivity.
  - exists root, after. split; [exact Hp|]. split; [exact Ha|]. split; [exact Hk|].
    destruct Hl as [Hl|Hl]; [exact Hl|discriminate Hl].
Defined.

Lemma a_change_settles_witness :
  next_text id_codex uninstall "0.152.0" plain_options codex_target
      (Some (changed_text uninstall (Some sample_configuration))) =
    Some (Some (changed_text uninstall (Some sample_configuration))) /\
  hook_installed id_codex codex_target (changed_text uninstall (Some sample_configuration)) = Some false.
Proof.
  apply (a_change_settles id_codex false codex_target "0.152.0" plain_options uninstall
           (Some sample_configuration)).
  - reflexivity.
  - reflexivity.
  - discriminate.
  - discriminate.
  - vm_compute. reflexivity.
Defined.

Lemma a_removed_block_restores_the_file_witness :
  exists installed,
    kimiInstall (Some "model = 1") "node x" = Some installed /\
    (forall command', kimiInstall (Some installed) command' = kimiInstall (Some "model = 1") command') /\
    kimiUninstall (Some installed) = Some (Some (line_ended "model = 1")).
Proof. apply a_removed_block_restores_the_file; reflexivity. Defined.

(** Someone adds a line while a block is being removed. *)
Definition edited (text : option string) : option string :=
  (fun t => t +:+ "added = 1" +:+ LINE_END) <$> text.

Definition busy_world (n : nat) : AttemptWorld :=
  {| aw_safe := true; aw_meanwhile := if (n =? 3)%nat then edited else id; aw_still_safe := true;
     aw_late := id; aw_backed_up := true; aw_written := true |}.

Definition kimi_options : ChangeOptions :=
  {| co_hook := plain_options; co_project := false; co_detectedVersion := None; co_experimental := false |}.

Definition kimi_files : HookFiles :=
  {| configuration := kimiInstall (Some ("model = 1" +:+ LINE_END)) "node x"; saved := None |}.

Definition kimi_removal : HookFiles * HookMutationResult :=
  changeAgentHook id_kimi uninstall kimi_options None busy_world kimi_files.

Definition kimi_target : AgentTarget :=
  {| tg_format := format_kimi; tg_path := [".kimi"; "config.toml"]; tg_event := ""; tg_timeout := 1 |}.

Lemma a_change_is_of_what_is_there_witness :
  configuration kimi_removal.1 = edited (Some ("model = 1" +:+ LINE_END)) /\
  saved kimi_removal.1 = configuration kimi_files /\
  exists result,
    outcome busy_world (next_text id_kimi uninstall "unknown" plain_options kimi_target) kimi_target uninstall
      MUTATION_RETRIES kimi_files kimi_removal.1 result.
Proof.
  split_and!; [vm_compute; reflexivity|vm_compute; reflexivity|].
  destruct (a_change_is_of_what_is_there busy_world id_kimi uninstall kimi_options None kimi_files
              kimi_removal.1 kimi_removal.2 kimi_target) as [[H _]|(result & Ho & _)].
  - apply surjective_pairing.
  - reflexivity.
  - vm_compute in H. discriminate H.
  - by exists result.
Defined.

(** A removal from a configuration without hooks is not idle: it adds an empty
    section. *)
Example a_removal_may_write_an_empty_section :
  changed_text uninstall (Some "{}") = quote_text "{'hooks':{}}" +:+ LINE_END.
Proof. by vm_compute. Qed.

(** An installation replaces hooks that are no record, which the activity part
    alone would refuse. *)
Example an_installation_replaces_malformed_hooks :
  activityJson (Some (quote_text "{'hooks':['x']}")) id_codex install plain_options = None /\
  exists text, jsonInstall (Some (quote_text "{'hooks':['x']}")) id_codex codex_target
    (hookCommand id_codex "0.152.0" plain_options) false = Some text.
Proof.
  split; [by vm_compute|]. unfold jsonInstall.
  destruct (parseRoot _) as [root|] eqn:E; [|vm_compute in E; discriminate E].
  destruct (walk _ _ _) as [updated [found changed]]. destruct (found && negb changed); by eexists.
Qed.

Example removed_hooks :
  changed_text uninstall (Some sample_configuration) =
  quote_text "{'hooks':{'UserPromptSubmit':[{'hooks':[{'command':'mine'}],'matcher':'x'}]},'theme':'dark'}" +:+ LINE_END.
Proof. by vm_compute. Qed.
