(* ===== verification/QrField.v ===== *)
(** * The arithmetic of QR error correction

    [packages/cli/src/qr.ts]: the field of 256 elements as two tables, the
    generator polynomials and the division that makes the error correction
    codewords of a block; and that every codeword it makes vanishes at the
    roots of the generator, which is what a reader checks. *)
From S2P Require Import Prelude.
From stdpp Require Import list_numbers.
Local Open Scope Z_scope.
Local Open Scope list_scope.

(** ** GF(256) *)

(** [value <<= 1; if (value & 0x100) value ^= 0x11d] *)
Definition gf_double (value : Z) : Z :=
  let value := Z.shiftl value 1 in
  if Z.testbit value 8 then Z.lxor value 285 else value.

Fixpoint powers (n : nat) (value : Z) : list Z :=
  match n with
  | O => []
  | S n => value :: powers n (gf_double value)
  end.

(** The 512 entries: the 255 powers, and again from the start. *)
Definition EXP : list Z := let p := powers 255 1 in p ++ p ++ take 2 p.

(** An entry of a byte array, [0] when there is none. *)
Definition byte_at (l : list Z) (i : Z) : Z := default 0 (l !! Z.to_nat i).

Definition LOG : list Z :=
  foldl (fun log i => <[Z.to_nat (byte_at EXP i) := i]> log) (repeat 0 256) (seqZ 0 255).

Definition multiply (left right : Z) : Z :=
  if (left =? 0) || (right =? 0) then 0
  else byte_at EXP ((byte_at LOG left + byte_at LOG right) mod 255).

(** ** Error correction codewords *)

(** Every coefficient at its place and, times the root, at the next one. *)
Definition times_root (polynomial : list Z) (root : Z) : list Z :=
  zip_with Z.lxor (polynomial ++ [0]) (0 :: map (fun coefficient => multiply coefficient root) polynomial).

Definition generatorPolynomial (degree : nat) : list Z :=
  foldl (fun polynomial index => times_root polynomial (byte_at EXP index)) [1] (seqZ 0 (Z.of_nat degree)).

(** One byte of the division: the remainder moves one place and the generator,
    times the factor, is taken off. *)
Definition divide_byte (generator : list Z) (count : nat) (remainder : list Z) (byte : Z) : list Z :=
  let factor := Z.lxor byte (byte_at remainder 0) in
  zip_with (fun r g => Z.lxor r (multiply g factor)) (take count (drop 1 remainder ++ [0])) (drop 1 generator).

Definition errorCorrectionCodewords (data : list Z) (count : nat) : list Z :=
  foldl (divide_byte (generatorPolynomial count) count) (repeat 0 count) data.

(** The worked example of the standard's annex: ten codewords of one block. *)
Example annex_vector :
  errorCorrectionCodewords [16; 32; 12; 86; 97; 128; 236; 17; 236; 17; 236; 17; 236; 17; 236; 17] 10 =
  [165; 36; 212; 193; 237; 54; 199; 135; 44; 85].
Proof. by vm_compute. Qed.

(** ** The tables are the field *)

Definition byte (b : Z) : Prop := 0 <= b < 256.

Lemma forall_below (n : Z) (p : Z -> bool) b : forallb p (seqZ 0 n) = true -> 0 <= b < n -> p b = true.
Proof. rewrite forallb_forall. intros Hp Hb. apply Hp, list_elem_of_In, elem_of_seqZ. lia. Qed.

(** The powers of the root, at any exponent. *)
Definition pow (k : Z) : Z := byte_at EXP (k mod 255).

Lemma pow_small k : 0 <= k < 255 -> pow k = byte_at EXP k.
Proof. intros Hk. unfold pow. by rewrite Z.mod_small. Qed.

Lemma pow_mod k : pow (k mod 255) = pow k.
Proof. unfold pow. by rewrite Z.mod_mod. Qed.

#[local] Opaque EXP LOG.

Lemma pow_table k :
  0 <= k < 255 -> byte (pow k) /\ pow k <> 0 /\ byte_at LOG (pow k) = k /\ pow (k + 1) = gf_double (pow k).
Proof.
  intros Hk.
  pose proof (forall_below 255 (fun k => (0 <? pow k) && (pow k <? 256) && (byte_at LOG (pow k) =? k) &&
    (pow (k + 1) =? gf_double (pow k))) k ltac:(by vm_compute) Hk) as Hp.
  cbv beta in Hp. bools. unfold byte. lia.
Qed.

Lemma pow_facts k : byte (pow k) /\ pow k <> 0 /\ byte_at LOG (pow k) = k mod 255.
Proof.
  rewrite <- pow_mod. destruct (pow_table (k mod 255)) as (Hb & Hn & Hl & _); [by apply Z.mod_pos_bound|].
  split_and!; [exact Hb|exact Hn|exact Hl].
Qed.

Lemma pow_succ k : pow (k + 1) = gf_double (pow k).
Proof.
  rewrite <- (pow_mod k). destruct (pow_table (k mod 255)) as (_ & _ & _ & <-); [by apply Z.mod_pos_bound|].
  unfold pow. by rewrite Z.add_mod_idemp_l.
Qed.

Lemma log_table a : byte a -> a <> 0 -> pow (byte_at LOG a) = a /\ 0 <= byte_at LOG a < 255.
Proof.
  intros Ha Hn.
  pose proof (forall_below 256 (fun a => (a =? 0) || ((pow (byte_at LOG a) =? a) &&
    (0 <=? byte_at LOG a) && (byte_at LOG a <? 255))) a ltac:(by vm_compute) Ha) as Hp.
  cbv beta in Hp. apply orb_true_iff in Hp as [Hp|Hp]; bools; [done|lia].
Qed.

Lemma multiply_0_l b : multiply 0 b = 0.
Proof. done. Qed.

Lemma multiply_0_r a : multiply a 0 = 0.
Proof. unfold multiply. by rewrite orb_true_r. Qed.

Lemma multiply_pow j k : multiply (pow j) (pow k) = pow (j + k).
Proof.
  destruct (pow_facts j) as (_ & Hj & Lj), (pow_facts k) as (_ & Hk & Lk).
  unfold multiply. rewrite (proj2 (Z.eqb_neq _ _) Hj), (proj2 (Z.eqb_neq _ _) Hk). cbn [orb].
  rewrite Lj, Lk. unfold pow. by rewrite <- Z.add_mod by done.
Qed.

(** A product is zero or a power. *)
Lemma byte_cases a : byte a -> a = 0 \/ exists k, 0 <= k /\ a = pow k.
Proof.
  intros Ha. destruct (Z.eq_dec a 0) as [|Hn]; [by left|right]. destruct (log_table a Ha Hn) as [E Hl].
  exists (byte_at LOG a). split; [lia|done].
Qed.

Lemma byte_0 : byte 0.
Proof. unfold byte. lia. Qed.

Lemma multiply_byte a b : byte a -> byte b -> byte (multiply a b).
Proof.
  intros [->|(j & _ & ->)]%byte_cases [->|(k & _ & ->)]%byte_cases; rewrite ?multiply_0_l, ?multiply_0_r;
    try apply byte_0. rewrite multiply_pow. apply pow_facts.
Qed.

Lemma multiply_comm a b : multiply a b = multiply b a.
Proof. unfold multiply. by rewrite orb_comm, (Z.add_comm (byte_at LOG a)). Qed.

Lemma multiply_1_r a : byte a -> multiply a 1 = a.
Proof.
  intros [->|(j & _ & ->)]%byte_cases; [done|]. change 1 with (pow 0). by rewrite multiply_pow, Z.add_0_r.
Qed.

Lemma multiply_assoc a b c :
  byte a -> byte b -> byte c -> multiply (multiply a b) c = multiply a (multiply b c).
Proof.
  intros [->|(i & _ & ->)]%byte_cases [->|(j & _ & ->)]%byte_cases [->|(k & _ & ->)]%byte_cases;
    rewrite ?multiply_0_l, ?multiply_0_r, ?multiply_pow, ?multiply_0_l, ?multiply_0_r; try done.
  by rewrite Z.add_assoc.
Qed.

Lemma lxor_byte a b : byte a -> byte b -> byte (Z.lxor a b).
Proof.
  intros Ha Hb. assert (Hn : 0 <= Z.lxor a b) by (apply Z.lxor_nonneg; unfold byte in *; lia).
  split; [done|]. destruct (Z.eq_dec (Z.lxor a b) 0) as [->|]; [done|].
  change 256 with (2 ^ 8). apply Z.log2_lt_pow2; [lia|].
  pose proof (Z.log2_lxor a b ltac:(apply Ha) ltac:(apply Hb)) as Hl.
  assert (Hlog : forall x, byte x -> Z.log2 x < 8).
  { intros x Hx. destruct (Z.eq_dec x 0) as [->|]; [done|]. apply Z.log2_lt_pow2; unfold byte in Hx; simpl; lia. }
  pose proof (Hlog a Ha). pose proof (Hlog b Hb). lia.
Qed.

Lemma lxor_swap a b c d : Z.lxor (Z.lxor a b) (Z.lxor c d) = Z.lxor (Z.lxor a c) (Z.lxor b d).
Proof. rewrite !Z.lxor_assoc. f_equal. by rewrite <- !Z.lxor_assoc, (Z.lxor_comm b c). Qed.

Lemma gf_double_lxor a b : gf_double (Z.lxor a b) = Z.lxor (gf_double a) (gf_double b).
Proof.
  unfold gf_double. rewrite Z.shiftl_lxor, Z.lxor_spec.
  destruct (Z.testbit (Z.shiftl a 1) 8), (Z.testbit (Z.shiftl b 1) 8); cbn [xorb].
  - by rewrite lxor_swap, Z.lxor_nilpotent, Z.lxor_0_r.
  - by rewrite !Z.lxor_assoc, (Z.lxor_comm 285).
  - by rewrite Z.lxor_assoc.
  - done.
Qed.

Lemma multiply_pow_succ a k : byte a -> multiply a (pow (k + 1)) = gf_double (multiply a (pow k)).
Proof.
  intros [->|(j & _ & ->)]%byte_cases; [done|]. rewrite !multiply_pow.
  by rewrite <- pow_succ, Z.add_assoc.
Qed.

Lemma multiply_lxor_l a b c :
  byte a -> byte b -> byte c -> multiply (Z.lxor a b) c = Z.lxor (multiply a c) (multiply b c).
Proof.
  intros Ha Hb [->|(k & Hk & ->)]%byte_cases; [by rewrite !multiply_0_r|].
  pose proof (lxor_byte a b Ha Hb) as Hab. revert k Hk. apply natlike_ind.
  - change (pow 0) with 1. by rewrite !multiply_1_r.
  - intros k _ IH. unfold Z.succ. by rewrite !multiply_pow_succ, IH, gf_double_lxor.
Qed.

Lemma multiply_lxor_r a b c :
  byte a -> byte b -> byte c -> multiply c (Z.lxor a b) = Z.lxor (multiply c a) (multiply c b).
Proof. intros. rewrite !(multiply_comm c). by apply multiply_lxor_l. Qed.

(** ** Polynomials, highest coefficient first *)

(** Horner's rule from an accumulator; [eval] is a polynomial's value. *)
Definition horner (x acc : Z) (p : list Z) : Z := foldl (fun acc c => Z.lxor (multiply acc x) c) acc p.
Definition eval (x : Z) (p : list Z) : Z := horner x 0 p.

Lemma horner_byte x acc p : byte x -> byte acc -> Forall byte p -> byte (horner x acc p).
Proof.
  intros Hx Ha Hp. revert acc Ha. induction Hp as [|c p Hc Hp IH]; intros acc Ha; [done|].
  apply IH, lxor_byte; [by apply multiply_byte|done].
Qed.

Lemma horner_app x acc p q : horner x acc (p ++ q) = horner x (horner x acc p) q.
Proof. apply foldl_app. Qed.

Lemma horner_lxor x a b p q :
  byte x -> byte a -> byte b -> Forall byte p -> Forall byte q -> length p = length q ->
  horner x (Z.lxor a b) (zip_with Z.lxor p q) = Z.lxor (horner x a p) (horner x b q).
Proof.
  intros Hx Ha Hb Hp. revert q a b Ha Hb. induction Hp as [|c p Hc Hp IH]; intros [|d q] a b Ha Hb Hq Hl;
    try done. inversion Hq as [|? ? Hd Hq']; subst. simpl in Hl. cbn [zip_with horner foldl].
  rewrite multiply_lxor_l, lxor_swap by done.
  apply IH; [by apply lxor_byte; [apply multiply_byte|]..|done|by injection Hl].
Qed.

Lemma horner_scale x f a p :
  byte x -> byte f -> byte a -> Forall byte p ->
  horner x (multiply f a) (map (multiply f) p) = multiply f (horner x a p).
Proof.
  intros Hx Hf Ha Hp. revert a Ha. induction Hp as [|c p Hc Hp IH]; intros a Ha; [done|].
  cbn [map horner foldl]. rewrite multiply_assoc, <- multiply_lxor_r by (done || by apply multiply_byte).
  apply IH, lxor_byte; [by apply multiply_byte|done].
Qed.

(** ** The generator *)

Lemma map_multiply_byte f p : byte f -> Forall byte p -> Forall byte (map (multiply f) p).
Proof. intros Hf Hp. apply Forall_fmap. eapply Forall_impl; [exact Hp|]. intros. by apply multiply_byte. Qed.

Lemma zip_lxor_byte p q : Forall byte p -> Forall byte q -> Forall byte (zip_with Z.lxor p q).
Proof.
  intros Hp. revert q. induction Hp as [|c p Hc Hp IH]; intros q Hq; destruct Hq as [|d q Hd Hq];
    [constructor..|]. constructor; [by apply lxor_byte|by apply IH].
Qed.

Lemma times_root_map p root :
  times_root p root = zip_with Z.lxor (p ++ [0]) (0 :: map (multiply root) p).
Proof. unfold times_root. by rewrite (map_ext _ (multiply root)) by (intros c; apply multiply_comm). Qed.

Lemma eval_times_root x p root :
  byte x -> byte root -> Forall byte p ->
  eval x (times_root p root) = Z.lxor (multiply (eval x p) x) (multiply root (eval x p)).
Proof.
  intros Hx Hr Hp. rewrite times_root_map. unfold eval. change 0 with (Z.lxor 0 0) at 1.
  rewrite horner_lxor; try done; try apply byte_0.
  - rewrite horner_app. cbn [horner foldl]. rewrite Z.lxor_0_r. f_equal.
    rewrite <- (horner_scale x root 0 p) by (done || apply byte_0). by rewrite multiply_0_r.
  - apply Forall_app. split; [done|]. apply Forall_singleton, byte_0.
  - constructor; [apply byte_0|by apply map_multiply_byte].
  - rewrite length_app. simpl. rewrite length_map. lia.
Qed.

(** A monic polynomial of bytes with these roots. *)
Record generates (degree : nat) (g : list Z) : Prop := {
  gen_monic : exists tail, g = 1 :: tail /\ length tail = degree;
  gen_bytes : Forall byte g;
  gen_roots : forall i, 0 <= i < Z.of_nat degree -> eval (pow i) g = 0 }.

Lemma times_root_generates degree g :
  generates degree g -> Z.of_nat degree < 255 -> generates (S degree) (times_root g (byte_at EXP (Z.of_nat degree))).
Proof.
  intros [(tail & -> & Hl) Hb Hr] Hd. rewrite <- pow_small by lia.
  destruct (pow_facts (Z.of_nat degree)) as [Hp _]. split.
  - eexists. rewrite times_root_map. cbn [app zip_with map]. split; [reflexivity|].
    rewrite length_zip_with, length_app. cbn [length]. rewrite length_map. lia.
  - rewrite times_root_map. apply zip_lxor_byte.
    + apply Forall_app. split; [done|]. apply Forall_singleton, byte_0.
    + constructor; [apply byte_0|by apply map_multiply_byte].
  - intros i Hi. rewrite eval_times_root by (done || apply pow_facts).
    destruct (Z.eq_dec i (Z.of_nat degree)) as [->|Hne].
    + by rewrite (multiply_comm (eval _ _)), Z.lxor_nilpotent.
    + rewrite Hr by lia. by rewrite multiply_0_r.
Qed.

Lemma generator_generates degree : Z.of_nat degree <= 255 -> generates degree (generatorPolynomial degree).
Proof.
  induction degree as [|degree IH]; intros Hd.
  - split; [by exists []|repeat constructor; unfold byte; lia|intros i Hi; lia].
  - unfold generatorPolynomial. rewrite seqZ_S, foldl_app. cbn [foldl].
    replace (0 + Z.of_nat degree) with (Z.of_nat degree) by lia.
    apply times_root_generates; [apply IH; lia|lia].
Qed.

(** ** The division *)

Lemma zip_factor g factor r :
  zip_with (fun r g => Z.lxor r (multiply g factor)) r g = zip_with Z.lxor r (map (multiply factor) g).
Proof.
  revert r. induction g as [|c g IH]; intros [|d r]; try done. cbn [zip_with map].
  by rewrite IH, (multiply_comm c).
Qed.

(** What the division keeps: the data so far and the remainder vanish together. *)
Lemma divide_byte_keeps count g x acc r b :
  (0 < count)%nat -> generates count g -> byte x -> eval x g = 0 -> byte acc ->
  length r = count -> Forall byte r -> byte b -> horner x acc r = 0 ->
  let r' := divide_byte g count r b in
  length r' = count /\ Forall byte r' /\ horner x (Z.lxor (multiply acc x) b) r' = 0.
Proof.
  intros Hc [(tail & -> & Hl) Hg _] Hx Hroot Ha Hr Hrb Hb E. cbv zeta.
  destruct r as [|r0 rt]; [simpl in Hr; lia|]. apply Forall_cons in Hrb as [Hr0 Hrt].
  apply Forall_cons in Hg as [_ Htail]. simpl in Hr. unfold divide_byte. change (byte_at (r0 :: rt) 0) with r0.
  rewrite zip_factor, !skipn_cons, !drop_0.
  rewrite take_ge by (rewrite length_app; simpl; lia).
  set (factor := Z.lxor b r0). assert (Hf : byte factor) by by apply lxor_byte.
  assert (Hshift : Forall byte (rt ++ [0])) by (apply Forall_app; split; [done|apply Forall_singleton, byte_0]).
  split_and!.
  - rewrite length_zip_with, length_app, length_map. simpl. lia.
  - apply zip_lxor_byte; [done|by apply map_multiply_byte].
  - replace (Z.lxor (multiply acc x) b) with (Z.lxor (Z.lxor (multiply acc x) r0) factor)
      by (unfold factor; rewrite Z.lxor_assoc, (Z.lxor_comm b), <- (Z.lxor_assoc r0), Z.lxor_nilpotent; done).
    rewrite horner_lxor; try done.
    + assert (E1 : horner x (Z.lxor (multiply acc x) r0) (rt ++ [0]) = 0).
      { rewrite horner_app. change (horner x (Z.lxor (multiply acc x) r0) rt) with (horner x acc (r0 :: rt)).
        by rewrite E. }
      assert (E2 : horner x factor (map (multiply factor) tail) = 0).
      { rewrite <- (multiply_1_r factor) at 1 by done. rewrite horner_scale by (done || (unfold byte; lia)).
        change (horner x 1 tail) with (eval x (1 :: tail)). by rewrite Hroot, multiply_0_r. }
      by rewrite E1, E2.
    + by apply lxor_byte; [apply multiply_byte|].
    + by apply map_multiply_byte.
    + rewrite length_app, length_map. simpl. lia.
Qed.

Lemma horner_zeros x n : horner x 0 (repeat 0 n) = 0.
Proof. induction n as [|n IH]; [done|]. exact IH. Qed.

Lemma division_keeps count g x data :
  (0 < count)%nat -> generates count g -> byte x -> eval x g = 0 -> Forall byte data ->
  forall acc r, byte acc -> length r = count -> Forall byte r -> horner x acc r = 0 ->
  let r' := foldl (divide_byte g count) r data in
  length r' = count /\ Forall byte r' /\ horner x (horner x acc data) r' = 0.
Proof.
  intros Hc Hg Hx Hroot Hdata. induction Hdata as [|b data Hb Hdata IH]; intros acc r Ha Hr Hrb E; [done|].
  cbn [foldl horner]. destruct (divide_byte_keeps count g x acc r b) as (Hr' & Hrb' & E'); try done.
  apply IH; try done. apply lxor_byte; [by apply multiply_byte|done].
Qed.

Lemma ecc_spec data count :
  Forall byte data -> (0 < count)%nat -> Z.of_nat count <= 255 ->
  length (errorCorrectionCodewords data count) = count /\ Forall byte (errorCorrectionCodewords data count) /\
  forall i, 0 <= i < Z.of_nat count -> eval (pow i) (data ++ errorCorrectionCodewords data count) = 0.
Proof.
  intros Hdata Hc Hle. pose proof (generator_generates count Hle) as Hg.
  assert (Hall : forall i, 0 <= i < Z.of_nat count -> let r := errorCorrectionCodewords data count in
    length r = count /\ Forall byte r /\ horner (pow i) (eval (pow i) data) r = 0).
  { intros i Hi. apply (division_keeps count _ (pow i) data); try done.
    - apply pow_facts.
    - by apply gen_roots with count.
    - apply repeat_length.
    - apply Forall_forall. intros z Hz%list_elem_of_In%repeat_spec. subst. apply byte_0.
    - apply horner_zeros. }
  destruct (Hall 0 ltac:(lia)) as (Hl & Hb & _). split_and!; [done..|].
  intros i Hi. unfold eval. rewrite horner_app. by apply Hall.
Qed.

(** C25: The error correction codewords are a Reed-Solomon code. Whatever the bytes
    of a block, the division leaves exactly the asked number of codewords, and
    data and codewords together are a polynomial that vanishes at as many
    consecutive powers of the field's generator as there are codewords: the
    condition by which a reader finds and corrects errors. *)
Theorem codewords_vanish_at_the_roots data count :
  Forall byte data -> (0 < count)%nat -> Z.of_nat count <= 255 ->
  length (errorCorrectionCodewords data count) = count /\
  forall i, 0 <= i < Z.of_nat count -> eval (pow i) (data ++ errorCorrectionCodewords data count) = 0.
Proof. intros Hd Hc Hle. destruct (ecc_spec data count Hd Hc Hle) as (Hl & _ & Hr). done. Qed.

Lemma codewords_vanish_at_the_roots_witness :
  eval (pow 9) ([16; 32; 12; 86; 97; 128; 236; 17; 236; 17; 236; 17; 236; 17; 236; 17] ++
    errorCorrectionCodewords [16; 32; 12; 86; 97; 128; 236; 17; 236; 17; 236; 17; 236; 17; 236; 17] 10) = 0.
Proof.
  apply codewords_vanish_at_the_roots; [|lia..].
  repeat (constructor; [unfold byte; lia|]). constructor.
Defined.
