(* ===== verification/Qr.v ===== *)
(** * The QR encoder

    [packages/cli/src/qr.ts]: byte mode, error correction level M, versions 1
    to 6. A grid is a list of rows of numbers, [-1] where nothing was drawn; a
    symbol is a list of rows of modules, [true] for dark. Coordinates are row
    and column. *)
From S2P Require Import Prelude JsNum Json QrField.
From stdpp Require Import list_numbers.
Local Open Scope Z_scope.
Local Open Scope list_scope.
Local Open Scope js_scope.

Definition MAX_QR_VERSION : Z := 6.

Definition qrSize (version : Z) : Z := 17 + version * 4.

Record VersionSpec := {
  vs_blocks : list nat; vs_ecPerBlock : nat; vs_remainderBits : nat; vs_alignment : list Z }.

Definition VERSIONS : list VersionSpec :=
  [{| vs_blocks := [16]%nat; vs_ecPerBlock := 10%nat; vs_remainderBits := 0%nat; vs_alignment := [] |};
   {| vs_blocks := [28]%nat; vs_ecPerBlock := 16%nat; vs_remainderBits := 7%nat; vs_alignment := [6; 18] |};
   {| vs_blocks := [44]%nat; vs_ecPerBlock := 26%nat; vs_remainderBits := 7%nat; vs_alignment := [6; 22] |};
   {| vs_blocks := [32; 32]%nat; vs_ecPerBlock := 18%nat; vs_remainderBits := 7%nat; vs_alignment := [6; 26] |};
   {| vs_blocks := [43; 43]%nat; vs_ecPerBlock := 24%nat; vs_remainderBits := 7%nat; vs_alignment := [6; 30] |};
   {| vs_blocks := [27; 27; 27; 27]%nat; vs_ecPerBlock := 16%nat; vs_remainderBits := 7%nat; vs_alignment := [6; 34] |}].

(** [None]: it throws. *)
Definition specFor (version : Z) : option VersionSpec :=
  check 1 <=? version;; VERSIONS !! Z.to_nat (version - 1).

Definition dataCodewords (spec : VersionSpec) : nat := foldl Nat.add 0%nat (vs_blocks spec).

(** ** Bits *)

(** [BitWriter.push]: the low bits of a value, highest first. *)
Definition push (value : Z) (length : nat) : list bool :=
  map (fun index => Z.testbit value (Z.of_nat index)) (rev (seq 0 length)).

(** At most eight bits, from the top of a byte down. *)
Definition byte_of_bits (bits : list bool) : Z :=
  foldl Z.lor 0 (imap (fun index (bit : bool) => if bit then Z.shiftr 128 (Z.of_nat index) else 0) bits).

(** [BitWriter.toBytes] *)
Fixpoint toBytes (bits : list bool) : list Z :=
  match bits with
  | [] => []
  | b0 :: b1 :: b2 :: b3 :: b4 :: b5 :: b6 :: b7 :: bits => byte_of_bits [b0; b1; b2; b3; b4; b5; b6; b7] :: toBytes bits
  | bits => [byte_of_bits bits]
  end.

(** ** Codewords *)

(** Four bits of mode and eight of length are two codewords. *)
Definition has_room (byteLength : nat) (version : Z) : bool :=
  match specFor version with Some spec => (byteLength + 2 <=? dataCodewords spec)%nat | None => false end.

(** The first version with room; [None]: the text is too long. *)
Definition chooseVersion (byteLength : nat) : option Z :=
  head (filter (fun version => has_room byteLength version = true) (seqZ 1 MAX_QR_VERSION)).

Definition pad_codeword (index : nat) : Z := if Nat.even index then 236 else 17.

Definition buildCodewords (bytes : list Z) (spec : VersionSpec) : list Z :=
  let capacity := dataCodewords spec in
  let written := push 4 4 ++ push (Z.of_nat (length bytes)) 8 ++ concat (map (fun byte => push byte 8) bytes) in
  let terminator := Nat.min 4 (capacity * 8 - length written) in
  let written := written ++ repeat false terminator in
  let written := written ++ repeat false ((8 - length written mod 8) mod 8) in
  let padded := toBytes written in
  padded ++ map pad_codeword (seq 0 (capacity - length padded)).

Fixpoint split_blocks (sizes : list nat) (codewords : list Z) : list (list Z) :=
  match sizes with
  | [] => []
  | size :: sizes => take size codewords :: split_blocks sizes (drop size codewords)
  end.

(** One codeword of every block in turn. *)
Definition turns (longest : nat) (blocks : list (list Z)) : list Z :=
  concat (map (fun index => omap (fun block => block !! index) blocks) (seq 0 longest)).

Definition interleave (codewords : list Z) (spec : VersionSpec) : list Z :=
  let dataBlocks := split_blocks (vs_blocks spec) codewords in
  let ecBlocks := map (fun block => errorCorrectionCodewords block (vs_ecPerBlock spec)) dataBlocks in
  turns (foldl Nat.max 0%nat (vs_blocks spec)) dataBlocks ++ turns (vs_ecPerBlock spec) ecBlocks.

(** ** The grid *)

Definition set_at {A} (grid : list (list A)) (row column : Z) (value : A) : list (list A) :=
  if (row <? 0) || (column <? 0) then grid
  else alter (fun line => <[Z.to_nat column := value]> line) (Z.to_nat row) grid.

Definition get_at {A} (grid : list (list A)) (row column : Z) : option A :=
  check negb ((row <? 0) || (column <? 0));; grid !! Z.to_nat row ≫= fun line => line !! Z.to_nat column.

Definition emptyGrid (size : Z) : list (list Z) := repeat (repeat (-1) (Z.to_nat size)) (Z.to_nat size).

Definition place (grid : list (list Z)) (row column : Z) (dark : bool) : list (list Z) :=
  set_at grid row column (if dark then 1 else 0).

Definition at_ (grid : list (list Z)) (row column : Z) : Z := default (-1) (get_at grid row column).

(** Every pair of two ranges, the first one outermost. *)
Definition pairs (ys xs : list Z) : list (Z * Z) := ys ≫= fun y => map (fun x => (y, x)) xs.

Definition gridSize {A} (grid : list (list A)) : Z := Z.of_nat (length grid).

Definition drawFinder (grid : list (list Z)) (row column : Z) : list (list Z) :=
  foldl (fun grid '(y, x) =>
    let targetRow := row + y in
    let targetColumn := column + x in
    if (targetRow <? 0) || (targetColumn <? 0) || (gridSize grid <=? targetRow) || (gridSize grid <=? targetColumn)
    then grid
    else
      let onRing := ((0 <=? y) && (y <=? 6) && ((x =? 0) || (x =? 6))) ||
                    ((0 <=? x) && (x <=? 6) && ((y =? 0) || (y =? 6))) in
      let inCore := (2 <=? y) && (y <=? 4) && (2 <=? x) && (x <=? 4) in
      place grid targetRow targetColumn (onRing || inCore))
    grid (pairs (seqZ (-1) 9) (seqZ (-1) 9)).

Definition drawAlignment (grid : list (list Z)) (row column : Z) : list (list Z) :=
  foldl (fun grid '(y, x) => place grid (row + y) (column + x) (negb (Z.max (Z.abs x) (Z.abs y) =? 1)))
    grid (pairs (seqZ (-2) 5) (seqZ (-2) 5)).

Definition place_if_empty (grid : list (list Z)) (row column : Z) : list (list Z) :=
  if at_ grid row column =? -1 then place grid row column false else grid.

Definition drawFunctionPatterns (grid : list (list Z)) (spec : VersionSpec) : list (list Z) :=
  let size := gridSize grid in
  let grid := drawFinder grid 0 0 in
  let grid := drawFinder grid 0 (size - 7) in
  let grid := drawFinder grid (size - 7) 0 in
  let grid := foldl (fun grid index => place (place grid 6 index (index mod 2 =? 0)) index 6 (index mod 2 =? 0))
                grid (seqZ 8 (size - 16)) in
  let grid := foldl (fun grid '(row, column) =>
                let onFinder := ((row =? 6) && (column =? 6)) || ((row =? 6) && (column =? size - 7)) ||
                                ((row =? size - 7) && (column =? 6)) in
                if onFinder then grid else drawAlignment grid row column)
                grid (pairs (vs_alignment spec) (vs_alignment spec)) in
  let grid := place grid (size - 8) 8 true in
  let grid := foldl (fun grid index => place_if_empty (place_if_empty grid 8 index) index 8) grid (seqZ 0 9) in
  foldl (fun grid index => place_if_empty (place_if_empty grid 8 (size - 1 - index)) (size - 1 - index) 8)
    grid (seqZ 0 8).

(** A square table of a function of row and column. *)
Definition table {A} (size : Z) (f : Z -> Z -> A) : list (list A) :=
  map (fun row => map (fun column => f row column) (seqZ 0 size)) (seqZ 0 size).

Definition functionMask (version : Z) (spec : VersionSpec) : list (list bool) :=
  let size := qrSize version in
  let grid := drawFunctionPatterns (emptyGrid size) spec in
  table size (fun row column => negb (at_ grid row column =? -1)).

Definition is_reserved (reserved : list (list bool)) (row column : Z) : bool :=
  bool_decide (get_at reserved row column = Some true).

(** The right column of every pair, from the right edge, stepping over column six. *)
Fixpoint right_columns (fuel : nat) (right : Z) : list Z :=
  match fuel with
  | O => []
  | S fuel =>
      if 1 <=? right then
        let right := if right =? 6 then 5 else right in right :: right_columns fuel (right - 2)
      else []
  end.

(** The modules in the order the bits take them. *)
Definition walk (size : Z) (reserved : list (list bool)) : list (Z * Z) :=
  filter (fun p : Z * Z => is_reserved reserved p.1 p.2 = false)
    (right_columns (Z.to_nat size) (size - 1) ≫= fun right =>
     seqZ 0 size ≫= fun step =>
     map (fun offset =>
       let column := right - offset in
       let upward := Z.land (right + 1) 2 =? 0 in
       (if upward then size - 1 - step else step, column)) (seqZ 0 2)).

(** The bit of that index; modules past the last one stay light. *)
Definition codeword_bit (bits : list Z) (bitIndex : nat) : bool :=
  if (bitIndex <? length bits * 8)%nat
  then Z.testbit (default 0 (bits !! (bitIndex / 8)%nat)) (7 - Z.of_nat (bitIndex mod 8))
  else false.

Definition placeData (grid : list (list Z)) (reserved : list (list bool)) (bits : list Z) : list (list Z) :=
  (foldl (fun '(grid, bitIndex) '(row, column) =>
     (place grid row column (codeword_bit bits bitIndex), S bitIndex))
     (grid, 0%nat) (walk (gridSize grid) reserved)).1.

Definition MASKS : list (Z -> Z -> bool) :=
  [fun row column => (row + column) mod 2 =? 0;
   fun row _ => row mod 2 =? 0;
   fun _ column => column mod 3 =? 0;
   fun row column => (row + column) mod 3 =? 0;
   fun row column => (row / 2 + column / 3) mod 2 =? 0;
   fun row column => (row * column) mod 2 + (row * column) mod 3 =? 0;
   fun row column => ((row * column) mod 2 + (row * column) mod 3) mod 2 =? 0;
   fun row column => ((row + column) mod 2 + (row * column) mod 3) mod 2 =? 0].

Definition mask_rule (mask : nat) : option (Z -> Z -> bool) := MASKS !! mask.

(** [None]: it throws. *)
Definition applyMask (grid : list (list Z)) (reserved : list (list bool)) (mask : nat) :
    option (list (list bool)) :=
  match mask_rule mask with
  | None => None
  | Some rule =>
      Some (table (gridSize grid) (fun row column =>
        let value := at_ grid row column =? 1 in
        if is_reserved reserved row column then value
        else if rule row column then negb value else value))
  end.

(** ** Penalties *)

Definition run_cost (run : Z) : Z := if 5 <=? run then 3 + (run - 5) else 0.

Fixpoint runs_after (previous : bool) (run : Z) (line : list bool) : Z :=
  match line with
  | [] => run_cost run
  | module :: line =>
      if Bool.eqb module previous then runs_after module (run + 1) line
      else run_cost run + runs_after module 1 line
  end.

Definition runPenalty (line : list bool) : Z :=
  match line with [] => 0 | module :: line => runs_after module 1 line end.

Definition FINDER_LIKE : list bool :=
  [true; false; true; true; true; false; true; false; false; false; false].

Fixpoint finderPenalty (line : list bool) : Z :=
  match line with
  | [] => 0
  | _ :: rest =>
      (if bool_decide (take 11 line = FINDER_LIKE) || bool_decide (take 11 line = rev FINDER_LIKE) then 40 else 0) +
      finderPenalty rest
  end.

Definition module_at (modules : list (list bool)) (row column : Z) : bool :=
  bool_decide (get_at modules row column = Some true).

Definition sum (l : list Z) : Z := foldl Z.add 0 l.

Definition line_penalty (line : list bool) : Z := runPenalty line + finderPenalty line.

Definition square_penalty (modules : list (list bool)) (row column : Z) : Z :=
  let value := module_at modules row column in
  if (0 <? row) && (0 <? column) && Bool.eqb value (module_at modules (row - 1) column) &&
     Bool.eqb value (module_at modules row (column - 1)) &&
     Bool.eqb value (module_at modules (row - 1) (column - 1)) then 3 else 0.

(** [Math.floor(Math.abs(ratio - 50) / 5) * 10], in the language's numbers. *)
Definition balance_penalty (dark size : Z) : Z :=
  let ratio := int (dark * 100) ⊘ int (size * size) in
  let distance := ratio ⊖ int 50 in
  let distance := if distance <# int 0 then nneg distance else distance in
  default 0 (to_int (nfloor (distance ⊘ int 5))) * 10.

Definition penalty (modules : list (list bool)) : Z :=
  let size := gridSize modules in
  let cells := pairs (seqZ 0 size) (seqZ 0 size) in
  let columns := table size (fun column row => module_at modules row column) in
  let dark := length (filter (fun p : Z * Z => module_at modules p.1 p.2 = true) cells) in
  sum (map line_penalty modules) + sum (map (fun p : Z * Z => square_penalty modules p.1 p.2) cells) +
  sum (map line_penalty columns) + balance_penalty (Z.of_nat dark) size.

(** ** The format *)

(** [remainder ^= 0x537 << (bit - 10)] from bit 14 down to bit 10. *)
Definition formatBits (mask : Z) : Z :=
  let data := mask in
  let remainder :=
    foldl (fun remainder bit =>
      if Z.testbit remainder bit then Z.lxor remainder (Z.shiftl 1335 (bit - 10)) else remainder)
      (Z.shiftl data 10) [14; 13; 12; 11; 10] in
  Z.lxor (Z.lor (Z.shiftl data 10) remainder) 21522.

(** What is written, in order: both copies and the dark module. *)
Definition format_writes (size mask : Z) : list (Z * Z * bool) :=
  let bits := formatBits mask in
  let dark index := Z.testbit bits index in
  map (fun index => (index, 8, dark index)) (seqZ 0 6) ++
  [(7, 8, dark 6); (8, 8, dark 7); (8, 7, dark 8)] ++
  map (fun index => (8, 14 - index, dark index)) (seqZ 9 6) ++
  map (fun index => (8, size - 1 - index, dark index)) (seqZ 0 8) ++
  map (fun index => (size - 15 + index, 8, dark index)) (seqZ 8 7) ++
  [(size - 8, 8, true)].

Definition writeFormat (modules : list (list bool)) (mask : Z) : list (list bool) :=
  foldl (fun modules '(row, column, value) => set_at modules row column value) modules
    (format_writes (gridSize modules) mask).

(** ** Encoding *)

Record QrMatrix := { qr_version : Z; qr_size : Z; qr_mask : Z; qr_modules : list (list bool) }.

(** A symbol under one mask. *)
Definition candidate (grid : list (list Z)) (reserved : list (list bool)) (mask : Z) : option (list (list bool)) :=
  let? modules := applyMask grid reserved (Z.to_nat mask) in Some (writeFormat modules mask).

(** The best so far: its mask, its score and its modules. *)
Definition better (grid : list (list Z)) (reserved : list (list bool))
    (best : option (option (Z * Z * list (list bool)))) (mask : Z) : option (option (Z * Z * list (list bool))) :=
  let? best := best in
  let? modules := candidate grid reserved mask in
  let score := penalty modules in
  match best with
  | Some (_, bestScore, _) => if score <? bestScore then Some (Some (mask, score, modules)) else Some best
  | None => Some (Some (mask, score, modules))
  end.

(** The grid with everything but a mask, and what the patterns reserve. *)
Definition drawn (version : Z) (spec : VersionSpec) (codewords : list Z) : list (list Z) * list (list bool) :=
  let reserved := functionMask version spec in
  let grid := drawFunctionPatterns (emptyGrid (qrSize version)) spec in
  (placeData grid reserved codewords, reserved).

(** [None]: it throws. *)
Definition encodeQr (text : string) : option QrMatrix :=
  let bytes := utf8 text in
  let? version := chooseVersion (length bytes) in
  let? spec := specFor version in
  let codewords := interleave (buildCodewords bytes spec) spec in
  let '(grid, reserved) := drawn version spec codewords in
  let? best := foldl (better grid reserved) (Some None) (seqZ 0 (Z.of_nat (length MASKS))) in
  let? (bestMask, _, modules) := best in
  Some {| qr_version := version; qr_size := qrSize version; qr_mask := bestMask; qr_modules := modules |}.

(** ** Drawing in a terminal *)

Definition QUIET_ZONE : Z := 4.

(** Text in code units: the blocks lie beyond the first 256. *)
Fixpoint units (s : string) : list Z :=
  match s with EmptyString => [] | String c s => code c :: units s end.

(** One line of two rows of modules; with colour, the codes before it. *)
Fixpoint render_cells (color : bool) (cells : list (bool * bool)) (previous : string) : list Z :=
  match cells with
  | [] => []
  | (top, bottom) :: cells =>
      if color then
        let codes := (if top then "30" else "97") +:+ ";" +:+ (if bottom then "40" else "107") in
        (if str_eqb codes previous then [] else 27 :: units ("[" +:+ codes +:+ "m")) ++
        9600 :: render_cells color cells codes
      else
        (if top && bottom then 9608 else if top then 9600 else if bottom then 9604 else 32) ::
        render_cells color cells previous
  end.

(** [lines.join("\n")] *)
Fixpoint join_lines (lines : list (list Z)) : list Z :=
  match lines with
  | [] => []
  | [line] => line
  | line :: lines => line ++ 10 :: join_lines lines
  end.

Definition renderQr (matrix : QrMatrix) (color : bool) : list Z :=
  let span := qr_size matrix + QUIET_ZONE * 2 in
  let dark row column :=
    let y := row - QUIET_ZONE in
    let x := column - QUIET_ZONE in
    if (y <? 0) || (x <? 0) || (qr_size matrix <=? y) || (qr_size matrix <=? x) then false
    else module_at (qr_modules matrix) y x in
  let rows := map (fun index => 2 * index) (seqZ 0 ((span + 1) / 2)) in
  let lines := map (fun row =>
    render_cells color
      (map (fun column => (dark row column, (row + 1 <? span) && dark (row + 1) column)) (seqZ 0 span)) "" ++
    (if color then 27 :: units "[0m" else [])) rows in
  join_lines lines.
