(* ===== verification/QrLayout.v ===== *)
(** * The QR symbol as it is published

    A reader of byte mode symbols of level M, versions 1 to 6, written from the
    layout of ISO/IEC 18004 and from nothing of the encoder in [Qr]: its own
    table of block structures, map of the function patterns with their colours,
    order of the modules, mask conditions, table of format sequences and
    arithmetic of the code. It is strict: every module of a pattern has its
    colour, both copies of the format agree on a sequence of the table, and
    every block is a codeword; so a reader that corrects errors reads no less.
    Coordinates are row and column. *)
From S2P Require Import Prelude.
From stdpp Require Import list_numbers.
Local Open Scope Z_scope.
Local Open Scope list_scope.
Local Open Scope js_scope.

(** ** Versions *)

Definition std_size (version : Z) : Z := 4 * version + 17.

(** The blocks of level M: how many, their data and their check codewords. *)
Definition std_layout (version : Z) : option (nat * nat * nat) :=
  if version =? 1 then Some (1, 16, 10)%nat
  else if version =? 2 then Some (1, 28, 16)%nat
  else if version =? 3 then Some (1, 44, 26)%nat
  else if version =? 4 then Some (2, 32, 18)%nat
  else if version =? 5 then Some (2, 43, 24)%nat
  else if version =? 6 then Some (4, 27, 16)%nat
  else None.

(** ** Function patterns *)

Definition finder_centres (size : Z) : list (Z * Z) := [(3, 3); (3, size - 4); (size - 4, 3)].

(** Versions 2 to 6 have one alignment pattern. *)
Definition alignment_centres (version size : Z) : list (Z * Z) :=
  if 2 <=? version then [(size - 7, size - 7)] else [].

Definition ring (centre : Z * Z) (row column : Z) : Z :=
  Z.max (Z.abs (row - centre.1)) (Z.abs (column - centre.2)).

(** The colour of a module of the finders with their separators, of the
    alignment and timing patterns, and of the one that is always dark. *)
Definition std_fixed (version row column : Z) : option bool :=
  let size := std_size version in
  match List.find (fun centre => ring centre row column <=? 4) (finder_centres size),
        List.find (fun centre => ring centre row column <=? 2) (alignment_centres version size) with
  | Some centre, _ =>
      let d := ring centre row column in Some ((d <=? 1) || (d =? 3))
  | None, Some centre => Some (negb (ring centre row column =? 1))
  | None, None =>
      if (row =? 6) || (column =? 6) then Some (Z.even (row + column))
      else if (row =? size - 8) && (column =? 8) then Some true else None
  end.

(** The two copies of the format, highest bit first. *)
Definition format_beside_finder : list (Z * Z) :=
  map (fun column => (8, column)) [0; 1; 2; 3; 4; 5; 7; 8] ++ map (fun row => (row, 8)) [7; 5; 4; 3; 2; 1; 0].

Definition format_apart (size : Z) : list (Z * Z) :=
  map (fun k => (size - k, 8)) [1; 2; 3; 4; 5; 6; 7] ++ map (fun k => (8, size - k)) [8; 7; 6; 5; 4; 3; 2; 1].

Definition std_data_module (version row column : Z) : bool :=
  bool_decide (std_fixed version row column = None) &&
  negb (bool_decide ((row, column) ∈ format_beside_finder ++ format_apart (std_size version))).

(** ** The order of the modules *)

(** The pairs of columns from the right, stepping over the timing column; the
    first one is read upwards, the next one downwards. *)
Definition std_order (version : Z) : list (Z * Z) :=
  let size := std_size version in
  filter (fun p : Z * Z => std_data_module version p.1 p.2 = true)
    (concat (map (fun k =>
       let right := if size - 1 - 2 * k <=? 6 then size - 2 - 2 * k else size - 1 - 2 * k in
       let rows := if Z.even k then rev (seqZ 0 size) else seqZ 0 size in
       concat (map (fun row => [(row, right); (row, right - 1)]) rows)) (seqZ 0 ((size - 1) / 2)))).

(** ** Masks and formats *)

(** The condition of a mask: a module it holds for is inverted. *)
Definition std_mask (mask row column : Z) : bool :=
  match mask with
  | 0 => Z.even (row + column)
  | 1 => Z.even row
  | 2 => column mod 3 =? 0
  | 3 => (row + column) mod 3 =? 0
  | 4 => Z.even (row / 2 + column / 3)
  | 5 => (row * column) mod 2 + (row * column) mod 3 =? 0
  | 6 => Z.even ((row * column) mod 2 + (row * column) mod 3)
  | 7 => Z.even ((row + column) mod 2 + (row * column) mod 3)
  | _ => false
  end.

(** The thirty-two format sequences: levels M, L, H and Q, masks 0 to 7. *)
Definition FORMAT_SEQUENCES : list Z :=
  [0x5412; 0x5125; 0x5E7C; 0x5B4B; 0x45F9; 0x40CE; 0x4F97; 0x4AA0;
   0x77C4; 0x72F3; 0x7DAA; 0x789D; 0x662F; 0x6318; 0x6C41; 0x6976;
   0x1689; 0x13BE; 0x1CE7; 0x19D0; 0x0762; 0x0255; 0x0D0C; 0x083B;
   0x355F; 0x3068; 0x3F31; 0x3A06; 0x24B4; 0x2183; 0x2EDA; 0x2BED].

(** Any two of them differ in at least seven bits, so three errors in each
    copy leave a sequence closest to its own: the table is the published code. *)
Definition bit_count (v : Z) : nat := length (filter (fun k => Z.testbit v k = true) (seqZ 0 15)).

Example format_distance :
  forallb (fun a => forallb (fun b => (a =? b) || (7 <=? bit_count (Z.lxor a b))%nat) FORMAT_SEQUENCES)
    FORMAT_SEQUENCES = true.
Proof. by vm_compute. Qed.

(** ** Reading *)

Definition dark (modules : list (list bool)) (p : Z * Z) : bool :=
  match modules !! Z.to_nat p.1 with
  | Some line => default false (line !! Z.to_nat p.2)
  | None => false
  end.

Definition number_of (bits : list bool) : Z := foldl (fun v (b : bool) => 2 * v + (if b then 1 else 0)) 0 bits.

Definition cells (size : Z) : list (Z * Z) :=
  concat (map (fun row => map (fun column => (row, column)) (seqZ 0 size)) (seqZ 0 size)).

Definition patterns_ok (version : Z) (modules : list (list bool)) : bool :=
  forallb (fun p : Z * Z =>
    match std_fixed version p.1 p.2 with
    | Some colour => Bool.eqb (dark modules p) colour
    | None => true
    end) (cells (std_size version)).

(** The mask of a symbol of level M whose two formats agree. *)
Definition std_format (size : Z) (modules : list (list bool)) : option Z :=
  let first := number_of (map (dark modules) format_beside_finder) in
  let second := number_of (map (dark modules) (format_apart size)) in
  check first =? second;;
  let? (index, _) := list_find (fun v => v = first) FORMAT_SEQUENCES in
  check (index <? 8)%nat;; Some (Z.of_nat index).

Fixpoint eights (n : nat) (bits : list bool) : list Z :=
  match n with
  | O => []
  | S n => number_of (take 8 bits) :: eights n (drop 8 bits)
  end.

(** [k] blocks of [n] codewords that took turns. *)
Definition apart (k n : nat) (codewords : list Z) : list (list Z) :=
  map (fun j => map (fun i => default 0 (codewords !! (i * k + j)%nat)) (seq 0 n)) (seq 0 k).

(** The field of 256 elements: doubling modulo x^8 + x^4 + x^3 + x^2 + 1, and a
    polynomial at a power of two by Horner's rule. *)
Definition std_double (v : Z) : Z := if 128 <=? v then Z.lxor (2 * v) 0x11D else 2 * v.

Definition value_at (power : nat) (block : list Z) : Z :=
  foldl (fun v c => Z.lxor (Nat.iter power std_double v) c) 0 block.

Definition is_codeword (checks : nat) (block : list Z) : bool :=
  forallb (fun power => value_at power block =? 0) (seq 0 checks).

(** Byte mode, eight bits of length, the bytes. *)
Definition std_message (data : list Z) : option (list Z) :=
  let bits := concat (map (fun c => map (fun k => Z.testbit c k) [7; 6; 5; 4; 3; 2; 1; 0]) data) in
  check number_of (take 4 bits) =? 4;;
  let length := Z.to_nat (number_of (take 8 (drop 4 bits))) in
  check (12 + 8 * length <=? List.length bits)%nat;;
  Some (eights length (drop 12 bits)).

Definition scanQr (modules : list (list bool)) : option (list Z) :=
  let size := Z.of_nat (length modules) in
  let version := (size - 17) / 4 in
  check size =? std_size version;;
  let? (k, n, checks) := std_layout version in
  check patterns_ok version modules;;
  let? mask := std_format size modules in
  let bits := map (fun p : Z * Z => xorb (dark modules p) (std_mask mask p.1 p.2)) (std_order version) in
  let total := (k * (n + checks))%nat in
  check (8 * total <=? length bits)%nat;;
  let codewords := eights total bits in
  let data := apart k n (take (k * n) codewords) in
  let check_blocks := apart k checks (drop (k * n) codewords) in
  check forallb (is_codeword checks) (zip_with app data check_blocks);;
  std_message (concat data).
