(* ===== verification/QrRead.v ===== *)
(** * What the encoder draws

    The symbols [Qr] makes against the layout of [QrLayout]: the function
    patterns have their colours, the data modules are the published ones in
    their order, both copies of the format state the mask, and the data modules,
    unmasked, are the bits of the codewords. What does not depend on the text is
    checked version by version. *)
From S2P Require Import Prelude JsNum Json QrField Qr QrLayout.
From stdpp Require Import list_numbers.
Local Open Scope Z_scope.
Local Open Scope list_scope.
Local Open Scope js_scope.

(** ** Codewords and bits *)

Definition vanishes (count : nat) (block : list Z) : bool :=
  forallb (fun i => eval (pow i) block =? 0) (seqZ 0 (Z.of_nat count)).

Definition bits_of (codewords : list Z) : list bool := concat (map (fun c => push c 8) codewords).

(** The blocks of a version have one size. *)
Definition block_size (spec : VersionSpec) : nat := default 0%nat (head (vs_blocks spec)).
Definition block_count (spec : VersionSpec) : nat := length (vs_blocks spec).
Definition total_codewords (spec : VersionSpec) : nat :=
  block_count spec * (block_size spec + vs_ecPerBlock spec).

Lemma push_byte v : push v 8 = map (fun k => Z.testbit v (7 - Z.of_nat k)) (seq 0 8).
Proof. done. Qed.

Lemma byte_of_bits_push b0 b1 b2 b3 b4 b5 b6 b7 :
  push (byte_of_bits [b0; b1; b2; b3; b4; b5; b6; b7]) 8 = [b0; b1; b2; b3; b4; b5; b6; b7].
Proof. by destruct b0, b1, b2, b3, b4, b5, b6, b7. Qed.

Lemma push_byte_of_bits v : byte v -> byte_of_bits (push v 8) = v.
Proof.
  intros Hv. pose proof (forall_below 256 (fun v => byte_of_bits (push v 8) =? v) v ltac:(by vm_compute) Hv) as E.
  cbv beta in E. by apply Z.eqb_eq in E.
Qed.

Lemma push_eight v : exists b0 b1 b2 b3 b4 b5 b6 b7, push v 8 = [b0; b1; b2; b3; b4; b5; b6; b7].
Proof. by repeat eexists. Qed.

Lemma toBytes_bits_of codewords : Forall byte codewords -> toBytes (bits_of codewords) = codewords.
Proof.
  induction 1 as [|c codewords Hc _ IH]; [done|]. unfold bits_of in *. cbn [map concat].
  pose proof (push_byte_of_bits c Hc) as E.
  destruct (push_eight c) as (b0 & b1 & b2 & b3 & b4 & b5 & b6 & b7 & Eb). rewrite Eb in *.
  cbn [app toBytes]. by rewrite E, IH.
Qed.

(** Eight bits at a time. *)
Lemma eights_ind (P : list bool -> Prop) :
  P [] ->
  (forall b0 b1 b2 b3 b4 b5 b6 b7 bits, P bits -> P (b0 :: b1 :: b2 :: b3 :: b4 :: b5 :: b6 :: b7 :: bits)) ->
  forall n bits, length bits = (8 * n)%nat -> P bits.
Proof.
  intros H0 H8 n. induction n as [|n IH]; intros bits Hl; [by destruct bits|].
  do 8 (destruct bits as [|? bits]; [simpl in Hl; lia|]). apply H8, IH. simpl in Hl. lia.
Qed.

Lemma bits_of_toBytes n bits : length bits = (8 * n)%nat -> bits_of (toBytes bits) = bits.
Proof.
  revert n bits. apply eights_ind; [done|]. intros b0 b1 b2 b3 b4 b5 b6 b7 bits IH. cbn [toBytes].
  unfold bits_of in *. cbn [map concat]. by rewrite byte_of_bits_push, IH.
Qed.

Lemma toBytes_bytes n bits : length bits = (8 * n)%nat -> Forall byte (toBytes bits) /\ length (toBytes bits) = n.
Proof.
  intros Hl. split.
  - revert n bits Hl. apply eights_ind; [constructor|]. intros b0 b1 b2 b3 b4 b5 b6 b7 bits IH. cbn [toBytes].
    constructor; [|done]. by destruct b0, b1, b2, b3, b4, b5, b6, b7.
  - revert bits Hl. induction n as [|n IH]; intros bits Hl; [by destruct bits|].
    do 8 (destruct bits as [|? bits]; [simpl in Hl; lia|]). cbn [toBytes length]. f_equal. apply IH.
    simpl in Hl. lia.
Qed.

Lemma length_bits_of codewords : length (bits_of codewords) = (8 * length codewords)%nat.
Proof.
  induction codewords as [|c codewords IH]; [done|]. unfold bits_of in *. cbn [map concat].
  rewrite length_app, IH. simpl length at 1. simpl. lia.
Qed.

Lemma codeword_bit_cons c codewords k : codeword_bit (c :: codewords) (8 + k) = codeword_bit codewords k.
Proof.
  unfold codeword_bit. change (length (c :: codewords)) with (S (length codewords)).
  replace (8 + k <? S (length codewords) * 8)%nat with (k <? length codewords * 8)%nat
    by (destruct (Nat.ltb_spec k (length codewords * 8)), (Nat.ltb_spec (8 + k) (S (length codewords) * 8)); lia).
  destruct (k <? _)%nat; [|done].
  replace (8 + k)%nat with (k + 1 * 8)%nat by lia. rewrite Nat.div_add, Nat.Div0.mod_add by done.
  by rewrite Nat.add_comm.
Qed.

Lemma codeword_bits codewords : map (codeword_bit codewords) (seq 0 (length codewords * 8)) = bits_of codewords.
Proof.
  induction codewords as [|c codewords IH]; [done|]. change (length (c :: codewords) * 8)%nat with (8 + length codewords * 8)%nat.
  rewrite seq_app, map_app. unfold bits_of in *. cbn [map concat]. f_equal.
  rewrite <- IH, <- (fmap_add_seq 8 0), <- list_fmap_compose. apply map_ext. intros k.
  apply codeword_bit_cons.
Qed.

Lemma number_of_push v : byte v -> number_of (push v 8) = v.
Proof.
  intros Hv. pose proof (forall_below 256 (fun v => number_of (push v 8) =? v) v ltac:(by vm_compute) Hv) as E.
  cbv beta in E. by apply Z.eqb_eq in E.
Qed.

Lemma length_push v n : length (push v n) = n.
Proof. unfold push. by rewrite length_map, length_rev, length_seq. Qed.

Lemma eights_bits_of codewords rest :
  Forall byte codewords -> eights (length codewords) (bits_of codewords ++ rest) = codewords.
Proof.
  induction 1 as [|c codewords Hc _ IH]; [done|]. unfold bits_of in *. cbn [map concat length eights].
  rewrite <- app_assoc. rewrite take_app_length', drop_app_length' by by rewrite length_push.
  by rewrite number_of_push, IH.
Qed.

(** The arithmetic of the tables is the one modulo the polynomial. *)
Lemma std_double_gf v : byte v -> std_double v = gf_double v.
Proof.
  intros Hv. pose proof (forall_below 256 (fun v => std_double v =? gf_double v) v ltac:(by vm_compute) Hv) as E.
  cbv beta in E. by apply Z.eqb_eq in E.
Qed.

Lemma doublings v n : byte v -> byte (Nat.iter n std_double v) /\ Nat.iter n std_double v = multiply v (pow (Z.of_nat n)).
Proof.
  intros Hv. induction n as [|n [Hb E]]; [split; [done|]; by rewrite multiply_1_r|].
  cbn [Nat.iter nat_rect]. change (nat_rect _ v _ n) with (Nat.iter n std_double v).
  replace (Z.of_nat (S n)) with (Z.of_nat n + 1) by lia.
  assert (E' : std_double (Nat.iter n std_double v) = multiply v (pow (Z.of_nat n + 1)))
    by (rewrite std_double_gf by exact Hb; rewrite E; symmetry; by apply multiply_pow_succ).
  rewrite E'. split; [apply multiply_byte; [exact Hv|apply pow_facts]|reflexivity].
Qed.

Lemma value_at_eval power block : Forall byte block -> value_at power block = eval (pow (Z.of_nat power)) block.
Proof.
  intros Hb. unfold value_at, eval. assert (H0 : byte 0) by apply byte_0. revert H0. generalize 0 as acc.
  induction Hb as [|c block Hc _ IH]; intros acc Ha; [done|]. cbn [foldl horner].
  destruct (doublings acc power Ha) as [Hd E]. rewrite IH by by apply lxor_byte. by rewrite E, multiply_comm.
Qed.

Lemma is_codeword_vanishes checks block :
  Forall byte block -> vanishes checks block = true -> is_codeword checks block = true.
Proof.
  unfold vanishes, is_codeword. rewrite !forallb_forall. intros Hb Hv power Hp%in_seq.
  rewrite value_at_eval by done. apply Hv, list_elem_of_In, elem_of_seqZ. lia.
Qed.

(** ** Grids *)

Definition square {A} (size : Z) (grid : list (list A)) : Prop :=
  gridSize grid = size /\ Forall (fun line => Z.of_nat (length line) = size) grid.

Definition inside (size : Z) (p : Z * Z) : bool :=
  (0 <=? p.1) && (p.1 <? size) && (0 <=? p.2) && (p.2 <? size).

Lemma set_at_square {A} size (grid : list (list A)) r c v : square size grid -> square size (set_at grid r c v).
Proof.
  intros [Hs Hl]. unfold set_at. destruct (_ || _); [done|]. split; [unfold gridSize in *; by rewrite length_alter|].
  apply Forall_alter; [done|]. intros line _ Hline. by rewrite length_insert.
Qed.

Lemma get_set_same {A} size (grid : list (list A)) r c v :
  square size grid -> inside size (r, c) = true -> get_at (set_at grid r c v) r c = Some v.
Proof.
  intros [Hs Hl] Hin. unfold inside in Hin. simpl in Hin. bools. unfold gridSize in Hs.
  unfold set_at, get_at. rewrite !(proj2 (Z.ltb_ge _ _)) by done. cbn [orb negb].
  rewrite list_lookup_alter, decide_True by done.
  destruct (lookup_lt_is_Some_2 grid (Z.to_nat r)) as [line Eline]; [lia|]. rewrite Eline.
  cbn [fmap option_fmap option_map mbind option_bind]. apply list_lookup_insert_eq.
  rewrite Forall_forall in Hl. specialize (Hl line (list_elem_of_lookup_2 _ _ _ Eline)). simpl in Hl. lia.
Qed.

Lemma get_set_other {A} (grid : list (list A)) r c v r' c' :
  (r, c) <> (r', c') -> get_at (set_at grid r c v) r' c' = get_at grid r' c'.
Proof.
  intros Hne. unfold set_at, get_at.
  destruct ((r <? 0) || (c <? 0)) eqn:Hn; [done|]. destruct ((r' <? 0) || (c' <? 0)) eqn:Hn'; [done|]. bools.
  cbn [negb]. rewrite list_lookup_alter. destruct (decide (Z.to_nat r = Z.to_nat r')) as [Er|]; [|done].
  assert (r = r') as -> by lia. destruct (grid !! Z.to_nat r') as [line|]; [|done].
  cbn [fmap option_fmap option_map mbind option_bind]. apply list_lookup_insert_ne. intros Ec. apply Hne.
  f_equal. lia.
Qed.

(** Writing a list of modules one after another: the last write to a place counts. *)
Definition write_all {A} (writes : list (Z * Z * A)) (grid : list (list A)) : list (list A) :=
  foldl (fun grid w => set_at grid w.1.1 w.1.2 w.2) grid writes.

Definition same_place (p q : Z * Z) : bool := (p.1 =? q.1) && (p.2 =? q.2).

Definition last_write {A} (p : Z * Z) (writes : list (Z * Z * A)) : option A :=
  foldl (fun found w => if same_place p w.1 then Some w.2 else found) None writes.

Lemma same_place_true p q : same_place p q = true <-> p = q.
Proof.
  destruct p as [a b], q as [c d]. unfold same_place. simpl. rewrite andb_true_iff, !Z.eqb_eq.
  split; [by intros [-> ->]|by intros [= -> ->]].
Qed.

Lemma write_all_square {A} size (writes : list (Z * Z * A)) grid :
  square size grid -> square size (write_all writes grid).
Proof.
  unfold write_all. revert grid. induction writes as [|w writes IH]; intros grid Hg; [done|].
  apply IH. by apply set_at_square.
Qed.

Lemma get_write_all {A} size (writes : list (Z * Z * A)) grid p :
  square size grid -> inside size p = true ->
  get_at (write_all writes grid) p.1 p.2 =
  match last_write p writes with Some v => Some v | None => get_at grid p.1 p.2 end.
Proof.
  intros Hg Hp. unfold write_all, last_write. induction writes as [|w writes IH] using rev_ind; [done|].
  rewrite !foldl_app. cbn [foldl]. destruct (same_place p w.1) eqn:E.
  - apply same_place_true in E. rewrite <- E. destruct p as [r c]. apply (get_set_same size); [|done].
    by apply (write_all_square size writes).
  - rewrite <- IH. apply get_set_other. intros Ew. destruct w as [[a b] v], p as [r c]. simpl in *.
    injection Ew as -> ->. unfold same_place in E. simpl in E. by rewrite !Z.eqb_refl in E.
Qed.

Lemma last_write_notin {A} p (writes : list (Z * Z * A)) : p ∉ writes.*1 -> last_write p writes = None.
Proof.
  unfold last_write. induction writes as [|w writes IH] using rev_ind; [done|].
  rewrite fmap_app, foldl_app. intros Hp. cbn [foldl]. destruct (same_place p w.1) eqn:E.
  - apply same_place_true in E. exfalso. apply Hp, elem_of_app. right. subst. by left.
  - apply IH. intros Hin. apply Hp, elem_of_app. by left.
Qed.

Lemma last_write_nodup {A} (writes : list (Z * Z * A)) i w :
  NoDup writes.*1 -> writes !! i = Some w -> last_write w.1 writes = Some w.2.
Proof.
  revert i. unfold last_write. induction writes as [|w' writes IH] using rev_ind; intros i; [done|].
  rewrite fmap_app, NoDup_app, foldl_app. intros (Hn & Hd & _). cbn [foldl].
  rewrite lookup_app. destruct (writes !! i) as [w''|] eqn:Ei.
  - intros [= <-]. destruct (same_place w''.1 w'.1) eqn:E; [|by eapply IH].
    apply same_place_true in E. exfalso. apply (Hd w''.1); [|rewrite E; by left].
    apply list_elem_of_fmap_2. by eapply list_elem_of_lookup_2.
  - intros Hw. apply list_lookup_singleton_Some in Hw as [_ <-].
    by rewrite (proj2 (same_place_true w'.1 w'.1)).
Qed.

(** ** Tables *)

Lemma table_square {A} size (f : Z -> Z -> A) : 0 <= size -> square size (table size f).
Proof.
  intros Hs. unfold table, square, gridSize. rewrite length_map, length_seqZ. split; [lia|].
  apply Forall_fmap, Forall_forall. intros r _. simpl. rewrite length_map, length_seqZ. lia.
Qed.

Lemma get_table {A} size (f : Z -> Z -> A) r c :
  inside size (r, c) = true -> get_at (table size f) r c = Some (f r c).
Proof.
  unfold inside. simpl. intros Hin. bools. unfold get_at, table.
  rewrite !(proj2 (Z.ltb_ge _ _)) by done. cbn [orb negb].
  rewrite list_lookup_fmap, lookup_seqZ_lt by lia. cbn [fmap option_fmap option_map mbind option_bind].
  rewrite list_lookup_fmap, lookup_seqZ_lt by lia. cbn [fmap option_fmap option_map]. do 2 f_equal; lia.
Qed.

Lemma module_at_table size f r c :
  inside size (r, c) = true -> module_at (table size f) r c = f r c.
Proof. intros Hin. unfold module_at. rewrite get_table by done. by destruct (f r c). Qed.

(** ** The rules of the masks *)

Definition rule_of (mask : Z) : Z -> Z -> bool := default (fun _ _ => false) (mask_rule (Z.to_nat mask)).

Lemma even_mod n : Z.even n = (n mod 2 =? 0).
Proof. rewrite Zmod_even. by destruct (Z.even n). Qed.

Lemma rule_std mask row column : 0 <= mask < 8 -> rule_of mask row column = std_mask mask row column.
Proof.
  intros Hm. assert (Hin : mask ∈ seqZ 0 8) by (apply elem_of_seqZ; lia). revert Hin.
  change (seqZ 0 8) with [0; 1; 2; 3; 4; 5; 6; 7]. rewrite !elem_of_cons, elem_of_nil.
  intros [->|[->|[->|[->|[->|[->|[->|[->|[]]]]]]]]]; unfold std_mask; rewrite ?even_mod; reflexivity.
Qed.

Lemma mask_rule_Some mask : 0 <= mask < 8 -> mask_rule (Z.to_nat mask) = Some (rule_of mask).
Proof.
  intros Hm. unfold rule_of, mask_rule. destruct (lookup_lt_is_Some_2 MASKS (Z.to_nat mask)) as [rule E];
    [change (length MASKS) with 8%nat; lia|]. by rewrite E.
Qed.

(** ** What is checked of each version *)

Definition masks : list Z := seqZ 0 8.

Lemma format_writes_places size mask : (format_writes size mask).*1 = (format_writes size 0).*1.
Proof. unfold format_writes. rewrite !fmap_app, <- !list_fmap_compose. reflexivity. Qed.

Lemma dark_module size mask : last_write (size - 8, 8) (format_writes size mask) = Some true.
Proof.
  unfold format_writes, last_write. rewrite !app_assoc, foldl_app. cbn [foldl].
  by rewrite (proj2 (same_place_true _ _) eq_refl).
Qed.

Definition untouched (size : Z) (p : Z * Z) : bool := bool_decide (p ∉ (format_writes size 0).*1).

(** The data modules of a version: inside the symbol, none twice, enough of
    them, and none of them touched by the format. *)
Definition places_ok (size : Z) (spec : VersionSpec) (places : list (Z * Z)) : bool :=
  forallb (inside size) places && bool_decide (NoDup places) &&
  (8 * total_codewords spec <=? length places)%nat && forallb (untouched size) places.

(** A function pattern is reserved and has its colour when the format is written. *)
Definition pattern_ok (version : Z) (grid : list (list Z)) (reserved : list (list bool)) (p : Z * Z) : bool :=
  match std_fixed version p.1 p.2 with
  | None => true
  | Some colour =>
      is_reserved reserved p.1 p.2 &&
      if bool_decide (p = (std_size version - 8, 8)) then colour
      else untouched (std_size version) p && Bool.eqb (at_ grid p.1 p.2 =? 1) colour
  end.

Definition sequence_of (mask : Z) : Z := default 0 (FORMAT_SEQUENCES !! Z.to_nat mask).

Definition downwards : list Z := [14; 13; 12; 11; 10; 9; 8; 7; 6; 5; 4; 3; 2; 1; 0].

(** Both copies of the format state the sequence of the mask. *)
Definition format_ok (size : Z) (places : list (Z * Z)) : bool :=
  forallb (inside size) places &&
  forallb (fun mask => bool_decide (map (fun p => last_write p (format_writes size mask)) places =
                                    map (fun k => Some (Z.testbit (sequence_of mask) k)) downwards)) masks.

Definition squareb (size : Z) (grid : list (list Z)) : bool :=
  (gridSize grid =? size) && forallb (fun line => Z.of_nat (length line) =? size) grid.

Definition version_ok (version : Z) : bool :=
  match specFor version with
  | None => false
  | Some spec =>
      let size := std_size version in
      let grid := drawFunctionPatterns (emptyGrid size) spec in
      let reserved := functionMask version spec in
      squareb size grid && bool_decide (walk size reserved = std_order version) &&
      places_ok size spec (std_order version) &&
      forallb (pattern_ok version grid reserved) (cells size) &&
      format_ok size format_beside_finder && format_ok size (format_apart size) &&
      bool_decide (std_layout version = Some (block_count spec, block_size spec, vs_ecPerBlock spec)) &&
      bool_decide (vs_blocks spec = repeat (block_size spec) (block_count spec)) &&
      (0 <? block_count spec)%nat && (0 <? block_size spec)%nat && (0 <? vs_ecPerBlock spec)%nat &&
      (vs_ecPerBlock spec <=? 255)%nat
  end.

Lemma versions_ok : forallb version_ok (seqZ 1 6) = true.
Proof. by vm_compute. Qed.

Lemma sequences_read :
  forallb (fun mask => (number_of (map (Z.testbit (sequence_of mask)) downwards) =? sequence_of mask) &&
    bool_decide (fst <$> list_find (fun v => v = sequence_of mask) FORMAT_SEQUENCES = Some (Z.to_nat mask))) masks = true.
Proof. by vm_compute. Qed.

(** ** What a symbol shows *)

Lemma specFor_range version spec : specFor version = Some spec -> 1 <= version <= 6.
Proof.
  unfold specFor. destruct (Z.leb_spec 1 version); [|done]. intros E%lookup_lt_Some. simpl in E. lia.
Qed.

Lemma size_std version : qrSize version = std_size version.
Proof. unfold qrSize, std_size. lia. Qed.

Record facts (version : Z) (spec : VersionSpec) (grid : list (list Z)) (reserved : list (list bool)) : Prop := {
  fa_square : square (std_size version) grid;
  fa_walk : walk (std_size version) reserved = std_order version;
  fa_inside : forall p, p ∈ std_order version -> inside (std_size version) p = true;
  fa_nodup : NoDup (std_order version);
  fa_room : (8 * total_codewords spec <= length (std_order version))%nat;
  fa_untouched : forall p, p ∈ std_order version -> untouched (std_size version) p = true;
  fa_patterns : forall p, p ∈ cells (std_size version) -> pattern_ok version grid reserved p = true;
  fa_format : forall places, places = format_beside_finder \/ places = format_apart (std_size version) ->
    (forall p, p ∈ places -> inside (std_size version) p = true) /\
    forall mask, 0 <= mask < 8 ->
      map (fun p => last_write p (format_writes (std_size version) mask)) places =
      map (fun k => Some (Z.testbit (sequence_of mask) k)) downwards;
  fa_layout : std_layout version = Some (block_count spec, block_size spec, vs_ecPerBlock spec);
  fa_blocks : vs_blocks spec = repeat (block_size spec) (block_count spec);
  fa_count : (0 < block_count spec)%nat;
  fa_size : (0 < block_size spec)%nat;
  fa_ec : (0 < vs_ecPerBlock spec <= 255)%nat }.

Lemma forallb_elem {A} (p : A -> bool) l x : forallb p l = true -> x ∈ l -> p x = true.
Proof. rewrite forallb_forall. intros Hp Hx. by apply Hp, list_elem_of_In. Qed.

Lemma format_ok_spec size places :
  format_ok size places = true ->
  (forall p, p ∈ places -> inside size p = true) /\
  forall mask, 0 <= mask < 8 ->
    map (fun p => last_write p (format_writes size mask)) places =
    map (fun k => Some (Z.testbit (sequence_of mask) k)) downwards.
Proof.
  unfold format_ok. intros [Hin Hw]%andb_true_iff. split; [intros p; by apply forallb_elem|].
  intros mask Hm. assert (Hmask : mask ∈ masks) by (apply elem_of_seqZ; lia).
  exact (bool_decide_eq_true_1 _ (forallb_elem _ _ _ Hw Hmask)).
Qed.

Lemma version_facts version spec :
  specFor version = Some spec ->
  facts version spec (drawFunctionPatterns (emptyGrid (std_size version)) spec) (functionMask version spec).
Proof.
  intros Espec. pose proof (specFor_range _ _ Espec) as Hv.
  assert (Hok : version_ok version = true) by (apply (forallb_elem _ _ _ versions_ok), elem_of_seqZ; lia).
  revert Hok. unfold version_ok, places_ok, squareb. rewrite Espec. cbv zeta.
  generalize (drawFunctionPatterns (emptyGrid (std_size version)) spec) (functionMask version spec).
  intros grid reserved Hok. rewrite !andb_true_iff, !bool_decide_eq_true, !Nat.ltb_lt, !Nat.leb_le, Z.eqb_eq in Hok.
  destruct Hok as ((((((((((((Hg & Hl) & Hw) & (((Hin & Hn) & Hr) & Hu)) & Hp) & Hf1) & Hf2) & Hlay) & Hb) & Hc) & Hs) & He) & He').
  split; try done.
  - split; [done|]. apply Forall_forall. intros line Hline. exact (proj1 (Z.eqb_eq _ _) (forallb_elem _ _ _ Hl Hline)).
  - intros p. by apply forallb_elem.
  - intros p. by apply forallb_elem.
  - intros p. by apply forallb_elem.
  - intros places [->| ->]; by apply format_ok_spec.
Qed.

(** The data writes: every bit at its place. *)
Definition data_writes (bits : list Z) (from : nat) (places : list (Z * Z)) : list (Z * Z * Z) :=
  imap (fun k p => (p, if codeword_bit bits (from + k) then 1 else 0)) places.

Lemma placeData_writes grid reserved bits :
  placeData grid reserved bits = write_all (data_writes bits 0 (walk (gridSize grid) reserved)) grid.
Proof.
  unfold placeData. generalize (walk (gridSize grid) reserved). intros places.
  assert (Hgen : forall from grid, (foldl (fun '(grid, bitIndex) '(row, column) =>
     (place grid row column (codeword_bit bits bitIndex), S bitIndex)) (grid, from) places).1 =
     write_all (data_writes bits from places) grid); [|apply Hgen].
  induction places as [|[r c] places IH]; intros from g; [done|]. cbn [foldl]. rewrite IH.
  unfold data_writes at 2. cbn [imap]. unfold write_all at 2. cbn [foldl]. rewrite Nat.add_0_r.
  unfold write_all. f_equal. unfold data_writes. apply imap_ext. intros k p _.
  unfold compose. by replace (from + S k)%nat with (S from + k)%nat by lia.
Qed.

Lemma at_data size grid reserved bits k p :
  square size grid -> NoDup (walk size reserved) -> inside size p = true -> walk size reserved !! k = Some p ->
  (at_ (placeData grid reserved bits) p.1 p.2 =? 1) = codeword_bit bits k.
Proof.
  intros Hg Hnd Hp Hk. unfold at_. rewrite placeData_writes, (proj1 Hg), (get_write_all size) by done.
  assert (Hfst : (data_writes bits 0 (walk size reserved)).*1 = walk size reserved).
  { unfold data_writes. rewrite fmap_imap. apply list_eq. intros i. rewrite list_lookup_imap.
    by destruct (walk size reserved !! i). }
  assert (Hw : data_writes bits 0 (walk size reserved) !! k = Some (p, if codeword_bit bits k then 1 else 0))
    by (unfold data_writes; by rewrite list_lookup_imap, Hk).
  pose proof (last_write_nodup _ _ _ ltac:(by rewrite Hfst) Hw) as E. cbn [fst snd] in E. rewrite E.
  by destruct (codeword_bit bits k).
Qed.

Lemma writeFormat_writes modules mask :
  writeFormat modules mask = write_all (format_writes (gridSize modules) mask) modules.
Proof.
  unfold writeFormat, write_all. generalize (format_writes (gridSize modules) mask). intros writes.
  revert modules. induction writes as [|[[r c] v] writes IH]; intros modules; [done|]. apply IH.
Qed.

(** A module of the symbol, as the reader finds it. *)
Lemma dark_module_at size modules p : inside size p = true -> dark modules p = module_at modules p.1 p.2.
Proof.
  unfold inside. intros Hp. bools. unfold dark, module_at, get_at.
  rewrite !(proj2 (Z.ltb_ge _ _)) by done. cbn [orb negb].
  destruct (modules !! Z.to_nat p.1) as [line|]; [|done]. cbn [mbind option_bind].
  by destruct (line !! Z.to_nat p.2) as [[]|].
Qed.

Lemma elem_of_cells size p : p ∈ cells size <-> inside size p = true.
Proof.
  unfold cells, inside. rewrite list_elem_of_In, in_concat. setoid_rewrite <- list_elem_of_In.
  rewrite !andb_true_iff, !Z.leb_le, !Z.ltb_lt. destruct p as [r c]. cbn [fst snd]. split.
  - intros (l & (row & -> & Hr%elem_of_seqZ)%list_elem_of_fmap & (column & [= -> ->] & Hc%elem_of_seqZ)%list_elem_of_fmap). lia.
  - intros Hp. exists (map (fun column => (r, column)) (seqZ 0 size)). split.
    + apply (list_elem_of_fmap_2 (fun row => map (fun column => (row, column)) (seqZ 0 size))), elem_of_seqZ. lia.
    + apply (list_elem_of_fmap_2 (fun column => (r, column))), elem_of_seqZ. lia.
Qed.

Section Symbol.
Context (version : Z) (spec : VersionSpec) (codewords : list Z) (mask : Z) (modules : list (list bool)).
Hypothesis Hspec : specFor version = Some spec.
Hypothesis Hmask : 0 <= mask < 8.
Hypothesis Hmodules :
  candidate (drawn version spec codewords).1 (drawn version spec codewords).2 mask = Some modules.

Let size := std_size version.
Let reserved := functionMask version spec.
Let grid := drawFunctionPatterns (emptyGrid size) spec.
Let drawn_module := fun row column =>
  let value := at_ (placeData grid reserved codewords) row column =? 1 in
  if is_reserved reserved row column then value
  else if rule_of mask row column then negb value else value.

Lemma symbol_modules :
  gridSize modules = size /\
  forall p, inside size p = true ->
    dark modules p = match last_write p (format_writes size mask) with Some v => v | None => drawn_module p.1 p.2 end.
Proof using Hspec Hmask Hmodules.
  pose proof (version_facts version spec Hspec) as Hf. fold size grid reserved in Hf. destruct Hf.
  assert (Hsize : 0 <= size) by (unfold size, std_size; apply specFor_range in Hspec; lia).
  assert (Hgs : gridSize (placeData grid reserved codewords) = size).
  { rewrite placeData_writes. by apply (write_all_square size). }
  pose proof Hmodules as E. unfold drawn in E. rewrite size_std in E. fold size grid reserved in E. cbn [fst snd] in E.
  unfold candidate, applyMask in E. rewrite mask_rule_Some in E by done. rewrite Hgs in E.
  change (table size _) with (table size drawn_module) in E. apply (inj Some) in E as <-.
  rewrite writeFormat_writes. pose proof (table_square size drawn_module Hsize) as Ht.
  destruct (write_all_square size (format_writes (gridSize (table size drawn_module)) mask) _ Ht) as [Hws _].
  rewrite (proj1 Ht) in *. split; [done|]. intros p Hp. rewrite (dark_module_at size) by done.
  unfold module_at. rewrite (get_write_all size) by done.
  destruct (last_write p _) as [[]|]; try done. apply module_at_table. by destruct p.
Qed.

Lemma untouched_last p : untouched size p = true -> last_write p (format_writes size mask) = None.
Proof. unfold untouched. intros Hp%bool_decide_eq_true. apply last_write_notin. by rewrite format_writes_places. Qed.

(** Where a pattern stands, the data leaves it alone. *)
Lemma at_reserved p :
  inside size p = true -> is_reserved reserved p.1 p.2 = true ->
  at_ (placeData grid reserved codewords) p.1 p.2 = at_ grid p.1 p.2.
Proof using Hspec.
  intros Hp Hres. pose proof (version_facts version spec Hspec) as Hf. fold size grid reserved in Hf. destruct Hf.
  unfold at_. rewrite placeData_writes, (proj1 fa_square0), (get_write_all size), last_write_notin; [done| |done..].
  unfold data_writes. rewrite fmap_imap. intros Hin.
  assert (Hw : p ∈ walk size reserved).
  { apply elem_of_lookup_imap in Hin as (i & q & -> & Hq). by eapply list_elem_of_lookup_2. }
  apply list_elem_of_filter in Hw as [Hw _]. by rewrite Hw in Hres.
Qed.

Lemma symbol_patterns : patterns_ok version modules = true.
Proof using Hspec Hmask Hmodules.
  pose proof (version_facts version spec Hspec) as Hf. fold size grid reserved in Hf. destruct Hf.
  destruct symbol_modules as [_ Hm]. unfold patterns_ok. apply forallb_forall. intros p Hp%list_elem_of_In.
  pose proof (fa_patterns0 p Hp) as Hok. unfold pattern_ok in Hok. apply elem_of_cells in Hp.
  destruct (std_fixed version p.1 p.2) as [colour|]; [|done]. apply andb_true_iff in Hok as [Hres Hok].
  rewrite (Hm p Hp). case_bool_decide as Ep.
  - subst p. fold size. rewrite dark_module. by destruct colour.
  - apply andb_true_iff in Hok as [Hu Hc]. rewrite untouched_last by done. unfold drawn_module.
    by rewrite Hres, at_reserved.
Qed.

Lemma symbol_format : std_format size modules = Some mask.
Proof using Hspec Hmask Hmodules.
  pose proof (version_facts version spec Hspec) as Hf. fold size grid reserved in Hf. destruct Hf.
  destruct symbol_modules as [_ Hm].
  pose proof (forallb_elem _ _ mask sequences_read ltac:(apply elem_of_seqZ; lia)) as [Hn Hfind]%andb_true_iff.
  apply Z.eqb_eq in Hn. apply bool_decide_eq_true in Hfind.
  assert (Hcopy : forall places, places = format_beside_finder \/ places = format_apart size ->
    number_of (map (dark modules) places) = sequence_of mask).
  { intros places Hplaces. destruct (fa_format0 places Hplaces) as [Hin Hw]. rewrite <- Hn. f_equal.
    apply (inj (map Some)). rewrite !map_map, <- (Hw mask Hmask). apply map_ext_in. intros p Hp%list_elem_of_In.
    rewrite Hm by auto.
    assert (Hs : last_write p (format_writes size mask) ∈ map (fun k => Some (Z.testbit (sequence_of mask) k)) downwards).
    { rewrite <- (Hw mask Hmask). by apply (list_elem_of_fmap_2 (fun p => last_write p (format_writes size mask))). }
    apply list_elem_of_fmap in Hs as (k & E & _). by rewrite E. }
  unfold std_format. cbv zeta. rewrite !Hcopy by auto. rewrite Z.eqb_refl. destruct (list_find _ _) as [[index v]|]; [|done].
  cbn in Hfind. injection Hfind as ->. cbn [mbind option_bind].
  rewrite (proj2 (Nat.ltb_lt _ _)) by lia. f_equal. lia.
Qed.

Lemma symbol_data :
  map (fun p : Z * Z => xorb (dark modules p) (std_mask mask p.1 p.2)) (std_order version) =
  map (codeword_bit codewords) (seq 0 (length (std_order version))).
Proof using Hspec Hmask Hmodules.
  pose proof (version_facts version spec Hspec) as Hf. fold size grid reserved in Hf. destruct Hf.
  assert (Hwalk : walk size reserved = std_order version) by exact fa_walk0.
  destruct symbol_modules as [_ Hm]. apply list_eq. intros k. rewrite !list_lookup_fmap.
  destruct (std_order version !! k) as [p|] eqn:Ek; [|by rewrite lookup_seq_ge by by apply lookup_ge_None].
  rewrite lookup_seq_lt by by eapply lookup_lt_Some. cbn [fmap option_fmap option_map].
  f_equal. pose proof (list_elem_of_lookup_2 _ _ _ Ek) as Hin. rewrite Hm by auto.
  rewrite untouched_last by auto. unfold drawn_module.
  assert (Hres : is_reserved reserved p.1 p.2 = false) by (rewrite <- fa_walk0 in Hin; by apply list_elem_of_filter in Hin as [? _]).
  rewrite Hres, (at_data size _ _ _ k); [|done|by rewrite Hwalk|by auto|by rewrite Hwalk].
  rewrite <- rule_std by done. rewrite Nat.add_0_l. by destruct (rule_of mask p.1 p.2), (codeword_bit codewords k).
Qed.
End Symbol.
