(* ===== verification/QrScan.v ===== *)
(** * What a QR symbol carries

    The encoder of [Qr] against the reader of [QrLayout]: the blocks that take
    turns come apart again, the bytes are read back, the chosen mask is the
    best of the eight, and which texts have a symbol at all. *)
From stdpp Require Import list_numbers.
From S2P Require Import Prelude JsNum Json QrField Qr QrLayout QrRead.
Local Open Scope Z_scope.
Local Open Scope list_scope.
Local Open Scope js_scope.

(** ** Blocks *)

Lemma map_lookup_seq {A} (d : A) l : map (fun i => default d (l !! i)) (seq 0 (length l)) = l.
Proof.
  apply list_eq. intros i. rewrite list_lookup_fmap. destruct (l !! i) as [x|] eqn:E.
  - rewrite lookup_seq_lt by (by eapply lookup_lt_Some). simpl. by rewrite E.
  - by rewrite lookup_seq_ge by (by apply lookup_ge_None).
Qed.

Lemma length_concat_equal {A} k (ls : list (list A)) :
  Forall (fun l => length l = k) ls -> length (concat ls) = (length ls * k)%nat.
Proof. induction 1 as [|l ls Hl _ IH]; [done|]. simpl. rewrite length_app, IH, Hl. lia. Qed.

Lemma lookup_concat_equal {A} k (ls : list (list A)) i j :
  Forall (fun l => length l = k) ls -> (j < k)%nat ->
  concat ls !! (i * k + j)%nat = ls !! i ≫= fun l => l !! j.
Proof.
  intros Hls Hj. revert i. induction Hls as [|l ls Hl _ IH]; intros i; [done|]. cbn [concat].
  destruct i as [|i]; [by rewrite lookup_app_l by lia|].
  rewrite lookup_app_r by lia. rewrite Hl. by replace (S i * k + j - k)%nat with (i * k + j)%nat by lia.
Qed.

(** One turn of blocks long enough. *)
Lemma one_turn n (blocks : list (list Z)) i :
  Forall (fun block => length block = n) blocks -> (i < n)%nat ->
  omap (fun block => block !! i) blocks = map (fun block => default 0 (block !! i)) blocks.
Proof.
  intros Hb Hi. induction Hb as [|block blocks Hl _ IH]; [done|]. cbn.
  destruct (lookup_lt_is_Some_2 block i) as [x E]; [lia|]. by rewrite E, IH.
Qed.

Lemma turns_concat n (blocks : list (list Z)) :
  Forall (fun block => length block = n) blocks ->
  turns n blocks = concat (map (fun i => map (fun block => default 0 (block !! i)) blocks) (seq 0 n)).
Proof.
  intros Hb. unfold turns. f_equal. apply map_ext_in. intros i Hi%in_seq. apply (one_turn n); [done|lia].
Qed.

Lemma turns_lines n (blocks : list (list Z)) :
  Forall (fun l => length l = length blocks)
    (map (fun i => map (fun block => default 0 (block !! i)) blocks) (seq 0 n)).
Proof. apply Forall_fmap, Forall_forall. intros i _. apply length_map. Qed.

Lemma length_turns n (blocks : list (list Z)) :
  Forall (fun block => length block = n) blocks -> length (turns n blocks) = (length blocks * n)%nat.
Proof.
  intros Hb. rewrite turns_concat, (length_concat_equal (length blocks)), length_map, length_seq by (done || apply turns_lines).
  lia.
Qed.

(** Blocks that took turns come apart again. *)
Lemma apart_turns n (blocks : list (list Z)) :
  Forall (fun block => length block = n) blocks -> apart (length blocks) n (turns n blocks) = blocks.
Proof.
  intros Hb. unfold apart. etrans; [|apply (map_lookup_seq [])]. apply map_ext_in. intros j Hj%in_seq.
  destruct (lookup_lt_is_Some_2 blocks j) as [block E]; [lia|]. rewrite E. change (default [] (Some block)) with block.
  assert (Hl : length block = n) by (rewrite Forall_forall in Hb; apply Hb; by eapply list_elem_of_lookup_2).
  etrans; [|apply (map_lookup_seq 0 block)]. rewrite Hl. apply map_ext_in. intros i Hi%in_seq. f_equal.
  rewrite turns_concat, (lookup_concat_equal (length blocks)) by (done || apply turns_lines || lia).
  rewrite list_lookup_fmap, lookup_seq_lt by lia. cbn [fmap option_fmap option_map mbind option_bind].
  rewrite list_lookup_fmap, E. cbn [fmap option_fmap option_map].
  destruct (lookup_lt_is_Some_2 block i) as [x Ex]; [lia|]. rewrite Nat.add_0_l. by rewrite Ex.
Qed.

Lemma split_equal k n cw :
  length cw = (k * n)%nat ->
  concat (split_blocks (repeat n k) cw) = cw /\ length (split_blocks (repeat n k) cw) = k /\
  Forall (fun block => length block = n) (split_blocks (repeat n k) cw).
Proof.
  revert cw. induction k as [|k IH]; intros cw Hl; [by destruct cw|]. cbn [repeat split_blocks concat length].
  destruct (IH (drop n cw)) as (Hc & Hk & Hn); [rewrite length_drop; lia|].
  rewrite Hc, take_drop, Hk. split_and!; [done..|]. constructor; [|done]. rewrite length_take. lia.
Qed.

Lemma fold_max_repeat n k : (0 < k)%nat -> foldl Nat.max 0%nat (repeat n k) = n.
Proof.
  intros Hk. assert (Hgen : forall k a, (a <= n)%nat -> foldl Nat.max a (repeat n (S k)) = n).
  { clear. intros k. induction k as [|k IH]; intros a Ha; [simpl; lia|].
    change (repeat n (S (S k))) with (n :: repeat n (S k)). cbn [foldl]. apply IH. lia. }
  destruct k as [|k]; [lia|]. apply Hgen. lia.
Qed.

Lemma fold_add_repeat n k : foldl Nat.add 0%nat (repeat n k) = (k * n)%nat.
Proof.
  assert (Hgen : forall a, foldl Nat.add a (repeat n k) = (a + k * n)%nat); [|apply Hgen].
  induction k as [|k IH]; intros a; [simpl; lia|]. cbn [repeat foldl]. rewrite IH. lia.
Qed.

(** ** The codewords of a symbol *)

(** What the blocks of a version are, once its table row is known. *)
Section Version.
Context (version : Z) (spec : VersionSpec) (grid : list (list Z)) (reserved : list (list bool)).
Hypothesis H : facts version spec grid reserved.

Let k := block_count spec.
Let n := block_size spec.

Lemma capacity : dataCodewords spec = (k * n)%nat.
Proof. destruct H. unfold dataCodewords. rewrite fa_blocks. apply fold_add_repeat. Qed.

Definition ec_blocks (cw : list Z) : list (list Z) :=
  map (fun block => errorCorrectionCodewords block (vs_ecPerBlock spec)) (split_blocks (repeat n k) cw).

Lemma interleave_parts cw :
  interleave cw spec = turns n (split_blocks (repeat n k) cw) ++ turns (vs_ecPerBlock spec) (ec_blocks cw).
Proof. destruct H. unfold interleave. cbv zeta. rewrite fa_blocks, fold_max_repeat by done. done. Qed.

Lemma split_bytes sizes cw : Forall byte cw -> Forall (Forall byte) (split_blocks sizes cw).
Proof.
  revert cw. induction sizes as [|s sizes IH]; intros cw Hcw; constructor; [by apply Forall_take|].
  by apply IH, Forall_drop.
Qed.

Lemma ec_blocks_sound cw :
  Forall byte cw ->
  Forall (fun block => length block = vs_ecPerBlock spec) (ec_blocks cw) /\ Forall (Forall byte) (ec_blocks cw) /\
  forallb (is_codeword (vs_ecPerBlock spec)) (zip_with app (split_blocks (repeat n k) cw) (ec_blocks cw)) = true.
Proof.
  intros Hcw. unfold ec_blocks. pose proof (split_bytes (repeat n k) cw Hcw) as Hb. revert Hb.
  generalize (split_blocks (repeat n k) cw). intros blocks Hb. destruct H.
  induction Hb as [|block blocks Hblock _ (Hl & Hy & Hv)]; [done|].
  destruct (ecc_spec block (vs_ecPerBlock spec)) as (Hl' & Hy' & Hv'); [done|lia..|].
  cbn [map zip_with forallb]. rewrite Hv, andb_true_r. split_and!; [by constructor..|].
  apply is_codeword_vanishes; [by apply Forall_app|].
  unfold vanishes. apply forallb_forall. intros i Hi%list_elem_of_In%elem_of_seqZ. apply Z.eqb_eq, Hv'. lia.
Qed.

Lemma concat_bytes (ls : list (list Z)) : Forall (Forall byte) ls -> Forall byte (concat ls).
Proof. induction 1; [constructor|]. cbn [concat]. by apply Forall_app. Qed.

Lemma turns_bytes m (blocks : list (list Z)) : Forall (Forall byte) blocks -> Forall byte (turns m blocks).
Proof.
  intros Hb. apply concat_bytes, Forall_fmap, Forall_forall. intros i _. simpl.
  induction Hb as [|block blocks Hblock _ IH]; [constructor|]. cbn. destruct (block !! i) as [x|] eqn:E; [|done].
  constructor; [|done]. rewrite Forall_forall in Hblock. apply Hblock. by eapply list_elem_of_lookup_2.
Qed.

(** The reader takes the codewords of the blocks apart again. *)
Lemma interleave_reads cw :
  length cw = (k * n)%nat -> Forall byte cw ->
  length (interleave cw spec) = total_codewords spec /\ Forall byte (interleave cw spec) /\
  concat (apart k n (take (k * n) (interleave cw spec))) = cw /\
  forallb (is_codeword (vs_ecPerBlock spec))
    (zip_with app (apart k n (take (k * n) (interleave cw spec)))
       (apart k (vs_ecPerBlock spec) (drop (k * n) (interleave cw spec)))) = true.
Proof.
  intros Hl Hb. destruct (split_equal k n cw Hl) as (Hc & Hk & Hn), (ec_blocks_sound cw Hb) as (El & Eb & Ev).
  assert (Ek : length (ec_blocks cw) = k) by (unfold ec_blocks; by rewrite length_map).
  rewrite interleave_parts. pose proof (length_turns n _ Hn) as Ln. rewrite Hk in Ln.
  rewrite take_app_length', drop_app_length' by done.
  pose proof (apart_turns n _ Hn) as An. rewrite Hk in An. rewrite An.
  pose proof (apart_turns _ _ El) as Ae. rewrite Ek in Ae. rewrite Ae. split_and!; try done.
  - rewrite length_app, Ln, length_turns, Ek by done. unfold total_codewords. fold k n. lia.
  - apply Forall_app. split; apply turns_bytes; [by apply split_bytes|done].
Qed.

End Version.

(** ** The bytes of a symbol *)

Definition message (bytes : list Z) : list bool :=
  push 4 4 ++ push (Z.of_nat (length bytes)) 8 ++ bits_of bytes ++ repeat false 4.

Lemma length_message bytes : length (message bytes) = (8 * (length bytes + 2))%nat.
Proof. unfold message. rewrite !length_app, length_bits_of. simpl. lia. Qed.

Lemma buildCodewords_message bytes spec :
  (length bytes + 2 <= dataCodewords spec)%nat ->
  buildCodewords bytes spec =
  toBytes (message bytes) ++ map pad_codeword (seq 0 (dataCodewords spec - length (toBytes (message bytes)))).
Proof.
  intros Hl. unfold buildCodewords. cbv zeta. fold (bits_of bytes).
  set (written := push 4 4 ++ push (Z.of_nat (length bytes)) 8 ++ bits_of bytes).
  assert (Hw : length written = (12 + 8 * length bytes)%nat)
    by (unfold written; rewrite !length_app, length_bits_of; done).
  replace (Nat.min 4 (dataCodewords spec * 8 - length written)) with 4%nat by lia.
  replace (written ++ repeat false 4) with (message bytes) by (unfold message, written; by rewrite <- !app_assoc).
  rewrite length_message, Nat.mul_comm, Nat.Div0.mod_mul. cbn [repeat Nat.sub]. by rewrite app_nil_r.
Qed.

Lemma pad_bytes l : Forall byte (map pad_codeword l).
Proof. apply Forall_fmap, Forall_forall. intros i _. simpl. unfold pad_codeword, byte. destruct (Nat.even i); lia. Qed.

Lemma buildCodewords_sound bytes spec :
  (length bytes + 2 <= dataCodewords spec)%nat ->
  length (buildCodewords bytes spec) = dataCodewords spec /\ Forall byte (buildCodewords bytes spec).
Proof.
  intros Hl. rewrite buildCodewords_message by done.
  destruct (toBytes_bytes _ _ (length_message bytes)) as [Hb El]. rewrite length_app, length_map, length_seq, El.
  split; [lia|]. apply Forall_app. split; [done|apply pad_bytes].
Qed.

Lemma bits_of_app l l' : bits_of (l ++ l') = bits_of l ++ bits_of l'.
Proof. unfold bits_of. by rewrite map_app, concat_app. Qed.

Lemma std_bits codewords :
  concat (map (fun c => map (fun k => Z.testbit c k) [7; 6; 5; 4; 3; 2; 1; 0]) codewords) = bits_of codewords.
Proof. reflexivity. Qed.

Lemma read_message bytes spec :
  Forall byte bytes -> (length bytes + 2 <= dataCodewords spec)%nat -> (length bytes < 256)%nat ->
  std_message (buildCodewords bytes spec) = Some bytes.
Proof.
  intros Hb Hl Hlt. rewrite buildCodewords_message by done. unfold std_message. cbv zeta.
  rewrite std_bits, bits_of_app, (bits_of_toBytes _ _ (length_message bytes)).
  generalize (bits_of (map pad_codeword (seq 0 (dataCodewords spec - length (toBytes (message bytes)))))). intros rest.
  unfold message. rewrite <- !app_assoc. set (after := repeat false 4 ++ rest).
  change (take 4 (push 4 4 ++ _)) with [false; true; false; false].
  change (number_of [false; true; false; false] =? 4) with true. cbv iota.
  rewrite drop_app_length', take_app_length' by done.
  rewrite number_of_push by (unfold byte; lia). rewrite Nat2Z.id.
  rewrite (proj2 (Nat.leb_le _ _)) by (rewrite !length_app, !length_push, length_bits_of; lia).
  rewrite (app_assoc (push 4 4)), drop_app_length' by done. by rewrite eights_bits_of.
Qed.

(** ** The choice of a mask *)

(** The best of the masks tried: it has a symbol, and no mask tried has a
    smaller penalty, no earlier one an equal one. *)
Definition best_of (grid : list (list Z)) (reserved : list (list bool)) (tried : list Z)
    (best : Z * Z * list (list bool)) : Prop :=
  let '(mask, score, modules) := best in
  candidate grid reserved mask = Some modules /\ score = penalty modules /\
  exists before after, tried = before ++ mask :: after /\
    (forall m ms, m ∈ before -> candidate grid reserved m = Some ms -> score < penalty ms) /\
    (forall m ms, m ∈ after -> candidate grid reserved m = Some ms -> score <= penalty ms).

#[local] Opaque candidate penalty.

Lemma better_best_of grid reserved tried :
  Forall (fun mask => is_Some (candidate grid reserved mask)) tried ->
  tried = [] \/ exists best, foldl (better grid reserved) (Some None) tried = Some (Some best) /\
    best_of grid reserved tried best.
Proof.
  induction tried as [|mask tried IH] using rev_ind; [by left|right].
  apply Forall_app in H as [Ht [[modules Em] _]%Forall_cons]. rewrite foldl_app. cbn [foldl].
  destruct (IH Ht) as [->|([[m score] ms] & E & Em' & -> & before & after & -> & Hbefore & Hafter)].
  - exists (mask, penalty modules, modules). cbn [foldl better]. rewrite Em. split; [done|].
    split_and!; [done..|]. exists [], []. split_and!; [done| |]; intros ? ? []%elem_of_nil.
  - rewrite E. unfold better. rewrite Em. cbv zeta. destruct (Z.ltb_spec (penalty modules) (penalty ms)) as [Hlt|Hge].
    + exists (mask, penalty modules, modules). split; [done|]. split_and!; [done..|].
      exists (before ++ m :: after), []. split_and!; [done| |intros ? ? []%elem_of_nil].
      intros m' ms' Hin E'. rewrite elem_of_app, elem_of_cons in Hin. destruct Hin as [Hin|[->|Hin]].
      * specialize (Hbefore m' ms' Hin E'). lia.
      * rewrite E' in Em'. injection Em' as ->. done.
      * specialize (Hafter m' ms' Hin E'). lia.
    + exists (m, penalty ms, ms). split; [done|]. split_and!; [done..|].
      exists before, (after ++ [mask]). split_and!; [by rewrite <- app_assoc|done|].
      intros m' ms' Hin E'. rewrite elem_of_app, list_elem_of_singleton in Hin. destruct Hin as [Hin| ->]; [by eapply Hafter|].
      rewrite Em in E'. injection E' as <-. done.
Qed.

#[local] Transparent candidate.

Lemma candidates_exist grid reserved : Forall (fun mask => is_Some (candidate grid reserved mask)) masks.
Proof.
  apply Forall_forall. intros mask Hm%elem_of_seqZ. unfold candidate, applyMask. rewrite mask_rule_Some by lia.
  by eexists.
Qed.

(** ** The choice of a version *)

Lemma has_room_spec length version :
  has_room length version = true -> exists spec, specFor version = Some spec /\ (length + 2 <= dataCodewords spec)%nat.
Proof.
  unfold has_room. destruct (specFor version) as [spec|]; [|done]. intros Hr%Nat.leb_le. by exists spec.
Qed.

Lemma head_filter_Some {A} (P : A -> Prop) `{!forall x, Decision (P x)} l x :
  head (filter P l) = Some x -> P x /\ exists before after, l = before ++ x :: after /\ Forall (fun y => ~ P y) before.
Proof.
  induction l as [|y l IH]; [done|]. rewrite filter_cons. destruct (decide (P y)) as [Hy|Hy].
  - intros [= ->]. split; [done|]. by exists [], l.
  - intros (Hx & before & after & -> & Hb)%IH. split; [done|]. exists (y :: before), after. split; [done|].
    by constructor.
Qed.

(** The first six counted from one, cut anywhere. *)
Lemma seqZ_before from n before x after y :
  seqZ from n = before ++ x :: after -> from <= y < x -> y ∈ before.
Proof.
  intros E Hy.
  assert (Hb : forall i z, before !! i = Some z -> z = from + Z.of_nat i).
  { intros i z Ez. assert (El : seqZ from n !! i = Some z) by (rewrite E; by apply lookup_app_l_Some).
    apply lookup_seqZ in El as [-> _]. done. }
  assert (Hx : seqZ from n !! length before = Some x) by (rewrite E; by apply list_lookup_middle).
  apply lookup_seqZ in Hx as [-> _]. assert (Hlt : (Z.to_nat (y - from) < length before)%nat) by lia.
  destruct (lookup_lt_is_Some_2 before _ Hlt) as [z Ez]. pose proof (Hb _ _ Ez) as ->.
  replace (from + Z.of_nat (Z.to_nat (y - from))) with y in Ez by lia. by eapply list_elem_of_lookup_2.
Qed.

Lemma chooseVersion_some length version :
  chooseVersion length = Some version ->
  has_room length version = true /\ 1 <= version <= 6 /\
  forall v, 1 <= v < version -> has_room length v = false.
Proof.
  unfold chooseVersion. intros (Hr & before & after & E & Hb)%head_filter_Some. split_and!; [done|..].
  - assert (Hin : version ∈ seqZ 1 MAX_QR_VERSION) by (rewrite E; apply elem_of_app; right; by left).
    apply elem_of_seqZ in Hin. unfold MAX_QR_VERSION in Hin. lia.
  - assert (Hin : version ∈ seqZ 1 MAX_QR_VERSION) by (rewrite E; apply elem_of_app; right; by left).
    apply elem_of_seqZ in Hin. unfold MAX_QR_VERSION in Hin. lia.
  - intros v Hv. pose proof (seqZ_before _ _ _ _ _ v E Hv) as Hin. rewrite Forall_forall in Hb.
    apply not_true_is_false, (Hb v Hin).
Qed.

Lemma capacities version spec : specFor version = Some spec -> (dataCodewords spec <= 108)%nat.
Proof.
  intros E. pose proof (specFor_range _ _ E) as Hv.
  assert (Hall : forallb (fun v => match specFor v with Some s => (dataCodewords s <=? 108)%nat | None => true end)
            (seqZ 1 6) = true) by by vm_compute.
  assert (Hin : version ∈ seqZ 1 6) by (apply elem_of_seqZ; lia).
  pose proof (forallb_elem _ _ _ Hall Hin) as Hc. cbv beta in Hc. rewrite E in Hc. by apply Nat.leb_le.
Qed.

Lemma chooseVersion_total length : (length <= 106)%nat <-> exists version, chooseVersion length = Some version.
Proof.
  split.
  - intros Hl. unfold chooseVersion. destruct (head _) as [v|] eqn:E; [by exists v|]. exfalso.
    apply head_None in E. assert (Hin : 6 ∈ filter (fun v => has_room length v = true) (seqZ 1 MAX_QR_VERSION)).
    { apply list_elem_of_filter. split; [|apply elem_of_seqZ; unfold MAX_QR_VERSION; lia].
      unfold has_room. change (specFor 6) with (VERSIONS !! 5%nat). cbn [lookup list_lookup VERSIONS].
      apply Nat.leb_le. unfold dataCodewords. simpl. lia. }
    rewrite E in Hin. by apply elem_of_nil in Hin.
  - intros [v (Hr & _)%chooseVersion_some]. destruct (has_room_spec _ _ Hr) as (spec & E & Hl).
    pose proof (capacities v spec E). lia.
Qed.

(** ** The symbol of a text *)

(** The picture of a text before a mask. *)
Definition picture (text : string) (version : Z) (spec : VersionSpec) : list (list Z) * list (list bool) :=
  drawn version spec (interleave (buildCodewords (utf8 text) spec) spec).

#[local] Opaque drawn interleave buildCodewords candidate penalty.

Lemma encodeQr_of text version spec :
  chooseVersion (length (utf8 text)) = Some version -> specFor version = Some spec ->
  exists q, encodeQr text = Some q /\ qr_version q = version /\ qr_size q = qrSize version /\
    best_of (picture text version spec).1 (picture text version spec).2 masks
      (qr_mask q, penalty (qr_modules q), qr_modules q).
Proof.
  intros Ev Es. unfold encodeQr. rewrite Ev. cbv beta iota zeta. rewrite Es. cbv beta iota zeta.
  fold (picture text version spec). destruct (picture text version spec) as [grid reserved]. cbn [fst snd].
  change (seqZ 0 (Z.of_nat (length MASKS))) with masks.
  destruct (better_best_of grid reserved masks (candidates_exist grid reserved)) as [?|(best & E & Hbest)]; [done|].
  rewrite E. destruct best as [[mask score] modules]. eexists. split; [done|]. cbn.
  do 2 (split; [done|]). pose proof Hbest as (_ & -> & _). exact Hbest.
Qed.

Lemma encodeQr_inv text q :
  encodeQr text = Some q ->
  exists spec, chooseVersion (length (utf8 text)) = Some (qr_version q) /\ specFor (qr_version q) = Some spec /\
    qr_size q = qrSize (qr_version q) /\
    best_of (picture text (qr_version q) spec).1 (picture text (qr_version q) spec).2 masks
      (qr_mask q, penalty (qr_modules q), qr_modules q).
Proof.
  intros E. destruct (chooseVersion (length (utf8 text))) as [version|] eqn:Ev;
    [|unfold encodeQr in E; rewrite Ev in E; discriminate E].
  destruct (has_room_spec _ _ (proj1 (chooseVersion_some _ _ Ev))) as (spec & Es & _).
  destruct (encodeQr_of text version spec Ev Es) as (q' & E' & <- & Hs & Hb).
  rewrite E' in E. injection E as <-. by exists spec.
Qed.

Lemma best_mask grid reserved mask score modules :
  best_of grid reserved masks (mask, score, modules) -> 0 <= mask < 8.
Proof.
  intros (_ & _ & before & after & E & _). assert (Hin : mask ∈ masks) by (rewrite E; apply elem_of_app; right; by left).
  by apply elem_of_seqZ in Hin.
Qed.

(** The first modules carry the codewords. *)
Lemma first_bits codewords places :
  (8 * length codewords <= places)%nat ->
  map (codeword_bit codewords) (seq 0 places) =
  bits_of codewords ++ map (codeword_bit codewords) (seq (length codewords * 8) (places - length codewords * 8)).
Proof.
  intros Hl. replace places with (length codewords * 8 + (places - length codewords * 8))%nat at 1 by lia.
  by rewrite seq_app, map_app, codeword_bits.
Qed.

(** A symbol reads back as the text it was made of. *)
Lemma symbol_reads_back text q : encodeQr text = Some q -> scanQr (qr_modules q) = Some (utf8 text).
Proof.
  intros (spec & Ev & Es & Hsize & Hbest)%encodeQr_inv. pose proof (best_mask _ _ _ _ _ Hbest) as Hm.
  destruct Hbest as (Hc & _). pose proof (version_facts _ _ Es) as Hf.
  destruct (has_room_spec _ _ (proj1 (chooseVersion_some _ _ Ev))) as (spec' & Es' & Hl).
  rewrite Es in Es'. injection Es' as <-. pose proof (capacities _ _ Es) as Hcap.
  destruct (buildCodewords_sound (utf8 text) spec Hl) as [Lb Hb]. rewrite (capacity _ _ _ _ Hf) in Lb.
  destruct (interleave_reads _ _ _ _ Hf _ Lb Hb) as (Li & Hi & Hcw & Hv).
  destruct (symbol_modules _ _ _ _ _ Es Hm Hc) as [Hg _].
  unfold scanQr. cbv zeta. change (Z.of_nat (length (qr_modules q))) with (gridSize (qr_modules q)).
  rewrite Hg. replace ((std_size (qr_version q) - 17) / 4) with (qr_version q)
    by (unfold std_size; rewrite Z.add_simpl_r, Z.mul_comm, Z.div_mul by done; done).
  rewrite Z.eqb_refl, (fa_layout _ _ _ _ Hf). cbn [mbind option_bind].
  rewrite (symbol_patterns _ _ _ _ _ Es Hm Hc), (symbol_format _ _ _ _ _ Es Hm Hc). cbn [mbind option_bind].
  rewrite (symbol_data _ _ _ _ _ Es Hm Hc), length_map, length_seq.
  fold (total_codewords spec). pose proof (fa_room _ _ _ _ Hf) as Hroom.
  rewrite (proj2 (Nat.leb_le _ _) Hroom).
  rewrite <- Li in *. rewrite first_bits, eights_bits_of by (done || lia).
  rewrite Hv, Hcw. apply (read_message _ spec); [apply utf8_bytes|done|lia].
Qed.

(** A text has a symbol exactly when its bytes number at most 106. The symbol
    is then a square of the version's size, and the version the smallest of the
    six that has room for the mode, the length and the bytes. *)
Theorem texts_with_a_symbol text :
  ((length (utf8 text) <= 106)%nat <-> exists q, encodeQr text = Some q) /\
  forall q, encodeQr text = Some q ->
    has_room (length (utf8 text)) (qr_version q) = true /\
    (forall v, 1 <= v < qr_version q -> has_room (length (utf8 text)) v = false) /\
    gridSize (qr_modules q) = 17 + 4 * qr_version q.
Proof.
  split.
  - rewrite chooseVersion_total. split.
    + intros [v Ev]. destruct (has_room_spec _ _ (proj1 (chooseVersion_some _ _ Ev))) as (spec & Es & _).
      destruct (encodeQr_of text v spec Ev Es) as (q & E & _). by exists q.
    + intros (q & (spec & Ev & _)%encodeQr_inv). by eexists.
  - intros q (spec & Ev & Es & _ & Hbest)%encodeQr_inv. pose proof (best_mask _ _ _ _ _ Hbest) as Hm.
    destruct Hbest as (Hc & _), (chooseVersion_some _ _ Ev) as (Hr & _ & Hs), (symbol_modules _ _ _ _ _ Es Hm Hc) as (Hg & _).
    split_and!; [done..|]. rewrite Hg. unfold std_size. lia.
Qed.

(** The mask of a symbol is the one the standard asks for: no mask of the
    eight has a smaller penalty on the same picture, and none of the masks
    before it has an equal one. *)
Theorem the_mask_is_the_best text q spec mask modules :
  encodeQr text = Some q -> specFor (qr_version q) = Some spec -> 0 <= mask < 8 ->
  candidate (picture text (qr_version q) spec).1 (picture text (qr_version q) spec).2 mask = Some modules ->
  penalty (qr_modules q) <= penalty modules /\ (mask < qr_mask q -> penalty (qr_modules q) < penalty modules).
Proof.
  intros (spec' & _ & Es' & _ & Hbest)%encodeQr_inv Es Hm Hc. rewrite Es in Es'. injection Es' as <-.
  destruct Hbest as (Hq & _ & before & after & E & Hbefore & Hafter).
  assert (Hin : mask ∈ masks) by (apply elem_of_seqZ; lia). rewrite E, elem_of_app, elem_of_cons in Hin.
  split; [|intros Hlt; exact (Hbefore mask modules (seqZ_before 0 8 _ _ _ mask E ltac:(lia)) Hc)].
  destruct Hin as [Hin|[->|Hin]]; [pose proof (Hbefore _ _ Hin Hc); lia| |by eapply Hafter].
  rewrite Hq in Hc. by injection Hc as ->.
Qed.

Lemma the_mask_is_the_best_witness :
  exists q spec modules, encodeQr "HELLO world" = Some q /\
    candidate (picture "HELLO world" (qr_version q) spec).1 (picture "HELLO world" (qr_version q) spec).2 7 = Some modules /\
    penalty (qr_modules q) <= penalty modules.
Proof.
  destruct (encodeQr_of "HELLO world" 1 (default (Build_VersionSpec [] 0 0 []) (VERSIONS !! 0%nat)))
    as (q & E & Ev & _); [done..|].
  destruct (encodeQr_inv _ _ E) as (spec & _ & Es & _).
  pose proof (candidates_exist (picture "HELLO world" (qr_version q) spec).1 (picture "HELLO world" (qr_version q) spec).2) as Hc.
  rewrite Forall_forall in Hc. destruct (Hc 7 ltac:(apply elem_of_seqZ; lia)) as [modules Em].
  exists q, spec, modules. split; [exact E|]. split; [exact Em|].
  apply (the_mask_is_the_best "HELLO world" q spec 7 modules E Es); [lia|exact Em].
Defined.
