(* ===== verification/QrTerminal.v ===== *)
(** * A QR symbol in a terminal

    [renderQr] of [Qr] against a terminal: a small emulator keeps the two
    colours, reads the escapes and turns the half blocks back into modules.
    What it shows is the symbol inside its quiet zone, and a reader of that
    picture has the text. *)
From stdpp Require Import list_numbers.
From S2P Require Import Prelude JsNum Json QrField Qr QrLayout QrRead QrScan.
Local Open Scope Z_scope.
Local Open Scope list_scope.
Local Open Scope js_scope.

(** ** The emulator *)

(** Dark or light, for the foreground and for the background. *)
Definition Colors : Type := bool * bool.

Definition light_theme : Colors := (true, false).

(** The sequences the program writes, without the escape and the final [m]. *)
Definition SEQUENCES : list (list Z * Colors) :=
  [(units "[30;40", (true, true)); (units "[30;107", (true, false));
   (units "[97;40", (false, true)); (units "[97;107", (false, false))].

Definition select (theme now : Colors) (sequence : list Z) : Colors :=
  if bool_decide (sequence = units "[0") then theme
  else default now (assoc_get sequence SEQUENCES).

(** A half block shows the two colours; a full block and a space show one. *)
Definition glyph (now : Colors) (c : Z) : option (bool * bool) :=
  if c =? 9600 then Some (now.1, now.2)
  else if c =? 9608 then Some (now.1, now.1)
  else if c =? 9604 then Some (now.2, now.1)
  else if c =? 32 then Some (now.2, now.2)
  else None.

(** A cell in front of the first line. *)
Definition put_first (cell : bool * bool) (lines : list (list (bool * bool))) : list (list (bool * bool)) :=
  match lines with [] => [[cell]] | line :: lines => (cell :: line) :: lines end.

(** The lines of cells a text leaves on the screen. *)
Fixpoint screen (theme now : Colors) (escape : option (list Z)) (text : list Z) : list (list (bool * bool)) :=
  match text with
  | [] => [[]]
  | c :: text =>
      match escape with
      | Some sequence =>
          if c =? 109 then screen theme (select theme now sequence) None text
          else screen theme now (Some (sequence ++ [c])) text
      | None =>
          if c =? 27 then screen theme now (Some []) text
          else if c =? 10 then [] :: screen theme now None text
          else match glyph now c with
               | Some cell => put_first cell (screen theme now None text)
               | None => screen theme now None text
               end
      end
  end.

(** Two rows of modules for every line. *)
Definition two_rows (line : list (bool * bool)) : list (list bool) := [line.*1; line.*2].

(** The picture without its margin of four modules. *)
Definition crop (rows : list (list bool)) : list (list bool) :=
  let width := length (default [] (head rows)) in
  map (fun row => take (width - 8) (drop 4 row)) (take (width - 8) (drop 4 rows)).

(** The modules on the screen. *)
Definition on_screen (theme : Colors) (text : list Z) : list (list bool) :=
  concat (map two_rows (screen theme theme None text)).

Definition read_screen (theme : Colors) (text : list Z) : list (list bool) := crop (on_screen theme text).

(** A picture of full rows whose margin of four modules, all around, is light. *)
Definition framed (rows : list (list bool)) : Prop :=
  let width := Z.of_nat (length (default [] (head rows))) in
  width <= gridSize rows /\ Forall (fun row => Z.of_nat (length row) = width) rows /\
  forall row column, get_at rows row column = Some true ->
    4 <= row < width - 4 /\ 4 <= column < width - 4.

(** ** Lines *)

Definition put_line (line : list (bool * bool)) (lines : list (list (bool * bool))) : list (list (bool * bool)) :=
  foldr put_first lines line.

Lemma put_line_cons line first lines : put_line line (first :: lines) = (line ++ first) :: lines.
Proof. induction line as [|cell line IH]; [done|]. cbn [put_line foldr] in *. unfold put_line in IH. by rewrite IH. Qed.

(** Without colours, on a light theme. *)
Lemma screen_plain cells previous tail :
  screen light_theme light_theme None (render_cells false cells previous ++ tail) =
  put_line cells (screen light_theme light_theme None tail).
Proof.
  induction cells as [|[top bottom] cells IH]; [done|]. cbn [render_cells].
  destruct top, bottom; cbn [andb app screen]; rewrite IH; done.
Qed.

(** The colours the last sequence asked for; none yet. *)
Definition asked (previous : string) (now : Colors) : Prop :=
  previous = "" \/
  previous = (if now.1 then "30" else "97") +:+ ";" +:+ (if now.2 then "40" else "107").

Lemma screen_color theme now cells previous tail :
  asked previous now ->
  exists now', screen theme now None (render_cells true cells previous ++ tail) = put_line cells (screen theme now' None tail).
Proof.
  revert now previous. induction cells as [|[top bottom] cells IH]; intros now previous Ha; [by exists now|].
  cbn [render_cells]. set (codes := (if top then "30" else "97") +:+ ";" +:+ (if bottom then "40" else "107")).
  destruct (IH (top, bottom) codes) as [now' E]; [by right|]. exists now'.
  destruct (str_eqb codes previous) eqn:Ec.
  - apply bool_decide_eq_true in Ec. subst previous. destruct Ha as [Ha|Ha].
    + exfalso. revert Ha. unfold codes. by destruct top, bottom.
    + assert (now = (top, bottom)) as -> by (revert Ha; unfold codes; destruct now as [[] []], top, bottom; done).
      cbn [app screen]. change (9600 =? 27) with false. change (9600 =? 10) with false. cbv iota.
      change (glyph (top, bottom) 9600) with (Some (top, bottom)). cbv iota. by rewrite E.
  - assert (Hs : screen theme now None (27 :: units ("[" +:+ codes +:+ "m") ++ 9600 :: render_cells true cells codes ++ tail) =
                 put_first (top, bottom) (screen theme (top, bottom) None (render_cells true cells codes ++ tail))).
    { generalize (render_cells true cells codes ++ tail). intros rest. unfold codes. by destruct top, bottom. }
    cbn [app] in *. rewrite <- app_assoc. cbn [app]. rewrite Hs, E. done.
Qed.

(** A line as [renderQr] writes it. *)
Definition render_line (color : bool) (cells : list (bool * bool)) : list Z :=
  render_cells color cells "" ++ (if color then 27 :: units "[0m" else []).

(** A program that asks for its colours, or a light theme. *)
Definition readable (color : bool) (theme : Colors) : Prop := color = true \/ theme = light_theme.

Lemma screen_line color theme cells tail :
  readable color theme ->
  screen theme theme None (render_line color cells ++ tail) = put_line cells (screen theme theme None tail).
Proof.
  intros Hr. unfold render_line. destruct color.
  - rewrite <- app_assoc. destruct (screen_color theme theme cells "" ((27 :: units "[0m") ++ tail)) as [now ->];
      [by left|]. done.
  - destruct Hr as [?| ->]; [done|]. rewrite app_nil_r. apply screen_plain.
Qed.

Lemma screen_lines color theme lines :
  readable color theme -> lines <> [] -> screen theme theme None (join_lines (map (render_line color) lines)) = lines.
Proof.
  intros Hr. induction lines as [|line [|line' lines] IH]; intros Hn; [done|..].
  - cbn [map join_lines]. pose proof (screen_line color theme line [] Hr) as E. rewrite app_nil_r in E. rewrite E.
    cbn [screen]. by rewrite put_line_cons, app_nil_r.
  - change (join_lines (map (render_line color) (line :: line' :: lines)))
      with (render_line color line ++ 10 :: join_lines (map (render_line color) (line' :: lines))).
    rewrite screen_line by done. cbn [screen].
    change (10 =? 27) with false. change (10 =? 10) with true. cbv iota. rewrite IH by done.
    by rewrite put_line_cons, app_nil_r.
Qed.

(** ** The picture *)

Lemma take_drop_table {A} (f : Z -> A) n m :
  0 <= n -> n + 4 <= m -> take (Z.to_nat n) (drop 4 (map f (seqZ 0 m))) = map (fun j => f (j + 4)) (seqZ 0 n).
Proof.
  intros Hn Hm. apply list_eq. intros i. rewrite list_lookup_fmap. destruct (decide (i < Z.to_nat n)%nat) as [Hi|Hi].
  - rewrite lookup_take_lt, lookup_drop, list_lookup_fmap, !lookup_seqZ_lt by lia.
    cbn [fmap option_fmap option_map]. do 2 f_equal. lia.
  - rewrite lookup_take_ge, lookup_seqZ_ge by lia. done.
Qed.

Lemma concat_pairs {A} (g : Z -> A) (k : nat) :
  concat (map (fun i => [g (2 * i); g (2 * i + 1)]) (seqZ 0 (Z.of_nat k))) = map g (seqZ 0 (2 * Z.of_nat k)).
Proof.
  induction k as [|k IH]; [done|]. rewrite seqZ_S, map_app, concat_app, IH.
  replace (2 * Z.of_nat (S k)) with (Z.of_nat (S (S (2 * k)))) by lia. rewrite !seqZ_S, !map_app.
  replace (Z.of_nat (2 * k)) with (2 * Z.of_nat k) by lia. rewrite <- app_assoc. cbn [map concat app].
  rewrite !Z.add_0_l. by replace (Z.of_nat (S (2 * k))) with (2 * Z.of_nat k + 1) by lia.
Qed.

Lemma square_table size (modules : list (list bool)) :
  0 <= size -> square size modules -> modules = table size (module_at modules).
Proof.
  intros Hs [Hg Hl]. unfold table. apply list_eq. intros i. rewrite list_lookup_fmap. unfold gridSize in Hg.
  destruct (modules !! i) as [line|] eqn:Ei; [|apply lookup_ge_None in Ei; by rewrite lookup_seqZ_ge by lia].
  pose proof (lookup_lt_Some _ _ _ Ei). rewrite lookup_seqZ_lt by lia. cbn [fmap option_fmap option_map]. f_equal.
  rewrite Forall_forall in Hl. pose proof (Hl line (list_elem_of_lookup_2 _ _ _ Ei)) as Hline. cbv beta in Hline.
  apply list_eq. intros j. rewrite list_lookup_fmap.
  destruct (line !! j) as [b|] eqn:Ej; [|apply lookup_ge_None in Ej; by rewrite lookup_seqZ_ge by lia].
  pose proof (lookup_lt_Some _ _ _ Ej). rewrite lookup_seqZ_lt by lia. cbn [fmap option_fmap option_map]. f_equal.
  unfold module_at, get_at. rewrite !(proj2 (Z.ltb_ge _ _)) by lia. cbn [orb negb].
  replace (Z.to_nat (0 + Z.of_nat i)) with i by lia. rewrite Ei. cbn [mbind option_bind].
  replace (Z.to_nat (0 + Z.of_nat j)) with j by lia. rewrite Ej. by destruct b.
Qed.

(** A module of the picture; the margin is light. *)
Definition shown (matrix : QrMatrix) (row column : Z) : bool :=
  let y := row - QUIET_ZONE in
  let x := column - QUIET_ZONE in
  if (y <? 0) || (x <? 0) || (qr_size matrix <=? y) || (qr_size matrix <=? x) then false
  else module_at (qr_modules matrix) y x.

Lemma shown_beyond matrix row column : qr_size matrix + 8 <= row -> shown matrix row column = false.
Proof.
  intros Hr. unfold shown, QUIET_ZONE. cbv zeta. rewrite (proj2 (Z.leb_le (qr_size matrix) (row - 4))) by lia.
  by rewrite orb_true_r.
Qed.

Lemma shown_inside matrix row column :
  0 <= row < qr_size matrix -> 0 <= column < qr_size matrix ->
  shown matrix (row + 4) (column + 4) = module_at (qr_modules matrix) row column.
Proof.
  intros Hr Hc. unfold shown, QUIET_ZONE. cbv zeta. rewrite !Z.add_simpl_r, !(proj2 (Z.ltb_ge _ _)), !(proj2 (Z.leb_gt _ _)) by lia.
  done.
Qed.

Lemma renderQr_lines matrix color :
  renderQr matrix color =
  join_lines (map (render_line color) (map (fun index => map (fun column =>
    (shown matrix (2 * index) column, shown matrix (2 * index + 1) column)) (seqZ 0 (qr_size matrix + 8)))
    (seqZ 0 ((qr_size matrix + 9) / 2)))).
Proof.
  unfold renderQr. cbv zeta. replace (qr_size matrix + QUIET_ZONE * 2) with (qr_size matrix + 8) by done.
  replace (qr_size matrix + 8 + 1) with (qr_size matrix + 9) by lia. f_equal. rewrite !map_map.
  apply map_ext. intros index. unfold render_line. do 2 f_equal. apply map_ext. intros column.
  f_equal. destruct (Z.ltb_spec (2 * index + 1) (qr_size matrix + 8)); [done|].
  by rewrite shown_beyond.
Qed.

(** The rows on the screen, the last of them possibly below the picture. *)
Lemma on_screen_rows theme color matrix :
  readable color theme -> 0 <= qr_size matrix ->
  on_screen theme (renderQr matrix color) =
  map (fun y => map (fun x => shown matrix y x) (seqZ 0 (qr_size matrix + 8)))
    (seqZ 0 (2 * ((qr_size matrix + 9) / 2))).
Proof.
  intros Hr Hs. set (size := qr_size matrix) in *. set (half := (size + 9) / 2).
  assert (Hh : 0 < half) by (unfold half; Z.div_mod_to_equations; lia).
  unfold on_screen. rewrite renderQr_lines. fold size half.
  rewrite screen_lines; [|done|rewrite <- (Z2Nat.id half) by lia; intros E%(f_equal length);
    rewrite length_map, length_seqZ in E; simpl in E; lia].
  set (row := fun y => map (fun column => shown matrix y column) (seqZ 0 (size + 8))).
  rewrite map_map. rewrite <- (Z2Nat.id half), <- concat_pairs by lia. f_equal. apply map_ext. intros index.
  unfold two_rows, row. by rewrite <- !list_fmap_compose.
Qed.

Lemma picture_width (f : Z -> Z -> bool) n m :
  0 < m -> 0 <= n -> Z.of_nat (length (default [] (head (map (fun y => map (f y) (seqZ 0 n)) (seqZ 0 m))))) = n.
Proof.
  intros Hm Hn. rewrite (seqZ_cons 0 m) by lia. cbn [map head default from_option id].
  rewrite length_map, length_seqZ. lia.
Qed.

Lemma shown_true matrix row column :
  shown matrix row column = true -> 4 <= row < qr_size matrix + 4 /\ 4 <= column < qr_size matrix + 4.
Proof.
  unfold shown, QUIET_ZONE. cbv zeta. destruct (_ || _ || _ || _) eqn:E; [done|]. intros _.
  rewrite !orb_false_iff, !Z.ltb_ge, !Z.leb_gt in E. lia.
Qed.

Lemma on_screen_framed theme color matrix :
  readable color theme -> 0 <= qr_size matrix -> framed (on_screen theme (renderQr matrix color)).
Proof.
  intros Hr Hs. rewrite on_screen_rows by done. set (size := qr_size matrix) in *.
  assert (Hh : size + 8 <= 2 * ((size + 9) / 2)) by (Z.div_mod_to_equations; lia).
  unfold framed. rewrite (picture_width (shown matrix)) by lia. cbv zeta. split_and!.
  - unfold gridSize. rewrite length_map, length_seqZ. lia.
  - apply Forall_fmap, Forall_forall. intros y _. simpl. rewrite length_map, length_seqZ. lia.
  - intros row column. unfold get_at. destruct ((row <? 0) || (column <? 0)) eqn:En; [done|].
    apply orb_false_iff in En as [Hrow%Z.ltb_ge Hcol%Z.ltb_ge]. cbn [negb]. rewrite list_lookup_fmap.
    destruct (seqZ 0 (2 * ((size + 9) / 2)) !! Z.to_nat row) as [y|] eqn:Ey; [|done].
    apply lookup_seqZ in Ey as [-> Hy]. cbn [fmap option_fmap option_map mbind option_bind].
    rewrite list_lookup_fmap. destruct (seqZ 0 (size + 8) !! Z.to_nat column) as [x|] eqn:Ex; [|done].
    apply lookup_seqZ in Ex as [-> Hx]. cbn [fmap option_fmap option_map].
    intros [= E%shown_true]. fold size in E. lia.
Qed.

Lemma read_screen_square theme color matrix :
  readable color theme -> 0 <= qr_size matrix -> square (qr_size matrix) (qr_modules matrix) ->
  read_screen theme (renderQr matrix color) = qr_modules matrix.
Proof.
  intros Hr Hs Hsq. unfold read_screen. rewrite on_screen_rows by done. set (size := qr_size matrix) in *.
  assert (Hh : size + 8 <= 2 * ((size + 9) / 2)) by (Z.div_mod_to_equations; lia).
  unfold crop. pose proof (picture_width (shown matrix) (size + 8) (2 * ((size + 9) / 2))) as Hw.
  specialize (Hw ltac:(lia) ltac:(lia)). cbv zeta.
  match goal with |- context [(length ?l - 8)%nat] =>
    assert (El : Z.of_nat (length l) = size + 8) by exact Hw;
    replace (length l - 8)%nat with (Z.to_nat size) by lia end.
  rewrite take_drop_table, map_map by lia. rewrite (square_table size (qr_modules matrix)) by done. unfold table.
  apply map_ext_in. intros y Hy%list_elem_of_In%elem_of_seqZ. rewrite take_drop_table by lia.
  apply map_ext_in. intros x Hx%list_elem_of_In%elem_of_seqZ. apply shown_inside; fold size; lia.
Qed.

Lemma candidate_square grid reserved mask modules :
  candidate grid reserved mask = Some modules -> square (gridSize modules) modules.
Proof.
  unfold candidate, applyMask. destruct (mask_rule (Z.to_nat mask)) as [rule|]; [|done].
  set (f := fun row column => _). intros E. apply (inj Some) in E as <-. rewrite writeFormat_writes.
  pose proof (write_all_square (gridSize grid) (format_writes (gridSize (table (gridSize grid) f)) mask) _
    (table_square (gridSize grid) f ltac:(unfold gridSize; lia))) as Hsq.
  by rewrite (proj1 Hsq).
Qed.

(** C24: A text, drawn in a terminal, is the text a reader of the screen has. In a
    terminal of any colours when the program asks for its own, and in a light
    one when it does not, the screen shows exactly the modules of the symbol
    with a light margin of four all around; and the reader of [QrLayout], which
    is written from the published layout and shares no table, pattern, order,
    mask or arithmetic with the encoder, who checks the colour of every module
    of every pattern, both copies of the format and every block, has exactly
    the bytes of the text. *)
Theorem the_terminal_shows_the_text text q color theme :
  encodeQr text = Some q -> readable color theme ->
  framed (on_screen theme (renderQr q color)) /\
  read_screen theme (renderQr q color) = qr_modules q /\
  scanQr (read_screen theme (renderQr q color)) = Some (utf8 text).
Proof.
  intros E Hr. pose proof (symbol_reads_back text q E) as Hread.
  destruct (encodeQr_inv _ _ E) as (spec & _ & Es & Hsize & Hbest). pose proof (best_mask _ _ _ _ _ Hbest) as Hm.
  destruct Hbest as (Hc & _), (symbol_modules _ _ _ _ _ Es Hm Hc) as (Hg & _).
  pose proof (candidate_square _ _ _ _ Hc) as Hsq. rewrite Hg, <- size_std, <- Hsize in Hsq.
  assert (Hs : 0 <= qr_size q) by (rewrite Hsize; unfold qrSize; apply specFor_range in Es; lia).
  rewrite read_screen_square by done. split; [by apply on_screen_framed|done].
Qed.

Lemma the_terminal_shows_the_text_witness :
  exists q, encodeQr "HELLO world" = Some q /\ scanQr (read_screen (false, true) (renderQr q true)) = Some (utf8 "HELLO world").
Proof.
  destruct (encodeQr_of "HELLO world" 1 (default (Build_VersionSpec [] 0 0 []) (VERSIONS !! 0%nat)))
    as (q & E & _); [done..|]. exists q. split; [exact E|].
  apply (the_terminal_shows_the_text "HELLO world" q true (false, true) E). by left.
Defined.
