(* ===== verification/Runner.v ===== *)
(** * A round over the providers

    [runner.ts]: [readOne], one provider from its schedule to its row, and
    [runAcquisition], the round, with or without the shared lease. What the
    world answers, credentials, clock, lease and the caller's writes, is a
    record per provider. [None] is a throw. *)
From S2P Require Import Prelude JsNum JsDate JsValue Text Types Normalizer DataRules Merge Collection.
From S2P Require Import Json Files Store Identity Cadence Attempt.
Local Open Scope string_scope.
Local Open Scope Z_scope.
Local Open Scope list_scope.
Local Open Scope js_scope.

Inductive CredentialFailureReason :=
  | cr_absent | cr_unreadable | cr_invalid | cr_expired | cr_keychain_not_read.

#[export] Instance CredentialFailureReason_eq : EqDecision CredentialFailureReason.
Proof. solve_decision. Defined.

Definition CREDENTIAL_FAILURE_SENTENCE (reason : CredentialFailureReason) : string :=
  match reason with
  | cr_absent => "no local login found for this provider"
  | cr_unreadable => "the local login file could not be read"
  | cr_invalid => "the local login file was not in a shape this build understands"
  | cr_expired =>
      "the local login has expired, open the provider's own tool once to refresh it"
  | cr_keychain_not_read =>
      "the login is in the macOS keychain, which this command does not open"
  end.

Inductive CredentialResult :=
  | credential_ok (credential : AcquiredCredential)
  | credential_failed (reason : CredentialFailureReason).

Inductive AcquisitionStatus := as_read | as_stale | as_waiting | as_not_detected | as_off.

Record AcquisitionRow := {
  rw_availability : option SnapshotAvailability;
  rw_retryAt : option string;
  rw_provider : ProviderCode;
  rw_accountId : option string;
  rw_detected : bool;
  rw_status : AcquisitionStatus;
  rw_reason : option string;
  rw_nextAttemptAt : option string;
  rw_disclosure : option string }.

(** [collectionReasonFor] *)
Definition collectionReasonFor (outcome : AcquisitionOutcome) : CollectionFailureReason :=
  match outcome with
  | oc_unauthorized => cr_authentication
  | oc_rate_limited => cr_rate_limited
  | oc_transport => cr_network
  | _ => cr_remote_error
  end.

(** A thrown error: its [code], and its [name] when it is an [Error]. *)
Record Thrown := { th_code : jsval; th_name : option string }.

(** [/^E[A-Z0-9_]{1,30}$/] *)
Definition system_code (s : string) : bool :=
  match s with
  | String "E" s' =>
      str_forall (fun c => is_upper c || is_digit c || Ascii.eqb c "_") s' &&
      (1 <=? str_length s') && (str_length s' <=? 30)
  | _ => false
  end.

(** [/^[A-Z][A-Za-z]{0,26}Error$/] *)
Definition error_name (s : string) : bool :=
  match s with
  | String c s' =>
      is_upper c && str_forall (fun c => is_upper c || is_lower c) s' &&
      (5 <=? str_length s') && (str_length s' <=? 31) &&
      str_eqb (str_drop (str_length s' - 5) s') "Error"
  | EmptyString => false
  end.

Definition errorClassOf (error : Thrown) : string :=
  match (let? code := as_string (th_code error) in check system_code code;; Some code) with
  | Some code => code
  | None =>
      let name := default "" (th_name error) in
      if error_name name then name else "exception"
  end.

(** Which read of the credential store it is. *)
Inductive CredentialCall := call_lease | call_revision | call_read | call_reread.

Section Runner.
Context `{DateHost} `{CryptoHost} {Request : Type}.

(** What the world answers [readOne]: the credential store, the two attempts,
    and the clock after them ([None] without a clock of its own). *)
Record ReadWorld := {
  wd_credential : CredentialCall -> option CredentialResult;
  wd_first : AttemptWorld Request;
  wd_second : AttemptWorld Request;
  wd_clock : option num }.

(** Meters stamped with how the reading arrived; [None] when it throws. *)
Definition Stamp : Type := list jsval -> AcquiredCredential -> option (list jsval).

(** The round so far, with what it asked of the lease and of the cache. *)
Inductive Effect :=
  | ef_complete (nextAllowedAt : option Z) (attempts : Z) (refusalRevision : option string)
  | ef_persist (report : AcquiredReport)
  | ef_record (availability : SnapshotAvailability) (retryAt accountId : option string).

Record RoundState := {
  rs_rows : list AcquisitionRow;
  rs_reports : list AcquiredReport;
  rs_schedule : AcquisitionSchedule;
  rs_effects : list (ProviderCode * Effect) }.

Definition schedule_get (schedule : AcquisitionSchedule) (p : ProviderCode) :
    option AcquisitionProviderSchedule := assoc_get (name_of p) schedule.
Definition schedule_set (p : ProviderCode) (e : AcquisitionProviderSchedule)
    (schedule : AcquisitionSchedule) : AcquisitionSchedule := assoc_set (name_of p) e schedule.
Definition schedule_delete (p : ProviderCode)
    (schedule : list (string * AcquisitionProviderSchedule)) : AcquisitionSchedule :=
  filter (fun ke => ke.1 <> name_of p) schedule.

Definition push_row (row : AcquisitionRow) (st : RoundState) : RoundState :=
  {| rs_rows := rs_rows st ++ [row]; rs_reports := rs_reports st; rs_schedule := rs_schedule st;
     rs_effects := rs_effects st |}.
Definition set_schedule (s : AcquisitionSchedule) (st : RoundState) : RoundState :=
  {| rs_rows := rs_rows st; rs_reports := rs_reports st; rs_schedule := s;
     rs_effects := rs_effects st |}.
Definition push_reports (l : list AcquiredReport) (st : RoundState) : RoundState :=
  {| rs_rows := rs_rows st; rs_reports := rs_reports st ++ l; rs_schedule := rs_schedule st;
     rs_effects := rs_effects st |}.
Definition push_effects (p : ProviderCode) (l : list Effect) (st : RoundState) : RoundState :=
  {| rs_rows := rs_rows st; rs_reports := rs_reports st; rs_schedule := rs_schedule st;
     rs_effects := rs_effects st ++ map (pair p) l |}.

(** [refused]: outcomes that belong to the credential itself. *)
Definition refused (outcome : AcquisitionOutcome) : bool :=
  match outcome with
  | oc_unauthorized | oc_blocked | oc_identity_refused | oc_quota_unavailable => true
  | _ => false
  end.

Definition outcomeAvailability (outcome : AcquisitionOutcome) : option SnapshotAvailability :=
  match outcome with
  | oc_quota_unavailable => Some quota_unavailable
  | oc_unauthorized => Some expired_credentials
  | oc_blocked | oc_identity_refused => Some access_denied
  | _ => None
  end.

(** A row without the optional parts. *)
Definition plain_row (spec : AcquisitionSpec Request) (detected : bool) (status : AcquisitionStatus)
    (reason : option string) : AcquisitionRow :=
  {| rw_availability := None; rw_retryAt := None; rw_provider := spec_provider spec;
     rw_accountId := None; rw_detected := detected; rw_status := status; rw_reason := reason;
     rw_nextAttemptAt := None; rw_disclosure := spec_disclosure spec |}.

Definition off_row (spec : AcquisitionSpec Request) : AcquisitionRow :=
  plain_row spec false as_off
    (Some (default "this provider's poll is off" (spec_disabledReason spec))).

Definition due_later_row (spec : AcquisitionSpec Request) (existing : option AcquisitionProviderSchedule) :
    AcquisitionRow :=
  {| rw_availability := e ← existing; outcomeAvailability (sc_outcome e);
     rw_retryAt := None; rw_provider := spec_provider spec; rw_accountId := None;
     rw_detected := true; rw_status := as_waiting;
     rw_reason := (fun e => ACQUISITION_OUTCOME_SENTENCE (sc_outcome e)) <$> existing;
     rw_nextAttemptAt := sc_nextAttemptAt <$> existing;
     rw_disclosure := spec_disclosure spec |}.

Definition no_credential_row (spec : AcquisitionSpec Request) (reason : CredentialFailureReason) :
    AcquisitionRow :=
  {| rw_availability := if bool_decide (reason = cr_expired) then Some expired_credentials else None;
     rw_retryAt := None; rw_provider := spec_provider spec; rw_accountId := None;
     rw_detected := negb (bool_decide (reason = cr_absent));
     rw_status := if bool_decide (reason = cr_absent) then as_not_detected else as_stale;
     rw_reason := Some (CREDENTIAL_FAILURE_SENTENCE reason); rw_nextAttemptAt := None;
     rw_disclosure := spec_disclosure spec |}.

Definition expired_row (spec : AcquisitionSpec Request) (credential : AcquiredCredential)
    (disclosure : option string) : AcquisitionRow :=
  {| rw_availability := Some expired_credentials; rw_retryAt := None;
     rw_provider := spec_provider spec;
     rw_accountId := Some (acquisitionAccountId (spec_provider spec) credential);
     rw_detected := true; rw_status := as_stale;
     rw_reason := Some (CREDENTIAL_FAILURE_SENTENCE cr_expired); rw_nextAttemptAt := None;
     rw_disclosure := disclosure |}.

(** [revisionNow]: the outer [None] is a throw, the inner one [undefined]. *)
Definition revision_of (answer : option CredentialResult) : option (option string) :=
  match answer with
  | None => None
  | Some (credential_ok c) => Some (Some (credentialRevision (cd_secret c)))
  | Some (credential_failed _) => Some None
  end.

(** [{ ...entry, accountId, accountLabel }]; an entry that is no record has no
    field a meter is read by. *)
Definition with_account (accountId : string) (accountLabel : option string) (entry : jsval) : jsval :=
  let fields := assoc_set "accountId" (JStr accountId) (default [] (record_of entry)) in
  JObj (match accountLabel with
        | Some label => assoc_set "accountLabel" (JStr label) fields
        | None => fields
        end).

(** The login the answer is judged by: the one sent, or after a refusal the
    one the store holds by then, asked once more. *)
Inductive Asked :=
  | asked_throws (phase : AcquisitionPhase)
  | asked (sent : AcquiredCredential) (result : Attempt).

Definition ask (spec : AcquisitionSpec Request) (world : ReadWorld) (leased : bool) (now : string)
    (held : AcquiredCredential) : Asked :=
  match attempt spec held leased (wd_first world) now with
  | None => asked_throws ph_request
  | Some result =>
      if bool_decide (at_outcome result = oc_unauthorized) && negb (at_expiredCredentials result) &&
         negb (at_missingCredential result)
      then
        match wd_credential world call_reread with
        | None => asked_throws ph_credential
        | Some (credential_ok again) =>
            if negb (str_eqb (cd_secret again) (cd_secret held)) &&
               negb (credentialExpired again (time_num (date_parse now)))
            then
              match attempt spec again leased (wd_second world) now with
              | None => asked_throws ph_request
              | Some result => asked again result
              end
            else asked held result
        | Some (credential_failed _) => asked held result
        end
      else asked held result
  end.

(** [failure(failedIn, outcome)]: the phase and the class of a failure. *)
Definition failure_phase (failedIn : AcquisitionPhase) (outcome : AcquisitionOutcome) :=
  if bool_decide (outcome = oc_ok) then None else Some failedIn.
Definition failure_class (outcome : AcquisitionOutcome) : option string :=
  if bool_decide (outcome = oc_ok) then None else Some (name_of outcome).

(** [options.clock ? new Date(options.clock()).toISOString() : options.now] *)
Definition clock_text (clock : option num) (now : string) : option string :=
  match clock with None => Some now | Some t => iso_string (time_clip t) end.

(** The rows a successful answer comes to. *)
Definition read_snapshots (spec : AcquisitionSpec Request) (stamp : Stamp) (sent : AcquiredCredential)
    (accountId : string) (result : Attempt) : option (list Snapshot) :=
  if bool_decide (at_outcome result = oc_ok) then
    let? stamped := stamp (at_meters result) sent in
    Some (normalizeMeters (map (with_account accountId (spec_accountLabelFor spec sent)) stamped))
  else Some [].

(** What the answer of a request does to the round. *)
Definition settle_answer (spec : AcquisitionSpec Request) (stamp : Stamp) (world : ReadWorld) (now : string)
    (existing_attempts : Z) (sent : AcquiredCredential) (result : Attempt) (st : RoundState) :
    option RoundState :=
  let provider := spec_provider spec in
  let accountId := default (acquisitionAccountId provider sent) (spec_accountIdFor spec sent) in
  let disclosure := orElse (spec_disclosureFor spec sent) (spec_disclosure spec) in
  if at_missingCredential result then
    Some (push_row
      {| rw_availability := None; rw_retryAt := None; rw_provider := provider; rw_accountId := None;
         rw_detected := false; rw_status := as_not_detected;
         rw_reason := Some (CREDENTIAL_FAILURE_SENTENCE cr_absent); rw_nextAttemptAt := None;
         rw_disclosure := disclosure |}
      (set_schedule (schedule_delete provider (rs_schedule st)) st))
  else if at_expiredCredentials result then
    Some (push_row (expired_row spec sent disclosure)
      (set_schedule (schedule_delete provider (rs_schedule st)) st))
  else
    let? snapshots := read_snapshots spec stamp sent accountId result in
    let believed := bool_decide (at_outcome result = oc_ok) && negb (bool_decide (snapshots = [])) in
    let? attemptedAt := clock_text (wd_clock world) now in
    if believed then
      let? nextAttemptAt := nextSuccessInstant provider attemptedAt (s_resetAt <$> snapshots) in
      let entry :=
        {| sc_refusalRevision := None; sc_attempts := Some 0; sc_lastAttemptAt := now;
           sc_nextAttemptAt := default now nextAttemptAt; sc_outcome := oc_ok; sc_phase := None;
           sc_errorClass := None |} in
      Some (push_reports
        [{| ar_provider := provider; ar_accountId := Some accountId; ar_observedAt := now;
            ar_snapshots := snapshots;
            ar_complete := match at_complete result with Some c => c | None => false end |}]
        (push_row
          {| rw_availability := None; rw_retryAt := None; rw_provider := provider;
             rw_accountId := Some accountId; rw_detected := true; rw_status := as_read;
             rw_reason := None; rw_nextAttemptAt := nextAttemptAt; rw_disclosure := disclosure |}
          (set_schedule (schedule_set provider entry (rs_schedule st)) st)))
    else
      let nextAttemptAt :=
        nextAttemptInstant (at_outcome result) attemptedAt (at_retryAfterSeconds result)
          existing_attempts in
      let outcome := if bool_decide (at_outcome result = oc_ok) then oc_drift else at_outcome result in
      let entry :=
        {| sc_refusalRevision :=
             if refused outcome then Some (credentialRevision (cd_secret sent)) else None;
           sc_attempts := Some (existing_attempts + 1);
           sc_lastAttemptAt := now;
           sc_nextAttemptAt := default now nextAttemptAt;
           sc_outcome := outcome;
           sc_phase :=
             failure_phase (if bool_decide (at_outcome result = oc_ok) then ph_parse
                            else default ph_request (at_phase result)) outcome;
           sc_errorClass := failure_class outcome |} in
      Some (push_row
        {| rw_availability :=
             match outcome, nextAttemptAt with
             | oc_rate_limited, Some _ => Some rate_limited
             | _, _ =>
                 if bool_decide (provider = CLAUDE) && bool_decide (outcome = oc_drift)
                 then Some schema_drift else outcomeAvailability outcome
             end;
           rw_retryAt := if bool_decide (outcome = oc_rate_limited) then nextAttemptAt else None;
           rw_provider := provider; rw_accountId := Some accountId; rw_detected := true;
           rw_status := as_stale;
           rw_reason := Some (default (ACQUISITION_OUTCOME_SENTENCE outcome)
             (spec_outcomeSentence spec outcome));
           rw_nextAttemptAt := nextAttemptAt; rw_disclosure := disclosure |}
        (set_schedule (schedule_set provider entry (rs_schedule st)) st)).

(** One provider, start to finish; on a throw, the phase it was in. *)
Definition readOne (spec : AcquisitionSpec Request) (stamp : Stamp) (world : ReadWorld) (now : string)
    (leaseAttempts : option Z) (st : RoundState) : AcquisitionPhase + RoundState :=
  let provider := spec_provider spec in
  let existing := schedule_get (rs_schedule st) provider in
  if negb (spec_enabled spec) then inr (push_row (off_row spec) st)
  else
    let revision :=
      match existing with
      | Some e =>
          match sc_refusalRevision e with
          | Some _ => if refused (sc_outcome e) then revision_of (wd_credential world call_revision)
                      else Some None
          | None => Some None
          end
      | None => Some None
      end in
    match revision with
    | None => inl ph_credential
    | Some current =>
        let changedRefusal :=
          match current with
          | Some r => negb (bool_decide (Some r = (e ← existing; sc_refusalRevision e)))
          | None => false
          end in
        if negb (isProviderDue existing now) && negb changedRefusal
        then inr (push_row (due_later_row spec existing) st)
        else
          match wd_credential world call_read with
          | None => inl ph_credential
          | Some (credential_failed reason) =>
              inr (push_row (no_credential_row spec reason)
                (set_schedule (schedule_delete provider (rs_schedule st)) st))
          | Some (credential_ok held) =>
              if credentialExpired held (time_num (date_parse now)) then
                inr (push_row (expired_row spec held (spec_disclosure spec))
                  (set_schedule (schedule_delete provider (rs_schedule st)) st))
              else
                match ask spec world (bool_decide (is_Some leaseAttempts)) now held with
                | asked_throws phase => inl phase
                | asked sent result =>
                    match settle_answer spec stamp world now
                      (default 0 (orElse (e ← existing; sc_attempts e) leaseAttempts)) sent result st with
                    | Some st' => inr st'
                    | None => inl ph_request
                    end
                end
          end
    end.

(** ** The round *)

(** What [acquireMachineLease] answered. *)
Inductive LeaseAnswer := la_throws | la_refused | la_granted (attempts : Z).

(** What the world answers one provider's turn, beside its read: the lease,
    the clock, whether the lease was lost once the read was done, whether its
    completion, the caller's [persist] and the recording of a flag throw, and
    for the last line of defence whether the lease was lost by then, the clock
    and the error. *)
Record TurnWorld := {
  tw_read : ReadWorld;
  tw_lease : LeaseAnswer;
  tw_now : option num;
  tw_lost : bool;
  tw_completes : bool;
  tw_persists : AcquiredReport -> bool;
  tw_records : AcquisitionRow -> bool;
  tw_lostAfter : bool;
  tw_failedAt : option num;
  tw_error : Thrown;
  tw_innerFailedAt : option num;
  tw_innerError : Thrown }.

(** The options of a round the caller chose. *)
Record RoundOptions := {
  ro_now : string;
  ro_stamp : Stamp;
  ro_leases : bool;      (** a state directory was given *)
  ro_persists : bool     (** a [persist] was given *) }.

Definition waiting_row (spec : AcquisitionSpec Request) : AcquisitionRow :=
  plain_row spec true as_waiting
    (Some "another acquisition owns this provider or its retry deadline is pending").

Definition withFreshness (report : AcquiredReport) : option AcquiredReport :=
  let? snapshots := mapM withPolicyFreshness (ar_snapshots report) in
  Some {| ar_provider := ar_provider report; ar_accountId := ar_accountId report;
          ar_observedAt := ar_observedAt report; ar_snapshots := snapshots;
          ar_complete := ar_complete report |}.

(** The last line of defence: a throw is the provider's drift. *)
Definition failed_turn (spec : AcquisitionSpec Request) (now : string) (phase : AcquisitionPhase)
    (failedAt : option num) (error : Thrown) (st : RoundState) : RoundState :=
  let failedAt := default now (clock_text failedAt now) in
  let entry :=
    {| sc_refusalRevision := None; sc_attempts := None; sc_lastAttemptAt := failedAt;
       sc_nextAttemptAt := default failedAt (nextAttemptInstant oc_drift failedAt None 0);
       sc_outcome := oc_drift; sc_phase := Some phase; sc_errorClass := Some (errorClassOf error) |} in
  push_row (plain_row spec true as_stale (Some (ACQUISITION_OUTCOME_SENTENCE oc_drift)))
    (set_schedule (schedule_set (spec_provider spec) entry (rs_schedule st)) st).

(** Hand each report to the caller's [persist]: what was handed over before a
    throw, and whether none threw. *)
Fixpoint persist_reports (persists : AcquiredReport -> bool) (reports : list AcquiredReport) :
    list Effect * bool :=
  match reports with
  | [] => ([], true)
  | report :: reports =>
      match withFreshness report with
      | None => ([], false)
      | Some fresh =>
          if persists fresh
          then let '(l, ok) := persist_reports persists reports in (ef_persist fresh :: l, ok)
          else ([ef_persist fresh], false)
      end
  end.

Fixpoint record_rows (records : AcquisitionRow -> bool) (rows : list AcquisitionRow) :
    list Effect * bool :=
  match rows with
  | [] => ([], true)
  | row :: rows =>
      match rw_availability row with
      | None => record_rows records rows
      | Some availability =>
          let effect := ef_record availability (rw_retryAt row) (rw_accountId row) in
          if records row
          then let '(l, ok) := record_rows records rows in (effect :: l, ok)
          else ([effect], false)
      end
  end.

(** A turn without the shared lease. *)
Definition run_unleased (options : RoundOptions) (spec : AcquisitionSpec Request) (world : TurnWorld)
    (leaseAttempts : option Z) (failedAt : option num) (error : Thrown) (st : RoundState) : RoundState :=
  match readOne spec (ro_stamp options) (tw_read world) (ro_now options) leaseAttempts st with
  | inl phase => failed_turn spec (ro_now options) phase failedAt error st
  | inr st' =>
      if ro_persists options then
        let added := drop (length (rs_reports st)) (rs_reports st') in
        let '(effects, ok) := persist_reports (tw_persists world) added in
        let st' := push_effects (spec_provider spec) effects st' in
        if ok then st' else failed_turn spec (ro_now options) ph_request failedAt error st'
      else st'
  end.

(** The inner round of a leased turn: this provider alone, nothing persisted,
    on its own schedule and at its own instant. *)
Definition run_single (options : RoundOptions) (spec : AcquisitionSpec Request) (world : TurnWorld)
    (now : string) (attempts : Z) (schedule : AcquisitionSchedule) : option RoundState :=
  let inner :=
    run_unleased
      {| ro_now := now; ro_stamp := ro_stamp options; ro_leases := false; ro_persists := false |}
      spec world (Some attempts) (tw_innerFailedAt world) (tw_innerError world)
      {| rs_rows := []; rs_reports := []; rs_schedule := schedule; rs_effects := [] |} in
  let? reports := mapM withFreshness (rs_reports inner) in
  Some {| rs_rows := rs_rows inner; rs_reports := reports; rs_schedule := rs_schedule inner;
          rs_effects := rs_effects inner |}.

(** The schedule an inner round starts from: the lease's attempts count. *)
Definition local_schedule (p : ProviderCode) (attempts : Z) (schedule : AcquisitionSchedule) :
    AcquisitionSchedule :=
  match schedule_get schedule p with
  | None => schedule
  | Some previous =>
      schedule_set p
        {| sc_refusalRevision := sc_refusalRevision previous;
           sc_attempts := Some (Z.max (default 0 (sc_attempts previous)) attempts);
           sc_lastAttemptAt := sc_lastAttemptAt previous;
           sc_nextAttemptAt := sc_nextAttemptAt previous;
           sc_outcome := sc_outcome previous; sc_phase := sc_phase previous;
           sc_errorClass := sc_errorClass previous |} schedule
  end.

(** What the round takes from a single read once its lease was completed. *)
Definition publish (spec : AcquisitionSpec Request) (single st : RoundState) : RoundState :=
  let p := spec_provider spec in
  {| rs_rows := rs_rows st ++ rs_rows single;
     rs_reports := rs_reports st ++ rs_reports single;
     rs_schedule :=
       match schedule_get (rs_schedule single) p with
       | Some entry => schedule_set p entry (rs_schedule st)
       | None => schedule_delete p (rs_schedule st)
       end;
     rs_effects := rs_effects st |}.

Definition completion (entry : AcquisitionProviderSchedule) : Effect :=
  ef_complete (date_parse (sc_nextAttemptAt entry)) (default 0 (sc_attempts entry))
    (sc_refusalRevision entry).

(** A turn under the shared lease. *)
Definition run_leased (options : RoundOptions) (spec : AcquisitionSpec Request) (world : TurnWorld)
    (st : RoundState) : RoundState :=
  let p := spec_provider spec in
  let caught phase st' :=
    if tw_lostAfter world then push_row (waiting_row spec) st'
    else failed_turn spec (ro_now options) phase (tw_failedAt world) (tw_error world) st' in
  (** with no lease there is nothing to lose *)
  let caught_unleased st' :=
    failed_turn spec (ro_now options) ph_lease (tw_failedAt world) (tw_error world) st' in
  match revision_of (wd_credential (tw_read world) call_lease), tw_lease world with
  | None, _ | _, la_throws => caught_unleased st
  | Some _, la_refused => push_row (waiting_row spec) st
  | Some _, la_granted attempts =>
      match (let? now := clock_text (tw_now world) (ro_now options) in
             run_single options spec world now attempts
               (local_schedule p attempts (rs_schedule st))) with
      | None => caught ph_lease st
      | Some single =>
          if tw_lost world then push_row (waiting_row spec) st
          else
            let entry := schedule_get (rs_schedule single) p in
            let st := push_effects p (match entry with Some e => [completion e] | None => [] end) st in
            if bool_decide (is_Some entry) && negb (tw_completes world) then caught ph_persist st
            else
              let st := publish spec single st in
              let '(persisted, ok) :=
                if ro_persists options then persist_reports (tw_persists world) (rs_reports single)
                else ([], true) in
              let st := push_effects p persisted st in
              if negb ok then caught ph_persist st
              else
                let '(recorded, ok) := record_rows (tw_records world) (rs_rows single) in
                let st := push_effects p recorded st in
                if ok then st else caught ph_persist st
      end
  end.

Definition run_turn (options : RoundOptions) (st : RoundState)
    (turn : AcquisitionSpec Request * TurnWorld) : RoundState :=
  if ro_leases options && spec_enabled turn.1 then run_leased options turn.1 turn.2 st
  else run_unleased options turn.1 turn.2 None (tw_failedAt turn.2) (tw_error turn.2) st.

(** The round; [None] when freshening a report throws at its very end. *)
Definition runAcquisition (options : RoundOptions) (schedule : AcquisitionSchedule)
    (turns : list (AcquisitionSpec Request * TurnWorld)) : option RoundState :=
  let st := foldl (run_turn options)
    {| rs_rows := []; rs_reports := []; rs_schedule := schedule; rs_effects := [] |} turns in
  let? reports := mapM withFreshness (rs_reports st) in
  Some {| rs_rows := rs_rows st; rs_reports := reports; rs_schedule := rs_schedule st;
          rs_effects := rs_effects st |}.

(** ** Every provider answers for itself *)

(** What a turn adds to the round: rows, reports and effects of one provider,
    and at most that provider's schedule entry. *)
Record turn_of (p : ProviderCode) (st st' : RoundState) (rows : list AcquisitionRow) : Prop := {
  to_rows : rs_rows st' = rs_rows st ++ rows;
  to_own : Forall (fun row => rw_provider row = p) rows;
  to_reports : exists l, rs_reports st' = rs_reports st ++ l /\
    Forall (fun r => ar_provider r = p) l;
  to_schedule k : k <> name_of p -> assoc_get k (rs_schedule st') = assoc_get k (rs_schedule st);
  to_effects : exists l, rs_effects st' = rs_effects st ++ l /\ Forall (fun e => e.1 = p) l }.

Lemma turn_refl p st : turn_of p st st [].
Proof.
  split; [by rewrite app_nil_r|constructor| |done|]; exists []; by rewrite app_nil_r.
Qed.

Lemma turn_trans p st1 st2 st3 rows rows' :
  turn_of p st1 st2 rows -> turn_of p st2 st3 rows' -> turn_of p st1 st3 (rows ++ rows').
Proof.
  intros [R1 O1 (l1 & P1 & F1) S1 (e1 & E1 & G1)] [R2 O2 (l2 & P2 & F2) S2 (e2 & E2 & G2)].
  split.
  - by rewrite R2, R1, app_assoc.
  - by apply Forall_app.
  - exists (l1 ++ l2). rewrite P2, P1, app_assoc. split; [done|by apply Forall_app].
  - intros k Hk. by rewrite S2, S1.
  - exists (e1 ++ e2). rewrite E2, E1, app_assoc. split; [done|by apply Forall_app].
Qed.

Lemma turn_push_row p row st : rw_provider row = p -> turn_of p st (push_row row st) [row].
Proof.
  intros Hp. split; [done|by apply Forall_singleton| |done|]; exists []; by rewrite app_nil_r.
Qed.

Lemma assoc_get_filter_other k p (s : list (string * AcquisitionProviderSchedule)) :
  k <> name_of p -> assoc_get k (schedule_delete p s) = assoc_get k s.
Proof.
  intros Hk. unfold schedule_delete. induction s as [|[k' e] s IH]; [done|].
  rewrite filter_cons. cbn [fst]. case_decide as Hd; cbn [assoc_get]; rewrite IH; [done|].
  subst k'. by rewrite decide_False.
Qed.

Lemma turn_delete p st : turn_of p st (set_schedule (schedule_delete p (rs_schedule st)) st) [].
Proof.
  split; [by rewrite app_nil_r|constructor| | |]; try (exists []; by rewrite app_nil_r).
  intros k Hk. by apply assoc_get_filter_other.
Qed.

Lemma turn_set p e st : turn_of p st (set_schedule (schedule_set p e (rs_schedule st)) st) [].
Proof.
  split; [by rewrite app_nil_r|constructor| | |]; try (exists []; by rewrite app_nil_r).
  intros k Hk. cbn [set_schedule rs_schedule]. unfold schedule_set.
  by rewrite assoc_get_set, decide_False.
Qed.

Lemma turn_reports p l st :
  Forall (fun r => ar_provider r = p) l -> turn_of p st (push_reports l st) [].
Proof.
  intros Hl. split; [by rewrite app_nil_r|constructor| |done|].
  - by exists l.
  - exists []. by rewrite app_nil_r.
Qed.

Lemma turn_effects p l st : turn_of p st (push_effects p l st) [].
Proof.
  split; [by rewrite app_nil_r|constructor| |done|].
  - exists []. by rewrite app_nil_r.
  - exists (map (pair p) l). split; [done|]. apply Forall_map, Forall_true. by intros.
Qed.

Lemma turn_row_after p st st' row :
  turn_of p st st' [] -> rw_provider row = p -> turn_of p st (push_row row st') [row].
Proof. intros H1 Hp. exact (turn_trans _ _ _ _ _ _ H1 (turn_push_row p row st' Hp)). Qed.

Lemma failed_turn_of spec now phase failedAt error st :
  exists row, turn_of (spec_provider spec) st (failed_turn spec now phase failedAt error st) [row].
Proof. eexists. apply turn_row_after; [apply turn_set|done]. Qed.

Lemma settle_answer_turn spec stamp world now k sent result st st' :
  settle_answer spec stamp world now k sent result st = Some st' ->
  exists row, turn_of (spec_provider spec) st st' [row].
Proof.
  unfold settle_answer. destruct (at_missingCredential result).
  { intros [= <-]. eexists. apply turn_row_after; [apply turn_delete|done]. }
  destruct (at_expiredCredentials result).
  { intros [= <-]. eexists. apply turn_row_after; [apply turn_delete|done]. }
  destruct (read_snapshots _ _ _ _ _) as [snapshots|]; [|done].
  destruct (clock_text _ _) as [at_|]; [|done].
  destruct (bool_decide (at_outcome result = oc_ok) && negb (bool_decide (snapshots = []))).
  - destruct (nextSuccessInstant _ _ _) as [next|]; [|done]. intros [= <-]. eexists.
    eapply (turn_trans _ _ _ _ [_] []); [|apply turn_reports; by apply Forall_singleton].
    apply turn_row_after; [apply turn_set|done].
  - intros [= <-]. eexists. apply turn_row_after; [apply turn_set|done].
Qed.

(** A read that does not throw adds exactly one row. *)
Lemma readOne_turn spec stamp world now attempts st st' :
  readOne spec stamp world now attempts st = inr st' ->
  exists row, turn_of (spec_provider spec) st st' [row].
Proof.
  unfold readOne. destruct (negb (spec_enabled spec)).
  { intros [= <-]. eexists. by apply turn_push_row. }
  destruct (match schedule_get _ _ with Some _ => _ | None => _ end) as [current|]; [|done].
  destruct (negb _ && negb _); [intros [= <-]; eexists; by apply turn_push_row|].
  destruct (wd_credential world call_read) as [[held|reason]|]; [| |done].
  - destruct (credentialExpired held _).
    + intros [= <-]. eexists. apply turn_row_after; [apply turn_delete|done].
    + destruct (ask _ _ _ _ _) as [phase|sent result]; [done|].
      destruct (settle_answer _ _ _ _ _ _ _ _) as [st2|] eqn:E; [|done].
      intros [= <-]. by eapply settle_answer_turn.
  - intros [= <-]. eexists. apply turn_row_after; [apply turn_delete|done].
Qed.

(** Whether one of the writes that follow a read threw. *)
Definition a_write_threw (world : TurnWorld) : Prop :=
  (exists r, tw_persists world r = false \/ withFreshness r = None) \/
  (exists row, tw_records world row = false).

Lemma persist_reports_threw persists l : (persist_reports persists l).2 = false ->
  exists r, persists r = false \/ withFreshness r = None.
Proof.
  induction l as [|r l IH]; [done|]. cbn [persist_reports].
  destruct (withFreshness r) as [fresh|] eqn:Ef; [|by exists r; right].
  destruct (persists fresh) eqn:Ep; [|by exists fresh; left].
  destruct (persist_reports persists l) as [effects ok]. exact IH.
Qed.

Lemma run_unleased_turn options spec world attempts failedAt error st :
  exists rows, turn_of (spec_provider spec) st
    (run_unleased options spec world attempts failedAt error st) rows /\
    (length rows = 1%nat \/
     length rows = 2%nat /\ ro_persists options = true /\ a_write_threw world).
Proof.
  unfold run_unleased. destruct (readOne _ _ _ _ _ _) as [phase|st'] eqn:Er.
  { destruct (failed_turn_of spec (ro_now options) phase failedAt error st) as [row Hr].
    exists [row]. split; [done|by left]. }
  destruct (readOne_turn _ _ _ _ _ _ _ Er) as [row Hrow].
  destruct (ro_persists options); [|exists [row]; split; [done|by left]].
  pose proof (persist_reports_threw (tw_persists world) (drop (length (rs_reports st)) (rs_reports st')))
    as Hthrew.
  destruct (persist_reports _ _) as [effects ok]. cbn [snd] in Hthrew.
  pose proof (turn_trans _ _ _ _ _ _ Hrow (turn_effects (spec_provider spec) effects st')) as H2.
  rewrite app_nil_r in H2. destruct ok; [exists [row]; split; [done|by left]|].
  destruct (failed_turn_of spec (ro_now options) ph_request failedAt error
    (push_effects (spec_provider spec) effects st')) as [row' Hr'].
  exists ([row] ++ [row']). split; [by eapply turn_trans|right].
  split_and!; [done|done|]. left. by apply Hthrew.
Qed.

Lemma mapM_freshness_provider p l l' :
  Forall (fun r => ar_provider r = p) l -> mapM withFreshness l = Some l' ->
  Forall (fun r => ar_provider r = p) l'.
Proof.
  intros Hl E%mapM_Some. induction E as [|r r' l l' Hr _ IH]; [constructor|].
  apply Forall_cons in Hl as [Hp Hl]. constructor; [|by apply IH].
  unfold withFreshness in Hr. destruct (mapM _ _); [|done]. by injection Hr as <-.
Qed.

(** The inner round has the provider's own row and reports alone. *)
Lemma run_single_own options spec world now attempts schedule single :
  run_single options spec world now attempts schedule = Some single ->
  length (rs_rows single) = 1%nat /\
  Forall (fun row => rw_provider row = spec_provider spec) (rs_rows single) /\
  Forall (fun r => ar_provider r = spec_provider spec) (rs_reports single).
Proof.
  unfold run_single. set (inner := run_unleased _ _ _ _ _ _ _).
  destruct (mapM withFreshness (rs_reports inner)) as [reports|] eqn:Em; [|done]. intros [= <-].
  destruct (run_unleased_turn
    {| ro_now := now; ro_stamp := ro_stamp options; ro_leases := false; ro_persists := false |}
    spec world (Some attempts) (tw_innerFailedAt world) (tw_innerError world)
    {| rs_rows := []; rs_reports := []; rs_schedule := schedule; rs_effects := [] |})
    as (rows & [R O (l & P & F) _ _] & Hl). fold inner in R, P.
  cbn [rs_rows rs_reports app] in *. rewrite R.
  destruct Hl as [Hl|(_ & Hp & _)]; [|done]. split_and!; [done|done|].
  rewrite P in Em. by eapply mapM_freshness_provider.
Qed.

Lemma publish_turn spec single st :
  Forall (fun row => rw_provider row = spec_provider spec) (rs_rows single) ->
  Forall (fun r => ar_provider r = spec_provider spec) (rs_reports single) ->
  turn_of (spec_provider spec) st (publish spec single st) (rs_rows single).
Proof.
  intros Hr Hp. split; [done|done|by exists (rs_reports single)| |exists []; by rewrite app_nil_r].
  intros k Hk. cbn [publish rs_schedule]. destruct (schedule_get _ _); unfold schedule_set.
  - by rewrite assoc_get_set, decide_False.
  - by apply assoc_get_filter_other.
Qed.

Lemma record_rows_threw records l : (record_rows records l).2 = false ->
  exists row, records row = false.
Proof.
  induction l as [|row l IH]; [done|]. cbn [record_rows].
  destruct (rw_availability row); [|done].
  destruct (records row) eqn:Ep; [|by exists row].
  destruct (record_rows records l) as [effects ok]. exact IH.
Qed.

(** A caught throw adds the one row it is reported by. *)
Lemma caught_turn spec now phase failedAt error (lost : bool) st :
  exists row, turn_of (spec_provider spec) st
    (if lost then push_row (waiting_row spec) st else failed_turn spec now phase failedAt error st) [row].
Proof. destruct lost; [eexists; by apply turn_push_row|apply failed_turn_of]. Qed.

Lemma turn_then p st1 st2 st3 rows rows' all :
  turn_of p st1 st2 rows -> turn_of p st2 st3 rows' -> all = rows ++ rows' -> turn_of p st1 st3 all.
Proof. intros H1 H2 ->. by eapply turn_trans. Qed.

Lemma run_leased_turn options spec world st :
  exists rows, turn_of (spec_provider spec) st (run_leased options spec world st) rows /\
    (length rows = 1%nat \/ length rows = 2%nat /\ a_write_threw world).
Proof.
  set (p := spec_provider spec).
  assert (Hone : forall st' rows, length rows = 1%nat -> turn_of p st st' rows ->
    exists rows, turn_of p st st' rows /\ (length rows = 1%nat \/ length rows = 2%nat /\ a_write_threw world)).
  { intros st' rows Hl Ht. exists rows. split; [done|by left]. }
  assert (Hcaught : forall phase st1 rows, turn_of p st st1 rows ->
    exists row, turn_of p st (if tw_lostAfter world then push_row (waiting_row spec) st1
      else failed_turn spec (ro_now options) phase (tw_failedAt world) (tw_error world) st1) (rows ++ [row])).
  { intros phase st1 rows Ht.
    destruct (caught_turn spec (ro_now options) phase (tw_failedAt world) (tw_error world)
      (tw_lostAfter world) st1) as [row Hr].
    exists row. by eapply turn_trans. }
  unfold run_leased. fold p.
  assert (Hthrow : exists rows, turn_of p st
    (failed_turn spec (ro_now options) ph_lease (tw_failedAt world) (tw_error world) st) rows /\
    (length rows = 1%nat \/ length rows = 2%nat /\ a_write_threw world)).
  { destruct (failed_turn_of spec (ro_now options) ph_lease (tw_failedAt world) (tw_error world) st)
      as [row Hr]. by apply (Hone _ [row]). }
  destruct (revision_of _); [|exact Hthrow].
  destruct (tw_lease world) as [| |attempts]; [exact Hthrow| |].
  { apply (Hone _ [waiting_row spec]); [done|by apply turn_push_row]. }
  destruct (match clock_text _ _ with Some _ => _ | None => _ end) as [single|] eqn:Es.
  2:{ destruct (Hcaught ph_lease st [] (turn_refl p st)) as [row Hr]. by apply (Hone _ [row]). }
  destruct (clock_text _ _) as [now|]; [|done].
  destruct (run_single_own _ _ _ _ _ _ _ Es) as (Hlen & Hrows & Hreps).
  destruct (tw_lost world).
  { apply (Hone _ [waiting_row spec]); [done|by apply turn_push_row]. }
  set (st1 := push_effects p _ st). assert (H1 : turn_of p st st1 []) by apply turn_effects.
  destruct (bool_decide _ && negb _).
  { destruct (Hcaught ph_persist st1 [] H1) as [row Hr]. by apply (Hone _ [row]). }
  pose proof (turn_trans _ _ _ _ _ _ H1 (publish_turn spec single st1 Hrows Hreps)) as H2.
  set (persisting := if ro_persists options then _ else _).
  assert (Hp : persisting.2 = false -> a_write_threw world).
  { unfold persisting. destruct (ro_persists options); [|done].
    intros E%persist_reports_threw. by left. }
  destruct persisting as [persisted ok]. cbn [snd] in Hp.
  set (st3 := push_effects p persisted _).
  assert (H3 : turn_of p st st3 (rs_rows single)).
  { eapply turn_then; [exact H2|apply turn_effects|by rewrite app_nil_r]. }
  destruct ok; cbn [negb].
  2:{ destruct (Hcaught ph_persist st3 _ H3) as [row Hr]. exists (rs_rows single ++ [row]).
      split; [done|right]. rewrite length_app, Hlen. by split; [|apply Hp]. }
  pose proof (record_rows_threw (tw_records world) (rs_rows single)) as Hrec.
  destruct (record_rows (tw_records world) (rs_rows single)) as [recorded ok]. cbn [snd] in Hrec.
  set (st4 := push_effects p recorded st3).
  assert (H4 : turn_of p st st4 (rs_rows single)).
  { eapply turn_then; [exact H3|apply turn_effects|by rewrite app_nil_r]. }
  destruct ok; [by apply (Hone _ (rs_rows single))|].
  destruct (Hcaught ph_persist st4 _ H4) as [row Hr]. exists (rs_rows single ++ [row]).
  split; [done|right]. rewrite length_app, Hlen. split; [done|]. right. by apply Hrec.
Qed.

Lemma run_turn_turn options st turn :
  exists rows, turn_of (spec_provider turn.1) st (run_turn options st turn) rows /\
    (length rows = 1%nat \/ length rows = 2%nat /\ a_write_threw turn.2).
Proof.
  unfold run_turn. destruct (ro_leases options && spec_enabled turn.1); [apply run_leased_turn|].
  destruct (run_unleased_turn options turn.1 turn.2 None (tw_failedAt turn.2) (tw_error turn.2) st)
    as (rows & Ht & Hl). exists rows. split; [done|]. tauto.
Qed.

(** What a round adds: a group of rows per turn, and nothing about anybody
    else. *)
Definition own_rows (turn : AcquisitionSpec Request * TurnWorld) (rows : list AcquisitionRow) : Prop :=
  Forall (fun row => rw_provider row = spec_provider turn.1) rows /\
  (length rows = 1%nat \/ length rows = 2%nat /\ a_write_threw turn.2).

Lemma run_turns options turns st :
  let st' := foldl (run_turn options) st turns in
  exists groups, rs_rows st' = rs_rows st ++ concat groups /\ Forall2 own_rows turns groups /\
    (forall k, (forall turn, turn ∈ turns -> k <> name_of (spec_provider turn.1)) ->
       assoc_get k (rs_schedule st') = assoc_get k (rs_schedule st)) /\
    exists l, rs_reports st' = rs_reports st ++ l /\
      Forall (fun r => exists turn, turn ∈ turns /\ ar_provider r = spec_provider turn.1) l.
Proof.
  revert st. induction turns as [|turn turns IH]; intros st; cbn [foldl].
  - exists []. split_and!; [by rewrite app_nil_r|constructor|done|].
    exists []. by rewrite app_nil_r.
  - destruct (run_turn_turn options st turn) as (rows & [R O (l & P & F) S _] & Hl).
    destruct (IH (run_turn options st turn)) as (groups & ER & Hg & ES & l' & EP & Hl').
    exists (rows :: groups). split_and!.
    + cbn [concat]. by rewrite ER, R, app_assoc.
    + constructor; [by split|done].
    + intros k Hk. rewrite ES, S; [done|apply Hk; left|]. intros t Ht. apply Hk. by right.
    + exists (l ++ l'). rewrite EP, P, app_assoc. split; [done|]. apply Forall_app. split.
      * eapply Forall_impl; [exact F|]. intros r Hr. exists turn. split; [left|done].
      * eapply Forall_impl; [exact Hl'|]. intros r (t & Ht & Hr). exists t. split; [by right|done].
Qed.

(** A round answers for every provider, and for nobody else. However many
    providers fail or throw, each turn leaves one row of its own provider, or
    two when a write that follows its read threw; the schedule of a provider
    that had no turn is untouched, and no report is about such a provider. *)
Theorem a_round_answers_for_every_provider options schedule turns :
  match runAcquisition options schedule turns with
  | None => True
  | Some result =>
      exists groups, rs_rows result = concat groups /\ Forall2 own_rows turns groups /\
        (forall k, (forall turn, turn ∈ turns -> k <> name_of (spec_provider turn.1)) ->
           assoc_get k (rs_schedule result) = assoc_get k schedule) /\
        Forall (fun r => exists turn, turn ∈ turns /\ ar_provider r = spec_provider turn.1)
          (rs_reports result)
  end.
Proof.
  unfold runAcquisition. set (st0 := Build_RoundState _ _ _ _).
  destruct (run_turns options turns st0) as (groups & ER & Hg & ES & l & EP & Hl).
  destruct (mapM withFreshness _) as [reports|] eqn:Em; [|done].
  exists groups. cbn [rs_rows rs_schedule rs_reports]. split_and!; [done|done|done|].
  rewrite EP in Em. cbn [st0 rs_reports app] in Em. clear - Em Hl.
  apply mapM_Some in Em. induction Em as [|r r' l l' Hr _ IH]; [constructor|].
  apply Forall_cons in Hl as [(turn & Ht & Hp) Hl]. constructor; [|by apply IH].
  exists turn. split; [done|]. unfold withFreshness in Hr. destruct (mapM _ _); [|done].
  by injection Hr as <-.
Qed.

(** A lost lease publishes nothing. When the lease a provider was read
    under turns out to be lost, whatever the read found and wherever it got
    to, the round keeps its schedule, reports nothing, completes nothing and
    writes nothing: the provider is only said to be waiting. *)
Theorem a_lost_lease_publishes_nothing options spec world attempts st :
  is_Some (wd_credential (tw_read world) call_lease) -> tw_lease world = la_granted attempts ->
  tw_lost world = true -> tw_lostAfter world = true ->
  run_leased options spec world st = push_row (waiting_row spec) st.
Proof.
  intros [answer Ec] El Hlost Hafter. unfold run_leased. rewrite Ec, El, Hlost, Hafter.
  destruct (revision_of (Some answer)) as [r|] eqn:Er; [|by destruct answer].
  by destruct (match clock_text _ _ with Some _ => _ | None => _ end).
Qed.

(** ** What a reading is worth *)

Lemma with_account_id accountId label entry s :
  normalizeMeter (with_account accountId label entry) = Some s -> s_accountId s = Some accountId.
Proof.
  intros E. unfold normalizeMeter, with_account in E. cbn [record_of] in E.
  set (fs := match label with Some _ => _ | None => _ end) in E.
  assert (Ha : get fs "accountId" = JStr accountId).
  { unfold fs. destruct label; rewrite ?get_set; try done. }
  split_hyp E.
  rename select (readAccountId _ = Some _) into Er. rewrite Ha in Er. unfold readAccountId in Er.
  cbn [s_accountId]. destruct (account_id_pattern accountId); [|done]. by injection Er as <-.
Qed.

Lemma read_snapshots_own spec stamp sent accountId result snapshots :
  read_snapshots spec stamp sent accountId result = Some snapshots ->
  Forall (fun s => well_formed s /\ s_accountId s = Some accountId) snapshots.
Proof.
  unfold read_snapshots. case_bool_decide; [|intros [= <-]; constructor].
  destruct (stamp _ _) as [stamped|]; [|done]. intros [= <-]. apply Forall_forall.
  intros s (raw & Hin & Hn)%list_elem_of_omap. split; [by eapply normalizeMeter_wf|].
  apply list_elem_of_In, in_map_iff in Hin as (entry & <- & _). by eapply with_account_id.
Qed.

(** The account a login is filed under. *)
Definition account_of (spec : AcquisitionSpec Request) (sent : AcquiredCredential) : string :=
  default (acquisitionAccountId (spec_provider spec) sent) (spec_accountIdFor spec sent).

(** A report the round may stand by: of the provider and the instant, filed
    under the account of the login the requests carried, its rows being what
    validation left of the meters of that login's answer. *)
Definition believed_report (spec : AcquisitionSpec Request) (stamp : Stamp) (now : string)
    (sent : AcquiredCredential) (result : Attempt) (r : AcquiredReport) : Prop :=
  ar_provider r = spec_provider spec /\ ar_observedAt r = now /\
  ar_accountId r = Some (account_of spec sent) /\ ar_snapshots r <> [] /\
  (exists stamped, stamp (at_meters result) sent = Some stamped /\
     ar_snapshots r = normalizeMeters
       (map (with_account (account_of spec sent) (spec_accountLabelFor spec sent)) stamped)) /\
  Forall (fun s => well_formed s /\ s_accountId s = Some (account_of spec sent)) (ar_snapshots r).

(** The answer that was judged is the one given to the login [sent]: the one
    the store held, or, once that one was refused, the other one the store held
    by then. *)
Inductive answer_to (spec : AcquisitionSpec Request) (world : ReadWorld) (leased : bool) (now : string)
    (sent : AcquiredCredential) (result : Attempt) : Prop :=
  | answer_first :
      wd_credential world call_read = Some (credential_ok sent) ->
      attempt spec sent leased (wd_first world) now = Some result ->
      answer_to spec world leased now sent result
  | answer_reread held refusal :
      wd_credential world call_read = Some (credential_ok held) ->
      attempt spec held leased (wd_first world) now = Some refusal ->
      at_outcome refusal = oc_unauthorized ->
      wd_credential world call_reread = Some (credential_ok sent) ->
      cd_secret sent <> cd_secret held -> credentialExpired sent (time_num (date_parse now)) = false ->
      attempt spec sent leased (wd_second world) now = Some result ->
      answer_to spec world leased now sent result.

Lemma ask_answer spec world leased now held sent result :
  wd_credential world call_read = Some (credential_ok held) ->
  ask spec world leased now held = asked sent result -> answer_to spec world leased now sent result.
Proof.
  intros Hheld. unfold ask. destruct (attempt spec held leased (wd_first world) now) as [r|] eqn:E1; [|done].
  destruct (bool_decide _ && _ && _) eqn:Er; [|intros [= -> ->]; by apply answer_first].
  destruct (wd_credential world call_reread) as [[again|]|] eqn:Ec; [|intros [= -> ->]; by apply answer_first|done].
  destruct (negb _ && negb _) eqn:Ed; [|intros [= -> ->]; by apply answer_first].
  destruct (attempt spec again leased (wd_second world) now) as [r'|] eqn:E2; [|done].
  intros [= -> ->]. rewrite !andb_true_iff in Er. destruct Er as [[Er%bool_decide_eq_true _] _].
  apply andb_true_iff in Ed as [Es%negb_true_iff Ed%negb_true_iff].
  apply (answer_reread _ _ _ _ _ _ held r); try done. intros Heq. rewrite Heq in Es. by rewrite str_eqb_refl in Es.
Qed.

Lemma settle_answer_report spec stamp world now k sent result st st' :
  settle_answer spec stamp world now k sent result st = Some st' ->
  (exists row, rs_reports st' = rs_reports st /\ rs_rows st' = rs_rows st ++ [row] /\
     rw_status row <> as_read) \/
  (exists row report, rs_reports st' = rs_reports st ++ [report] /\
     rs_rows st' = rs_rows st ++ [row] /\ rw_status row = as_read /\
     rw_accountId row = Some (account_of spec sent) /\
     believed_report spec stamp now sent result report /\ at_outcome result = oc_ok).
Proof.
  unfold settle_answer. destruct (at_missingCredential result).
  { intros [= <-]. left. by eexists. }
  destruct (at_expiredCredentials result).
  { intros [= <-]. left. by eexists. }
  fold (account_of spec sent).
  destruct (read_snapshots _ _ _ _ _) as [snapshots|] eqn:Er; [|done].
  destruct (clock_text _ _) as [at_|]; [|done].
  destruct (bool_decide (at_outcome result = oc_ok) && negb (bool_decide (snapshots = []))) eqn:Eb.
  - apply andb_true_iff in Eb as [Eo En]. apply bool_decide_eq_true in Eo.
    apply negb_true_iff, bool_decide_eq_false in En.
    destruct (nextSuccessInstant _ _ _) as [next|]; [|done]. intros [= <-]. right.
    do 2 eexists. cbn [push_reports push_row set_schedule rs_reports rs_rows].
    do 3 (split; [done|]). split; [done|]. split; [|done].
    split_and!; try done; [|by eapply read_snapshots_own].
    unfold read_snapshots in Er. rewrite bool_decide_true in Er by done.
    destruct (stamp _ _) as [stamped|]; [|done]. injection Er as <-. by exists stamped.
  - intros [= <-]. left. by eexists.
Qed.

(** C4: A report is a believed read. A read of a provider reports at most
    once, and then its row says read: a login the store held, at first or
    after the first one was refused, was sent with every request of the attempt
    that succeeded; the rows reported are what validation left of that
    attempt's meters, at least one, each well formed; and report, rows and the
    row shown are filed under that very login's account. Any other ending
    reports nothing, and its row does not claim a reading. *)
Theorem a_report_is_a_believed_read spec stamp world now attempts st st' :
  readOne spec stamp world now attempts st = inr st' ->
  (exists row, rs_reports st' = rs_reports st /\ rs_rows st' = rs_rows st ++ [row] /\
     rw_status row <> as_read) \/
  (exists row report sent result,
     rs_reports st' = rs_reports st ++ [report] /\ rs_rows st' = rs_rows st ++ [row] /\
     rw_status row = as_read /\ rw_accountId row = Some (account_of spec sent) /\
     believed_report spec stamp now sent result report /\
     answer_to spec world (bool_decide (is_Some attempts)) now sent result /\ at_outcome result = oc_ok).
Proof.
  unfold readOne. destruct (negb (spec_enabled spec)).
  { intros [= <-]. left. by eexists. }
  destruct (match schedule_get _ _ with Some _ => _ | None => _ end) as [current|]; [|done].
  destruct (negb _ && negb _); [intros [= <-]; left; by eexists|].
  destruct (wd_credential world call_read) as [[held|reason]|] eqn:Eread; [| |done].
  2:{ intros [= <-]. left. eexists. split_and!; [done|done|]. simpl. by destruct reason. }
  destruct (credentialExpired held _); [intros [= <-]; left; by eexists|].
  destruct (ask _ _ _ _ _) as [phase|sent result] eqn:Ea; [done|].
  destruct (settle_answer _ _ _ _ _ _ _ _) as [st2|] eqn:E; [|done]. intros [= <-].
  apply settle_answer_report in E as [E|(row & report & E1 & E2 & E3 & E4 & E5 & E6)]; [by left|right].
  exists row, report, sent, result. split_and!; try done. by eapply ask_answer.
Qed.

(** A refused login is asked again only once it changes. While a refusal
    holds a provider back, a round that finds the very login the refusal names
    makes no request and changes nothing but its row; a round that finds
    another login asks with it at once. *)
Theorem a_refused_login_waits_until_it_changes spec stamp world now attempts st e r c held :
  spec_enabled spec = true ->
  schedule_get (rs_schedule st) (spec_provider spec) = Some e ->
  refused (sc_outcome e) = true -> sc_refusalRevision e = Some r ->
  isProviderDue (Some e) now = false ->
  wd_credential world call_revision = Some (credential_ok c) ->
  (credentialRevision (cd_secret c) = r ->
     readOne spec stamp world now attempts st = inr (push_row (due_later_row spec (Some e)) st)) /\
  (credentialRevision (cd_secret c) <> r ->
     wd_credential world call_read = Some (credential_ok held) ->
     credentialExpired held (time_num (date_parse now)) = false ->
     readOne spec stamp world now attempts st =
       match ask spec world (bool_decide (is_Some attempts)) now held with
       | asked_throws phase => inl phase
       | asked sent result =>
           match settle_answer spec stamp world now
             (default 0 (orElse (sc_attempts e) attempts)) sent result st with
           | Some st' => inr st'
           | None => inl ph_request
           end
       end).
Proof.
  intros Hen He Href Hrev Hdue Hc. unfold readOne. rewrite Hen, He, Hrev, Href, Hc, Hdue.
  cbn [negb revision_of mbind option_bind]. rewrite Hrev. split.
  - intros ->. by rewrite bool_decide_true.
  - intros Hne -> ->. by rewrite bool_decide_false by congruence.
Qed.

(** ** Every request earns a wait *)

Lemma schedule_get_set p e s : schedule_get (schedule_set p e s) p = Some e.
Proof. unfold schedule_get, schedule_set. by rewrite assoc_get_set, decide_True. Qed.

Lemma schedule_get_delete p s : schedule_get (schedule_delete p s) p = None.
Proof.
  unfold schedule_get, schedule_delete. apply assoc_get_None.
  intros ((k & e) & -> & [Hne _]%list_elem_of_filter)%list_elem_of_fmap. by apply Hne.
Qed.

(** Not due before an instant. *)
Definition held_until (e : AcquisitionProviderSchedule) (d : Z) : Prop :=
  forall later t, date_parse later = Some t -> t < d -> isProviderDue (Some e) later = false.

Lemma held_until_instant e next d :
  sc_nextAttemptAt e = next -> date_parse next = Some d -> held_until e d.
Proof.
  intros <- Ed later t Et Hlt. unfold isProviderDue. rewrite Et, Ed. apply Z.leb_gt. lia.
Qed.

Lemma attempt_held fallback outcome now t0 ra k e :
  date_parse now = Some t0 -> 0 <= k -> t0 + 604800000 <= MAX_POLICY_TIMESTAMP ->
  sc_nextAttemptAt e = default fallback (nextAttemptInstant outcome now ra k) ->
  held_until e (t0 + base_seconds outcome k * 1000).
Proof.
  intros Hnow Hk Hmax He later t Et Hlt.
  destruct (attempt_instant outcome now t0 ra k Hnow Hk Hmax) as (d & En & Hv & Hd & _).
  rewrite En in He. cbn [default] in He.
  apply (held_until_instant e (to_iso d) d He (date_parse_to_iso d Hv) later t Et). lia.
Qed.

Lemma settle_answer_held spec stamp world now asked_at t1 k sent result st st' :
  clock_text (wd_clock world) now = Some asked_at -> date_parse asked_at = Some t1 ->
  0 <= k -> t1 + 604800000 <= MAX_POLICY_TIMESTAMP ->
  settle_answer spec stamp world now k sent result st = Some st' ->
  if at_missingCredential result || at_expiredCredentials result
  then schedule_get (rs_schedule st') (spec_provider spec) = None
  else exists e, schedule_get (rs_schedule st') (spec_provider spec) = Some e /\
    (at_outcome result <> oc_ok -> sc_outcome e = at_outcome result) /\ held_until e (t1 + 1) /\
    (sc_outcome e <> oc_ok -> held_until e (t1 + base_seconds (sc_outcome e) k * 1000)).
Proof.
  intros Hclock Hat Hk Hmax. unfold settle_answer.
  assert (Hlater : forall d e, d > t1 -> held_until e d -> held_until e (t1 + 1)).
  { intros d e' Hd Hh later t Et Hlt. apply (Hh later t Et). lia. }
  destruct (at_missingCredential result).
  { intros [= <-]. apply schedule_get_delete. }
  destruct (at_expiredCredentials result).
  { intros [= <-]. apply schedule_get_delete. }
  destruct (read_snapshots _ _ _ _ _) as [snapshots|]; [|done].
  rewrite Hclock. cbn [orb].
  destruct (bool_decide (at_outcome result = oc_ok) && negb (bool_decide (snapshots = []))) eqn:Eb.
  - destruct (nextSuccessInstant _ _ _) as [next|] eqn:En; [|done]. intros [= <-].
    cbn [push_reports push_row set_schedule rs_schedule]. rewrite schedule_get_set. eexists. split; [done|].
    apply andb_true_iff in Eb as [Eo%bool_decide_eq_true _]. split; [done|].
    split; [|done]. unfold nextSuccessInstant in En. rewrite Hat in En. case_bool_decide as Ep.
    + destruct (claude_next asked_at t1 (s_resetAt <$> snapshots) Hat) as (d & Ed & Hvd & Hd & _ & _).
      { unfold MAX_POLICY_TIMESTAMP, max_time in *. lia. }
      unfold nextSuccessInstant in Ed. rewrite Hat, bool_decide_true in Ed by done.
      rewrite Ed in En. injection En as <-. apply (Hlater d); [lia|].
      by apply (held_until_instant _ (to_iso d)).
    + injection En as <-. pose proof (base_seconds_range oc_ok 0 ltac:(lia)).
      apply (Hlater (t1 + base_seconds oc_ok 0 * 1000)); [lia|].
      by eapply (attempt_held now oc_ok asked_at t1 None 0).
  - intros [= <-]. cbn [push_row set_schedule rs_schedule]. rewrite schedule_get_set.
    set (outcome := at_outcome result). set (e' := Build_AcquisitionProviderSchedule _ _ _ _ _ _ _).
    assert (Hh : held_until e' (t1 + base_seconds outcome k * 1000)).
    { by eapply (attempt_held now outcome asked_at t1 (at_retryAfterSeconds result) k). }
    pose proof (base_seconds_range outcome k Hk). exists e'. split; [done|]. split_and!.
    + intros Ho. cbn [e' sc_outcome]. fold outcome in Ho |- *. by rewrite bool_decide_false.
    + apply (Hlater (t1 + base_seconds outcome k * 1000)); [lia|done].
    + intros _. cbn [e' sc_outcome]. fold outcome. clear Eb. by case_bool_decide as Eo; [rewrite Eo in Hh|].
Qed.

(** A read goes on to look for a login: the poll is on, and the provider is
    due or the login it refused has changed. *)
Definition goes_on (spec : AcquisitionSpec Request) (world : ReadWorld) (now : string)
    (existing : option AcquisitionProviderSchedule) : bool :=
  spec_enabled spec &&
  (isProviderDue existing now ||
   match (e ← existing; check refused (sc_outcome e);; sc_refusalRevision e), wd_credential world call_revision with
   | Some r, Some (credential_ok c) => negb (str_eqb (credentialRevision (cd_secret c)) r)
   | _, _ => false
   end).

(** The login the store holds for it, unless it has expired. *)
Definition usable_login (world : ReadWorld) (now : string) : option AcquiredCredential :=
  match wd_credential world call_read with
  | Some (credential_ok held) =>
      if credentialExpired held (time_num (date_parse now)) then None else Some held
  | _ => None
  end.

(** C38: Every request earns a wait. A read that asked its provider and came
    back leaves an entry in the schedule whose instant is strictly ahead of the
    one the answer was settled at, the clock's or the round's, so the provider
    is not due again at once; after a failure the entry names that outcome and
    is not due for the whole backoff of it. The one exception is an attempt
    that found its login expired or its tool missing before it could ask: the
    entry is dropped, the remedy being on this machine. A read that asked
    nothing leaves the entry as it was, or drops it for the same reason. *)
Theorem a_request_earns_a_wait spec stamp world now asked_at t1 attempts st st' :
  clock_text (wd_clock world) now = Some asked_at -> date_parse asked_at = Some t1 ->
  t1 + 604800000 <= MAX_POLICY_TIMESTAMP ->
  let existing := schedule_get (rs_schedule st) (spec_provider spec) in
  let k := default 0 (orElse (x ← existing; sc_attempts x) attempts) in
  0 <= k ->
  readOne spec stamp world now attempts st = inr st' ->
  let settled := schedule_get (rs_schedule st') (spec_provider spec) in
  if goes_on spec world now existing then
    match usable_login world now with
    | None => settled = None
    | Some held =>
        exists sent result,
          ask spec world (bool_decide (is_Some attempts)) now held = asked sent result /\
          if at_missingCredential result || at_expiredCredentials result then settled = None
          else exists e, settled = Some e /\ (at_outcome result <> oc_ok -> sc_outcome e = at_outcome result) /\
            held_until e (t1 + 1) /\
            (sc_outcome e <> oc_ok -> held_until e (t1 + base_seconds (sc_outcome e) k * 1000))
    end
  else settled = existing.
Proof.
  intros Hclock Hat Hmax existing k Hk. unfold readOne, goes_on. fold existing.
  destruct (spec_enabled spec); cbn [negb andb].
  2:{ by intros [= <-]. }
  set (revision := match existing with Some _ => _ | None => _ end).
  set (changed := match (_ ← existing; _) with Some _ => _ | None => false end).
  assert (Hchanged : forall current, revision = Some current ->
    match current with
    | Some r => negb (bool_decide (Some r = (e ← existing; sc_refusalRevision e)))
    | None => false
    end = changed).
  { intros current. unfold revision, changed. destruct existing as [e|]; [|by intros [= <-]].
    cbn [mbind option_bind]. destruct (sc_refusalRevision e) as [r|] eqn:Er.
    2:{ intros [= <-]. by destruct (refused (sc_outcome e)). }
    destruct (refused (sc_outcome e)); [|by intros [= <-]]. unfold revision_of.
    destruct (wd_credential world call_revision) as [[c|]|]; [|by intros [= <-]|done]. intros [= <-].
    unfold str_eqb. by case_bool_decide as E1; case_bool_decide as E2; congruence. }
  destruct revision as [current|]; [|done]. rewrite (Hchanged _ eq_refl).
  rewrite <- negb_orb. destruct (isProviderDue existing now || changed); cbn [negb].
  2:{ by intros [= <-]. }
  unfold usable_login. destruct (wd_credential world call_read) as [[held|reason]|]; [| |done].
  2:{ intros [= <-]. apply schedule_get_delete. }
  destruct (credentialExpired held _).
  { intros [= <-]. apply schedule_get_delete. }
  destruct (ask _ _ _ _ _) as [phase|sent result]; [done|].
  destruct (settle_answer _ _ _ _ _ _ _ _) as [st2|] eqn:E; [|done]. intros [= <-].
  exists sent, result. split; [done|]. by eapply settle_answer_held.
Qed.
End Runner.

(** ** Witnesses *)

Definition sample_now : string := "2026-01-01T00:00:00.000Z".

Definition sample_answers (status : Z) : ReadWorld (Request := nat) :=
  {| wd_credential _ := Some (credential_ok sample_credential);
     wd_first := sample_replies status (int 1767225600000);
     wd_second := sample_replies status (int 1767225600000);
     wd_clock := None |}.

Definition sample_provider : AcquisitionSpec nat := sample_spec [raw_of_snapshot sample_row].

Definition sample_stamp : Stamp := fun meters _ => Some meters.

Definition empty_round (schedule : AcquisitionSchedule) : RoundState :=
  {| rs_rows := []; rs_reports := []; rs_schedule := schedule; rs_effects := [] |}.

(** The first login is refused, and the store holds another one by then. *)
Definition renewed_credential : AcquiredCredential :=
  {| cd_secret := "def"; cd_accountId := None; cd_identityMaterial := Some "renewed";
     cd_expiresAtMilliseconds := None; cd_origin := vendor_file;
     cd_codexHome := None; cd_executable := None |}.

Definition renewed_answers : ReadWorld (Request := nat) :=
  {| wd_credential call :=
       Some (credential_ok match call with call_reread => renewed_credential | _ => sample_credential end);
     wd_first := sample_replies 401 (int 1767225600000);
     wd_second := sample_replies 200 (int 1767225600000);
     wd_clock := Some (int 1767225605000) |}.

Lemma a_report_is_a_believed_read_witness :
  exists report, ar_accountId report = Some (account_of (H0 := plain_crypto) sample_provider renewed_credential) /\
    ar_snapshots report <> [].
Proof.
  assert (Hl : match readOne (H := strict_host) (H0 := plain_crypto) sample_provider
    sample_stamp renewed_answers sample_now None (empty_round []) with
    | inr st' => length (rs_reports st') | inl _ => 0%nat end = 1%nat) by (vm_compute; reflexivity).
  destruct (readOne (H := strict_host) (H0 := plain_crypto) sample_provider sample_stamp
    renewed_answers sample_now None (empty_round [])) as [phase|st'] eqn:E; [discriminate Hl|].
  destruct (a_report_is_a_believed_read (H := strict_host) (H0 := plain_crypto) _ _ _ _ _ _ _ E)
    as [(row & Hr & _)|(row & report & sent & result & _ & _ & _ & _ & (_ & _ & Ha & Hn & _) & Hto & Ho)].
  { rewrite Hr in Hl. discriminate Hl. }
  assert (Hsent : sent = renewed_credential).
  { destruct Hto as [Hc Hf|held refusal _ _ _ Hc _ _ _]; injection Hc as <-; [|reflexivity].
    assert (Hr : attempt (H0 := plain_crypto) sample_provider sample_credential
      (bool_decide (is_Some (None : option Z))) (wd_first renewed_answers) sample_now =
      Some (failed_attempt oc_unauthorized None ph_request)) by (vm_compute; reflexivity).
    rewrite Hr in Hf. injection Hf as <-. discriminate Ho. }
  subst sent. exists report. exact (conj Ha Hn).
Defined.

(** Refused at the first request, five seconds into the round. *)
Definition clocked_answers : ReadWorld (Request := nat) :=
  {| wd_credential _ := Some (credential_ok sample_credential);
     wd_first := sample_replies 401 (int 1767225605000);
     wd_second := sample_replies 401 (int 1767225605000);
     wd_clock := Some (int 1767225605000) |}.

Lemma a_request_earns_a_wait_witness :
  exists e, sc_outcome e = oc_unauthorized /\
    held_until (H := strict_host) e (1767225605000 + 86400000).
Proof.
  assert (Hs : match readOne (H := strict_host) (H0 := plain_crypto) sample_provider
    sample_stamp clocked_answers sample_now None (empty_round []) with
    | inr st' => sc_outcome <$> schedule_get (rs_schedule st') CODEX | inl _ => None end
    = Some oc_unauthorized) by (vm_compute; reflexivity).
  destruct (readOne (H := strict_host) (H0 := plain_crypto) sample_provider sample_stamp
    clocked_answers sample_now None (empty_round [])) as [phase|st'] eqn:E; [discriminate Hs|].
  destruct (schedule_get (rs_schedule st') CODEX) as [e|] eqn:He; [|discriminate Hs].
  injection Hs as Ho. exists e. split; [exact Ho|].
  assert (Hclock : clock_text (wd_clock clocked_answers) sample_now = Some "2026-01-01T00:00:05.000Z")
    by (vm_compute; reflexivity).
  assert (Hat : date_parse "2026-01-01T00:00:05.000Z" = Some 1767225605000) by (vm_compute; reflexivity).
  assert (Hmax : 1767225605000 + 604800000 <= MAX_POLICY_TIMESTAMP) by (vm_compute; discriminate).
  assert (Hgo : goes_on (H0 := plain_crypto) sample_provider clocked_answers sample_now None = true)
    by (vm_compute; reflexivity).
  assert (Hlogin : usable_login (H0 := plain_crypto) clocked_answers sample_now = Some sample_credential)
    by (vm_compute; reflexivity).
  pose proof (a_request_earns_a_wait (H := strict_host) (H0 := plain_crypto) sample_provider sample_stamp
    clocked_answers sample_now "2026-01-01T00:00:05.000Z" 1767225605000 None (empty_round []) st'
    Hclock Hat Hmax ltac:(vm_compute; discriminate) E) as Hw.
  cbv zeta in Hw.
  change (schedule_get (rs_schedule (empty_round [])) (spec_provider sample_provider))
    with (@None AcquisitionProviderSchedule) in Hw.
  rewrite Hgo, Hlogin in Hw. change (spec_provider sample_provider) with CODEX in Hw. rewrite He in Hw.
  destruct Hw as (sent & result & _ & Hw).
  destruct (at_missingCredential result || at_expiredCredentials result); [discriminate Hw|].
  destruct Hw as (e' & He' & _ & _ & Hh). injection He' as <-. rewrite Ho in Hh. apply Hh. discriminate.
Defined.

Definition refused_login : AcquisitionProviderSchedule :=
  {| sc_refusalRevision := Some (credentialRevision (H := plain_crypto) "abc"); sc_attempts := Some 1;
     sc_lastAttemptAt := sample_now; sc_nextAttemptAt := "2026-01-02T00:00:00.000Z";
     sc_outcome := oc_unauthorized; sc_phase := Some ph_request; sc_errorClass := Some "unauthorized" |}.

Lemma a_refused_login_waits_until_it_changes_witness :
  readOne (H := strict_host) (H0 := plain_crypto) sample_provider sample_stamp (sample_answers 200)
    sample_now None (empty_round [("CODEX", refused_login)]) =
  inr (push_row (due_later_row sample_provider (Some refused_login))
         (empty_round [("CODEX", refused_login)])).
Proof.
  apply (a_refused_login_waits_until_it_changes (H := strict_host) (H0 := plain_crypto)
    sample_provider sample_stamp (sample_answers 200) sample_now None
    (empty_round [("CODEX", refused_login)]) refused_login
    (credentialRevision (H := plain_crypto) "abc") sample_credential sample_credential);
    vm_compute; reflexivity.
Defined.

(** Lost while the read went on. *)
Definition lost_turn : TurnWorld (Request := nat) :=
  {| tw_read := sample_answers 200; tw_lease := la_granted 0; tw_now := Some (int 1767225600000);
     tw_lost := true; tw_completes := true; tw_persists _ := true; tw_records _ := true;
     tw_lostAfter := true; tw_failedAt := None; tw_error := {| th_code := JUndef; th_name := None |};
     tw_innerFailedAt := None; tw_innerError := {| th_code := JUndef; th_name := None |} |}.

Lemma a_lost_lease_publishes_nothing_witness :
  let options := {| ro_now := sample_now; ro_stamp := sample_stamp; ro_leases := true;
                    ro_persists := true |} in
  run_leased (H := strict_host) (H0 := plain_crypto) options sample_provider lost_turn (empty_round []) =
  push_row (waiting_row sample_provider) (empty_round []).
Proof.
  apply (a_lost_lease_publishes_nothing (H := strict_host) (H0 := plain_crypto) _ _ _ 0);
    [by eexists|reflexivity|reflexivity|reflexivity].
Defined.
